(* ===== verification/_CoqProject ===== *)
-Q . S2P
Prelude.v
Kernel.v
PageAlloc.v
PageTable.v
PageTableInv.v
PageTableSpec.v
PageTableProps.v
Boot.v
BootProps.v
Ept.v
EptProps.v
Mmu.v
Vmx.v
Env.v
EnvProps.v
SchedProps.v
Syscall.v
SyscallProps.v
SharedSlot.v
Trap.v
TrapProps.v
User.v
Fork.v
CowProps.v
ForkProps.v
Console.v
ConsoleProps.v
Spinlock.v
CString.v
Printfmt.v
Fs.v
FsServ.v
FsProps.v
Pipe.v
Args.v
LwipMem.v
LwipMemProps.v
LwipRegions.v
Memp.v
Pbuf.v
PbufProps.v
PbufOps.v
SysArch.v
SysArchProps.v
Inet.v
InetChksum.v
VmExits.v
VmExitsProps.v
Fd.v
FdProps.v
Dwarf.v
DwarfProps.v
DwarfLine.v
DwarfLineProps.v
Kdebug.v
KdebugProps.v
Sh.v
ShProps.v
