(* ===== verification/Prelude.v ===== *)
(** * A verification development for JOS

    JOS is a small operating system for x86-64 in C: a kernel with paging,
    environments, system calls and interprocess communication; a user library
    that builds copy-on-write fork, pipes and files on top of it; a file server;
    and a virtual machine monitor that runs a guest on Intel VMX.  This library
    translates the C functions into Rocq and proves what they promise.

    ** Conventions

    C integers are values of [Z] kept in the range of their type by the
    conversions [u8] ... [s64] where an operation can leave it.  A function that
    changes state is a computation of the monad [M S A] (Prelude): it returns
    ([Ret]), panics ([Panic]: an explicit panic, a failed assertion or a null
    dereference) or gives the processor away and does not come back ([NoRet]:
    [iret], [hlt], a loop that waits for somebody else).  Loops over a known
    range are [forM] and [foldM]; a [while] loop is [loop] with a bound stated at
    its use.  The kernel works on one record [kstate] (Kernel): the page array
    and free list, physical memory as pages of 512 words, the environments, the
    control registers, the TLB shoot-downs, the console queues.  A pointer of the
    kernel is its virtual address [kva page offset].

    ** Files

    - Prelude: integers, the monad, its tactics and loop rules.
    - Kernel: the records of inc/env.h, inc/trap.h, inc/vmx.h, constants of
      inc/mmu.h, inc/memlayout.h and inc/error.h, addresses of kern/pmap.h,
      memory accesses.
    - PageAlloc: boot_alloc, page_init, page_alloc, page_free and page_decref of
      kern/pmap.c; the free list as a list of pages.
    - PageTable, PageTableInv, PageTableSpec, PageTableProps: the four-level
      tables of kern/pmap.c (walks, page_insert, page_remove, page_lookup,
      boot_map_region, mmio_map_region, user_mem_check).  PageTableInv has the
      invariant [pt_inv k own l s]: [own] says which page is which table of which
      address space, [l] is the free list; entries of tables lead to tables,
      references are at least the number of mappings.  PageTableSpec gives each
      operation in terms of the abstract map [pte_of s root va]; PageTableProps
      states the theorems and runs them on concrete machines.
    - Boot, BootProps: the start of the kernel in kern/pmap.c (multiboot_read,
      i386_detect_memory, x64_vm_init, mem_init_mp).
    - Ept, EptProps: vmm/ept.c, the tables of a guest, over the same invariant.
    - Mmu: what the processor does with the tables, for accesses through virtual
      addresses.
    - Vmx: vmm/vmx.c over the class [VmxHw] of the VMX instructions.
    - Env, EnvProps, SchedProps: kern/env.c and kern/sched.c.
    - Syscall, SyscallProps: kern/syscall.c with the dispatcher.
    - SharedSlot: the addresses from 2^39 to UTOP, which environments share.
    - Trap, TrapProps: kern/trap.c.
    - User: accesses in user mode, the stubs of lib/syscall.c, the tables seen
      through the recursive slot as in lib/entry.S.
    - Fork, CowProps, ForkProps: lib/fork.c and lib/pgfault.c.
    - Console, ConsoleProps: kern/console.c, kern/picirq.c and kern/kclock.c over
      the class [ConsDev] of the devices.
    - Spinlock: kern/spinlock.c with one step per memory access, and kern/time.c.
    - CString, Printfmt: lib/string.c and lib/printfmt.c.
    - Fs, FsServ, FsProps: fs/fs.c, fs/bc.c and fs/serv.c.
    - Pipe: lib/pipe.c, reader and writer as interleaved steps.
    - Args: lib/args.c.
    - LwipMem, LwipMemProps: net/lwip/core/mem.c, the heap of the network stack.
    - LwipRegions, Memp, Pbuf, PbufProps, PbufOps: net/lwip/core/memp.c and
      pbuf.c, the pools and the packet buffers over them and the heap.
    - SysArch, SysArchProps: net/lwip/jos/arch/thread.c, threadq.h and
      sys_arch.c, the threads, semaphores and mailboxes of the network server.
    - Inet, InetChksum: net/lwip/core/ipv4/inet.c and inet_chksum.c.
    - VmExits, VmExitsProps: vmm/vmexits.c and vmexit of vmm/vmx.c.
    - Fd, FdProps: lib/fd.c, lib/pageref.c and the creation and closing of pipes
      in lib/pipe.c, by a running environment.
    - Dwarf, DwarfProps: kern/libdwarf_rw.c, the reader of debugging information.
    - DwarfLine, DwarfLineProps: kern/libdwarf_lineno.c, the line-number programs.
    - Kdebug, KdebugProps: kern/kdebug.c and find_debug_sections of
      kern/elf_rw.c, the function and the line of an address.
    - Sh, ShProps: runcmd and gettoken of user/sh.c.

    ** What the theorems show

    Memory.  The allocator is a set of free pages ([page_alloc_refines],
    [page_free_refines]); the table operations change exactly one entry of one
    address space, for the addresses below 2^39, and keep the invariant
    ([page_insert_refines], [page_remove_refines]); from there to UTOP every
    address space has the kernel's tables and what one environment maps all of
    them see ([utop_pages_shared]); the start of the kernel
    establishes that invariant and maps what inc/memlayout.h shows
    ([boot_kernel_space]); the user memory check
    accepts exactly the readable ranges ([user_mem_check_decides]); a guest gets
    the memory it was promised ([guest_static_memory]).

    Environments.  Identifiers are fresh, allocation gives an empty address
    space below 2^39, the scheduler is round robin and starves nobody while no guest
    runs, a page fault reaches the handler of the environment, no call but the
    sending of a message acts on an environment that is neither the caller nor its
    child ([syscall_authority]).

    User library.  [fork_copies]: after fork the child has every page of its
    parent and no page that is not marked as shared is writable for either;
    [pgfault_private_copy]: the first write then copies the page.  The file
    server reads what is on the disk, a pipe and the console are queues, printed
    numbers read back, flags end.

    Network stack.  The heap is a list of blocks: any sequence of calls takes the
    first block that fits and joins free neighbours ([mem_heap_refines]), and a
    new region is disjoint from those in use ([mem_malloc_region]).  The three
    versions of the checksum agree with RFC 1071 ([chksum_versions_agree]), also
    over chains ([inet_chksum_pseudo_rfc]), and a packet with its checksum
    verifies ([inet_chksum_verifies]); addresses read back ([inet_aton_ntoa]).
    A packet buffer is a chain of pieces of pools and heap that nobody else has
    ([pbuf_alloc_packet]), comes back to them when its last reference goes
    ([pbuf_free_releases]), is cut ([pbuf_realloc_shrinks]) and copied
    ([pbuf_copy_packet]).  Between threads, a mailbox is a queue whatever the
    order of their calls ([mailbox_fifo]), and a thread whose semaphore was
    signalled takes it in its next turn ([mailbox_wakes]).

    Composition.  [handle_eptviolation_fresh]: a fault of the guest gives it one
    page nobody else has, or ends it.  [pipe_close_seen]: system calls, page
    tables and user code together make a pipe whose ends see each other close.

    Debugging information.  [dwarf_tree_walk]: the encoding of a tree of entries
    with its table of abbreviations is read back, child by child and sibling by
    sibling.  [function_line]: the encoding of a line-number program is run to
    the row that covers an address, and reported with the function around it.

    Shell.  [runcmd_refines]: a command line that fits is run as the list of its
    tokens, with the calls of a program on lists in the same order, whatever the
    system answers.

    ** Bounds and fuel

    [loop] in [user_mem_check], [file_read] and the other loops has one round
    more than the number of pages, blocks or characters, which the theorems show
    to be enough; [wait_ready] (Console) has the 12800 rounds of the source;
    [cons_intr] is given its fuel and the theorems state how much the input
    needs; [printnum_rec] is 64 deep because the number has 64 bits; the loops of
    Dwarf have the same [fuel], and one round for each byte is enough; the shell
    needs eleven rounds more than the line has characters; a walk over a chain of
    buffers or the queue of threads needs one more than it has elements.

    ** Not modelled

    Assembly (boot, trap entry, [iret] paths, the VMX entry) is represented by
    its effect on the record of registers.  The processor does not cache
    translations except through the list of shoot-downs.  Only one processor runs
    the kernel at a time, under the big kernel lock; the lock itself is modelled
    for any number of processors.  The memory accesses a user program makes to
    its own stack and globals between the calls of [fork] are not part of the
    model; a write that faults there runs [pgfault].  Not modelled: the
    monitor, the frame tables of DWARF (nothing reads them), lib/spawn.c,
    lib/ipc.c, lib/malloc.c and lib/file.c of the user library, PCI and multiprocessor
    tables and the local APIC (device registers and firmware tables), the protocols of net/lwip
    (third party) and the network server, the programs of user/ other than the
    command lines of the shell, and vmm/guest, which is a second copy of these sources. *)

From stdpp Require Export base numbers list gmap strings.
From Stdlib Require Export ZArith Lia.
From Stdlib Require Import Btauto.

#[global] Open Scope Z_scope.

(** ** Machine integers

    C integers are values of [Z]; an operation that can leave the range of
    its type is followed by the conversion to that type. *)

Definition u8 (x : Z) : Z := x mod 2 ^ 8.
Definition u16 (x : Z) : Z := x mod 2 ^ 16.
Definition u32 (x : Z) : Z := x mod 2 ^ 32.
Definition u64 (x : Z) : Z := x mod 2 ^ 64.
Definition s8 (x : Z) : Z := (x + 2 ^ 7) mod 2 ^ 8 - 2 ^ 7.
Definition s32 (x : Z) : Z := (x + 2 ^ 31) mod 2 ^ 32 - 2 ^ 31.
Definition s64 (x : Z) : Z := (x + 2 ^ 63) mod 2 ^ 64 - 2 ^ 63.

(** C truth values: an integer used as a condition. *)
Definition nz (x : Z) : bool := negb (x =? 0).

(** Character codes of a literal. *)
Definition chars (s : string) : list Z := (fun c => Z.of_N (Strings.Ascii.N_of_ascii c)) <$> String.list_ascii_of_string s.

(** Ltac for the recurring shapes. *)

Ltac split_ands := repeat match goal with |- _ /\ _ => split end.

(** Case analysis on the boolean comparison a program branches on. *)
Ltac bcase :=
  match goal with
  | |- context [?a =? ?b] => destruct (Z.eqb_spec a b)
  | |- context [?a <? ?b] => destruct (Z.ltb_spec a b)
  | |- context [?a <=? ?b] => destruct (Z.leb_spec a b)
  | |- context [?a >? ?b] => rewrite (Z.gtb_ltb a b)
  | |- context [?a >=? ?b] => rewrite (Z.geb_leb a b)
  end.

(** Membership in explicit lists. *)
Ltac lset :=
  repeat match goal with
  | H : _ ∉ _ :: _ |- _ => rewrite not_elem_of_cons in H; destruct H
  | H : _ ∈ _ :: _ |- _ => rewrite elem_of_cons in H; destruct H
  | H : _ ∈ [] |- _ => by apply elem_of_nil in H
  end;
  first [ assumption | congruence
        | match goal with
          | |- _ ∉ _ :: _ => rewrite not_elem_of_cons; split; [congruence|assumption]
          | |- _ ∈ _ :: _ => rewrite elem_of_cons; first [left; congruence | right; assumption]
          end
        | set_solver ].

Create HintDb jos.

Lemma u64_small x : 0 <= x < 2 ^ 64 -> u64 x = x.
Proof. apply Z.mod_small. Qed.

Lemma u32_small x : 0 <= x < 2 ^ 32 -> u32 x = x.
Proof. apply Z.mod_small. Qed.

Lemma u16_small x : 0 <= x < 2 ^ 16 -> u16 x = x.
Proof. apply Z.mod_small. Qed.

Lemma u64_range x : 0 <= u64 x < 2 ^ 64.
Proof. apply Z.mod_pos_bound; lia. Qed.

Lemma u32_range x : 0 <= u32 x < 2 ^ 32.
Proof. apply Z.mod_pos_bound; lia. Qed.

Lemma u16_range x : 0 <= u16 x < 2 ^ 16.
Proof. apply Z.mod_pos_bound; lia. Qed.

Lemma s32_range x : - 2 ^ 31 <= s32 x < 2 ^ 31.
Proof. unfold s32. pose proof (Z.mod_pos_bound (x + 2 ^ 31) (2 ^ 32)). lia. Qed.

Lemma s32_small x : - 2 ^ 31 <= x < 2 ^ 31 -> s32 x = x.
Proof. intros H. unfold s32. rewrite Z.mod_small; lia. Qed.

Lemma s64_small x : - 2 ^ 63 <= x < 2 ^ 63 -> s64 x = x.
Proof. intros H. unfold s64. rewrite Z.mod_small; lia. Qed.

Lemma nz_true x : nz x = true <-> x <> 0.
Proof. unfold nz. rewrite negb_true_iff, Z.eqb_neq. tauto. Qed.

Lemma nz_false x : nz x = false <-> x = 0.
Proof. unfold nz. rewrite negb_false_iff, Z.eqb_eq. tauto. Qed.

(** A value that fits a byte. *)
Definition byte (x : Z) : Prop := 0 <= x < 256.

(** *** Masks and shifts as div and mod *)

Lemma land_mask (x n : Z) : 0 <= n -> Z.land x (2 ^ n - 1) = x mod 2 ^ n.
Proof. intros Hn. replace (2 ^ n - 1) with (Z.ones n) by (rewrite Z.ones_equiv; lia).
  by apply Z.land_ones. Qed.

Lemma land_clear (x n : Z) : 0 <= n -> Z.land x (Z.lnot (2 ^ n - 1)) = x - x mod 2 ^ n.
Proof.
  intros Hn. rewrite <- (land_mask x n Hn).
  assert (Z.land x (Z.lnot (2 ^ n - 1)) + Z.land x (2 ^ n - 1) = x) as H; [|lia].
  rewrite Z.add_nocarry_lxor.
  - apply Z.bits_inj'. intros i Hi.
    rewrite Z.lxor_spec, !Z.land_spec, Z.lnot_spec by done.
    by destruct (Z.testbit x i), (Z.testbit (2 ^ n - 1) i).
  - apply Z.bits_inj'. intros i Hi.
    rewrite !Z.land_spec, Z.lnot_spec, Z.bits_0 by done.
    by destruct (Z.testbit x i), (Z.testbit (2 ^ n - 1) i).
Qed.

(** A multiple of [2^n] and a value below [2^n] share no bit. *)
Lemma lor_disjoint (a f n : Z) :
  0 <= n -> 0 <= f < 2 ^ n -> Z.lor (a * 2 ^ n) f = a * 2 ^ n + f.
Proof.
  intros Hn Hf.
  rewrite <- Z.add_lor_land.
  replace (Z.land (a * 2 ^ n) f) with 0; [lia|].
  apply Z.bits_inj'. intros i Hi. rewrite Z.bits_0, Z.land_spec.
  destruct (Z.lt_ge_cases i n).
  - rewrite Z.mul_pow2_bits_low by lia. done.
  - rewrite <- (Z.mod_small f (2 ^ n)) by lia.
    rewrite Z.mod_pow2_bits_high by lia. by rewrite andb_false_r.
Qed.

Lemma lor_range (a b n : Z) :
  0 <= n -> 0 <= a < 2 ^ n -> 0 <= b < 2 ^ n -> 0 <= Z.lor a b < 2 ^ n.
Proof.
  intros Hn Ha Hb. split; [apply Z.lor_nonneg; lia|].
  destruct (Z.eq_dec (Z.lor a b) 0) as [->|Hne]; [lia|].
  assert (0 < Z.lor a b) by (pose proof (proj2 (Z.lor_nonneg a b)); lia).
  apply Z.log2_lt_pow2; [done|].
  rewrite Z.log2_lor by lia.
  assert (forall c, 0 <= c < 2 ^ n -> c = 0 \/ Z.log2 c < n) as HL.
  { intros c Hc. destruct (Z.eq_dec c 0); [by left|right]. apply Z.log2_lt_pow2; lia. }
  assert (0 < n).
  { destruct (Z.eq_dec n 0) as [->|]; [|lia]. change (2 ^ 0) with 1 in *.
    assert (a = 0) as -> by lia. assert (b = 0) as -> by lia. done. }
  destruct (HL a Ha) as [->|], (HL b Hb) as [->|]; cbn; lia.
Qed.

Lemma land_range_l (a b n : Z) :
  0 <= n -> 0 <= a < 2 ^ n -> 0 <= Z.land a b < 2 ^ n.
Proof.
  intros Hn Ha. split; [apply Z.land_nonneg; lia|].
  assert (Z.land a b = (Z.land a b) mod 2 ^ n) as ->.
  { rewrite <- Z.land_ones by done. apply Z.bits_inj'. intros i Hi.
    rewrite !Z.land_spec. rewrite <- (Z.mod_small a (2 ^ n)) by done.
    rewrite <- Z.land_ones by done. rewrite Z.land_spec.
    destruct (Z.testbit a i), (Z.testbit b i), (Z.testbit (Z.ones n) i); done. }
  apply Z.mod_pos_bound. lia.
Qed.

#[export] Hint Resolve u64_range u32_range u16_range : jos.

(** *** Updating a function *)

Definition fset {A : Type} (f : Z -> A) (p : Z) (v : A) : Z -> A := fun q => if decide (p = q) then v else f q.

Lemma fset_eq {A : Type} (f : Z -> A) p v : fset f p v p = v.
Proof. unfold fset. by rewrite decide_True. Qed.

Lemma fset_ne {A : Type} (f : Z -> A) p q v : p <> q -> fset f p v q = f q.
Proof. intros H. unfold fset. by rewrite decide_False. Qed.

(** *** Ranges of integers *)

Lemma seqZ_snoc m n : 0 <= n -> seqZ m (n + 1) = seqZ m n ++ [m + n].
Proof. intros Hn. by rewrite seqZ_app by lia. Qed.

(** The element at a position of a range. *)
Lemma seqZ_split m n pre x post :
  seqZ m n = pre ++ x :: post -> x = m + Z.of_nat (length pre) /\ Z.of_nat (length pre) < n.
Proof.
  intros H. assert (seqZ m n !! length pre = Some x) as Hx.
  { rewrite H. by apply list_lookup_middle. }
  apply lookup_seqZ in Hx. lia.
Qed.

(** ** Computations: state, panic and control transfer

    A C function of the kernel or of a server is a computation over the state
    [S] it works on.  It returns a value ([Ret]), it panics ([Panic]: an
    explicit [panic()], a failed [assert] or a null dereference), or it hands
    the processor over and never returns to its caller ([NoRet]: [iret] into
    an environment, [hlt], or a loop that waits for another party). *)

Inductive outcome (S A : Type) : Type :=
| Ret (a : A) (s : S)
| NoRet (s : S)
| Panic (msg : string) (s : S).
Arguments Ret {S A} a s.
Arguments NoRet {S A} s.
Arguments Panic {S A} msg s.

Definition M (S A : Type) : Type := S -> outcome S A.

Section Monad.
Context {S : Type}.

Definition ret {A : Type} (a : A) : M S A := fun s => Ret a s.

Definition bind {A B : Type} (m : M S A) (k : A -> M S B) : M S B :=
  fun s => match m s with
           | Ret a s' => k a s'
           | NoRet s' => NoRet s'
           | Panic msg s' => Panic msg s'
           end.

Definition panic {A : Type} (msg : string) : M S A := fun s => Panic msg s.
Definition noret {A : Type} : M S A := fun s => NoRet s.
Definition get : M S S := fun s => Ret s s.
Definition gets {A : Type} (f : S -> A) : M S A := fun s => Ret (f s) s.
Definition modify (f : S -> S) : M S unit := fun s => Ret tt (f s).

(** [assert(c)] of inc/assert.h *)
Definition assertM (c : bool) : M S unit :=
  if c then ret tt else panic "assertion failed".

(** A bounded loop: [body] yields [inl x] to go round again with [x] and
    [inr b] to leave the loop.  Every use states the fuel and why it covers
    the loop of the source. *)
Fixpoint loop {A B : Type} (fuel : nat) (body : A -> M S (A + B)) (x : A) : M S B :=
  match fuel with
  | O => noret
  | Datatypes.S fuel' =>
      bind (body x) (fun r => match r with
                              | inl x' => loop fuel' body x'
                              | inr b => ret b
                              end)
  end.

(** [for] loops over a known list of indices. *)
Fixpoint forM {A : Type} (l : list A) (body : A -> M S unit) : M S unit :=
  match l with
  | [] => ret tt
  | x :: l' => bind (body x) (fun _ => forM l' body)
  end.

(** [for] loops that carry local variables. *)
Fixpoint foldM {A X : Type} (l : list X) (acc : A) (body : A -> X -> M S A) : M S A :=
  match l with
  | [] => ret acc
  | x :: l' => bind (body acc x) (fun acc' => foldM l' acc' body)
  end.

Lemma bind_ret {A B : Type} (a : A) (k : A -> M S B) s : bind (ret a) k s = k a s.
Proof. done. Qed.

Lemma bind_Ret {A B : Type} (m : M S A) (k : A -> M S B) s a s' :
  m s = Ret a s' -> bind m k s = k a s'.
Proof. unfold bind. by intros ->. Qed.

Lemma bind_Panic {A B : Type} (m : M S A) (k : A -> M S B) s msg s' :
  m s = Panic msg s' -> bind m k s = Panic msg s'.
Proof. unfold bind. by intros ->. Qed.

Lemma bind_NoRet {A B : Type} (m : M S A) (k : A -> M S B) s s' :
  m s = NoRet s' -> bind m k s = NoRet s'.
Proof. unfold bind. by intros ->. Qed.

Lemma bind_assoc {A B C : Type} (m : M S A) (k : A -> M S B) (h : B -> M S C) s :
  bind (bind m k) h s = bind m (fun a => bind (k a) h) s.
Proof. unfold bind. by destruct (m s). Qed.

Lemma bind_gets {A B : Type} (f : S -> A) (k : A -> M S B) s : bind (gets f) k s = k (f s) s.
Proof. done. Qed.

Lemma bind_modify {B : Type} (f : S -> S) (k : unit -> M S B) s : bind (modify f) k s = k tt (f s).
Proof. done. Qed.

Lemma bind_panic {A B : Type} msg (k : A -> M S B) s : bind (panic msg) k s = Panic msg s.
Proof. done. Qed.

Lemma bind_noret {A B : Type} (k : A -> M S B) s : bind noret k s = NoRet s.
Proof. done. Qed.

(** Inversion of a computation that returned. *)
Lemma bind_Ret_inv {A B : Type} (m : M S A) (k : A -> M S B) s b s'' :
  bind m k s = Ret b s'' -> exists a s', m s = Ret a s' /\ k a s' = Ret b s''.
Proof. unfold bind. destruct (m s); intros H; try done. eauto. Qed.

Lemma forM_app {A : Type} (l1 l2 : list A) (body : A -> M S unit) s :
  forM (l1 ++ l2) body s = bind (forM l1 body) (fun _ => forM l2 body) s.
Proof.
  revert s. induction l1 as [|x l1 IH]; intros s; [done|].
  cbn. rewrite bind_assoc. unfold bind at 1 2. destruct (body x s); done.
Qed.

Lemma forM_ext {A : Type} (l : list A) (body body' : A -> M S unit) :
  (forall x, body x = body' x) -> forM l body = forM l body'.
Proof. intros H. induction l as [|x l IH]; [done|]. cbn. by rewrite H, IH. Qed.

Lemma forM_fmap {A B : Type} (f : A -> B) (l : list A) (body : B -> M S unit) :
  forM (f <$> l) body = forM l (fun x => body (f x)).
Proof. induction l as [|x l IH]; [done|]. cbn. by rewrite IH. Qed.

(** A loop invariant carried through [forM]. *)
Lemma forM_inv {A : Type} (I : list A -> S -> Prop) (l : list A) (body : A -> M S unit) s :
  (forall pre x post s, l = pre ++ x :: post -> I pre s ->
     exists s', body x s = Ret tt s' /\ I (pre ++ [x]) s') ->
  I [] s ->
  exists s', forM l body s = Ret tt s' /\ I l s'.
Proof.
  intros Hstep H0.
  assert (forall post pre s, l = pre ++ post -> I pre s ->
    exists s', forM post body s = Ret tt s' /\ I l s') as Hgen.
  { induction post as [|x post IH]; intros pre s1 Hl HI.
    - exists s1. split; [done|]. rewrite app_nil_r in Hl. by subst.
    - destruct (Hstep pre x post s1 Hl HI) as (s2 & Hb & HI2).
      cbn. rewrite (bind_Ret _ _ _ _ _ Hb). apply (IH (pre ++ [x])); [|done].
      by rewrite <- app_assoc. }
  by apply (Hgen l []).
Qed.

Lemma foldM_inv {A X : Type} (I : list X -> A -> S -> Prop) (l : list X) (body : A -> X -> M S A) acc s :
  (forall pre x post acc s, l = pre ++ x :: post -> I pre acc s ->
     exists acc' s', body acc x s = Ret acc' s' /\ I (pre ++ [x]) acc' s') ->
  I [] acc s ->
  exists acc' s', foldM l acc body s = Ret acc' s' /\ I l acc' s'.
Proof.
  intros Hstep H0.
  assert (forall post pre acc s, l = pre ++ post -> I pre acc s ->
    exists acc' s', foldM post acc body s = Ret acc' s' /\ I l acc' s') as Hgen.
  { induction post as [|x post IH]; intros pre a1 s1 Hl HI.
    - exists a1, s1. split; [done|]. rewrite app_nil_r in Hl. by subst.
    - destruct (Hstep pre x post a1 s1 Hl HI) as (a2 & s2 & Hb & HI2).
      cbn. rewrite (bind_Ret _ _ _ _ _ Hb). apply (IH (pre ++ [x])); [|done].
      by rewrite <- app_assoc. }
  by apply (Hgen l []).
Qed.

(** Total correctness of a computation: it returns, in a state and with a
    value that satisfy the postcondition. *)
Definition returns {A : Type} (m : M S A) (s : S) (Q : A -> S -> Prop) : Prop :=
  exists a s', m s = Ret a s' /\ Q a s'.

Lemma returns_bind {A B : Type} (m : M S A) (k : A -> M S B) s Q R :
  returns m s Q -> (forall a s', Q a s' -> returns (k a) s' R) -> returns (bind m k) s R.
Proof.
  intros (a & s' & Hm & HQ) Hk. destruct (Hk a s' HQ) as (b & s'' & Hb & HR).
  exists b, s''. by rewrite (bind_Ret _ _ _ _ _ Hm).
Qed.

Lemma returns_conseq {A : Type} (m : M S A) s (Q R : A -> S -> Prop) :
  returns m s Q -> (forall a s', Q a s' -> R a s') -> returns m s R.
Proof. intros (a & s' & Hm & HQ) H. exists a, s'. auto. Qed.

Lemma returns_ret {A : Type} (a : A) s (Q : A -> S -> Prop) : Q a s -> returns (ret a) s Q.
Proof. intros H. by exists a, s. Qed.
End Monad.

#[global] Arguments bind : simpl never.

Declare Scope jos_scope.
Delimit Scope jos_scope with jos.
Notation "'let!' x := m 'in' k" := (bind m (fun x => k))
  (at level 200, x binder, m at level 99, k at level 200, right associativity) : jos_scope.
Notation "'do!' m ';;' k" := (bind m (fun _ => k))
  (at level 200, m at level 99, k at level 200, right associativity) : jos_scope.
#[global] Open Scope jos_scope.

#[export] Hint Rewrite @bind_ret @bind_gets @bind_modify @bind_panic @bind_noret @bind_assoc : mrun.

(** Run the primitive steps at the head of a computation. *)
Ltac msteps := autorewrite with mrun; cbv beta.

(** Evaluate one step of a computation whose next call is known to return. *)
Ltac mrun H := rewrite (bind_Ret _ _ _ _ _ H); clear H; cbv beta iota.
