(* ===== verification/Kernel.v ===== *)
(** The machine and the kernel's data: constants of inc/mmu.h,
    inc/memlayout.h, inc/env.h and inc/error.h, the structures the kernel
    keeps, its global state, and the primitive accesses to physical memory. *)

From S2P Require Import Prelude.

(** ** Constants *)

(** inc/error.h *)
Notation E_UNSPECIFIED := 1 (only parsing).
Notation E_BAD_ENV := 2 (only parsing).
Notation E_INVAL := 3 (only parsing).
Notation E_NO_MEM := 4 (only parsing).
Notation E_NO_FREE_ENV := 5 (only parsing).
Notation E_FAULT := 6 (only parsing).
Notation E_IPC_NOT_RECV := 8 (only parsing).
Notation E_NO_DISK := 10 (only parsing).
Notation E_MAX_OPEN := 11 (only parsing).
Notation E_NOT_FOUND := 12 (only parsing).
Notation E_BAD_PATH := 13 (only parsing).
Notation E_FILE_EXISTS := 14 (only parsing).
Notation E_NOT_SUPP := 16 (only parsing).
Notation E_NO_ENT := 21 (only parsing).

(** inc/mmu.h *)
Definition PGSIZE : Z := 4096.
Definition PGSHIFT : Z := 12.
Definition PTXSHIFT : Z := 12.
Definition PDXSHIFT : Z := 21.
Definition PDPESHIFT : Z := 30.
Definition PML4SHIFT : Z := 39.
Definition NPMLENTRIES : Z := 512.
Definition NPDPENTRIES : Z := 512.
Definition NPDENTRIES : Z := 512.
Definition NPTENTRIES : Z := 512.
Definition PTSIZE : Z := PGSIZE * NPTENTRIES.
Definition PTE_P : Z := 0x001.
Definition PTE_W : Z := 0x002.
Definition PTE_U : Z := 0x004.
Notation PTE_PWT := 0x008 (only parsing).
Notation PTE_PCD := 0x010 (only parsing).
Notation PTE_D := 0x040 (only parsing).
Definition PTE_AVAIL : Z := 0xE00.
Definition PTE_SYSCALL : Z := Z.lor (Z.lor (Z.lor PTE_AVAIL PTE_P) PTE_W) PTE_U.
Definition PTE_USER : Z := Z.lor (Z.lor (Z.lor PTE_AVAIL PTE_P) PTE_W) PTE_U.
Definition FL_IF : Z := 0x200.
Definition FL_IOPL_MASK : Z := 0x3000.

(** inc/memlayout.h *)
Definition KERNBASE : Z := 0x8004000000.
Definition IOPHYSMEM : Z := 0x0A0000.
Definition EXTPHYSMEM : Z := 0x100000.
Definition KSTACKTOP : Z := KERNBASE.
Definition KSTKSIZE : Z := 16 * PGSIZE.
Definition KSTKGAP : Z := 8 * PGSIZE.
Notation MMIOLIM := (KSTACKTOP - PTSIZE) (only parsing).
Notation MMIOBASE := (MMIOLIM - PTSIZE) (only parsing).
Definition ULIM : Z := MMIOBASE.
Definition UVPT : Z := 0x10000000000.
Definition UPAGES : Z := ULIM - 25 * PTSIZE.
Definition UENVS : Z := UPAGES - PTSIZE.
Definition UTOP : Z := UENVS.
Definition UXSTACKTOP : Z := 0xef800000.
Definition USTACKTOP : Z := UXSTACKTOP - 2 * PGSIZE.
Definition MPENTRY_PADDR : Z := 0x7000.
Notation GD_KT := 0x08 (only parsing).
Notation GD_UT := 0x18 (only parsing).
Notation GD_UD := 0x20 (only parsing).

(** inc/env.h *)
Definition NENV : Z := 1024.
Notation ENV_FREE := 0 (only parsing).
Notation ENV_DYING := 1 (only parsing).
Notation ENV_RUNNABLE := 2 (only parsing).
Notation ENV_RUNNING := 3 (only parsing).
Notation ENV_NOT_RUNNABLE := 4 (only parsing).
Notation ENV_TYPE_USER := 0 (only parsing).
Notation ENV_TYPE_FS := 1 (only parsing).
Notation ENV_TYPE_NS := 2 (only parsing).
Notation ENV_TYPE_GUEST := 3 (only parsing).
Definition ENVX (envid : Z) : Z := Z.land envid (NENV - 1).

(** kern/cpu.h *)
Definition CPU_STARTED : Z := 1.
Definition CPU_HALTED : Z := 2.

(** ** Address arithmetic: the macros of inc/mmu.h and inc/types.h *)

Definition PPN (pa : Z) : Z := Z.shiftr pa PTXSHIFT.
Definition VPN (la : Z) : Z := PPN la.
Definition PML4 (la : Z) : Z := Z.land (Z.shiftr la PML4SHIFT) 0x1FF.
Definition PDPE (la : Z) : Z := Z.land (Z.shiftr la PDPESHIFT) 0x1FF.
Definition PDX (la : Z) : Z := Z.land (Z.shiftr la PDXSHIFT) 0x1FF.
Definition PTX (la : Z) : Z := Z.land (Z.shiftr la PTXSHIFT) 0x1FF.
Definition PGOFF (la : Z) : Z := Z.land la 0xFFF.
Definition PGADDR (m p d t o : Z) : Z :=
  Z.lor (Z.lor (Z.lor (Z.lor (Z.shiftl m PML4SHIFT) (Z.shiftl p PDPESHIFT))
    (Z.shiftl d PDXSHIFT)) (Z.shiftl t PTXSHIFT)) o.
Definition PTE_ADDR (pte : Z) : Z := Z.land pte (Z.lnot 0xFFF).
Definition ROUNDDOWN (a n : Z) : Z := u64 a - u64 a mod n.
Definition ROUNDUP (a n : Z) : Z := ROUNDDOWN (u64 (u64 a + n - 1)) n.

(** ** Structures *)

(** [struct PageInfo] (inc/memlayout.h).  A [struct PageInfo *] is the index of
    its page in [pages], [NULL] is [None]. *)
Record PageInfo : Type := mkPageInfo {
  pp_link : option Z;  (* next page on the free list *)
  pp_ref : Z;  (* uint16_t count of references *)
}.

(** [struct PushRegs] (inc/trap.h) *)
Record PushRegs : Type := mkPushRegs {
  reg_r15 : Z;
  reg_r14 : Z;
  reg_r13 : Z;
  reg_r12 : Z;
  reg_r11 : Z;
  reg_r10 : Z;
  reg_r9 : Z;
  reg_r8 : Z;
  reg_rsi : Z;
  reg_rdi : Z;
  reg_rbp : Z;
  reg_rdx : Z;
  reg_rcx : Z;
  reg_rbx : Z;
  reg_rax : Z;
}.

(** [struct Trapframe] (inc/trap.h), without its padding *)
Record Trapframe : Type := mkTrapframe {
  tf_regs : PushRegs;
  tf_es : Z;
  tf_ds : Z;
  tf_trapno : Z;
  tf_err : Z;
  tf_rip : Z;
  tf_cs : Z;
  tf_eflags : Z;
  tf_rsp : Z;
  tf_ss : Z;
}.

(** [struct VmxGuestInfo] (inc/vmx.h); the pointers are kernel virtual addresses *)
Record VmxGuestInfo : Type := mkVmxGuestInfo {
  phys_sz : Z;
  vmcs : Z;
  exception_bmap : Z;
  io_bmap_a : Z;
  io_bmap_b : Z;
  msr_count : Z;
  msr_host_area : Z;
  msr_guest_area : Z;
}.

(** [struct Env] (inc/env.h).  A [struct Env *] is an index in [envs]. *)
Record Env : Type := mkEnv {
  env_tf : Trapframe;  (* saved registers *)
  env_link : option Z;  (* next free environment *)
  env_id : Z;  (* envid_t *)
  env_parent_id : Z;
  env_type : Z;  (* enum EnvType *)
  env_status : Z;
  env_runs : Z;  (* uint32_t *)
  env_cpunum : Z;
  env_pml4e : Z;  (* kernel virtual address of the top-level table *)
  env_cr3 : Z;
  env_pgfault_upcall : Z;
  env_ipc_recving : bool;
  env_ipc_dstva : Z;
  env_ipc_value : Z;
  env_ipc_from : Z;
  env_ipc_perm : Z;
  elf : Z;
  env_vmxinfo : VmxGuestInfo;
}.

(** The kernel's global state and the registers of the processor it runs on. *)
Record kstate : Type := mkKstate {
  npages : Z;  (* amount of physical memory, in pages *)
  npages_basemem : Z;
  pages : gmap Z PageInfo;  (* the pages[] array *)
  page_free_list : option Z;
  mem : gmap Z (gmap Z Z);  (* physical memory: page, 64-bit word in the page *)
  nextfree : Z;  (* boot_alloc's static variable, 0 is NULL *)
  end_debug : Z;  (* first address after the loaded kernel *)
  boot_pml4e : Z;
  boot_cr3 : Z;
  mmio_base : Z;  (* mmio_map_region's static variable *)
  user_mem_check_addr : Z;
  envs : gmap Z Env;  (* the envs[] array *)
  env_free_list : option Z;
  curenv : option Z;  (* thiscpu->cpu_env *)
  cpu_status : Z;  (* thiscpu->cpu_status *)
  is_vmx_root : bool;
  kernel_locked : bool;  (* the big kernel lock is held *)
  cr3 : Z;
  cr2 : Z;
  tlb : list Z;  (* addresses flushed with invlpg, latest first *)
  vmxon_region : Z;  (* thiscpu->vmxon_region *)
  ticks : Z;  (* kern/time.c, unsigned int *)
  cons_out : list Z;  (* characters written to the console, latest first *)
  cons_in : list Z;  (* characters waiting at the console *)
}.

(** Field updates. *)
Definition set_pp_link (v : option Z) (p : PageInfo) : PageInfo :=
  mkPageInfo v (pp_ref p).
Definition set_pp_ref (v : Z) (p : PageInfo) : PageInfo :=
  mkPageInfo (pp_link p) v.
Definition set_reg_r15 (v : Z) (r : PushRegs) : PushRegs :=
  mkPushRegs v (reg_r14 r) (reg_r13 r) (reg_r12 r) (reg_r11 r) (reg_r10 r) (reg_r9 r) (reg_r8 r) (reg_rsi r) (reg_rdi r) (reg_rbp r) (reg_rdx r) (reg_rcx r) (reg_rbx r) (reg_rax r).
Definition set_reg_r14 (v : Z) (r : PushRegs) : PushRegs :=
  mkPushRegs (reg_r15 r) v (reg_r13 r) (reg_r12 r) (reg_r11 r) (reg_r10 r) (reg_r9 r) (reg_r8 r) (reg_rsi r) (reg_rdi r) (reg_rbp r) (reg_rdx r) (reg_rcx r) (reg_rbx r) (reg_rax r).
Definition set_reg_r13 (v : Z) (r : PushRegs) : PushRegs :=
  mkPushRegs (reg_r15 r) (reg_r14 r) v (reg_r12 r) (reg_r11 r) (reg_r10 r) (reg_r9 r) (reg_r8 r) (reg_rsi r) (reg_rdi r) (reg_rbp r) (reg_rdx r) (reg_rcx r) (reg_rbx r) (reg_rax r).
Definition set_reg_r12 (v : Z) (r : PushRegs) : PushRegs :=
  mkPushRegs (reg_r15 r) (reg_r14 r) (reg_r13 r) v (reg_r11 r) (reg_r10 r) (reg_r9 r) (reg_r8 r) (reg_rsi r) (reg_rdi r) (reg_rbp r) (reg_rdx r) (reg_rcx r) (reg_rbx r) (reg_rax r).
Definition set_reg_r11 (v : Z) (r : PushRegs) : PushRegs :=
  mkPushRegs (reg_r15 r) (reg_r14 r) (reg_r13 r) (reg_r12 r) v (reg_r10 r) (reg_r9 r) (reg_r8 r) (reg_rsi r) (reg_rdi r) (reg_rbp r) (reg_rdx r) (reg_rcx r) (reg_rbx r) (reg_rax r).
Definition set_reg_r10 (v : Z) (r : PushRegs) : PushRegs :=
  mkPushRegs (reg_r15 r) (reg_r14 r) (reg_r13 r) (reg_r12 r) (reg_r11 r) v (reg_r9 r) (reg_r8 r) (reg_rsi r) (reg_rdi r) (reg_rbp r) (reg_rdx r) (reg_rcx r) (reg_rbx r) (reg_rax r).
Definition set_reg_r9 (v : Z) (r : PushRegs) : PushRegs :=
  mkPushRegs (reg_r15 r) (reg_r14 r) (reg_r13 r) (reg_r12 r) (reg_r11 r) (reg_r10 r) v (reg_r8 r) (reg_rsi r) (reg_rdi r) (reg_rbp r) (reg_rdx r) (reg_rcx r) (reg_rbx r) (reg_rax r).
Definition set_reg_r8 (v : Z) (r : PushRegs) : PushRegs :=
  mkPushRegs (reg_r15 r) (reg_r14 r) (reg_r13 r) (reg_r12 r) (reg_r11 r) (reg_r10 r) (reg_r9 r) v (reg_rsi r) (reg_rdi r) (reg_rbp r) (reg_rdx r) (reg_rcx r) (reg_rbx r) (reg_rax r).
Definition set_reg_rsi (v : Z) (r : PushRegs) : PushRegs :=
  mkPushRegs (reg_r15 r) (reg_r14 r) (reg_r13 r) (reg_r12 r) (reg_r11 r) (reg_r10 r) (reg_r9 r) (reg_r8 r) v (reg_rdi r) (reg_rbp r) (reg_rdx r) (reg_rcx r) (reg_rbx r) (reg_rax r).
Definition set_reg_rdi (v : Z) (r : PushRegs) : PushRegs :=
  mkPushRegs (reg_r15 r) (reg_r14 r) (reg_r13 r) (reg_r12 r) (reg_r11 r) (reg_r10 r) (reg_r9 r) (reg_r8 r) (reg_rsi r) v (reg_rbp r) (reg_rdx r) (reg_rcx r) (reg_rbx r) (reg_rax r).
Definition set_reg_rbp (v : Z) (r : PushRegs) : PushRegs :=
  mkPushRegs (reg_r15 r) (reg_r14 r) (reg_r13 r) (reg_r12 r) (reg_r11 r) (reg_r10 r) (reg_r9 r) (reg_r8 r) (reg_rsi r) (reg_rdi r) v (reg_rdx r) (reg_rcx r) (reg_rbx r) (reg_rax r).
Definition set_reg_rdx (v : Z) (r : PushRegs) : PushRegs :=
  mkPushRegs (reg_r15 r) (reg_r14 r) (reg_r13 r) (reg_r12 r) (reg_r11 r) (reg_r10 r) (reg_r9 r) (reg_r8 r) (reg_rsi r) (reg_rdi r) (reg_rbp r) v (reg_rcx r) (reg_rbx r) (reg_rax r).
Definition set_reg_rcx (v : Z) (r : PushRegs) : PushRegs :=
  mkPushRegs (reg_r15 r) (reg_r14 r) (reg_r13 r) (reg_r12 r) (reg_r11 r) (reg_r10 r) (reg_r9 r) (reg_r8 r) (reg_rsi r) (reg_rdi r) (reg_rbp r) (reg_rdx r) v (reg_rbx r) (reg_rax r).
Definition set_reg_rbx (v : Z) (r : PushRegs) : PushRegs :=
  mkPushRegs (reg_r15 r) (reg_r14 r) (reg_r13 r) (reg_r12 r) (reg_r11 r) (reg_r10 r) (reg_r9 r) (reg_r8 r) (reg_rsi r) (reg_rdi r) (reg_rbp r) (reg_rdx r) (reg_rcx r) v (reg_rax r).
Definition set_reg_rax (v : Z) (r : PushRegs) : PushRegs :=
  mkPushRegs (reg_r15 r) (reg_r14 r) (reg_r13 r) (reg_r12 r) (reg_r11 r) (reg_r10 r) (reg_r9 r) (reg_r8 r) (reg_rsi r) (reg_rdi r) (reg_rbp r) (reg_rdx r) (reg_rcx r) (reg_rbx r) v.
Definition set_tf_regs (v : PushRegs) (t : Trapframe) : Trapframe :=
  mkTrapframe v (tf_es t) (tf_ds t) (tf_trapno t) (tf_err t) (tf_rip t) (tf_cs t) (tf_eflags t) (tf_rsp t) (tf_ss t).
Definition set_tf_es (v : Z) (t : Trapframe) : Trapframe :=
  mkTrapframe (tf_regs t) v (tf_ds t) (tf_trapno t) (tf_err t) (tf_rip t) (tf_cs t) (tf_eflags t) (tf_rsp t) (tf_ss t).
Definition set_tf_ds (v : Z) (t : Trapframe) : Trapframe :=
  mkTrapframe (tf_regs t) (tf_es t) v (tf_trapno t) (tf_err t) (tf_rip t) (tf_cs t) (tf_eflags t) (tf_rsp t) (tf_ss t).
Definition set_tf_trapno (v : Z) (t : Trapframe) : Trapframe :=
  mkTrapframe (tf_regs t) (tf_es t) (tf_ds t) v (tf_err t) (tf_rip t) (tf_cs t) (tf_eflags t) (tf_rsp t) (tf_ss t).
Definition set_tf_err (v : Z) (t : Trapframe) : Trapframe :=
  mkTrapframe (tf_regs t) (tf_es t) (tf_ds t) (tf_trapno t) v (tf_rip t) (tf_cs t) (tf_eflags t) (tf_rsp t) (tf_ss t).
Definition set_tf_rip (v : Z) (t : Trapframe) : Trapframe :=
  mkTrapframe (tf_regs t) (tf_es t) (tf_ds t) (tf_trapno t) (tf_err t) v (tf_cs t) (tf_eflags t) (tf_rsp t) (tf_ss t).
Definition set_tf_cs (v : Z) (t : Trapframe) : Trapframe :=
  mkTrapframe (tf_regs t) (tf_es t) (tf_ds t) (tf_trapno t) (tf_err t) (tf_rip t) v (tf_eflags t) (tf_rsp t) (tf_ss t).
Definition set_tf_eflags (v : Z) (t : Trapframe) : Trapframe :=
  mkTrapframe (tf_regs t) (tf_es t) (tf_ds t) (tf_trapno t) (tf_err t) (tf_rip t) (tf_cs t) v (tf_rsp t) (tf_ss t).
Definition set_tf_rsp (v : Z) (t : Trapframe) : Trapframe :=
  mkTrapframe (tf_regs t) (tf_es t) (tf_ds t) (tf_trapno t) (tf_err t) (tf_rip t) (tf_cs t) (tf_eflags t) v (tf_ss t).
Definition set_tf_ss (v : Z) (t : Trapframe) : Trapframe :=
  mkTrapframe (tf_regs t) (tf_es t) (tf_ds t) (tf_trapno t) (tf_err t) (tf_rip t) (tf_cs t) (tf_eflags t) (tf_rsp t) v.
Definition set_phys_sz (v : Z) (g : VmxGuestInfo) : VmxGuestInfo :=
  mkVmxGuestInfo v (vmcs g) (exception_bmap g) (io_bmap_a g) (io_bmap_b g) (msr_count g) (msr_host_area g) (msr_guest_area g).
Definition set_vmcs (v : Z) (g : VmxGuestInfo) : VmxGuestInfo :=
  mkVmxGuestInfo (phys_sz g) v (exception_bmap g) (io_bmap_a g) (io_bmap_b g) (msr_count g) (msr_host_area g) (msr_guest_area g).
Definition set_exception_bmap (v : Z) (g : VmxGuestInfo) : VmxGuestInfo :=
  mkVmxGuestInfo (phys_sz g) (vmcs g) v (io_bmap_a g) (io_bmap_b g) (msr_count g) (msr_host_area g) (msr_guest_area g).
Definition set_io_bmap_a (v : Z) (g : VmxGuestInfo) : VmxGuestInfo :=
  mkVmxGuestInfo (phys_sz g) (vmcs g) (exception_bmap g) v (io_bmap_b g) (msr_count g) (msr_host_area g) (msr_guest_area g).
Definition set_io_bmap_b (v : Z) (g : VmxGuestInfo) : VmxGuestInfo :=
  mkVmxGuestInfo (phys_sz g) (vmcs g) (exception_bmap g) (io_bmap_a g) v (msr_count g) (msr_host_area g) (msr_guest_area g).
Definition set_msr_count (v : Z) (g : VmxGuestInfo) : VmxGuestInfo :=
  mkVmxGuestInfo (phys_sz g) (vmcs g) (exception_bmap g) (io_bmap_a g) (io_bmap_b g) v (msr_host_area g) (msr_guest_area g).
Definition set_msr_host_area (v : Z) (g : VmxGuestInfo) : VmxGuestInfo :=
  mkVmxGuestInfo (phys_sz g) (vmcs g) (exception_bmap g) (io_bmap_a g) (io_bmap_b g) (msr_count g) v (msr_guest_area g).
Definition set_msr_guest_area (v : Z) (g : VmxGuestInfo) : VmxGuestInfo :=
  mkVmxGuestInfo (phys_sz g) (vmcs g) (exception_bmap g) (io_bmap_a g) (io_bmap_b g) (msr_count g) (msr_host_area g) v.
Definition set_env_tf (v : Trapframe) (e : Env) : Env :=
  mkEnv v (env_link e) (env_id e) (env_parent_id e) (env_type e) (env_status e) (env_runs e) (env_cpunum e) (env_pml4e e) (env_cr3 e) (env_pgfault_upcall e) (env_ipc_recving e) (env_ipc_dstva e) (env_ipc_value e) (env_ipc_from e) (env_ipc_perm e) (elf e) (env_vmxinfo e).
Definition set_env_link (v : option Z) (e : Env) : Env :=
  mkEnv (env_tf e) v (env_id e) (env_parent_id e) (env_type e) (env_status e) (env_runs e) (env_cpunum e) (env_pml4e e) (env_cr3 e) (env_pgfault_upcall e) (env_ipc_recving e) (env_ipc_dstva e) (env_ipc_value e) (env_ipc_from e) (env_ipc_perm e) (elf e) (env_vmxinfo e).
Definition set_env_id (v : Z) (e : Env) : Env :=
  mkEnv (env_tf e) (env_link e) v (env_parent_id e) (env_type e) (env_status e) (env_runs e) (env_cpunum e) (env_pml4e e) (env_cr3 e) (env_pgfault_upcall e) (env_ipc_recving e) (env_ipc_dstva e) (env_ipc_value e) (env_ipc_from e) (env_ipc_perm e) (elf e) (env_vmxinfo e).
Definition set_env_parent_id (v : Z) (e : Env) : Env :=
  mkEnv (env_tf e) (env_link e) (env_id e) v (env_type e) (env_status e) (env_runs e) (env_cpunum e) (env_pml4e e) (env_cr3 e) (env_pgfault_upcall e) (env_ipc_recving e) (env_ipc_dstva e) (env_ipc_value e) (env_ipc_from e) (env_ipc_perm e) (elf e) (env_vmxinfo e).
Definition set_env_type (v : Z) (e : Env) : Env :=
  mkEnv (env_tf e) (env_link e) (env_id e) (env_parent_id e) v (env_status e) (env_runs e) (env_cpunum e) (env_pml4e e) (env_cr3 e) (env_pgfault_upcall e) (env_ipc_recving e) (env_ipc_dstva e) (env_ipc_value e) (env_ipc_from e) (env_ipc_perm e) (elf e) (env_vmxinfo e).
Definition set_env_status (v : Z) (e : Env) : Env :=
  mkEnv (env_tf e) (env_link e) (env_id e) (env_parent_id e) (env_type e) v (env_runs e) (env_cpunum e) (env_pml4e e) (env_cr3 e) (env_pgfault_upcall e) (env_ipc_recving e) (env_ipc_dstva e) (env_ipc_value e) (env_ipc_from e) (env_ipc_perm e) (elf e) (env_vmxinfo e).
Definition set_env_runs (v : Z) (e : Env) : Env :=
  mkEnv (env_tf e) (env_link e) (env_id e) (env_parent_id e) (env_type e) (env_status e) v (env_cpunum e) (env_pml4e e) (env_cr3 e) (env_pgfault_upcall e) (env_ipc_recving e) (env_ipc_dstva e) (env_ipc_value e) (env_ipc_from e) (env_ipc_perm e) (elf e) (env_vmxinfo e).
Definition set_env_cpunum (v : Z) (e : Env) : Env :=
  mkEnv (env_tf e) (env_link e) (env_id e) (env_parent_id e) (env_type e) (env_status e) (env_runs e) v (env_pml4e e) (env_cr3 e) (env_pgfault_upcall e) (env_ipc_recving e) (env_ipc_dstva e) (env_ipc_value e) (env_ipc_from e) (env_ipc_perm e) (elf e) (env_vmxinfo e).
Definition set_env_pml4e (v : Z) (e : Env) : Env :=
  mkEnv (env_tf e) (env_link e) (env_id e) (env_parent_id e) (env_type e) (env_status e) (env_runs e) (env_cpunum e) v (env_cr3 e) (env_pgfault_upcall e) (env_ipc_recving e) (env_ipc_dstva e) (env_ipc_value e) (env_ipc_from e) (env_ipc_perm e) (elf e) (env_vmxinfo e).
Definition set_env_cr3 (v : Z) (e : Env) : Env :=
  mkEnv (env_tf e) (env_link e) (env_id e) (env_parent_id e) (env_type e) (env_status e) (env_runs e) (env_cpunum e) (env_pml4e e) v (env_pgfault_upcall e) (env_ipc_recving e) (env_ipc_dstva e) (env_ipc_value e) (env_ipc_from e) (env_ipc_perm e) (elf e) (env_vmxinfo e).
Definition set_env_pgfault_upcall (v : Z) (e : Env) : Env :=
  mkEnv (env_tf e) (env_link e) (env_id e) (env_parent_id e) (env_type e) (env_status e) (env_runs e) (env_cpunum e) (env_pml4e e) (env_cr3 e) v (env_ipc_recving e) (env_ipc_dstva e) (env_ipc_value e) (env_ipc_from e) (env_ipc_perm e) (elf e) (env_vmxinfo e).
Definition set_env_ipc_recving (v : bool) (e : Env) : Env :=
  mkEnv (env_tf e) (env_link e) (env_id e) (env_parent_id e) (env_type e) (env_status e) (env_runs e) (env_cpunum e) (env_pml4e e) (env_cr3 e) (env_pgfault_upcall e) v (env_ipc_dstva e) (env_ipc_value e) (env_ipc_from e) (env_ipc_perm e) (elf e) (env_vmxinfo e).
Definition set_env_ipc_dstva (v : Z) (e : Env) : Env :=
  mkEnv (env_tf e) (env_link e) (env_id e) (env_parent_id e) (env_type e) (env_status e) (env_runs e) (env_cpunum e) (env_pml4e e) (env_cr3 e) (env_pgfault_upcall e) (env_ipc_recving e) v (env_ipc_value e) (env_ipc_from e) (env_ipc_perm e) (elf e) (env_vmxinfo e).
Definition set_env_ipc_value (v : Z) (e : Env) : Env :=
  mkEnv (env_tf e) (env_link e) (env_id e) (env_parent_id e) (env_type e) (env_status e) (env_runs e) (env_cpunum e) (env_pml4e e) (env_cr3 e) (env_pgfault_upcall e) (env_ipc_recving e) (env_ipc_dstva e) v (env_ipc_from e) (env_ipc_perm e) (elf e) (env_vmxinfo e).
Definition set_env_ipc_from (v : Z) (e : Env) : Env :=
  mkEnv (env_tf e) (env_link e) (env_id e) (env_parent_id e) (env_type e) (env_status e) (env_runs e) (env_cpunum e) (env_pml4e e) (env_cr3 e) (env_pgfault_upcall e) (env_ipc_recving e) (env_ipc_dstva e) (env_ipc_value e) v (env_ipc_perm e) (elf e) (env_vmxinfo e).
Definition set_env_ipc_perm (v : Z) (e : Env) : Env :=
  mkEnv (env_tf e) (env_link e) (env_id e) (env_parent_id e) (env_type e) (env_status e) (env_runs e) (env_cpunum e) (env_pml4e e) (env_cr3 e) (env_pgfault_upcall e) (env_ipc_recving e) (env_ipc_dstva e) (env_ipc_value e) (env_ipc_from e) v (elf e) (env_vmxinfo e).
Definition set_elf (v : Z) (e : Env) : Env :=
  mkEnv (env_tf e) (env_link e) (env_id e) (env_parent_id e) (env_type e) (env_status e) (env_runs e) (env_cpunum e) (env_pml4e e) (env_cr3 e) (env_pgfault_upcall e) (env_ipc_recving e) (env_ipc_dstva e) (env_ipc_value e) (env_ipc_from e) (env_ipc_perm e) v (env_vmxinfo e).
Definition set_env_vmxinfo (v : VmxGuestInfo) (e : Env) : Env :=
  mkEnv (env_tf e) (env_link e) (env_id e) (env_parent_id e) (env_type e) (env_status e) (env_runs e) (env_cpunum e) (env_pml4e e) (env_cr3 e) (env_pgfault_upcall e) (env_ipc_recving e) (env_ipc_dstva e) (env_ipc_value e) (env_ipc_from e) (env_ipc_perm e) (elf e) v.
Definition set_npages (v : Z) (s : kstate) : kstate :=
  mkKstate v (npages_basemem s) (pages s) (page_free_list s) (mem s) (nextfree s) (end_debug s) (boot_pml4e s) (boot_cr3 s) (mmio_base s) (user_mem_check_addr s) (envs s) (env_free_list s) (curenv s) (cpu_status s) (is_vmx_root s) (kernel_locked s) (cr3 s) (cr2 s) (tlb s) (vmxon_region s) (ticks s) (cons_out s) (cons_in s).
Definition set_npages_basemem (v : Z) (s : kstate) : kstate :=
  mkKstate (npages s) v (pages s) (page_free_list s) (mem s) (nextfree s) (end_debug s) (boot_pml4e s) (boot_cr3 s) (mmio_base s) (user_mem_check_addr s) (envs s) (env_free_list s) (curenv s) (cpu_status s) (is_vmx_root s) (kernel_locked s) (cr3 s) (cr2 s) (tlb s) (vmxon_region s) (ticks s) (cons_out s) (cons_in s).
Definition set_pages (v : gmap Z PageInfo) (s : kstate) : kstate :=
  mkKstate (npages s) (npages_basemem s) v (page_free_list s) (mem s) (nextfree s) (end_debug s) (boot_pml4e s) (boot_cr3 s) (mmio_base s) (user_mem_check_addr s) (envs s) (env_free_list s) (curenv s) (cpu_status s) (is_vmx_root s) (kernel_locked s) (cr3 s) (cr2 s) (tlb s) (vmxon_region s) (ticks s) (cons_out s) (cons_in s).
Definition set_page_free_list (v : option Z) (s : kstate) : kstate :=
  mkKstate (npages s) (npages_basemem s) (pages s) v (mem s) (nextfree s) (end_debug s) (boot_pml4e s) (boot_cr3 s) (mmio_base s) (user_mem_check_addr s) (envs s) (env_free_list s) (curenv s) (cpu_status s) (is_vmx_root s) (kernel_locked s) (cr3 s) (cr2 s) (tlb s) (vmxon_region s) (ticks s) (cons_out s) (cons_in s).
Definition set_mem (v : gmap Z (gmap Z Z)) (s : kstate) : kstate :=
  mkKstate (npages s) (npages_basemem s) (pages s) (page_free_list s) v (nextfree s) (end_debug s) (boot_pml4e s) (boot_cr3 s) (mmio_base s) (user_mem_check_addr s) (envs s) (env_free_list s) (curenv s) (cpu_status s) (is_vmx_root s) (kernel_locked s) (cr3 s) (cr2 s) (tlb s) (vmxon_region s) (ticks s) (cons_out s) (cons_in s).
Definition set_nextfree (v : Z) (s : kstate) : kstate :=
  mkKstate (npages s) (npages_basemem s) (pages s) (page_free_list s) (mem s) v (end_debug s) (boot_pml4e s) (boot_cr3 s) (mmio_base s) (user_mem_check_addr s) (envs s) (env_free_list s) (curenv s) (cpu_status s) (is_vmx_root s) (kernel_locked s) (cr3 s) (cr2 s) (tlb s) (vmxon_region s) (ticks s) (cons_out s) (cons_in s).
Definition set_end_debug (v : Z) (s : kstate) : kstate :=
  mkKstate (npages s) (npages_basemem s) (pages s) (page_free_list s) (mem s) (nextfree s) v (boot_pml4e s) (boot_cr3 s) (mmio_base s) (user_mem_check_addr s) (envs s) (env_free_list s) (curenv s) (cpu_status s) (is_vmx_root s) (kernel_locked s) (cr3 s) (cr2 s) (tlb s) (vmxon_region s) (ticks s) (cons_out s) (cons_in s).
Definition set_boot_pml4e (v : Z) (s : kstate) : kstate :=
  mkKstate (npages s) (npages_basemem s) (pages s) (page_free_list s) (mem s) (nextfree s) (end_debug s) v (boot_cr3 s) (mmio_base s) (user_mem_check_addr s) (envs s) (env_free_list s) (curenv s) (cpu_status s) (is_vmx_root s) (kernel_locked s) (cr3 s) (cr2 s) (tlb s) (vmxon_region s) (ticks s) (cons_out s) (cons_in s).
Definition set_boot_cr3 (v : Z) (s : kstate) : kstate :=
  mkKstate (npages s) (npages_basemem s) (pages s) (page_free_list s) (mem s) (nextfree s) (end_debug s) (boot_pml4e s) v (mmio_base s) (user_mem_check_addr s) (envs s) (env_free_list s) (curenv s) (cpu_status s) (is_vmx_root s) (kernel_locked s) (cr3 s) (cr2 s) (tlb s) (vmxon_region s) (ticks s) (cons_out s) (cons_in s).
Definition set_mmio_base (v : Z) (s : kstate) : kstate :=
  mkKstate (npages s) (npages_basemem s) (pages s) (page_free_list s) (mem s) (nextfree s) (end_debug s) (boot_pml4e s) (boot_cr3 s) v (user_mem_check_addr s) (envs s) (env_free_list s) (curenv s) (cpu_status s) (is_vmx_root s) (kernel_locked s) (cr3 s) (cr2 s) (tlb s) (vmxon_region s) (ticks s) (cons_out s) (cons_in s).
Definition set_user_mem_check_addr (v : Z) (s : kstate) : kstate :=
  mkKstate (npages s) (npages_basemem s) (pages s) (page_free_list s) (mem s) (nextfree s) (end_debug s) (boot_pml4e s) (boot_cr3 s) (mmio_base s) v (envs s) (env_free_list s) (curenv s) (cpu_status s) (is_vmx_root s) (kernel_locked s) (cr3 s) (cr2 s) (tlb s) (vmxon_region s) (ticks s) (cons_out s) (cons_in s).
Definition set_envs (v : gmap Z Env) (s : kstate) : kstate :=
  mkKstate (npages s) (npages_basemem s) (pages s) (page_free_list s) (mem s) (nextfree s) (end_debug s) (boot_pml4e s) (boot_cr3 s) (mmio_base s) (user_mem_check_addr s) v (env_free_list s) (curenv s) (cpu_status s) (is_vmx_root s) (kernel_locked s) (cr3 s) (cr2 s) (tlb s) (vmxon_region s) (ticks s) (cons_out s) (cons_in s).
Definition set_env_free_list (v : option Z) (s : kstate) : kstate :=
  mkKstate (npages s) (npages_basemem s) (pages s) (page_free_list s) (mem s) (nextfree s) (end_debug s) (boot_pml4e s) (boot_cr3 s) (mmio_base s) (user_mem_check_addr s) (envs s) v (curenv s) (cpu_status s) (is_vmx_root s) (kernel_locked s) (cr3 s) (cr2 s) (tlb s) (vmxon_region s) (ticks s) (cons_out s) (cons_in s).
Definition set_curenv (v : option Z) (s : kstate) : kstate :=
  mkKstate (npages s) (npages_basemem s) (pages s) (page_free_list s) (mem s) (nextfree s) (end_debug s) (boot_pml4e s) (boot_cr3 s) (mmio_base s) (user_mem_check_addr s) (envs s) (env_free_list s) v (cpu_status s) (is_vmx_root s) (kernel_locked s) (cr3 s) (cr2 s) (tlb s) (vmxon_region s) (ticks s) (cons_out s) (cons_in s).
Definition set_cpu_status (v : Z) (s : kstate) : kstate :=
  mkKstate (npages s) (npages_basemem s) (pages s) (page_free_list s) (mem s) (nextfree s) (end_debug s) (boot_pml4e s) (boot_cr3 s) (mmio_base s) (user_mem_check_addr s) (envs s) (env_free_list s) (curenv s) v (is_vmx_root s) (kernel_locked s) (cr3 s) (cr2 s) (tlb s) (vmxon_region s) (ticks s) (cons_out s) (cons_in s).
Definition set_is_vmx_root (v : bool) (s : kstate) : kstate :=
  mkKstate (npages s) (npages_basemem s) (pages s) (page_free_list s) (mem s) (nextfree s) (end_debug s) (boot_pml4e s) (boot_cr3 s) (mmio_base s) (user_mem_check_addr s) (envs s) (env_free_list s) (curenv s) (cpu_status s) v (kernel_locked s) (cr3 s) (cr2 s) (tlb s) (vmxon_region s) (ticks s) (cons_out s) (cons_in s).
Definition set_kernel_locked (v : bool) (s : kstate) : kstate :=
  mkKstate (npages s) (npages_basemem s) (pages s) (page_free_list s) (mem s) (nextfree s) (end_debug s) (boot_pml4e s) (boot_cr3 s) (mmio_base s) (user_mem_check_addr s) (envs s) (env_free_list s) (curenv s) (cpu_status s) (is_vmx_root s) v (cr3 s) (cr2 s) (tlb s) (vmxon_region s) (ticks s) (cons_out s) (cons_in s).
Definition set_cr3 (v : Z) (s : kstate) : kstate :=
  mkKstate (npages s) (npages_basemem s) (pages s) (page_free_list s) (mem s) (nextfree s) (end_debug s) (boot_pml4e s) (boot_cr3 s) (mmio_base s) (user_mem_check_addr s) (envs s) (env_free_list s) (curenv s) (cpu_status s) (is_vmx_root s) (kernel_locked s) v (cr2 s) (tlb s) (vmxon_region s) (ticks s) (cons_out s) (cons_in s).
Definition set_cr2 (v : Z) (s : kstate) : kstate :=
  mkKstate (npages s) (npages_basemem s) (pages s) (page_free_list s) (mem s) (nextfree s) (end_debug s) (boot_pml4e s) (boot_cr3 s) (mmio_base s) (user_mem_check_addr s) (envs s) (env_free_list s) (curenv s) (cpu_status s) (is_vmx_root s) (kernel_locked s) (cr3 s) v (tlb s) (vmxon_region s) (ticks s) (cons_out s) (cons_in s).
Definition set_tlb (v : list Z) (s : kstate) : kstate :=
  mkKstate (npages s) (npages_basemem s) (pages s) (page_free_list s) (mem s) (nextfree s) (end_debug s) (boot_pml4e s) (boot_cr3 s) (mmio_base s) (user_mem_check_addr s) (envs s) (env_free_list s) (curenv s) (cpu_status s) (is_vmx_root s) (kernel_locked s) (cr3 s) (cr2 s) v (vmxon_region s) (ticks s) (cons_out s) (cons_in s).
Definition set_vmxon_region (v : Z) (s : kstate) : kstate :=
  mkKstate (npages s) (npages_basemem s) (pages s) (page_free_list s) (mem s) (nextfree s) (end_debug s) (boot_pml4e s) (boot_cr3 s) (mmio_base s) (user_mem_check_addr s) (envs s) (env_free_list s) (curenv s) (cpu_status s) (is_vmx_root s) (kernel_locked s) (cr3 s) (cr2 s) (tlb s) v (ticks s) (cons_out s) (cons_in s).
Definition set_ticks (v : Z) (s : kstate) : kstate :=
  mkKstate (npages s) (npages_basemem s) (pages s) (page_free_list s) (mem s) (nextfree s) (end_debug s) (boot_pml4e s) (boot_cr3 s) (mmio_base s) (user_mem_check_addr s) (envs s) (env_free_list s) (curenv s) (cpu_status s) (is_vmx_root s) (kernel_locked s) (cr3 s) (cr2 s) (tlb s) (vmxon_region s) v (cons_out s) (cons_in s).
Definition set_cons_out (v : list Z) (s : kstate) : kstate :=
  mkKstate (npages s) (npages_basemem s) (pages s) (page_free_list s) (mem s) (nextfree s) (end_debug s) (boot_pml4e s) (boot_cr3 s) (mmio_base s) (user_mem_check_addr s) (envs s) (env_free_list s) (curenv s) (cpu_status s) (is_vmx_root s) (kernel_locked s) (cr3 s) (cr2 s) (tlb s) (vmxon_region s) (ticks s) v (cons_in s).
Definition set_cons_in (v : list Z) (s : kstate) : kstate :=
  mkKstate (npages s) (npages_basemem s) (pages s) (page_free_list s) (mem s) (nextfree s) (end_debug s) (boot_pml4e s) (boot_cr3 s) (mmio_base s) (user_mem_check_addr s) (envs s) (env_free_list s) (curenv s) (cpu_status s) (is_vmx_root s) (kernel_locked s) (cr3 s) (cr2 s) (tlb s) (vmxon_region s) (ticks s) (cons_out s) v.

(** Zeroed structures, as [memset(.., 0, sizeof ..)] leaves them. *)
Definition PageInfo0 : PageInfo := mkPageInfo None 0.
Definition PushRegs0 : PushRegs := mkPushRegs 0 0 0 0 0 0 0 0 0 0 0 0 0 0 0.
Definition Trapframe0 : Trapframe := mkTrapframe PushRegs0 0 0 0 0 0 0 0 0 0.
Definition VmxGuestInfo0 : VmxGuestInfo := mkVmxGuestInfo 0 0 0 0 0 0 0 0.
Definition Env0 : Env :=
  mkEnv Trapframe0 None 0 0 0 0 0 0 0 0 0 false 0 0 0 0 0 VmxGuestInfo0.

Notation K := (M kstate).

(** ** Element access *)

Definition page_at (s : kstate) (pp : Z) : PageInfo := default PageInfo0 (pages s !! pp).
Definition env_at (s : kstate) (e : Z) : Env := default Env0 (envs s !! e).

Definition upd_page (pp : Z) (f : PageInfo -> PageInfo) : K unit :=
  modify (fun s => set_pages (<[pp := f (page_at s pp)]> (pages s)) s).
Definition upd_env (e : Z) (f : Env -> Env) : K unit :=
  modify (fun s => set_envs (<[e := f (env_at s e)]> (envs s)) s).

(** ** Physical memory

    Word [i] of physical page [p]; a word never written reads as 0. *)
Definition entry (s : kstate) (p i : Z) : Z := default 0 (default ∅ (mem s !! p) !! i).
Definition set_entry (p i v : Z) (s : kstate) : kstate :=
  set_mem (<[p := <[i := v]> (default ∅ (mem s !! p))]> (mem s)) s.
Definition zero_page (p : Z) (s : kstate) : kstate := set_mem (<[p := ∅]> (mem s)) s.

(** A kernel virtual address maps to the physical address below KERNBASE;
    a 64-bit access is to the word that contains the address. *)
Definition kva_page (kva : Z) : Z := (kva - KERNBASE) / PGSIZE.
Definition kva_word (kva : Z) : Z := ((kva - KERNBASE) mod PGSIZE) / 8.

Definition load64 (kva : Z) : K Z := gets (fun s => entry s (kva_page kva) (kva_word kva)).
Definition store64 (kva v : Z) : K unit := modify (set_entry (kva_page kva) (kva_word kva) v).
(** [memset(kva, 0, PGSIZE)] on a page *)
Definition memset_page (kva : Z) : K unit := modify (zero_page (kva_page kva)).

(** [&table[i]] for a table of 64-bit entries *)
Definition index8 (table i : Z) : Z := table + 8 * i.

(** ** kern/pmap.h *)

Definition page2ppn (pp : Z) : Z := pp.
Definition page2pa (pp : Z) : Z := u64 (Z.shiftl (page2ppn pp) PGSHIFT).

Definition PADDR (kva : Z) : K Z :=
  if kva <? KERNBASE then panic "PADDR called with invalid kva" else ret (kva - KERNBASE).

Definition KADDR (pa : Z) : K Z :=
  let! n := gets npages in
  if n <=? u32 (PPN pa) then panic "KADDR called with invalid pa"
  else ret (u64 (pa + KERNBASE)).

Definition pa2page (pa : Z) : K Z :=
  let! n := gets npages in
  if n <=? PPN pa then panic "pa2page called with invalid pa" else ret (PPN pa).

Definition page2kva (pp : Z) : K Z := KADDR (page2pa pp).

Definition ALLOC_ZERO : Z := 1.

(** ** Facts about the address macros *)

Lemma PPN_div pa : PPN pa = pa / PGSIZE.
Proof. unfold PPN, PTXSHIFT, PGSIZE. by rewrite Z.shiftr_div_pow2. Qed.

Lemma PML4_eq la : PML4 la = la / 2 ^ 39 mod 512.
Proof. unfold PML4, PML4SHIFT. rewrite Z.shiftr_div_pow2 by done. by apply (land_mask _ 9). Qed.

Lemma PDPE_eq la : PDPE la = la / 2 ^ 30 mod 512.
Proof. unfold PDPE, PDPESHIFT. rewrite Z.shiftr_div_pow2 by done. by apply (land_mask _ 9). Qed.

Lemma PDX_eq la : PDX la = la / 2 ^ 21 mod 512.
Proof. unfold PDX, PDXSHIFT. rewrite Z.shiftr_div_pow2 by done. by apply (land_mask _ 9). Qed.

Lemma PTX_eq la : PTX la = la / 2 ^ 12 mod 512.
Proof. unfold PTX, PTXSHIFT. rewrite Z.shiftr_div_pow2 by done. by apply (land_mask _ 9). Qed.

Lemma PGOFF_eq la : PGOFF la = la mod PGSIZE.
Proof. by apply (land_mask _ 12). Qed.

Lemma PML4_range la : 0 <= PML4 la < 512.
Proof. rewrite PML4_eq. apply Z.mod_pos_bound; lia. Qed.
Lemma PDPE_range la : 0 <= PDPE la < 512.
Proof. rewrite PDPE_eq. apply Z.mod_pos_bound; lia. Qed.
Lemma PDX_range la : 0 <= PDX la < 512.
Proof. rewrite PDX_eq. apply Z.mod_pos_bound; lia. Qed.
Lemma PTX_range la : 0 <= PTX la < 512.
Proof. rewrite PTX_eq. apply Z.mod_pos_bound; lia. Qed.
#[export] Hint Resolve PML4_range PDPE_range PDX_range PTX_range : jos.

Lemma PTE_ADDR_eq pte : PTE_ADDR pte = PPN pte * PGSIZE.
Proof.
  unfold PTE_ADDR. change 0xFFF with (2 ^ 12 - 1). rewrite land_clear by done.
  rewrite PPN_div. unfold PGSIZE. change (2 ^ 12) with 4096.
  pose proof (Z.div_mod pte 4096). lia.
Qed.

Lemma PPN_mul p : PPN (p * PGSIZE) = p.
Proof. rewrite PPN_div. unfold PGSIZE. apply Z.div_mul. lia. Qed.

Lemma PPN_PTE_ADDR e : PPN (PTE_ADDR e) = PPN e.
Proof. by rewrite PTE_ADDR_eq, PPN_mul. Qed.

(** An entry built from a page address and flags. *)
Lemma lor_flags p f : 0 <= f < PGSIZE -> Z.lor (p * PGSIZE) f = p * PGSIZE + f.
Proof. by apply (lor_disjoint p f 12). Qed.

(** The flags of an entry. *)
Lemma land_page p f m :
  0 <= f < PGSIZE -> 0 <= m < PGSIZE -> Z.land (p * PGSIZE + f) m = Z.land f m.
Proof.
  intros Hf Hm.
  assert (forall x, Z.land x m = Z.land (x mod 2 ^ 12) m) as Hlow.
  { intros x. rewrite <- (Z.mod_small m (2 ^ 12)) at 1 by (unfold PGSIZE in Hm; lia).
    rewrite <- !Z.land_ones by done. rewrite (Z.land_comm m), Z.land_assoc. done. }
  rewrite Hlow. f_equal. change (2 ^ 12) with PGSIZE.
  rewrite Z.add_comm, Z.mod_add, Z.mod_small by (unfold PGSIZE in *; lia). done.
Qed.

Lemma PPN_add p f : 0 <= f < PGSIZE -> PPN (p * PGSIZE + f) = p.
Proof.
  intros Hf. rewrite PPN_div. unfold PGSIZE in *.
  rewrite Z.div_add_l, Z.div_small by lia. lia.
Qed.

Lemma PPN_lor p f : 0 <= f < PGSIZE -> PPN (Z.lor (p * PGSIZE) f) = p.
Proof. intros Hf. rewrite lor_flags by done. by apply PPN_add. Qed.

Lemma PPN_nonneg e : 0 <= e -> 0 <= PPN e.
Proof. intros. rewrite PPN_div. apply Z.div_pos; unfold PGSIZE; lia. Qed.

Lemma page2pa_eq p : 0 <= p < 2 ^ 32 -> page2pa p = p * PGSIZE.
Proof.
  intros Hp. unfold page2pa, page2ppn, PGSHIFT.
  rewrite Z.shiftl_mul_pow2 by done. unfold PGSIZE. rewrite u64_small; lia.
Qed.

(** ** Facts about memory accesses *)

Definition kva (p i : Z) : Z := KERNBASE + p * PGSIZE + 8 * i.

Lemma kva_0 p : kva p 0 = KERNBASE + p * PGSIZE.
Proof. unfold kva. lia. Qed.

Lemma index8_kva p i j : index8 (kva p i) j = kva p (i + j).
Proof. unfold index8, kva. lia. Qed.

Lemma kva_page_kva p i : 0 <= i < 512 -> kva_page (kva p i) = p.
Proof.
  intros Hi. unfold kva_page, kva, PGSIZE.
  replace (KERNBASE + p * 4096 + 8 * i - KERNBASE) with (p * 4096 + 8 * i) by lia.
  rewrite Z.div_add_l, Z.div_small by lia. lia.
Qed.

Lemma kva_word_kva p i : 0 <= i < 512 -> kva_word (kva p i) = i.
Proof.
  intros Hi. unfold kva_word, kva, PGSIZE.
  replace (KERNBASE + p * 4096 + 8 * i - KERNBASE) with (8 * i + p * 4096) by lia.
  rewrite Z.mod_add by lia. rewrite Z.mod_small by lia.
  rewrite Z.mul_comm. apply Z.div_mul. lia.
Qed.

Lemma load64_kva p i s : 0 <= i < 512 -> load64 (kva p i) s = Ret (entry s p i) s.
Proof. intros Hi. unfold load64, gets. by rewrite kva_page_kva, kva_word_kva. Qed.

Lemma store64_kva p i v s : 0 <= i < 512 -> store64 (kva p i) v s = Ret tt (set_entry p i v s).
Proof. intros Hi. unfold store64, modify. by rewrite kva_page_kva, kva_word_kva. Qed.

Lemma memset_page_kva p s : memset_page (kva p 0) s = Ret tt (zero_page p s).
Proof. unfold memset_page, modify. by rewrite kva_page_kva by lia. Qed.

Lemma entry_set_entry s p i v p' i' :
  entry (set_entry p i v s) p' i' = if decide (p = p' /\ i = i') then v else entry s p' i'.
Proof.
  unfold entry, set_entry. cbn. destruct (decide (p = p')) as [->|Hp].
  - rewrite lookup_insert_eq. cbn. destruct (decide (i = i')) as [->|Hi].
    + rewrite lookup_insert_eq. cbn. by rewrite decide_True.
    + rewrite lookup_insert_ne by done. by rewrite decide_False by naive_solver.
  - rewrite lookup_insert_ne by done. by rewrite decide_False by naive_solver.
Qed.

Lemma entry_set_entry_eq s p i v : entry (set_entry p i v s) p i = v.
Proof. rewrite entry_set_entry. by rewrite decide_True. Qed.

Lemma entry_set_entry_ne s p i v p' i' :
  p <> p' \/ i <> i' -> entry (set_entry p i v s) p' i' = entry s p' i'.
Proof. intros H. rewrite entry_set_entry. by rewrite decide_False by naive_solver. Qed.

Lemma entry_zero_page s p p' i : entry (zero_page p s) p' i = if decide (p = p') then 0 else entry s p' i.
Proof.
  unfold entry, zero_page. cbn. case_decide as Hp.
  - subst. by rewrite lookup_insert_eq.
  - by rewrite lookup_insert_ne.
Qed.

Lemma page_at_upd s p f p' :
  page_at (set_pages (<[p := f]> (pages s)) s) p' = if decide (p = p') then f else page_at s p'.
Proof.
  unfold page_at. cbn. case_decide as Hp.
  - subst. by rewrite lookup_insert_eq.
  - by rewrite lookup_insert_ne.
Qed.

Lemma env_at_upd s e f e' :
  env_at (set_envs (<[e := f]> (envs s)) s) e' = if decide (e = e') then f else env_at s e'.
Proof.
  unfold env_at. cbn. case_decide as He.
  - subst. by rewrite lookup_insert_eq.
  - by rewrite lookup_insert_ne.
Qed.

(** Physical page numbers fit in the 32 bits [KADDR] keeps of them. *)
Definition npages_ok (s : kstate) : Prop := 0 <= npages s <= 2 ^ 32.

Lemma KADDR_page s p :
  npages_ok s -> 0 <= p < npages s -> KADDR (p * PGSIZE) s = Ret (kva p 0) s.
Proof.
  intros Hn Hp. unfold KADDR, npages_ok in *. rewrite (bind_Ret _ _ s (npages s) s) by done.
  rewrite PPN_mul, u32_small by lia.
  destruct (Z.leb_spec (npages s) p); [lia|].
  unfold ret. f_equal. rewrite u64_small; unfold kva, PGSIZE, KERNBASE in *; lia.
Qed.

Lemma KADDR_PTE_ADDR s e :
  npages_ok s -> 0 <= PPN e < npages s -> KADDR (PTE_ADDR e) s = Ret (kva (PPN e) 0) s.
Proof. intros. rewrite PTE_ADDR_eq. by apply KADDR_page. Qed.

Lemma page2kva_ok s p :
  npages_ok s -> 0 <= p < npages s -> page2kva p s = Ret (kva p 0) s.
Proof.
  intros Hn Hp. unfold page2kva. rewrite page2pa_eq by (unfold npages_ok in *; lia).
  by apply KADDR_page.
Qed.

Lemma PADDR_kva s p : 0 <= p -> PADDR (kva p 0) s = Ret (p * PGSIZE) s.
Proof.
  intros Hp. unfold PADDR. destruct (Z.ltb_spec (kva p 0) KERNBASE).
  - unfold kva, PGSIZE in *. lia.
  - unfold ret. f_equal. unfold kva. lia.
Qed.

Lemma pa2page_ok s e : 0 <= PPN e < npages s -> pa2page (PTE_ADDR e) s = Ret (PPN e) s.
Proof.
  intros H. unfold pa2page. rewrite (bind_Ret _ _ s (npages s) s) by done.
  rewrite PPN_PTE_ADDR. by destruct (Z.leb_spec (npages s) (PPN e)); [lia|].
Qed.

Lemma ROUNDDOWN_eq a : 0 <= a < 2 ^ 64 -> ROUNDDOWN a PGSIZE = a / PGSIZE * PGSIZE.
Proof.
  intros H. unfold ROUNDDOWN. rewrite u64_small by done. pose proof (Z.div_mod a PGSIZE ltac:(done)). lia.
Qed.

Lemma ROUNDUP_eq a : 0 <= a <= 2 ^ 64 - PGSIZE -> ROUNDUP a PGSIZE = (a + PGSIZE - 1) / PGSIZE * PGSIZE.
Proof.
  intros H. unfold ROUNDUP. assert (PGSIZE = 4096) by done.
  rewrite (u64_small a) by lia. rewrite u64_small by lia. apply ROUNDDOWN_eq. lia.
Qed.

(** A machine with [n] pages of memory just after the kernel is loaded, used
    for concrete runs: all memory zero, [end] the first free address. *)
Definition machine (n end_ : Z) : kstate :=
  mkKstate n 0 ∅ None ∅ end_ end_ 0 0 MMIOBASE 0 ∅ None None CPU_STARTED false true 0 0 [] 0 0 [] [].

Lemma bind_upd_env {B : Type} e f (c : unit -> K B) s :
  bind (upd_env e f) c s = c tt (set_envs (<[e := f (env_at s e)]> (envs s)) s).
Proof. done. Qed.
#[export] Hint Rewrite @bind_upd_env : mrun.
