(* ===== verification/PageAlloc.v ===== *)
(** The physical page allocator of kern/pmap.c: [boot_alloc], [page_init],
    [page_alloc], [page_free], [page_decref], and its refinement to a stack of
    free pages. *)

From S2P Require Import Prelude Kernel.

(** ** The code *)

Definition boot_alloc (n : Z) : K Z :=
  let! nf := gets nextfree in
  do! (if nf =? 0 then
         let! e := gets end_debug in
         modify (set_nextfree (ROUNDUP e PGSIZE))
       else ret tt) ;;
  let! result := gets nextfree in
  if 0 <? n then
    let newSize := u32 (ROUNDUP n PGSIZE) in
    do! modify (set_nextfree (u64 (result + newSize))) ;;
    ret result
  else ret result.

(** One round of the loop of [page_init]; [last] is its local variable. *)
Definition page_init_body (last : option Z) (i : Z) : K (option Z) :=
  do! upd_page i (set_pp_ref 0) ;;
  do! upd_page i (set_pp_link None) ;;
  do! (match last with
       | Some l => if 1 <? i then upd_page l (set_pp_link (Some i))
                   else modify (set_page_free_list (Some i))
       | None => modify (set_page_free_list (Some i))
       end) ;;
  let! io := PADDR (KERNBASE + IOPHYSMEM) in
  let! in_hole :=
    (if io <=? page2pa i then
       let! bf := boot_alloc 0 in
       let! top := PADDR bf in
       ret (page2pa i <=? top)
     else ret false) in
  if in_hole : bool then
    do! upd_page i (set_pp_link None) ;;
    do! upd_page i (fun p => set_pp_ref (u16 (pp_ref p + 1)) p) ;;
    ret last
  else if page2pa i =? MPENTRY_PADDR then
    do! upd_page i (set_pp_link None) ;;
    do! upd_page i (fun p => set_pp_ref (u16 (pp_ref p + 1)) p) ;;
    ret last
  else ret (Some i).

Definition page_init : K unit :=
  let! n := gets npages in
  do! foldM (seqZ 0 n) None page_init_body ;;
  ret tt.

Definition page_alloc (alloc_flags : Z) : K (option Z) :=
  let! phypage := gets page_free_list in
  match phypage with
  | Some pp =>
      let! link := gets (fun s => pp_link (page_at s pp)) in
      do! (if decide (link = Some pp) then modify (set_page_free_list None)
           else modify (set_page_free_list link)) ;;
      do! upd_page pp (set_pp_link None) ;;
      do! (if nz (Z.land alloc_flags ALLOC_ZERO) then
             let! k := page2kva pp in memset_page k
           else ret tt) ;;
      do! (if alloc_flags =? 0 then
             let! k := page2kva pp in memset_page k
           else ret tt) ;;
      ret (Some pp)
  | None => ret None
  end.

Definition page_initpp (pp : Z) : K unit := upd_page pp (fun _ => PageInfo0).

Definition page_free (pp : option Z) : K unit :=
  match pp with
  | Some p =>
      let! i := gets (fun s => page_at s p) in
      if bool_decide (pp_link i <> None) || nz (pp_ref i) then
        panic "Not able to free page either being used by something else or is already free"
      else
        let! last := gets page_free_list in
        match last with
        | Some _ =>
            do! upd_page p (set_pp_link last) ;;
            modify (set_page_free_list (Some p))
        | None =>
            do! modify (set_page_free_list (Some p)) ;;
            upd_page p (set_pp_link (Some p))
        end
  | None => ret tt
  end.

Definition page_decref (pp : Z) : K unit :=
  do! upd_page pp (fun p => set_pp_ref (u16 (pp_ref p - 1)) p) ;;
  let! r := gets (fun s => pp_ref (page_at s pp)) in
  if r =? 0 then page_free (Some pp) else ret tt.

(** ** The abstract view: a stack of free pages *)

Definition link_of (s : kstate) (p : Z) : option Z := pp_link (page_at s p).
Definition ref_of (s : kstate) (p : Z) : Z := pp_ref (page_at s p).

(** Consecutive pages of [l] are linked. *)
Fixpoint linked (s : kstate) (l : list Z) : Prop :=
  match l with
  | [] => True
  | a :: l' => match l' with [] => True | b :: _ => link_of s a = Some b end /\ linked s l'
  end.

(** [page_free_list] represents the stack [l]: its pages are linked, the
    last one has a null link or points to itself, and every page of it exists,
    is unreferenced and occurs once. *)
Record free_list_ok (s : kstate) (l : list Z) : Prop := {
  fl_head : page_free_list s = head l;
  fl_linked : linked s l;
  fl_last : forall a, last l = Some a -> link_of s a = None \/ link_of s a = Some a;
  fl_nodup : NoDup l;
  fl_pages : forall p, p ∈ l -> 0 <= p < npages s /\ ref_of s p = 0;
}.

(** The state [page_alloc] leaves when it takes [p] off the list. *)
Definition popped (flags p : Z) (h : option Z) (s : kstate) : kstate :=
  let s1 := set_pages (<[p := set_pp_link None (page_at s p)]> (pages s))
              (set_page_free_list h s) in
  if (flags =? 0) || nz (Z.land flags ALLOC_ZERO) then zero_page p s1 else s1.

(** ** Lemmas *)

Lemma bind_upd_page {B : Type} p f (k : unit -> K B) s :
  bind (upd_page p f) k s = k tt (set_pages (<[p := f (page_at s p)]> (pages s)) s).
Proof. done. Qed.
#[export] Hint Rewrite @bind_upd_page : mrun.

Lemma linked_ext s s' l :
  (forall p, p ∈ l -> link_of s' p = link_of s p) -> linked s l -> linked s' l.
Proof.
  induction l as [|a l IH]; intros Hl; [done|]. cbn. intros [Ha Hrest]. split.
  - destruct l; [done|]. rewrite Hl by lset. done.
  - apply IH; lset.
Qed.

Lemma linked_tail s a l : linked s (a :: l) -> linked s l.
Proof. by intros [_ H]. Qed.

Lemma free_list_ok_ext s s' l :
  page_free_list s' = page_free_list s -> npages s' = npages s ->
  (forall p, p ∈ l -> page_at s' p = page_at s p) ->
  free_list_ok s l -> free_list_ok s' l.
Proof.
  intros Hf Hn Hp [H1 H2 H3 H4 H5]. split.
  - congruence.
  - eapply linked_ext; [|done]. intros p Hin. unfold link_of. by rewrite Hp.
  - intros a Ha. unfold link_of. rewrite Hp; [by apply H3|].
    by apply last_Some_elem_of.
  - done.
  - intros p Hin. unfold ref_of. rewrite Hp, Hn by done. by apply H5.
Qed.

(** The head a list keeps after its first page is taken. *)
Lemma free_list_next s p l :
  free_list_ok s (p :: l) ->
  (if decide (link_of s p = Some p) then None else link_of s p) = head l.
Proof.
  intros [H1 H2 H3 H4 H5]. destruct l as [|q l].
  - destruct (H3 p) as [-> | ->]; [done|case_decide; done|case_decide; done].
  - destruct H2 as [Hpq _]. rewrite Hpq. case_decide as Heq; [|done].
    inversion Heq; subst. apply NoDup_cons in H4 as [H4 _]. lset.
Qed.

Lemma page_alloc_empty flags s : free_list_ok s [] -> page_alloc flags s = Ret None s.
Proof. intros [H1 _ _ _ _]. unfold page_alloc. msteps. by rewrite H1. Qed.

Lemma page_alloc_pop flags s p l :
  npages_ok s -> free_list_ok s (p :: l) ->
  page_alloc flags s = Ret (Some p) (popped flags p (head l) s).
Proof.
  intros Hn Hfl. pose proof (free_list_next _ _ _ Hfl) as Hnext.
  destruct (fl_pages _ _ Hfl p ltac:(lset)) as [Hp _].
  unfold page_alloc. msteps. rewrite (fl_head _ _ Hfl). cbn [head]. msteps.
  fold (link_of s p) in *.
  rewrite (bind_Ret _ _ s tt (set_page_free_list (head l) s)); cycle 1.
  { rewrite <- Hnext. by case_decide. }
  msteps.
  set (s1 := set_pages _ _).
  assert (page2kva p s1 = Ret (kva p 0) s1) as Hk by (apply page2kva_ok; [exact Hn|exact Hp]).
  assert (page2kva p (zero_page p s1) = Ret (kva p 0) (zero_page p s1)) as Hk'
    by (apply page2kva_ok; [exact Hn|exact Hp]).
  unfold popped. fold s1. unfold nz.
  destruct (Z.eqb_spec flags 0) as [->|Hf].
  - change (negb (Z.land 0 ALLOC_ZERO =? 0)) with false. cbv iota. msteps. mrun Hk. rewrite (bind_Ret _ _ _ _ _ (memset_page_kva p s1)). done.
  - destruct (Z.land flags ALLOC_ZERO =? 0) eqn:Hz; cbn [negb orb]; cbv iota; msteps; [done|].
    mrun Hk. rewrite (bind_Ret _ _ _ _ _ (memset_page_kva p s1)). done.
Qed.

Lemma popped_npages flags p h s : npages (popped flags p h s) = npages s.
Proof. unfold popped. by destruct (_ || _). Qed.

Lemma popped_page_at flags p h s q :
  page_at (popped flags p h s) q = if decide (p = q) then set_pp_link None (page_at s p) else page_at s q.
Proof. unfold popped. destruct (_ || _); apply (page_at_upd (set_page_free_list h s)). Qed.

Lemma popped_entry flags p h s q i :
  entry (popped flags p h s) q i =
  if ((flags =? 0) || nz (Z.land flags ALLOC_ZERO)) && bool_decide (p = q) then 0 else entry s q i.
Proof.
  unfold popped. destruct (_ || _); cbn; [|done].
  rewrite entry_zero_page. by case_decide; case_bool_decide.
Qed.

Lemma popped_free_list flags s p l :
  free_list_ok s (p :: l) -> free_list_ok (popped flags p (head l) s) l.
Proof.
  intros [H1 H2 H3 H4 H5]. apply NoDup_cons in H4 as [Hnin Hnd].
  assert (forall q, q ∈ l -> page_at (popped flags p (head l) s) q = page_at s q) as Hsame.
  { intros q Hq. rewrite popped_page_at. case_decide; [by subst|done]. }
  split.
  - unfold popped. by destruct (_ || _).
  - eapply linked_ext; [|by eapply linked_tail]. intros q Hq. unfold link_of. by rewrite Hsame.
  - intros a Ha. unfold link_of. rewrite Hsame by (by apply last_Some_elem_of).
    apply H3. destruct l; [done|]. done.
  - done.
  - intros q Hq. unfold ref_of. rewrite Hsame, popped_npages by done. apply H5. lset.
Qed.

(** The state [page_free] leaves. *)
Definition pushed (p : Z) (s : kstate) : kstate :=
  let l := match page_free_list s with Some h => Some h | None => Some p end in
  set_pages (<[p := set_pp_link l (page_at s p)]> (pages s)) (set_page_free_list (Some p) s).

Lemma page_free_push s p :
  link_of s p = None -> ref_of s p = 0 -> page_free (Some p) s = Ret tt (pushed p s).
Proof.
  intros Hl Hr. unfold page_free. msteps. fold (link_of s p) (ref_of s p).
  rewrite Hl, Hr. cbn. msteps. unfold pushed.
  destruct (page_free_list s) as [h|] eqn:E; msteps; done.
Qed.

Lemma pushed_page_at s p q :
  q <> p -> page_at (pushed p s) q = page_at s q.
Proof. intros Hq. unfold pushed. rewrite (page_at_upd (set_page_free_list (Some p) s)). by rewrite decide_False. Qed.

Lemma pushed_ref s p q : ref_of (pushed p s) q = ref_of s q.
Proof.
  unfold ref_of, pushed. rewrite (page_at_upd (set_page_free_list (Some p) s)).
  case_decide; by subst.
Qed.

Lemma pushed_free_list s p l :
  free_list_ok s l -> 0 <= p < npages s -> ref_of s p = 0 -> p ∉ l ->
  free_list_ok (pushed p s) (p :: l).
Proof.
  intros [H1 H2 H3 H4 H5] Hp Hr Hnin.
  assert (forall q, q ∈ l -> page_at (pushed p s) q = page_at s q) as Hsame.
  { intros q Hq. apply pushed_page_at. by intros ->. }
  assert (link_of (pushed p s) p = match head l with Some h => Some h | None => Some p end) as Hlp.
  { unfold link_of, pushed. rewrite (page_at_upd (set_page_free_list (Some p) s)).
    rewrite decide_True, H1 by done. done. }
  split.
  - done.
  - cbn. split; [|eapply linked_ext; [|done]; intros q Hq; unfold link_of; by rewrite Hsame].
    rewrite Hlp. by destruct l.
  - intros a Ha. destruct l as [|q l].
    + cbn in Ha. inversion Ha; subst. right. exact Hlp.
    + change (last (q :: l) = Some a) in Ha. unfold link_of.
      rewrite Hsame by (by apply last_Some_elem_of). by apply H3.
  - apply NoDup_cons. done.
  - intros q Hq. rewrite pushed_ref. apply elem_of_cons in Hq as [->|Hq]; [done|]. by apply H5.
Qed.

(** *** [page_init] *)

(** The pages [page_init] keeps off the list when the boot allocator has
    reached the physical address [top]: the hole from 640K through [top], and
    the page the other processors start in. *)
Definition page_reserved (top i : Z) : bool :=
  ((IOPHYSMEM <=? i * PGSIZE) && (i * PGSIZE <=? top)) || (i * PGSIZE =? MPENTRY_PADDR).

Definition free_below (top k : Z) : list Z :=
  filter (fun i => page_reserved top i = false) (seqZ 1 (k - 1)).

(** Only the array of pages and the head of the free list change. *)
Definition pages_only (s s' : kstate) : Prop := s' = set_pages (pages s') (set_page_free_list (page_free_list s') s).

Lemma page_init_body_run last i s :
  0 <= i < 2 ^ 32 -> KERNBASE <= nextfree s -> last <> Some i ->
  exists s', page_init_body last i s =
      Ret (if page_reserved (nextfree s - KERNBASE) i then last else Some i) s'
    /\ npages s' = npages s /\ nextfree s' = nextfree s /\ mem s' = mem s
    /\ page_free_list s' = (if (1 <? i) && bool_decide (last <> None) then page_free_list s else Some i)
    /\ page_at s' i = mkPageInfo None (if page_reserved (nextfree s - KERNBASE) i then 1 else 0)
    /\ (forall l, last = Some l -> 1 < i -> page_at s' l = set_pp_link (Some i) (page_at s l))
    /\ (forall j, j <> i -> (1 < i -> last <> Some j) -> page_at s' j = page_at s j)
    /\ pages_only s s'.
Proof.
  intros Hi Hnf Hlast. unfold page_init_body. msteps.
  set (s1 := set_pages _ (set_pages _ s)).
  set (s2 := match last with
             | Some l => if 1 <? i then set_pages (<[l := set_pp_link (Some i) (page_at s1 l)]> (pages s1)) s1
                         else set_page_free_list (Some i) s1
             | None => set_page_free_list (Some i) s1 end).
  rewrite (bind_Ret _ _ s1 tt s2); cycle 1.
  { subst s2. destruct last as [l|]; [destruct (1 <? i)|]; done. }
  assert (forall j, page_at s1 j = if decide (i = j) then mkPageInfo None 0 else page_at s j) as Hs1.
  { intros j. subst s1. rewrite (page_at_upd (set_pages _ s)). case_decide; [subst|].
    - by rewrite page_at_upd, decide_True.
    - by rewrite page_at_upd, decide_False. }
  assert (forall j, page_at s2 j = if decide (i = j) then mkPageInfo None 0
            else if decide (last = Some j /\ 1 < i) then set_pp_link (Some i) (page_at s j) else page_at s j) as Hs2.
  { intros j. subst s2. destruct last as [l|].
    - destruct (Z.ltb_spec 1 i).
      + rewrite page_at_upd. destruct (decide (l = j)) as [->|Hlj].
        * rewrite Hs1. rewrite !(decide_False (P := i = j)) by naive_solver.
          by rewrite decide_True by naive_solver.
        * rewrite Hs1. case_decide; [done|]. by rewrite decide_False by naive_solver.
      + change (page_at (set_page_free_list (Some i) s1) j) with (page_at s1 j). rewrite Hs1.
        case_decide; [done|]. rewrite decide_False; [done|]. intros [_ ?]. lia.
    - change (page_at (set_page_free_list (Some i) s1) j) with (page_at s1 j). rewrite Hs1.
      case_decide; [done|]. rewrite decide_False; [done|]. by intros [? _]. }
  assert (npages s2 = npages s /\ nextfree s2 = nextfree s /\ mem s2 = mem s /\
    page_free_list s2 = if (1 <? i) && bool_decide (last <> None) then page_free_list s else Some i)
    as (Hn2 & Hf2 & Hm2 & Hl2).
  { subst s2. destruct last as [l|]; [destruct (1 <? i)|]; cbn; try rewrite andb_false_r; done. }
  assert (pages_only s s2) as Hp2. { subst s2. destruct last as [l|]; [destruct (1 <? i)|]; done. }
  clearbody s2. clear s1 Hs1.
  assert (PADDR (KERNBASE + IOPHYSMEM) s2 = Ret IOPHYSMEM s2) as Hio by done. mrun Hio.
  rewrite page2pa_eq by done. msteps.
  rewrite (bind_Ret _ _ s2 ((IOPHYSMEM <=? i * PGSIZE) && (i * PGSIZE <=? nextfree s - KERNBASE)) s2); cycle 1.
  { destruct (IOPHYSMEM <=? i * PGSIZE); cbn [andb]; [|done].
    rewrite (bind_Ret _ _ s2 (nextfree s) s2); cycle 1.
    { unfold boot_alloc. msteps. rewrite Hf2.
      destruct (Z.eqb_spec (nextfree s) 0); [unfold KERNBASE in *; lia|]. msteps. by rewrite Hf2. }
    unfold PADDR. destruct (Z.ltb_spec (nextfree s) KERNBASE); [lia|]. done. }
  unfold page_reserved.
  set (hole := (IOPHYSMEM <=? i * PGSIZE) && (i * PGSIZE <=? nextfree s - KERNBASE)).
  set (s2a := set_pages (<[i := set_pp_link None (page_at s2 i)]> (pages s2)) s2).
  set (s3 := set_pages (<[i := set_pp_ref (u16 (pp_ref (page_at s2a i) + 1)) (page_at s2a i)]> (pages s2a)) s2a).
  assert (page_at s2 i = mkPageInfo None 0) as Hi2 by (by rewrite Hs2, decide_True).
  assert (forall j, page_at s3 j = if decide (i = j) then mkPageInfo None 1 else page_at s2 j) as Hs3.
  { intros j. subst s3. rewrite page_at_upd. destruct (decide (i = j)); subst s2a; rewrite page_at_upd.
    - by rewrite decide_True, Hi2.
    - by rewrite decide_False. }
  exists (if hole || (i * PGSIZE =? MPENTRY_PADDR) then s3 else s2). split.
  { destruct hole; cbn [orb]; [done|]. destruct (i * PGSIZE =? MPENTRY_PADDR); done. }
  assert (pages_only s s3) as Hp3 by (unfold pages_only, s3, s2a; by rewrite Hp2).
  destruct (hole || (i * PGSIZE =? MPENTRY_PADDR)); split_ands; try done.
  - rewrite Hs3. by rewrite decide_True.
  - intros l -> Hi1. rewrite Hs3, decide_False by naive_solver.
    rewrite Hs2, decide_False by naive_solver. by rewrite decide_True.
  - intros j Hj Hlj. rewrite Hs3, decide_False by naive_solver.
    rewrite Hs2, decide_False by naive_solver. by rewrite decide_False by naive_solver.
  - intros l -> Hi1. rewrite Hs2, decide_False by naive_solver. by rewrite decide_True.
  - intros j Hj Hlj. rewrite Hs2, decide_False by naive_solver. by rewrite decide_False by naive_solver.
Qed.

Lemma linked_but_last s s' l :
  NoDup l -> (forall p, p ∈ l -> last l <> Some p -> link_of s' p = link_of s p) ->
  linked s l -> linked s' l.
Proof.
  induction l as [|a [|b l] IH]; intros Hnd Hsame; [done|done|].
  intros [Hab Hrest]. apply NoDup_cons in Hnd as [Ha Hnd]. split.
  - rewrite Hsame; [done|lset|]. intros Heq.
    change (last (b :: l) = Some a) in Heq. apply last_Some_elem_of in Heq. done.
  - apply IH; [done| |done]. intros p Hp Hl. apply Hsame; [lset|done].
Qed.

Lemma linked_snoc s l b :
  linked s l -> (forall a, last l = Some a -> link_of s a = Some b) -> linked s (l ++ [b]).
Proof.
  induction l as [|a [|c l] IH]; intros Hl Hlast; [done| |].
  - cbn. split; [by apply Hlast|done].
  - destruct Hl as [Hac Hrest]. split; [done|]. by apply IH.
Qed.

Lemma free_below_snoc top k :
  1 <= k -> free_below top (k + 1) = free_below top k ++ (if page_reserved top k then [] else [k]).
Proof.
  intros Hk. unfold free_below. replace (k + 1 - 1) with ((k - 1) + 1) by lia.
  rewrite seqZ_snoc, filter_app by lia. f_equal.
  replace (1 + (k - 1)) with k by lia. destruct (page_reserved top k) eqn:E.
  - rewrite filter_cons_False by (by rewrite E). done.
  - by rewrite filter_cons_True.
Qed.

Lemma free_below_elem top k p : p ∈ free_below top k -> 1 <= p < k /\ page_reserved top p = false.
Proof. unfold free_below. rewrite list_elem_of_filter, elem_of_seqZ. intros [? ?]. split; [lia|done]. Qed.

Lemma free_below_nodup top k : NoDup (free_below top k).
Proof. apply NoDup_filter, NoDup_seqZ. Qed.

Lemma page_reserved_1 top : page_reserved top 1 = false.
Proof. done. Qed.
Lemma page_reserved_0 top : page_reserved top 0 = false.
Proof. done. Qed.

Lemma free_below_head top k : 2 <= k -> head (free_below top k) = Some 1.
Proof.
  intros Hk. unfold free_below. rewrite seqZ_cons by lia. by rewrite filter_cons_True.
Qed.

(** What the loop of [page_init] has established before round [k]. *)
Record page_init_inv (s0 : kstate) (k : Z) (last : option Z) (s : kstate) : Prop := {
  pi_npages : npages s = npages s0;
  pi_nextfree : nextfree s = nextfree s0;
  pi_mem : mem s = mem s0;
  pi_refs : forall i, 0 <= i < k ->
    ref_of s i = if page_reserved (nextfree s0 - KERNBASE) i then 1 else 0;
  pi_last : last = if k =? 0 then None else if k =? 1 then Some 0
                   else list.last (free_below (nextfree s0 - KERNBASE) k);
  pi_head : 2 <= k -> page_free_list s = Some 1;
  pi_linked : linked s (free_below (nextfree s0 - KERNBASE) k);
  pi_tail : 1 <= k -> page_reserved (nextfree s0 - KERNBASE) (k - 1) = false ->
    link_of s (k - 1) = None;
  pi_only : pages_only s0 s;
  pi_unlinked : forall i, 0 <= i < k -> i ∉ free_below (nextfree s0 - KERNBASE) k -> link_of s i = None;
  pi_beyond : forall i, ~ 0 <= i < k -> page_at s i = page_at s0 i;
}.

Lemma free_below_last_some top k : 2 <= k ->
  exists a, last (free_below top k) = Some a /\ 1 <= a < k.
Proof.
  intros Hk. destruct (last (free_below top k)) as [a|] eqn:E.
  - exists a. split; [done|]. apply last_Some_elem_of, free_below_elem in E. tauto.
  - apply last_None in E. pose proof (free_below_head top k Hk) as H. by rewrite E in H.
Qed.

Lemma page_init_step s0 k last s :
  0 <= k < 2 ^ 32 -> KERNBASE <= nextfree s0 -> page_init_inv s0 k last s ->
  exists last' s', page_init_body last k s = Ret last' s' /\ page_init_inv s0 (k + 1) last' s'.
Proof.
  intros Hk Hnf [I1 I2 I3 I4 I5 I6 I7 I8 I9 I10 I11].
  set (top := nextfree s0 - KERNBASE) in *.
  assert (forall a, last = Some a -> 0 <= a < k) as Hlast.
  { intros a ->. destruct (Z.eqb_spec k 0); [done|]. destruct (Z.eqb_spec k 1).
    - inversion I5. lia.
    - destruct (free_below_last_some top k) as (b & Hb & ?); [lia|]. rewrite Hb in I5.
      inversion I5. lia. }
  destruct (page_init_body_run last k s) as (s' & Hrun & J1 & J2 & J3 & J4 & J5 & J6 & J7 & J8);
    [done|by rewrite I2|intros Heq; apply Hlast in Heq; lia|].
  rewrite I2 in *. fold top in Hrun, J5.
  exists (if page_reserved top k then last else Some k), s'. split; [done|].
  assert (forall j, 0 <= j < k -> ref_of s' j = ref_of s j) as Href.
  { intros j Hj. unfold ref_of. destruct (decide (last = Some j /\ 1 < k)) as [[Hl H1]|Hn].
    - rewrite (J6 j Hl H1). done.
    - rewrite J7; [done|lia|]. intros ? ?. naive_solver. }
  split; try congruence.
  - fold top. intros i Hi. destruct (decide (i = k)) as [->|].
    + unfold ref_of. by rewrite J5.
    + rewrite Href by lia. apply I4. lia.
  - fold top. destruct (Z.eqb_spec (k + 1) 0); [lia|].
    destruct (Z.eqb_spec (k + 1) 1) as [Hk1|].
    { assert (k = 0) as -> by lia. by rewrite page_reserved_0. }
    rewrite free_below_snoc by lia. destruct (page_reserved top k) eqn:Hr.
    + rewrite app_nil_r. destruct (Z.eqb_spec k 0); [lia|].
      destruct (Z.eqb_spec k 1) as [->|]; [by rewrite page_reserved_1 in Hr|done].
    + by rewrite last_snoc.
  - intros H2. rewrite J4. destruct (Z.ltb_spec 1 k); cbn [andb]; [|f_equal; lia].
    destruct (free_below_last_some top k) as (b & Hb & ?); [lia|].
    destruct (Z.eqb_spec k 0); [lia|]. destruct (Z.eqb_spec k 1); [lia|].
    rewrite I5, Hb. rewrite bool_decide_eq_true_2 by done. apply I6. lia.
  - fold top. destruct (decide (k = 0)) as [->|]; [done|].
    rewrite free_below_snoc by lia.
    assert (1 < k -> last = list.last (free_below top k)) as Hl'.
    { intros. destruct (Z.eqb_spec k 0); [lia|]. destruct (Z.eqb_spec k 1); [lia|]. done. }
    assert (linked s' (free_below top k)) as HL.
    { eapply linked_but_last; [apply free_below_nodup| |exact I7].
      intros p Hp Hne. apply free_below_elem in Hp as [Hp _]. unfold link_of.
      rewrite J7; [done|lia|]. intros H1. by rewrite Hl'. }
    destruct (page_reserved top k); [by rewrite app_nil_r|].
    apply linked_snoc; [done|]. intros a Ha.
    pose proof (last_Some_elem_of _ _ Ha) as Hin. apply free_below_elem in Hin as [? _].
    unfold link_of. rewrite (J6 a); [done| |lia]. rewrite Hl' by lia. done.
  - fold top. replace (k + 1 - 1) with k by lia. intros _ Hr. unfold link_of. by rewrite J5.
  - unfold pages_only in *. rewrite J8 at 1. by rewrite I9 at 1.
  - fold top. intros i Hi Hfree. unfold link_of. destruct (decide (i = k)) as [->|]; [by rewrite J5|].
    rewrite free_below_snoc in Hfree by lia. apply not_elem_of_app in Hfree as [Hfree _]. rewrite J7; [apply I10; [lia|done]|done|].
    intros H1 ->. apply Hfree. rewrite I5 in *. destruct (Z.eqb_spec k 0); [lia|]. destruct (Z.eqb_spec k 1); [lia|]. by apply last_Some_elem_of.
  - intros i Hi. rewrite J7; [apply I11; lia|lia|]. intros _ Hl. apply Hlast in Hl. lia.
Qed.

Lemma page_init_run s :
  2 <= npages s <= 2 ^ 32 -> KERNBASE <= nextfree s ->
  exists last s', page_init s = Ret tt s' /\ page_init_inv s (npages s) last s'.
Proof.
  intros Hn Hnf.
  destruct (foldM_inv (fun pre last s' => page_init_inv s (Z.of_nat (length pre)) last s')
    (seqZ 0 (npages s)) page_init_body None s) as (last & s' & Hrun & Hinv).
  - intros pre x post last s1 Hl HI. destruct (seqZ_split _ _ _ _ _ Hl) as [-> Hlt].
    rewrite length_app. cbn [length Z.add].
    replace (Z.of_nat (length pre + 1)) with (Z.of_nat (length pre) + 1) by lia.
    apply page_init_step; [lia|done|done].
  - split; try done; cbn; intros; try lia. by destruct s.
  - exists last, s'. unfold page_init. msteps. mrun Hrun. split; [done|].
    rewrite length_seqZ in Hinv. by replace (Z.of_nat (Z.to_nat (npages s))) with (npages s) in Hinv by lia.
Qed.

(** ** Properties of the allocator *)

(** [page_init] builds the free list: starting after [boot_alloc] has run,
    it returns with [page_free_list] representing, in increasing order, every
    page from page 1 up except the pages between 640K and the end of the boot
    allocations and the page at MPENTRY_PADDR; those have reference count 1,
    every other page 0; pages that are not free have no link, and nothing but
    the array and the head of the list is touched. *)
Lemma page_init_free_list s :
  2 <= npages s <= 2 ^ 32 -> KERNBASE <= nextfree s ->
  page_reserved (nextfree s - KERNBASE) (npages s - 1) = false ->
  exists s', page_init s = Ret tt s' /\
    free_list_ok s' (free_below (nextfree s - KERNBASE) (npages s)) /\
    (forall i, 0 <= i < npages s ->
       ref_of s' i = if page_reserved (nextfree s - KERNBASE) i then 1 else 0) /\
    (forall i, 0 <= i < npages s -> i ∉ free_below (nextfree s - KERNBASE) (npages s) -> link_of s' i = None) /\
    (forall i, ~ 0 <= i < npages s -> page_at s' i = page_at s i) /\ pages_only s s'.
Proof.
  intros Hn Hnf Htail. destruct (page_init_run s Hn Hnf) as (lst & s' & Hrun & [I1 I2 I3 I4 I5 I6 I7 I8 I9 I10 I11]).
  exists s'. split_ands; [done| |done..]. split.
  - rewrite free_below_head by lia. apply I6. lia.
  - exact I7.
  - intros a Ha. left. replace (npages s) with ((npages s - 1) + 1) in Ha by lia.
    rewrite free_below_snoc, Htail, last_snoc in Ha by lia. inversion Ha; subst.
    apply I8; [lia|done].
  - apply free_below_nodup.
  - intros p Hp. apply free_below_elem in Hp as [Hp Hr].
    rewrite I1, I4, Hr by lia. split; [lia|done].
Qed.

Example page_init_free_list_example :
  exists s', page_init (machine 200 (KERNBASE + 0xB0000)) = Ret tt s' /\
    free_list_ok s' (free_below 0xB0000 200) /\
    (forall i, 0 <= i < 200 -> ref_of s' i = if page_reserved 0xB0000 i then 1 else 0).
Proof.
  destruct (page_init_free_list (machine 200 (KERNBASE + 0xB0000))) as (s' & H1 & H2 & H3 & _); [done..|]. exists s'. split; [exact H1|]. split; [exact H2|exact H3].
Qed.

(** A small machine whose free list is pages 3 and 5; page 4 is free to be
    given back and page 6 has two references. *)
Definition two_free : kstate :=
  set_page_free_list (Some 3)
    (set_pages {[ 3 := mkPageInfo (Some 5) 0; 5 := mkPageInfo None 0; 6 := mkPageInfo None 2 ]}
       (machine 8 (KERNBASE + 0x8000))).

Lemma two_free_ok : free_list_ok two_free [3; 5].
Proof.
  split; try done.
  - intros a Ha. inversion Ha; subst. by left.
  - apply (bool_decide_unpack _). by vm_compute.
  - intros p Hp. assert (p = 3 \/ p = 5) as [-> | ->] by lset; done.
Qed.

(** C1: [page_alloc] refines popping the stack of free pages: on an empty list
    it returns NULL and changes nothing; otherwise it returns the top page with
    its link cleared, the list represents the rest, the page is zeroed when the
    flags ask for it (or are 0), and no other page, link or count changes. *)
Theorem page_alloc_refines flags s l :
  npages_ok s -> free_list_ok s l ->
  match l with
  | [] => page_alloc flags s = Ret None s
  | p :: l' =>
      exists s', page_alloc flags s = Ret (Some p) s' /\ free_list_ok s' l' /\
        link_of s' p = None /\ ref_of s' p = 0 /\
        (flags = 0 \/ Z.land flags ALLOC_ZERO <> 0 -> forall i, entry s' p i = 0) /\
        (forall q, q <> p -> page_at s' q = page_at s q) /\
        (forall q i, q <> p -> entry s' q i = entry s q i) /\
        envs s' = envs s
  end.
Proof.
  intros Hn Hfl. destruct l as [|p l]; [by apply page_alloc_empty|].
  exists (popped flags p (head l) s). split_ands.
  - by apply page_alloc_pop.
  - by apply popped_free_list.
  - unfold link_of. by rewrite popped_page_at, decide_True.
  - unfold ref_of. rewrite popped_page_at, decide_True by done.
    exact (proj2 (fl_pages _ _ Hfl p ltac:(lset))).
  - intros Hz i. rewrite popped_entry, bool_decide_eq_true_2 by done.
    destruct Hz as [-> | Hz]; [done|]. apply nz_true in Hz. by rewrite Hz, orb_true_r.
  - intros q Hq. by rewrite popped_page_at, decide_False.
  - intros q i Hq. by rewrite popped_entry, bool_decide_eq_false_2, andb_false_r.
  - unfold popped. by destruct (_ || _).
Qed.

Lemma page_alloc_refines_witness :
  exists s', page_alloc 0 two_free = Ret (Some 3) s' /\ free_list_ok s' [5] /\
    link_of s' 3 = None /\ ref_of s' 3 = 0 /\
    (0 = 0 \/ Z.land 0 ALLOC_ZERO <> 0 -> forall i, entry s' 3 i = 0) /\
    (forall q, q <> 3 -> page_at s' q = page_at two_free q) /\
    (forall q i, q <> 3 -> entry s' q i = entry two_free q i) /\
    envs s' = envs two_free.
Proof. apply (page_alloc_refines 0 two_free [3; 5]); [done|exact two_free_ok]. Defined.

(** C2: [page_free] refines pushing on the stack of free pages: a page that is
    off the list, unreferenced and unlinked becomes its top, and nothing else
    changes; a page with references or with a link makes it panic. *)
Theorem page_free_refines s l p :
  free_list_ok s l -> 0 <= p < npages s ->
  (link_of s p = None -> ref_of s p = 0 -> p ∉ l ->
     exists s', page_free (Some p) s = Ret tt s' /\ free_list_ok s' (p :: l) /\
       mem s' = mem s /\ (forall q, ref_of s' q = ref_of s q) /\
       (forall q, q <> p -> page_at s' q = page_at s q)) /\
  (link_of s p <> None \/ ref_of s p <> 0 -> exists m, page_free (Some p) s = Panic m s).
Proof.
  intros Hfl Hp. split.
  - intros Hl Hr Hnin. exists (pushed p s). split_ands.
    + by apply page_free_push.
    + by apply pushed_free_list.
    + done.
    + apply pushed_ref.
    + intros q Hq. by apply pushed_page_at.
  - intros Hbad. unfold page_free. msteps. fold (link_of s p) (ref_of s p).
    assert (bool_decide (link_of s p <> None) || nz (ref_of s p) = true) as ->; [|eexists; done].
    destruct Hbad as [H|H]; apply orb_true_iff; [left|right].
    + by apply bool_decide_eq_true_2.
    + by apply nz_true.
Qed.

Lemma page_free_refines_witness :
  (link_of two_free 4 = None -> ref_of two_free 4 = 0 -> 4 ∉ [3; 5] ->
     exists s', page_free (Some 4) two_free = Ret tt s' /\ free_list_ok s' [4; 3; 5] /\
       mem s' = mem two_free /\ (forall q, ref_of s' q = ref_of two_free q) /\
       (forall q, q <> 4 -> page_at s' q = page_at two_free q)) /\
  (link_of two_free 4 <> None \/ ref_of two_free 4 <> 0 -> exists m, page_free (Some 4) two_free = Panic m two_free).
Proof. apply (page_free_refines two_free [3; 5] 4); [exact two_free_ok|done]. Defined.

(** [page_decref] on a page with more than one reference only decrements
    the count; on the last reference it puts the page on top of the free list;
    on a count of 0 it wraps to 65535 and frees nothing. *)
Lemma page_decref_cases s l p :
  free_list_ok s l -> 0 <= p < npages s -> link_of s p = None -> p ∉ l ->
  0 <= ref_of s p < 2 ^ 16 ->
  exists s', page_decref p s = Ret tt s' /\
    ref_of s' p = (ref_of s p - 1) mod 2 ^ 16 /\
    free_list_ok s' (if ref_of s p =? 1 then p :: l else l) /\
    mem s' = mem s /\ envs s' = envs s /\
    (forall q, q <> p -> page_at s' q = page_at s q).
Proof.
  intros Hfl Hp Hl Hnin Href. unfold page_decref. msteps.
  set (s1 := set_pages _ s).
  assert (forall q, q <> p -> page_at s1 q = page_at s q) as Hs1.
  { intros q Hq. subst s1. by rewrite page_at_upd, decide_False. }
  assert (page_at s1 p = set_pp_ref (u16 (ref_of s p - 1)) (page_at s p)) as Hs1p.
  { subst s1. by rewrite page_at_upd, decide_True. }
  assert (free_list_ok s1 l) as Hfl1.
  { eapply free_list_ok_ext; [..|exact Hfl]; [done|done|]. intros q Hq. apply Hs1. by intros ->. }
  rewrite Hs1p. cbn [pp_ref set_pp_ref]. unfold u16.
  destruct (Z.eqb_spec (ref_of s p) 1) as [H1|H1].
  - rewrite H1. change ((1 - 1) mod 2 ^ 16 =? 0) with true. cbv iota.
    assert (ref_of s1 p = 0) as Hr1 by (unfold ref_of; rewrite Hs1p, H1; done).
    assert (link_of s1 p = None) as Hl1 by (unfold link_of; by rewrite Hs1p).
    exists (pushed p s1). split_ands.
    + by apply page_free_push.
    + by rewrite pushed_ref.
    + by apply pushed_free_list.
    + done.
    + done.
    + intros q Hq. rewrite pushed_page_at by done. by apply Hs1.
  - destruct (Z.eqb_spec ((ref_of s p - 1) mod 2 ^ 16) 0) as [Hz|Hz].
    + exfalso. destruct (decide (ref_of s p = 0)) as [H0|H0]; [by rewrite H0 in Hz|].
      rewrite Z.mod_small in Hz; lia.
    + exists s1. split_ands; try done. unfold ref_of at 1. by rewrite Hs1p.
Qed.

Lemma page_decref_cases_witness :
  exists s', page_decref 6 two_free = Ret tt s' /\
    ref_of s' 6 = (ref_of two_free 6 - 1) mod 2 ^ 16 /\
    free_list_ok s' (if ref_of two_free 6 =? 1 then [6; 3; 5] else [3; 5]) /\
    mem s' = mem two_free /\ envs s' = envs two_free /\
    (forall q, q <> 6 -> page_at s' q = page_at two_free q).
Proof. apply (page_decref_cases two_free [3; 5] 6); [exact two_free_ok|done|done|lset|done]. Defined.

(** The pages reachable through the links of a list stay inside a closed set. *)
Lemma linked_closed s (l l' : list Z) :
  (forall x y, x ∈ l -> link_of s x = Some y -> y ∈ l) ->
  linked s l' -> (forall h, head l' = Some h -> h ∈ l) -> forall x, x ∈ l' -> x ∈ l.
Proof.
  intros Hcl. induction l' as [|a l' IH]; intros Hlk Hh x Hx; [lset|].
  assert (a ∈ l) as Ha by (by apply Hh).
  apply elem_of_cons in Hx as [->|Hx]; [done|]. apply IH; [by destruct Hlk| |done].
  intros h Hhd. destruct Hlk as [Hab _]. destruct l' as [|b l']; [done|].
  inversion Hhd; subst. by apply (Hcl a).
Qed.

(** The double-free check of [page_free] has a hole: freeing the last page
    of the list again, when its link is null as [page_init] leaves it, is not
    detected, and the list it leaves is cyclic: it represents no stack of free
    pages at all. *)
Lemma page_free_tail_undetected s l h p :
  free_list_ok s (h :: l ++ [p]) -> link_of s p = None ->
  exists s', page_free (Some p) s = Ret tt s' /\ forall l', ~ free_list_ok s' l'.
Proof.
  intros Hfl Hlp. pose proof Hfl as [H1 H2 H3 H4 H5].
  assert (ref_of s p = 0) as Hr by (apply H5; lset).
  exists (pushed p s). split; [by apply page_free_push|].
  assert (h <> p) as Hhp by (apply NoDup_cons in H4 as [H4 _]; lset).
  assert (link_of (pushed p s) p = Some h) as Hph.
  { unfold link_of, pushed. rewrite (page_at_upd (set_page_free_list (Some p) s)).
    by rewrite decide_True, H1. }
  assert (forall x, x ∈ h :: l -> exists y, link_of (pushed p s) x = Some y /\ y <> x /\ y ∈ h :: l ++ [p]) as Hmid.
  { change (h :: l ++ [p]) with ((h :: l) ++ [p]) in *.
    clear Hfl H1 H3 H5 Hph. intros x Hx. apply list_elem_of_split in Hx as (l1 & l2 & Hl).
    rewrite Hl in *.
    assert (x <> p) as Hxp.
    { intros ->. rewrite <- app_assoc in H4. apply NoDup_app in H4 as (_ & _ & H4).
      apply NoDup_cons in H4 as [H4 _]. lset. }
    assert (exists y l3, l2 ++ [p] = y :: l3) as (y & l3 & Hy) by (destruct l2; cbn; eauto).
    rewrite <- app_assoc in *. cbn in *. rewrite Hy in *. exists y.
    unfold link_of. rewrite pushed_page_at by done. fold (link_of s x).
    assert (linked s (x :: y :: l3)) as Hlk.
    { clear -H2. induction l1; [done|]. apply IHl1. by destruct H2. }
    split_ands; [by destruct Hlk| |lset].
    apply NoDup_app in H4 as (_ & _ & H4). apply NoDup_cons in H4 as [H4 _]. lset. }
  intros l' [L1 L2 L3 L4 L5].
  assert (forall x, x ∈ h :: l ++ [p] -> exists y, link_of (pushed p s) x = Some y /\ y <> x /\ y ∈ h :: l ++ [p]) as Hall.
  { intros x Hx. destruct (decide (x = p)) as [->|Hxp].
    - exists h. split_ands; [done|done|lset].
    - apply Hmid. lset. }
  assert (forall x, x ∈ l' -> x ∈ h :: l ++ [p]) as Hsub.
  { apply (linked_closed (pushed p s)); [|exact L2|].
    - intros x y Hx Hxy. destruct (Hall x Hx) as (z & Hz & _ & Hin). congruence.
    - intros x Hx. rewrite <- L1 in Hx. cbn in Hx. inversion Hx; subst. lset. }
  destruct (last l') as [z|] eqn:Hz.
  - destruct (Hall z) as (y & Hy & Hne & _); [by apply Hsub, last_Some_elem_of|].
    destruct (L3 z eq_refl) as [E|E]; congruence.
  - apply last_None in Hz. by subst.
Qed.

Lemma page_free_tail_undetected_witness :
  exists s', page_free (Some 5) two_free = Ret tt s' /\ forall l', ~ free_list_ok s' l'.
Proof. apply (page_free_tail_undetected two_free [] 3 5); [exact two_free_ok|done]. Defined.
