(* ===== verification/PageTable.v ===== *)
(** Page-table management of kern/pmap.c: the four-level walk, mapping and
    unmapping of pages, static kernel mappings, memory-mapped I/O regions and
    the check of user pointers. *)

From S2P Require Import Prelude Kernel PageAlloc.

(** ** The code

    A table is named by its kernel virtual address and the walks return the
    address of an entry, or [None] for NULL. *)

Definition pgdir_walk (pgdir va : Z) (create : bool) : K (option Z) :=
  let level2 := index8 pgdir (PDX va) in
  let! e := load64 level2 in
  let! ok :=
    (if e =? 0 then
       if create then
         let! r := page_alloc 0 in
         match r with
         | None => ret false
         | Some pp =>
             do! upd_page pp (fun p => set_pp_ref (u16 (pp_ref p + 1)) p) ;;
             do! store64 level2 (page2pa pp) ;;
             let! e1 := load64 level2 in
             do! store64 level2 (Z.lor e1 PTE_USER) ;;
             let! k := page2kva pp in
             do! memset_page k ;;
             ret true
         end
       else ret false
     else ret true) in
  if ok : bool then
    let! e2 := load64 level2 in
    let! level1 := KADDR (PTE_ADDR e2) in
    ret (Some (index8 level1 (PTX va)))
  else ret None.

Definition pdpe_walk (pdpe va : Z) (create : bool) : K (option Z) :=
  let level3 := index8 pdpe (PDPE va) in
  let! e := load64 level3 in
  if e =? 0 then
    if create then
      let! r := page_alloc 0 in
      match r with
      | None => ret None
      | Some pp =>
          do! upd_page pp (fun p => set_pp_ref (u16 (pp_ref p + 1)) p) ;;
          let! level2 := page2kva pp in
          let! pa := PADDR level2 in
          do! store64 level3 pa ;;
          let! e1 := load64 level3 in
          do! store64 level3 (Z.lor e1 PTE_USER) ;;
          do! memset_page level2 ;;
          let! level1 := pgdir_walk level2 va create in
          match level1 with
          | None =>
              do! page_decref pp ;;
              do! store64 level3 0 ;;
              ret None
          | Some _ => ret level1
          end
      end
    else ret None
  else
    let! level2 := KADDR (PTE_ADDR e) in
    pgdir_walk level2 va create.

Definition pml4e_walk (pml4e va : Z) (create : bool) : K (option Z) :=
  if pml4e =? 0 then panic "'page_free_list' is a null pointer!"
  else
    let level4 := index8 pml4e (PML4 va) in
    let! e := load64 level4 in
    if e =? 0 then
      if create then
        let! r := page_alloc 0 in
        match r with
        | None => ret None
        | Some pp =>
            do! upd_page pp (fun p => set_pp_ref (u16 (pp_ref p + 1)) p) ;;
            let! level3 := page2kva pp in
            let! pa := PADDR level3 in
            do! store64 level4 pa ;;
            let! e1 := load64 level4 in
            do! store64 level4 (Z.lor e1 PTE_USER) ;;
            do! memset_page level3 ;;
            let! level1 := pdpe_walk level3 va create in
            match level1 with
            | None =>
                do! page_decref pp ;;
                do! store64 level4 0 ;;
                ret None
            | Some _ => ret level1
            end
        end
      else ret None
    else
      let! level3 := KADDR (PTE_ADDR e) in
      pdpe_walk level3 va create.

(** Round [k] of the loop has [i = k * PGSIZE]. *)
Definition boot_map_region (pml4e la size pa perm : Z) : K unit :=
  forM (seqZ 0 ((size + PGSIZE - 1) / PGSIZE)) (fun k =>
    let i := k * PGSIZE in
    let! ventry := pml4e_walk pml4e (u64 (la + i)) true in
    match ventry with
    | Some v =>
        do! store64 v (PTE_ADDR (u64 (pa + i))) ;;
        let! e := load64 v in
        store64 v (Z.lor e (Z.lor perm PTE_P))
    | None => ret tt
    end).

Definition invlpg (va : Z) : K unit := modify (fun s => set_tlb (va :: tlb s) s).

Definition tlb_invalidate (pml4e va : Z) : K unit :=
  do! assertM (nz pml4e) ;;
  let! cur := gets curenv in
  match cur with
  | None => invlpg va
  | Some e =>
      let! p := gets (fun s => env_pml4e (env_at s e)) in
      if p =? pml4e then invlpg va else ret tt
  end.

(** The page and the address of its entry ([*pte_store]). *)
Definition page_lookup (pml4e va : Z) : K (option (Z * Z)) :=
  let! level1 := pml4e_walk pml4e va false in
  match level1 with
  | Some pte =>
      let! e := load64 pte in
      let! pp := pa2page (PTE_ADDR e) in
      ret (Some (pp, pte))
  | None => ret None
  end.

Definition page_remove (pml4e va : Z) : K unit :=
  let! r := page_lookup pml4e va in
  match r with
  | Some (pp, ptentry) =>
      do! page_decref pp ;;
      do! store64 ptentry 0 ;;
      tlb_invalidate pml4e va
  | None => ret tt
  end.

Definition page_insert (pml4e pp va perm : Z) : K Z :=
  let! r := pml4e_walk pml4e va true in
  match r with
  | Some page_entry =>
      let! e := load64 page_entry in
      if PTE_ADDR e =? page2pa pp then
        do! store64 page_entry (Z.lor (Z.lor (PTE_ADDR e) perm) PTE_P) ;;
        do! tlb_invalidate pml4e va ;;
        ret 0
      else
        do! (if nz e then
               do! page_remove pml4e va ;;
               tlb_invalidate pml4e va
             else ret tt) ;;
        do! store64 page_entry (page2pa pp) ;;
        let! e1 := load64 page_entry in
        do! store64 page_entry (Z.lor e1 (Z.lor perm PTE_P)) ;;
        do! upd_page pp (fun p => set_pp_ref (u16 (pp_ref p + 1)) p) ;;
        ret 0
  | None => ret (- E_NO_MEM)
  end.

Definition mmio_map_region (pa size : Z) : K Z :=
  let newsize := ROUNDUP size PGSIZE in
  let! base := gets mmio_base in
  if MMIOLIM <=? u64 (base + newsize) then panic "mmio_map_region out of range"
  else
    let! boot := gets boot_pml4e in
    do! boot_map_region boot base newsize pa
          (Z.lor (Z.lor (Z.lor PTE_PCD PTE_PWT) PTE_W) PTE_P) ;;
    do! modify (set_mmio_base (u64 (base + newsize))) ;;
    ret base.

(** The loop runs while [start < end], that is [(end - start) / PGSIZE]
    rounds; the fuel is one more. *)
Definition user_mem_check (env va len perm : Z) : K Z :=
  let perm := Z.lor perm PTE_P in
  let start := ROUNDDOWN va PGSIZE in
  let end_ := ROUNDUP (u64 (va + len)) PGSIZE in
  loop (S (Z.to_nat ((end_ - start) / PGSIZE))) (fun start =>
    if start <? end_ then
      let! pml4e := gets (fun s => env_pml4e (env_at s env)) in
      let! r := page_lookup pml4e start in
      let fault :=
        do! modify (set_user_mem_check_addr va) ;;
        do! modify (set_user_mem_check_addr (if start <? va then va else start)) ;;
        ret (inr (- E_FAULT)) in
      match r with
      | None => fault
      | Some (_, page) =>
          let! e := load64 page in
          if negb (Z.land e perm =? perm) || (ULIM <=? start) then fault
          else ret (inl (u64 (start + PGSIZE)))
      end
    else ret (inr 0)) start.
