(* ===== verification/PageTableInv.v ===== *)
(** The invariant of the page tables of kern/pmap.c and its preservation by
    the walks that allocate tables.

    A ghost map gives, for each physical page used as a table, the address
    space it belongs to (the page of its top-level table) and the indices that
    lead to it.  The invariant makes the tables of an address space a tree: no
    table is shared, none is on the free list, and every reference from the
    user part of an address space is counted in [pp_ref]. *)

From S2P Require Import Prelude Kernel PageAlloc PageTable.

(** ** Reading a table tree

    [pt_read s t js] follows the indices [js] from table [t], as the processor
    does; an absent table reads as an absent entry. *)
Fixpoint pt_read (s : kstate) (t : Z) (js : list Z) : Z :=
  match js with
  | [] => 0
  | j :: js' =>
      match js' with
      | [] => entry s t j
      | _ => if entry s t j =? 0 then 0 else pt_read s (PPN (entry s t j)) js'
      end
  end.

Definition va_path (va : Z) : list Z := [PML4 va; PDPE va; PDX va].
Definition va_idx (va : Z) : list Z := [PML4 va; PDPE va; PDX va; PTX va].

(** The entry that maps [va] in the address space with top-level table [r]. *)
Definition pte_of (s : kstate) (r va : Z) : Z := pt_read s r (va_idx va).

Definition idx_ok (js : list Z) : Prop := Forall (fun j => 0 <= j < 512) js.

Lemma va_idx_ok va : idx_ok (va_idx va).
Proof. unfold idx_ok, va_idx. rewrite !Forall_cons. auto 6 with jos. Qed.

(** ** The invariant *)

(** The owner of a table: its top-level table and the path to it. *)
Notation owners := (gmap Z (Z * list Z)).

(** The top-level slots an address space [r] has of its own: slot 0, the user
    part, in every space, and slot 1 in the kernel's own space [k]; every
    other space has a copy of the kernel's slot 1. *)
Definition priv (k r j : Z) : Prop := j = 0 \/ (r = k /\ j = 1).

Definition slot_priv (k r : Z) (path : list Z) (i : Z) : Prop :=
  match path with [] => priv k r i | _ => True end.

(** Slot [i] of the last-level table [t], of the user part of some address
    space, maps page [p]. *)
Definition user_slot (own : owners) (s : kstate) (p : Z) (x : Z * Z) : Prop :=
  0 <= x.2 < 512 /\ (exists r a b, own !! x.1 = Some (r, [0; a; b])) /\
  entry s x.1 x.2 <> 0 /\ PPN (entry s x.1 x.2) = p.

(** The flags of every entry above the last level, [PTE_USER] among others:
    permissions are decided by the last-level entry alone. *)
Definition PTE_PWU : Z := Z.lor (Z.lor PTE_P PTE_W) PTE_U.

Record pt_inv (k : Z) (own : owners) (l : list Z) (s : kstate) : Prop := {
  pi_np : npages_ok s;
  pi_fl : free_list_ok s l;
  pi_link : forall p, p ∉ l -> link_of s p = None;
  pi_ref : forall p, 0 <= ref_of s p < 2 ^ 16;
  pi_tab : forall t r path, own !! t = Some (r, path) ->
    0 <= t < npages s /\ 1 <= ref_of s t /\ (length path <= 3)%nat;
  pi_inj : forall t t' x, own !! t = Some x -> own !! t' = Some x -> t = t';
  pi_root : forall t r, own !! t = Some (r, []) -> t = r;
  pi_child : forall t r path i, own !! t = Some (r, path) -> (length path < 3)%nat ->
    0 <= i < 512 -> slot_priv k r path i -> entry s t i <> 0 ->
    own !! PPN (entry s t i) = Some (r, path ++ [i]);
  pi_parent : forall t r path i, own !! t = Some (r, path ++ [i]) ->
    slot_priv k r path i /\
    exists t', own !! t' = Some (r, path) /\ entry s t' i <> 0 /\ PPN (entry s t' i) = t;
  pi_leaf : forall t r a b i, own !! t = Some (r, [0; a; b]) -> 0 <= i < 512 ->
    entry s t i <> 0 -> 0 <= PPN (entry s t i) < npages s /\ own !! PPN (entry s t i) = None;
  pi_refs : forall p L, NoDup L -> Forall (user_slot own s p) L ->
    Z.of_nat (length L) <= ref_of s p;
  pi_flags : forall t r path i, own !! t = Some (r, path) -> (length path < 3)%nat ->
    0 <= i < 512 -> slot_priv k r path i -> entry s t i <> 0 ->
    Z.land (entry s t i) PTE_PWU = PTE_PWU;
}.

(** ** What a walk may change *)

(** Only memory management data changes. *)
Definition mm_only (s s' : kstate) : Prop :=
  s' = set_tlb (tlb s') (set_pages (pages s') (set_page_free_list (page_free_list s') (set_mem (mem s') s))).

(** Pages off the free list keep their counts and, unless they are tables of
    the address space [r] that is walked, their contents; entries that are
    present stay. *)
Record walk_frame (own : owners) (r : Z) (l : list Z) (s s' : kstate) : Prop := {
  wf_mm : mm_only s s';
  wf_tlb : tlb s' = tlb s;
  wf_page : forall q, q ∉ l -> page_at s' q = page_at s q;
  wf_mem : forall q i, q ∉ l -> (forall path, own !! q <> Some (r, path)) -> entry s' q i = entry s q i;
  wf_keep : forall q i x, own !! q = Some x -> entry s q i <> 0 -> entry s' q i = entry s q i;
}.

(** The entries every address space has of its own are the same. *)
Definition reads_same (k : Z) (own : owners) (s s' : kstate) : Prop :=
  forall t r path js, own !! t = Some (r, path) -> idx_ok js ->
    (length path + length js = 4)%nat ->
    (forall j js', js = j :: js' -> slot_priv k r path j) ->
    pt_read s' t js = pt_read s t js.

Definition same_tables (own : owners) (s s' : kstate) : Prop :=
  forall t i, is_Some (own !! t) -> entry s' t i = entry s t i.

Lemma mm_only_refl s : mm_only s s.
Proof. unfold mm_only. by destruct s. Qed.

Lemma mm_only_trans s1 s2 s3 : mm_only s1 s2 -> mm_only s2 s3 -> mm_only s1 s3.
Proof. unfold mm_only. intros -> ->. by destruct s1. Qed.

Lemma mm_only_envs s s' : mm_only s s' -> envs s' = envs s.
Proof. by intros ->. Qed.

Lemma mm_only_npages s s' : mm_only s s' -> npages s' = npages s.
Proof. by intros ->. Qed.

Lemma mm_only_curenv s s' : mm_only s s' -> curenv s' = curenv s.
Proof. by intros ->. Qed.

Lemma walk_frame_refl own r l s : walk_frame own r l s s.
Proof. split; try done. apply mm_only_refl. Qed.

(** Two stages of a walk: the second works with more tables and fewer free
    pages. *)
Lemma walk_frame_trans own own' r l l' s1 s2 s3 :
  (forall q, q ∈ l' -> q ∈ l) -> own ⊆ own' -> (forall q, q ∉ l -> own' !! q = own !! q) ->
  walk_frame own r l s1 s2 -> walk_frame own' r l' s2 s3 -> walk_frame own r l s1 s3.
Proof.
  intros Hl Hsub Hown [A1 A2 A3 A4 A5] [B1 B2 B3 B4 B5]. split.
  - by eapply mm_only_trans.
  - congruence.
  - intros q Hq. rewrite B3; auto.
  - intros q i Hq Ho. rewrite B4; [auto|auto|]. by rewrite Hown.
  - intros q i x Hq Hne. rewrite (B5 q i x); [by eapply A5|by eapply lookup_weaken|]. by rewrite (A5 q i x).
Qed.

(** ** Consequences of the invariant *)

Section Inv.
Context (k : Z) (own : owners) (l : list Z) (s : kstate) (I : pt_inv k own l s).

Lemma inv_free_ref p : p ∈ l -> ref_of s p = 0.
Proof using I. intros Hp. by apply (fl_pages _ _ (pi_fl _ _ _ _ I)). Qed.

Lemma inv_free_range p : p ∈ l -> 0 <= p < npages s.
Proof using I. intros Hp. by apply (fl_pages _ _ (pi_fl _ _ _ _ I)). Qed.

Lemma inv_owned_not_free t x : own !! t = Some x -> t ∉ l.
Proof using I.
  intros Ht Hin. destruct x as [r path]. apply (pi_tab _ _ _ _ I) in Ht as (_ & H & _).
  rewrite inv_free_ref in H by done. lia.
Qed.

Lemma inv_free_not_owned t : t ∈ l -> own !! t = None.
Proof using I.
  intros Hin. destruct (own !! t) as [x|] eqn:E; [|done]. by apply inv_owned_not_free in E.
Qed.

Lemma inv_mapped_ref p t r a b i :
  own !! t = Some (r, [0; a; b]) -> 0 <= i < 512 -> entry s t i <> 0 -> PPN (entry s t i) = p ->
  1 <= ref_of s p.
Proof using I.
  intros Ht Hi He Hp. change 1 with (Z.of_nat (length [(t, i)])).
  apply (pi_refs _ _ _ _ I p).
  - apply NoDup_singleton.
  - constructor; [|done]. split; [done|]. split; [by exists r, a, b|done].
Qed.

Lemma inv_child_range t r path i :
  own !! t = Some (r, path) -> (length path < 3)%nat -> 0 <= i < 512 -> slot_priv k r path i ->
  entry s t i <> 0 -> 0 <= PPN (entry s t i) < npages s.
Proof using I.
  intros Ht Hl Hi Hp He. pose proof (pi_child _ _ _ _ I _ _ _ _ Ht Hl Hi Hp He) as Hc.
  exact (proj1 (pi_tab _ _ _ _ I _ _ _ Hc)).
Qed.
End Inv.

(** The tables of a space hang off its top-level table. *)
Lemma inv_own_root k own l s t r path :
  pt_inv k own l s -> own !! t = Some (r, path) -> own !! r = Some (r, []).
Proof.
  intros I. revert t. induction path as [|i path IH] using rev_ind; intros t Ht.
  - by rewrite <- (pi_root _ _ _ _ I _ _ Ht) at 1.
  - apply (pi_parent _ _ _ _ I) in Ht as (_ & t' & Ht' & _). by eapply IH.
Qed.

(** A page in use whose own slots are empty starts a new address space. *)
Lemma new_space_inv k own l s p :
  pt_inv k own l s -> own !! p = None -> p ∉ l -> 0 <= p < npages s -> 1 <= ref_of s p ->
  (forall j, priv k p j -> entry s p j = 0) -> (forall x, ~ user_slot own s p x) ->
  pt_inv k (<[p := (p, [])]> own) l s.
Proof.
  intros I Hfresh Hpl Hp Hr Hz Hnone. pose proof I as [I1 I2 I3 I4 I5 I6 I7 I8 I9 I10 I11 I12].
  assert (forall t path, own !! t = Some (p, path) -> False) as Hno.
  { intros t path Ht. apply (inv_own_root _ _ _ _ _ _ _ I) in Ht. congruence. }
  split; try done.
  - intros t r path Ht. apply lookup_insert_Some in Ht as [[<- H]|[_ Ht]]; [|by eapply I5].
    inversion H; subst. cbn. split_ands; lia.
  - intros t t' x H1 H2. apply lookup_insert_Some in H1 as [[<- <-]|[_ H1]];
      apply lookup_insert_Some in H2 as [[<- H2]|[_ H2]]; try done.
    + by apply Hno in H2.
    + subst. by apply Hno in H1.
    + by eapply I6.
  - intros t r Ht. apply lookup_insert_Some in Ht as [[<- H]|[_ Ht]]; [by inversion H|by apply I7].
  - intros t r path i Ht Hl Hi Hs He. apply lookup_insert_Some in Ht as [[<- H]|[Hn Ht]].
    + inversion H; subst. by rewrite Hz in He.
    + pose proof (I8 _ _ _ _ Ht Hl Hi Hs He) as Hc. rewrite lookup_insert_ne; [done|].
      intros Heq. rewrite <- Heq in Hc. congruence.
  - intros t r path i Ht. apply lookup_insert_Some in Ht as [[<- H]|[Hn Ht]].
    + inversion H as [[H1 H2]]. by destruct path.
    + destruct (I9 _ _ _ _ Ht) as (Hs & t' & Ht' & H). split; [done|]. exists t'.
      rewrite lookup_insert_ne by congruence. done.
  - intros t r a b i Ht Hi He. apply lookup_insert_Some in Ht as [[<- H]|[Hn Ht]]; [done|].
    destruct (I10 _ _ _ _ _ Ht Hi He) as [H1 H2]. split; [done|]. rewrite lookup_insert_ne; [done|].
    intros Heq. apply (Hnone (t, i)). split; [done|]. split; [by exists r, a, b|]. by split.
  - intros q L Hnd HL. apply I11; [done|]. eapply Forall_impl; [exact HL|].
    intros x (H1 & (r & a & b & H2) & H3). apply lookup_insert_Some in H2 as [[_ H]|[_ H2]]; [done|].
    split; [done|]. split; [by exists r, a, b|done].
  - intros t r path i Ht Hl Hi Hs He. apply lookup_insert_Some in Ht as [[<- H]|[Hn Ht]]; [|by eapply I12].
    inversion H; subst. by rewrite Hz in He.
Qed.

(** The invariant speaks of memory management data only. *)
Lemma pt_inv_same k own l s s' :
  npages s' = npages s -> page_free_list s' = page_free_list s -> pages s' = pages s -> mem s' = mem s ->
  pt_inv k own l s -> pt_inv k own l s'.
Proof.
  intros H1 H2 H3 H4 [I1 I2 I3 I4 I5 I6 I7 I8 I9 I10 I11 I12]. destruct s, s'. cbn in H1, H2, H3, H4. subst.
  split; [exact I1| |exact I3|exact I4|exact I5|exact I6|exact I7|exact I8|exact I9|exact I10|exact I11|exact I12].
  by eapply free_list_ok_ext; [..|exact I2].
Qed.

(** ... and of the contents of tables only. *)
Lemma pt_inv_data k own l s s' :
  npages s' = npages s -> page_free_list s' = page_free_list s -> pages s' = pages s -> same_tables own s s' ->
  pt_inv k own l s -> pt_inv k own l s'.
Proof.
  intros H1 H2 H3 Hst [I1 I2 I3 I4 I5 I6 I7 I8 I9 I10 I11 I12].
  assert (forall q, page_at s' q = page_at s q) as Hpg by (intros q; unfold page_at; by rewrite H3).
  assert (forall q, ref_of s' q = ref_of s q) as Hr by (intros q; unfold ref_of; by rewrite Hpg).
  split; try done.
  - unfold npages_ok. by rewrite H1.
  - by apply (free_list_ok_ext s).
  - intros q Hq. unfold link_of. rewrite Hpg. by apply I3.
  - intros q. rewrite Hr. apply I4.
  - intros t r path Ht. rewrite H1, Hr. by eapply I5.
  - intros t r path i Ht. rewrite Hst by eauto. by apply I8.
  - intros t r path i Ht. destruct (I9 _ _ _ _ Ht) as (Hs & t' & Ht' & H). split; [done|]. exists t'.
    rewrite Hst by eauto. done.
  - intros t r a b i Ht. rewrite Hst, H1 by eauto. by apply (I10 _ _ _ _ _ Ht).
  - intros q L Hnd HL. rewrite Hr. apply I11; [done|]. eapply Forall_impl; [exact HL|].
    intros x (X1 & (r & a & b & X2) & X3). rewrite Hst in X3 by eauto. split; [done|]. split; [by exists r, a, b|done].
  - intros t r path i Ht. rewrite Hst by eauto. by apply I12.
Qed.

(** Taking a page off the free list for use outside the tables. *)
Lemma pt_inv_take k own l s s' p :
  pt_inv k own (p :: l) s -> npages s' = npages s -> free_list_ok s' l ->
  (forall q, q <> p -> page_at s' q = page_at s q) -> link_of s' p = None -> 0 <= ref_of s' p < 2 ^ 16 ->
  same_tables own s s' -> pt_inv k own l s'.
Proof.
  intros I Hn Hfl Hpg Hl Hr Hst.
  assert (own !! p = None) as Hfresh by (eapply inv_free_not_owned; [exact I|lset]).
  assert (ref_of s p = 0) as Hr0 by (eapply inv_free_ref; [exact I|lset]).
  assert (forall q, q <> p -> ref_of s' q = ref_of s q) as Href by (intros q Hq; unfold ref_of; by rewrite Hpg).
  pose proof I as [I1 I2 I3 I4 I5 I6 I7 I8 I9 I10 I11 I12]. split; try done.
  - unfold npages_ok. by rewrite Hn.
  - intros q Hq. destruct (decide (q = p)) as [->|Hqp]; [done|]. unfold link_of. rewrite Hpg by done.
    apply I3. lset.
  - intros q. destruct (decide (q = p)) as [->|Hqp]; [done|]. rewrite Href by done. apply I4.
  - intros t r path Ht. rewrite Hn, Href by congruence. by eapply I5.
  - intros t r path i Ht. rewrite Hst by eauto. by apply I8.
  - intros t r path i Ht. destruct (I9 _ _ _ _ Ht) as (Hs & t' & Ht' & H). split; [done|]. exists t'.
    rewrite Hst by eauto. done.
  - intros t r a b i Ht. rewrite Hst, Hn by eauto. by apply (I10 _ _ _ _ _ Ht).
  - intros q L Hnd HL.
    assert (Z.of_nat (length L) <= ref_of s q) as Hle.
    { apply I11; [done|]. eapply Forall_impl; [exact HL|]. intros x (H1 & (r & a & b & H2) & H3).
      rewrite Hst in H3 by eauto. split; [done|]. split; [by exists r, a, b|done]. }
    destruct (decide (q = p)) as [->|Hqp]; [lia|]. by rewrite Href.
  - intros t r path i Ht. rewrite Hst by eauto. by apply I12.
Qed.

(** The state after [page_alloc(0)] took [p]. *)
Lemma popped_inv k own l p s :
  pt_inv k own (p :: l) s -> pt_inv k own l (popped 0 p (head l) s) /\ same_tables own s (popped 0 p (head l) s).
Proof.
  intros I.
  assert (own !! p = None) as Hfresh by (eapply inv_free_not_owned; [exact I|lset]).
  assert (same_tables own s (popped 0 p (head l) s)) as Hst.
  { intros t i [x Ht]. rewrite popped_entry, bool_decide_eq_false_2; [by rewrite andb_false_r|congruence]. }
  split; [|done]. apply (pt_inv_take k own l s _ p I).
  - apply popped_npages.
  - by apply popped_free_list, (pi_fl _ _ _ _ I).
  - intros q Hq. by rewrite popped_page_at, decide_False.
  - unfold link_of. by rewrite popped_page_at, decide_True.
  - unfold ref_of. rewrite popped_page_at, decide_True by done. apply (pi_ref _ _ _ _ I p).
  - done.
Qed.

(** Giving a page with no reference back. *)
Lemma pushed_inv k own l p s :
  pt_inv k own l s -> 0 <= p < npages s -> ref_of s p = 0 -> p ∉ l -> pt_inv k own (p :: l) (pushed p s).
Proof.
  intros I Hp Hr Hpl. pose proof I as [I1 I2 I3 I4 I5 I6 I7 I8 I9 I10 I11 I12].
  split; [exact I1|by apply pushed_free_list| | | |exact I6|exact I7|exact I8|exact I9|exact I10| |exact I12].
  - intros q [Hqp Hql]%not_elem_of_cons. unfold link_of. rewrite pushed_page_at by done. by apply I3.
  - intros q. rewrite pushed_ref. apply I4.
  - intros t r path Ht. rewrite pushed_ref. by eapply I5.
  - intros q L Hnd HL. rewrite pushed_ref. by apply I11.
Qed.

(** A page that was free is mapped nowhere. *)
Lemma inv_free_unmapped k own l s p x : pt_inv k own l s -> p ∈ l -> ~ user_slot own s p x.
Proof.
  intros I Hp Hx. pose proof (inv_free_ref _ _ _ _ I p Hp) as H0.
  pose proof (pi_refs _ _ _ _ I p [x] (NoDup_singleton x) (List.Forall_cons _ _ _ Hx (List.Forall_nil _))) as H1.
  cbn in H1. lia.
Qed.

(** Reads depend only on the tables of the space they start in. *)
Lemma same_tables_reads k own l s s' :
  pt_inv k own l s -> same_tables own s s' -> reads_same k own s s'.
Proof.
  intros I Hs t r path js. revert t path. induction js as [|j js IH]; intros t path Ht Hok Hlen Hp; [done|].
  cbn [pt_read]. rewrite Hs by eauto. destruct js as [|j' js]; [done|].
  destruct (Z.eqb_spec (entry s t j) 0) as [|Hne]; [done|].
  apply Forall_cons in Hok as [Hj Hok].
  apply (IH _ (path ++ [j])).
  - apply (pi_child _ _ _ _ I); try done; [cbn in Hlen; lia|by eapply Hp].
  - done.
  - rewrite length_app. cbn in *. lia.
  - intros j1 js1 _. by destruct path.
Qed.

(** ** Adding a table

    The state after a walk has taken page [p] off the free list and linked it,
    cleared, into slot [i] of table [t]. *)
Definition grown (p t i : Z) (h : option Z) (s : kstate) : kstate :=
  let s1 := popped 0 p h s in
  let s2 := set_pages (<[p := set_pp_ref (u16 (pp_ref (page_at s1 p) + 1)) (page_at s1 p)]> (pages s1)) s1 in
  zero_page p (set_entry t i (Z.lor (p * PGSIZE) PTE_USER) (set_entry t i (p * PGSIZE) s2)).

Lemma grown_mm p t i h s : mm_only s (grown p t i h s).
Proof. unfold mm_only. by destruct s. Qed.

Lemma grown_npages p t i h s : npages (grown p t i h s) = npages s.
Proof. done. Qed.

Lemma grown_page_at p t i h s q :
  page_at (grown p t i h s) q =
  if decide (p = q) then mkPageInfo None (u16 (ref_of s p + 1)) else page_at s q.
Proof.
  unfold grown. set (s1 := popped 0 p h s).
  change (page_at (set_pages (<[p := set_pp_ref (u16 (pp_ref (page_at s1 p) + 1)) (page_at s1 p)]> (pages s1)) s1) q
    = if decide (p = q) then mkPageInfo None (u16 (ref_of s p + 1)) else page_at s q).
  rewrite page_at_upd. subst s1. case_decide.
  - by rewrite popped_page_at, decide_True.
  - by rewrite popped_page_at, decide_False.
Qed.

Lemma grown_entry p t i h s q j :
  entry (grown p t i h s) q j =
  if decide (p = q) then 0
  else if decide (t = q /\ i = j) then p * PGSIZE + PTE_USER else entry s q j.
Proof.
  unfold grown. rewrite entry_zero_page. case_decide as Hpq; [done|].
  rewrite entry_set_entry, lor_flags by done. case_decide as Hti; [done|].
  rewrite entry_set_entry, decide_False by done.
  set (s1 := popped 0 p h s).
  change (entry s1 q j = entry s q j). subst s1.
  by rewrite popped_entry, bool_decide_eq_false_2, andb_false_r.
Qed.

Lemma grown_free_list p t i l s :
  free_list_ok s (p :: l) -> free_list_ok (grown p t i (head l) s) l.
Proof.
  intros Hfl. pose proof (popped_free_list 0 _ _ _ Hfl) as Hpop.
  eapply free_list_ok_ext; [..|exact Hpop]; [done|done|].
  intros q Hq. rewrite grown_page_at, popped_page_at.
  assert (p <> q) as Hpq. { intros ->. by apply (fl_nodup _ _), NoDup_cons in Hfl as [? _]. }
  by rewrite !decide_False.
Qed.

Lemma PPN_table p : PPN (p * PGSIZE + PTE_USER) = p.
Proof. by apply PPN_add. Qed.

Lemma table_entry_nz p : 0 <= p -> p * PGSIZE + PTE_USER <> 0.
Proof. intros H. change PTE_USER with 0xE07. unfold PGSIZE. lia. Qed.

Lemma pt_read_zero s t js : (forall j, entry s t j = 0) -> pt_read s t js = 0.
Proof. intros H. destruct js as [|j js]; [done|]. cbn. rewrite H. by destruct js. Qed.

Section Grow.
Context (k : Z) (own : owners) (l : list Z) (s : kstate) (p t i r : Z) (path : list Z).
Context (I : pt_inv k own (p :: l) s) (Ht : own !! t = Some (r, path)).
Context (Hlen : (length path < 3)%nat) (Hi : 0 <= i < 512) (Hpriv : slot_priv k r path i).
Context (Hz : entry s t i = 0).

Notation s' := (grown p t i (head l) s).
Notation own' := (<[p := (r, path ++ [i])]> own).

Lemma grow_fresh : own !! p = None.
Proof using All. eapply inv_free_not_owned; [exact I|lset]. Qed.

Lemma grow_owned_entry q x j : own !! q = Some x ->
  entry s' q j = if decide (t = q /\ i = j) then p * PGSIZE + PTE_USER else entry s q j.
Proof using All.
  intros Hq. rewrite grown_entry. rewrite decide_False; [done|]. intros Hpq. by rewrite <- Hpq, grow_fresh in Hq.
Qed.

Lemma grow_frame : walk_frame own r (p :: l) s s'.
Proof using All.
  split.
  - apply grown_mm.
  - done.
  - intros q Hq. rewrite grown_page_at, decide_False; [done|lset].
  - intros q j Hq Ho. rewrite grown_entry, !decide_False; [done| |lset].
    intros [-> _]. by apply (Ho path).
  - intros q j x Hq Hne. rewrite (grow_owned_entry _ _ _ Hq), decide_False; [done|]. by intros [<- <-].
Qed.

Lemma grow_reads : reads_same k own s s'.
Proof using All.
  intros u ru pu js. revert u pu. induction js as [|j js IH]; intros u pu Hu Hok Hl Hp; [done|].
  cbn [pt_read]. rewrite (grow_owned_entry _ _ _ Hu).
  apply Forall_cons in Hok as [Hj Hok]. destruct js as [|j' js].
  { rewrite decide_False; [done|]. intros [<- _]. rewrite Ht in Hu. inversion Hu; subst. cbn in Hl. lia. }
  case_decide as Hd.
  - destruct Hd as [<- <-]. rewrite Hz, PPN_table.
    rewrite (pt_read_zero s'); [by case_match|]. intros j1. by rewrite grown_entry, decide_True.
  - destruct (Z.eqb_spec (entry s u j) 0) as [|Hne]; [done|].
    apply (IH _ (pu ++ [j])); [|done| |].
    + apply (pi_child _ _ _ _ I); try done; [cbn in Hl; lia|by eapply Hp].
    + rewrite length_app. cbn in *. lia.
    + intros j1 js1 _. by destruct pu.
Qed.

Lemma grow_ref q : ref_of s' q = if decide (p = q) then 1 else ref_of s q.
Proof using All.
  unfold ref_of at 1. rewrite grown_page_at. case_decide; [|done]. cbn.
  rewrite (inv_free_ref _ _ _ _ I); [done|lset].
Qed.

Lemma grow_user_slot q x : user_slot own' s' q x -> user_slot own s q x.
Proof using All.
  intros (Hx & (r0 & a & b & Hown) & Hne & Hp). destruct x as [t0 i0]; cbn in *.
  rewrite grown_entry in Hne, Hp. case_decide as Hpt; [done|].
  rewrite lookup_insert_ne in Hown by done.
  rewrite decide_False in Hne, Hp; try (intros [<- _]; rewrite Ht in Hown; inversion Hown; subst; cbn in Hlen; lia).
  split; [done|]. split; [by exists r0, a, b|done].
Qed.

Lemma grow_inv : pt_inv k own' l s'.
Proof using All.
  pose proof grow_fresh as Hfresh. pose proof (pi_fl _ _ _ _ I) as Hfl.
  assert (0 <= p < npages s) as Hpr by (eapply inv_free_range; [exact I|lset]).
  split.
  - exact (pi_np _ _ _ _ I).
  - by apply grown_free_list.
  - intros q Hq. unfold link_of. rewrite grown_page_at. case_decide; [done|].
    apply (pi_link _ _ _ _ I). lset.
  - intros q. rewrite grow_ref. case_decide; [done|]. apply (pi_ref _ _ _ _ I).
  - intros t0 r0 p0 H. rewrite grow_ref, grown_npages. case_decide as Hd.
    + subst. rewrite lookup_insert_eq in H. inversion H; subst. split; [done|]. split; [lia|].
      rewrite length_app. cbn. lia.
    + rewrite lookup_insert_ne in H by done. by apply (pi_tab _ _ _ _ I) in H.
  - assert (forall t0, own !! t0 = Some (r, path ++ [i]) -> False) as Hnew.
    { intros t0 H. apply (pi_parent _ _ _ _ I) in H as (_ & t1 & Ht1 & Hne & _).
      rewrite (pi_inj _ _ _ _ I _ _ _ Ht1 Ht) in Hne. done. }
    intros t1 t2 x H1 H2. apply lookup_insert_Some in H1 as [[<- <-]|[H1n H1]];
      apply lookup_insert_Some in H2 as [[<- H2]|[H2n H2]]; try done.
    + by apply Hnew in H2.
    + subst. by apply Hnew in H1.
    + by eapply (pi_inj _ _ _ _ I).
  - intros t0 r0 H. apply lookup_insert_Some in H as [[<- H]|[_ H]].
    + inversion H as [[H1 H2]]. by destruct path.
    + by apply (pi_root _ _ _ _ I) in H.
  - intros t0 r0 p0 i0 H Hl0 Hi0 Hp0 Hne. rewrite grown_entry in *. case_decide as Hd; [done|].
    rewrite lookup_insert_ne in H by done. case_decide as Hd2.
    + destruct Hd2 as [<- <-]. rewrite PPN_table, lookup_insert_eq. congruence.
    + pose proof (pi_child _ _ _ _ I _ _ _ _ H Hl0 Hi0 Hp0 Hne) as Hc.
      rewrite lookup_insert_ne; [done|]. intros Heq. rewrite <- Heq in Hc. congruence.
  - intros t0 r0 p0 i0 H. apply lookup_insert_Some in H as [[<- H]|[Hn H]].
    + inversion H as [[H1 H2]]. apply app_inj_tail in H2 as [-> ->]. subst r0. split; [done|].
      assert (p <> t) by congruence.
      exists t. rewrite lookup_insert_ne by done. rewrite grown_entry, decide_False, decide_True by done.
      split; [done|]. split; [apply table_entry_nz; lia|apply PPN_table].
    + pose proof (pi_parent _ _ _ _ I _ _ _ _ H) as (Hsp & t1 & Ht1 & Hne & Heq). split; [done|].
      exists t1. assert (p <> t1) by congruence. rewrite lookup_insert_ne by done.
      rewrite (grow_owned_entry _ _ _ Ht1). rewrite decide_False; [done|]. intros [<- <-]. done.
  - intros t0 r0 a b i0 H Hi0 Hne. rewrite grown_entry in *. case_decide as Hd; [done|].
    rewrite lookup_insert_ne in H by done. case_decide as Hd2.
    { destruct Hd2 as [<- <-]. rewrite Ht in H. inversion H; subst. cbn in Hlen. lia. }
    pose proof (pi_leaf _ _ _ _ I _ _ _ _ _ H Hi0 Hne) as [Hrg Hno]. split; [done|].
    rewrite lookup_insert_ne; [done|]. intros Heq.
    pose proof (inv_mapped_ref _ _ _ _ I _ _ _ _ _ _ H Hi0 Hne (eq_sym Heq)) as Hr.
    rewrite (inv_free_ref _ _ _ _ I) in Hr; [lia|lset].
  - intros q L Hnd HL.
    assert (Z.of_nat (length L) <= ref_of s q) as Hle.
    { apply (pi_refs _ _ _ _ I); [done|]. eapply Forall_impl; [exact HL|]. intros. by apply grow_user_slot. }
    rewrite grow_ref. case_decide; [subst|done]. rewrite (inv_free_ref _ _ _ _ I) in Hle; [lia|lset].
  - intros t0 r0 p0 i0 H Hl0 Hi0 Hp0 Hne. rewrite grown_entry in *. case_decide as Hd; [done|].
    rewrite lookup_insert_ne in H by done. case_decide as Hd2; [by rewrite land_page|].
    by apply (pi_flags _ _ _ _ I t0 r0 p0).
Qed.
End Grow.

(** ** Releasing the last reference to a page *)

Definition freed (p : Z) (s : kstate) : kstate :=
  pushed p (set_pages (<[p := set_pp_ref 0 (page_at s p)]> (pages s)) s).

Lemma page_decref_last s p :
  ref_of s p = 1 -> link_of s p = None -> page_decref p s = Ret tt (freed p s).
Proof.
  intros Hr Hl. unfold page_decref. msteps. fold (ref_of s p). rewrite Hr.
  change (u16 (1 - 1)) with 0. set (s1 := set_pages _ s).
  assert (page_at s1 p = set_pp_ref 0 (page_at s p)) as H1.
  { subst s1. by rewrite page_at_upd, decide_True. }
  rewrite H1. change (pp_ref (set_pp_ref 0 (page_at s p)) =? 0) with true. cbv iota.
  rewrite page_free_push; [done| |].
  - unfold link_of. by rewrite H1.
  - unfold ref_of. by rewrite H1.
Qed.

Lemma freed_mm p s : mm_only s (freed p s).
Proof. unfold mm_only. by destruct s. Qed.

Lemma freed_ref p s q : ref_of (freed p s) q = if decide (p = q) then 0 else ref_of s q.
Proof.
  unfold freed. rewrite pushed_ref. unfold ref_of. rewrite page_at_upd. by case_decide.
Qed.

Lemma freed_page_at p s q : p <> q -> page_at (freed p s) q = page_at s q.
Proof.
  intros Hpq. unfold freed. rewrite pushed_page_at by done. by rewrite page_at_upd, decide_False.
Qed.

Lemma freed_free_list s l p :
  free_list_ok s l -> 0 <= p < npages s -> p ∉ l -> free_list_ok (freed p s) (p :: l).
Proof.
  intros Hfl Hp Hnin. unfold freed. apply pushed_free_list; [|done| |done].
  - eapply free_list_ok_ext; [..|exact Hfl]; [done|done|].
    intros q Hq. rewrite page_at_upd, decide_False; [done|]. by intros ->.
  - unfold ref_of. by rewrite page_at_upd, decide_True.
Qed.

(** ** Taking an empty table out again *)

Section Shrink.
Context (k : Z) (own : owners) (l : list Z) (s : kstate) (p t i r : Z) (path : list Z).
Context (I : pt_inv k own l s) (Ht : own !! t = Some (r, path)) (Hp : own !! p = Some (r, path ++ [i])).
Context (Hlen : (length path < 3)%nat) (Hpt : p <> t) (Hz : forall j, entry s p j = 0).

Notation s' := (set_entry t i 0 (freed p s)).
Notation own' := (delete p own).

Lemma shrink_entry q j : entry s' q j = if decide (t = q /\ i = j) then 0 else entry s q j.
Proof using All. by rewrite entry_set_entry. Qed.

Lemma shrink_user_slot q x : user_slot own' s' q x -> user_slot own s q x.
Proof using All.
  intros (Hx & (r0 & a & b & Hown) & Hne & Hq). destruct x as [t0 i0]; cbn in *.
  rewrite shrink_entry in Hne, Hq. case_decide; [done|].
  apply lookup_delete_Some in Hown as [_ Hown].
  split; [done|]. split; [by exists r0, a, b|done].
Qed.

Lemma shrink_inv : pt_inv k own' (p :: l) s'.
Proof using All.
  pose proof (pi_tab _ _ _ _ I _ _ _ Hp) as (Hpr & _ & _).
  pose proof (inv_owned_not_free _ _ _ _ I _ _ Hp) as Hpl.
  assert (forall t0 r0 p0 i0, own !! t0 = Some (r0, p0) -> (r0, p0 ++ [i0]) = (r, path ++ [i]) ->
    t0 = t /\ i0 = i) as Hinj.
  { intros t0 r0 p0 i0 H0 Heq. inversion Heq as [[H1 H2]]. apply app_inj_tail in H2 as [-> ->].
    subst r0. split; [by eapply (pi_inj _ _ _ _ I)|done]. }
  split.
  - exact (pi_np _ _ _ _ I).
  - apply (free_list_ok_ext (freed p s)); [done..|].
    apply freed_free_list; try done. apply (pi_fl _ _ _ _ I).
  - intros q Hq. change (link_of (freed p s) q = None). unfold link_of.
    rewrite freed_page_at by lset. apply (pi_link _ _ _ _ I). lset.
  - intros q. change (0 <= ref_of (freed p s) q < 2 ^ 16). rewrite freed_ref.
    case_decide; [done|]. apply (pi_ref _ _ _ _ I).
  - intros t0 r0 p0 H. apply lookup_delete_Some in H as [Hn H].
    change (0 <= t0 < npages s /\ 1 <= ref_of (freed p s) t0 /\ (length p0 <= 3)%nat).
    rewrite freed_ref, decide_False by done. by apply (pi_tab _ _ _ _ I) in H.
  - intros t1 t2 x H1 H2. apply lookup_delete_Some in H1 as [_ H1], H2 as [_ H2].
    by eapply (pi_inj _ _ _ _ I).
  - intros t0 r0 H. apply lookup_delete_Some in H as [_ H]. by apply (pi_root _ _ _ _ I) in H.
  - intros t0 r0 p0 i0 H Hl0 Hi0 Hp0 Hne. rewrite shrink_entry in *. case_decide as Hd; [done|].
    apply lookup_delete_Some in H as [_ H].
    pose proof (pi_child _ _ _ _ I _ _ _ _ H Hl0 Hi0 Hp0 Hne) as Hc.
    apply lookup_delete_Some. split; [|done]. intros Heq. rewrite <- Heq, Hp in Hc.
    inversion Hc as [Hc']. destruct (Hinj _ _ _ i0 H) as [-> ->]; [congruence|]. by apply Hd.
  - intros t0 r0 p0 i0 H. apply lookup_delete_Some in H as [Hn H].
    pose proof (pi_parent _ _ _ _ I _ _ _ _ H) as (Hsp & t1 & Ht1 & Hne & Heq). split; [done|].
    exists t1. assert (t1 <> p) by (intros ->; by rewrite Hz in Hne).
    rewrite lookup_delete_ne by done. rewrite shrink_entry. case_decide as Hd; [|done].
    destruct Hd as [<- <-]. rewrite Ht in Ht1. inversion Ht1; subst r0 p0.
    by destruct (Hn (pi_inj _ _ _ _ I _ _ _ Hp H)).
  - intros t0 r0 a b i0 H Hi0 Hne. rewrite shrink_entry in *. case_decide; [done|].
    apply lookup_delete_Some in H as [_ H].
    pose proof (pi_leaf _ _ _ _ I _ _ _ _ _ H Hi0 Hne) as [Hrg Hno]. split; [done|].
    by apply lookup_delete_None; right.
  - intros q L Hnd HL.
    assert (Z.of_nat (length L) <= ref_of s q) as Hle.
    { apply (pi_refs _ _ _ _ I); [done|]. eapply Forall_impl; [exact HL|]. intros. by apply shrink_user_slot. }
    change (Z.of_nat (length L) <= ref_of (freed p s) q). rewrite freed_ref. case_decide; [|done].
    destruct L as [|[t0 i0] L]; [done|]. exfalso.
    apply Forall_cons in HL as [H0 _]. apply shrink_user_slot in H0 as (Hx & (r0 & a & b & Hown) & Hne & Hq).
    destruct (pi_leaf _ _ _ _ I _ _ _ _ _ Hown Hx Hne) as [_ Hnone]. congruence.
  - intros t0 r0 p0 i0 H Hl0 Hi0 Hp0 Hne. rewrite shrink_entry in *. case_decide as Hd; [done|].
    apply lookup_delete_Some in H as [_ H]. by apply (pi_flags _ _ _ _ I t0 r0 p0).
Qed.
End Shrink.

(** ** The walks

    [pdpe_walk] and [pml4e_walk] are the same step over the walk of the next
    level. *)
Definition walk_level (i : Z) (next : Z -> K (option Z)) (create : bool) (table : Z) : K (option Z) :=
  let slot := index8 table i in
  let! e := load64 slot in
  if e =? 0 then
    if create then
      let! r := page_alloc 0 in
      match r with
      | None => ret None
      | Some pp =>
          do! upd_page pp (fun p => set_pp_ref (u16 (pp_ref p + 1)) p) ;;
          let! level := page2kva pp in
          let! pa := PADDR level in
          do! store64 slot pa ;;
          let! e1 := load64 slot in
          do! store64 slot (Z.lor e1 PTE_USER) ;;
          do! memset_page level ;;
          let! level1 := next level in
          match level1 with
          | None =>
              do! page_decref pp ;;
              do! store64 slot 0 ;;
              ret None
          | Some _ => ret level1
          end
      end
    else ret None
  else
    let! level := KADDR (PTE_ADDR e) in
    next level.

Lemma pdpe_walk_level pdpe va create :
  pdpe_walk pdpe va create = walk_level (PDPE va) (fun t => pgdir_walk t va create) create pdpe.
Proof. reflexivity. Qed.

Lemma pml4e_walk_level p va create :
  p <> 0 -> pml4e_walk p va create = walk_level (PML4 va) (fun t => pdpe_walk t va create) create p.
Proof. intros Hp. unfold pml4e_walk. destruct (Z.eqb_spec p 0); [done|reflexivity]. Qed.

Lemma kva_nz p i : 0 <= p -> 0 <= i -> kva p i <> 0.
Proof. unfold kva, KERNBASE, PGSIZE. lia. Qed.

Lemma bind_load64 {B : Type} p i (c : Z -> K B) s :
  0 <= i < 512 -> bind (load64 (index8 (kva p 0) i)) c s = c (entry s p i) s.
Proof. intros Hi. rewrite index8_kva. by rewrite (bind_Ret _ _ _ _ _ (load64_kva p (0 + i) s Hi)). Qed.

Lemma bind_store64 {B : Type} p i v (c : unit -> K B) s :
  0 <= i < 512 -> bind (store64 (index8 (kva p 0) i) v) c s = c tt (set_entry p i v s).
Proof. intros Hi. rewrite index8_kva. by rewrite (bind_Ret _ _ _ _ _ (store64_kva p (0 + i) v s Hi)). Qed.

Lemma bind_memset_page {B : Type} p (c : unit -> K B) s :
  bind (memset_page (kva p 0)) c s = c tt (zero_page p s).
Proof. by rewrite (bind_Ret _ _ _ _ _ (memset_page_kva p s)). Qed.

(** *** Looking without creating *)

(** The last-level table the indices [js] lead to. *)
Fixpoint descend (s : kstate) (t : Z) (js : list Z) : option Z :=
  match js with
  | [] => Some t
  | j :: js' => if entry s t j =? 0 then None else descend s (PPN (entry s t j)) js'
  end.

Lemma pt_read_descend s t js j :
  pt_read s t (js ++ [j]) = match descend s t js with Some u => entry s u j | None => 0 end.
Proof.
  revert t. induction js as [|j' js IH]; intros t; [done|]. cbn.
  specialize (IH (PPN (entry s t j'))).
  destruct (js ++ [j]) as [|x y] eqn:E; [by destruct js|]. by destruct (_ =? _).
Qed.

(** The table a descent reaches is owned by the space, at the path taken. *)
Lemma descend_owned k own l s t r path js u :
  pt_inv k own l s -> own !! t = Some (r, path) -> idx_ok js ->
  (length path + length js <= 3)%nat -> (forall j js', js = j :: js' -> slot_priv k r path j) ->
  descend s t js = Some u -> own !! u = Some (r, path ++ js).
Proof.
  intros I. revert t path. induction js as [|j js IH]; intros t path Ht Hok Hlen Hp Hd.
  - cbn in Hd. inversion Hd; subst. by rewrite app_nil_r.
  - cbn in Hd. destruct (Z.eqb_spec (entry s t j) 0) as [|Hne]; [done|].
    apply Forall_cons in Hok as [Hj Hok].
    replace (path ++ j :: js) with ((path ++ [j]) ++ js) by (by rewrite <- app_assoc).
    apply (IH (PPN (entry s t j))); try done.
    + apply (pi_child _ _ _ _ I); try done; [cbn in Hlen; lia|by eapply Hp].
    + rewrite length_app. cbn in *. lia.
    + intros j1 js1 _. by destruct path.
Qed.

(** A walk that does not create follows the tables and changes nothing. *)
Section Look.
Context (k : Z) (own : owners) (l : list Z) (s : kstate) (r va : Z) (I : pt_inv k own l s).

Lemma pgdir_walk_look t path :
  own !! t = Some (r, path) -> length path = 2%nat ->
  pgdir_walk (kva t 0) va false s =
  Ret ((fun u => kva u (PTX va)) <$> descend s t [PDX va]) s.
Proof using I.
  intros Ht Hlen. unfold pgdir_walk. rewrite bind_load64 by apply PDX_range. cbn [descend].
  destruct (Z.eqb_spec (entry s t (PDX va)) 0) as [|Hne]; msteps; [done|].
  rewrite bind_load64 by apply PDX_range.
  assert (0 <= PPN (entry s t (PDX va)) < npages s) as Hr.
  { eapply (inv_child_range _ _ _ _ I); [exact Ht|lia|apply PDX_range| |done].
    destruct path; [done|]. exact Logic.I. }
  assert (KADDR (PTE_ADDR (entry s t (PDX va))) s = Ret (kva (PPN (entry s t (PDX va))) 0) s) as HK.
  { apply KADDR_PTE_ADDR; [apply (pi_np _ _ _ _ I)|done]. }
  mrun HK. rewrite index8_kva. done.
Qed.

Lemma walk_level_look next t path i js :
  own !! t = Some (r, path) -> (length path < 3)%nat -> 0 <= i < 512 -> slot_priv k r path i ->
  (forall c, own !! c = Some (r, path ++ [i]) ->
     next (kva c 0) s = Ret ((fun u => kva u (PTX va)) <$> descend s c js) s) ->
  walk_level i next false (kva t 0) s = Ret ((fun u => kva u (PTX va)) <$> descend s t (i :: js)) s.
Proof using I.
  intros Ht Hlen Hi Hp Hnext. unfold walk_level. rewrite bind_load64 by done. cbn [descend].
  destruct (Z.eqb_spec (entry s t i) 0) as [|Hne]; [done|].
  assert (KADDR (PTE_ADDR (entry s t i)) s = Ret (kva (PPN (entry s t i)) 0) s) as HK.
  { apply KADDR_PTE_ADDR; [apply (pi_np _ _ _ _ I)|]. by eapply (inv_child_range _ _ _ _ I). }
  mrun HK. apply Hnext. by apply (pi_child _ _ _ _ I).
Qed.

Lemma pml4e_walk_look :
  own !! r = Some (r, []) -> priv k r (PML4 va) ->
  pml4e_walk (kva r 0) va false s =
  Ret ((fun u => kva u (PTX va)) <$> descend s r (va_path va)) s.
Proof using I.
  intros Hr Hp. pose proof (pi_tab _ _ _ _ I _ _ _ Hr) as (Hrr & _ & _).
  rewrite pml4e_walk_level by (apply kva_nz; lia).
  eapply walk_level_look; [exact Hr|cbn; lia|apply PML4_range|done|]. intros c Hc.
  rewrite pdpe_walk_level.
  eapply walk_level_look; [exact Hc|cbn; lia|apply PDPE_range|done|]. intros c' Hc'.
  by eapply pgdir_walk_look.
Qed.
End Look.

(** When every table is there, creating makes no difference. *)
Section Present.
Context (k : Z) (own : owners) (l : list Z) (s : kstate) (r va : Z) (I : pt_inv k own l s) (create : bool).

Lemma pgdir_walk_present t path u :
  own !! t = Some (r, path) -> length path = 2%nat -> descend s t [PDX va] = Some u ->
  pgdir_walk (kva t 0) va create s = Ret (Some (kva u (PTX va))) s.
Proof using I.
  intros Ht Hlen Hd. cbn [descend] in Hd. unfold pgdir_walk. rewrite bind_load64 by apply PDX_range.
  destruct (Z.eqb_spec (entry s t (PDX va)) 0) as [|Hne]; [done|]. inversion Hd; subst. msteps.
  rewrite bind_load64 by apply PDX_range.
  assert (KADDR (PTE_ADDR (entry s t (PDX va))) s = Ret (kva (PPN (entry s t (PDX va))) 0) s) as HK.
  { apply KADDR_PTE_ADDR; [apply (pi_np _ _ _ _ I)|].
    eapply (inv_child_range _ _ _ _ I); [exact Ht|lia|apply PDX_range| |done]. by destruct path. }
  mrun HK. rewrite index8_kva. done.
Qed.

Lemma walk_level_present next t path i js u :
  own !! t = Some (r, path) -> (length path < 3)%nat -> 0 <= i < 512 -> slot_priv k r path i ->
  descend s t (i :: js) = Some u ->
  (forall c, own !! c = Some (r, path ++ [i]) -> descend s c js = Some u ->
     next (kva c 0) s = Ret (Some (kva u (PTX va))) s) ->
  walk_level i next create (kva t 0) s = Ret (Some (kva u (PTX va))) s.
Proof using I.
  intros Ht Hlen Hi Hp Hd Hnext. unfold walk_level. rewrite bind_load64 by done. cbn [descend] in Hd.
  destruct (Z.eqb_spec (entry s t i) 0) as [|Hne]; [done|].
  assert (KADDR (PTE_ADDR (entry s t i)) s = Ret (kva (PPN (entry s t i)) 0) s) as HK.
  { apply KADDR_PTE_ADDR; [apply (pi_np _ _ _ _ I)|]. by eapply (inv_child_range _ _ _ _ I). }
  mrun HK. apply Hnext; [|done]. by apply (pi_child _ _ _ _ I).
Qed.

Lemma pml4e_walk_present u :
  own !! r = Some (r, []) -> priv k r (PML4 va) -> descend s r (va_path va) = Some u ->
  pml4e_walk (kva r 0) va create s = Ret (Some (kva u (PTX va))) s.
Proof using I.
  intros Hr Hp Hd. pose proof (pi_tab _ _ _ _ I _ _ _ Hr) as (Hrr & _ & _).
  rewrite pml4e_walk_level by (apply kva_nz; lia).
  eapply walk_level_present; [exact Hr|cbn; lia|apply PML4_range|done|exact Hd|]. intros c Hc Hdc.
  rewrite pdpe_walk_level.
  eapply walk_level_present; [exact Hc|cbn; lia|apply PDPE_range|done|exact Hdc|]. intros c' Hc' Hdc'.
  by eapply pgdir_walk_present.
Qed.
End Present.

(** *** Creating the missing tables *)

(** What a creating walk from a table of [r] at [path] through [js] leaves:
    when it fails nothing has changed but the free pages; when it succeeds it
    returns the slot of [va] in the last-level table, and every entry of every
    address space reads as before. *)
Definition walk_post (k : Z) (own : owners) (l : list Z) (s : kstate) (r : Z) (path js : list Z)
    (va : Z) (res : option Z) (s' : kstate) : Prop :=
  walk_frame own r l s s' /\
  match res with
  | None => pt_inv k own l s' /\ same_tables own s s' /\ (length l < length js)%nat
  | Some a => exists u own' l',
      a = kva u (PTX va) /\ pt_inv k own' l' s' /\ own' !! u = Some (r, path ++ js) /\
      own ⊆ own' /\ (forall q, q ∉ l -> own' !! q = own !! q) /\ l' `suffix_of` l /\
      reads_same k own s s' /\ (length l <= length l' + length js)%nat /\
      (forall q x, user_slot own' s' q x -> user_slot own s q x)
  end.

Definition walk_spec (k r va : Z) (path js : list Z) (w : Z -> K (option Z)) : Prop :=
  forall own l s t, pt_inv k own l s -> own !! t = Some (r, path) ->
    returns (w (kva t 0)) s (walk_post k own l s r path js va).

(** The steps that link the new table leave [grown]. *)
Lemma link_table_run {B : Type} p t i h s (c : Z -> K B) :
  npages_ok s -> 0 <= p < npages s -> 0 <= i < 512 ->
  (do! upd_page p (fun x => set_pp_ref (u16 (pp_ref x + 1)) x) ;;
   let! level := page2kva p in
   let! pa := PADDR level in
   do! store64 (index8 (kva t 0) i) pa ;;
   let! e1 := load64 (index8 (kva t 0) i) in
   do! store64 (index8 (kva t 0) i) (Z.lor e1 PTE_USER) ;;
   do! memset_page level ;;
   c level) (popped 0 p h s) = c (kva p 0) (grown p t i h s).
Proof.
  intros Hn Hp Hi. msteps. set (s1 := set_pages _ _).
  assert (page2kva p s1 = Ret (kva p 0) s1) as Hk by (by apply page2kva_ok). mrun Hk.
  assert (PADDR (kva p 0) s1 = Ret (p * PGSIZE) s1) as Hpa by (apply PADDR_kva; lia). mrun Hpa.
  rewrite bind_store64, bind_load64, bind_store64, bind_memset_page by done.
  by rewrite entry_set_entry_eq.
Qed.

Lemma link_table_run_pgdir {B : Type} p t i h s (c : K B) :
  npages_ok s -> 0 <= p < npages s -> 0 <= i < 512 ->
  (do! upd_page p (fun x => set_pp_ref (u16 (pp_ref x + 1)) x) ;;
   do! store64 (index8 (kva t 0) i) (page2pa p) ;;
   let! e1 := load64 (index8 (kva t 0) i) in
   do! store64 (index8 (kva t 0) i) (Z.lor e1 PTE_USER) ;;
   let! k := page2kva p in
   do! memset_page k ;;
   c) (popped 0 p h s) = c (grown p t i h s).
Proof.
  intros Hn Hp Hi. msteps. set (s1 := set_pages _ _).
  rewrite bind_store64, bind_load64, bind_store64, entry_set_entry_eq by done.
  rewrite page2pa_eq by (unfold npages_ok in Hn; lia).
  set (s2 := set_entry _ _ _ _).
  assert (page2kva p s2 = Ret (kva p 0) s2) as Hk by (by apply page2kva_ok). mrun Hk.
  by rewrite bind_memset_page.
Qed.

(** Composing one level with the walk below it, when a table was added. *)
Lemma walk_post_grow k own l s p t i r path js va res s' :
  pt_inv k own (p :: l) s -> own !! t = Some (r, path) -> (length path < 3)%nat ->
  0 <= i < 512 -> slot_priv k r path i -> entry s t i = 0 ->
  walk_post k (<[p := (r, path ++ [i])]> own) l (grown p t i (head l) s) r (path ++ [i]) js va (Some res) s' ->
  walk_post k own (p :: l) s r path (i :: js) va (Some res) s'.
Proof.
  intros I Ht Hlen Hi Hp Hz (Hf & u & own' & l' & -> & I' & Hu & Hsub & Hq & Hsuf & Hr & Hll & Hus).
  pose proof (grow_fresh k own l s p t i r path I Ht Hlen Hi Hp Hz) as Hfresh.
  assert (own ⊆ <[p := (r, path ++ [i])]> own) as Hsub1 by (by apply insert_subseteq).
  split.
  - eapply walk_frame_trans; [..|exact Hf]; [lset|exact Hsub1| |].
    + intros q Hq1. rewrite lookup_insert_ne; [done|lset].
    + by eapply grow_frame.
  - exists u, own', l'. rewrite <- app_assoc in Hu. split_ands; try done.
    + by transitivity (<[p := (r, path ++ [i])]> own).
    + intros q Hq1. rewrite Hq, lookup_insert_ne by lset. done.
    + by apply suffix_cons_r.
    + intros t0 r0 p0 js0 H0 Hok Hl Hsp.
      rewrite (Hr t0 r0 p0 js0); try done; [|by eapply lookup_weaken].
      by eapply (grow_reads k own l s p t i r path).
    + cbn. lia.
    + intros q x Hx. apply (grow_user_slot k own l s p t i r path); auto.
Qed.

(** Undoing the addition when the walk below failed. *)
Lemma walk_post_undo k own l s p t i r path js va s' :
  pt_inv k own (p :: l) s -> own !! t = Some (r, path) -> (length path < 3)%nat ->
  0 <= i < 512 -> slot_priv k r path i -> entry s t i = 0 ->
  walk_post k (<[p := (r, path ++ [i])]> own) l (grown p t i (head l) s) r (path ++ [i]) js va None s' ->
  page_decref p s' = Ret tt (freed p s') /\
  walk_post k own (p :: l) s r path (i :: js) va None (set_entry t i 0 (freed p s')).
Proof.
  intros I Ht Hlen Hi Hp Hz (Hf & I' & Hst & Hl).
  pose proof (grow_fresh k own l s p t i r path I Ht Hlen Hi Hp Hz) as Hfresh.
  assert (p <> t) as Hpt by congruence.
  assert (p ∉ l) as Hpl. { pose proof (fl_nodup _ _ (pi_fl _ _ _ _ I)) as H. by apply NoDup_cons in H as [? _]. }
  assert (page_at s' p = mkPageInfo None 1) as Hps.
  { rewrite (wf_page _ _ _ _ _ Hf) by done. rewrite grown_page_at, decide_True by done.
    rewrite (inv_free_ref _ _ _ _ I); [done|lset]. }
  assert (forall j, entry s' p j = 0) as Hzp.
  { intros j. rewrite Hst by (rewrite lookup_insert_eq; eauto). by rewrite grown_entry, decide_True. }
  assert (forall q j, is_Some (own !! q) -> entry (set_entry t i 0 (freed p s')) q j = entry s q j) as Hsame.
  { intros q j [x Hq]. rewrite entry_set_entry. case_decide as Hd; [by destruct Hd as [<- <-]|].
    change (entry s' q j = entry s q j).
    assert (p <> q) by congruence.
    rewrite Hst by (rewrite lookup_insert_ne by done; eauto).
    by rewrite grown_entry, !decide_False. }
  split; [|split].
  - apply page_decref_last; unfold ref_of, link_of; by rewrite Hps.
  - pose proof (grow_frame k own l s p t i r path I Ht Hlen Hi Hp Hz) as Hg. split.
    + eapply mm_only_trans; [apply (wf_mm _ _ _ _ _ Hg)|]. eapply mm_only_trans; [apply (wf_mm _ _ _ _ _ Hf)|].
      unfold mm_only. by destruct s'.
    + rewrite <- (wf_tlb _ _ _ _ _ Hg), <- (wf_tlb _ _ _ _ _ Hf). done.
    + intros q Hq. change (page_at (freed p s') q = page_at s q).
      rewrite freed_page_at by lset. rewrite (wf_page _ _ _ _ _ Hf) by lset.
      by apply (wf_page _ _ _ _ _ Hg).
    + intros q j Hq Ho. rewrite entry_set_entry, decide_False by (intros [-> _]; by apply (Ho path)).
      change (entry s' q j = entry s q j).
      rewrite (wf_mem _ _ _ _ _ Hf); [by apply (wf_mem _ _ _ _ _ Hg)|lset|].
      rewrite lookup_insert_ne by lset. done.
    + intros q j x Hq _. by apply Hsame.
  - split_ands; [|done|cbn; lia].
    rewrite <- (delete_insert_id own p (r, path ++ [i])) by done.
    eapply shrink_inv; try done.
    + by rewrite lookup_insert_ne.
    + by rewrite lookup_insert_eq.
Qed.

Lemma walk_post_same k own l s r path i js va res s' :
  walk_post k own l s r (path ++ [i]) js va res s' -> walk_post k own l s r path (i :: js) va res s'.
Proof.
  intros [Hf H]. split; [done|]. destruct res as [a|].
  - destruct H as (u & own' & l' & H1 & H2 & H3 & H4 & H5 & H6 & H7 & H8 & H9). rewrite <- app_assoc in H3.
    exists u, own', l'. split_ands; try done. cbn. lia.
  - destruct H as (? & ? & ?). split_ands; try done. cbn. lia.
Qed.

Lemma walk_post_nomem k own s r path i js va :
  pt_inv k own [] s -> walk_post k own [] s r path (i :: js) va None s.
Proof. intros I. split; [apply walk_frame_refl|]. split_ands; [done|done|cbn; lia]. Qed.

Lemma walk_level_create k r va path i js next :
  (length path < 3)%nat -> 0 <= i < 512 -> slot_priv k r path i ->
  walk_spec k r va (path ++ [i]) js next ->
  walk_spec k r va path (i :: js) (walk_level i next true).
Proof.
  intros Hlen Hi Hp Hnext own l s t I Ht. unfold returns, walk_level.
  rewrite bind_load64 by done. destruct (Z.eqb_spec (entry s t i) 0) as [Hz|Hne].
  - destruct l as [|p l].
    { rewrite (bind_Ret _ _ _ _ _ (page_alloc_empty 0 s (pi_fl _ _ _ _ I))).
      exists None, s. split; [done|]. by apply walk_post_nomem. }
    rewrite (bind_Ret _ _ _ _ _ (page_alloc_pop 0 s p l (pi_np _ _ _ _ I) (pi_fl _ _ _ _ I))).
    cbv iota. rewrite link_table_run; [|apply (pi_np _ _ _ _ I)|eapply inv_free_range; [exact I|lset]|done].
    pose proof (grow_inv k own l s p t i r path I Ht Hlen Hi Hp Hz) as I1.
    destruct (Hnext _ _ _ p I1) as (res & s' & Hrun & Hpost); [by rewrite lookup_insert_eq|].
    rewrite (bind_Ret _ _ _ _ _ Hrun). destruct res as [a|].
    + exists (Some a), s'. split; [done|]. by apply (walk_post_grow k own l s p t).
    + destruct (walk_post_undo k own l s p t i r path js va s' I Ht Hlen Hi Hp Hz Hpost) as [Hdec Hundo].
      rewrite (bind_Ret _ _ _ _ _ Hdec), bind_store64 by done. by eexists None, _.
  - assert (KADDR (PTE_ADDR (entry s t i)) s = Ret (kva (PPN (entry s t i)) 0) s) as HK.
    { apply KADDR_PTE_ADDR; [apply (pi_np _ _ _ _ I)|]. by eapply (inv_child_range _ _ _ _ I). }
    mrun HK. destruct (Hnext own l s (PPN (entry s t i)) I) as (res & s' & Hrun & Hpost).
    { by apply (pi_child _ _ _ _ I). }
    exists res, s'. split; [done|]. by apply walk_post_same.
Qed.

Lemma pgdir_walk_create k r va path :
  length path = 2%nat -> walk_spec k r va path [PDX va] (fun t => pgdir_walk t va true).
Proof.
  intros Hlen own l s t I Ht. unfold returns, pgdir_walk. pose proof (PDX_range va) as Hi.
  assert (slot_priv k r path (PDX va)) as Hp by (destruct path; [done|exact Logic.I]).
  rewrite bind_load64 by done. destruct (Z.eqb_spec (entry s t (PDX va)) 0) as [Hz|Hne].
  - destruct l as [|p l].
    { msteps. rewrite (bind_Ret _ _ _ _ _ (page_alloc_empty 0 s (pi_fl _ _ _ _ I))). msteps.
      exists None, s. split; [done|]. by apply walk_post_nomem. }
    msteps. rewrite (bind_Ret _ _ _ _ _ (page_alloc_pop 0 s p l (pi_np _ _ _ _ I) (pi_fl _ _ _ _ I))).
    cbv iota. assert (0 <= p < npages s) as Hpr by (eapply inv_free_range; [exact I|lset]).
    rewrite (bind_Ret _ _ _ true (grown p t (PDX va) (head l) s)); cycle 1.
    { by rewrite link_table_run_pgdir; [|apply (pi_np _ _ _ _ I)|..]. }
    cbv iota. assert (length path < 3)%nat as Hlen3 by lia.
    pose proof (grow_inv k own l s p t (PDX va) r path I Ht Hlen3 Hi Hp Hz) as I1.
    pose proof (grow_fresh k own l s p t (PDX va) r path I Ht Hlen3 Hi Hp Hz) as Hfresh.
    set (s1 := grown p t (PDX va) (head l) s) in *.
    rewrite bind_load64 by done.
    assert (entry s1 t (PDX va) = p * PGSIZE + PTE_USER) as He.
    { unfold s1. rewrite grown_entry, decide_False, decide_True by (done || congruence). done. }
    rewrite He. assert (KADDR (PTE_ADDR (p * PGSIZE + PTE_USER)) s1 = Ret (kva p 0) s1) as HK.
    { rewrite KADDR_PTE_ADDR, PPN_table; [done|apply (pi_np _ _ _ _ I1)|by rewrite PPN_table]. }
    mrun HK. exists (Some (kva p (PTX va))), s1. rewrite index8_kva. split; [done|].
    apply (walk_post_grow k own l s p t); try done. split; [apply walk_frame_refl|].
    exists p, (<[p := (r, path ++ [PDX va])]> own), l. rewrite app_nil_r, lookup_insert_eq. split_ands; try done. cbn. lia.
  - msteps. rewrite bind_load64 by done.
    assert (KADDR (PTE_ADDR (entry s t (PDX va))) s = Ret (kva (PPN (entry s t (PDX va))) 0) s) as HK.
    { apply KADDR_PTE_ADDR; [apply (pi_np _ _ _ _ I)|]. eapply (inv_child_range _ _ _ _ I); [exact Ht|lia|done..]. }
    mrun HK. eexists _, _. split; [done|]. rewrite index8_kva.
    split; [apply walk_frame_refl|]. exists (PPN (entry s t (PDX va))), own, l. split_ands; try done; [|cbn; lia].
    apply (pi_child _ _ _ _ I t); [done|lia|done..].
Qed.

(** The whole creating walk. *)
Lemma pml4e_walk_create k own l s r va :
  pt_inv k own l s -> own !! r = Some (r, []) -> priv k r (PML4 va) ->
  returns (pml4e_walk (kva r 0) va true) s (walk_post k own l s r [] (va_path va) va).
Proof.
  intros I Hr Hp. pose proof (pi_tab _ _ _ _ I _ _ _ Hr) as (Hrr & _ & _).
  rewrite pml4e_walk_level by (apply kva_nz; lia).
  apply (walk_level_create k r va []); [cbn; lia|apply PML4_range|done| |done|done].
  apply (walk_level_create k r va [PML4 va]); [cbn; lia|apply PDPE_range|exact Logic.I|].
  by apply (pgdir_walk_create k r va [PML4 va; PDPE va]).
Qed.
