(* ===== verification/PageTableSpec.v ===== *)
(** The contract of the page-table operations of kern/pmap.c: an address space
    is a map from virtual pages to entries, and [page_insert], [page_lookup],
    [page_remove] and [boot_map_region] implement its updates, keep the
    reference counts and leave every other address space alone. *)

From S2P Require Import Prelude Kernel PageAlloc PageTable PageTableInv.

(** ** Slots of an address space *)

(** The owned last-level table of a path is the one the descent reaches. *)
Lemma descend_snoc s t js i :
  descend s t (js ++ [i]) =
  match descend s t js with
  | Some u => if entry s u i =? 0 then None else Some (PPN (entry s u i))
  | None => None
  end.
Proof.
  revert t. induction js as [|j js IH]; intros t; [done|]. cbn. destruct (_ =? _); [done|]. apply IH.
Qed.

Lemma owned_descend k own l s r u js :
  pt_inv k own l s -> own !! r = Some (r, []) -> own !! u = Some (r, js) -> descend s r js = Some u.
Proof.
  intros I Hr. revert u. induction js as [|i js IH] using rev_ind; intros u Hu.
  - by rewrite (pi_inj _ _ _ _ I _ _ _ Hr Hu).
  - apply (pi_parent _ _ _ _ I) in Hu as (_ & t & Ht & Hne & <-).
    rewrite descend_snoc, (IH t Ht). by destruct (Z.eqb_spec (entry s t i) 0).
Qed.

Lemma va_idx_path va : va_idx va = va_path va ++ [PTX va].
Proof. done. Qed.

Lemma pte_of_owned k own l s r u va :
  pt_inv k own l s -> own !! r = Some (r, []) -> own !! u = Some (r, va_path va) ->
  pte_of s r va = entry s u (PTX va).
Proof.
  intros I Hr Hu. unfold pte_of. rewrite va_idx_path, pt_read_descend.
  by rewrite (owned_descend _ _ _ _ _ _ _ I Hr Hu).
Qed.

Lemma pte_of_descend s r va :
  pte_of s r va = match descend s r (va_path va) with Some u => entry s u (PTX va) | None => 0 end.
Proof. unfold pte_of. by rewrite va_idx_path, pt_read_descend. Qed.

Lemma va_path_ok va : idx_ok (va_path va).
Proof. pose proof (va_idx_ok va) as H. unfold idx_ok in *. rewrite va_idx_path in H. by apply Forall_app in H as [H _]. Qed.

Lemma va_descend_owned k own l s r va u :
  pt_inv k own l s -> own !! r = Some (r, []) -> priv k r (PML4 va) ->
  descend s r (va_path va) = Some u -> own !! u = Some (r, va_path va).
Proof.
  intros I Hr Hp Hd. eapply (descend_owned _ _ _ _ _ _ []); try done.
  - apply va_path_ok.
  - intros j js' H. by inversion H; subst.
Qed.

(** Two virtual addresses use the same slot exactly when they are in the same
    page. *)
Lemma va_idx_page va va' :
  0 <= va < 2 ^ 48 -> 0 <= va' < 2 ^ 48 -> va_idx va = va_idx va' <-> va / PGSIZE = va' / PGSIZE.
Proof.
  intros H H'. unfold va_idx, PGSIZE. rewrite !PML4_eq, !PDPE_eq, !PDX_eq, !PTX_eq.
  assert (forall x, 0 <= x < 2 ^ 48 -> x / 4096 = ((x / 2 ^ 39 mod 512 * 512 + x / 2 ^ 30 mod 512) * 512
    + x / 2 ^ 21 mod 512) * 512 + x / 2 ^ 12 mod 512) as Hsplit.
  { intros x Hx. change (2 ^ 12) with 4096. change (2 ^ 21) with (4096 * 512).
    change (2 ^ 30) with (4096 * 512 * 512). change (2 ^ 39) with (4096 * 512 * 512 * 512).
    rewrite <- !Z.div_div by lia. set (y := x / 4096).
    assert (0 <= y < 2 ^ 36) by (subst y; split; [apply Z.div_pos|apply Z.div_lt_upper_bound]; lia).
    pose proof (Z.div_mod y 512). pose proof (Z.div_mod (y / 512) 512). pose proof (Z.div_mod (y / 512 / 512) 512).
    rewrite (Z.mod_small (y / 512 / 512 / 512)); [lia|]. rewrite !Z.div_div by lia.
    split; [apply Z.div_pos; lia|apply Z.div_lt_upper_bound; lia]. }
  split.
  - intros Heq. injection Heq as E1 E2 E3 E4. rewrite (Hsplit va), (Hsplit va') by done. congruence.
  - intros Heq. change (2 ^ 12) with 4096. change (2 ^ 21) with (4096 * 512).
    change (2 ^ 30) with (4096 * 512 * 512). change (2 ^ 39) with (4096 * 512 * 512 * 512).
    rewrite <- !Z.div_div by lia. by rewrite Heq.
Qed.

(** ** One entry of a last-level table changes *)

(** The reference an entry holds. *)
Definition cnt (e q : Z) : Z := if decide (e <> 0 /\ PPN e = q) then 1 else 0.

Lemma cnt_0 q : cnt 0 q = 0.
Proof. unfold cnt. rewrite decide_False; [done|]. by intros [? _]. Qed.

Lemma cnt_nz e q : e <> 0 -> cnt e q = if decide (PPN e = q) then 1 else 0.
Proof. intros He. unfold cnt. by repeat case_decide; naive_solver. Qed.

(** [s'] is [s] with entry [j] of the last-level table [u] set to [v], the
    counts adjusted by the references dropped and taken, and [l'] free. *)
Record leaf_step (k : Z) (own : owners) (l l' : list Z) (s s' : kstate) (u j v : Z) : Prop := {
  ls_mm : mm_only s s';
  ls_inv : pt_inv k own l' s';
  ls_entry : forall q i, entry s' q i = if decide (u = q /\ j = i) then v else entry s q i;
  ls_ref : forall q, ref_of s' q = ref_of s q + cnt v q - cnt (entry s u j) q;
}.

(** Writing a slot maps no page but the one of the new entry. *)
Lemma leaf_user_slot own s s' u j v p x :
  (forall q i, entry s' q i = if decide (u = q /\ j = i) then v else entry s q i) ->
  user_slot own s' p x -> user_slot own s p x \/ (v <> 0 /\ PPN v = p).
Proof.
  intros He (H1 & H2 & H3 & H4). rewrite He in H3, H4. case_decide; [by right|]. left. by split.
Qed.

Lemma leaf_inv k own l l' s s' u j v r a b :
  pt_inv k own l s -> own !! u = Some (r, [0; a; b]) -> 0 <= j < 512 -> npages s' = npages s ->
  (forall q i, entry s' q i = if decide (u = q /\ j = i) then v else entry s q i) ->
  (forall q, ref_of s' q = ref_of s q + cnt v q - cnt (entry s u j) q) ->
  free_list_ok s' l' -> (forall q, q ∉ l' -> link_of s' q = None) -> (forall q, 0 <= ref_of s' q < 2 ^ 16) ->
  (v <> 0 -> 0 <= PPN v < npages s /\ own !! PPN v = None) ->
  pt_inv k own l' s'.
Proof.
  intros I Hu Hj Hnp He Hr Hfl Hlk Hr16 Hv.
  assert (forall q x, own !! q = Some x -> length x.2 <> 3%nat -> forall i, entry s' q i = entry s q i) as Hup.
  { intros q x Hq Hx i. rewrite He, decide_False; [done|]. intros [<- _]. rewrite Hu in Hq. by inversion Hq; subst. }
  split; try done.
  - unfold npages_ok. rewrite Hnp. apply (pi_np _ _ _ _ I).
  - intros t r0 path Ht. rewrite Hnp, Hr. pose proof (pi_tab _ _ _ _ I _ _ _ Ht) as (? & ? & ?).
    split_ands; try lia. unfold cnt. case_decide as Hc1; case_decide as Hc2; try lia.
    destruct Hc2 as [Hc2 Hc3]. destruct (pi_leaf _ _ _ _ I _ _ _ _ _ Hu Hj Hc2) as [_ Hc4]. congruence.
  - apply (pi_inj _ _ _ _ I).
  - apply (pi_root _ _ _ _ I).
  - intros t r0 path i Ht Hl. rewrite (Hup t _ Ht) by (cbn; lia). by apply (pi_child _ _ _ _ I).
  - intros t r0 path i Ht. pose proof (pi_parent _ _ _ _ I _ _ _ _ Ht) as (Hs & t' & Ht' & H).
    split; [done|]. exists t'. rewrite (Hup t' _ Ht'); [done|]. cbn.
    apply (pi_tab _ _ _ _ I) in Ht as (_ & _ & Ht). rewrite length_app in Ht. cbn in Ht. lia.
  - intros t r0 a0 b0 i Ht Hi. rewrite He, Hnp. case_decide as Hd; [done|]. by apply (pi_leaf _ _ _ _ I t r0 a0 b0).
  - intros q L Hnd HL. rewrite Hr.
    assert (forall x, x <> (u, j) -> user_slot own s' q x -> user_slot own s q x) as Hother.
    { intros [t i] Hx (Hi & Ho & Hs). cbn in *. rewrite He, decide_False in Hs; [by split_ands|].
      intros [-> ->]. done. }
    assert (forall L0, NoDup L0 -> (u, j) ∉ L0 -> Forall (user_slot own s' q) L0 ->
      Z.of_nat (length L0) <= ref_of s q - cnt (entry s u j) q) as Hold.
    { intros L0 Hnd0 Hnin HL0. assert (Forall (user_slot own s q) L0) as HL1.
      { rewrite Forall_forall in *. intros x Hx. apply Hother; [by intros ->|by apply HL0]. }
      unfold cnt. case_decide as Hd; [|rewrite Z.sub_0_r; by apply (pi_refs _ _ _ _ I)].
      enough (Z.of_nat (length ((u, j) :: L0)) <= ref_of s q) by (cbn in *; lia).
      apply (pi_refs _ _ _ _ I); [by apply NoDup_cons|]. constructor; [|done].
      split; [done|]. split; [by exists r, a, b|done]. }
    destruct (decide ((u, j) ∈ L)) as [Hin|Hnin].
    + apply elem_of_Permutation in Hin as [L0 HP]. rewrite HP in Hnd, HL.
      apply NoDup_cons in Hnd as [Hn0 Hnd0]. apply Forall_cons in HL as [H0 HL0].
      rewrite HP. specialize (Hold L0 Hnd0 Hn0 HL0). cbn [length].
      destruct H0 as (_ & _ & H1 & H2). cbn in H1, H2. rewrite He, decide_True in H1, H2 by done.
      unfold cnt at 1. rewrite decide_True by done. lia.
    + specialize (Hold L Hnd Hnin HL). unfold cnt at 1. case_decide; lia.
  - intros t r0 path i Ht Hl. rewrite (Hup t _ Ht) by (cbn; lia). by apply (pi_flags _ _ _ _ I).
Qed.

(** The reads after such a change: only the slot itself reads differently. *)
Lemma leaf_reads k own l s s' u j v r va :
  pt_inv k own l s -> own !! r = Some (r, []) -> own !! u = Some (r, va_path va) -> j = PTX va ->
  (forall q i, entry s' q i = if decide (u = q /\ j = i) then v else entry s q i) ->
  forall r' va', own !! r' = Some (r', []) -> priv k r' (PML4 va') ->
    pte_of s' r' va' = if decide (r = r' /\ va_idx va = va_idx va') then v else pte_of s r' va'.
Proof.
  intros I Hr Hu -> He r' va' Hr' Hp'.
  assert (forall js t path, own !! t = Some (r', path) -> idx_ok js -> (length path + length js = 3)%nat ->
    (forall j js', js = j :: js' -> slot_priv k r' path j) -> descend s' t js = descend s t js) as Hd.
  { induction js as [|j js IH]; intros t path Ht Hok Hlen Hsp; [done|]. cbn.
    rewrite He, decide_False; cycle 1.
    { intros [<- _]. rewrite Hu in Ht. inversion Ht; subst. cbn in Hlen. lia. }
    destruct (Z.eqb_spec (entry s t j) 0) as [|Hne]; [done|].
    apply Forall_cons in Hok as [Hj Hok]. apply (IH _ (path ++ [j])).
    - apply (pi_child _ _ _ _ I); try done; [cbn in Hlen; lia|by eapply Hsp].
    - done.
    - rewrite length_app. cbn in *. lia.
    - intros ? ? _. by destruct path. }
  rewrite !pte_of_descend. rewrite (Hd (va_path va') r' []); [|done|apply va_path_ok|done|]; cycle 1.
  { intros j js' H. by inversion H; subst. }
  destruct (descend s r' (va_path va')) as [u'|] eqn:Hu'.
  - pose proof (va_descend_owned _ _ _ _ _ _ _ I Hr' Hp' Hu') as Ho. rewrite He.
    destruct (decide (u = u' /\ PTX va = PTX va')) as [[<- Hx]|Hn].
    + rewrite Hu in Ho. inversion Ho; subst. rewrite decide_True; [done|]. split; [done|].
      unfold va_idx. congruence.
    + rewrite decide_False; [done|]. intros [<- Hx]. apply Hn. rewrite !va_idx_path in Hx.
      apply app_inj_tail in Hx as [Hx1 Hx2]. split; [|done].
      rewrite Hx1 in Hu. by apply (pi_inj _ _ _ _ I _ _ _ Hu Ho).
  - rewrite decide_False; [done|]. intros [<- Hx]. rewrite !va_idx_path in Hx.
    apply app_inj_tail in Hx as [Hx1 _]. rewrite Hx1 in Hu.
    by rewrite (owned_descend _ _ _ _ _ _ _ I Hr Hu) in Hu'.
Qed.

(** ** The TLB *)

Definition flushes (s : kstate) (pml4e : Z) : bool :=
  match curenv s with
  | None => true
  | Some e => env_pml4e (env_at s e) =? pml4e
  end.

Definition flush (pml4e va : Z) (s : kstate) : kstate :=
  if flushes s pml4e then set_tlb (va :: tlb s) s else s.

Lemma tlb_invalidate_run p va s : p <> 0 -> tlb_invalidate p va s = Ret tt (flush p va s).
Proof.
  intros Hp. unfold tlb_invalidate, assertM, flush, flushes. apply nz_true in Hp. rewrite Hp. msteps.
  destruct (curenv s) as [e|]; [|done]. msteps. by destruct (_ =? p).
Qed.

Lemma flush_mm p va s : mm_only s (flush p va s).
Proof. unfold flush, mm_only. destruct (flushes s p); by destruct s. Qed.

Lemma flush_entry p va s q i : entry (flush p va s) q i = entry s q i.
Proof. unfold flush. by destruct (flushes s p). Qed.

Lemma flush_page_at p va s q : page_at (flush p va s) q = page_at s q.
Proof. unfold flush. by destruct (flushes s p). Qed.

Lemma flush_ref p va s q : ref_of (flush p va s) q = ref_of s q.
Proof. unfold ref_of. by rewrite flush_page_at. Qed.

Lemma flush_free_list p va s l : free_list_ok s l -> free_list_ok (flush p va s) l.
Proof. apply free_list_ok_ext; unfold flush; by destruct (flushes s p). Qed.

Lemma flush_inv k own l p va s : pt_inv k own l s -> pt_inv k own l (flush p va s).
Proof.
  intros I. unfold flush. destruct (flushes s p); [|done]. destruct I as [I1 I2 I3 I4 I5 I6 I7 I8 I9 I10 I11 I12].
  split; try done. by apply (free_list_ok_ext s).
Qed.

(** Flushing depends only on what memory management leaves alone. *)
Lemma flushes_mm s s' p : mm_only s s' -> flushes s' p = flushes s p.
Proof. by intros ->. Qed.

(** ** Lookup *)

Lemma page_lookup_run k own l s r va :
  pt_inv k own l s -> own !! r = Some (r, []) -> priv k r (PML4 va) ->
  0 < npages s -> (pte_of s r va <> 0 -> 0 <= PPN (pte_of s r va) < npages s) ->
  page_lookup (kva r 0) va s =
  Ret ((fun u => (PPN (entry s u (PTX va)), kva u (PTX va))) <$> descend s r (va_path va)) s.
Proof.
  intros I Hr Hp Hn Hrange. unfold page_lookup.
  rewrite (bind_Ret _ _ _ _ _ (pml4e_walk_look _ _ _ _ _ _ I Hr Hp)).
  rewrite pte_of_descend in Hrange.
  destruct (descend s r (va_path va)) as [u|] eqn:Hd; [|done]. cbn [fmap option_fmap option_map].
  rewrite (bind_Ret _ _ _ _ _ (load64_kva u (PTX va) s (PTX_range va))).
  rewrite (bind_Ret _ _ s (PPN (entry s u (PTX va))) s); [done|]. apply pa2page_ok.
  destruct (decide (entry s u (PTX va) = 0)) as [->|Hne]; [|by apply Hrange].
  change (PPN 0) with 0. lia.
Qed.

(** ** Removing *)

Lemma page_decref_more s p :
  2 <= ref_of s p < 2 ^ 16 ->
  page_decref p s = Ret tt (set_pages (<[p := set_pp_ref (ref_of s p - 1) (page_at s p)]> (pages s)) s).
Proof.
  intros Hr. unfold page_decref. msteps. fold (ref_of s p).
  rewrite u16_small by lia. rewrite page_at_upd, decide_True by done. cbn [pp_ref set_pp_ref].
  by destruct (Z.eqb_spec (ref_of s p - 1) 0); [lia|].
Qed.

(** Dropping one counted reference: the page is freed with the last one. *)
Lemma page_decref_run k own l s p :
  pt_inv k own l s -> 0 <= p < npages s -> 1 <= ref_of s p ->
  exists s', page_decref p s = Ret tt s' /\ mm_only s s' /\ tlb s' = tlb s /\ mem s' = mem s /\
    free_list_ok s' (if ref_of s p =? 1 then p :: l else l) /\
    (forall q, q ∉ (if ref_of s p =? 1 then p :: l else l) -> link_of s' q = None) /\
    (forall q, ref_of s' q = ref_of s q - if decide (p = q) then 1 else 0).
Proof.
  intros I Hp Hr.
  assert (p ∉ l) as Hpl by (intros Hin; rewrite (inv_free_ref _ _ _ _ I) in Hr by done; lia).
  pose proof (pi_ref _ _ _ _ I p) as Hr16.
  destruct (Z.eqb_spec (ref_of s p) 1) as [H1|H1].
  - exists (freed p s). split; [apply page_decref_last; [done|by apply (pi_link _ _ _ _ I)]|].
    split; [apply freed_mm|]. split_ands; try done.
    + apply freed_free_list; try done. apply (pi_fl _ _ _ _ I).
    + intros q Hq. unfold link_of. rewrite freed_page_at by lset. apply (pi_link _ _ _ _ I). lset.
    + intros q. rewrite freed_ref. case_decide; subst; lia.
  - rewrite page_decref_more by lia. eexists. split; [done|]. split; [unfold mm_only; by destruct s|]. split_ands; try done.
    + eapply free_list_ok_ext; [..|apply (pi_fl _ _ _ _ I)]; [done|done|]. intros q Hq.
      rewrite page_at_upd, decide_False; [done|]. by intros ->.
    + intros q Hq. unfold link_of. rewrite page_at_upd. pose proof (pi_link _ _ _ _ I q Hq).
      by case_decide; subst.
    + intros q. unfold ref_of at 1. rewrite page_at_upd. case_decide; subst; [cbn; lia|unfold ref_of; lia].
Qed.

Lemma page_remove_run k own l s r u va :
  pt_inv k own l s -> own !! r = Some (r, []) -> PML4 va = 0 -> own !! u = Some (r, va_path va) ->
  entry s u (PTX va) <> 0 ->
  exists s' l', page_remove (kva r 0) va s = Ret tt s' /\
    leaf_step k own l l' s s' u (PTX va) 0 /\
    l' = (if ref_of s (PPN (entry s u (PTX va))) =? 1 then PPN (entry s u (PTX va)) :: l else l) /\
    tlb s' = if flushes s (kva r 0) then va :: tlb s else tlb s.
Proof.
  intros I Hr Hva Hu Hne. pose proof (PTX_range va) as Hj.
  assert (own !! u = Some (r, [0; PDPE va; PDX va])) as Hu0 by (by rewrite Hu; unfold va_path; rewrite Hva).
  pose proof (pi_leaf _ _ _ _ I _ _ _ _ _ Hu0 Hj Hne) as [Hrange Hnone].
  pose proof (inv_mapped_ref _ _ _ _ I _ _ _ _ _ _ Hu0 Hj Hne eq_refl) as Href.
  pose proof (pi_tab _ _ _ _ I _ _ _ Hr) as (Hrr & _ & _).
  set (e := entry s u (PTX va)) in *. set (pp := PPN e) in *.
  unfold page_remove.
  assert (page_lookup (kva r 0) va s = Ret (Some (pp, kva u (PTX va))) s) as HL.
  { rewrite (page_lookup_run _ _ _ _ _ _ I Hr); [|by left|lia|].
    - by rewrite (owned_descend _ _ _ _ _ _ _ I Hr Hu).
    - by rewrite (pte_of_owned _ _ _ _ _ _ _ I Hr Hu). }
  mrun HL. destruct (page_decref_run _ _ _ _ pp I Hrange Href) as (s1 & Hdec & Hmm1 & Htlb1 & Hm1 & Hfl1 & Hlk1 & Hr1).
  mrun Hdec. rewrite (bind_Ret _ _ _ _ _ (store64_kva u (PTX va) 0 s1 Hj)).
  rewrite tlb_invalidate_run by (apply kva_nz; lia).
  set (l' := if ref_of s pp =? 1 then pp :: l else l) in *.
  exists (flush (kva r 0) va (set_entry u (PTX va) 0 s1)), l'. split; [done|]. split; [|split; [done|]].
  - assert (forall q i, entry (flush (kva r 0) va (set_entry u (PTX va) 0 s1)) q i =
      if decide (u = q /\ PTX va = i) then 0 else entry s q i) as He.
    { intros q i. rewrite flush_entry, entry_set_entry. case_decide; [done|]. unfold entry. by rewrite Hm1. }
    assert (forall q, ref_of (flush (kva r 0) va (set_entry u (PTX va) 0 s1)) q =
      ref_of s q + cnt 0 q - cnt e q) as Href'.
    { intros q. rewrite flush_ref. change (ref_of s1 q = ref_of s q + cnt 0 q - cnt e q).
      rewrite Hr1, cnt_0, cnt_nz by done. fold pp. case_decide; lia. }
    assert (mm_only s (flush (kva r 0) va (set_entry u (PTX va) 0 s1))) as Hmm.
    { eapply mm_only_trans; [exact Hmm1|]. eapply mm_only_trans; [|apply flush_mm].
      unfold mm_only. by destruct s1. }
    split; try done. eapply (leaf_inv _ _ _ _ _ _ _ _ 0 _ _ _ I Hu0 Hj); try done.
    + by apply mm_only_npages.
    + by apply flush_free_list, (free_list_ok_ext s1).
    + intros q Hq. unfold link_of. rewrite flush_page_at. by apply Hlk1.
    + intros q. rewrite Href', cnt_0. fold e. pose proof (pi_ref _ _ _ _ I q). unfold cnt.
      case_decide as Hc; [|lia]. destruct Hc as [_ Hc]. change (pp = q) in Hc. rewrite <- Hc in *. lia.
  - unfold flush. rewrite <- (flushes_mm s (set_entry u (PTX va) 0 s1)).
    + destruct (flushes _ _); [|done]. cbn. by rewrite Htlb1.
    + eapply mm_only_trans; [exact Hmm1|]. unfold mm_only. by destruct s1.
Qed.

(** ** Inserting *)

(** The entry [page_insert] writes. *)
Definition mk_pte (pp perm : Z) : Z := pp * PGSIZE + Z.lor perm PTE_P.

Lemma perm_P_range perm : 0 <= perm < PGSIZE -> 0 < Z.lor perm PTE_P < PGSIZE.
Proof.
  intros H. pose proof (lor_range perm PTE_P 12 ltac:(lia) H ltac:(done)) as Hr.
  change (2 ^ 12) with PGSIZE in Hr. split; [|lia].
  destruct (decide (Z.lor perm PTE_P = 0)) as [H0|]; [|lia]. by apply Z.lor_eq_0_iff in H0 as [_ H0].
Qed.

Lemma mk_pte_PPN pp perm : 0 <= perm < PGSIZE -> PPN (mk_pte pp perm) = pp.
Proof. intros H. apply PPN_add. pose proof (perm_P_range perm H). lia. Qed.

Lemma mk_pte_nz pp perm : 0 <= pp -> 0 <= perm < PGSIZE -> mk_pte pp perm <> 0.
Proof. intros Hp H. unfold mk_pte. pose proof (perm_P_range perm H). unfold PGSIZE in *. lia. Qed.

Lemma mk_pte_lor pp perm : 0 <= perm < PGSIZE -> Z.lor (pp * PGSIZE) (Z.lor perm PTE_P) = mk_pte pp perm.
Proof. intros H. apply lor_flags. pose proof (perm_P_range perm H). lia. Qed.

Lemma leaf_step_trans k own l1 l2 l3 s1 s2 s3 u j v1 v2 :
  leaf_step k own l1 l2 s1 s2 u j v1 -> leaf_step k own l2 l3 s2 s3 u j v2 ->
  leaf_step k own l1 l3 s1 s3 u j v2.
Proof.
  intros [A1 A2 A3 A4] [B1 B2 B3 B4]. split; [by eapply mm_only_trans|done| |].
  - intros q i. rewrite B3, A3. by case_decide.
  - intros q. rewrite B4, A4, A3, decide_True by done. lia.
Qed.

Lemma leaf_step_flush k own l l' s s' u j v p va :
  leaf_step k own l l' s s' u j v -> leaf_step k own l l' s (flush p va s') u j v.
Proof.
  intros [A1 A2 A3 A4]. split.
  - eapply mm_only_trans; [done|apply flush_mm].
  - by apply flush_inv.
  - intros q i. by rewrite flush_entry.
  - intros q. by rewrite flush_ref.
Qed.

(** Filling an empty slot. *)
Lemma slot_fill k own l s u r a b j pp perm :
  pt_inv k own l s -> own !! u = Some (r, [0; a; b]) -> 0 <= j < 512 -> entry s u j = 0 ->
  0 <= pp < npages s -> own !! pp = None -> pp ∉ l -> ref_of s pp < 2 ^ 16 - 1 -> 0 <= perm < PGSIZE ->
  exists s',
    (do! store64 (kva u j) (page2pa pp) ;;
     let! e1 := load64 (kva u j) in
     do! store64 (kva u j) (Z.lor e1 (Z.lor perm PTE_P)) ;;
     do! upd_page pp (fun p => set_pp_ref (u16 (pp_ref p + 1)) p) ;;
     ret 0) s = Ret 0 s' /\ leaf_step k own l l s s' u j (mk_pte pp perm).
Proof.
  intros I Hu Hj He Hpp Hno Hpl Href Hperm. pose proof (pi_np _ _ _ _ I) as Hn.
  rewrite (bind_Ret _ _ _ _ _ (store64_kva u j _ s Hj)).
  rewrite (bind_Ret _ _ _ _ _ (load64_kva u j _ Hj)), entry_set_entry_eq.
  rewrite page2pa_eq, mk_pte_lor by (done || unfold npages_ok in Hn; lia).
  rewrite (bind_Ret _ _ _ _ _ (store64_kva u j _ _ Hj)).
  set (s1 := set_entry u j (mk_pte pp perm) (set_entry u j (pp * PGSIZE) s)).
  msteps. change (page_at s1 pp) with (page_at s pp). fold (ref_of s pp).
  pose proof (pi_ref _ _ _ _ I pp) as Hr0. rewrite u16_small by lia.
  eexists. split; [done|].
  assert (forall q, cnt (mk_pte pp perm) q = if decide (pp = q) then 1 else 0) as Hcnt.
  { intros q. unfold cnt. rewrite mk_pte_PPN by done. pose proof (mk_pte_nz pp perm ltac:(lia) Hperm).
    repeat case_decide; naive_solver. }
  set (s2 := set_pages _ s1).
  assert (forall q, page_at s2 q = if decide (pp = q) then set_pp_ref (ref_of s pp + 1) (page_at s pp) else page_at s q) as Hpg.
  { intros q. subst s2. by rewrite (page_at_upd s1). }
  assert (forall q, ref_of s2 q = ref_of s q + cnt (mk_pte pp perm) q - cnt (entry s u j) q) as Href2.
  { intros q. unfold ref_of at 1. rewrite Hpg, He, cnt_0, Hcnt. case_decide; subst; cbn; unfold ref_of; lia. }
  assert (forall q i, entry s2 q i = if decide (u = q /\ j = i) then mk_pte pp perm else entry s q i) as Hent.
  { intros q i. change (entry s2 q i) with (entry s1 q i). subst s1. rewrite !entry_set_entry. by case_decide. }
  split; [unfold mm_only; by destruct s| |done|done].
  eapply (leaf_inv _ _ _ _ _ _ _ _ (mk_pte pp perm) _ _ _ I Hu Hj); try done.
  - apply (free_list_ok_ext s); [done|done| |apply (pi_fl _ _ _ _ I)].
    intros q Hq. rewrite Hpg, decide_False; [done|]. by intros ->.
  - intros q Hq. unfold link_of. rewrite Hpg. pose proof (pi_link _ _ _ _ I q Hq).
    by case_decide; subst.
  - intros q. rewrite Href2, He, cnt_0, Hcnt. pose proof (pi_ref _ _ _ _ I q). case_decide; subst; lia.
  - intros _. by rewrite mk_pte_PPN.
Qed.

(** Changing the permissions of a mapping. *)
Lemma slot_reperm k own l s u r a b j e' :
  pt_inv k own l s -> own !! u = Some (r, [0; a; b]) -> 0 <= j < 512 ->
  entry s u j <> 0 -> e' <> 0 -> PPN e' = PPN (entry s u j) ->
  leaf_step k own l l s (set_entry u j e' s) u j e'.
Proof.
  intros I Hu Hj He He' HP.
  assert (forall q, cnt e' q = cnt (entry s u j) q) as Hc.
  { intros q. unfold cnt. rewrite HP. by repeat case_decide; naive_solver. }
  split.
  - unfold mm_only. by destruct s.
  - eapply (leaf_inv _ _ _ _ _ _ _ _ e' _ _ _ I Hu Hj); try done.
    + apply entry_set_entry.
    + intros q. rewrite Hc. change (ref_of (set_entry u j e' s) q) with (ref_of s q). lia.
    + apply (free_list_ok_ext s); try done. apply (pi_fl _ _ _ _ I).
    + apply (pi_link _ _ _ _ I).
    + apply (pi_ref _ _ _ _ I).
    + intros _. rewrite HP. by apply (pi_leaf _ _ _ _ I u r a b).
  - apply entry_set_entry.
  - intros q. rewrite Hc. change (ref_of (set_entry u j e' s) q) with (ref_of s q). lia.
Qed.

(** What [page_insert] does once the walk has found the slot. *)
Lemma page_insert_slot k own l s r u va pp perm :
  pt_inv k own l s -> own !! r = Some (r, []) -> PML4 va = 0 -> own !! u = Some (r, va_path va) ->
  0 < pp < npages s -> own !! pp = None -> pp ∉ l -> ref_of s pp < 2 ^ 16 - 1 -> 0 <= perm < PGSIZE ->
  exists s' l',
    (let! e := load64 (kva u (PTX va)) in
     if PTE_ADDR e =? page2pa pp then
       do! store64 (kva u (PTX va)) (Z.lor (Z.lor (PTE_ADDR e) perm) PTE_P) ;;
       do! tlb_invalidate (kva r 0) va ;;
       ret 0
     else
       do! (if nz e then
              do! page_remove (kva r 0) va ;;
              tlb_invalidate (kva r 0) va
            else ret tt) ;;
       do! store64 (kva u (PTX va)) (page2pa pp) ;;
       let! e1 := load64 (kva u (PTX va)) in
       do! store64 (kva u (PTX va)) (Z.lor e1 (Z.lor perm PTE_P)) ;;
       do! upd_page pp (fun p => set_pp_ref (u16 (pp_ref p + 1)) p) ;;
       ret 0) s = Ret 0 s' /\
    leaf_step k own l l' s s' u (PTX va) (mk_pte pp perm) /\
    (forall q, q ∈ l' -> q ∈ l \/ (entry s u (PTX va) <> 0 /\ q = PPN (entry s u (PTX va)) /\ q <> pp)) /\ (length l <= length l')%nat.
Proof.
  intros I Hr Hva Hu Hpp Hno Hpl Href Hperm. pose proof (PTX_range va) as Hj.
  assert (own !! u = Some (r, [0; PDPE va; PDX va])) as Hu0 by (by rewrite Hu; unfold va_path; rewrite Hva).
  pose proof (pi_tab _ _ _ _ I _ _ _ Hr) as (Hrr & _ & _).
  pose proof (pi_np _ _ _ _ I) as Hn. unfold npages_ok in Hn.
  rewrite (bind_Ret _ _ _ _ _ (load64_kva u _ s Hj)). set (e := entry s u (PTX va)).
  rewrite PTE_ADDR_eq, page2pa_eq by lia.
  destruct (Z.eqb_spec (PPN e * PGSIZE) (pp * PGSIZE)) as [Heq|Hneq].
  - assert (PPN e = pp) as HP by (unfold PGSIZE in Heq; lia).
    assert (e <> 0) as Hne. { intros H0. rewrite H0 in HP. change (PPN 0) with 0 in HP. lia. }
    rewrite (bind_Ret _ _ _ _ _ (store64_kva u _ _ s Hj)).
    rewrite <- Z.lor_assoc, HP, mk_pte_lor by done.
    rewrite (bind_Ret _ _ _ _ _ (tlb_invalidate_run (kva r 0) va _ ltac:(apply kva_nz; lia))).
    eexists _, l. split; [done|]. split; [|split; [by left|lia]]. apply leaf_step_flush.
    eapply slot_reperm; try done; [apply mk_pte_nz; lia|]. by rewrite mk_pte_PPN.
  - assert (PPN e <> pp) as HP by (intros HP; apply Hneq; by rewrite HP).
    unfold nz. destruct (Z.eqb_spec e 0) as [H0|Hne]; cbn [negb]; cbv iota; msteps.
    + destruct (slot_fill k own l s u r (PDPE va) (PDX va) (PTX va) pp perm) as (s' & Hrun & Hs); try done; [lia|].
      rewrite page2pa_eq in Hrun by lia. exists s', l. split; [done|]. split; [done|]. split; [by left|lia].
    + destruct (page_remove_run _ _ _ _ _ _ _ I Hr Hva Hu Hne) as (s1 & l1 & Hrem & Hs1 & Hl1 & _).
      rewrite (bind_Ret _ _ _ _ _ Hrem).
      rewrite (bind_Ret _ _ _ _ _ (tlb_invalidate_run (kva r 0) va _ ltac:(apply kva_nz; lia))).
      pose proof (leaf_step_flush _ _ _ _ _ _ _ _ _ (kva r 0) va Hs1) as Hs1'.
      set (s2 := flush (kva r 0) va s1) in *. fold e in Hl1.
      assert (forall q, q ∈ l1 -> q ∈ l \/ (e <> 0 /\ q = PPN e /\ q <> pp)) as Hl.
      { intros q. rewrite Hl1. destruct (_ =? 1); [|by left]. rewrite elem_of_cons. intros [->|]; [|by left].
        right. done. }
      destruct (slot_fill k own l1 s2 u r (PDPE va) (PDX va) (PTX va) pp perm) as (s' & Hrun & Hs); try done.
      * apply (ls_inv _ _ _ _ _ _ _ _ _ Hs1').
      * rewrite (ls_entry _ _ _ _ _ _ _ _ _ Hs1'). by rewrite decide_True.
      * rewrite (mm_only_npages _ _ (ls_mm _ _ _ _ _ _ _ _ _ Hs1')). lia.
      * intros Hin. destruct (Hl _ Hin) as [?|(_ & ? & ?)]; done.
      * rewrite (ls_ref _ _ _ _ _ _ _ _ _ Hs1'), cnt_0. unfold cnt. case_decide; lia.
      * rewrite page2pa_eq in Hrun by lia. exists s', l1. split; [done|]. split; [|split; [done|rewrite Hl1; destruct (_ =? 1); cbn; lia]].
        by eapply leaf_step_trans.
Qed.

(** The effect of a successful [page_insert]: tables may be added, and the map
    of address space [r] is updated at [va]. *)
Record inserted (k : Z) (own own' : owners) (l l' : list Z) (s s' : kstate) (r va v : Z) : Prop := {
  in_mm : mm_only s s';
  in_inv : pt_inv k own' l' s';
  in_own : own ⊆ own';
  in_own_out : forall q, q ∉ l -> own' !! q = own !! q;
  in_free : forall q, q ∈ l' -> q ∈ l \/ (pte_of s r va <> 0 /\ q = PPN (pte_of s r va) /\ q <> PPN v);
  in_pte : forall r' va', own !! r' = Some (r', []) -> priv k r' (PML4 va') ->
    pte_of s' r' va' = if decide (r = r' /\ va_idx va = va_idx va') then v else pte_of s r' va';
  in_ref : forall q, q ∉ l -> ref_of s' q = ref_of s q + cnt v q - cnt (pte_of s r va) q;
  in_mem : forall q i, q ∉ l -> (forall path, own !! q <> Some (r, path)) -> entry s' q i = entry s q i;
  in_keep : forall q i r' path, own !! q = Some (r', path) -> (length path < 3)%nat -> entry s q i <> 0 ->
    entry s' q i = entry s q i;
  in_slots : forall q x, user_slot own' s' q x -> user_slot own s q x \/ PPN v = q;
}.

(** When the page table is there no table is added, and the call succeeds. *)
Lemma page_insert_present k own l s r u va pp perm :
  pt_inv k own l s -> own !! r = Some (r, []) -> PML4 va = 0 -> own !! u = Some (r, va_path va) ->
  0 < pp < npages s -> own !! pp = None -> pp ∉ l -> ref_of s pp < 2 ^ 16 - 1 -> 0 <= perm < PGSIZE ->
  exists s' l', page_insert (kva r 0) pp va perm s = Ret 0 s' /\
    inserted k own own l l' s s' r va (mk_pte pp perm) /\ (length l <= length l')%nat /\
    (forall q i, q <> u -> entry s' q i = entry s q i).
Proof.
  intros I Hr Hva Hu Hpp Hno Hpl Href Hperm.
  pose proof (owned_descend _ _ _ _ _ _ _ I Hr Hu) as Hd.
  unfold page_insert. rewrite (bind_Ret _ _ _ _ _ (pml4e_walk_present k own l s r va I true u Hr (or_introl Hva) Hd)).
  destruct (page_insert_slot k own l s r u va pp perm) as (s' & l' & Hrun & Hs & Hfree & Hlen); try done.
  exists s', l'. split; [done|]. pose proof (pte_of_owned _ _ _ _ _ _ _ I Hr Hu) as He. rewrite <- He in Hfree.
  destruct Hs as [L1 L2 L3 L4]. rewrite <- He in L4. split; [|split; [done|]].
  - split; try done.
    + intros q Hin. rewrite mk_pte_PPN by done. by apply Hfree.
    + by eapply (leaf_reads k own l s).
    + intros q i Hql Ho. rewrite L3, decide_False; [done|]. intros [<- _]. by apply (Ho (va_path va)).
    + intros q i r' path Ho Hl3 _. rewrite L3, decide_False; [done|]. intros [<- _]. rewrite Hu in Ho.
      inversion Ho; subst. cbn in Hl3. lia.
    + intros q x Hx. destruct (leaf_user_slot _ _ _ _ _ _ _ _ L3 Hx) as [?|[_ ?]]; [by left|by right].
  - intros q i Hq. rewrite L3, decide_False; [done|]. naive_solver.
Qed.

Lemma page_insert_run k own l s r va pp perm :
  pt_inv k own l s -> own !! r = Some (r, []) -> PML4 va = 0 ->
  0 < pp < npages s -> own !! pp = None -> pp ∉ l -> ref_of s pp < 2 ^ 16 - 1 -> 0 <= perm < PGSIZE ->
  (exists s', page_insert (kva r 0) pp va perm s = Ret (- E_NO_MEM) s' /\
     pt_inv k own l s' /\ same_tables own s s' /\ walk_frame own r l s s' /\ (length l < 3)%nat) \/
  (exists s' own' l', page_insert (kva r 0) pp va perm s = Ret 0 s' /\
     inserted k own own' l l' s s' r va (mk_pte pp perm) /\ (length l <= length l' + 3)%nat).
Proof.
  intros I Hr Hva Hpp Hno Hpl Href Hperm.
  destruct (pml4e_walk_create k own l s r va I Hr (or_introl Hva)) as (res & s1 & Hw & Hf & Hpost).
  unfold page_insert. rewrite (bind_Ret _ _ _ _ _ Hw). destruct res as [a|]; cbn [walk_post] in Hpost.
  - right. destruct Hpost as (u & own1 & l1 & -> & I1 & Hu & Hsub & Hq & Hsuf & Hrd & Hll & Hus).
    assert (own1 !! r = Some (r, [])) as Hr1 by (by eapply lookup_weaken).
    assert (forall q, q ∈ l1 -> q ∈ l) as Hl1.
    { intros q. destruct Hsuf as [l0 ->]. lset. }
    assert (forall r' va', own !! r' = Some (r', []) -> priv k r' (PML4 va') -> pte_of s1 r' va' = pte_of s r' va') as Hsame.
    { intros r' va' Hr' Hp'. unfold pte_of. apply (Hrd r' r' []); [done|apply va_idx_ok|done|].
      intros j js' H. by inversion H; subst. }
    destruct (page_insert_slot k own1 l1 s1 r u va pp perm) as (s' & l' & Hrun & Hs & Hfree & Hlen); try done.
    { rewrite (mm_only_npages _ _ (wf_mm _ _ _ _ _ Hf)). done. }
    { by rewrite Hq. }
    { auto. }
    { unfold ref_of. by rewrite (wf_page _ _ _ _ _ Hf). }
    assert (entry s1 u (PTX va) = pte_of s r va) as He.
    { rewrite <- (Hsame r va Hr (or_introl Hva)). symmetry. by eapply pte_of_owned. }
    exists s', own1, l'. split; [done|]. split; [|cbn in Hll; lia]. split.
    + eapply mm_only_trans; [apply (wf_mm _ _ _ _ _ Hf)|apply (ls_mm _ _ _ _ _ _ _ _ _ Hs)].
    + apply (ls_inv _ _ _ _ _ _ _ _ _ Hs).
    + done.
    + done.
    + intros q Hin. rewrite mk_pte_PPN, <- He by done. destruct (Hfree q Hin) as [|(? & ? & ?)]; [left; auto|by right].
    + intros r' va' Hr' Hp'. rewrite <- (Hsame r' va') by done.
      eapply (leaf_reads k own1 l1 s1); try done; [apply (ls_entry _ _ _ _ _ _ _ _ _ Hs)|by eapply lookup_weaken].
    + intros q Hql. rewrite (ls_ref _ _ _ _ _ _ _ _ _ Hs), He. unfold ref_of. by rewrite (wf_page _ _ _ _ _ Hf).
    + intros q i Hql Ho. rewrite (ls_entry _ _ _ _ _ _ _ _ _ Hs), decide_False; [by apply (wf_mem _ _ _ _ _ Hf)|].
      intros [<- _]. rewrite Hq in Hu by done. by apply (Ho (va_path va)).
    + intros q i r' path Ho Hpl3 Hne. rewrite (ls_entry _ _ _ _ _ _ _ _ _ Hs), decide_False; [by eapply (wf_keep _ _ _ _ _ Hf)|].
      intros [<- _]. rewrite (lookup_weaken _ _ _ _ Ho Hsub) in Hu. inversion Hu; subst. cbn in Hpl3. lia.
    + intros q x Hx. destruct (leaf_user_slot _ _ _ _ _ _ _ _ (ls_entry _ _ _ _ _ _ _ _ _ Hs) Hx) as [?|[_ ?]]; [left; auto|by right].
  - left. destruct Hpost as (I1 & Hst & Hlen). exists s1. split; [done|]. by split_ands.
Qed.

(** ** Static mappings of the kernel *)

(** The entries of the kernel's part hold no counted reference. *)
Lemma kernel_slot_inv k own l s u r m a b j v :
  pt_inv k own l s -> own !! u = Some (r, [m; a; b]) -> m <> 0 -> pt_inv k own l (set_entry u j v s).
Proof.
  intros I Hu Hm.
  assert (forall q x, own !! q = Some x -> (length x.2 <> 3%nat \/ head x.2 = Some 0) ->
    forall i, entry (set_entry u j v s) q i = entry s q i) as Hup.
  { intros q x Hq Hx i. apply entry_set_entry_ne. left. intros ->. rewrite Hu in Hq. inversion Hq; subst.
    destruct Hx as [Hx|Hx]; [done|]. by inversion Hx. }
  assert (forall p x, user_slot own (set_entry u j v s) p x -> user_slot own s p x) as Hus.
  { intros p x (H1 & (r0 & a0 & b0 & H2) & H3). split; [done|]. split; [by exists r0, a0, b0|].
    rewrite (Hup _ _ H2) in H3 by (by right). done. }
  pose proof I as [I1 I2 I3 I4 I5 I6 I7 I8 I9 I10 I11 I12]. split; try done.
  - by apply (free_list_ok_ext s).
  - intros t r0 path i Ht Hl. rewrite (Hup _ _ Ht) by (left; cbn; lia). by apply I8.
  - intros t r0 path i Ht. pose proof (I9 _ _ _ _ Ht) as (Hs & t' & Ht' & H). split; [done|].
    exists t'. rewrite (Hup _ _ Ht'); [done|]. left. cbn.
    apply I5 in Ht as (_ & _ & Ht). rewrite length_app in Ht. cbn in Ht. lia.
  - intros t r0 a0 b0 i Ht Hi. rewrite (Hup _ _ Ht) by (by right). by apply (I10 _ _ _ _ _ Ht).
  - intros p L Hnd HL. change (ref_of (set_entry u j v s) p) with (ref_of s p). apply I11; [done|].
    eapply Forall_impl; [exact HL|]. apply Hus.
  - intros t r0 path i Ht Hl. rewrite (Hup _ _ Ht) by (left; cbn; lia). by apply I12.
Qed.

(** Page [i] of the region [la] of the kernel's space. *)
Definition region_page (la i : Z) : Z := la + i * PGSIZE.

Lemma region_page_PML4 la i :
  2 ^ 39 <= la -> 0 <= i -> la + (i + 1) * PGSIZE <= 2 ^ 40 -> PML4 (region_page la i) = 1.
Proof.
  intros H1 H2 H3. unfold region_page, PGSIZE in *. rewrite PML4_eq.
  assert ((la + i * 4096) / 2 ^ 39 = 1) as ->; [|done].
  symmetry. apply (Z.div_unique _ _ 1 (la + i * 4096 - 2 ^ 39)); lia.
Qed.

Lemma region_page_inj la i i' :
  0 <= la -> 0 <= i -> 0 <= i' -> la + (i + 1) * PGSIZE <= 2 ^ 40 -> la + (i' + 1) * PGSIZE <= 2 ^ 40 ->
  va_idx (region_page la i) = va_idx (region_page la i') -> i = i'.
Proof.
  intros H0 H1 H2 H3 H4 Heq. unfold region_page, PGSIZE in *.
  apply va_idx_page in Heq; [|lia|lia]. unfold PGSIZE in Heq. rewrite !Z.div_add in Heq by lia. lia.
Qed.

(** The table for [va] in the kernel's space is there, or up to three tables
    are allocated. *)
Lemma walk_kernel k own l s va c :
  pt_inv k own l s -> own !! k = Some (k, []) -> PML4 va = 1 ->
  (c = 3%nat /\ (3 <= length l)%nat \/ c = 0%nat /\ exists u, own !! u = Some (k, va_path va)) ->
  exists u s' own' l', pml4e_walk (kva k 0) va true s = Ret (Some (kva u (PTX va))) s' /\ mm_only s s' /\
    pt_inv k own' l' s' /\ own' !! u = Some (k, va_path va) /\ own ⊆ own' /\ (forall q, q ∉ l -> own' !! q = own !! q) /\
    l' `suffix_of` l /\ (length l <= length l' + c)%nat /\ reads_same k own s s' /\
    (forall q, q ∉ l -> page_at s' q = page_at s q).
Proof.
  intros I Hk Hva [[-> Hlen]|[-> [u Hu]]]; assert (priv k k (PML4 va)) as Hp by (right; done).
  - destruct (pml4e_walk_create k own l s k va I Hk Hp) as (res & s1 & Hw & Hf & Hpost). destruct res as [a|].
    + destruct Hpost as (u & own1 & l1 & -> & I1 & Hu & Hsub & Hq & Hsuf & Hrd & Hll & _). exists u, s1, own1, l1.
      split_ands; try done; [apply (wf_mm _ _ _ _ _ Hf)|apply (wf_page _ _ _ _ _ Hf)].
    + destruct Hpost as (_ & _ & H). cbn in H. lia.
  - pose proof (owned_descend k own l s k u (va_path va) I Hk Hu) as Hd. exists u, s, own, l. split; [by eapply pml4e_walk_present|].
    split_ands; try done; [apply mm_only_refl|lia].
Qed.

(** One round of [boot_map_region]. *)
Lemma boot_map_round k own l s va e perm c :
  pt_inv k own l s -> own !! k = Some (k, []) -> PML4 va = 1 ->
  (c = 3%nat /\ (3 <= length l)%nat \/ c = 0%nat /\ exists u, own !! u = Some (k, va_path va)) ->
  0 <= perm < PGSIZE ->
  exists s' own' l',
    (let! ventry := pml4e_walk (kva k 0) va true in
     match ventry with
     | Some v =>
         do! store64 v (PTE_ADDR e) ;;
         let! e := load64 v in
         store64 v (Z.lor e (Z.lor perm PTE_P))
     | None => ret tt
     end) s = Ret tt s' /\ mm_only s s' /\
    pt_inv k own' l' s' /\ own ⊆ own' /\ (forall q, q ∉ l -> own' !! q = own !! q) /\
    l' `suffix_of` l /\ (length l <= length l' + c)%nat /\ (exists u, own' !! u = Some (k, va_path va)) /\
    (forall q, q ∉ l -> page_at s' q = page_at s q) /\
    forall r' va', own !! r' = Some (r', []) -> priv k r' (PML4 va') ->
      pte_of s' r' va' = if decide (k = r' /\ va_idx va = va_idx va') then mk_pte (PPN e) perm else pte_of s r' va'.
Proof.
  intros I Hk Hva Hc Hperm.
  destruct (walk_kernel k own l s va c I Hk Hva Hc) as (u & s1 & own1 & l1 & Hw & Hmm & I1 & Hu & Hsub & Hq & Hsuf & Hll & Hrd & Hpg).
  rewrite (bind_Ret _ _ _ _ _ Hw). pose proof (PTX_range va) as Hj.
  rewrite (bind_Ret _ _ _ _ _ (store64_kva u _ _ s1 Hj)).
  rewrite (bind_Ret _ _ _ _ _ (load64_kva u _ _ Hj)), entry_set_entry_eq, (store64_kva u _ _ _ Hj).
  rewrite PTE_ADDR_eq, mk_pte_lor by done.
  assert (own1 !! u = Some (k, [1; PDPE va; PDX va])) as Hu1 by (rewrite Hu; unfold va_path; by rewrite Hva).
  eexists _, own1, l1. split; [done|].
  split. { eapply mm_only_trans; [exact Hmm|]. unfold mm_only. by destruct s1. }
  split. { eapply kernel_slot_inv; [by eapply kernel_slot_inv|done|done]. }
  split_ands; try done.
  - by exists u.
  - intros r' va' Hr' Hp'.
    assert (pte_of s1 r' va' = pte_of s r' va') as <-.
    { unfold pte_of. apply (Hrd r' r' []); [done|apply va_idx_ok|done|]. intros j js' H. by inversion H; subst. }
    eapply (leaf_reads k own1 l1 s1); try done; [by eapply lookup_weaken| |by eapply lookup_weaken].
    intros q i. rewrite !entry_set_entry. by case_decide.
Qed.

(** The last-level tables of the [n] pages from page [b]; of them those that
    are still missing before round [i]. *)
Definition tables_of (b n : Z) : Z := if 0 <? n then (b + n - 1) / 512 - b / 512 + 1 else 0.
Definition tables_left (b n i : Z) : Z := if i =? 0 then tables_of b n else (b + n - 1) / 512 - (b + i - 1) / 512.

Lemma tables_of_le b n : 0 <= n -> 0 <= tables_of b n <= n.
Proof. intros Hn. unfold tables_of. destruct (Z.ltb_spec 0 n); [|lia]. Z.to_euclidean_division_equations. lia. Qed.

Lemma tables_left_step b n i : 0 <= i < n ->
  0 <= tables_left b n (i + 1) /\ (tables_left b n (i + 1) + 1 = tables_left b n i \/
  i <> 0 /\ (b + i) / 512 = (b + (i - 1)) / 512 /\ tables_left b n (i + 1) = tables_left b n i).
Proof.
  intros Hi. unfold tables_left, tables_of. destruct (Z.eqb_spec (i + 1) 0); [lia|]. destruct (Z.eqb_spec i 0) as [->|].
  - destruct (Z.ltb_spec 0 n); [|lia]. replace (b + (0 + 1) - 1) with b by lia. Z.to_euclidean_division_equations. lia.
  - replace (b + (i + 1) - 1) with (b + i) by lia. replace (b + (i - 1)) with (b + i - 1) by lia. Z.to_euclidean_division_equations. lia.
Qed.

Lemma va_path_table va va' : va / PGSIZE / 512 = va' / PGSIZE / 512 -> va_path va = va_path va'.
Proof.
  unfold va_path, PGSIZE. rewrite !PML4_eq, !PDPE_eq, !PDX_eq. change (2 ^ 39) with (4096 * 512 * (512 * 512)). change (2 ^ 30) with (4096 * 512 * 512). change (2 ^ 21) with (4096 * 512).
  rewrite <- !(Z.div_div _ (4096 * 512)), <- !(Z.div_div _ 4096 512) by lia. by intros ->.
Qed.

Lemma boot_map_region_run k own l s la n pa perm :
  pt_inv k own l s -> own !! k = Some (k, []) -> 0 <= n -> 2 ^ 39 <= la -> la + n * PGSIZE <= 2 ^ 40 ->
  0 <= pa -> pa + n * PGSIZE <= 2 ^ 64 -> 3 * tables_of (la / PGSIZE) n <= Z.of_nat (length l) -> 0 <= perm < PGSIZE ->
  exists s' own' l', boot_map_region (kva k 0) la (n * PGSIZE) pa perm s = Ret tt s' /\
    mm_only s s' /\ pt_inv k own' l' s' /\ own ⊆ own' /\ l' `suffix_of` l /\
    Z.of_nat (length l) <= Z.of_nat (length l') + 3 * tables_of (la / PGSIZE) n /\
    (forall q, q ∉ l -> page_at s' q = page_at s q) /\
    (forall i, 0 <= i < n -> pte_of s' k (region_page la i) = mk_pte (PPN (pa + i * PGSIZE)) perm) /\
    (forall r' va', own !! r' = Some (r', []) -> priv k r' (PML4 va') ->
       ~ (r' = k /\ exists i, 0 <= i < n /\ va_idx (region_page la i) = va_idx va') ->
       pte_of s' r' va' = pte_of s r' va').
Proof.
  intros I Hk Hn Hla Hend Hpa Hpaend Hlen Hperm. unfold boot_map_region. set (b := la / PGSIZE) in *.
  assert ((n * PGSIZE + PGSIZE - 1) / PGSIZE = n) as ->.
  { symmetry. unfold PGSIZE. apply (Z.div_unique _ _ n 4095); lia. }
  destruct (forM_inv (fun pre s' => let i := Z.of_nat (length pre) in exists own' l', mm_only s s' /\ pt_inv k own' l' s' /\ own ⊆ own' /\
      Z.of_nat (length l) + 3 * tables_left b n i <= Z.of_nat (length l') + 3 * tables_of b n /\ l' `suffix_of` l /\
      (i <> 0 -> exists u, own' !! u = Some (k, va_path (region_page la (i - 1)))) /\
      (forall q, q ∉ l -> page_at s' q = page_at s q) /\
      (forall j, 0 <= j < i -> pte_of s' k (region_page la j) = mk_pte (PPN (pa + j * PGSIZE)) perm) /\
      (forall r' va', own !! r' = Some (r', []) -> priv k r' (PML4 va') ->
        ~ (r' = k /\ exists i, 0 <= i < n /\ va_idx (region_page la i) = va_idx va') ->
        pte_of s' r' va' = pte_of s r' va')) (seqZ 0 n)
      (fun k0 => let i := k0 * PGSIZE in
         let! ventry := pml4e_walk (kva k 0) (u64 (la + i)) true in
         match ventry with
         | Some v => do! store64 v (PTE_ADDR (u64 (pa + i))) ;;
                     let! e := load64 v in store64 v (Z.lor e (Z.lor perm PTE_P))
         | None => ret tt
         end) s) as (s' & Hrun & Hinv).
  - intros pre x post s1 Hsplit (own1 & l1 & Hmm & I1 & Hsub & Hl1 & Hsuf & Htab & Hpg & Hmap & Hoth).
    apply seqZ_split in Hsplit as [Hx Hxn]. rewrite Z.add_0_l in Hx. rewrite Hx. clear Hx x post.
    rewrite length_app. cbn [length]. rewrite Nat2Z.inj_add. change (Z.of_nat 1) with 1. set (i := Z.of_nat (length pre)) in *. cbv zeta.
    rewrite !u64_small by (unfold PGSIZE in *; lia). fold (region_page la i).
    assert (forall i', 0 <= i' < n -> PML4 (region_page la i') = 1) as HP1.
    { intros i' Hi'. apply region_page_PML4; unfold PGSIZE in *; lia. }
    assert (forall i', region_page la i' / PGSIZE = b + i') as Hb. { intros i'. unfold region_page, b. by rewrite Z.div_add. }
    destruct (tables_left_step b n i) as [Hpos Hstep]; [lia|].
    assert (exists c, (c = 3%nat /\ (3 <= length l1)%nat \/ c = 0%nat /\ exists u, own1 !! u = Some (k, va_path (region_page la i))) /\
      Z.of_nat c + 3 * tables_left b n (i + 1) = 3 * tables_left b n i) as (c & Hc & Hct).
    { destruct Hstep as [Hs|(Hi0 & Hs & Ht)].
      - exists 3%nat. split; [|lia]. left. split; [done|]. lia.
      - exists 0%nat. split; [|lia]. right. split; [done|]. destruct (Htab Hi0) as [u Hu]. exists u. rewrite Hu. do 2 f_equal. apply va_path_table. by rewrite !Hb. }
    destruct (boot_map_round k own1 l1 s1 (region_page la i) (pa + i * PGSIZE) perm c)
      as (s2 & own2 & l2 & Hrun & Hmm2 & I2 & Hsub2 & Hq2 & Hsuf2 & Hl2 & Hu2 & Hpg2 & Hpte2); try done.
    { by eapply lookup_weaken. } { apply HP1. lia. }
    exists s2. split; [done|]. exists own2, l2. split; [by eapply mm_only_trans|]. split; [done|].
    assert (forall q, q ∉ l -> q ∉ l1) as Hqq. { intros q Hq Hin. apply Hq. destruct Hsuf as [l0 ->]. lset. }
    split_ands; try lia.
    + by transitivity own1.
    + by transitivity l1.
    + intros _. by replace (i + 1 - 1) with i by lia.
    + intros q Hq. rewrite Hpg2 by auto. auto.
    + intros i' Hi'. rewrite Hpte2; [|by eapply lookup_weaken|right; split; [done|apply HP1; lia]].
      case_decide as Hd.
      * destruct Hd as [_ Hd]. apply region_page_inj in Hd; [by subst i'|unfold PGSIZE in *; lia..].
      * apply Hmap. assert (i' <> i); [|lia]. intros ->. by apply Hd.
    + intros r' va' Hr' Hp' Hnot. rewrite Hpte2; [|by eapply lookup_weaken|done].
      rewrite decide_False; [by apply Hoth|]. intros [<- Hd]. apply Hnot. split; [done|]. exists i. split; [lia|done].
  - exists own, l. split; [apply mm_only_refl|]. cbn [length]. unfold tables_left. split_ands; try done; lia.
  - destruct Hinv as (own' & l' & ? & ? & ? & Hl & ? & _ & ? & Hmap & ?). exists s', own', l'. split; [done|]. rewrite length_seqZ in *.
    split_ands; try done; [|intros i Hi; apply Hmap; lia]. assert (0 <= tables_left b n (Z.of_nat (Z.to_nat n))); [|lia].
    destruct (decide (n = 0)) as [->|]; [done|]. destruct (tables_left_step b n (n - 1)) as [Hge _]; [lia|]. replace (Z.of_nat (Z.to_nat n)) with (n - 1 + 1) by lia. done.
Qed.

(** ** Checking user memory *)

(** The body of the loop of [user_mem_check]. *)
Definition user_mem_check_round (env va end_ perm start : Z) : K (Z + Z) :=
  if start <? end_ then
    let! pml4e := gets (fun s => env_pml4e (env_at s env)) in
    let! r := page_lookup pml4e start in
    let fault :=
      do! modify (set_user_mem_check_addr va) ;;
      do! modify (set_user_mem_check_addr (if start <? va then va else start)) ;;
      ret (inr (- E_FAULT)) in
    match r with
    | None => fault
    | Some (_, page) =>
        let! e := load64 page in
        if negb (Z.land e perm =? perm) || (ULIM <=? start) then fault
        else ret (inl (u64 (start + PGSIZE)))
    end
  else ret (inr 0).

(** A page the environment may access. *)
Definition page_grants (s : kstate) (r perm n : Z) : bool := Z.land (pte_of s r (n * PGSIZE)) perm =? perm.

Section Check.
Context (k : Z) (own : owners) (l : list Z) (s : kstate) (r env va perm : Z).
Context (I : pt_inv k own l s) (Hr : own !! r = Some (r, [])) (Henv : env_pml4e (env_at s env) = kva r 0).
Context (Hperm : perm <> 0).

Lemma user_page_PML4 n : 0 <= n -> (n + 1) * PGSIZE <= 2 ^ 39 -> PML4 (n * PGSIZE) = 0.
Proof using Type. intros H1 H2. rewrite PML4_eq. unfold PGSIZE in *. by rewrite Z.div_small by lia. Qed.

Lemma user_mem_check_round_run end_ n :
  0 <= n -> (n + 1) * PGSIZE <= 2 ^ 39 -> n * PGSIZE < end_ ->
  user_mem_check_round env va end_ perm (n * PGSIZE) s =
  if page_grants s r perm n then Ret (inl ((n + 1) * PGSIZE)) s
  else Ret (inr (- E_FAULT)) (set_user_mem_check_addr (Z.max va (n * PGSIZE)) s).
Proof using All.
  intros Hn Hhi Hend. pose proof (user_page_PML4 n Hn Hhi) as Hva.
  pose proof (pi_tab _ _ _ _ I _ _ _ Hr) as (Hrr & _ & _).
  unfold user_mem_check_round. destruct (Z.ltb_spec (n * PGSIZE) end_); [|lia].
  msteps. rewrite Henv.
  assert (pte_of s r (n * PGSIZE) <> 0 -> 0 <= PPN (pte_of s r (n * PGSIZE)) < npages s) as Hrange.
  { rewrite pte_of_descend. destruct (descend s r (va_path (n * PGSIZE))) as [u|] eqn:Hd; [|done]. intros Hne.
    pose proof (va_descend_owned _ _ _ _ _ _ _ I Hr (or_introl Hva) Hd) as Hu. unfold va_path in Hu. rewrite Hva in Hu.
    by destruct (pi_leaf _ _ _ _ I _ _ _ _ _ Hu (PTX_range _) Hne). }
  rewrite (bind_Ret _ _ _ _ _ (page_lookup_run _ _ _ _ _ _ I Hr (or_introl Hva) ltac:(lia) Hrange)).
  unfold page_grants. rewrite pte_of_descend.
  assert ((if n * PGSIZE <? va then va else n * PGSIZE) = Z.max va (n * PGSIZE)) as ->.
  { destruct (Z.ltb_spec (n * PGSIZE) va); lia. }
  destruct (descend s r (va_path (n * PGSIZE))) as [u|] eqn:Hd; cbn [fmap option_fmap option_map].
  - rewrite (bind_Ret _ _ _ _ _ (load64_kva u _ s (PTX_range _))).
    destruct (Z.leb_spec ULIM (n * PGSIZE)) as [Hu|_].
    { change ULIM with 0x8003C00000 in Hu. unfold PGSIZE in *. lia. }
    rewrite orb_false_r. destruct (_ =? perm); cbn [negb]; [|done].
    unfold ret. rewrite u64_small; [do 2 f_equal; ring|]. unfold PGSIZE in *. lia.
  - rewrite Z.land_0_l. by destruct (Z.eqb_spec 0 perm).
Qed.

(** The loop over [m] pages from page [n] on. *)
Lemma user_mem_check_loop fuel m n :
  0 <= n -> (n + Z.of_nat m) * PGSIZE <= 2 ^ 39 -> (m < fuel)%nat ->
  loop fuel (user_mem_check_round env va ((n + Z.of_nat m) * PGSIZE) perm) (n * PGSIZE) s =
  match list_find (fun i => page_grants s r perm i = false) (seqZ n (Z.of_nat m)) with
  | None => Ret 0 s
  | Some (_, i) => Ret (- E_FAULT) (set_user_mem_check_addr (Z.max va (i * PGSIZE)) s)
  end.
Proof using All.
  revert fuel n. induction m as [|m IH]; intros fuel n Hn Hhi Hfuel; (destruct fuel as [|fuel]; [lia|]); cbn [loop].
  - unfold user_mem_check_round at 1. destruct (Z.ltb_spec (n * PGSIZE) ((n + Z.of_nat 0) * PGSIZE)); [unfold PGSIZE in *; lia|].
    done.
  - unfold bind. rewrite user_mem_check_round_run by (unfold PGSIZE in *; lia).
    rewrite (seqZ_cons n) by lia. cbn [list_find].
    destruct (page_grants s r perm n) eqn:Hg.
    + rewrite decide_False by done.
      replace (n + Z.of_nat (S m)) with (Z.succ n + Z.of_nat m) by lia. unfold Z.succ.
      rewrite IH by (unfold PGSIZE in *; lia). unfold Z.succ.
      replace (Z.pred (Z.of_nat (S m))) with (Z.of_nat m) by lia.
      by destruct (list_find _ _) as [[??]|].
    + by rewrite decide_True.
Qed.
End Check.

Lemma user_mem_check_run k own l s r env va len perm :
  pt_inv k own l s -> own !! r = Some (r, []) -> env_pml4e (env_at s env) = kva r 0 ->
  0 <= va -> 0 <= len -> va + len <= 2 ^ 39 ->
  user_mem_check env va len perm s =
  match list_find (fun i => page_grants s r (Z.lor perm PTE_P) i = false)
          (seqZ (va / PGSIZE) ((va + len + PGSIZE - 1) / PGSIZE - va / PGSIZE)) with
  | None => Ret 0 s
  | Some (_, i) => Ret (- E_FAULT) (set_user_mem_check_addr (Z.max va (i * PGSIZE)) s)
  end.
Proof.
  intros I Hr Henv Hva Hlen Hhi. unfold user_mem_check.
  assert (PGSIZE = 4096) as HPG by done.
  rewrite (u64_small (va + len)), ROUNDDOWN_eq, ROUNDUP_eq by lia.
  fold (user_mem_check_round env va ((va + len + PGSIZE - 1) / PGSIZE * PGSIZE) (Z.lor perm PTE_P)).
  set (n := va / PGSIZE). set (e := (va + len + PGSIZE - 1) / PGSIZE).
  assert (0 <= n) as Hn by (apply Z.div_pos; lia).
  assert (n <= e) as Hne by (apply Z.div_le_mono; lia).
  assert (e * PGSIZE <= 2 ^ 39) as He.
  { assert (e < 2 ^ 27 + 1); [|lia]. apply Z.div_lt_upper_bound; lia. }
  replace ((e * PGSIZE - n * PGSIZE) / PGSIZE) with (e - n).
  2: { rewrite <- Z.mul_sub_distr_r, Z.div_mul by lia. done. }
  pose proof (user_mem_check_loop k own l s r env va (Z.lor perm PTE_P) I Hr Henv) as HL.
  assert (Z.lor perm PTE_P <> 0) as Hp0. { intros H0. by apply Z.lor_eq_0_iff in H0 as [_ H0]. }
  specialize (HL Hp0 (S (Z.to_nat (e - n))) (Z.to_nat (e - n)) n Hn).
  rewrite Z2Nat.id in HL by lia. replace (n + (e - n)) with e in HL by lia. apply HL; lia.
Qed.
