(* ===== verification/PageTableProps.v ===== *)
(** The properties of the page-table operations of kern/pmap.c, each with a run
    on a concrete machine. *)

From S2P Require Import Prelude Kernel PageAlloc PageTable PageTableInv PageTableSpec.

(** ** Two concrete machines

    [demo] has an empty address space with top-level table 10, page 11 allocated
    and pages 3, 5, 6, 7 free; in [demo_mapped] page 11 is mapped at address 0
    through tables 3, 5 and 6, page 7 is free and page 12 is allocated. *)

Definition demo_pages : gmap Z PageInfo :=
  {[ 3 := mkPageInfo (Some 5) 0; 5 := mkPageInfo (Some 6) 0; 6 := mkPageInfo (Some 7) 0;
     10 := mkPageInfo None 1 ]}.
Definition demo : kstate :=
  set_envs {[ 0 := set_env_pml4e (kva 10 0) Env0 ]}
    (set_page_free_list (Some 3) (set_pages demo_pages (machine 16 (KERNBASE + 0x10000)))).
Definition demo_own : owners := {[ 10 := (10, []) ]}.
Definition demo_free : list Z := [3; 5; 6; 7].

Definition mapped_mem : gmap Z (gmap Z Z) :=
  {[ 10 := {[ 0 := 3 * PGSIZE + PTE_USER ]}; 3 := {[ 0 := 5 * PGSIZE + PTE_USER ]};
     5 := {[ 0 := 6 * PGSIZE + PTE_USER ]}; 6 := {[ 0 := 11 * PGSIZE + 7 ]} ]}.
Definition demo_mapped : kstate :=
  set_mem mapped_mem
  (set_pages {[ 3 := mkPageInfo None 1; 5 := mkPageInfo None 1; 6 := mkPageInfo None 1;
                10 := mkPageInfo None 1; 11 := mkPageInfo None 1; 12 := mkPageInfo None 1 ]}
  (set_page_free_list (Some 7) demo)).
Definition mapped_own : owners :=
  {[ 10 := (10, []); 3 := (10, [0]); 5 := (10, [0; 0]); 6 := (10, [0; 0; 0]) ]}.

Lemma demo_entry t i : entry demo t i = 0.
Proof. unfold entry. cbn. by rewrite lookup_empty. Qed.

Lemma demo_owned t x : demo_own !! t = Some x -> t = 10 /\ x = (10, []).
Proof. unfold demo_own. rewrite lookup_singleton_Some. naive_solver. Qed.

Lemma page_at_cases (m : gmap Z PageInfo) s (P : PageInfo -> Prop) :
  pages s = m -> map_Forall (fun _ => P) m -> P PageInfo0 -> forall p, P (page_at s p).
Proof.
  intros <- Hm H0 p. unfold page_at. destruct (pages s !! p) as [x|] eqn:E; [|done]. by apply (Hm p).
Qed.

Lemma demo_inv : pt_inv 10 demo_own demo_free demo.
Proof.
  split.
  - done.
  - split; try done.
    + intros a Ha. inversion Ha; subst. by left.
    + apply (bool_decide_unpack _). by vm_compute.
    + intros p Hp. assert (p = 3 \/ p = 5 \/ p = 6 \/ p = 7) as Hc by (unfold demo_free in *; set_solver).
      by destruct Hc as [->|[->|[->| ->]]].
  - intros p Hp. unfold link_of, page_at. change (pages demo) with demo_pages.
    unfold demo_pages. rewrite !lookup_insert_ne by (unfold demo_free in *; set_solver).
    destruct (decide (10 = p)) as [<-|]; [done|]. by rewrite lookup_singleton_ne.
  - apply (page_at_cases demo_pages demo (fun x => 0 <= pp_ref x < 2 ^ 16)); try done.
    apply (bool_decide_unpack _). by vm_compute.
  - intros t r path H. apply demo_owned in H as [-> H]. inversion H; subst. cbn. split_ands; (done || lia).
  - intros t t' x H1 H2. by apply demo_owned in H1 as [-> _], H2 as [-> _].
  - intros t r H. apply demo_owned in H as [-> H]. by inversion H.
  - intros t r path i _ _ _ _ H. by rewrite demo_entry in H.
  - intros t r path i H. apply demo_owned in H as [_ H]. inversion H as [[H1 H2]]. by destruct path.
  - intros t r a b i _ _ H. by rewrite demo_entry in H.
  - intros p L _ HL. destruct L as [|x L].
    + apply (page_at_cases demo_pages demo (fun x => 0 <= pp_ref x)); try done.
      apply (bool_decide_unpack _). by vm_compute.
    + apply Forall_cons in HL as [(_ & _ & H & _) _]. by rewrite demo_entry in H.
  - intros t r path i _ _ _ _ H. by rewrite demo_entry in H.
Qed.

Lemma mapped_entry t i : entry demo_mapped t i <> 0 ->
  i = 0 /\ (t = 10 \/ t = 3 \/ t = 5 \/ t = 6).
Proof.
  unfold entry. change (mem demo_mapped) with mapped_mem. unfold mapped_mem. intros H.
  assert (forall v, default 0 (({[0 := v]} : gmap Z Z) !! i) <> 0 -> i = 0) as Hs.
  { intros v Hv. destruct (decide (0 = i)) as [|Hn]; [done|]. by rewrite lookup_singleton_ne in Hv. }
  destruct (decide (10 = t)) as [<-|H10]; [rewrite lookup_insert_eq in H; apply Hs in H; auto|rewrite lookup_insert_ne in H by done].
  destruct (decide (3 = t)) as [<-|H3]; [rewrite lookup_insert_eq in H; apply Hs in H; auto|rewrite lookup_insert_ne in H by done].
  destruct (decide (5 = t)) as [<-|H5]; [rewrite lookup_insert_eq in H; apply Hs in H; auto|rewrite lookup_insert_ne in H by done].
  destruct (decide (6 = t)) as [<-|H6]; [rewrite lookup_singleton_eq in H; apply Hs in H; auto|].
  by rewrite lookup_singleton_ne in H.
Qed.

Lemma mapped_owned t x : mapped_own !! t = Some x ->
  (t = 10 /\ x = (10, [])) \/ (t = 3 /\ x = (10, [0])) \/ (t = 5 /\ x = (10, [0; 0])) \/ (t = 6 /\ x = (10, [0; 0; 0])).
Proof.
  unfold mapped_own. rewrite !lookup_insert_Some, lookup_singleton_Some. naive_solver.
Qed.

Lemma mapped_inv : pt_inv 10 mapped_own [7] demo_mapped.
Proof.
  split.
  - done.
  - split; try done.
    + intros a Ha. inversion Ha; subst. by left.
    + apply NoDup_singleton.
    + intros p Hp. by assert (p = 7) as -> by set_solver.
  - intros p _. by apply (page_at_cases _ demo_mapped (fun x => pp_link x = None) eq_refl); [apply (bool_decide_unpack _); vm_compute|].
  - apply (page_at_cases _ demo_mapped (fun x => 0 <= pp_ref x < 2 ^ 16) eq_refl); try done.
    apply (bool_decide_unpack _). by vm_compute.
  - intros t r path H. apply mapped_owned in H as [[-> H]|[[-> H]|[[-> H]|[-> H]]]]; inversion H; subst; cbn; split_ands; (done || lia).
  - intros t t' x H1 H2. apply mapped_owned in H1, H2. naive_solver.
  - intros t r H. apply mapped_owned in H. naive_solver.
  - intros t r path i Ht Hl _ _ H. apply mapped_entry in H as [-> H].
    apply mapped_owned in Ht as [[-> Hx]|[[-> Hx]|[[-> Hx]|[-> Hx]]]]; inversion Hx; subst; try reflexivity.
    cbn in Hl. lia.
  - intros t r path i Ht. apply mapped_owned in Ht as [[-> Hx]|[[-> Hx]|[[-> Hx]|[-> Hx]]]]; inversion Hx as [[Hr Hp]]; subst r.
    + by destruct path.
    + change [0] with ([] ++ [0]) in Hp. apply app_inj_tail in Hp as [-> ->]. split; [by left|]. by exists 10.
    + change [0; 0] with ([0] ++ [0]) in Hp. apply app_inj_tail in Hp as [-> ->]. split; [done|]. by exists 3.
    + change [0; 0; 0] with ([0; 0] ++ [0]) in Hp. apply app_inj_tail in Hp as [-> ->]. split; [done|]. by exists 5.
  - intros t r a b i Ht _ H. apply mapped_entry in H as [-> _].
    apply mapped_owned in Ht as [[-> Hx]|[[-> Hx]|[[-> Hx]|[-> Hx]]]]; inversion Hx; subst. done.
  - intros p L Hnd HL. destruct L as [|x L].
    { apply (page_at_cases _ demo_mapped (fun x => 0 <= pp_ref x) eq_refl); try done.
      apply (bool_decide_unpack _). by vm_compute. }
    assert (forall x, x ∈ x :: L -> user_slot mapped_own demo_mapped p x -> x = (6, 0) /\ p = 11) as Hone.
    { intros [t i] _ (_ & (r & a & b & Ho) & Hne & <-). apply mapped_entry in Hne as [Hi _]. cbn in *. subst i.
      apply mapped_owned in Ho as [[-> Hx]|[[-> Hx]|[[-> Hx]|[-> Hx]]]]; by inversion Hx. }
    apply Forall_cons in HL as [Hx HL]. destruct (Hone x) as [-> ->]; [set_solver|done|].
    destruct L as [|y L]; [done|]. apply Forall_cons in HL as [Hy _].
    destruct (Hone y) as [-> _]; [set_solver|done|]. apply NoDup_cons in Hnd as [Hnd _]. set_solver.
  - intros t r path i Ht Hl _ _ H. apply mapped_entry in H as [-> _].
    by apply mapped_owned in Ht as [[-> Hx]|[[-> Hx]|[[-> Hx]|[-> Hx]]]].
Qed.

(** ** The contract of the operations *)

(** Every page the user part of an address space maps. *)
Lemma user_pte_range k own l s r va :
  pt_inv k own l s -> own !! r = Some (r, []) -> PML4 va = 0 -> pte_of s r va <> 0 ->
  0 <= PPN (pte_of s r va) < npages s /\ own !! PPN (pte_of s r va) = None /\ 1 <= ref_of s (PPN (pte_of s r va)) /\
  exists u, own !! u = Some (r, va_path va) /\ entry s u (PTX va) = pte_of s r va.
Proof.
  intros I Hr Hva. rewrite pte_of_descend. destruct (descend s r (va_path va)) as [u|] eqn:Hd; [|done]. intros Hne.
  pose proof (va_descend_owned _ _ _ _ _ _ _ I Hr (or_introl Hva) Hd) as Hu.
  assert (own !! u = Some (r, [0; PDPE va; PDX va])) as Hu0 by (rewrite Hu; unfold va_path; by rewrite Hva).
  destruct (pi_leaf _ _ _ _ I _ _ _ _ _ Hu0 (PTX_range va) Hne) as [H1 H2]. split_ands; try done; try lia.
  - by eapply (inv_mapped_ref _ _ _ _ I _ _ _ _ _ _ Hu0 (PTX_range va)).
  - by exists u.
Qed.

(** C3: [page_insert] at an address below 2^39 refines the update of one address
    space: it returns 0 with [va] mapped to the page and permissions asked for,
    every other private slot of every address space reading as before, and the counts of the page mapped
    and of the page displaced adjusted, or it returns -E_NO_MEM (only when
    fewer than three pages are free) with no slot and no count changed.  The
    invariant of the tables holds in both cases. *)
Theorem page_insert_refines k own l s r va pp perm :
  pt_inv k own l s -> own !! r = Some (r, []) -> PML4 va = 0 ->
  0 < pp < npages s -> own !! pp = None -> pp ∉ l -> ref_of s pp < 2 ^ 16 - 1 -> 0 <= perm < PGSIZE ->
  exists res s' own' l', page_insert (kva r 0) pp va perm s = Ret res s' /\ pt_inv k own' l' s' /\ own ⊆ own' /\
    envs s' = envs s /\
    ((res = 0 /\ pte_of s' r va = pp * PGSIZE + Z.lor perm PTE_P /\
      (forall r' va', own !! r' = Some (r', []) -> priv k r' (PML4 va') ->
         r' <> r \/ va_idx va' <> va_idx va -> pte_of s' r' va' = pte_of s r' va') /\
      (forall q, q ∉ l -> ref_of s' q = ref_of s q + cnt (pte_of s' r va) q - cnt (pte_of s r va) q)) \/
     (res = - E_NO_MEM /\ (length l < 3)%nat /\
      (forall r' va', own !! r' = Some (r', []) -> priv k r' (PML4 va') -> pte_of s' r' va' = pte_of s r' va') /\
      (forall q, q ∉ l -> ref_of s' q = ref_of s q))).
Proof.
  intros I Hr Hva Hpp Hno Hpl Href Hperm.
  destruct (page_insert_run k own l s r va pp perm I Hr Hva Hpp Hno Hpl Href Hperm)
    as [(s' & Hrun & I' & Hst & Hf & Hlen)|(s' & own' & l' & Hrun & [H1 H2 H3 H4 H5 H6 H7 H8 _] & _)].
  - exists (- E_NO_MEM), s', own, l. split; [done|]. split; [done|]. split; [done|].
    split; [apply (mm_only_envs _ _ (wf_mm _ _ _ _ _ Hf))|]. right. split_ands; try done.
    + intros r' va' Hr' Hp'. unfold pte_of. eapply (same_tables_reads _ _ _ _ _ I Hst); [done|apply va_idx_ok|done|].
      intros j js' H. by inversion H; subst.
    + intros q Hq. unfold ref_of. by rewrite (wf_page _ _ _ _ _ Hf).
  - exists 0, s', own', l'. split; [done|]. split; [done|]. split; [done|].
    split; [by apply mm_only_envs|]. left. pose proof (H6 r va Hr (or_introl Hva)) as Hpte.
    rewrite decide_True in Hpte by done. split_ands; try done.
    + intros r' va' Hr' Hp' Hne. rewrite H6 by done. rewrite decide_False; [done|]. intros [<- Hx].
      destruct Hne; congruence.
    + intros q Hq. rewrite Hpte. by apply H7.
Qed.

Lemma page_insert_refines_witness :
  exists res s' own' l', page_insert (kva 10 0) 11 0x3000 7 demo = Ret res s' /\ pt_inv 10 own' l' s' /\ demo_own ⊆ own' /\
    envs s' = envs demo /\
    ((res = 0 /\ pte_of s' 10 0x3000 = 11 * PGSIZE + Z.lor 7 PTE_P /\
      (forall r' va', demo_own !! r' = Some (r', []) -> priv 10 r' (PML4 va') ->
         r' <> 10 \/ va_idx va' <> va_idx 0x3000 -> pte_of s' r' va' = pte_of demo r' va') /\
      (forall q, q ∉ demo_free -> ref_of s' q = ref_of demo q + cnt (pte_of s' 10 0x3000) q - cnt (pte_of demo 10 0x3000) q)) \/
     (res = - E_NO_MEM /\ (length demo_free < 3)%nat /\
      (forall r' va', demo_own !! r' = Some (r', []) -> priv 10 r' (PML4 va') -> pte_of s' r' va' = pte_of demo r' va') /\
      (forall q, q ∉ demo_free -> ref_of s' q = ref_of demo q))).
Proof.
  apply (page_insert_refines 10 demo_own demo_free demo 10 0x3000 11 7 demo_inv);
    try reflexivity; [done| |done]. apply (bool_decide_unpack _). by vm_compute.
Defined.

(** C4: [page_remove] of a page mapped below 2^39 refines the deletion of the
    mapping: the slot reads as absent, every other private slot of every address
    space reads as before, the page's count drops by one and the page is freed exactly when
    it was the last reference, and the TLB entry is flushed when the space is
    the current one. *)
Theorem page_remove_refines k own l s r va :
  pt_inv k own l s -> own !! r = Some (r, []) -> PML4 va = 0 -> pte_of s r va <> 0 ->
  exists s', page_remove (kva r 0) va s = Ret tt s' /\
    let pp := PPN (pte_of s r va) in
    pt_inv k own (if ref_of s pp =? 1 then pp :: l else l) s' /\
    pte_of s' r va = 0 /\
    (forall r' va', own !! r' = Some (r', []) -> priv k r' (PML4 va') ->
       r' <> r \/ va_idx va' <> va_idx va -> pte_of s' r' va' = pte_of s r' va') /\
    (forall q, ref_of s' q = ref_of s q - if decide (pp = q) then 1 else 0) /\
    tlb s' = (if flushes s (kva r 0) then va :: tlb s else tlb s) /\ envs s' = envs s.
Proof.
  intros I Hr Hva Hne. destruct (user_pte_range _ _ _ _ _ _ I Hr Hva Hne) as (Hrg & Hno & Href & u & Hu & He).
  rewrite <- He in Hne. destruct (page_remove_run _ _ _ _ _ _ _ I Hr Hva Hu Hne) as (s' & l' & Hrun & Hs & Hl' & Htlb).
  exists s'. split; [done|]. cbv zeta. rewrite He in *. rewrite <- Hl'.
  pose proof (leaf_reads _ _ _ _ _ _ _ 0 _ _ I Hr Hu eq_refl (ls_entry _ _ _ _ _ _ _ _ _ Hs)) as Hreads.
  split_ands; try done.
  - apply (ls_inv _ _ _ _ _ _ _ _ _ Hs).
  - rewrite Hreads by (done || by left). by rewrite decide_True.
  - intros r' va' Hr' Hp' Hne'. rewrite Hreads by done. rewrite decide_False; [done|]. intros [<- Hx].
    destruct Hne'; congruence.
  - intros q. rewrite (ls_ref _ _ _ _ _ _ _ _ _ Hs), cnt_0, He, cnt_nz by done. case_decide; lia.
  - apply mm_only_envs, (ls_mm _ _ _ _ _ _ _ _ _ Hs).
Qed.

Lemma page_remove_refines_witness :
  exists s', page_remove (kva 10 0) 0 demo_mapped = Ret tt s' /\
    let pp := PPN (pte_of demo_mapped 10 0) in
    pt_inv 10 mapped_own (if ref_of demo_mapped pp =? 1 then pp :: [7] else [7]) s' /\
    pte_of s' 10 0 = 0 /\
    (forall r' va', mapped_own !! r' = Some (r', []) -> priv 10 r' (PML4 va') ->
       r' <> 10 \/ va_idx va' <> va_idx 0 -> pte_of s' r' va' = pte_of demo_mapped r' va') /\
    (forall q, ref_of s' q = ref_of demo_mapped q - if decide (pp = q) then 1 else 0) /\
    tlb s' = (if flushes demo_mapped (kva 10 0) then 0 :: tlb demo_mapped else tlb demo_mapped) /\
    envs s' = envs demo_mapped.
Proof. apply (page_remove_refines 10 mapped_own [7] demo_mapped 10 0 mapped_inv); [reflexivity|reflexivity|by vm_compute]. Defined.

(** [page_lookup] of a mapped user address returns the page the hardware
    would reach and the address of its entry, and changes nothing; it returns
    NULL when a table on the way is missing. *)
Lemma page_lookup_refines k own l s r va :
  pt_inv k own l s -> own !! r = Some (r, []) -> PML4 va = 0 ->
  (pte_of s r va <> 0 -> exists pte, page_lookup (kva r 0) va s = Ret (Some (PPN (pte_of s r va), pte)) s /\
     load64 pte s = Ret (pte_of s r va) s) /\
  (descend s r (va_path va) = None -> page_lookup (kva r 0) va s = Ret None s).
Proof.
  intros I Hr Hva. pose proof (pi_tab _ _ _ _ I _ _ _ Hr) as (Hrr & _ & _).
  pose proof (user_pte_range _ _ _ _ _ _ I Hr Hva) as Hrange.
  rewrite (page_lookup_run _ _ _ _ _ _ I Hr (or_introl Hva)); [|lia|intros; by apply Hrange].
  rewrite pte_of_descend. split.
  - destruct (descend s r (va_path va)) as [u|]; [|done]. intros _. eexists. split; [done|].
    apply load64_kva, PTX_range.
  - by intros ->.
Qed.

Lemma page_lookup_refines_witness :
  (pte_of demo_mapped 10 0 <> 0 -> exists pte,
     page_lookup (kva 10 0) 0 demo_mapped = Ret (Some (PPN (pte_of demo_mapped 10 0), pte)) demo_mapped /\
     load64 pte demo_mapped = Ret (pte_of demo_mapped 10 0) demo_mapped) /\
  (descend demo_mapped 10 (va_path 0) = None -> page_lookup (kva 10 0) 0 demo_mapped = Ret None demo_mapped).
Proof. apply (page_lookup_refines 10 mapped_own [7] demo_mapped 10 0 mapped_inv); reflexivity. Defined.

(** The creating walk [pml4e_walk] is invisible to address translation: it
    returns the slot that maps [va], adding the missing tables, or NULL after
    undoing what it added; in both cases every slot of every address space
    reads as before and no count of a page in use changes. *)
Lemma pml4e_walk_create_invisible k own l s r va :
  pt_inv k own l s -> own !! r = Some (r, []) -> priv k r (PML4 va) ->
  exists res s' own' l', pml4e_walk (kva r 0) va true s = Ret res s' /\ pt_inv k own' l' s' /\
    (forall r' va', own !! r' = Some (r', []) -> priv k r' (PML4 va') -> pte_of s' r' va' = pte_of s r' va') /\
    (forall q, q ∉ l -> page_at s' q = page_at s q) /\
    match res with
    | Some a => exists u, a = kva u (PTX va) /\ descend s' r (va_path va) = Some u
    | None => own' = own /\ l' = l /\ (length l < 3)%nat
    end.
Proof.
  intros I Hr Hp. destruct (pml4e_walk_create k own l s r va I Hr Hp) as (res & s' & Hrun & Hf & Hpost).
  destruct res as [a|]; cbn in Hpost.
  - destruct Hpost as (u & own' & l' & -> & I' & Hu & Hsub & Hq & Hsuf & Hrd & _).
    exists (Some (kva u (PTX va))), s', own', l'. split_ands; try done.
    + intros r' va' Hr' Hp'. apply (Hrd r' r' []); [done|apply va_idx_ok|done|].
      intros j js' H. by inversion H; subst.
    + apply (wf_page _ _ _ _ _ Hf).
    + exists u. split; [done|]. eapply (owned_descend k own' l'); try done. by eapply lookup_weaken.
  - destruct Hpost as (I' & Hst & Hlen). exists None, s', own, l. split_ands; try done.
    + intros r' va' Hr' Hp'. eapply (same_tables_reads _ _ _ _ _ I Hst); [done|apply va_idx_ok|done|].
      intros j js' H. by inversion H; subst.
    + apply (wf_page _ _ _ _ _ Hf).
Qed.

Example pml4e_walk_create_invisible_example :
  exists res s' own' l', pml4e_walk (kva 10 0) 0x8000000 true demo = Ret res s' /\ pt_inv 10 own' l' s' /\
    (forall r' va', demo_own !! r' = Some (r', []) -> priv 10 r' (PML4 va') -> pte_of s' r' va' = pte_of demo r' va') /\
    (forall q, q ∉ demo_free -> page_at s' q = page_at demo q) /\
    match res with
    | Some a => exists u, a = kva u (PTX 0x8000000) /\ descend s' 10 (va_path 0x8000000) = Some u
    | None => own' = demo_own /\ l' = demo_free /\ (length demo_free < 3)%nat
    end.
Proof. apply (pml4e_walk_create_invisible 10 demo_own demo_free demo 10 0x8000000 demo_inv); [reflexivity|by left]. Qed.

(** [boot_map_region] maps every page of a region of the kernel's space to
    the corresponding physical page, and changes no other slot of any address
    space and no count, provided enough pages are free for its tables. *)
Lemma boot_map_region_maps k own l s la n pa perm :
  pt_inv k own l s -> own !! k = Some (k, []) -> 0 <= n -> 2 ^ 39 <= la -> la + n * PGSIZE <= 2 ^ 40 ->
  0 <= pa -> pa + n * PGSIZE <= 2 ^ 64 -> 3 * n <= Z.of_nat (length l) -> 0 <= perm < PGSIZE ->
  exists s' own' l', boot_map_region (kva k 0) la (n * PGSIZE) pa perm s = Ret tt s' /\ pt_inv k own' l' s' /\
    (forall q, q ∉ l -> page_at s' q = page_at s q) /\
    (forall i, 0 <= i < n -> pte_of s' k (la + i * PGSIZE) = PTE_ADDR (pa + i * PGSIZE) + Z.lor perm PTE_P) /\
    (forall r' va', own !! r' = Some (r', []) -> priv k r' (PML4 va') ->
       ~ (r' = k /\ exists i, 0 <= i < n /\ va_idx (la + i * PGSIZE) = va_idx va') ->
       pte_of s' r' va' = pte_of s r' va').
Proof.
  intros I Hk Hn Hla Hend Hpa Hpe Hlen Hperm.
  pose proof (tables_of_le (la / PGSIZE) n Hn).
  destruct (boot_map_region_run k own l s la n pa perm) as (s' & own' & l' & Hrun & _ & I' & _ & _ & _ & Hpg & Hmap & Hoth); try done; [lia|].
  exists s', own', l'. split_ands; try done. intros i Hi. rewrite PTE_ADDR_eq. by apply Hmap.
Qed.

Lemma boot_map_region_maps_witness :
  exists s' own' l', boot_map_region (kva 10 0) KERNBASE (1 * PGSIZE) 0 PTE_W demo = Ret tt s' /\ pt_inv 10 own' l' s' /\
    (forall q, q ∉ demo_free -> page_at s' q = page_at demo q) /\
    (forall i, 0 <= i < 1 -> pte_of s' 10 (KERNBASE + i * PGSIZE) = PTE_ADDR (0 + i * PGSIZE) + Z.lor PTE_W PTE_P) /\
    (forall r' va', demo_own !! r' = Some (r', []) -> priv 10 r' (PML4 va') ->
       ~ (r' = 10 /\ exists i, 0 <= i < 1 /\ va_idx (KERNBASE + i * PGSIZE) = va_idx va') ->
       pte_of s' r' va' = pte_of demo r' va').
Proof.
  apply (boot_map_region_maps 10 demo_own demo_free demo KERNBASE 1 0 PTE_W demo_inv); try reflexivity; done.
Defined.

(** C28: on a range of the user part [user_mem_check] decides the permission of
    every page that contains a byte of the range: it returns 0 when every one
    has all the bits asked for, and otherwise -E_FAULT with
    [user_mem_check_addr] the first address of the range in the first page
    that does not. *)
Theorem user_mem_check_decides k own l s r env va len perm :
  pt_inv k own l s -> own !! r = Some (r, []) -> env_pml4e (env_at s env) = kva r 0 ->
  0 <= va -> 0 < len -> va + len <= 2 ^ 39 ->
  let allowed n := Z.land (pte_of s r (n * PGSIZE)) (Z.lor perm PTE_P) = Z.lor perm PTE_P in
  let in_range n := va / PGSIZE <= n <= (va + len - 1) / PGSIZE in
  (user_mem_check env va len perm s = Ret 0 s /\ forall n, in_range n -> allowed n) \/
  exists n, in_range n /\ ~ allowed n /\ (forall m, in_range m -> m < n -> allowed m) /\
    user_mem_check env va len perm s = Ret (- E_FAULT) (set_user_mem_check_addr (Z.max va (n * PGSIZE)) s).
Proof.
  intros I Hr Henv Hva Hlen Hhi allowed in_range.
  rewrite (user_mem_check_run k own l s r env va len perm) by (done || lia).
  assert ((va + len + PGSIZE - 1) / PGSIZE = (va + len - 1) / PGSIZE + 1) as ->.
  { replace (va + len + PGSIZE - 1) with (va + len - 1 + 1 * PGSIZE) by lia. by apply Z.div_add. }
  set (a := va / PGSIZE) in *. set (b := (va + len - 1) / PGSIZE) in *.
  assert (a <= b) by (apply Z.div_le_mono; unfold PGSIZE; lia).
  destruct (list_find _ _) as [[i n]|] eqn:Hf.
  - right. apply list_find_Some in Hf as (Hi & Hbad & Hbefore). apply lookup_seqZ in Hi as [Hn Hib].
    exists n. unfold in_range, allowed. split_ands; try lia.
    + intros Hok. unfold page_grants in Hbad. by rewrite Hok, Z.eqb_refl in Hbad.
    + intros m Hm Hmn. specialize (Hbefore (Z.to_nat (m - a)) m). apply Z.eqb_eq.
      apply not_false_iff_true. apply Hbefore; [|lia]. apply lookup_seqZ. lia.
    + done.
  - left. split; [done|]. apply list_find_None in Hf. intros n Hn. rewrite Forall_forall in Hf.
    apply Z.eqb_eq, not_false_iff_true. apply (Hf n). apply elem_of_seqZ. unfold in_range in Hn. lia.
Qed.

Lemma user_mem_check_decides_witness :
  let allowed n := Z.land (pte_of demo_mapped 10 (n * PGSIZE)) (Z.lor PTE_U PTE_P) = Z.lor PTE_U PTE_P in
  let in_range n := 100 / PGSIZE <= n <= (100 + 5000 - 1) / PGSIZE in
  (user_mem_check 0 100 5000 PTE_U demo_mapped = Ret 0 demo_mapped /\ forall n, in_range n -> allowed n) \/
  exists n, in_range n /\ ~ allowed n /\ (forall m, in_range m -> m < n -> allowed m) /\
    user_mem_check 0 100 5000 PTE_U demo_mapped =
    Ret (- E_FAULT) (set_user_mem_check_addr (Z.max 100 (n * PGSIZE)) demo_mapped).
Proof. apply (user_mem_check_decides 10 mapped_own [7] demo_mapped 10 0 100 5000 PTE_U mapped_inv); try reflexivity; done. Defined.

(** The sum [va + len] in [user_mem_check] wraps: for every kernel address
    a length that reaches the end of the address space is accepted, whatever
    the page tables say. *)
Lemma user_mem_check_wraps env va perm s :
  KERNBASE <= va < 2 ^ 64 -> user_mem_check env va (2 ^ 64 - va) perm s = Ret 0 s.
Proof.
  intros Hva. unfold user_mem_check.
  assert (u64 (va + (2 ^ 64 - va)) = 0) as ->.
  { replace (va + (2 ^ 64 - va)) with (2 ^ 64) by lia. done. }
  change (ROUNDUP 0 PGSIZE) with 0. cbn [loop].
  assert (0 <= ROUNDDOWN va PGSIZE) as H0.
  { rewrite ROUNDDOWN_eq by (unfold KERNBASE in *; lia).
    apply Z.mul_nonneg_nonneg; [apply Z.div_pos; unfold PGSIZE, KERNBASE in *; lia|done]. }
  by destruct (Z.ltb_spec (ROUNDDOWN va PGSIZE) 0); [lia|].
Qed.

Lemma user_mem_check_wraps_witness : user_mem_check 0 (KERNBASE + 0x1000) (2 ^ 64 - (KERNBASE + 0x1000)) PTE_U demo = Ret 0 demo.
Proof. apply (user_mem_check_wraps 0 (KERNBASE + 0x1000) PTE_U demo). done. Defined.

(** Removing an address whose last-level table exists but whose entry is
    empty is not a no-op: [page_lookup] takes the empty entry for physical
    page 0 and [page_remove] drops a reference of that page, whose count
    becomes 65535 when it was 0. *)
Lemma page_remove_empty_entry k own l s r va u :
  pt_inv k own l s -> own !! r = Some (r, []) -> PML4 va = 0 -> descend s r (va_path va) = Some u ->
  pte_of s r va = 0 -> ref_of s 0 = 0 ->
  page_lookup (kva r 0) va s = Ret (Some (0, kva u (PTX va))) s /\
  exists s', page_remove (kva r 0) va s = Ret tt s' /\ ref_of s' 0 = 2 ^ 16 - 1.
Proof.
  intros I Hr Hva Hd He Href. pose proof (pi_tab _ _ _ _ I _ _ _ Hr) as (Hrr & _ & _).
  assert (page_lookup (kva r 0) va s = Ret (Some (0, kva u (PTX va))) s) as HL.
  { rewrite (page_lookup_run _ _ _ _ _ _ I Hr (or_introl Hva)) by (lia || by rewrite He).
    rewrite pte_of_descend, Hd in He. rewrite Hd. cbn. by rewrite He. }
  split; [done|]. unfold page_remove. mrun HL. unfold page_decref. msteps.
  fold (ref_of s 0). rewrite Href. rewrite page_at_upd, decide_True by done.
  change (pp_ref (set_pp_ref (u16 (0 - 1)) (page_at s 0)) =? 0) with false. cbv iota. msteps.
  rewrite (bind_Ret _ _ _ _ _ (store64_kva u (PTX va) 0 _ (PTX_range va))).
  rewrite tlb_invalidate_run by (apply kva_nz; lia). eexists. split; [done|].
  rewrite flush_ref. set (s1 := set_pages _ s). change (ref_of s1 0 = 2 ^ 16 - 1). subst s1.
  unfold ref_of. by rewrite page_at_upd, decide_True.
Qed.

Lemma page_remove_empty_entry_witness :
  page_lookup (kva 10 0) 0x1000 demo_mapped = Ret (Some (0, kva 6 (PTX 0x1000))) demo_mapped /\
  exists s', page_remove (kva 10 0) 0x1000 demo_mapped = Ret tt s' /\ ref_of s' 0 = 2 ^ 16 - 1.
Proof. apply (page_remove_empty_entry 10 mapped_own [7] demo_mapped 10 0x1000 6 mapped_inv); reflexivity. Defined.
