(* ===== verification/Boot.v ===== *)
(** The start of the kernel: memory detection and the kernel's address space,
    [nvram_read], [multiboot_read], [i386_detect_memory], [mem_init_mp] and
    [x64_vm_init] of kern/pmap.c, kern/multiboot.h.

    The contents of the clock's memory ([mc146818_read]), what the boot loader
    passed ([multiboot_info]) and the addresses the linker gave to the stacks are
    parameters.  The entries of the memory map are shared between the loader's
    array and the sorted list of pointers to them. *)

From S2P Require Import Prelude Kernel PageAlloc PageTable.

Notation NVRAM_BASELO := (0xe + 7) (only parsing).
Notation NVRAM_EXTLO := (0xe + 9) (only parsing).
Notation NVRAM_EXTGT16LO := (0xe + 38) (only parsing).
Notation MB_TYPE_USABLE := 1 (only parsing).
Notation MB_TYPE_RESERVED := 2 (only parsing).
Notation MB_TYPE_ACPI_RECLM := 3 (only parsing).
Notation MB_TYPE_ACPI_NVS := 4 (only parsing).
Notation MB_TYPE_BAD := 5 (only parsing).
Notation MB_FLAG_MMAP := 0x40 (only parsing).

(** ** kern/multiboot.h *)

Record memory_map : Type := mkMmap {
  base_addr_low : Z;
  base_addr_high : Z;
  length_low : Z;
  length_high : Z;
  mm_type : Z;
}.

Record multiboot_info : Type := mkMbinfo {
  mb_flags : Z;
  mmap_length : Z;
  mmap_addr : Z -> memory_map;
}.

Definition sizeof_memory_map : Z := 24.

Definition APPEND_HILO (hi lo : Z) : Z := u64 (u64 (Z.shiftl hi 32) + lo).

Definition restrictive_type (t1 t2 : Z) : Z :=
  if (t1 =? MB_TYPE_BAD) || (t2 =? MB_TYPE_BAD) then MB_TYPE_BAD
  else if (t1 =? MB_TYPE_ACPI_NVS) || (t2 =? MB_TYPE_ACPI_NVS) then MB_TYPE_ACPI_NVS
  else if (t1 =? MB_TYPE_RESERVED) || (t2 =? MB_TYPE_RESERVED) then MB_TYPE_RESERVED
  else if (t1 =? MB_TYPE_ACPI_RECLM) || (t2 =? MB_TYPE_ACPI_RECLM) then MB_TYPE_ACPI_RECLM
  else MB_TYPE_USABLE.

Definition set_mm_type t m := mkMmap (base_addr_low m) (base_addr_high m) (length_low m) (length_high m) t.
Definition base_of (m : memory_map) : Z := APPEND_HILO (base_addr_high m) (base_addr_low m).
Definition length_of (m : memory_map) : Z := APPEND_HILO (length_high m) (length_low m).

(** ** Reading the memory map *)

(** The entries, and [mmap_list]: the number of an entry, or [NULL]. *)
Record mbstate : Type := mkMb {
  mmaps : Z -> memory_map;
  mmap_list : Z -> option Z;
}.

Definition MB (A : Type) : Type := M mbstate A.
Definition set_mmaps f s := mkMb f (mmap_list s).
Definition set_mmap_list f s := mkMb (mmaps s) f.
Definition upd_mmap (i : Z) (f : memory_map -> memory_map) : MB unit := modify (fun s => set_mmaps (fset (mmaps s) i (f (mmaps s i))) s).

(** [mmap_list] has [n] elements. *)
Definition put_list (n k : Z) (v : option Z) : MB unit :=
  if k <? n then modify (fun s => set_mmap_list (fset (mmap_list s) k v) s) else panic "mmap_list: out of bounds".

Definition deref_list (k : Z) : MB Z :=
  let! p := gets (fun s => mmap_list s k) in
  match p with Some i => ret i | None => panic "null pointer dereference" end.

(** [while (last != j)], from [last = i + 1] down. *)
Definition shift_list (n i j : Z) : MB unit :=
  forM (rev (seqZ (j + 1) (i + 1 - j))) (fun last =>
    let! p := gets (fun s => mmap_list s (last - 1)) in
    put_list n last p).

(** Entry [i] of the loader's array goes to its place in the sorted list. *)
Definition mmap_insert (n i : Z) : MB unit :=
  let! m := gets (fun s => mmaps s i) in
  do! (if (5 <? mm_type m) || (mm_type m <? 1) then upd_mmap i (set_mm_type MB_TYPE_RESERVED) else ret tt) ;;
  let addr := base_of m in
  let! j := loop (S (Z.to_nat i)) (fun j =>
    if j <? i then
      let! t := deref_list j in
      let! this := gets (fun s => mmaps s t) in
      if addr <? base_of this then
        do! shift_list n i j ;;
        ret (inr j)
      else ret (inl (j + 1))
    else ret (inr j)) 0 in
  put_list n j (Some i).

(** Entries [i - 1] and [i] of the list. *)
Definition mmap_sanitize (n i : Z) : MB unit :=
  let! prev := deref_list (i - 1) in
  let! this := deref_list i in
  let! pm := gets (fun s => mmaps s prev) in
  let! tm := gets (fun s => mmaps s this) in
  let prev_end := u64 (base_of pm + length_of pm) in
  let sum := u64 (length_of pm + length_of tm) in
  if (prev_end =? base_of tm) && (mm_type pm =? mm_type tm) then
    do! upd_mmap this (fun m => mkMmap (base_addr_low pm) (base_addr_high pm) (u32 sum) (u32 (Z.shiftr sum 32)) (mm_type m)) ;;
    put_list n (i - 1) None
  else if base_of tm <? prev_end then
    let type := restrictive_type (mm_type pm) (mm_type tm) in
    do! upd_mmap prev (set_mm_type type) ;;
    upd_mmap this (set_mm_type type)
  else ret tt.

Definition mmap_total (acc : Z * Z) (i : Z) : MB (Z * Z) :=
  let '(basemem, extmem) := acc in
  let! p := gets (fun s => mmap_list s i) in
  match p with
  | None => ret acc
  | Some t =>
      let! m := gets (fun s => mmaps s t) in
      if (mm_type m =? MB_TYPE_USABLE) || (mm_type m =? MB_TYPE_ACPI_RECLM) then
        if (base_addr_low m <? 0x100000) && (base_addr_high m =? 0) then ret (u64 (basemem + length_of m), extmem)
        else ret (basemem, u64 (extmem + length_of m))
      else ret acc
  end.

Definition multiboot_read (mbinfo : multiboot_info) : MB (Z * Z) :=
  let n := mmap_length mbinfo / sizeof_memory_map in
  do! forM (seqZ 0 n) (mmap_insert n) ;;
  do! forM (seqZ 1 (n - 1)) (mmap_sanitize n) ;;
  foldM (seqZ 0 n) (0, 0) mmap_total.

(** ** kern/pmap.c *)

Definition sizeof_PageInfo : Z := 16.
Definition sizeof_Env : Z := 352.
Definition NCPU : Z := 1.

Section Boot.
Context (cmos : Z -> Z) (loader : option multiboot_info) (bootstack : Z) (percpu_kstacks : Z -> Z).

Definition nvram_read (r : Z) : Z := Z.lor (cmos r) (Z.shiftl (cmos (r + 1)) 8).

(** [basemem] and [extmem], in bytes. *)
Definition memory_sizes : K (Z * Z) :=
  match loader with
  | Some mbinfo =>
      if nz (Z.land (mb_flags mbinfo) MB_FLAG_MMAP) then
        match multiboot_read mbinfo (mkMb (mmap_addr mbinfo) (fun _ => None)) with
        | Ret x _ => ret x
        | _ => panic "multiboot_read"
        end
      else ret (nvram_read NVRAM_BASELO * 1024, nvram_read NVRAM_EXTLO * 1024)
  | None => ret (nvram_read NVRAM_BASELO * 1024, nvram_read NVRAM_EXTLO * 1024)
  end.

Definition i386_detect_memory : K unit :=
  let! sizes := memory_sizes in
  let '(basemem, extmem) := sizes in
  do! assertM (nz basemem) ;;
  do! modify (set_npages_basemem (basemem / PGSIZE)) ;;
  let npages_extmem :=
    if nvram_read NVRAM_EXTLO =? 0xffff then
      let pextmem := u64 (s32 (nvram_read NVRAM_EXTGT16LO * (64 * 1024))) in
      u64 (16 * 1024 * 1024 + pextmem - 1 * 1024 * 1024) / PGSIZE
    else extmem / PGSIZE in
  let n := if nz npages_extmem then EXTPHYSMEM / PGSIZE + npages_extmem else basemem / PGSIZE in
  let upages_max := (ULIM - UPAGES) / sizeof_PageInfo in
  let kern_mem_max := (UVPT - KERNBASE) / PGSIZE in
  let max_npages := if upages_max <? kern_mem_max then upages_max else kern_mem_max in
  modify (set_npages (if max_npages <? n then max_npages - 1024 else n)).

Definition mem_init_mp : K unit :=
  forM (seqZ 0 NCPU) (fun ncpus =>
    let kstacktop_ncpus := u64 (KSTACKTOP - ncpus * (KSTKSIZE + KSTKGAP)) in
    let! boot := gets boot_pml4e in
    let! pa := PADDR (percpu_kstacks ncpus) in
    boot_map_region boot (u64 (kstacktop_ncpus - KSTKSIZE)) KSTKSIZE pa (Z.lor PTE_P PTE_W)).

(** From the mapping of [pages] to that of the stacks. *)
Definition vm_maps (pml4e npages pages envs : Z) : K unit :=
  let! pages_pa := PADDR pages in
  do! boot_map_region pml4e UPAGES (ROUNDUP (u64 (npages * sizeof_PageInfo)) PGSIZE) pages_pa (Z.lor PTE_U PTE_P) ;;
  let! envs_pa := PADDR envs in
  do! boot_map_region pml4e UENVS (ROUNDUP (NENV * sizeof_Env) PGSIZE) envs_pa (Z.lor PTE_U PTE_P) ;;
  let! stack_pa := PADDR bootstack in
  do! boot_map_region pml4e (KSTACKTOP - KSTKSIZE) KSTKSIZE stack_pa (Z.lor PTE_P PTE_W) ;;
  do! boot_map_region pml4e KERNBASE (u64 (npages * PGSIZE)) 0 (Z.lor PTE_P PTE_W) ;;
  mem_init_mp.

Definition x64_vm_init : K unit :=
  do! i386_detect_memory ;;
  let! pml4e := boot_alloc PGSIZE in
  do! memset_page pml4e ;;
  do! modify (set_boot_pml4e pml4e) ;;
  let! pa := PADDR pml4e in
  do! modify (set_boot_cr3 pa) ;;
  let! npages := gets npages in
  let! pages := boot_alloc (u32 (u64 (sizeof_PageInfo * npages))) in
  let! envs := boot_alloc (u32 (sizeof_Env * NENV)) in
  do! modify (set_envs ∅) ;;
  do! page_init ;;
  do! vm_maps pml4e npages pages envs ;;
  let! b := gets boot_cr3 in
  do! modify (set_cr3 b) ;;
  let! e1 := load64 (index8 pml4e 1) in
  let! pdpe := KADDR (PTE_ADDR e1) in
  let! e0 := load64 (index8 pdpe 0) in
  do! KADDR (PTE_ADDR e0) ;;
  ret tt.
End Boot.
