(* ===== verification/BootProps.v ===== *)
(** The kernel's address space after the start: the invariant of the page tables
    holds, and every address below 1 TB is mapped as the picture in
    inc/memlayout.h says. *)

From S2P Require Import Prelude Kernel PageAlloc PageTable PageTableInv PageTableSpec Boot.

(** ** Detection *)

Lemma memory_sizes_pure cmos loader s x s' : memory_sizes cmos loader s = Ret x s' -> s' = s.
Proof.
  unfold memory_sizes. destruct loader as [mb|]; [|by intros [= _ <-]]. destruct (nz _); [|by intros [= _ <-]].
  destruct (multiboot_read mb _); try done. by intros [= _ <-].
Qed.

(** However much memory there is, the pages the kernel uses fit into the window
    at UPAGES and below UVPT. *)
Lemma detect_bounds cmos loader s s0 : i386_detect_memory cmos loader s = Ret tt s0 ->
  npages s0 <= 3276800 /\ exists n b, s0 = set_npages n (set_npages_basemem b s).
Proof.
  unfold i386_detect_memory. destruct (memory_sizes cmos loader s) as [[basemem extmem] s1| |] eqn:E; [|by unfold bind; rewrite E..].
  rewrite (bind_Ret _ _ _ _ _ E). apply memory_sizes_pure in E as ->. cbv beta iota. unfold assertM. destruct (nz basemem); [|done]. msteps.
  intros [= <-]. split; [|eauto]. cbn [npages set_npages]. change ((ULIM - UPAGES) / sizeof_PageInfo) with 3276800. change ((UVPT - KERNBASE) / PGSIZE) with 134201344.
  change (3276800 <? 134201344) with true. cbv iota. match goal with |- (if ?c then _ else _) <= _ => destruct c eqn:Hc end; lia.
Qed.

(** ** Boot allocations *)

(** The pages of [m] bytes. *)
Definition pages_of (m : Z) : Z := (m + PGSIZE - 1) / PGSIZE.

Lemma boot_alloc_next p m s : nextfree s = kva p 0 -> 0 <= p < 2 ^ 40 -> 0 < m <= 2 ^ 31 -> boot_alloc m s = Ret (kva p 0) (set_nextfree (kva (p + pages_of m) 0) s).
Proof.
  intros Hn Hp Hm. unfold boot_alloc. msteps. rewrite Hn. destruct (Z.eqb_spec (kva p 0) 0) as [E|_]; [unfold kva, KERNBASE, PGSIZE in E; lia|].
  msteps. rewrite Hn. destruct (Z.ltb_spec 0 m); [|lia]. msteps. rewrite ROUNDUP_eq by (unfold PGSIZE; lia). fold (pages_of m).
  assert (0 <= pages_of m * PGSIZE < 2 ^ 32) as Hb. { unfold pages_of, PGSIZE. Z.to_euclidean_division_equations. lia. }
  rewrite (u32_small (pages_of m * PGSIZE)) by done. rewrite u64_small by (unfold kva, KERNBASE, PGSIZE in *; lia).
  unfold ret. do 2 f_equal. unfold kva. lia.
Qed.

(** The first page after the loaded kernel. *)
Definition boot_page (s : kstate) : Z := pages_of (end_debug s - KERNBASE).

Lemma boot_alloc_first m s : nextfree s = 0 -> KERNBASE <= end_debug s < KERNBASE + 2 ^ 40 -> 0 < m <= 2 ^ 31 ->
  boot_alloc m s = Ret (kva (boot_page s) 0) (set_nextfree (kva (boot_page s + pages_of m) 0) s).
Proof.
  intros Hn He Hm. pose proof (boot_alloc_next (boot_page s) m (set_nextfree (kva (boot_page s) 0) s) eq_refl) as H. 
  assert (ROUNDUP (end_debug s) PGSIZE = kva (boot_page s) 0) as E.
  { rewrite ROUNDUP_eq by (unfold KERNBASE, PGSIZE in *; lia). unfold boot_page, pages_of, kva, KERNBASE, PGSIZE. Z.to_euclidean_division_equations. lia. }
  revert H. unfold boot_alloc. msteps. rewrite Hn. change (0 =? 0) with true. cbv iota. msteps. rewrite E. cbn [nextfree set_nextfree].
  destruct (Z.eqb_spec (kva (boot_page s) 0) 0) as [E0|_].
  { exfalso. unfold kva, boot_page, pages_of, KERNBASE, PGSIZE in *. Z.to_euclidean_division_equations. lia. }
  msteps. intros H. apply H; [|done]. unfold boot_page, pages_of, KERNBASE, PGSIZE in *. Z.to_euclidean_division_equations. lia.
Qed.

(** ** The first invariant *)

Lemma free_count top n : 8 <= top < n -> n - 1 - top <= Z.of_nat (length (free_below (top * PGSIZE) n)).
Proof.
  intros Ht. assert (seqZ (top + 1) (n - 1 - top) ⊆+ free_below (top * PGSIZE) n) as H.
  { apply NoDup_submseteq; [apply NoDup_seqZ|]. intros p Hp. apply elem_of_seqZ in Hp. unfold free_below. apply list_elem_of_filter. split; [|apply elem_of_seqZ; lia].
    unfold page_reserved, PGSIZE, MPENTRY_PADDR. lia. }
  apply submseteq_length in H. rewrite length_seqZ in H. lia.
Qed.

Lemma boot_inv k t n s : npages s = n -> nextfree s = kva t 0 -> pages s = ∅ -> 160 <= k -> k < t -> t + 1 < n -> n <= 2 ^ 32 -> (forall i, entry s k i = 0) ->
  exists s', page_init s = Ret tt s' /\ pages_only s s' /\ pt_inv k {[k := (k, [])]} (free_below (t * PGSIZE) n) s' /\ forall va, pte_of s' k va = 0.
Proof.
  intros Hn Ht Hp Hk Hkt Htn Hmax Hz. assert (nextfree s - KERNBASE = t * PGSIZE) as Etop by (rewrite Ht; unfold kva; lia).
  destruct (page_init_free_list s) as (s' & Hrun & Hfl & Href & Hlink & Hout & Honly); rewrite ?Etop, ?Hn in *; [lia|rewrite Ht; unfold kva, PGSIZE; lia| |].
  { unfold page_reserved, PGSIZE, MPENTRY_PADDR. lia. }
  assert (mem s' = mem s /\ npages s' = n) as [Em En] by (rewrite Honly; done). assert (forall i, entry s' k i = 0) as Hz' by (intros i; unfold entry; rewrite Em; apply Hz).
  assert (forall p, ~ 0 <= p < n -> page_at s' p = PageInfo0) as Hout'. { intros p Hpn. rewrite Hout by done. unfold page_at. by rewrite Hp, lookup_empty. }
  assert (forall p r path, ({[k := (k, [])]} : owners) !! p = Some (r, path) -> p = k /\ r = k /\ path = []) as Hown.
  { intros p r path. rewrite lookup_singleton_Some. naive_solver. }
  assert (ref_of s' k = 1) as Hrk. { rewrite Href by lia. replace (page_reserved (t * PGSIZE) k) with true; [done|]. unfold page_reserved, PGSIZE, IOPHYSMEM, MPENTRY_PADDR. lia. }
  exists s'. split; [done|]. split; [done|]. split; [|intros va; by apply pt_read_zero]. split; try done.
  - unfold npages_ok. lia.
  - intros p Hpl. destruct (decide (0 <= p < n)); [by apply Hlink|]. unfold link_of. by rewrite Hout'.
  - intros p. destruct (decide (0 <= p < n)); [rewrite Href by done; by destruct (page_reserved _ _)|]. unfold ref_of. by rewrite Hout'.
  - intros p r path H. apply Hown in H as (-> & -> & ->). cbn. lia.
  - intros p p' [r path] H H'. apply Hown in H as (-> & _). by apply Hown in H' as (-> & _).
  - intros p r H. by apply Hown in H as (-> & -> & _).
  - intros p r path i H. apply Hown in H as (-> & _). by rewrite Hz'.
  - intros p r path i H. apply Hown in H as (_ & _ & H). by destruct path.
  - intros p r a b i H. by apply Hown in H as (_ & _ & H).
  - intros p L _ HL. destruct L as [|x L].
    + destruct (decide (0 <= p < n)); [rewrite Href by done; by destruct (page_reserved _ _)|]. unfold ref_of. by rewrite Hout'.
    + apply Forall_cons in HL as [(_ & (r & a & b & H) & _) _]. by apply Hown in H as (_ & _ & H).
  - intros p r path i H. apply Hown in H as (-> & _). by rewrite Hz'.
Qed.

(** ** The map of the kernel's space *)

(** The space [k] maps page [v] as [f v] says, for all pages below 1 TB. *)
Definition maps (s : kstate) (k : Z) (f : Z -> Z) : Prop := forall va, 0 <= va < 2 ^ 40 -> pte_of s k va = f (va / PGSIZE).

(** The [n] pages from [b] lead to the physical pages from [p]. *)
Definition over (b n p perm : Z) (f : Z -> Z) (v : Z) : Z := if (b <=? v) && (v <? b + n) then mk_pte (p + (v - b)) perm else f v.

Lemma boot_map_over k own l s b n p perm f :
  pt_inv k own l s -> own !! k = Some (k, []) -> maps s k f -> 0 <= n -> 2 ^ 27 <= b -> b + n <= 2 ^ 28 -> 0 <= p -> p + n <= 2 ^ 52 ->
  3 * tables_of b n <= Z.of_nat (length l) -> 0 <= perm < PGSIZE ->
  exists s' own' l', boot_map_region (kva k 0) (b * PGSIZE) (n * PGSIZE) (p * PGSIZE) perm s = Ret tt s' /\ mm_only s s' /\
    pt_inv k own' l' s' /\ own' !! k = Some (k, []) /\ Z.of_nat (length l) <= Z.of_nat (length l') + 3 * tables_of b n /\ maps s' k (over b n p perm f).
Proof.
  intros I Hk Hf Hn Hb Hbn Hp Hpn Hlen Hperm. assert (b * PGSIZE / PGSIZE = b) as Eb by (by rewrite Z.div_mul).
  destruct (boot_map_region_run k own l s (b * PGSIZE) n (p * PGSIZE) perm) as (s' & own' & l' & Hrun & Hmm & I' & Hsub & _ & Hll & _ & Hin & Hout); try done.
  1-4: unfold PGSIZE; lia. { by rewrite Eb. }
  rewrite Eb in Hll. exists s', own', l'. split; [done|]. split; [done|]. split; [done|]. split; [by eapply lookup_weaken|]. split; [done|].
  intros va Hva. unfold over. set (v := va / PGSIZE). assert (forall i, region_page (b * PGSIZE) i = (b + i) * PGSIZE) as Er by (intros i; unfold region_page; lia).
  assert (forall i, 0 <= i < n -> va_idx (region_page (b * PGSIZE) i) = va_idx va <-> b + i = v) as Hidx.
  { intros i Hi. rewrite Er, va_idx_page by (unfold PGSIZE; lia). by rewrite Z.div_mul. }
  assert (f v = pte_of s k va) as -> by (symmetry; by apply Hf). destruct (b <=? v) eqn:E1, (v <? b + n) eqn:E2; cbn [andb].
  2-4: apply Hout; [done| |intros (_ & i & Hi & H); apply Hidx in H; lia]; unfold priv; rewrite PML4_eq; Z.to_euclidean_division_equations; lia.
  specialize (Hin (v - b) ltac:(lia)). unfold pte_of in *. rewrite <- (proj2 (Hidx (v - b) ltac:(lia)) ltac:(lia)), Hin. f_equal.
  replace (p * PGSIZE + (v - b) * PGSIZE) with ((p + (v - b)) * PGSIZE) by lia. apply PPN_mul.
Qed.

(** What the picture in inc/memlayout.h shows: the arrays [envs] and [pages],
    read-only for user programs, the stack of the processor with nothing below
    it, and all of physical memory; [k] is the page of the top-level table, [c]
    that of the stack. *)
Definition kernel_map (k n c v : Z) : Z :=
  let env_pages := pages_of (sizeof_Env * NENV) in
  let info_pages := pages_of (sizeof_PageInfo * n) in
  let within b m := (b / PGSIZE <=? v) && (v <? b / PGSIZE + m) in
  if within UENVS env_pages then mk_pte (k + 1 + info_pages + (v - UENVS / PGSIZE)) (Z.lor PTE_U PTE_P)
  else if within UPAGES info_pages then mk_pte (k + 1 + (v - UPAGES / PGSIZE)) (Z.lor PTE_U PTE_P)
  else if within (KSTACKTOP - KSTKSIZE) (KSTKSIZE / PGSIZE) then mk_pte (c + (v - (KSTACKTOP - KSTKSIZE) / PGSIZE)) (Z.lor PTE_P PTE_W)
  else if within KERNBASE n then mk_pte (v - KERNBASE / PGSIZE) (Z.lor PTE_P PTE_W)
  else 0.

Lemma vm_maps_run bootstack percpu_kstacks k own l s n p1 p2 b c :
  pt_inv k own l s -> own !! k = Some (k, []) -> maps s k (fun _ => 0) -> boot_pml4e s = kva k 0 -> 
  bootstack = kva b 0 -> percpu_kstacks 0 = kva c 0 -> 0 <= p1 < 2 ^ 40 -> 0 <= p2 < 2 ^ 40 -> 0 <= b < 2 ^ 40 -> 0 <= c < 2 ^ 40 -> 0 <= n <= 3276800 ->
  3 * (n / 512 + n / 131072 + 6) <= Z.of_nat (length l) ->
  exists s' own' l', vm_maps bootstack percpu_kstacks (kva k 0) n (kva p1 0) (kva p2 0) s = Ret tt s' /\ mm_only s s' /\ pt_inv k own' l' s' /\ own' !! k = Some (k, []) /\
    Z.of_nat (length l) <= Z.of_nat (length l') + 3 * (n / 512 + n / 131072 + 6) /\
    maps s' k (over ((KSTACKTOP - KSTKSIZE) / PGSIZE) 16 c (Z.lor PTE_P PTE_W) (over (KERNBASE / PGSIZE) n 0 (Z.lor PTE_P PTE_W)
      (over ((KSTACKTOP - KSTKSIZE) / PGSIZE) 16 b (Z.lor PTE_P PTE_W) (over (UENVS / PGSIZE) 88 p2 (Z.lor PTE_U PTE_P) (over (UPAGES / PGSIZE) (pages_of (sizeof_PageInfo * n)) p1 (Z.lor PTE_U PTE_P) (fun _ => 0)))))).
Proof.
  intros I Hk Hmap Hboot -> Hc Hp1 Hp2 Hb Hcr Hn Hlen. set (m := pages_of (sizeof_PageInfo * n)) in *.
  assert (0 <= m <= 12800 /\ m <= n / 256 + 1) as [Hm Hm']. { unfold m, pages_of, sizeof_PageInfo, PGSIZE. Z.to_euclidean_division_equations. lia. }
  assert (tables_of (UPAGES / PGSIZE) m <= n / 131072 + 1) as T1. { change (UPAGES / PGSIZE) with 134220288. unfold tables_of. destruct (0 <? m); Z.to_euclidean_division_equations; lia. }
  assert (tables_of (KERNBASE / PGSIZE) n <= n / 512 + 1) as T2. { change (KERNBASE / PGSIZE) with 134234112. unfold tables_of. destruct (0 <? n); Z.to_euclidean_division_equations; lia. }
  assert (tables_of (UENVS / PGSIZE) 88 = 1) as T3 by done. assert (tables_of ((KSTACKTOP - KSTKSIZE) / PGSIZE) 16 = 1) as T4 by done.
  assert (UPAGES / PGSIZE = 134220288 /\ UENVS / PGSIZE = 134219776 /\ (KSTACKTOP - KSTKSIZE) / PGSIZE = 134234096 /\ KERNBASE / PGSIZE = 134234112) as (U1 & U2 & U3 & U4) by done.
  assert (forall x, 0 <= x < 2 ^ 48 -> ROUNDUP (u64 x) PGSIZE = pages_of x * PGSIZE) as Hround by (intros x Hx; rewrite u64_small, ROUNDUP_eq by (unfold PGSIZE; lia); done).
  unfold vm_maps. rewrite (bind_Ret _ _ _ _ _ (PADDR_kva s p1 ltac:(lia))). rewrite Hround by (unfold sizeof_PageInfo; lia). rewrite (Z.mul_comm n). fold m.
  change (boot_map_region (kva k 0) UPAGES) with (boot_map_region (kva k 0) (UPAGES / PGSIZE * PGSIZE)).
  assert (0 <= n / 512 /\ 0 <= n / 131072) as [Q1 Q2] by (split; apply Z.div_pos; lia). generalize dependent (n / 512). generalize dependent (n / 131072). intros q2 T1 Q2 q1 Hlen T2 Q1.
  destruct (boot_map_over k own l s (UPAGES / PGSIZE) m p1 (Z.lor PTE_U PTE_P) (fun _ => 0)) as (s1 & own1 & l1 & R1 & M1 & I1 & K1 & L1 & F1); try done; try lia.
  mrun R1. rewrite (bind_Ret _ _ _ _ _ (PADDR_kva s1 p2 ltac:(lia))). change (ROUNDUP (NENV * sizeof_Env) PGSIZE) with (88 * PGSIZE). change (boot_map_region (kva k 0) UENVS) with (boot_map_region (kva k 0) (UENVS / PGSIZE * PGSIZE)).
  destruct (boot_map_over k own1 l1 s1 (UENVS / PGSIZE) 88 p2 (Z.lor PTE_U PTE_P) _ I1 K1 F1) as (s2 & own2 & l2 & R2 & M2 & I2 & K2 & L2 & F2); try done; try lia.
  mrun R2. rewrite (bind_Ret _ _ _ _ _ (PADDR_kva s2 b ltac:(lia))). change (boot_map_region (kva k 0) (KSTACKTOP - KSTKSIZE) KSTKSIZE) with (boot_map_region (kva k 0) ((KSTACKTOP - KSTKSIZE) / PGSIZE * PGSIZE) (16 * PGSIZE)).
  destruct (boot_map_over k own2 l2 s2 ((KSTACKTOP - KSTKSIZE) / PGSIZE) 16 b (Z.lor PTE_P PTE_W) _ I2 K2 F2) as (s3 & own3 & l3 & R3 & M3 & I3 & K3 & L3 & F3); try done; try lia.
  mrun R3. rewrite u64_small by (unfold PGSIZE; lia). change (boot_map_region (kva k 0) KERNBASE (n * PGSIZE) 0) with (boot_map_region (kva k 0) (KERNBASE / PGSIZE * PGSIZE) (n * PGSIZE) (0 * PGSIZE)).
  destruct (boot_map_over k own3 l3 s3 (KERNBASE / PGSIZE) n 0 (Z.lor PTE_P PTE_W) _ I3 K3 F3) as (s4 & own4 & l4 & R4 & M4 & I4 & K4 & L4 & F4); try done; try lia.
  mrun R4. assert (mm_only s s4) as M by (eauto using mm_only_trans).
  destruct (boot_map_over k own4 l4 s4 ((KSTACKTOP - KSTKSIZE) / PGSIZE) 16 c (Z.lor PTE_P PTE_W) _ I4 K4 F4) as (s5 & own5 & l5 & R5 & M5 & I5 & K5 & L5 & F5); try done; try lia.
  exists s5, own5, l5. split; [|split_ands; try done; [eauto using mm_only_trans|lia]].
  unfold mem_init_mp. change (seqZ 0 NCPU) with [0]. cbn [forM]. msteps. assert (boot_pml4e s4 = kva k 0) as -> by (by rewrite M). rewrite Hc.
  rewrite (bind_Ret _ _ _ _ _ (PADDR_kva s4 c ltac:(lia))). 
  match goal with |- bind (boot_map_region _ ?a ?z _ _) _ _ = _ => change a with ((KSTACKTOP - KSTKSIZE) / PGSIZE * PGSIZE); change z with (16 * PGSIZE) end.
  by mrun R5.
Qed.

Lemma kernel_map_over k n b c v : 0 <= n <= 3276800 ->
  over ((KSTACKTOP - KSTKSIZE) / PGSIZE) 16 c (Z.lor PTE_P PTE_W) (over (KERNBASE / PGSIZE) n 0 (Z.lor PTE_P PTE_W)
    (over ((KSTACKTOP - KSTKSIZE) / PGSIZE) 16 b (Z.lor PTE_P PTE_W) (over (UENVS / PGSIZE) 88 (k + 1 + pages_of (sizeof_PageInfo * n)) (Z.lor PTE_U PTE_P)
      (over (UPAGES / PGSIZE) (pages_of (sizeof_PageInfo * n)) (k + 1) (Z.lor PTE_U PTE_P) (fun _ => 0))))) v = kernel_map k n c v.
Proof.
  intros Hn. unfold kernel_map, over. change (pages_of (sizeof_Env * NENV)) with 88. change (KSTKSIZE / PGSIZE) with 16. set (m := pages_of (sizeof_PageInfo * n)).
  assert (0 <= m <= 12800) as Hm. { unfold m, pages_of, sizeof_PageInfo, PGSIZE. Z.to_euclidean_division_equations. lia. } clearbody m.
  change (UPAGES / PGSIZE) with 134220288. change (UENVS / PGSIZE) with 134219776. change ((KSTACKTOP - KSTKSIZE) / PGSIZE) with 134234096. change (KERNBASE / PGSIZE) with 134234112.
  repeat match goal with |- context [if ?c then _ else _] => destruct c eqn:? end; try lia; done.
Qed.

(** The state before [page_init]. *)
Definition prepared (k t : Z) (s0 : kstate) : kstate :=
  set_envs ∅ (set_nextfree (kva t 0) (set_boot_cr3 (k * PGSIZE) (set_boot_pml4e (kva k 0) (zero_page k s0)))).

(** A kernel that maps its own code has the tables the end of [x64_vm_init]
    looks at. *)
Lemma top_tables k own l s : pt_inv k own l s -> own !! k = Some (k, []) -> pte_of s k KERNBASE <> 0 ->
  exists p q, KADDR (PTE_ADDR (entry s k 1)) s = Ret (kva p 0) s /\ KADDR (PTE_ADDR (entry s p 0)) s = Ret q s.
Proof.
  intros I Hk Hne. rewrite pte_of_descend in Hne. destruct (descend s k (va_path KERNBASE)) as [u|] eqn:Hd; [|done]. change (va_path KERNBASE) with [1; 0; 32] in Hd. cbn [descend] in Hd.
  destruct (Z.eqb_spec (entry s k 1) 0) as [|H1]; [done|]. destruct (Z.eqb_spec (entry s (PPN (entry s k 1)) 0) 0) as [|H0]; [done|].
  assert (own !! PPN (entry s k 1) = Some (k, [1])) as Hp. { apply (pi_child _ _ _ _ I k k []); try done; [cbn; lia|by right]. }
  exists (PPN (entry s k 1)), (kva (PPN (entry s (PPN (entry s k 1)) 0)) 0). split; (apply KADDR_PTE_ADDR; [apply (pi_np _ _ _ _ I)|]).
  - apply (pi_tab _ _ _ _ I _ _ _ Hp).
  - apply (inv_child_range _ _ _ _ I _ k [1]); try done. cbn. lia.
Qed.

(** Physical memory is where KERNBASE says. *)
Lemma kernel_map_memory k n c i : 0 <= i < n -> n <= 3276800 -> kernel_map k n c (KERNBASE / PGSIZE + i) = mk_pte i (Z.lor PTE_P PTE_W).
Proof.
  intros Hi Hn. unfold kernel_map. change (pages_of (sizeof_Env * NENV)) with 88. change (KSTKSIZE / PGSIZE) with 16. set (m := pages_of (sizeof_PageInfo * n)).
  assert (0 <= m <= 12800) as Hm. { unfold m, pages_of, sizeof_PageInfo, PGSIZE. Z.to_euclidean_division_equations. lia. } clearbody m.
  change (UPAGES / PGSIZE) with 134220288. change (UENVS / PGSIZE) with 134219776. change ((KSTACKTOP - KSTKSIZE) / PGSIZE) with 134234096. change (KERNBASE / PGSIZE) with 134234112.
  repeat match goal with |- context [if ?c then _ else _] => destruct c eqn:? end; try lia. f_equal. lia.
Qed.

(** C5: the kernel's address space.  On a machine with enough memory
    [x64_vm_init] returns; the page tables satisfy the invariant every later
    operation keeps, and below 1 TB the kernel maps exactly the environments and
    the page array, read-only for user programs, its stack, with nothing below
    it, and all of physical memory; most pages stay free. *)
Theorem boot_kernel_space cmos loader bootstack percpu_kstacks s s0 b c :
  nextfree s = 0 -> pages s = ∅ -> KERNBASE + EXTPHYSMEM <= end_debug s < KERNBASE + 2 ^ 40 ->
  bootstack = kva b 0 -> percpu_kstacks 0 = kva c 0 -> 0 <= b < 2 ^ 40 -> 0 <= c < 2 ^ 40 ->
  i386_detect_memory cmos loader s = Ret tt s0 ->
  let n := npages s0 in let k := boot_page s in
  k + n / 64 + 128 <= n ->
  exists s' own l, x64_vm_init cmos loader bootstack percpu_kstacks s = Ret tt s' /\ pt_inv k own l s' /\ own !! k = Some (k, []) /\
    boot_pml4e s' = kva k 0 /\ boot_cr3 s' = k * PGSIZE /\ cr3 s' = k * PGSIZE /\ envs s' = ∅ /\ npages s' = n /\ n <= Z.of_nat (length l) + k + n / 64 + 128 /\ maps s' k (kernel_map k n c).
Proof.
  intros Hnf Hpg Hend Hb Hc Hbr Hcr Hdet n k Hmem. destruct (detect_bounds _ _ _ _ Hdet) as [Hmax (n' & nb & Es0)]. assert (n' = n) as -> by (unfold n; by rewrite Es0). fold n in Hmax.
  assert (256 <= k) as Hk. { unfold k, boot_page, pages_of, KERNBASE, EXTPHYSMEM, PGSIZE in *. Z.to_euclidean_division_equations. lia. }
  assert (0 <= n) as Hn0. { Z.to_euclidean_division_equations. lia. }
  set (m := pages_of (sizeof_PageInfo * n)). assert (0 < m <= n / 256 + 1) as Hm. { unfold m, pages_of, sizeof_PageInfo, PGSIZE. Z.to_euclidean_division_equations. lia. }
  set (t := k + 1 + m + 88). assert (t + 3 * (n / 512 + n / 131072 + 6) + 1 < n) as Ht. { unfold t. Z.to_euclidean_division_equations. lia. }
  assert (0 <= n / 512 /\ 0 <= n / 131072) as [Q1 Q2] by (split; apply Z.div_pos; lia).
  destruct (boot_inv k t n (prepared k t s0)) as (s1 & R1 & P1 & I1 & Z1); [done|done|by rewrite Es0|lia|unfold t; lia|lia|lia| |].
  { intros i. unfold entry, prepared. cbn. by rewrite lookup_insert_eq. }
  destruct (vm_maps_run bootstack percpu_kstacks k _ _ s1 n (k + 1) (k + 1 + m) b c I1) as (s2 & own & l & R2 & M2 & I2 & K2 & L2 & F2); try done; try lia.
  { apply lookup_singleton_eq. } { by intros va _. } { by rewrite P1. } { pose proof (free_count t n ltac:(lia)). lia. }
  set (s3 := set_cr3 (k * PGSIZE) s2). assert (pt_inv k own l s3) as I3 by (by apply (pt_inv_same k own l s2)).
  assert (maps s3 k (kernel_map k n c)) as F3. { intros va Hva. rewrite <- (kernel_map_over k n b c) by lia. by apply F2. }
  assert (pte_of s3 k KERNBASE <> 0) as Hkern.
  { rewrite F3 by done. assert (kernel_map k n c (KERNBASE / PGSIZE) = mk_pte 0 (Z.lor PTE_P PTE_W)) as ->; [|by apply mk_pte_nz]. rewrite <- (Z.add_0_r (KERNBASE / PGSIZE)). apply kernel_map_memory; lia. }
  destruct (top_tables k own l s3 I3 K2 Hkern) as (p & q & T1 & T2).
  assert (boot_pml4e s2 = kva k 0 /\ boot_cr3 s2 = k * PGSIZE /\ envs s2 = ∅ /\ npages s2 = n) as (E1 & E2 & E3 & E4). { rewrite M2, P1. done. }
  exists s3, own, l. split; [|split_ands; try done; pose proof (free_count t n ltac:(lia)); Z.to_euclidean_division_equations; lia].
  assert (nextfree s0 = 0 /\ KERNBASE <= end_debug s0 < KERNBASE + 2 ^ 40 /\ boot_page s0 = k) as (Hnf0 & Hend0 & Hk0).
  { rewrite Es0. split; [done|]. split; [|done]. change (KERNBASE <= end_debug s < KERNBASE + 2 ^ 40). unfold EXTPHYSMEM in Hend. lia. }
  unfold x64_vm_init. mrun Hdet. rewrite (bind_Ret _ _ _ _ _ (boot_alloc_first PGSIZE s0 Hnf0 Hend0 ltac:(done))).
  rewrite Hk0. change (pages_of PGSIZE) with 1. rewrite bind_memset_page. msteps.
  rewrite (bind_Ret _ _ _ _ _ (PADDR_kva _ k ltac:(lia))). msteps. cbn [npages set_boot_cr3 set_boot_pml4e]. change (npages (zero_page k (set_nextfree (kva (k + 1) 0) s0))) with n.
  rewrite (u64_small (sizeof_PageInfo * n)), u32_small by (unfold sizeof_PageInfo; lia).
  match goal with |- bind (boot_alloc ?x) _ ?st = _ => rewrite (bind_Ret _ _ _ _ _ (boot_alloc_next (k + 1) x st eq_refl ltac:(lia) ltac:(unfold sizeof_PageInfo; lia))) end. fold m.
  match goal with |- bind (boot_alloc ?x) _ ?st = _ => rewrite (bind_Ret _ _ _ _ _ (boot_alloc_next (k + 1 + m) x st eq_refl ltac:(lia) ltac:(done))) end. msteps.
  match goal with |- bind page_init _ ?st = _ => change st with (prepared k t s0) end. rewrite (bind_Ret _ _ _ _ _ R1), (bind_Ret _ _ _ _ _ R2). msteps. rewrite E2. fold s3.
  rewrite bind_load64 by lia. rewrite (bind_Ret _ _ _ _ _ T1), bind_load64 by lia. by rewrite (bind_Ret _ _ _ _ _ T2).
Qed.

(** A machine with 640K of base memory and 15M of extended memory, and a kernel
    that ends at 2M. *)
Definition demo_cmos (r : Z) : Z := if r =? 0x15 then 0x80 else if r =? 0x16 then 0x02 else if r =? 0x18 then 0x3c else 0.

Definition demo_boot : kstate := set_nextfree 0 (machine 0 (KERNBASE + 0x200000)).

Lemma boot_kernel_space_witness : npages (set_npages 4096 (set_npages_basemem 160 demo_boot)) = 4096 /\
  exists s' own l, x64_vm_init demo_cmos None (kva 300 0) (fun _ => kva 320 0) demo_boot = Ret tt s' /\ pt_inv 512 own l s' /\ own !! 512 = Some (512, []) /\
    boot_pml4e s' = kva 512 0 /\ boot_cr3 s' = 512 * PGSIZE /\ cr3 s' = 512 * PGSIZE /\ envs s' = ∅ /\ npages s' = 4096 /\ 4096 <= Z.of_nat (length l) + 512 + 4096 / 64 + 128 /\ maps s' 512 (kernel_map 512 4096 320).
Proof.
  split; [done|]. apply (boot_kernel_space demo_cmos None (kva 300 0) (fun _ => kva 320 0) demo_boot (set_npages 4096 (set_npages_basemem 160 demo_boot)) 300 320); try done.
Defined.

(** With 3000M of memory the size above 16M, in units of 64K, does not fit into
    an [int] as a number of bytes: the kernel believes that it has as many pages
    as the window at UPAGES can describe, less 1024. *)
Example detect_overflow : match i386_detect_memory (fun r => if r =? 0x15 then 0x80 else if r =? 0x16 then 0x02 else if (r =? 0x17) || (r =? 0x18) then 0xff
  else if r =? 0x34 then 0x80 else if r =? 0x35 then 0xba else 0) None demo_boot with Ret _ s => npages s = 3276800 - 1024 | _ => False end.
Proof. by vm_compute. Qed.

(** A usual memory map: low memory, the video and firmware hole, 31M of extended
    memory in two adjacent parts. *)
Definition demo_mmap (i : Z) : memory_map :=
  if i =? 0 then mkMmap 0 0 0x9fc00 0 1 else if i =? 1 then mkMmap 0x9fc00 0 0x60400 0 2 else if i =? 2 then mkMmap 0x100000 0 0xf00000 0 1 else mkMmap 0x1000000 0 0x1000000 0 1.

Example multiboot_read_sorted : match multiboot_read (mkMbinfo 0x40 96 demo_mmap) (mkMb demo_mmap (fun _ => None)) with Ret x _ => x = (0x9fc00, 0x1f00000) | _ => False end.
Proof. by vm_compute. Qed.

(** When the last entry of the map has to be inserted before another one,
    [mmap_list] is written behind its end. *)
Example multiboot_read_overrun : exists msg s, multiboot_read (mkMbinfo 0x40 48 (fun i => demo_mmap (1 - i))) (mkMb (fun i => demo_mmap (1 - i)) (fun _ => None)) = Panic msg s.
Proof. eexists _, _. vm_compute. reflexivity. Qed.
