(* ===== verification/Ept.v ===== *)
(** Extended page tables of guest environments: vmm/ept.c. *)

From S2P Require Import Prelude Kernel PageAlloc PageTable PageTableInv PageTableSpec.

(** inc/ept.h and vmm/ept.h *)
Definition EPTE_READ : Z := 0x01.
Definition EPTE_WRITE : Z := 0x02.
Definition EPTE_EXEC : Z := 0x04.
Definition EPTE_IPAT : Z := 0x40.
Definition EPTE_FULL : Z := Z.lor (Z.lor EPTE_READ EPTE_WRITE) EPTE_EXEC.
Definition EPT_LEVELS : nat := 4.
Definition EPTE_ADDR : Z := Z.lnot (PGSIZE - 1).
Definition EPTE_FLAGS : Z := PGSIZE - 1.

(** ** The code *)

Definition epte_addr (epte : Z) : Z := Z.land epte EPTE_ADDR.
Definition epte_flags (epte : Z) : Z := Z.land epte EPTE_FLAGS.
Definition epte_present (epte : Z) : bool := 0 <? Z.land epte EPTE_FULL.
Definition epte_page_vaddr (epte : Z) : K Z := KADDR (epte_addr epte).

(** The result and [*epte_out]. *)
Definition ept_lookup_gpa (eptrt gpa : Z) (create : bool) : K (Z * option Z) :=
  if eptrt =? 0 then ret (- E_INVAL, None)
  else
    let! pte := pml4e_walk eptrt gpa create in
    match pte with
    | None => ret (- E_NO_ENT, None)
    | Some pte =>
        let pml := index8 eptrt (PML4 gpa) in
        let! e4 := load64 pml in
        let! pdpe0 := KADDR (PTE_ADDR e4) in
        let pdpe := index8 pdpe0 (PDPE gpa) in
        let! e3 := load64 pdpe in
        let! pde := KADDR (PTE_ADDR e3) in
        let! e4 := load64 pml in
        do! store64 (index8 eptrt (PML4 gpa)) (Z.lor (PTE_ADDR e4) EPTE_FULL) ;;
        let! x3 := load64 (index8 pdpe (PDPE gpa)) in
        do! store64 (index8 pdpe (PDPE gpa)) (Z.lor (PTE_ADDR x3) EPTE_FULL) ;;
        let! x2 := load64 (index8 pde (PDX gpa)) in
        do! store64 (index8 pde (PDX gpa)) (Z.lor (PTE_ADDR x2) EPTE_FULL) ;;
        ret (0, Some pte)
    end.

(** [*hva], with 0 for NULL *)
Definition ept_gpa2hva (eptrt gpa : Z) : K Z :=
  let! r := ept_lookup_gpa eptrt gpa false in
  match r with
  | (_, Some pte) =>
      let! e := load64 pte in
      if epte_present e then KADDR (epte_addr e) else ret 0
  | (_, None) => ret 0
  end.

Fixpoint free_ept_level (level : nat) (eptrt : Z) : K unit :=
  forM (seqZ 0 NPTENTRIES) (fun i =>
    let! e := load64 (index8 eptrt i) in
    match level with
    | S level' =>
        if epte_present e then
          let pa := epte_addr e in
          let! t := KADDR pa in
          do! free_ept_level level' t ;;
          let! pp := pa2page pa in
          page_decref pp
        else ret tt
    | O =>
        if epte_present e then
          let pa := epte_addr e in
          let! pp := pa2page pa in
          page_decref pp
        else ret tt
    end).

Definition free_guest_mem (eptrt : Z) : K unit := free_ept_level (EPT_LEVELS - 1) eptrt.

Definition ept_page_insert (eptrt pp gpa perm : Z) : K Z :=
  let! r := ept_lookup_gpa eptrt gpa true in
  match r with
  | (0, Some epte_out) =>
      let slot := index8 epte_out (PTX gpa) in
      let! e := load64 slot in
      do! store64 slot (Z.lor (Z.lor (PTE_ADDR e) perm) EPTE_IPAT) ;;
      ret 0
  | _ => ret 0
  end.

Definition ept_map_hva2gpa (eptrt hva gpa perm : Z) (overwrite : bool) : K Z :=
  let! r := ept_lookup_gpa eptrt gpa true in
  match r with
  | (0, Some ept) =>
      let! e := load64 ept in
      if nz e then
        if negb overwrite then ret (- E_INVAL)
        else
          let! pa := PADDR hva in
          do! store64 ept (Z.lor (Z.lor pa perm) EPTE_IPAT) ;;
          ret 0
      else
        let! pa := PADDR hva in
        do! store64 ept (Z.lor (Z.lor pa perm) EPTE_IPAT) ;;
        ret 0
  | _ => ret (- E_INVAL)
  end.

(** [page_alloc] is not checked: a null page is a null dereference. *)
Definition ept_alloc_page (eptrt i : Z) : K unit :=
  let! r := page_alloc 0 in
  match r with
  | None => panic "null pointer dereference"
  | Some p =>
      do! upd_page p (fun x => set_pp_ref (u16 (pp_ref x + 1)) x) ;;
      let! k := page2kva p in
      do! ept_map_hva2gpa eptrt k i EPTE_FULL false ;;
      ret tt
  end.

Definition ept_alloc_static (eptrt phys_sz : Z) : K Z :=
  do! forM (seqZ 0 (0xA0000 / PGSIZE)) (fun i => ept_alloc_page eptrt (i * PGSIZE)) ;;
  do! forM (seqZ 0 ((phys_sz - 0x100000 + PGSIZE - 1) / PGSIZE))
        (fun i => ept_alloc_page eptrt (0x100000 + i * PGSIZE)) ;;
  ret 0.
