(* ===== verification/EptProps.v ===== *)
(** What the extended page tables of vmm/ept.c give a guest: the memory set up
    by [ept_alloc_static] is one page of the host for each page of the guest,
    and [ept_gpa2hva] finds it. *)

From S2P Require Import Prelude Kernel PageAlloc PageTable PageTableInv PageTableSpec PageTableProps Ept.

(** ** Entries whose flags change

    [ept_lookup_gpa] rewrites the flags of the entries above the last level;
    the tree they span stays the same. *)
Definition interior (own : owners) (q : Z) : Prop :=
  exists r path, own !! q = Some (r, path) /\ (length path < 3)%nat.

Record retagged (own : owners) (s s' : kstate) : Prop := {
  rt_mem : exists m, s' = set_mem m s;
  rt_entry : forall q j, entry s' q j = entry s q j \/
    (interior own q /\ entry s' q j <> 0 /\ entry s q j <> 0 /\
     Z.land (entry s' q j) PTE_PWU = PTE_PWU /\ PPN (entry s' q j) = PPN (entry s q j));
}.

Lemma retagged_refl own s : retagged own s s.
Proof. split; [exists (mem s); by destruct s|by left]. Qed.

Lemma retagged_trans own s1 s2 s3 : retagged own s1 s2 -> retagged own s2 s3 -> retagged own s1 s3.
Proof.
  intros [[m1 ->] H1] [[m2 ->] H2]. split; [by exists m2|]. intros q j.
  destruct (H1 q j) as [E1|(A1 & A2 & A3 & A4 & A5)], (H2 q j) as [E2|(B1 & B2 & B3 & B4 & B5)].
  - left. congruence.
  - right. rewrite <- E1. done.
  - right. rewrite E2. done.
  - right. split_ands; try done. congruence.
Qed.

Lemma retagged_entry own s s' q j :
  retagged own s s' -> (entry s' q j = 0 <-> entry s q j = 0) /\ PPN (entry s' q j) = PPN (entry s q j).
Proof. intros [_ H]. destruct (H q j) as [->|(_ & ? & ? & _ & ?)]; [done|]. split; [|done]. split; done. Qed.

Lemma retagged_leaf own s s' q j r path :
  retagged own s s' -> own !! q = Some (r, path) -> length path = 3%nat -> entry s' q j = entry s q j.
Proof.
  intros [_ H] Hq Hl. destruct (H q j) as [|((r' & path' & Hq' & Hl') & _)]; [done|].
  rewrite Hq in Hq'. inversion Hq'; subst. lia.
Qed.

Lemma retagged_other own s s' q j : retagged own s s' -> own !! q = None -> entry s' q j = entry s q j.
Proof. intros [_ H] Hq. destruct (H q j) as [|((r' & path' & Hq' & _) & _)]; [done|]. congruence. Qed.

Lemma retagged_user_slot own s s' p x : retagged own s s' -> user_slot own s' p x <-> user_slot own s p x.
Proof.
  intros H. unfold user_slot. split; intros (H1 & (r & a & b & H2) & H3); (split; [done|split; [by exists r, a, b|]]);
    revert H3; by rewrite (retagged_leaf _ _ _ _ _ _ _ H H2).
Qed.

Lemma retagged_inv k own l s s' : retagged own s s' -> pt_inv k own l s -> pt_inv k own l s'.
Proof.
  intros Hrt I. pose proof I as [I1 I2 I3 I4 I5 I6 I7 I8 I9 I10 I11 I12].
  pose proof (fun q j => retagged_entry own s s' q j Hrt) as He.
  destruct (rt_mem _ _ _ Hrt) as [m Hm].
  assert (npages s' = npages s /\ pages s' = pages s /\ page_free_list s' = page_free_list s) as (Hn & Hpg & Hfl)
    by (by rewrite Hm).
  assert (forall q, ref_of s' q = ref_of s q) as Hr by (intros q; by rewrite Hm).
  split; try done.
  - unfold npages_ok. by rewrite Hn.
  - apply (free_list_ok_ext s); [done|done| |done]. intros q _. unfold page_at. by rewrite Hpg.
  - intros q. rewrite Hm. apply I3.
  - intros q. rewrite Hr. apply I4.
  - intros t r path Ht. rewrite Hn, Hr. by eapply I5.
  - intros t r path i Ht Hl Hi Hp Hne. destruct (He t i) as [Hz ->]. apply I8; try done. by rewrite <- Hz.
  - intros t r path i Ht. destruct (I9 _ _ _ _ Ht) as (Hs & t' & Ht' & Hne & HP). split; [done|].
    exists t'. destruct (He t' i) as [Hz ->]. by rewrite Hz.
  - intros t r a b i Ht. rewrite (retagged_leaf _ _ _ _ _ _ _ Hrt Ht), Hn by done. by apply (I10 _ _ _ _ _ Ht).
  - intros q L Hnd HL. rewrite Hr. apply I11; [done|]. eapply Forall_impl; [exact HL|].
    intros x. by apply (retagged_user_slot own s s').
  - intros t r path i Ht Hl Hi Hp Hne. destruct (rt_entry _ _ _ Hrt t i) as [Heq|(_ & _ & _ & Hf & _)]; [|done].
    rewrite Heq in *. by apply (I12 t r path).
Qed.

Lemma retagged_descend own s s' t js : retagged own s s' -> descend s' t js = descend s t js.
Proof.
  intros Hrt. revert t. induction js as [|j js IH]; intros t; [done|]. cbn.
  destruct (retagged_entry own s s' t j Hrt) as [Hz ->].
  destruct (Z.eqb_spec (entry s' t j) 0), (Z.eqb_spec (entry s t j) 0); tauto || done || apply IH.
Qed.

Lemma retagged_pte_of k own l s s' r va :
  retagged own s s' -> pt_inv k own l s -> own !! r = Some (r, []) -> priv k r (PML4 va) ->
  pte_of s' r va = pte_of s r va.
Proof.
  intros Hrt I Hr Hp. rewrite !pte_of_descend, (retagged_descend _ _ _ _ _ Hrt).
  destruct (descend s r (va_path va)) as [u|] eqn:Hd; [|done].
  eapply retagged_leaf; [done|by eapply va_descend_owned|done].
Qed.

Lemma retag_entry own s t i r path e :
  own !! t = Some (r, path) -> (length path < 3)%nat -> entry s t i <> 0 ->
  0 <= PPN (entry s t i) -> e = Z.lor (PTE_ADDR (entry s t i)) EPTE_FULL ->
  retagged own s (set_entry t i e s).
Proof.
  intros Ht Hl Hne Hp ->. split; [by eexists|]. intros q j. rewrite entry_set_entry. case_decide as Hd; [|by left].
  destruct Hd as [<- <-]. right. rewrite PTE_ADDR_eq, lor_flags, PPN_add by done.
  split_ands; try done; [by exists r, path| |by rewrite land_page].
  change EPTE_FULL with 7. unfold PGSIZE. lia.
Qed.

(** ** Lookup *)

Lemma low_idx gpa : 0 <= gpa < 2 ^ 30 -> PML4 gpa = 0 /\ PDPE gpa = 0.
Proof. intros H. rewrite PML4_eq, PDPE_eq. rewrite !Z.div_small by lia. done. Qed.

(** The two tables above a last-level table of the first gigabyte. *)
Lemma ept_parents k own l s r u gpa :
  pt_inv k own l s -> own !! r = Some (r, []) -> PML4 gpa = 0 -> PDPE gpa = 0 ->
  own !! u = Some (r, va_path gpa) ->
  exists t1 t2, own !! t1 = Some (r, [0]) /\ own !! t2 = Some (r, [0; 0]) /\
    (entry s r 0 <> 0 /\ PPN (entry s r 0) = t1) /\ (entry s t1 0 <> 0 /\ PPN (entry s t1 0) = t2) /\
    entry s t2 (PDX gpa) <> 0 /\ PPN (entry s t2 (PDX gpa)) = u.
Proof.
  intros I Hr H4 H3 Hu. unfold va_path in Hu. rewrite H4, H3 in Hu.
  destruct (pi_parent _ _ _ _ I u r [0; 0] (PDX gpa) Hu) as (_ & t2 & Ht2 & Hn2 & HP2).
  destruct (pi_parent _ _ _ _ I t2 r [0] 0 Ht2) as (_ & t1 & Ht1 & Hn1 & HP1).
  destruct (pi_parent _ _ _ _ I t1 r [] 0 Ht1) as (_ & t0 & Ht0 & Hn0 & HP0).
  rewrite (pi_inj _ _ _ _ I _ _ _ Ht0 Hr) in *. by exists t1, t2.
Qed.

(** Below 1 GB, once the walk has found the slot, the lookup returns it and
    leaves the tree as it is. *)
Lemma ept_lookup_run k own l s0 s r u gpa create :
  pt_inv k own l s -> own !! r = Some (r, []) -> 0 <= gpa < 2 ^ 30 -> own !! u = Some (r, va_path gpa) ->
  pml4e_walk (kva r 0) gpa create s0 = Ret (Some (kva u (PTX gpa))) s ->
  exists s', ept_lookup_gpa (kva r 0) gpa create s0 = Ret (0, Some (kva u (PTX gpa))) s' /\ retagged own s s'.
Proof.
  intros I Hr Hg Hu Hw. destruct (low_idx gpa Hg) as [H4 H3].
  destruct (ept_parents _ _ _ _ _ _ _ I Hr H4 H3 Hu) as (t1 & t2 & Ht1 & Ht2 & (N0 & P0) & (N1 & P1) & N2 & P2).
  pose proof (pi_np _ _ _ _ I) as Hnp. pose proof (pi_tab _ _ _ _ I _ _ _ Hr) as (Hrr & _).
  pose proof (pi_tab _ _ _ _ I _ _ _ Ht1) as (Ht1r & _). pose proof (pi_tab _ _ _ _ I _ _ _ Ht2) as (Ht2r & _).
  pose proof (pi_tab _ _ _ _ I _ _ _ Hu) as (Hur & _).
  assert (r <> t1 /\ r <> t2 /\ t1 <> t2) as (D1 & D2 & D3) by (split_ands; intros Heq; congruence).
  unfold ept_lookup_gpa. destruct (Z.eqb_spec (kva r 0) 0) as [Hz|_]; [exfalso; by apply (kva_nz r 0) in Hz; lia|].
  mrun Hw. rewrite H4, H3. rewrite bind_load64 by lia.
  assert (KADDR (PTE_ADDR (entry s r 0)) s = Ret (kva t1 0) s) as K1 by (rewrite KADDR_PTE_ADDR, P0; [done|done|lia]).
  mrun K1. rewrite bind_load64 by lia.
  assert (KADDR (PTE_ADDR (entry s t1 0)) s = Ret (kva t2 0) s) as K2 by (rewrite KADDR_PTE_ADDR, P1; [done|done|lia]).
  mrun K2. rewrite bind_load64, bind_store64 by lia. rewrite (index8_kva t1 0 0).
  set (s1 := set_entry r 0 _ s). change (0 + 0) with 0. rewrite bind_load64, bind_store64 by lia.
  assert (entry s1 t1 0 = entry s t1 0) as E1 by (apply entry_set_entry_ne; by left). rewrite E1.
  set (s2 := set_entry t1 0 _ s1).
  assert (entry s2 t2 (PDX gpa) = entry s t2 (PDX gpa)) as E2.
  { unfold s2. rewrite entry_set_entry_ne by (by left). unfold s1. by rewrite entry_set_entry_ne by (by left). }
  rewrite bind_load64, bind_store64 by apply PDX_range. rewrite E2. eexists. split; [done|].
  eapply retagged_trans; [eapply (retag_entry own s r 0 r []); try done; cbn; lia|].
  eapply retagged_trans; [eapply (retag_entry own s1 t1 0 r [0]); rewrite ?E1; try done; cbn; lia|].
  eapply (retag_entry own s2 t2 _ r [0; 0]); rewrite ?E2; try done; cbn; lia.
Qed.

Lemma ept_present_flags p f : 0 <= f < PGSIZE -> Z.land f EPTE_FULL <> 0 -> epte_present (p * PGSIZE + f) = true.
Proof.
  intros Hf Hne. unfold epte_present. rewrite <- lor_flags by done. rewrite Z.land_lor_distr_l.
  assert (Z.land (p * PGSIZE) EPTE_FULL = 0) as ->.
  { change PGSIZE with (2 ^ 12). rewrite <- Z.shiftl_mul_pow2 by done. apply Z.bits_inj'. intros n Hn.
    rewrite Z.land_spec, Z.bits_0, Z.shiftl_spec by done.
    destruct (decide (n < 12)) as [Hlt|]; [by rewrite Z.testbit_neg_r by lia|].
    rewrite andb_false_iff. right. apply Z.bits_above_log2; [done|]. change (Z.log2 EPTE_FULL) with 2. lia. }
  rewrite Z.lor_0_l. pose proof (proj2 (Z.land_nonneg f EPTE_FULL) ltac:(left; lia)). lia.
Qed.

Lemma epte_addr_eq e : epte_addr e = PPN e * PGSIZE.
Proof. rewrite <- PTE_ADDR_eq. reflexivity. Qed.

(** The host address of a mapped guest page. *)
Lemma ept_gpa2hva_run k own l s r gpa p f :
  pt_inv k own l s -> own !! r = Some (r, []) -> 0 <= gpa < 2 ^ 30 ->
  pte_of s r gpa = p * PGSIZE + f -> 0 <= p < npages s -> 0 <= f < PGSIZE -> Z.land f EPTE_FULL <> 0 ->
  exists s', ept_gpa2hva (kva r 0) gpa s = Ret (kva p 0) s' /\ retagged own s s'.
Proof.
  intros I Hr Hg He Hp Hf Hfl. destruct (low_idx gpa Hg) as [H4 H3].
  assert (p * PGSIZE + f <> 0) as Hne.
  { intros H0. assert (f = 0) as -> by (unfold PGSIZE in *; lia). done. }
  pose proof (pml4e_walk_look k own l s r gpa I Hr (or_introl H4)) as Hw.
  rewrite pte_of_descend in He. destruct (descend s r (va_path gpa)) as [u|] eqn:Hd; [|congruence].
  pose proof (va_descend_owned _ _ _ _ _ _ _ I Hr (or_introl H4) Hd) as Hu.
  destruct (ept_lookup_run _ _ _ _ _ _ _ _ _ I Hr Hg Hu Hw) as (s' & Hrun & Hrt).
  exists s'. split; [|done]. unfold ept_gpa2hva. mrun Hrun.
  rewrite (bind_Ret _ _ _ _ _ (load64_kva u _ s' (PTX_range gpa))).
  rewrite (retagged_leaf _ _ _ _ _ _ _ Hrt Hu) by done. rewrite He, ept_present_flags by done.
  rewrite epte_addr_eq, PPN_add by done. destruct (rt_mem _ _ _ Hrt) as [m ->].
  apply KADDR_page; [apply (pi_np _ _ _ _ I)|done].
Qed.

(** ** Mapping *)

(** A reference that no entry holds can be dropped from the count. *)
Lemma unref_inv k own l s p :
  pt_inv k own l s -> own !! p = None -> p ∉ l -> 1 <= ref_of s p -> (forall x, ~ user_slot own s p x) ->
  pt_inv k own l (set_pages (<[p := set_pp_ref (ref_of s p - 1) (page_at s p)]> (pages s)) s).
Proof.
  intros I Ho Hl Hr Hus. pose proof I as [I1 I2 I3 I4 I5 I6 I7 I8 I9 I10 I11 I12]. set (s' := set_pages _ s).
  assert (forall q, page_at s' q = if decide (p = q) then set_pp_ref (ref_of s p - 1) (page_at s p) else page_at s q)
    as Hpg by (intros q; apply page_at_upd).
  assert (forall q, ref_of s' q = if decide (p = q) then ref_of s p - 1 else ref_of s q) as Href
    by (intros q; unfold ref_of at 1; rewrite Hpg; by case_decide).
  split; try done.
  - apply (free_list_ok_ext s); [done|done| |done]. intros q Hq. rewrite Hpg, decide_False; [done|]. by intros ->.
  - intros q Hq. unfold link_of. rewrite Hpg. pose proof (I3 q Hq). by case_decide; subst.
  - intros q. rewrite Href. pose proof (I4 q). pose proof (I4 p). case_decide; lia.
  - intros t r path Ht. rewrite Href, decide_False by congruence. by eapply I5.
  - intros q L Hnd HL. rewrite Href. case_decide; [subst|by apply I11].
    destruct L as [|x L]; [cbn; lia|]. apply Forall_cons in HL as [Hx _]. by apply Hus in Hx.
Qed.

(** Entering a page whose reference the caller has counted. *)
Lemma ept_slot_fill k own l s u r a b j v :
  pt_inv k own l s -> own !! u = Some (r, [0; a; b]) -> 0 <= j < 512 -> entry s u j = 0 -> v <> 0 ->
  0 <= PPN v < npages s -> own !! PPN v = None -> PPN v ∉ l -> 1 <= ref_of s (PPN v) ->
  (forall x, ~ user_slot own s (PPN v) x) -> pt_inv k own l (set_entry u j v s).
Proof.
  intros I Hu Hj He Hv Hp Ho Hl Hr Hus. pose proof (unref_inv _ _ _ _ _ I Ho Hl Hr Hus) as I0.
  set (s0 := set_pages _ s) in I0.
  assert (forall q, ref_of s0 q = if decide (PPN v = q) then ref_of s (PPN v) - 1 else ref_of s q) as Href.
  { intros q. unfold ref_of at 1. subst s0. rewrite page_at_upd. by case_decide. }
  eapply (leaf_inv k own l l s0 _ u j v r a b I0); try done.
  - intros q i. change (entry s0 q i) with (entry s q i). apply entry_set_entry.
  - intros q. change (ref_of (set_entry u j v s) q) with (ref_of s q).
    change (entry s0 u j) with (entry s u j). rewrite He, cnt_0, cnt_nz, Href by done. case_decide; subst; lia.
  - apply (free_list_ok_ext s); try done. apply (pi_fl _ _ _ _ I).
  - apply (pi_link _ _ _ _ I).
  - apply (pi_ref _ _ _ _ I).
Qed.

(** The address space after a guest page has been added. *)
Record ept_mapped (k : Z) (own own' : owners) (l l' : list Z) (s s' : kstate) (r gpa v : Z) : Prop := {
  em_mm : mm_only s s';
  em_inv : pt_inv k own' l' s';
  em_own : own ⊆ own';
  em_out : forall q, q ∉ l -> own' !! q = own !! q;
  em_free : l' `suffix_of` l;
  em_len : (length l <= length l' + 3)%nat;
  em_page : forall q, q ∉ l -> page_at s' q = page_at s q;
  em_pte : forall r' va', own !! r' = Some (r', []) -> priv k r' (PML4 va') ->
    pte_of s' r' va' = if decide (r = r' /\ va_idx gpa = va_idx va') then v else pte_of s r' va';
}.

Lemma ept_map_run k own l s r p gpa perm :
  pt_inv k own l s -> own !! r = Some (r, []) -> 0 <= gpa < 2 ^ 30 -> (3 <= length l)%nat ->
  pte_of s r gpa = 0 -> 0 <= p < npages s -> own !! p = None -> p ∉ l -> 1 <= ref_of s p ->
  (forall x, ~ user_slot own s p x) -> 0 <= perm < PGSIZE ->
  exists s' own' l', ept_map_hva2gpa (kva r 0) (kva p 0) gpa perm false s = Ret 0 s' /\
    ept_mapped k own own' l l' s s' r gpa (p * PGSIZE + Z.lor perm EPTE_IPAT).
Proof.
  intros I Hr Hg Hlen Hz Hp Ho Hl Href Hus Hperm. destruct (low_idx gpa Hg) as [H4 H3].
  assert (0 < Z.lor perm EPTE_IPAT < PGSIZE) as Hfl.
  { pose proof (lor_range perm EPTE_IPAT 12 ltac:(lia) Hperm ltac:(done)) as Hlr.
    change (2 ^ 12) with PGSIZE in Hlr. split; [|lia].
    destruct (decide (Z.lor perm EPTE_IPAT = 0)) as [H0|]; [by apply Z.lor_eq_0_iff in H0 as [_ H0]|lia]. }
  destruct (pml4e_walk_create k own l s r gpa I Hr (or_introl H4)) as (res & s1 & Hw & Hf & Hpost).
  destruct res as [a|]; cbn [walk_post] in Hpost; [|destruct Hpost as (_ & _ & H); cbn in H; lia].
  destruct Hpost as (u & own1 & l1 & -> & I1 & Hu & Hsub & Hq & Hsuf & Hrd & Hll & Hus1).
  assert (own1 !! r = Some (r, [])) as Hr1 by (by eapply lookup_weaken).
  destruct (ept_lookup_run _ _ _ _ _ _ _ _ _ I1 Hr1 Hg Hu Hw) as (s2 & Hrun & Hrt).
  pose proof (retagged_inv _ _ _ _ _ Hrt I1) as I2. pose proof (PTX_range gpa) as Hj.
  assert (forall r' va', own !! r' = Some (r', []) -> priv k r' (PML4 va') -> pte_of s2 r' va' = pte_of s r' va') as Hsame.
  { intros r' va' Hr' Hp'. rewrite (retagged_pte_of _ _ _ _ _ _ _ Hrt I1); [|by eapply lookup_weaken|done].
    unfold pte_of. apply (Hrd r' r' []); [done|apply va_idx_ok|done|]. intros j js' H. by inversion H; subst. }
  assert (entry s2 u (PTX gpa) = 0) as He.
  { rewrite <- Hz, <- (Hsame r gpa Hr (or_introl H4)). symmetry. by eapply pte_of_owned. }
  assert (mm_only s1 s2 /\ forall q, page_at s2 q = page_at s1 q) as [Hmm Hpg].
  { destruct (rt_mem _ _ _ Hrt) as [m ->]. split; [unfold mm_only; by destruct s1|done]. }
  assert (forall q, q ∈ l1 -> q ∈ l) as Hl1 by (intros q; destruct Hsuf as [l0 ->]; lset).
  assert (0 <= p < npages s2) as Hp2.
  { by rewrite (mm_only_npages _ _ Hmm), (mm_only_npages _ _ (wf_mm _ _ _ _ _ Hf)). }
  set (v := p * PGSIZE + Z.lor perm EPTE_IPAT).
  assert (PPN v = p) as HP by (apply PPN_add; lia).
  exists (set_entry u (PTX gpa) v s2), own1, l1. split.
  { unfold ept_map_hva2gpa. mrun Hrun. rewrite (bind_Ret _ _ _ _ _ (load64_kva u _ s2 Hj)), He.
    change (nz 0) with false. cbv iota.
    assert (PADDR (kva p 0) s2 = Ret (p * PGSIZE) s2) as Hpa by (apply PADDR_kva; lia). mrun Hpa.
    rewrite (bind_Ret _ _ _ _ _ (store64_kva u _ _ s2 Hj)).
    by rewrite <- Z.lor_assoc, lor_flags by lia. }
  split; try done.
  - eapply mm_only_trans; [apply (wf_mm _ _ _ _ _ Hf)|]. eapply mm_only_trans; [exact Hmm|].
    unfold mm_only. by destruct s2.
  - eapply ept_slot_fill; rewrite ?HP; try done.
    + rewrite Hu. unfold va_path. by rewrite H4.
    + unfold v, PGSIZE. lia.
    + by rewrite Hq.
    + auto.
    + unfold ref_of. by rewrite Hpg, (wf_page _ _ _ _ _ Hf).
    + intros x Hx. apply (Hus x), Hus1, (retagged_user_slot _ _ _ _ _ Hrt), Hx.
  - intros q Hql. change (page_at (set_entry u (PTX gpa) v s2) q) with (page_at s2 q).
    by rewrite Hpg, (wf_page _ _ _ _ _ Hf).
  - intros r' va' Hr' Hp'. rewrite <- (Hsame r' va') by done.
    eapply (leaf_reads k own1 l1 s2); try done; [apply entry_set_entry|by eapply lookup_weaken].
Qed.

(** ** The memory of a guest *)

Notation EPTE_RAM := (Z.lor EPTE_FULL EPTE_IPAT).

(** Taking a free page and giving it to the guest, call by call. *)
Lemma fresh_page_run k own p l s r gpa :
  pt_inv k own (p :: l) s -> own !! r = Some (r, []) -> 0 <= gpa < 2 ^ 30 -> (3 <= length l)%nat ->
  pte_of s r gpa = 0 ->
  exists s0 s1 s' own' l', page_alloc 0 s = Ret (Some p) s0 /\
    upd_page p (fun x => set_pp_ref (u16 (pp_ref x + 1)) x) s0 = Ret tt s1 /\ page2kva p s1 = Ret (kva p 0) s1 /\
    ept_map_hva2gpa (kva r 0) (kva p 0) gpa EPTE_FULL false s1 = Ret 0 s' /\ mm_only s s' /\ pt_inv k own' l' s' /\
    own ⊆ own' /\ (forall q, q ∉ l -> own' !! q = own !! q) /\ l' `suffix_of` l /\
    (length l <= length l' + 3)%nat /\ ref_of s' p = 1 /\
    (forall q, q ∉ p :: l -> page_at s' q = page_at s q) /\
    (forall r' va', own !! r' = Some (r', []) -> priv k r' (PML4 va') ->
      pte_of s' r' va' = if decide (r = r' /\ va_idx gpa = va_idx va') then p * PGSIZE + EPTE_RAM else pte_of s r' va').
Proof.
  intros I Hr Hg Hlen Hz. pose proof (pi_np _ _ _ _ I) as Hnp. pose proof (pi_fl _ _ _ _ I) as Hfl.
  pose proof (inv_free_range _ _ _ _ I p ltac:(lset)) as Hp. pose proof (inv_free_ref _ _ _ _ I p ltac:(lset)) as Hr0.
  pose proof (inv_free_not_owned _ _ _ _ I p ltac:(lset)) as Ho.
  pose proof (fl_nodup _ _ Hfl) as Hnd. apply NoDup_cons in Hnd as [Hpl _].
  pose proof (page_alloc_pop 0 s p l Hnp Hfl) as Hpop.
  set (s0 := popped 0 p (head l) s) in Hpop. set (s1 := set_pages (<[p := set_pp_ref (u16 (pp_ref (page_at s0 p) + 1)) (page_at s0 p)]> (pages s0)) s0).
  assert (forall q, page_at s1 q = if decide (p = q) then mkPageInfo None 1 else page_at s q) as Hpg.
  { intros q. subst s1. rewrite page_at_upd. case_decide; subst s0.
    - rewrite popped_page_at, decide_True by done. cbn. change (pp_ref (page_at s p)) with (ref_of s p). by rewrite Hr0.
    - by rewrite popped_page_at, decide_False. }
  assert (same_tables own s s1) as Hst.
  { intros t i [x Ht]. change (entry s1 t i) with (entry s0 t i). subst s0. rewrite popped_entry.
    rewrite bool_decide_eq_false_2 by congruence. by rewrite andb_false_r. }
  assert (ref_of s1 p = 1) as Hr1 by (unfold ref_of; by rewrite Hpg, decide_True).
  assert (npages s1 = npages s) as Hn1 by apply popped_npages.
  assert (pt_inv k own l s1) as I1.
  { apply (pt_inv_take k own l s s1 p I Hn1); [| | |lia|done].
    - eapply free_list_ok_ext; [..|apply (popped_free_list 0 s p l Hfl)]; [done|done|].
      intros q Hq. rewrite Hpg, popped_page_at. rewrite !decide_False; [done|congruence|congruence].
    - intros q Hq. by rewrite Hpg, decide_False.
    - unfold link_of. by rewrite Hpg, decide_True. }
  assert (page2kva p s1 = Ret (kva p 0) s1) as Hk by (apply page2kva_ok; unfold npages_ok in *; lia).
  assert (upd_page p (fun x => set_pp_ref (u16 (pp_ref x + 1)) x) s0 = Ret tt s1) as Hupd by reflexivity.
  assert (mm_only s s1) as Hmm by (unfold mm_only; by destruct s).
  pose proof (same_tables_reads _ _ _ _ _ I Hst) as Hrd. clearbody s1. clearbody s0.
  assert (forall r' va', own !! r' = Some (r', []) -> priv k r' (PML4 va') -> pte_of s1 r' va' = pte_of s r' va') as Hsame.
  { intros r' va' Hr' Hp'. apply (Hrd r' r' []); [done|apply va_idx_ok|done|]. intros j js' H. by inversion H; subst. }
  destruct (ept_map_run k own l s1 r p gpa EPTE_FULL) as (s2 & own2 & l2 & Hrun & Hm);
    [exact I1|exact Hr|exact Hg|exact Hlen| |lia|exact Ho|exact Hpl|lia| |done|].
  - rewrite Hsame; [exact Hz|exact Hr|]. left. exact (proj1 (low_idx gpa Hg)).
  - intros x (H1 & (r0 & a & b & H2) & H3). apply (inv_free_unmapped _ _ _ _ p x I ltac:(lset)).
    split; [done|]. split; [by exists r0, a, b|]. rewrite <- Hst by eauto. done.
  - exists s0, s1, s2, own2, l2. destruct Hm as [M1 M2 M3 M4 M5 M6 M7 M8]. do 4 (split; [done|]).
    split; [by eapply mm_only_trans|]. split; [done|]. split_ands; try done.
    + unfold ref_of. by rewrite M7, Hpg, decide_True.
    + intros q Hq. rewrite M7 by lset. rewrite Hpg, decide_False; [done|]. intros ->. lset.
    + intros r' va' Hr' Hp'. rewrite M8, Hsame by done. done.
Qed.

Lemma ept_alloc_page_run k own p l s r gpa :
  pt_inv k own (p :: l) s -> own !! r = Some (r, []) -> 0 <= gpa < 2 ^ 30 -> (3 <= length l)%nat ->
  pte_of s r gpa = 0 ->
  exists s' own' l', ept_alloc_page (kva r 0) gpa s = Ret tt s' /\ mm_only s s' /\ pt_inv k own' l' s' /\
    own ⊆ own' /\ (forall q, q ∉ l -> own' !! q = own !! q) /\ l' `suffix_of` l /\
    (length l <= length l' + 3)%nat /\ ref_of s' p = 1 /\
    (forall q, q ∉ p :: l -> page_at s' q = page_at s q) /\
    (forall r' va', own !! r' = Some (r', []) -> priv k r' (PML4 va') ->
      pte_of s' r' va' = if decide (r = r' /\ va_idx gpa = va_idx va') then p * PGSIZE + EPTE_RAM else pte_of s r' va').
Proof.
  intros I Hr Hg Hlen Hz. destruct (fresh_page_run k own p l s r gpa I Hr Hg Hlen Hz) as (s0 & s1 & s' & own' & l' & R0 & R1 & R2 & R3 & H).
  exists s', own', l'. split; [|exact H]. unfold ept_alloc_page. mrun R0. mrun R1. mrun R2. mrun R3. reflexivity.
Qed.

(** The guest pages [G] of address space [r] have been given the host pages
    [f], all different and each with one reference; the rest of the guest and
    every other address space are as in [s]. *)
Record guest_ram (k : Z) (own own' : owners) (l l' : list Z) (s s' : kstate) (r : Z) (G : list Z) (f : Z -> Z) : Prop := {
  gr_mm : mm_only s s';
  gr_inv : pt_inv k own' l' s';
  gr_own : own ⊆ own';
  gr_free : l' `suffix_of` l;
  gr_len : (length l <= length l' + 4 * length G)%nat;
  gr_pages : forall g, g ∈ G -> f g ∈ l /\ f g ∉ l' /\ ref_of s' (f g) = 1 /\
    pte_of s' r (g * PGSIZE) = f g * PGSIZE + EPTE_RAM;
  gr_inj : forall g g', g ∈ G -> g' ∈ G -> f g = f g' -> g = g';
  gr_pte : forall r' va', own !! r' = Some (r', []) -> priv k r' (PML4 va') ->
    (forall g, g ∈ G -> ~ (r' = r /\ va_idx (g * PGSIZE) = va_idx va')) -> pte_of s' r' va' = pte_of s r' va';
}.

Lemma gpa_idx_inj g g' :
  0 <= g < 2 ^ 18 -> 0 <= g' < 2 ^ 18 -> va_idx (g * PGSIZE) = va_idx (g' * PGSIZE) -> g = g'.
Proof. intros H H'. apply (region_page_inj 0); unfold PGSIZE; lia. Qed.

Lemma gpa_low g : 0 <= g < 2 ^ 18 -> 0 <= g * PGSIZE < 2 ^ 30.
Proof. unfold PGSIZE. lia. Qed.

Lemma guest_ram_step k own own1 l l1 s s1 r G f g :
  own !! r = Some (r, []) -> guest_ram k own own1 l l1 s s1 r G f -> g ∉ G ->
  (forall g, g ∈ G -> 0 <= g < 2 ^ 18) -> 0 <= g < 2 ^ 18 ->
  pte_of s r (g * PGSIZE) = 0 -> (4 <= length l1)%nat ->
  exists s2 own2 l2 f2, ept_alloc_page (kva r 0) (g * PGSIZE) s1 = Ret tt s2 /\
    guest_ram k own own2 l l2 s s2 r (G ++ [g]) f2.
Proof.
  intros Hr [G1 G2 G3 G4 G5 G6 G7 G8] Hg HG Hgr Hz Hl. destruct l1 as [|p l1]; [cbn in Hl; lia|].
  assert (own1 !! r = Some (r, [])) as Hr1 by (by eapply lookup_weaken).
  destruct (low_idx _ (gpa_low g Hgr)) as [H4 _].
  assert (forall g', g' ∈ G -> va_idx (g' * PGSIZE) <> va_idx (g * PGSIZE)) as Hne.
  { intros g' Hg' Heq. apply gpa_idx_inj in Heq; [congruence|by apply HG|done]. }
  destruct (ept_alloc_page_run k own1 p l1 s1 r (g * PGSIZE) G2 Hr1 (gpa_low g Hgr))
    as (s2 & own2 & l2 & Hrun & M1 & M2 & M3 & M4 & M5 & M6 & M7 & M8 & M9); [cbn in Hl; lia| |].
  { rewrite G8; [done|done|by left|]. intros g' Hg' [_ Heq]. by apply (Hne g'). }
  pose proof (fl_nodup _ _ (pi_fl _ _ _ _ G2)) as Hnd. apply NoDup_cons in Hnd as [Hpl _].
  assert (forall q, q ∈ l2 -> q ∈ l1) as Hl2 by (intros q; destruct M5 as [l0 ->]; lset).
  exists s2, own2, l2, (fun x => if decide (x = g) then p else f x). split; [done|]. split.
  - by eapply mm_only_trans.
  - done.
  - by transitivity own1.
  - transitivity (p :: l1); [by apply suffix_cons_r|done].
  - rewrite length_app. cbn in *. lia.
  - intros g' [Hg'|Hg']%elem_of_app; [|apply list_elem_of_singleton in Hg' as ->].
    + rewrite decide_False by congruence. destruct (G6 g' Hg') as (F1 & F2 & F3 & F4).
      split; [done|]. split; [lset|]. split; [by unfold ref_of in *; rewrite M8|].
      destruct (low_idx _ (gpa_low g' (HG g' Hg'))) as [H4' _].
      rewrite M9, decide_False; [done| |done|by left]. intros [_ Heq]. by apply (Hne g').
    + rewrite decide_True by done. split; [destruct G4 as [l0 ->]; lset|]. split; [auto|]. split; [done|].
      rewrite M9, decide_True; [done|done|done|by left].
  - intros g1 g2 H1 H2.
    assert (forall x, x ∈ G -> f x <> p) as Hf.
    { intros x Hx Heq. destruct (G6 x Hx) as (_ & F2 & _). rewrite Heq in F2. lset. }
    apply elem_of_app in H1 as [H1|H1]; apply elem_of_app in H2 as [H2|H2];
      rewrite ?list_elem_of_singleton in *; subst.
    + rewrite !decide_False by congruence. by apply G7.
    + rewrite decide_False, decide_True by congruence. intros Heq. by apply Hf in Heq.
    + rewrite decide_True, decide_False by congruence. intros Heq. symmetry in Heq. by apply Hf in Heq.
    + done.
  - intros r' va' Hr' Hp' Hn. rewrite M9; [|by eapply lookup_weaken|done]. rewrite decide_False.
    + apply G8; try done. intros g' Hg'. apply Hn. lset.
    + intros [<- Heq]. apply (Hn g); [lset|done].
Qed.

Lemma guest_ram_loop k own l s r G0 G body :
  own !! r = Some (r, []) -> NoDup (G0 ++ G) -> (forall g, g ∈ G0 ++ G -> 0 <= g < 2 ^ 18) ->
  (forall g, 0 <= g < 2 ^ 18 -> pte_of s r (g * PGSIZE) = 0) ->
  (4 * length (G0 ++ G) <= length l)%nat ->
  (forall g, body g = ept_alloc_page (kva r 0) (g * PGSIZE)) ->
  forall own0 l0 s0 f0, guest_ram k own own0 l l0 s s0 r G0 f0 ->
  exists s' own' l' f, forM G body s0 = Ret tt s' /\ guest_ram k own own' l l' s s' r (G0 ++ G) f.
Proof.
  intros Hr Hnd HG Hz Hlen Hbody own0 l0 s0 f0 H0.
  destruct (forM_inv (fun pre s' => exists own' l' f, guest_ram k own own' l l' s s' r (G0 ++ pre) f) G body s0)
    as (s' & Hrun & own' & l' & f & Hf).
  - intros pre g post s1 Heq (own1 & l1 & f1 & H1). rewrite Hbody.
    assert (g ∉ G0 ++ pre) as Hg.
    { intros Hin. rewrite Heq, app_assoc in Hnd. apply NoDup_app in Hnd as (_ & Hd & _). apply (Hd g Hin). lset. }
    destruct (guest_ram_step k own own1 l l1 s s1 r (G0 ++ pre) f1 g) as (s2 & own2 & l2 & f2 & Hrun & H2); try done.
    + intros g' Hg'. apply HG. rewrite Heq. lset.
    + apply HG. rewrite Heq. lset.
    + apply Hz, HG. rewrite Heq. lset.
    + pose proof (gr_len _ _ _ _ _ _ _ _ _ _ H1). rewrite Heq, !length_app in Hlen. rewrite length_app in *.
      cbn in Hlen. lia.
    + exists s2. split; [done|]. exists own2, l2, f2. by rewrite app_assoc.
  - exists own0, l0, f0. by rewrite app_nil_r.
  - by exists s', own', l', f.
Qed.

(** The guest pages [ept_alloc_static] fills: conventional memory below
    0xA0000 and memory from 1 MB to the guest's size. *)
Definition ram_pages (phys_sz : Z) : list Z :=
  seqZ 0 160 ++ ((fun i => 256 + i) <$> seqZ 0 ((phys_sz - 0x100000 + PGSIZE - 1) / PGSIZE)).

Lemma ram_pages_elem phys_sz g :
  g ∈ ram_pages phys_sz <-> 0 <= g < 160 \/ 256 <= g < 256 + (phys_sz - 0x100000 + PGSIZE - 1) / PGSIZE.
Proof.
  unfold ram_pages. rewrite elem_of_app, elem_of_seqZ, list_elem_of_fmap. split.
  - intros [H|(i & -> & Hi%elem_of_seqZ)]; [left; lia|right; lia].
  - intros [H|H]; [left; lia|]. right. exists (g - 256). rewrite elem_of_seqZ. lia.
Qed.

Lemma ram_pages_range phys_sz g : phys_sz <= 2 ^ 30 -> g ∈ ram_pages phys_sz -> 0 <= g < 2 ^ 18.
Proof.
  intros Hsz Hg%ram_pages_elem.
  enough ((phys_sz - 0x100000 + PGSIZE - 1) / PGSIZE < 2 ^ 18 - 256 + 1) by lia.
  unfold PGSIZE. apply Z.div_lt_upper_bound; lia.
Qed.

Lemma ram_pages_nodup phys_sz : NoDup (ram_pages phys_sz).
Proof.
  unfold ram_pages. apply NoDup_app. split; [apply NoDup_seqZ|]. split.
  - intros g H1%elem_of_seqZ (i & -> & Hi%elem_of_seqZ)%list_elem_of_fmap. lia.
  - apply NoDup_fmap_2; [intros ? ? ?; lia|apply NoDup_seqZ].
Qed.

Lemma ept_alloc_static_run k own l s r phys_sz :
  pt_inv k own l s -> own !! r = Some (r, []) -> phys_sz <= 2 ^ 30 ->
  (forall g, 0 <= g < 2 ^ 18 -> pte_of s r (g * PGSIZE) = 0) ->
  (4 * length (ram_pages phys_sz) <= length l)%nat ->
  exists s' own' l' f, ept_alloc_static (kva r 0) phys_sz s = Ret 0 s' /\
    guest_ram k own own' l l' s s' r (ram_pages phys_sz) f.
Proof.
  intros I Hr Hsz Hz Hlen. unfold ept_alloc_static. set (n := (phys_sz - 0x100000 + PGSIZE - 1) / PGSIZE).
  pose proof (fun g => ram_pages_range phys_sz g Hsz) as HG.
  pose proof (ram_pages_nodup phys_sz) as Hnd.
  assert (guest_ram k own own l l s s r [] (fun _ => 0)) as H0.
  { split; [apply mm_only_refl|exact I|done|done|cbn; lia|lset|lset|]. intros r' va' _ _ _. reflexivity. }
  assert (forall g, g ∈ [] ++ seqZ 0 160 -> 0 <= g < 2 ^ 18) as HG1.
  { intros g Hg. apply HG, elem_of_app. left. exact Hg. }
  assert (4 * length ([] ++ seqZ 0 160) <= length l)%nat as Hlen1.
  { unfold ram_pages in Hlen. rewrite length_app, length_seqZ in Hlen. rewrite app_nil_l, length_seqZ. lia. }
  destruct (guest_ram_loop k own l s r [] (seqZ 0 160) (fun i => ept_alloc_page (kva r 0) (i * PGSIZE)) Hr
    (NoDup_seqZ 0 160) HG1 Hz Hlen1 (fun g => eq_refl) _ _ _ _ H0) as (s1 & own1 & l1 & f1 & Hrun1 & H1).
  change (0xA0000 / PGSIZE) with 160. mrun Hrun1.
  destruct (guest_ram_loop k own l s r (seqZ 0 160) ((fun i => 256 + i) <$> seqZ 0 n)
    (fun g => ept_alloc_page (kva r 0) (g * PGSIZE)) Hr Hnd HG Hz Hlen (fun g => eq_refl) _ _ _ _ H1)
    as (s2 & own2 & l2 & f2 & Hrun2 & H2).
  rewrite forM_fmap in Hrun2. exists s2, own2, l2, f2. split; [|exact H2].
  rewrite (forM_ext _ _ (fun i => ept_alloc_page (kva r 0) ((256 + i) * PGSIZE))).
  - rewrite (bind_Ret _ _ _ _ _ Hrun2). reflexivity.
  - intros i. assert (0x100000 + i * PGSIZE = (256 + i) * PGSIZE) as -> by (unfold PGSIZE; lia). reflexivity.
Qed.

(** The lookup of an address that is not mapped. *)
Lemma ept_gpa2hva_none k own l s r gpa :
  pt_inv k own l s -> own !! r = Some (r, []) -> 0 <= gpa < 2 ^ 30 -> pte_of s r gpa = 0 ->
  exists s', ept_gpa2hva (kva r 0) gpa s = Ret 0 s' /\ retagged own s s'.
Proof.
  intros I Hr Hg He. destruct (low_idx gpa Hg) as [H4 H3].
  pose proof (pml4e_walk_look k own l s r gpa I Hr (or_introl H4)) as Hw.
  pose proof (pi_tab _ _ _ _ I _ _ _ Hr) as (Hrr & _).
  rewrite pte_of_descend in He. destruct (descend s r (va_path gpa)) as [u|] eqn:Hd.
  - pose proof (va_descend_owned _ _ _ _ _ _ _ I Hr (or_introl H4) Hd) as Hu.
    destruct (ept_lookup_run _ _ _ _ _ _ _ _ _ I Hr Hg Hu Hw) as (s' & Hrun & Hrt).
    exists s'. split; [|done]. unfold ept_gpa2hva. mrun Hrun.
    rewrite (bind_Ret _ _ _ _ _ (load64_kva u _ s' (PTX_range gpa))).
    rewrite (retagged_leaf _ _ _ _ _ _ _ Hrt Hu) by done. rewrite He. reflexivity.
  - exists s. split; [|apply retagged_refl]. unfold ept_gpa2hva, ept_lookup_gpa.
    destruct (Z.eqb_spec (kva r 0) 0) as [Hz|_]; [exfalso; by apply (kva_nz r 0) in Hz; lia|].
    cbn in Hw. msteps. mrun Hw. reflexivity.
Qed.

(** C22: [ept_alloc_static] gives a guest its memory: for a guest of at most
    1 GB whose extended page table is empty, and with four free pages for each
    guest page, it returns 0; afterwards [ept_gpa2hva] takes each guest page
    below 0xA0000 or between 1 MB and the guest's size to the host address of a
    page that was free, different for different guest pages and with exactly
    one reference, takes every other page of the first gigabyte to NULL, and
    every other address space reads as before. *)
Theorem guest_static_memory k own l s r phys_sz :
  pt_inv k own l s -> own !! r = Some (r, []) -> phys_sz <= 2 ^ 30 ->
  (forall g, 0 <= g < 2 ^ 18 -> pte_of s r (g * PGSIZE) = 0) ->
  (4 * length (ram_pages phys_sz) <= length l)%nat ->
  exists s' own' l' f, ept_alloc_static (kva r 0) phys_sz s = Ret 0 s' /\ pt_inv k own' l' s' /\
    (forall g, g ∈ ram_pages phys_sz -> f g ∈ l /\ f g ∉ l' /\ ref_of s' (f g) = 1 /\
       exists s'', ept_gpa2hva (kva r 0) (g * PGSIZE) s' = Ret (kva (f g) 0) s'') /\
    (forall g g', g ∈ ram_pages phys_sz -> g' ∈ ram_pages phys_sz -> f g = f g' -> g = g') /\
    (forall g, 0 <= g < 2 ^ 18 -> g ∉ ram_pages phys_sz ->
       exists s'', ept_gpa2hva (kva r 0) (g * PGSIZE) s' = Ret 0 s'') /\
    (forall r' va', own !! r' = Some (r', []) -> priv k r' (PML4 va') -> r' <> r ->
       pte_of s' r' va' = pte_of s r' va').
Proof.
  intros I Hr Hsz Hz Hlen.
  destruct (ept_alloc_static_run k own l s r phys_sz I Hr Hsz Hz Hlen) as (s' & own' & l' & f & Hrun & H).
  pose proof (fun g => ram_pages_range phys_sz g Hsz) as HG. exists s', own', l', f. destruct H as [M1 M2 M3 M4 M5 M6 M7 M8].
  assert (own' !! r = Some (r, [])) as Hr' by (by eapply lookup_weaken).
  split; [exact Hrun|]. split; [exact M2|]. split; [|split; [exact M7|split]].
  - intros g Hg. destruct (M6 g Hg) as (F1 & F2 & F3 & F4). split; [exact F1|]. split; [exact F2|]. split; [exact F3|].
    destruct (ept_gpa2hva_run k own' l' s' r (g * PGSIZE) (f g) EPTE_RAM) as (s2 & H2 & _); try done.
    + apply gpa_low, HG, Hg.
    + rewrite (mm_only_npages _ _ M1). by apply (inv_free_range _ _ _ _ I).
    + by exists s2.
  - intros g Hg Hn. destruct (ept_gpa2hva_none k own' l' s' r (g * PGSIZE) M2 Hr' (gpa_low g Hg)) as (s2 & H2 & _).
    + destruct (low_idx _ (gpa_low g Hg)) as [H4 _]. rewrite M8; [by apply Hz|done|by left|].
      intros g' Hg' [_ Heq]. apply gpa_idx_inj in Heq; [congruence|by apply HG|done].
    + by exists s2.
  - intros r' va' H1 H2 Hne. apply M8; [done|done|]. intros g _ [-> _]. done.
Qed.

Lemma pt_inv_npages k own l s n :
  pt_inv k own l s -> npages s <= n <= 2 ^ 32 -> pt_inv k own l (set_npages n s).
Proof.
  intros I Hn. pose proof I as [I1 I2 I3 I4 I5 I6 I7 I8 I9 I10 I11 I12]. unfold npages_ok in I1.
  split; [unfold npages_ok; cbn; lia| |exact I3|exact I4| |exact I6|exact I7|exact I8|exact I9| |exact I11|exact I12].
  - destruct I2 as [F1 F2 F3 F4 F5]. split; [done|by apply (linked_ext s)|done|done|].
    intros p Hp. destruct (F5 p Hp) as [? ?]. split; [cbn; lia|done].
  - intros t r path Ht. destruct (I5 t r path Ht) as (? & ? & ?). split; [cbn; lia|done].
  - intros t r a b i Ht Hi He. destruct (I10 t r a b i Ht Hi He) as [? ?].
    split; [change (0 <= PPN (entry s t i) < n); lia|done].
Qed.

(** A machine with many free pages: [demo] with 1024 pages, the pages from 16 on
    returned one by one. *)
Fixpoint roomy (n : nat) : kstate :=
  match n with O => set_npages 1024 demo | S n' => pushed (16 + Z.of_nat n') (roomy n') end.

Fixpoint roomy_free (n : nat) : list Z :=
  match n with O => demo_free | S n' => (16 + Z.of_nat n') :: roomy_free n' end.

Lemma demo_ref_high p : 16 <= p -> ref_of demo p = 0.
Proof.
  intros Hp. unfold ref_of, page_at. change (pages demo) with demo_pages. unfold demo_pages.
  rewrite !lookup_insert_ne, lookup_singleton_ne by lia. done.
Qed.

Lemma roomy_inv n : Z.of_nat n <= 1000 ->
  pt_inv 10 demo_own (roomy_free n) (roomy n) /\ npages (roomy n) = 1024 /\ mem (roomy n) = mem demo /\
  (forall p, p ∈ roomy_free n -> p < 16 + Z.of_nat n) /\ (forall p, ref_of (roomy n) p = ref_of demo p).
Proof.
  induction n as [|n IH]; intros Hn.
  - split; [apply pt_inv_npages; [apply demo_inv|done]|]. split; [done|]. split; [done|]. split; [|done].
    intros p Hp. cbn [roomy_free] in Hp. unfold demo_free in Hp. rewrite !elem_of_cons, elem_of_nil in Hp. lia.
  - destruct IH as (I & Hnp & Hm & Hl & Hr); [lia|]. cbn [roomy roomy_free]. split_ands.
    + apply pushed_inv; [done|lia|rewrite Hr; apply demo_ref_high; lia|]. intros Hin. apply Hl in Hin. lia.
    + done.
    + done.
    + intros p [->|Hp]%elem_of_cons; [lia|]. apply Hl in Hp. lia.
    + intros p. rewrite pushed_ref. apply Hr.
Qed.

Lemma roomy_empty n g : Z.of_nat n <= 1000 -> pte_of (roomy n) 10 (g * PGSIZE) = 0.
Proof.
  intros Hn. destruct (roomy_inv n Hn) as (_ & _ & Hm & _). unfold pte_of. apply pt_read_zero.
  intros j. unfold entry. rewrite Hm. exact (demo_entry 10 j).
Qed.

(** A guest with conventional memory and one page above 1 MB. *)
Lemma guest_static_memory_witness :
  exists s' own' l' f, ept_alloc_static (kva 10 0) 0x101000 (roomy 640) = Ret 0 s' /\ pt_inv 10 own' l' s' /\
    (forall g, g ∈ ram_pages 0x101000 -> f g ∈ roomy_free 640 /\ f g ∉ l' /\ ref_of s' (f g) = 1 /\
       exists s'', ept_gpa2hva (kva 10 0) (g * PGSIZE) s' = Ret (kva (f g) 0) s'') /\
    (forall g g', g ∈ ram_pages 0x101000 -> g' ∈ ram_pages 0x101000 -> f g = f g' -> g = g') /\
    (forall g, 0 <= g < 2 ^ 18 -> g ∉ ram_pages 0x101000 ->
       exists s'', ept_gpa2hva (kva 10 0) (g * PGSIZE) s' = Ret 0 s'') /\
    (forall r' va', demo_own !! r' = Some (r', []) -> priv 10 r' (PML4 va') -> r' <> 10 ->
       pte_of s' r' va' = pte_of (roomy 640) r' va').
Proof.
  apply (guest_static_memory 10 demo_own (roomy_free 640) (roomy 640) 10 0x101000).
  - apply (roomy_inv 640). done.
  - reflexivity.
  - done.
  - intros g _. by apply roomy_empty.
  - apply Nat.leb_le. vm_compute. reflexivity.
Defined.
