(* ===== verification/Mmu.v ===== *)
(** Accesses of the kernel to virtual memory: the processor's page walk from
    the current [cr3], and byte accesses through it. *)

From S2P Require Import Prelude Kernel PageTableInv.

(** ** Bytes of physical memory *)

Definition phys_byte (s : kstate) (p o : Z) : Z :=
  Z.land (Z.shiftr (entry s p (o / 8)) (8 * (o mod 8))) 0xFF.

Definition set_phys_byte (p o b : Z) (s : kstate) : kstate :=
  let sh := 8 * (o mod 8) in
  let w := entry s p (o / 8) in
  set_entry p (o / 8) (Z.lor (Z.land w (Z.lnot (Z.shiftl 0xFF sh))) (Z.shiftl (u8 b) sh)) s.

(** ** The processor's walk

    Every entry on the way must have the bits [flags]; the result is the
    physical page. *)
Fixpoint mmu_walk (s : kstate) (t : Z) (js : list Z) (flags : Z) : option Z :=
  match js with
  | [] => Some t
  | j :: js' =>
      if Z.land (entry s t j) flags =? flags then mmu_walk s (PPN (entry s t j)) js' flags else None
  end.

Definition translate (s : kstate) (va flags : Z) : option Z :=
  mmu_walk s (PPN (cr3 s)) (va_idx va) flags.

(** A kernel access that the tables do not allow raises a page fault, on which
    [page_fault_handler] panics. *)
Definition vload8 (va : Z) : K Z :=
  let! t := gets (fun s => translate s va PTE_P) in
  match t with
  | Some p => gets (fun s => phys_byte s p (va mod PGSIZE))
  | None => panic "page fault in kernel mode"
  end.

Definition vstore8 (va b : Z) : K unit :=
  let! t := gets (fun s => translate s va (Z.lor PTE_P PTE_W)) in
  match t with
  | Some p => modify (set_phys_byte p (va mod PGSIZE) b)
  | None => panic "page fault in kernel mode"
  end.

Definition vstore (va : Z) (bs : list Z) : K unit :=
  forM (zip (seqZ 0 (Z.of_nat (length bs))) bs) (fun '(i, b) => vstore8 (u64 (va + i)) b).

Definition vload (va : Z) (n : Z) : K (list Z) :=
  foldM (seqZ 0 n) [] (fun acc i => let! b := vload8 (u64 (va + i)) in ret (acc ++ [b])).

(** The bytes of a 64-bit word, least significant first. *)
Definition bytes64 (w : Z) : list Z := (fun i => Z.land (Z.shiftr w (8 * i)) 0xFF) <$> seqZ 0 8.

(** ** Reading back what was written *)

Lemma phys_byte_range s p o : 0 <= phys_byte s p o < 256.
Proof. unfold phys_byte. change 0xFF with (2 ^ 8 - 1). rewrite land_mask by done. by apply Z.mod_pos_bound. Qed.

Lemma byte_put_get w b k i :
  0 <= k -> 0 <= i ->
  Z.land (Z.shiftr (Z.lor (Z.land w (Z.lnot (Z.shiftl 0xFF (8 * k)))) (Z.shiftl (u8 b) (8 * k))) (8 * i)) 0xFF =
  if decide (k = i) then u8 b else Z.land (Z.shiftr w (8 * i)) 0xFF.
Proof.
  intros Hk Hi.
  assert (forall x n, 0 <= n -> Z.testbit (Z.land x 0xFF) n = Z.testbit x n && (n <? 8)) as Hff.
  { intros x n Hn. rewrite Z.land_spec. f_equal. change 0xFF with (Z.ones 8).
    destruct (Z.ltb_spec n 8); [by apply Z.ones_spec_low; lia|by apply Z.ones_spec_high; lia]. }
  assert (forall n, 0 <= n -> Z.testbit (u8 b) n = Z.testbit b n && (n <? 8)) as Hu.
  { intros n Hn. unfold u8. destruct (Z.ltb_spec n 8).
    - rewrite Z.mod_pow2_bits_low by lia. by rewrite andb_true_r.
    - rewrite Z.mod_pow2_bits_high by lia. by rewrite andb_false_r. }
  assert (forall n, 0 <= n -> Z.testbit (Z.shiftl 0xFF (8 * k)) n = (8 * k <=? n) && (n <? 8 * k + 8)) as Hm.
  { intros n Hn. rewrite Z.shiftl_spec by done. change 0xFF with (Z.ones 8).
    destruct (Z.leb_spec (8 * k) n); cbn [andb].
    - destruct (Z.ltb_spec n (8 * k + 8)); [apply Z.ones_spec_low|apply Z.ones_spec_high]; lia.
    - by rewrite Z.testbit_neg_r by lia. }
  apply Z.bits_inj'. intros n Hn. rewrite Hff by done. rewrite Z.shiftr_spec by done.
  rewrite Z.lor_spec, Z.land_spec, Z.lnot_spec, Hm, Z.shiftl_spec by lia.
  case_decide as Hd.
  - subst. replace (n + 8 * i - 8 * i) with n by lia. rewrite Hu by done.
    destruct (Z.ltb_spec n 8); [|by rewrite !andb_false_r].
    replace (8 * i <=? n + 8 * i) with true by (symmetry; apply Z.leb_le; lia).
    replace (n + 8 * i <? 8 * i + 8) with true by (symmetry; apply Z.ltb_lt; lia).
    cbn. by rewrite andb_false_r, !andb_true_r.
  - rewrite Hff, Z.shiftr_spec by done. destruct (Z.ltb_spec n 8); [|by rewrite !andb_false_r].
    rewrite !andb_true_r.
    assert ((8 * k <=? n + 8 * i) && (n + 8 * i <? 8 * k + 8) = false) as ->.
    { destruct (Z.leb_spec (8 * k) (n + 8 * i)); [|done]. cbn. apply Z.ltb_ge. lia. }
    cbn. rewrite andb_true_r. replace (Z.testbit (u8 b) (n + 8 * i - 8 * k)) with false; [by rewrite orb_false_r|].
    symmetry. destruct (Z.le_gt_cases 0 (n + 8 * i - 8 * k)).
    + rewrite Hu by done. destruct (Z.ltb_spec (n + 8 * i - 8 * k) 8); [lia|]. by rewrite andb_false_r.
    + by apply Z.testbit_neg_r.
Qed.

(** A byte written is the byte read, and the others are unchanged. *)
Lemma phys_byte_set s p o b q r :
  0 <= o -> 0 <= r ->
  phys_byte (set_phys_byte p o b s) q r = if decide (p = q /\ o = r) then u8 b else phys_byte s q r.
Proof.
  intros Ho Hr. unfold phys_byte, set_phys_byte. rewrite entry_set_entry.
  pose proof (Z.mod_pos_bound o 8 ltac:(done)). pose proof (Z.mod_pos_bound r 8 ltac:(done)).
  case_decide as Hd.
  - destruct Hd as [<- Hd]. assert (o mod 8 = r mod 8 <-> o = r) as Heq.
    { pose proof (Z.div_mod o 8). pose proof (Z.div_mod r 8). split; [lia|by intros ->]. }
    pose proof (byte_put_get (entry s p (o / 8)) (u8 b) (o mod 8) (r mod 8) ltac:(lia) ltac:(lia)) as Hb.
    assert (u8 (u8 b) = u8 b) as Hu by (by unfold u8; rewrite Z.mod_mod).
    rewrite Hu in Hb. rewrite Hb, Hd. repeat case_decide; naive_solver.
  - rewrite decide_False; [done|]. intros [-> ->]. by apply Hd.
Qed.

(** A byte store changes no table entry outside the page it goes to. *)
Lemma set_phys_byte_entry s p o b q i :
  p <> q -> entry (set_phys_byte p o b s) q i = entry s q i.
Proof. intros H. unfold set_phys_byte. by rewrite entry_set_entry_ne by auto. Qed.

(** ** The processor's walk and the kernel's

    Above the last level every entry allows what its table may allow, so the
    processor follows the same tables as [descend]. *)

Lemma mmu_walk_path k own l s t r path js f :
  pt_inv k own l s -> own !! t = Some (r, path) -> (length path + length js <= 3)%nat -> idx_ok js ->
  (forall j js', js = j :: js' -> slot_priv k r path j) -> f <> 0 -> Z.land PTE_PWU f = f ->
  mmu_walk s t js f = descend s t js.
Proof.
  intros I Ht Hlen Hidx Hpriv Hf Hsub. revert t path Ht Hlen Hidx Hpriv.
  induction js as [|j js IH]; intros t path Ht Hlen Hidx Hpriv; [done|]. cbn [mmu_walk descend].
  apply Forall_cons in Hidx as [Hj Hidx]. cbn [length] in Hlen.
  destruct (Z.eqb_spec (entry s t j) 0) as [->|Hne].
  { rewrite Z.land_0_l. destruct (Z.eqb_spec 0 f); [congruence|done]. }
  assert (slot_priv k r path j) as Hs by (by eapply Hpriv).
  assert (Z.land (entry s t j) f = f) as ->.
  { rewrite <- Hsub at 1. by rewrite Z.land_assoc, (pi_flags _ _ _ _ I t r path j Ht ltac:(lia) Hj Hs Hne). }
  rewrite Z.eqb_refl. apply (IH _ (path ++ [j])); try done.
  - apply (pi_child _ _ _ _ I); try done. lia.
  - rewrite length_app. cbn. lia.
  - intros ? ? _. by destruct path.
Qed.

Lemma mmu_walk_app s t js js' f :
  mmu_walk s t (js ++ js') f = match mmu_walk s t js f with Some u => mmu_walk s u js' f | None => None end.
Proof. revert t. induction js as [|j js IH]; intros t; [done|]. cbn. destruct (_ =? f); [apply IH|done]. Qed.
