(* ===== verification/Vmx.v ===== *)
(** Entering VMX operation and running a guest: vmm/vmx.c.

    The processor's answers (CPUID, model-specific registers, control
    registers and the outcome of the VMX instructions) are parameters. *)

From S2P Require Import Prelude Kernel PageAlloc.

(** What the code reads of the processor. *)
Class VmxHw : Type := {
  cpuid1_ecx : Z;             (* ECX of CPUID leaf 1 *)
  read_msr : Z -> Z;          (* RDMSR *)
  rcr0 : Z;
  rcr4 : Z;
  vmxon_error : Z -> Z;       (* error byte of VMXON, VMCLEAR and VMPTRLD *)
  vmclear_error : Z -> Z;
  vmptrld_error : Z -> Z;
}.

Notation E_NO_VMX := 17 (only parsing).
Notation E_NO_EPT := 18 (only parsing).
Notation E_VMX_ON := 19 (only parsing).
Notation E_VMCS_INIT := 20 (only parsing).
Definition IA32_FEATURE_CONTROL : Z := 0x3A.
Definition IA32_VMX_BASIC : Z := 0x480.
Definition IA32_VMX_CR0_FIXED0 : Z := 0x486.
Definition IA32_VMX_CR0_FIXED1 : Z := 0x487.
Definition IA32_VMX_CR4_FIXED0 : Z := 0x488.
Definition IA32_VMX_CR4_FIXED1 : Z := 0x489.
Definition IA32_VMX_PROCBASED_CTLS : Z := 0x482.
Definition IA32_VMX_PROCBASED_CTLS2 : Z := 0x48B.
Definition CR0_NE : Z := 0x20.
Definition CR4_VMXE : Z := 0x2000.
Definition EFER_MSR : Z := 0xC0000080.
Definition IO_RTC : Z := 0x70.

(** [BIT(val, x)] *)
Definition BIT (val x : Z) : Z := Z.land (Z.shiftr val x) 1.

(** ** The code *)

Section Vmx.
Context `{!VmxHw}.

Definition vmx_check_support : bool := BIT cpuid1_ecx 5 =? 1.

Definition vmx_check_ept : bool :=
  (BIT (read_msr IA32_VMX_PROCBASED_CTLS) 63 =? 1) && (BIT (read_msr IA32_VMX_PROCBASED_CTLS2) 33 =? 1).

Definition check_fixed_bits (curr_val fixed0 fixed1 : Z) : bool :=
  forallb (fun i =>
    if BIT curr_val i =? 1 then negb (BIT fixed1 i =? 0)
    else negb (BIT fixed0 i =? 1)) (seqZ 0 64).

Definition vmx_init_vmcs : K (option Z) :=
  let vmx_basic_msr := read_msr IA32_VMX_BASIC in
  let vmcs_rev_id := u32 vmx_basic_msr in
  let vmcs_num_bytes := Z.land (Z.shiftr vmx_basic_msr 32) 0xfff in
  do! assertM (vmcs_num_bytes <=? 4096) ;;
  let! r := page_alloc ALLOC_ZERO in
  match r with
  | None => ret None
  | Some p =>
      do! upd_page p (fun x => set_pp_ref (u16 (pp_ref x + 1)) x) ;;
      let! region := page2kva p in
      let! w := load64 region in
      do! store64 region (Z.lor (Z.land w (Z.lnot 0xFFFFFFFF)) vmcs_rev_id) ;;
      ret (Some p)
  end.

(** [lcr0], [lcr4] and [write_msr] change processor registers the model does
    not keep. *)
Definition vmx_init_vmxon : K Z :=
  if negb vmx_check_support then ret (- E_NO_VMX)
  else if negb vmx_check_ept then ret (- E_NO_EPT)
  else
    let! r := vmx_init_vmcs in
    match r with
    | None => ret (- E_NO_MEM)
    | Some p =>
        let cr0 := Z.lor rcr0 CR0_NE in
        if negb (check_fixed_bits cr0 (read_msr IA32_VMX_CR0_FIXED0) (read_msr IA32_VMX_CR0_FIXED1)) then
          do! page_decref p ;; ret (- E_VMX_ON)
        else
          let cr4 := Z.lor rcr4 CR4_VMXE in
          if negb (check_fixed_bits cr4 (read_msr IA32_VMX_CR4_FIXED0) (read_msr IA32_VMX_CR4_FIXED1)) then
            do! page_decref p ;; ret (- E_VMX_ON)
          else if BIT (read_msr IA32_FEATURE_CONTROL) 2 =? 0 then
            do! page_decref p ;; ret (- E_NO_VMX)
          else if negb (vmxon_error (page2pa p) =? 0) then
            do! page_decref p ;; ret (- E_VMX_ON)
          else
            do! modify (set_is_vmx_root true) ;;
            let! k := page2kva p in
            do! modify (set_vmxon_region k) ;;
            ret 0
    end.

(** One entry, [EFER_MSR]; an entry is the index word and the value word. *)
Definition msr_setup (e : Z) : K unit :=
  do! upd_env e (fun x => set_env_vmxinfo (set_msr_count 1 (env_vmxinfo x)) x) ;;
  let! g := gets (fun s => env_vmxinfo (env_at s e)) in
  let! w := load64 (msr_host_area g) in
  do! store64 (msr_host_area g) (Z.lor (Z.land w (Z.lnot 0xFFFFFFFF)) EFER_MSR) ;;
  do! store64 (msr_host_area g + 8) (read_msr EFER_MSR) ;;
  let! w := load64 (msr_guest_area g) in
  store64 (msr_guest_area g) (Z.lor (Z.land w (Z.lnot 0xFFFFFFFF)) EFER_MSR).

Definition bitmap_setup (e : Z) : K unit :=
  let! g := gets (fun s => env_vmxinfo (env_at s e)) in
  forM [IO_RTC; IO_RTC + 1] (fun port =>
    let idx := port / 64 in
    let bit := Z.shiftl 1 (Z.land port 0x3F) in
    if port <? 0x7FFF then
      let! w := load64 (index8 (io_bmap_a g) idx) in
      store64 (index8 (io_bmap_a g) idx) (Z.lor w bit)
    else if port <? 0xFFFF then
      let! w := load64 (index8 (io_bmap_b g) idx) in
      store64 (index8 (io_bmap_b g) idx) (Z.lor w bit)
    else panic "assertion failed").

(** The fields of the VMCS are processor state the model does not keep;
    [asm_vmrun] enters the guest, and the kernel is next entered by a VM exit. *)
Definition vmx_vmrun (e : Z) : K Z :=
  let! x := gets (fun s => env_at s e) in
  if negb (env_type x =? ENV_TYPE_GUEST) then ret (- E_INVAL)
  else
    let! err :=
      (if env_runs x =? 1 then
         let! pa := PADDR (vmcs (env_vmxinfo x)) in
         if nz (vmclear_error pa) then ret true
         else if nz (vmptrld_error pa) then ret true
         else
           do! bitmap_setup e ;;
           do! msr_setup e ;;
           ret false
       else
         let! pa := PADDR (vmcs (env_vmxinfo x)) in
         ret (nz (vmptrld_error pa))) in
    if err : bool then ret (- E_VMCS_INIT)
    else
      let! cur := gets curenv in
      match cur with
      | None => panic "null pointer dereference"
      | Some c =>
          let! runs := gets (fun s => env_runs (env_at s c)) in
          do! upd_env e (fun x => set_env_tf (set_tf_es 0 (set_tf_ds (u16 runs) (env_tf x))) x) ;;
          noret
      end.
End Vmx.
