(* ===== verification/Env.v ===== *)
(** Environments: creation, destruction and switching (kern/env.c), and the
    scheduler (kern/sched.c). *)

From S2P Require Import Prelude Kernel PageAlloc PageTable PageTableInv Mmu Ept Vmx.

Definition ENVGENSHIFT : Z := 12.

(** ** Lookup and initialisation *)

(** The result and [*env_store]. *)
Definition envid2env (envid : Z) (checkperm : bool) : K (Z * option Z) :=
  let! cur := gets curenv in
  if envid =? 0 then ret (0, cur)
  else
    let e := ENVX envid in
    let! x := gets (fun s => env_at s e) in
    if (env_status x =? ENV_FREE) || negb (env_id x =? envid) then ret (- E_BAD_ENV, None)
    else if checkperm && negb (bool_decide (cur = Some e)) then
      match cur with
      | None => panic "null pointer dereference"
      | Some c =>
          let! cid := gets (fun s => env_id (env_at s c)) in
          if negb (env_parent_id x =? cid) then ret (- E_BAD_ENV, None)
          else ret (0, Some e)
      end
    else ret (0, Some e).

(** [env_init_percpu] loads segment registers the model does not keep. *)
Definition env_init : K unit :=
  do! foldM (seqZ 0 NENV) None (fun (env : option Z) i =>
    do! upd_env i (set_env_type ENV_FREE) ;;
    do! upd_env i (set_env_id 0) ;;
    do! (match env with
         | Some p => upd_env p (set_env_link (Some i))
         | None => modify (set_env_free_list (Some i))
         end) ;;
    ret (Some i)) ;;
  ret tt.

(** ** Creation *)

Definition env_setup_vm (e : Z) : K Z :=
  let! r := page_alloc 0 in
  match r with
  | None => ret (- E_NO_MEM)
  | Some p =>
      let! k := page2kva p in
      do! upd_env e (set_env_pml4e k) ;;
      do! upd_env e (set_env_cr3 (page2pa p)) ;;
      do! upd_page p (fun x => set_pp_ref (u16 (pp_ref x + 1)) x) ;;
      do! forM (seqZ 0 NPMLENTRIES) (fun i =>
            if PML4 UTOP <=? i then
              let! pml := gets (fun s => env_pml4e (env_at s e)) in
              let! boot := gets boot_pml4e in
              let! b := load64 (index8 boot i) in
              store64 (index8 pml i) (Z.lor b (Z.land PTE_P (Z.lnot (Z.lor PTE_W PTE_U))))
            else ret tt) ;;
      let! x := gets (fun s => env_at s e) in
      do! store64 (index8 (env_pml4e x) (PML4 UVPT)) (Z.lor (Z.lor (env_cr3 x) PTE_P) PTE_U) ;;
      ret 0
  end.

(** The identifier given to slot [e] when its last one was [old]. *)
Definition next_env_id (old e : Z) : Z :=
  let generation := Z.land (s32 (old + Z.shiftl 1 ENVGENSHIFT)) (Z.lnot (NENV - 1)) in
  let generation := if generation <=? 0 then Z.shiftl 1 ENVGENSHIFT else generation in
  Z.lor generation e.

(** The fields [env_alloc] sets once the address space exists. *)
Definition env_fresh (e parent_id : Z) (x : Env) : Env :=
  let x := set_env_id (next_env_id (env_id x) e) x in
  let x := set_env_parent_id parent_id x in
  let x := set_env_type ENV_TYPE_USER x in
  let x := set_env_status ENV_RUNNABLE x in
  let x := set_env_runs 0 x in
  let tf := Trapframe0 in
  let tf := set_tf_ds (Z.lor GD_UD 3) tf in
  let tf := set_tf_es (Z.lor GD_UD 3) tf in
  let tf := set_tf_ss (Z.lor GD_UD 3) tf in
  let tf := set_tf_rsp USTACKTOP tf in
  let tf := set_tf_cs (Z.lor GD_UT 3) tf in
  let tf := set_tf_eflags (Z.lor (tf_eflags tf) FL_IF) tf in
  let x := set_env_tf tf x in
  let x := set_env_pgfault_upcall 0 x in
  set_env_ipc_recving false x.

(** The result and [*newenv_store]. *)
Definition env_alloc (parent_id : Z) : K (Z * option Z) :=
  let! fl := gets env_free_list in
  match fl with
  | None => ret (- E_NO_FREE_ENV, None)
  | Some e =>
      let! r := env_setup_vm e in
      if r <? 0 then ret (r, None)
      else
        do! upd_env e (env_fresh e parent_id) ;;
        let! x := gets (fun s => env_at s e) in
        do! modify (set_env_free_list (env_link x)) ;;
        ret (0, Some e)
  end.

Section Guest.
Context `{!VmxHw}.

(** Take one more page for a guest, or give the pages taken so far back. *)
Definition guest_page (taken : list Z) : K (option Z) :=
  let! r := page_alloc ALLOC_ZERO in
  match r with
  | None => do! forM taken page_decref ;; ret None
  | Some p =>
      do! upd_page p (fun x => set_pp_ref (u16 (pp_ref x + 1)) x) ;;
      ret (Some p)
  end.

Definition env_guest_fresh (e parent_id : Z) (x : Env) : Env :=
  let x := set_env_id (next_env_id (env_id x) e) x in
  let x := set_env_parent_id parent_id x in
  let x := set_env_type ENV_TYPE_GUEST x in
  let x := set_env_status ENV_RUNNABLE x in
  let x := set_env_runs 0 x in
  let x := set_env_tf Trapframe0 x in
  let x := set_env_pgfault_upcall 0 x in
  set_env_ipc_recving false x.

Definition env_guest_alloc (parent_id : Z) : K (Z * option Z) :=
  let! fl := gets env_free_list in
  match fl with
  | None => ret (- E_NO_FREE_ENV, None)
  | Some e =>
      do! upd_env e (set_env_vmxinfo VmxGuestInfo0) ;;
      let! p := page_alloc ALLOC_ZERO in
      match p with
      | None => ret (- E_NO_MEM, None)
      | Some p =>
          do! upd_page p (fun _ => PageInfo0) ;;
          do! upd_page p (fun x => set_pp_ref (u16 (pp_ref x + 1)) x) ;;
          let! k := page2kva p in
          do! upd_env e (set_env_pml4e k) ;;
          do! upd_env e (set_env_cr3 (page2pa p)) ;;
          let! q := vmx_init_vmcs in
          match q with
          | None => do! page_decref p ;; ret (- E_NO_MEM, None)
          | Some q =>
              do! upd_page q (fun x => set_pp_ref (u16 (pp_ref x + 1)) x) ;;
              let! k := page2kva q in
              do! upd_env e (fun x => set_env_vmxinfo (set_vmcs k (env_vmxinfo x)) x) ;;
              let! r := guest_page [p; q] in
              match r with
              | None => ret (- E_NO_MEM, None)
              | Some r =>
                  let! k := page2kva r in
                  do! upd_env e (fun x => set_env_vmxinfo (set_msr_host_area k (env_vmxinfo x)) x) ;;
                  do! upd_env e (fun x => set_env_vmxinfo (set_msr_guest_area (k + PGSIZE / 2) (env_vmxinfo x)) x) ;;
                  let! s := guest_page [p; q; r] in
                  match s with
                  | None => ret (- E_NO_MEM, None)
                  | Some s =>
                      let! k := page2kva s in
                      do! upd_env e (fun x => set_env_vmxinfo (set_io_bmap_a k (env_vmxinfo x)) x) ;;
                      let! t := guest_page [p; q; r; s] in
                      match t with
                      | None => ret (- E_NO_MEM, None)
                      | Some t =>
                          let! k := page2kva t in
                          do! upd_env e (fun x => set_env_vmxinfo (set_io_bmap_b k (env_vmxinfo x)) x) ;;
                          do! upd_env e (env_guest_fresh e parent_id) ;;
                          let! x := gets (fun s => env_at s e) in
                          do! modify (set_env_free_list (env_link x)) ;;
                          ret (0, Some e)
                      end
                  end
              end
          end
      end
  end.
End Guest.

(** The loop runs while [start < end]; its fuel is one more than the number
    of pages of the range. *)
Definition region_alloc (e va len : Z) : K unit :=
  let start := ROUNDDOWN va PGSIZE in
  let end_ := ROUNDUP (u64 (va + len)) PGSIZE in
  loop (S (Z.to_nat ((end_ - start) / PGSIZE))) (fun start =>
    if start <? end_ then
      let! p := page_alloc 0 in
      match p with
      | None => panic "No memory available for allocation to environment"
      | Some p =>
          let! pml4e := gets (fun s => env_pml4e (env_at s e)) in
          let! r := page_insert pml4e p start (Z.lor (Z.lor PTE_U PTE_P) PTE_W) in
          if r <? 0 then panic "CAnnot allocate any memory for page directory allocation"
          else ret (inl (u64 (start + PGSIZE)))
      end
    else ret (inr tt)) start.

(** ** Loading a program *)

Definition ELF_MAGIC : Z := 0x464C457F.
Definition ELF_PROG_LOAD : Z := 1.

(** [struct Proghdr] and [struct Elf] (inc/elf.h): the fields the loader
    reads; the [e_phnum] headers at [e_phoff] are a list, and [img_byte] gives
    the bytes of the file. *)
Record Proghdr : Type := mkProghdr {
  p_type : Z;
  p_offset : Z;
  p_va : Z;
  p_filesz : Z;
  p_memsz : Z;
}.
Record Elf : Type := mkElf {
  e_magic : Z;
  e_entry : Z;
  e_phdrs : list Proghdr;
  img_byte : Z -> Z;
}.

Definition lcr3 (v : Z) : K unit := modify (set_cr3 v).

Definition load_segment (e : Z) (img : Elf) (ph : Proghdr) : K unit :=
  if p_type ph =? ELF_PROG_LOAD then
    do! region_alloc e (p_va ph) (p_memsz ph) ;;
    do! vstore (p_va ph) ((fun i => img_byte img (p_offset ph + i)) <$> seqZ 0 (p_filesz ph)) ;;
    vstore (u64 (p_va ph + p_filesz ph)) ((fun _ => 0) <$> seqZ 0 (u64 (p_memsz ph - p_filesz ph)))
  else ret tt.

(** [binary] is the address of the image [img]. *)
Definition load_icode (e binary : Z) (img : Elf) : K unit :=
  if negb (e_magic img =? ELF_MAGIC) then panic "Bad ELF"
  else
    let! c := gets (fun s => env_cr3 (env_at s e)) in
    do! lcr3 c ;;
    do! forM (e_phdrs img) (load_segment e img) ;;
    do! upd_env e (fun x => set_env_tf (set_tf_rip (e_entry img) (env_tf x)) x) ;;
    do! region_alloc e (USTACKTOP - PGSIZE) PGSIZE ;;
    upd_env e (set_elf binary).

(** [r] is unsigned in the source, so its test [r < 0] never holds; when the
    allocation failed [e] is an uninitialised pointer. *)
Definition env_create (binary : Z) (img : Elf) (type : Z) : K unit :=
  let! r := env_alloc 0 in
  match r with
  | (_, None) => panic "uninitialised pointer"
  | (_, Some e) =>
      do! load_icode e binary img ;;
      do! upd_env e (set_env_type type) ;;
      if type =? ENV_TYPE_FS then
        upd_env e (fun x => set_env_tf (set_tf_eflags (Z.lor (tf_eflags (env_tf x)) FL_IOPL_MASK) (env_tf x)) x)
      else ret tt
  end.

(** ** Destruction *)

(** The loop over the entries of the page table at [pt]. *)
Definition env_free_pt (e pdpe_index pdeno pt : Z) : K unit :=
  forM (seqZ 0 (PTX (2 ^ 64 - 1))) (fun pteno =>
    let! x := load64 (index8 pt pteno) in
    if nz (Z.land x PTE_P) then
      let! pml4e := gets (fun s => env_pml4e (env_at s e)) in
      page_remove pml4e (PGADDR 0 pdpe_index pdeno pteno 0)
    else ret tt).

(** The loop over the entries of the page directory at [env_pgdir]. *)
Definition env_free_pgdir (e pdpe_index env_pgdir : Z) : K unit :=
  let pdeno_limit := if pdpe_index =? 3 then PDX UTOP else PDX 0xFFFFFFFF in
  forM (seqZ 0 pdeno_limit) (fun pdeno =>
    let! x := load64 (index8 env_pgdir pdeno) in
    if negb (nz (Z.land x PTE_P)) then ret tt
    else
      let pa := PTE_ADDR x in
      let! pt := KADDR pa in
      do! env_free_pt e pdpe_index pdeno pt ;;
      do! store64 (index8 env_pgdir pdeno) 0 ;;
      let! pp := pa2page pa in
      page_decref pp).

Definition env_free (e : Z) : K unit :=
  let! cur := gets curenv in
  do! (if bool_decide (cur = Some e) then
         let! b := gets boot_cr3 in lcr3 b
       else ret tt) ;;
  let! pml4e := gets (fun s => env_pml4e (env_at s e)) in
  let! e4 := load64 (index8 pml4e 0) in
  let! env_pdpe := KADDR (PTE_ADDR e4) in
  do! forM (seqZ 0 4) (fun pdpe_index =>
    let! x := load64 (index8 env_pdpe pdpe_index) in
    if negb (nz (Z.land x PTE_P)) then ret tt
    else
      let! env_pgdir := KADDR (PTE_ADDR x) in
      do! env_free_pgdir e pdpe_index env_pgdir ;;
      let! x := load64 (index8 env_pdpe pdpe_index) in
      let pa := PTE_ADDR x in
      do! store64 (index8 env_pdpe pdpe_index) 0 ;;
      let! pp := pa2page pa in
      page_decref pp) ;;
  let! e4 := load64 (index8 pml4e 0) in
  let! pp := pa2page (PTE_ADDR e4) in
  do! page_decref pp ;;
  do! store64 (index8 pml4e 0) 0 ;;
  let! pa := gets (fun s => env_cr3 (env_at s e)) in
  do! upd_env e (set_env_pml4e 0) ;;
  do! upd_env e (set_env_cr3 0) ;;
  let! pp := pa2page pa in
  do! page_decref pp ;;
  do! upd_env e (set_env_status ENV_FREE) ;;
  let! fl := gets env_free_list in
  do! upd_env e (set_env_link fl) ;;
  modify (set_env_free_list (Some e)).

Definition env_guest_free (e : Z) : K unit :=
  let free_kva k := (let! pa := PADDR k in let! pp := pa2page pa in page_decref pp) in
  let! g := gets (fun s => env_vmxinfo (env_at s e)) in
  do! free_kva (vmcs g) ;;
  do! free_kva (msr_host_area g) ;;
  do! free_kva (io_bmap_a g) ;;
  do! free_kva (io_bmap_b g) ;;
  let! pml4e := gets (fun s => env_pml4e (env_at s e)) in
  do! free_guest_mem pml4e ;;
  let! c := gets (fun s => env_cr3 (env_at s e)) in
  let! pp := pa2page c in
  do! page_decref pp ;;
  do! upd_env e (set_env_pml4e 0) ;;
  do! upd_env e (set_env_cr3 0) ;;
  do! upd_env e (set_env_status ENV_FREE) ;;
  let! fl := gets env_free_list in
  do! upd_env e (set_env_link fl) ;;
  modify (set_env_free_list (Some e)).

(** ** The big kernel lock, on one processor *)

Definition lock_kernel : K unit :=
  let! l := gets kernel_locked in
  if l : bool then panic "cannot acquire kernel_lock: already holding"
  else modify (set_kernel_locked true).

Definition unlock_kernel : K unit :=
  let! l := gets kernel_locked in
  if l : bool then modify (set_kernel_locked false) else panic "spin_unlock".

(** ** Switching *)

(** [iretq] leaves the kernel; processor 0 is the only one ([NCPU] is 1). *)
Definition env_pop_tf (e : Z) : K unit :=
  let! cur := gets curenv in
  match cur with
  | None => panic "null pointer dereference"
  | Some c => do! upd_env c (set_env_cpunum 0) ;; noret
  end.

(** [curenv] goes back to runnable if it was running. *)
Definition release_curenv : K unit :=
  let! cur := gets curenv in
  match cur with
  | Some c =>
      let! st := gets (fun s => env_status (env_at s c)) in
      if st =? ENV_RUNNING then upd_env c (set_env_status ENV_RUNNABLE) else ret tt
  | None => ret tt
  end.

Definition env_run (e : Z) : K unit :=
  do! release_curenv ;;
  do! modify (set_curenv (Some e)) ;;
  do! upd_env e (set_env_status ENV_RUNNING) ;;
  do! upd_env e (fun x => set_env_runs (u32 (env_runs x + 1)) x) ;;
  let! c := gets (fun s => env_cr3 (env_at s e)) in
  do! lcr3 c ;;
  do! unlock_kernel ;;
  env_pop_tf e.

(** ** The scheduler *)

Definition sched_halt : K unit :=
  let! es := gets (fun s => existsb (fun i =>
      let st := env_status (env_at s i) in
      (st =? ENV_RUNNABLE) || (st =? ENV_RUNNING) || (st =? ENV_DYING)) (seqZ 0 NENV)) in
  if negb es then noret
  else
    do! modify (set_curenv None) ;;
    let! b := gets boot_pml4e in
    let! pa := PADDR b in
    do! lcr3 pa ;;
    do! modify (set_cpu_status CPU_HALTED) ;;
    do! unlock_kernel ;;
    noret.

Section Sched.
Context `{!VmxHw}.

Definition vmxon : K Z :=
  let! root := gets is_vmx_root in
  if negb root then
    let! r := vmx_init_vmxon in
    if r <? 0 then ret r else ret 0
  else ret 0.

(** The environments in the order the scheduler tries them: [NENV] of them,
    from the one after [i]. *)
Definition sched_order (i : Z) : list Z := (fun k => (i + 1 + k) mod NENV) <$> seqZ 0 NENV.

Definition sched_yield : K unit :=
  let! idle := gets curenv in
  let! i := (match idle with
             | Some c => gets (fun s => ENVX (env_id (env_at s c)))
             | None => ret 0
             end) in
  let! next := gets (fun s =>
      list_find (fun j => env_status (env_at s j) = ENV_RUNNABLE) (sched_order i)) in
  match next with
  | Some (_, j) =>
      let! ty := gets (fun s => env_type (env_at s j)) in
      if ty =? ENV_TYPE_GUEST then
        let! v := vmxon in
        if v =? 0 then
          do! release_curenv ;;
          do! modify (set_curenv (Some j)) ;;
          do! upd_env j (set_env_status ENV_RUNNING) ;;
          do! upd_env j (fun x => set_env_runs (u32 (env_runs x + 1)) x) ;;
          do! vmx_vmrun j ;;
          ret tt
        else ret tt
      else env_run j
  | None =>
      do! (match idle with
           | Some c =>
               let! x := gets (fun s => env_at s c) in
               if env_status x =? ENV_RUNNING then
                 if env_type x =? ENV_TYPE_GUEST then
                   let! v := vmxon in
                   if v =? 0 then
                     do! upd_env c (fun x => set_env_runs (u32 (env_runs x + 1)) x) ;;
                     do! vmx_vmrun c ;;
                     ret tt
                   else ret tt
                 else env_run c
               else ret tt
           | None => ret tt
           end) ;;
      sched_halt
  end.

Definition env_destroy (e : Z) : K unit :=
  let! cur := gets curenv in
  let! x := gets (fun s => env_at s e) in
  if (env_status x =? ENV_RUNNING) && negb (bool_decide (cur = Some e)) then
    upd_env e (set_env_status ENV_DYING)
  else
    do! (if env_type x =? ENV_TYPE_GUEST then env_guest_free e else env_free e) ;;
    let! cur := gets curenv in
    if bool_decide (cur = Some e) then
      do! modify (set_curenv None) ;;
      sched_yield
    else ret tt.
End Sched.
