(* ===== verification/EnvProps.v ===== *)
(** Properties of the environments of kern/env.c and of the scheduler of
    kern/sched.c. *)

From S2P Require Import Prelude Kernel PageAlloc PageTable PageTableInv PageTableSpec PageTableProps Mmu Ept Vmx Env.

(** ** Identifiers *)

Lemma ENVX_mod id : ENVX id = id mod NENV.
Proof. unfold ENVX, NENV. by apply (land_mask _ 10). Qed.

Lemma next_env_id_eq old e :
  0 <= old < 2 ^ 31 -> 0 <= e < NENV ->
  next_env_id old e =
  (let g := (old / NENV + 4) * NENV in if 2 ^ 31 <=? g then 4096 else g) + e.
Proof.
  intros Hold He. unfold next_env_id, ENVGENSHIFT, NENV in *. change (Z.shiftl 1 12) with 4096.
  change (1024 - 1) with (2 ^ 10 - 1). rewrite land_clear by done. change (2 ^ 10) with 1024.
  pose proof (Z.div_mod old 1024 ltac:(done)) as Hdm. pose proof (Z.mod_pos_bound old 1024 ltac:(done)) as Hm.
  set (q := old / 1024) in *. set (m := old mod 1024) in *. cbv zeta.
  assert (forall g, 0 <= g -> Z.lor (g * 1024) e = g * 1024 + e) as Hlor.
  { intros g Hg. by apply (lor_disjoint g e 10). }
  unfold s32. change (2 ^ 31) with 2147483648 in *. change (2 ^ 32) with 4294967296.
  destruct (Z.leb_spec 2147483648 ((q + 4) * 1024)) as [Hbig|Hsmall].
  - assert ((old + 4096 + 2147483648) mod 4294967296 - 2147483648 = old + 4096 - 4294967296) as ->.
    { rewrite <- (Z.mod_unique (old + 4096 + 2147483648) 4294967296 1 (old + 4096 - 2147483648)); lia. }
    assert ((old + 4096 - 4294967296) mod 1024 = m) as Hmm.
    { symmetry. apply (Z.mod_unique _ _ (q + 4 - 4194304)); lia. }
    rewrite Hmm. destruct (Z.leb_spec (old + 4096 - 4294967296 - m) 0); [|lia].
    change 4096 with (4 * 1024). by apply Hlor.
  - rewrite Z.mod_small by lia.
    assert ((old + 4096 + 2147483648 - 2147483648) mod 1024 = m) as Hmm.
    { symmetry. apply (Z.mod_unique _ _ (q + 4)); lia. }
    rewrite Hmm. destruct (Z.leb_spec (old + 4096 + 2147483648 - 2147483648 - m) 0); [lia|].
    replace (old + 4096 + 2147483648 - 2147483648 - m) with ((q + 4) * 1024) by lia.
    apply Hlor. lia.
Qed.

Lemma next_env_id_props old e :
  0 <= old < 2 ^ 31 -> 0 <= e < NENV ->
  0 < next_env_id old e < 2 ^ 31 /\ ENVX (next_env_id old e) = e /\ next_env_id old e <> old.
Proof.
  intros Hold He. rewrite ENVX_mod, next_env_id_eq by done. unfold NENV in *.
  pose proof (Z.div_mod old 1024 ltac:(done)) as Hdm. pose proof (Z.mod_pos_bound old 1024 ltac:(done)) as Hm.
  set (q := old / 1024) in *. set (m := old mod 1024) in *. cbv zeta.
  change (2 ^ 31) with 2147483648 in *.
  destruct (Z.leb_spec 2147483648 ((q + 4) * 1024)).
  - split_ands; try lia. symmetry. apply (Z.mod_unique _ _ 4); lia.
  - split_ands; try lia. symmetry. apply (Z.mod_unique _ _ (q + 4)); lia.
Qed.

(** The identifier [env_alloc] gives to a slot is a positive [envid_t] whose
    index part is the slot, and it differs from the slot's previous one, so
    that [envid2env] rejects every stale identifier of the slot. *)
Lemma next_env_id_fresh s e old parent :
  env_id (env_at s e) = old -> 0 <= old < 2 ^ 31 -> 0 <= e < NENV ->
  let new := env_id (env_fresh e parent (env_at s e)) in
  0 < new < 2 ^ 31 /\ ENVX new = e /\ new <> old /\
  let s' := set_envs (<[e := env_fresh e parent (env_at s e)]> (envs s)) s in
  envid2env new false s' = Ret (0, Some e) s' /\
  (0 < old -> ENVX old = e -> forall checkperm, envid2env old checkperm s' = Ret (- E_BAD_ENV, None) s').
Proof.
  intros Hid Hold He.
  assert (env_id (env_fresh e parent (env_at s e)) = next_env_id old e) as Hi by (by rewrite <- Hid).
  destruct (next_env_id_props old e Hold He) as (H1 & H2 & H3). cbv zeta.
  rewrite Hi. split_ands; try done; try lia; set (s' := set_envs _ s);
    assert (env_at s' e = env_fresh e parent (env_at s e)) as Hs' by (subst s'; by rewrite env_at_upd, decide_True).
  - unfold envid2env. msteps. destruct (Z.eqb_spec (next_env_id old e) 0); [lia|]. msteps.
    rewrite H2, Hs', Hi, Z.eqb_refl. done.
  - intros Hpos Hx checkperm. unfold envid2env. msteps. destruct (Z.eqb_spec old 0); [lia|]. msteps.
    rewrite Hx, Hs', Hi. destruct (Z.eqb_spec (next_env_id old e) old); [done|].
    by rewrite orb_true_r.
Qed.

Example next_env_id_fresh_example :
  let s := set_envs {[5 := set_env_id (4096 + 5) Env0]} (machine 8 (KERNBASE + 0x8000)) in
  let new := env_id (env_fresh 5 0 (env_at s 5)) in
  0 < new < 2 ^ 31 /\ ENVX new = 5 /\ new <> 4096 + 5 /\
  let s' := set_envs (<[5 := env_fresh 5 0 (env_at s 5)]> (envs s)) s in
  envid2env new false s' = Ret (0, Some 5) s' /\
  (0 < 4096 + 5 -> ENVX (4096 + 5) = 5 -> forall checkperm,
     envid2env (4096 + 5) checkperm s' = Ret (- E_BAD_ENV, None) s').
Proof.
  apply (next_env_id_fresh (set_envs {[5 := set_env_id (4096 + 5) Env0]} (machine 8 (KERNBASE + 0x8000))) 5 (4096 + 5) 0);
    done.
Qed.

(** ** A new address space *)

(** Only memory management data and environments change. *)
Definition env_only (s s' : kstate) : Prop :=
  s' = set_envs (envs s') (set_pages (pages s') (set_page_free_list (page_free_list s') (set_mem (mem s') s))).

(** The top-level table [env_setup_vm] builds in page [p]. *)
Definition space_entry (s : kstate) (k p i : Z) : Z :=
  if i =? 2 then p * PGSIZE + Z.lor PTE_P PTE_U
  else if (1 <=? i) && (i <? 512) then Z.lor (entry s k i) PTE_P else 0.

(** The loop that copies the kernel's slots into table [p]. *)
Lemma copy_slots_run k p e s :
  p <> k -> env_pml4e (env_at s e) = kva p 0 -> boot_pml4e s = kva k 0 -> (forall i, entry s p i = 0) ->
  exists s', forM (seqZ 0 NPMLENTRIES) (fun i =>
      if PML4 UTOP <=? i then
        let! pml := gets (fun s => env_pml4e (env_at s e)) in
        let! boot := gets boot_pml4e in
        let! b := load64 (index8 boot i) in
        store64 (index8 pml i) (Z.lor b (Z.land PTE_P (Z.lnot (Z.lor PTE_W PTE_U))))
      else ret tt) s = Ret tt s' /\ s' = set_mem (mem s') s /\
    (forall q i, q <> p -> entry s' q i = entry s q i) /\
    (forall i, entry s' p i = if (1 <=? i) && (i <? 512) then Z.lor (entry s k i) PTE_P else 0).
Proof.
  intros Hpk Hpml Hboot Hz.
  match goal with |- exists s', forM ?l ?f _ = _ /\ _ => set (body := f) end.
  destruct (forM_inv (fun (pre : list Z) s' => s' = set_mem (mem s') s /\
      (forall q i, q <> p -> entry s' q i = entry s q i) /\
      (forall i, entry s' p i = if (1 <=? i) && (i <? Z.of_nat (length pre)) then Z.lor (entry s k i) PTE_P else 0))
      (seqZ 0 NPMLENTRIES) body s) as (s' & Hrun & Hm & Ho & Hp).
  - intros pre x post s1 Hsplit (Hm & Ho & Hp). apply seqZ_split in Hsplit as [Hx Hxn]. rewrite Z.add_0_l in Hx.
    unfold NPMLENTRIES in Hxn. unfold body. change (PML4 UTOP) with 1. rewrite length_app. cbn [length].
    rewrite Nat2Z.inj_add. change (Z.of_nat 1) with 1. rewrite <- Hx. destruct (Z.leb_spec 1 x) as [H1|H1].
    + msteps. assert (env_pml4e (env_at s1 e) = kva p 0) as -> by (by rewrite Hm).
      assert (boot_pml4e s1 = kva k 0) as -> by (by rewrite Hm).
      rewrite bind_load64 by lia. rewrite index8_kva, store64_kva by lia.
      eexists. split; [done|]. split_ands.
      * by rewrite Hm.
      * intros q i Hq. rewrite entry_set_entry_ne by auto. by apply Ho.
      * intros i. rewrite entry_set_entry. rewrite (Ho k) by done.
        change (Z.land PTE_P (Z.lnot (Z.lor PTE_W PTE_U))) with PTE_P.
        destruct (decide (p = p /\ 0 + x = i)) as [[_ <-]|Hne].
        -- rewrite Z.add_0_l. destruct (Z.leb_spec 1 x); [|lia]. by destruct (Z.ltb_spec x (x + 1)); [|lia].
        -- rewrite Hp, <- Hx. destruct (Z.ltb_spec i x), (Z.ltb_spec i (x + 1)); try lia; try done.
    + exists s1. split; [done|]. split_ands; try done. intros i. rewrite Hp, <- Hx.
      destruct (Z.leb_spec 1 i); cbn; [|done]. destruct (Z.ltb_spec i x), (Z.ltb_spec i (x + 1)); lia || done.
  - split_ands; [by destruct s|done|]. intros i. rewrite Hz.
    change (Z.of_nat (length [])) with 0. by destruct (Z.leb_spec 1 i), (Z.ltb_spec i 0); cbn [andb]; try lia.
  - exists s'. split; [exact Hrun|]. split_ands; try done.
Qed.

Lemma env_setup_vm_run k own l p s e :
  pt_inv k own (p :: l) s -> own !! k = Some (k, []) -> boot_pml4e s = kva k 0 ->
  exists s', env_setup_vm e s = Ret 0 s' /\ env_only s s' /\ free_list_ok s' l /\
    (forall q, page_at s' q = if decide (p = q) then mkPageInfo None 1 else page_at s q) /\
    (forall e', env_at s' e' = if decide (e = e') then set_env_cr3 (p * PGSIZE) (set_env_pml4e (kva p 0) (env_at s e))
                               else env_at s e') /\
    (forall q i, entry s' q i = if decide (p = q) then space_entry s k p i else entry s q i).
Proof.
  intros I Hk Hboot. pose proof (pi_fl _ _ _ _ I) as Hfl. pose proof (pi_np _ _ _ _ I) as Hn.
  assert (0 <= p < npages s) as Hp by (eapply inv_free_range; [exact I|lset]).
  assert (ref_of s p = 0) as Hr0 by (eapply inv_free_ref; [exact I|lset]).
  assert (p <> k) as Hpk. { intros ->. eapply inv_owned_not_free in Hk; [|exact I]. lset. }
  unfold env_setup_vm. rewrite (bind_Ret _ _ _ _ _ (page_alloc_pop 0 s p l Hn Hfl)). cbv iota.
  assert (page2kva p (popped 0 p (head l) s) = Ret (kva p 0) (popped 0 p (head l) s)) as Hkva by (by apply page2kva_ok).
  mrun Hkva. msteps. rewrite page2pa_eq by (unfold npages_ok in Hn; lia).
  set (s1 := popped 0 p (head l) s). set (s2 := set_envs _ s1). set (s3 := set_envs _ s2).
  set (s4 := set_pages (<[p := set_pp_ref (u16 (pp_ref (page_at s3 p) + 1)) (page_at s3 p)]> (pages s3)) s3).
  assert (forall e', env_at s4 e' = if decide (e = e') then set_env_cr3 (p * PGSIZE) (set_env_pml4e (kva p 0) (env_at s e)) else env_at s e') as Hes.
  { intros e'. change (env_at s4 e') with (env_at s3 e'). unfold s3. rewrite env_at_upd. unfold s2.
    rewrite !env_at_upd. change (env_at s1 e') with (env_at s e'). change (env_at s1 e) with (env_at s e).
    rewrite (decide_True (P := e = e)) by done. by repeat case_decide. }
  assert (forall q, page_at s4 q = if decide (p = q) then mkPageInfo None 1 else page_at s q) as Hpg.
  { intros q. unfold s4. rewrite page_at_upd. change (page_at s3) with (page_at s1). unfold s1.
    rewrite !popped_page_at. rewrite (decide_True (P := p = p)) by done. case_decide; [|done].
    cbn. fold (ref_of s p). by rewrite Hr0. }
  destruct (copy_slots_run k p e s4 Hpk) as (s5 & Hrun & Hm5 & Ho5 & Hp5).
  { rewrite Hes. by rewrite decide_True. } { exact Hboot. }
  { intros i. change (entry s1 p i = 0). unfold s1. by rewrite popped_entry, bool_decide_eq_true_2. }
  mrun Hrun. msteps.
  assert (forall e', env_at s5 e' = env_at s4 e') as He5 by (intros; by rewrite Hm5).
  assert (env_pml4e (env_at s5 e) = kva p 0) as -> by (rewrite He5, Hes; by rewrite decide_True).
  assert (env_cr3 (env_at s5 e) = p * PGSIZE) as -> by (rewrite He5, Hes; by rewrite decide_True).
  change (PML4 UVPT) with 2. rewrite bind_store64 by lia.
  rewrite <- Z.lor_assoc, lor_flags by done.
  eexists. split; [done|]. split_ands.
  - unfold env_only. rewrite Hm5. by destruct s.
  - eapply (free_list_ok_ext s1); [by rewrite Hm5|by rewrite Hm5| |by apply popped_free_list].
    intros q Hq. change (page_at s5 q = page_at s1 q). rewrite Hm5. change (page_at s4 q = page_at s1 q).
    rewrite Hpg. unfold s1. rewrite popped_page_at. case_decide; [|done]. subst.
    pose proof (fl_nodup _ _ Hfl) as Hnd. apply NoDup_cons in Hnd as [? _]. done.
  - intros q. change (page_at s5 q = if decide (p = q) then mkPageInfo None 1 else page_at s q). rewrite Hm5. apply Hpg.
  - intros e'. change (env_at s5 e' = if decide (e = e') then set_env_cr3 (p * PGSIZE) (set_env_pml4e (kva p 0) (env_at s e)) else env_at s e').
    rewrite He5. apply Hes.
  - intros q i. assert (forall q i, q <> p -> entry s4 q i = entry s q i) as He4.
    { intros q' i' Hq'. change (entry s1 q' i' = entry s q' i'). unfold s1.
      by rewrite popped_entry, bool_decide_eq_false_2, andb_false_r by done. }
    rewrite entry_set_entry. destruct (decide (p = q)) as [<-|Hpq].
    + unfold space_entry. destruct (Z.eqb_spec i 2) as [->|Hi]; [by rewrite decide_True|].
      rewrite decide_False by (intros [_ ?]; lia). rewrite Hp5. rewrite He4 by done. done.
    + rewrite decide_False by naive_solver. rewrite Ho5 by done. by apply He4.
Qed.

Lemma env_setup_vm_nomem e s : free_list_ok s [] -> env_setup_vm e s = Ret (- E_NO_MEM) s.
Proof. intros H. unfold env_setup_vm. by rewrite (bind_Ret _ _ _ _ _ (page_alloc_empty 0 s H)). Qed.

(** The tables after [env_setup_vm]: the old ones and a new, empty space. *)
Lemma new_space_after k own l p s s' :
  pt_inv k own (p :: l) s -> own !! k = Some (k, []) -> npages s' = npages s -> free_list_ok s' l ->
  (forall q, page_at s' q = if decide (p = q) then mkPageInfo None 1 else page_at s q) ->
  (forall q i, entry s' q i = if decide (p = q) then space_entry s k p i else entry s q i) ->
  pt_inv k (<[p := (p, [])]> own) l s' /\ same_tables own s s' /\ (forall va, PML4 va = 0 -> pte_of s' p va = 0).
Proof.
  intros I Hk Hn Hfl Hpg He.
  assert (own !! p = None) as Hfresh by (eapply inv_free_not_owned; [exact I|lset]).
  assert (0 <= p < npages s) as Hp by (eapply inv_free_range; [exact I|lset]).
  assert (same_tables own s s') as Hst.
  { intros t i [x Ht]. rewrite He, decide_False; [done|]. congruence. }
  assert (p ∉ l) as Hpl. { pose proof (fl_nodup _ _ (pi_fl _ _ _ _ I)) as H. by apply NoDup_cons in H as [? _]. }
  split_ands.
  - apply new_space_inv; try done.
    + apply (pt_inv_take k own l s s' p); try done.
      * intros q Hq. rewrite Hpg. by rewrite decide_False.
      * unfold link_of. by rewrite Hpg, decide_True.
      * unfold ref_of. by rewrite Hpg, decide_True.
    + by rewrite Hn.
    + unfold ref_of. by rewrite Hpg, decide_True.
    + intros j Hj. rewrite He, decide_True by done. unfold space_entry.
      destruct Hj as [->|[-> _]]; [done|]. congruence.
    + intros [t i] (H1 & (r & a & b & H2) & H3). cbn [fst snd] in *. rewrite Hst in H3 by eauto.
      apply (inv_free_unmapped _ _ _ _ p (t, i) I); [lset|]. split; [done|]. split; [by exists r, a, b|done].
  - done.
  - intros va Hva. unfold pte_of, va_idx. rewrite Hva. cbn [pt_read]. by rewrite He, decide_True by done.
Qed.

Lemma same_tables_pte k own l s s' r va :
  pt_inv k own l s -> same_tables own s s' -> own !! r = Some (r, []) -> priv k r (PML4 va) ->
  pte_of s' r va = pte_of s r va.
Proof.
  intros I Hst Hr Hp. eapply (same_tables_reads _ _ _ _ _ I Hst); [done|apply va_idx_ok|done|].
  intros j js' H. by inversion H; subst.
Qed.

Lemma env_only_free_list s s1 ev v : env_only s s1 ->
  let x := set_env_free_list v (set_envs ev s1) in
  x = set_env_free_list v (set_envs (envs x) (set_pages (pages x) (set_page_free_list (page_free_list x) (set_mem (mem x) s)))).
Proof.
  unfold env_only. generalize (envs s1) (pages s1) (page_free_list s1) (mem s1). intros e p f m ->. reflexivity.
Qed.

(** [env_alloc] when there is a free environment and a free page. *)
Lemma env_alloc_ok k own l p s e parent :
  pt_inv k own (p :: l) s -> own !! k = Some (k, []) -> boot_pml4e s = kva k 0 -> env_free_list s = Some e ->
  exists s', env_alloc parent s = Ret (0, Some e) s' /\
    s' = set_env_free_list (env_link (env_at s e)) (set_envs (envs s') (set_pages (pages s')
           (set_page_free_list (page_free_list s') (set_mem (mem s') s)))) /\
    pt_inv k (<[p := (p, [])]> own) l s' /\
    env_at s' e = env_fresh e parent (set_env_cr3 (p * PGSIZE) (set_env_pml4e (kva p 0) (env_at s e))) /\
    (forall e', e' <> e -> env_at s' e' = env_at s e') /\
    (forall va, PML4 va = 0 -> pte_of s' p va = 0) /\
    (forall i, entry s' p i = space_entry s k p i) /\
    (forall r va, own !! r = Some (r, []) -> priv k r (PML4 va) -> pte_of s' r va = pte_of s r va) /\
    (forall q, page_at s' q = if decide (p = q) then mkPageInfo None 1 else page_at s q) /\
    (forall q i, p <> q -> entry s' q i = entry s q i).
Proof.
  intros I Hk Hboot Hfl. unfold env_alloc. msteps. rewrite Hfl.
  destruct (env_setup_vm_run k own l p s e I Hk Hboot) as (s1 & Hrun & Honly & Hfl1 & Hpg & Hes & Hent).
  mrun Hrun. change (0 <? 0) with false. cbv iota. msteps. eexists. split; [done|].
  set (s2 := set_envs _ s1).
  assert (env_at s2 e = env_fresh e parent (set_env_cr3 (p * PGSIZE) (set_env_pml4e (kva p 0) (env_at s e)))) as Hs2.
  { unfold s2. rewrite env_at_upd, Hes, !decide_True by done. done. }
  destruct (new_space_after k own l p s (set_env_free_list (env_link (env_at s2 e)) s2) I Hk) as (I' & Hst & Hempty).
  { change (npages s1 = npages s). by rewrite Honly. }
  { by apply (free_list_ok_ext s1). }
  { exact Hpg. }
  { exact Hent. }
  split; [rewrite Hs2; exact (env_only_free_list s s1 _ _ Honly)|].
  split_ands; try done.
  - intros e' He'. change (env_at s2 e' = env_at s e'). unfold s2.
    rewrite env_at_upd, decide_False by congruence. rewrite Hes, decide_False by congruence. done.
  - intros i. change (entry s1 p i = space_entry s k p i). by rewrite Hent, decide_True by done.
  - intros r va Hr Hp. by eapply same_tables_pte.
  - intros q i Hq. change (entry s1 q i = entry s q i). by rewrite Hent, decide_False.
Qed.

(** A new user environment in slot [e] with top-level table in page [p]: all
    registers are zero but the segments, which have privilege level 3, the stack
    pointer and the interrupt flag; it is runnable and has never run, nobody
    handles its page faults and it does not wait for a message.  Its identifier
    is a positive [envid_t] whose index part is the slot and not the one the
    slot had before. *)
Record new_user_env (e parent p : Z) (old new : Env) : Prop := {
  nu_tf : env_tf new = mkTrapframe (mkPushRegs 0 0 0 0 0 0 0 0 0 0 0 0 0 0 0) 0x23 0x23 0 0 0 0x1b 0x200 USTACKTOP 0x23;
  nu_space : env_pml4e new = kva p 0 /\ env_cr3 new = p * PGSIZE;
  nu_state : env_status new = ENV_RUNNABLE /\ env_type new = ENV_TYPE_USER /\ env_runs new = 0;
  nu_parent : env_parent_id new = parent;
  nu_upcall : env_pgfault_upcall new = 0;
  nu_ipc : env_ipc_recving new = false;
  nu_id : 0 <= env_id old < 2 ^ 31 -> 0 <= e < NENV ->
    0 < env_id new < 2 ^ 31 /\ env_id new mod NENV = e /\ env_id new <> env_id old;
}.

Lemma env_fresh_new e parent p old :
  new_user_env e parent p old (env_fresh e parent (set_env_cr3 (p * PGSIZE) (set_env_pml4e (kva p 0) old))).
Proof. split; try done. intros Hold He. rewrite <- ENVX_mod. by apply next_env_id_props. Qed.


(** The machine of the page-table examples, with environment 0 free. *)
Definition demo_env : kstate := set_boot_pml4e (kva 10 0) (set_env_free_list (Some 0) demo).

Lemma demo_env_inv : pt_inv 10 demo_own demo_free demo_env.
Proof. by apply (pt_inv_same _ _ _ demo); [..|apply demo_inv]. Qed.


(** ** Destroying an environment *)

(** Environment 0 with one page, page 11, mapped as its stack, the way
    [load_icode] maps it. *)
Definition stack_demo : kstate :=
  let s := set_envs {[ 0 := set_env_cr3 (10 * PGSIZE) (set_env_pml4e (kva 10 0) Env0) ]} demo in
  match page_insert (kva 10 0) 11 (USTACKTOP - PGSIZE) (Z.lor (Z.lor PTE_U PTE_P) PTE_W) s with
  | Ret _ s' => s'
  | _ => s
  end.

(** [env_free] does not free the user stack: for the fourth gigabyte it
    stops at page directory entry [PDX(UTOP)], which is 4, while the stack is
    under entry 379; the stack page and its page table keep their references
    and never return to the free list, although the page directory that led
    to them, the tables above it and the top-level table are freed. *)
Lemma env_free_leaks_stack :
  pte_of stack_demo 10 (USTACKTOP - PGSIZE) = 11 * PGSIZE + 7 /\
  exists s', env_free 0 stack_demo = Ret tt s' /\ ref_of s' 11 = 1 /\ link_of s' 11 = None /\
    ref_of s' 6 = 1 /\ link_of s' 6 = None /\ free_list_ok s' [10; 3; 5; 7] /\ env_status (env_at s' 0) = ENV_FREE.
Proof.
  split; [by vm_compute|]. eexists. split; [vm_compute; reflexivity|].
  split_ands; try reflexivity. split; try reflexivity.
  - repeat split.
  - intros a Ha. inversion Ha; subst. by left.
  - apply (bool_decide_unpack _). by vm_compute.
  - intros p Hp. assert (p = 10 \/ p = 3 \/ p = 5 \/ p = 7) as Hc by set_solver.
    by destruct Hc as [->|[->|[->| ->]]].
Qed.
