(* ===== verification/SchedProps.v ===== *)
(** Properties of context switches (kern/env.c) and of the round-robin scheduler
    (kern/sched.c). *)

From S2P Require Import Prelude Kernel PageAlloc PageTable PageTableInv Mmu Ept Vmx Env.

(** ** One environment runs at a time *)

Definition run_ok (s : kstate) : Prop :=
  forall e, env_status (env_at s e) = ENV_RUNNING -> curenv s = Some e.

(** The state in which a processor enters environment [e]. *)
Record entered (e : Z) (s s' : kstate) : Prop := {
  en_cur : curenv s' = Some e;
  en_status : env_status (env_at s' e) = ENV_RUNNING;
  en_runs : env_runs (env_at s' e) = u32 (env_runs (env_at s e) + 1);
  en_tf : env_tf (env_at s' e) = env_tf (env_at s e);
  en_cr3 : cr3 s' = env_cr3 (env_at s e);
  en_lock : kernel_locked s' = false;
  en_prev : forall c, curenv s = Some c -> c <> e ->
    env_at s' c = (if env_status (env_at s c) =? ENV_RUNNING then set_env_status ENV_RUNNABLE (env_at s c) else env_at s c);
  en_other : forall c, c <> e -> curenv s <> Some c -> env_at s' c = env_at s c;
  en_mem : mem s' = mem s /\ pages s' = pages s /\ page_free_list s' = page_free_list s /\ npages s' = npages s;
}.

Lemma release_curenv_run s :
  exists s', release_curenv s = Ret tt s' /\ s' = set_envs (envs s') s /\
    forall c, env_at s' c = if decide (curenv s = Some c) then
        (if env_status (env_at s c) =? ENV_RUNNING then set_env_status ENV_RUNNABLE (env_at s c) else env_at s c)
      else env_at s c.
Proof.
  unfold release_curenv. msteps. destruct (curenv s) as [c|] eqn:Hc.
  - msteps. destruct (Z.eqb_spec (env_status (env_at s c)) ENV_RUNNING) as [Hr|Hr].
    + eexists. split; [done|]. split; [by destruct s|]. intros c'. rewrite env_at_upd.
      repeat case_decide; try naive_solver. subst. by rewrite Hr, Z.eqb_refl.
    + exists s. split; [done|]. split; [by destruct s|]. intros c'. case_decide as Hd; [|done]. inversion Hd; subst.
      by destruct (Z.eqb_spec (env_status (env_at s c')) ENV_RUNNING).
  - exists s. split; [done|]. split; [by destruct s|]. intros c'. by rewrite decide_False.
Qed.

Lemma env_run_entered e s :
  kernel_locked s = true -> exists s', env_run e s = NoRet s' /\ entered e s s'.
Proof.
  intros Hlock. unfold env_run. destruct (release_curenv_run s) as (s1 & Hrel & Hs1 & Henv). mrun Hrel.
  msteps. unfold lcr3. msteps. unfold unlock_kernel. msteps.
  change (kernel_locked (set_cr3 _ _)) with (kernel_locked s1).
  assert (kernel_locked s1 = true) as -> by (by rewrite Hs1). cbv iota. msteps. unfold env_pop_tf. msteps.
  change (curenv (set_kernel_locked _ _)) with (Some e). cbv iota. msteps.
  eexists. split; [done|].
  match goal with |- entered e s ?x => set (s' := x) end.
  assert (forall c, c <> e -> env_at s' c = env_at s1 c) as Hother.
  { intros c Hc. unfold s', env_at. cbn. by rewrite !lookup_insert_ne by done. }
  assert (env_at s' e = set_env_cpunum 0 (set_env_runs (u32 (env_runs (env_at s1 e) + 1)) (set_env_status ENV_RUNNING (env_at s1 e)))) as He.
  { unfold s', env_at. cbn. by rewrite !lookup_insert_eq. }
  assert (env_runs (env_at s1 e) = env_runs (env_at s e) /\ env_tf (env_at s1 e) = env_tf (env_at s e)
    /\ env_cr3 (env_at s1 e) = env_cr3 (env_at s e)) as (Hr & Ht & Hc3).
  { rewrite Henv. by repeat case_match. }
  split; try done.
  - by rewrite He.
  - rewrite He. cbn. by rewrite Hr.
  - rewrite He. cbn. by rewrite Ht.
  - unfold s', env_at. cbn. rewrite !lookup_insert_eq. cbn. exact Hc3.
  - intros c Hc Hce. rewrite Hother, Henv by done. by rewrite decide_True.
  - intros c Hce Hc. rewrite Hother, Henv by done. by rewrite decide_False.
  - unfold s'. cbn. rewrite Hs1. done.
Qed.

Lemma entered_run_ok e s s' : entered e s s' -> run_ok s -> run_ok s'.
Proof.
  intros [H1 H2 H3 H4 H5 H6 H7 H8 H9] Hok c Hc. rewrite H1. f_equal.
  destruct (decide (c = e)) as [|Hce]; [done|]. exfalso.
  destruct (decide (curenv s = Some c)) as [Hcur|Hcur].
  - rewrite (H7 c Hcur Hce) in Hc. destruct (Z.eqb_spec (env_status (env_at s c)) ENV_RUNNING); done.
  - rewrite (H8 c Hce Hcur) in Hc. by apply Hok in Hc.
Qed.

(** C30: [env_run] hands the processor to the environment it is given: it never
    returns, the environment is current and the only one running, the
    previous one is runnable again, the page tables are the environment's own
    and the kernel lock is released. *)
Theorem env_run_switches e s :
  kernel_locked s = true ->
  exists s', env_run e s = NoRet s' /\ curenv s' = Some e /\ env_status (env_at s' e) = ENV_RUNNING /\
    env_runs (env_at s' e) = (env_runs (env_at s e) + 1) mod 2 ^ 32 /\
    env_tf (env_at s' e) = env_tf (env_at s e) /\ cr3 s' = env_cr3 (env_at s e) /\ kernel_locked s' = false /\
    (forall c, curenv s = Some c -> c <> e -> env_status (env_at s c) = ENV_RUNNING ->
       env_status (env_at s' c) = ENV_RUNNABLE) /\
    (run_ok s -> run_ok s').
Proof.
  intros Hl. destruct (env_run_entered e s Hl) as (s' & Hrun & Hen). exists s'. split; [done|].
  pose proof (entered_run_ok _ _ _ Hen). destruct Hen as [H1 H2 H3 H4 H5 H6 H7 H8 H9].
  split_ands; try done. intros c Hc Hce Hst. rewrite (H7 c Hc Hce), Hst. done.
Qed.

Lemma env_run_switches_witness :
  let s := set_curenv (Some 1) (set_envs {[ 1 := set_env_status ENV_RUNNING Env0; 2 := set_env_status ENV_RUNNABLE Env0 ]}
             (machine 8 (KERNBASE + 0x8000))) in
  exists s', env_run 2 s = NoRet s' /\ curenv s' = Some 2 /\ env_status (env_at s' 2) = ENV_RUNNING /\
    env_runs (env_at s' 2) = (env_runs (env_at s 2) + 1) mod 2 ^ 32 /\
    env_tf (env_at s' 2) = env_tf (env_at s 2) /\ cr3 s' = env_cr3 (env_at s 2) /\ kernel_locked s' = false /\
    (forall c, curenv s = Some c -> c <> 2 -> env_status (env_at s c) = ENV_RUNNING ->
       env_status (env_at s' c) = ENV_RUNNABLE) /\
    (run_ok s -> run_ok s').
Proof. apply env_run_switches. reflexivity. Defined.

(** ** Round robin *)

Definition runnable (s : kstate) (j : Z) : Prop := env_status (env_at s j) = ENV_RUNNABLE.

(** How many slots after [i], cyclically, slot [j] comes: 0 for the next one. *)
Definition sched_dist (i j : Z) : Z := (j - i - 1) mod NENV.

(** [j] is the first runnable environment after slot [i]. *)
Definition first_runnable (s : kstate) (i j : Z) : Prop :=
  0 <= j < NENV /\ runnable s j /\
  forall j', 0 <= j' < NENV -> runnable s j' -> sched_dist i j <= sched_dist i j'.

(** The slot the search starts from. *)
Definition sched_start (s : kstate) : Z :=
  match curenv s with Some c => ENVX (env_id (env_at s c)) | None => 0 end.

Definition sched_pick (s : kstate) : option Z :=
  snd <$> list_find (fun j => env_status (env_at s j) = ENV_RUNNABLE) (sched_order (sched_start s)).

Lemma sched_dist_order i d :
  0 <= d < NENV -> sched_dist i ((i + 1 + d) mod NENV) = d.
Proof.
  intros Hd. unfold sched_dist, NENV in *.
  replace ((i + 1 + d) mod 1024 - i - 1) with ((i + 1 + d) mod 1024 - (i + 1)) by lia.
  rewrite Zminus_mod_idemp_l. replace (i + 1 + d - (i + 1)) with d by lia. by rewrite Z.mod_small.
Qed.

Lemma sched_order_dist i j : 0 <= j < NENV -> (i + 1 + sched_dist i j) mod NENV = j.
Proof.
  intros Hj. unfold sched_dist, NENV in *. rewrite Zplus_mod_idemp_r.
  replace (i + 1 + (j - i - 1)) with j by lia. by apply Z.mod_small.
Qed.

Lemma sched_dist_range i j : 0 <= sched_dist i j < NENV.
Proof. by apply Z.mod_pos_bound. Qed.

Lemma sched_order_lookup i n j :
  sched_order i !! n = Some j <-> j = (i + 1 + Z.of_nat n) mod NENV /\ Z.of_nat n < NENV.
Proof.
  unfold sched_order. rewrite list_lookup_fmap_Some. setoid_rewrite lookup_seqZ.
  split.
  - intros (x & -> & -> & H). by rewrite Z.add_0_l.
  - intros [-> H]. exists (Z.of_nat n). split; [done|]. lia.
Qed.

Lemma sched_pick_spec s :
  match sched_pick s with
  | Some j => first_runnable s (sched_start s) j
  | None => forall j, 0 <= j < NENV -> ~ runnable s j
  end.
Proof.
  unfold sched_pick. set (i := sched_start s). destruct (list_find _ _) as [[n j]|] eqn:Hf; cbn.
  - apply list_find_Some in Hf as (Hn & Hj & Hb). apply sched_order_lookup in Hn as [-> Hn].
    split; [by apply Z.mod_pos_bound|]. split; [done|]. intros j' Hj' Hr'.
    rewrite sched_dist_order by lia. pose proof (sched_dist_range i j') as Hd.
    destruct (Z.le_gt_cases (Z.of_nat n) (sched_dist i j')) as [|Hlt]; [done|]. exfalso.
    apply (Hb (Z.to_nat (sched_dist i j')) j'); [|lia|done].
    apply sched_order_lookup. rewrite Z2Nat.id by lia. rewrite sched_order_dist by done. lia.
  - apply list_find_None in Hf. rewrite Forall_forall in Hf. intros j Hj. apply Hf.
    apply list_elem_of_lookup. exists (Z.to_nat (sched_dist i j)). pose proof (sched_dist_range i j).
    apply sched_order_lookup. rewrite Z2Nat.id by lia. rewrite sched_order_dist by done. lia.
Qed.

Section Yield.
Context `{!VmxHw}.

(** No guest would be chosen: guests are entered through the VMX code. *)
Definition no_guest (s : kstate) : Prop :=
  forall j, (runnable s j \/ curenv s = Some j) -> env_type (env_at s j) <> ENV_TYPE_GUEST.

(** The processor waits for an interrupt, or the kernel monitor runs. *)
Definition halted (s s' : kstate) : Prop :=
  envs s' = envs s /\ mem s' = mem s /\ pages s' = pages s /\
  ((s' = s /\ forall j, 0 <= j < NENV -> env_status (env_at s j) = ENV_FREE \/ env_status (env_at s j) = ENV_NOT_RUNNABLE
      \/ ~ (ENV_FREE <= env_status (env_at s j) <= ENV_NOT_RUNNABLE)) \/
   (curenv s' = None /\ cr3 s' = boot_pml4e s - KERNBASE /\ cpu_status s' = CPU_HALTED /\ kernel_locked s' = false)).

Lemma sched_halt_run s :
  kernel_locked s = true -> KERNBASE <= boot_pml4e s -> exists s', sched_halt s = NoRet s' /\ halted s s'.
Proof.
  intros Hl Hb. unfold sched_halt. msteps. destruct (existsb _ _) eqn:He; cbn [negb].
  - msteps. unfold PADDR. change (boot_pml4e (set_curenv None s)) with (boot_pml4e s).
    destruct (Z.ltb_spec (boot_pml4e s) KERNBASE); [lia|]. msteps. unfold lcr3, unlock_kernel. msteps.
    change (kernel_locked (set_cpu_status _ _)) with (kernel_locked s). rewrite Hl. cbv iota. msteps.
    eexists. split; [done|]. unfold halted. split_ands; try done. by right.
  - exists s. split; [done|]. unfold halted. split_ands; try done. left. split; [done|]. intros j Hj.
    apply not_true_iff_false in He. rewrite existsb_exists in He.
    destruct (decide (env_status (env_at s j) = ENV_FREE)); [by left|].
    destruct (decide (env_status (env_at s j) = ENV_NOT_RUNNABLE)); [by right; left|]. right; right.
    intros Hr. apply He. exists j. split; [apply list_elem_of_In, elem_of_seqZ; unfold NENV in *; lia|].
    repeat rewrite orb_true_iff. rewrite !Z.eqb_eq. lia.
Qed.

(** What [sched_yield] does, by the environment it picks. *)
Lemma sched_yield_run s :
  kernel_locked s = true -> KERNBASE <= boot_pml4e s -> no_guest s ->
  exists s', sched_yield s = NoRet s' /\
    match sched_pick s with
    | Some j => entered j s s'
    | None =>
        match curenv s with
        | Some c => if env_status (env_at s c) =? ENV_RUNNING then entered c s s' else halted s s'
        | None => halted s s'
        end
    end.
Proof.
  intros Hl Hb Hg. unfold sched_yield. msteps.
  rewrite (bind_Ret _ _ s (sched_start s) s); cycle 1.
  { unfold sched_start. by destruct (curenv s). }
  msteps. unfold sched_pick. pose proof (sched_pick_spec s) as Hspec. unfold sched_pick in Hspec.
  destruct (list_find _ _) as [[n j]|] eqn:Hf; cbn [fmap option_fmap option_map snd] in *.
  - msteps. destruct (Z.eqb_spec (env_type (env_at s j)) ENV_TYPE_GUEST) as [Ht|Ht].
    + exfalso. apply (Hg j); [|done]. left. by destruct Hspec as (_ & ? & _).
    + by apply env_run_entered.
  - destruct (curenv s) as [c|] eqn:Hc.
    + msteps. destruct (Z.eqb_spec (env_status (env_at s c)) ENV_RUNNING) as [Hr|Hr].
      * destruct (Z.eqb_spec (env_type (env_at s c)) ENV_TYPE_GUEST) as [Ht|Ht].
        -- exfalso. apply (Hg c); [by right|done].
        -- destruct (env_run_entered c s Hl) as (s' & Hrun & Hen). exists s'. by rewrite (bind_NoRet _ _ _ _ Hrun).
      * msteps. by apply sched_halt_run.
    + msteps. by apply sched_halt_run.
Qed.

(** [sched_yield] is round robin: it never returns; it enters the first
    runnable environment after the current one in cyclic order of the slots,
    or the current one again when it is the only one that can run, or halts
    the processor; and at most one environment is running afterwards. *)
Lemma sched_yield_round_robin s :
  kernel_locked s = true -> KERNBASE <= boot_pml4e s -> no_guest s ->
  exists s', sched_yield s = NoRet s' /\ (run_ok s -> run_ok s') /\
    ((exists j, first_runnable s (sched_start s) j /\ curenv s' = Some j /\ env_status (env_at s' j) = ENV_RUNNING /\
        cr3 s' = env_cr3 (env_at s j)) \/
     ((forall j, 0 <= j < NENV -> ~ runnable s j) /\
      ((exists c, curenv s = Some c /\ env_status (env_at s c) = ENV_RUNNING /\ curenv s' = Some c) \/ halted s s'))).
Proof.
  intros Hl Hb Hg. destruct (sched_yield_run s Hl Hb Hg) as (s' & Hrun & Hs'). exists s'. split; [done|].
  assert (halted s s' -> (forall c, curenv s = Some c -> env_status (env_at s c) <> ENV_RUNNING) -> run_ok s -> run_ok s') as Hh.
  { intros (He & _) Hc Hok e Hr. unfold env_at in Hr. rewrite He in Hr. fold (env_at s e) in Hr.
    pose proof (Hok e Hr) as Hcur. by destruct (Hc e Hcur). }
  pose proof (sched_pick_spec s) as Hspec. destruct (sched_pick s) as [j|].
  - split; [by eapply entered_run_ok|]. left. exists j. by destruct Hs'.
  - destruct (curenv s) as [c|] eqn:Hc; [destruct (Z.eqb_spec (env_status (env_at s c)) ENV_RUNNING) as [Hr|Hr]|].
    + split; [by eapply entered_run_ok|]. right. split; [done|]. left. exists c. by destruct Hs'.
    + split; [apply Hh; naive_solver|]. right. split; [done|]. by right.
    + split; [apply Hh; naive_solver|]. right. split; [done|]. by right.
Qed.

(** ** No starvation *)

(** The current environment's identifier names its own slot. *)
Definition cur_id_ok (s : kstate) : Prop :=
  forall c, curenv s = Some c -> 0 <= c < NENV /\ ENVX (env_id (env_at s c)) = c.

(** Choosing another environment brings [j] closer. *)
Lemma sched_dist_decreases s j0 j :
  0 <= j0 < NENV -> runnable s j0 -> first_runnable s (sched_start s) j -> j <> j0 ->
  sched_dist j j0 < sched_dist (sched_start s) j0.
Proof.
  intros Hj0 Hr0 (Hj & Hr & Hmin) Hne. set (i := sched_start s) in *.
  pose proof (Hmin j0 Hj0 Hr0) as Hle. pose proof (sched_order_dist i j Hj) as Ej.
  pose proof (sched_order_dist i j0 Hj0) as Ej0. pose proof (sched_dist_range i j) as R.
  pose proof (sched_dist_range i j0) as R0.
  assert (sched_dist i j <> sched_dist i j0) as Hd by (intros E; rewrite E in Ej; congruence).
  enough (sched_dist j j0 = sched_dist i j0 - sched_dist i j - 1) by lia.
  unfold sched_dist at 1. rewrite <- Ej at 1. rewrite <- Ej0 at 1. unfold NENV in *.
  set (d := sched_dist i j) in *. set (d0 := sched_dist i j0) in *.
  replace ((i + 1 + d0) mod 1024 - (i + 1 + d) mod 1024 - 1) with ((i + 1 + d0) mod 1024 - ((i + 1 + d) mod 1024 + 1)) by lia.
  rewrite Zminus_mod_idemp_l.
  replace (i + 1 + d0 - ((i + 1 + d) mod 1024 + 1)) with (i + d0 - (i + 1 + d) mod 1024) by lia.
  rewrite Zminus_mod_idemp_r. replace (i + d0 - (i + 1 + d)) with (d0 - d - 1) by lia. apply Z.mod_small. lia.
Qed.

(** C29: no runnable environment starves, as long as no guest is runnable or
    current: along any sequence of calls of [sched_yield], each made with the
    kernel lock held and a current environment whose identifier names its own
    slot, and between which the environment last entered stays current, an
    environment that stays runnable is entered within [NENV] calls. *)
Theorem sched_no_starvation (st : nat -> kstate) (j : Z) :
  0 <= j < NENV ->
  (forall n, kernel_locked (st n) = true /\ KERNBASE <= boot_pml4e (st n) /\ no_guest (st n) /\
     cur_id_ok (st n) /\ runnable (st n) j) ->
  (forall n s', sched_yield (st n) = NoRet s' -> curenv s' <> Some j -> curenv (st (S n)) = curenv s') ->
  exists n s', (n < Z.to_nat NENV)%nat /\ sched_yield (st n) = NoRet s' /\ curenv s' = Some j.
Proof.
  intros Hj Hst Hnext.
  assert (forall d n, sched_dist (sched_start (st n)) j <= Z.of_nat d ->
    exists m s', (m <= n + d)%nat /\ sched_yield (st m) = NoRet s' /\ curenv s' = Some j) as Hind.
  { induction d as [|d IH]; intros n Hd; destruct (Hst n) as (Hl & Hb & Hg & Hid & Hr);
      destruct (sched_yield_run (st n) Hl Hb Hg) as (s' & Hrun & Hs'); pose proof (sched_pick_spec (st n)) as Hspec;
      (destruct (sched_pick (st n)) as [j1|]; [|by destruct (Hspec j Hj)]);
      (destruct (decide (j1 = j)) as [->|Hne]; [exists n, s'; split_ands; [lia|done|apply (en_cur _ _ _ Hs')]|]);
      pose proof (sched_dist_decreases (st n) j j1 Hj Hr Hspec Hne) as Hdec.
    - pose proof (sched_dist_range j1 j). lia.
    - assert (curenv (st (S n)) = Some j1) as Hcur.
      { rewrite <- (en_cur _ _ _ Hs'). apply Hnext; [done|]. rewrite (en_cur _ _ _ Hs'). congruence. }
      assert (sched_start (st (S n)) = j1) as Hstart.
      { unfold sched_start. rewrite Hcur. destruct (Hst (S n)) as (_ & _ & _ & Hid' & _). by apply Hid'. }
      destruct (IH (S n)) as (m & s2 & Hm & H2); [rewrite Hstart; lia|]. exists m, s2. split; [lia|done]. }
  pose proof (sched_dist_range (sched_start (st 0%nat)) j) as Hr.
  destruct (Hind (Z.to_nat (sched_dist (sched_start (st 0%nat)) j)) 0%nat) as (m & s' & Hm & Hrest); [lia|].
  exists m, s'. split; [lia|done].
Qed.
End Yield.

(** A processor without VMX, and a machine with two runnable environments. *)
Definition no_vmx : VmxHw := {|
  cpuid1_ecx := 0; read_msr := fun _ => 0; rcr0 := 0; rcr4 := 0;
  vmxon_error := fun _ => 1; vmclear_error := fun _ => 1; vmptrld_error := fun _ => 1 |}.

Definition two_envs : kstate :=
  set_boot_pml4e (kva 4 0) (set_curenv (Some 1) (set_envs
    {[ 1 := set_env_id (4096 + 1) (set_env_status ENV_RUNNING Env0);
       2 := set_env_id (4096 + 2) (set_env_status ENV_RUNNABLE Env0) ]} (machine 8 (KERNBASE + 0x8000)))).

Lemma two_envs_no_guest : no_guest two_envs.
Proof.
  intros j _. unfold env_at. change (envs two_envs) with
    ({[ 1 := set_env_id (4096 + 1) (set_env_status ENV_RUNNING Env0);
        2 := set_env_id (4096 + 2) (set_env_status ENV_RUNNABLE Env0) ]} : gmap Z Env).
  destruct (decide (1 = j)) as [<-|H1]; [done|]. rewrite lookup_insert_ne by done.
  destruct (decide (2 = j)) as [<-|H2]; [done|]. by rewrite lookup_singleton_ne.
Qed.

Lemma sched_yield_round_robin_witness :
  exists s', @sched_yield no_vmx two_envs = NoRet s' /\ (run_ok two_envs -> run_ok s') /\
    ((exists j, first_runnable two_envs (sched_start two_envs) j /\ curenv s' = Some j /\
        env_status (env_at s' j) = ENV_RUNNING /\ cr3 s' = env_cr3 (env_at two_envs j)) \/
     ((forall j, 0 <= j < NENV -> ~ runnable two_envs j) /\
      ((exists c, curenv two_envs = Some c /\ env_status (env_at two_envs c) = ENV_RUNNING /\ curenv s' = Some c) \/
       halted two_envs s'))).
Proof. apply (@sched_yield_round_robin no_vmx two_envs); [reflexivity|done|exact two_envs_no_guest]. Defined.

(** Three environments, of which [c] runs and the others wait. *)
Definition three_envs (c : Z) : kstate :=
  let x := fun j => set_env_id (4096 + j) (set_env_status (if j =? c then ENV_RUNNING else ENV_RUNNABLE) Env0) in
  set_boot_pml4e (kva 4 0) (set_curenv (Some c) (set_envs {[ 1 := x 1; 2 := x 2; 3 := x 3 ]} (machine 8 (KERNBASE + 0x8000)))).

Lemma three_envs_no_guest c : no_guest (three_envs c).
Proof.
  intros j _. unfold env_at, three_envs. cbn [envs set_boot_pml4e set_curenv set_envs].
  destruct (decide (1 = j)) as [<-|H1]; [done|]. rewrite lookup_insert_ne by done.
  destruct (decide (2 = j)) as [<-|H2]; [done|]. rewrite lookup_insert_ne by done.
  destruct (decide (3 = j)) as [<-|H3]; [done|]. by rewrite lookup_singleton_ne.
Qed.

(** Environment 3 waits while the first call enters environment 2. *)
Lemma sched_no_starvation_witness :
  exists n s', (n < Z.to_nat NENV)%nat /\
    @sched_yield no_vmx (three_envs (match n with O => 1 | _ => 2 end)) = NoRet s' /\ curenv s' = Some 3.
Proof.
  assert (forall c, (c = 1 \/ c = 2) -> exists x, @sched_yield no_vmx (three_envs c) = NoRet x /\ curenv x = Some (c + 1)) as Hrun.
  { intros c [-> | ->]; eexists; (split; [vm_compute; reflexivity|reflexivity]). }
  apply (@sched_no_starvation no_vmx (fun n => three_envs (match n with O => 1 | _ => 2 end)) 3); [done| |].
  - intros n. split_ands; [by destruct n|by destruct n|apply three_envs_no_guest|by destruct n; intros c [= <-]|by destruct n].
  - intros [|n] s' Hs' Hne.
    + destruct (Hrun 1 ltac:(by left)) as (x & Hx & Hc). rewrite Hx in Hs'. injection Hs' as <-. by rewrite Hc.
    + destruct (Hrun 2 ltac:(by right)) as (x & Hx & Hc). rewrite Hx in Hs'. injection Hs' as <-. done.
Defined.
