(* ===== verification/Syscall.v ===== *)
(** System calls: kern/syscall.c, and [user_mem_assert] of kern/pmap.c. *)

From S2P Require Import Prelude Kernel PageAlloc PageTable PageTableInv Mmu Ept Vmx Env.

(** inc/syscall.h *)
Definition SYS_cputs : Z := 0.
Definition SYS_cgetc : Z := 1.
Definition SYS_getenvid : Z := 2.
Definition SYS_env_destroy : Z := 3.
Definition SYS_page_alloc : Z := 4.
Definition SYS_page_map : Z := 5.
Definition SYS_page_unmap : Z := 6.
Definition SYS_exofork : Z := 7.
Definition SYS_env_set_status : Z := 8.
Definition SYS_env_set_trapframe : Z := 9.
Definition SYS_env_set_pgfault_upcall : Z := 10.
Definition SYS_yield : Z := 11.
Definition SYS_ipc_try_send : Z := 12.
Definition SYS_ipc_recv : Z := 13.
Definition SYS_time_msec : Z := 14.
Definition SYS_ept_map : Z := 15.
Definition SYS_env_mkguest : Z := 16.

(** [curenv], which a system call dereferences *)
Definition with_curenv {A : Type} (f : Z -> K A) : K A :=
  let! cur := gets curenv in
  match cur with
  | Some c => f c
  | None => panic "null pointer dereference"
  end.

(** The check of the permission bits a user may pass. *)
Definition perm_bad (perm : Z) : bool :=
  let newperm := Z.lor PTE_U PTE_P in
  negb (Z.land perm newperm =? newperm) || nz (Z.land perm (Z.lnot PTE_SYSCALL)).

(** The environment [envid2env] stored on success. *)
Definition the_env (e : option Z) : K Z :=
  match e with Some e => ret e | None => panic "null pointer dereference" end.

(** ** The console

    as the queue of waiting input and the sequence of written characters that
    kern/console.c implements (see Console). *)

Definition console_write (c : Z) : K unit := modify (fun s => set_cons_out (c :: cons_out s) s).

Definition console_read : K Z :=
  let! i := gets cons_in in
  match i with
  | [] => ret 0
  | c :: i' => do! modify (set_cons_in i') ;; ret c
  end.

(** [cprintf("%.*s", len, s)]: a character is read before the precision is
    tested, as in [vprintfmt].  The fuel covers the characters the precision
    allows; a negative precision has no bound but the address space. *)
Definition cprintf_str (len s : Z) : K unit :=
  let precision := s32 len in
  loop (Z.to_nat (if precision <? 0 then 2 ^ 48 else precision + 2)) (fun '(p, precision) =>
    let! ch := vload8 p in
    if ch =? 0 then ret (inr tt)
    else if precision <? 0 then do! console_write ch ;; ret (inl (u64 (p + 1), precision))
    else if 0 <=? precision - 1 then do! console_write ch ;; ret (inl (u64 (p + 1), precision - 1))
    else ret (inr tt)) (s, precision).

Section Syscalls.
Context `{!VmxHw}.

Definition user_mem_assert (env va len perm : Z) : K unit :=
  let! r := user_mem_check env va len (Z.lor perm PTE_U) in
  if r <? 0 then env_destroy env else ret tt.

Definition sys_cputs (s len : Z) : K unit :=
  with_curenv (fun c =>
    do! user_mem_assert c s len PTE_U ;;
    cprintf_str len s).

Definition sys_cgetc : K Z := console_read.

Definition sys_getenvid : K Z :=
  with_curenv (fun c => gets (fun s => env_id (env_at s c))).

Definition sys_env_destroy (envid : Z) : K Z :=
  let! r := envid2env envid true in
  let '(r, e) := r in
  if r <? 0 then ret r
  else
    let! e := the_env e in
    do! env_destroy e ;;
    ret 0.

Definition sys_yield : K unit := sched_yield.

Definition sys_exofork : K Z :=
  with_curenv (fun c =>
    let! pid := gets (fun s => env_id (env_at s c)) in
    let! r := env_alloc pid in
    let '(r, child) := r in
    if r <? 0 then ret r
    else
      let! child := the_env child in
      do! upd_env child (set_env_status ENV_NOT_RUNNABLE) ;;
      let! tf := gets (fun s => env_tf (env_at s c)) in
      do! upd_env child (set_env_tf tf) ;;
      do! upd_env child (fun x => set_env_tf (set_tf_regs (set_reg_rax 0 (tf_regs (env_tf x))) (env_tf x)) x) ;;
      let! pid := gets (fun s => env_id (env_at s c)) in
      do! upd_env child (set_env_parent_id pid) ;;
      gets (fun s => env_id (env_at s child))).

Definition sys_env_set_status (envid status : Z) : K Z :=
  if negb (status =? ENV_RUNNABLE) && negb (status =? ENV_NOT_RUNNABLE) then ret (- E_INVAL)
  else
    let! r := envid2env envid true in
    let '(r, e) := r in
    if r <? 0 then ret r
    else
      let! e := the_env e in
      do! upd_env e (set_env_status status) ;;
      ret 0.

(** A [struct Trapframe] at a virtual address: the words in the order of
    inc/trap.h, the segment registers in the low 16 bits of theirs. *)
Definition vload64 (va : Z) : K Z :=
  let! bs := vload va 8 in
  ret (foldr (fun b acc => b + 256 * acc) 0 bs).

Definition load_trapframe (va : Z) : K Trapframe :=
  let! ws := foldM (seqZ 0 24) [] (fun acc i => let! w := vload64 (u64 (va + 8 * i)) in ret (acc ++ [w])) in
  let w i := nth i ws 0 in
  ret (mkTrapframe
    (mkPushRegs (w 0%nat) (w 1%nat) (w 2%nat) (w 3%nat) (w 4%nat) (w 5%nat) (w 6%nat) (w 7%nat)
       (w 8%nat) (w 9%nat) (w 10%nat) (w 11%nat) (w 12%nat) (w 13%nat) (w 14%nat))
    (u16 (w 15%nat)) (u16 (w 16%nat)) (w 17%nat) (w 18%nat) (w 19%nat) (u16 (w 20%nat)) (w 21%nat)
    (w 22%nat) (u16 (w 23%nat))).

Definition sys_env_set_trapframe (envid tf : Z) : K Z :=
  let! r := envid2env envid true in
  let '(r, e) := r in
  if r <? 0 then ret r
  else
    let! e := the_env e in
    let! t := load_trapframe tf in
    do! upd_env e (set_env_tf t) ;;
    do! upd_env e (fun x => set_env_tf (set_tf_cs (Z.lor (tf_cs (env_tf x)) 3) (env_tf x)) x) ;;
    do! upd_env e (fun x => set_env_tf (set_tf_eflags (Z.lor (tf_eflags (env_tf x)) FL_IF) (env_tf x)) x) ;;
    ret 0.

Definition sys_env_set_pgfault_upcall (envid func : Z) : K Z :=
  let! r := envid2env envid true in
  let '(r, e) := r in
  if r <? 0 then ret r
  else
    let! e := the_env e in
    do! upd_env e (set_env_pgfault_upcall func) ;;
    ret 0.

Definition sys_page_alloc (envid va perm : Z) : K Z :=
  let! r := envid2env envid true in
  let '(r, e) := r in
  if r <? 0 then ret r
  else
    let! e := the_env e in
    let! pp := page_alloc 0 in
    match pp with
    | None => ret (- E_NO_MEM)
    | Some pp =>
        if (UTOP <=? va) || nz (PGOFF va) then ret (- E_INVAL)
        else if perm_bad perm then ret (- E_INVAL)
        else
          let! pml4e := gets (fun s => env_pml4e (env_at s e)) in
          let! r := page_insert pml4e pp va perm in
          if r <? 0 then
            do! page_free (Some pp) ;;
            ret (- E_NO_MEM)
          else ret 0
    end.

Definition sys_page_map (srcenvid srcva dstenvid dstva perm : Z) : K Z :=
  let! r1 := envid2env srcenvid true in
  let! r2 := envid2env dstenvid true in
  let '(r1, srcenv) := r1 in
  let '(r2, dstenv) := r2 in
  if (r1 <? 0) || (r2 <? 0) then ret (- E_BAD_ENV)
  else if (UTOP <=? srcva) || (UTOP <=? dstva) || nz (PGOFF srcva) || nz (PGOFF dstva) then ret (- E_INVAL)
  else
    let! srcenv := the_env srcenv in
    let! pml4e := gets (fun s => env_pml4e (env_at s srcenv)) in
    let! m := page_lookup pml4e srcva in
    match m with
    | None => ret (- E_NO_MEM)
    | Some (map, p_entry) =>
        if perm_bad perm then ret (- E_INVAL)
        else
          let! e := load64 p_entry in
          if nz (Z.land perm PTE_W) && negb (nz (Z.land e PTE_W)) then ret (- E_INVAL)
          else
            let! dstenv := the_env dstenv in
            let! pml4e := gets (fun s => env_pml4e (env_at s dstenv)) in
            let! r := page_insert pml4e map dstva perm in
            if r <? 0 then ret (- E_NO_MEM) else ret 0
    end.

Definition sys_page_unmap (envid va : Z) : K Z :=
  let! r := envid2env envid true in
  let '(r, e) := r in
  if r <? 0 then ret r
  else if (UTOP <=? va) || nz (PGOFF va) then ret (- E_INVAL)
  else
    let! e := the_env e in
    let! pml4e := gets (fun s => env_pml4e (env_at s e)) in
    do! page_remove pml4e va ;;
    ret 0.

Definition sys_ipc_try_send (envid value srcva perm : Z) : K Z :=
  let! r := envid2env envid false in
  let '(r, recvr) := r in
  if r <? 0 then ret r
  else
    let! recvr := the_env recvr in
    let! x := gets (fun s => env_at s recvr) in
    if negb (env_ipc_recving x) then ret (- E_IPC_NOT_RECV)
    else
      do! upd_env recvr (set_env_ipc_recving false) ;;
      with_curenv (fun c =>
        let! cid := gets (fun s => env_id (env_at s c)) in
        do! upd_env recvr (set_env_ipc_from cid) ;;
        do! upd_env recvr (set_env_ipc_perm 0) ;;
        let! dstva := gets (fun s => env_ipc_dstva (env_at s recvr)) in
        let! err :=
          (if (nz srcva && (srcva <? UTOP)) && (nz dstva && (dstva <? UTOP)) then
             if nz (PGOFF srcva) then ret (Some (- E_INVAL))
             else if perm_bad perm then ret (Some (- E_INVAL))
             else
               let! pml4e := gets (fun s => env_pml4e (env_at s c)) in
               let! m := page_lookup pml4e srcva in
               match m with
               | None => ret (Some (- E_INVAL))
               | Some (map, entry) =>
                   let! e := load64 entry in
                   if nz (Z.land perm PTE_W) && negb (nz (Z.land e PTE_W)) then ret (Some (- E_INVAL))
                   else
                     let! y := gets (fun s => env_at s recvr) in
                     let! r := page_insert (env_pml4e y) map (env_ipc_dstva y) perm in
                     if r <? 0 then ret (Some (- E_NO_MEM))
                     else
                       do! upd_env recvr (set_env_ipc_perm perm) ;;
                       ret None
               end
           else ret None) in
        match err with
        | Some e => ret e
        | None =>
            do! upd_env recvr (set_env_ipc_value value) ;;
            do! upd_env recvr (set_env_status ENV_RUNNABLE) ;;
            ret 0
        end).

Definition sys_ipc_recv (dstva : Z) : K Z :=
  with_curenv (fun c =>
    do! upd_env c (set_env_ipc_recving true) ;;
    if (dstva <? UTOP) && nz (PGOFF dstva) then ret (- E_INVAL)
    else
      do! upd_env c (set_env_ipc_dstva dstva) ;;
      do! upd_env c (set_env_status ENV_NOT_RUNNABLE) ;;
      do! upd_env c (fun x => set_env_tf (set_tf_regs (set_reg_rax 0 (tf_regs (env_tf x))) (env_tf x)) x) ;;
      do! sched_yield ;;
      ret 0).

Definition sys_time_msec : K Z := panic "sys_time_msec not implemented".

Definition sys_ept_map (srcenvid srcva guest guest_pa perm : Z) : K Z :=
  let! r := envid2env srcenvid true in
  let '(r, srcenv) := r in
  if r <? 0 then ret r
  else
    let! r := envid2env guest true in
    let '(r, guestenv) := r in
    if r <? 0 then ret r
    else
      let! guestenv := the_env guestenv in
      let! g := gets (fun s => env_at s guestenv) in
      if (UTOP <=? srcva) || nz (PGOFF srcva) || nz (PGOFF guest_pa) || (phys_sz (env_vmxinfo g) <=? guest_pa) then
        ret (- E_INVAL)
      else
        let! srcenv := the_env srcenv in
        let! pml4e := gets (fun s => env_pml4e (env_at s srcenv)) in
        let! m := page_lookup pml4e srcva in
        match m with
        | None => ret (- E_INVAL)
        | Some (map, pte) =>
            let! e := load64 pte in
            if negb (nz perm) || (nz (Z.land perm EPTE_WRITE) && negb (nz (Z.land e PTE_W))) then ret (- E_INVAL)
            else
              let! host_ident := page2kva map in
              let! r := ept_map_hva2gpa (env_pml4e g) host_ident guest_pa perm true in
              if r <? 0 then ret r
              else
                do! upd_page map (fun p => set_pp_ref (u16 (pp_ref p + 1)) p) ;;
                ret 0
        end.

Definition sys_env_mkguest (gphysz gRIP : Z) : K Z :=
  with_curenv (fun c =>
    let! cid := gets (fun s => env_id (env_at s c)) in
    let! r := env_guest_alloc cid in
    let '(r, e) := r in
    if r <? 0 then ret r
    else
      let! e := the_env e in
      do! upd_env e (set_env_status ENV_NOT_RUNNABLE) ;;
      do! upd_env e (fun x => set_env_vmxinfo (set_phys_sz gphysz (env_vmxinfo x)) x) ;;
      do! upd_env e (fun x => set_env_tf (set_tf_rip gRIP (env_tf x)) x) ;;
      gets (fun s => env_id (env_at s e))).

(** The arguments are 64-bit registers, converted to the parameter types. *)
Definition syscall (syscallno a1 a2 a3 a4 a5 : Z) : K Z :=
  if syscallno =? SYS_ept_map then sys_ept_map (s32 a1) a2 (s32 a3) a4 (s32 a5)
  else if syscallno =? SYS_env_mkguest then sys_env_mkguest a1 a2
  else if syscallno =? SYS_cputs then do! sys_cputs a1 a2 ;; ret 0
  else if syscallno =? SYS_cgetc then sys_cgetc
  else if syscallno =? SYS_getenvid then sys_getenvid
  else if syscallno =? SYS_env_destroy then sys_env_destroy (s32 a1)
  else if syscallno =? SYS_yield then do! sys_yield ;; sys_exofork
  else if syscallno =? SYS_exofork then sys_exofork
  else if syscallno =? SYS_env_set_status then sys_env_set_status (s32 a1) (s32 a2)
  else if syscallno =? SYS_page_alloc then sys_page_alloc (s32 a1) a2 (s32 a3)
  else if syscallno =? SYS_page_map then sys_page_map (s32 a1) a2 (s32 a3) a4 (s32 a5)
  else if syscallno =? SYS_page_unmap then sys_page_unmap (s32 a1) a2
  else if syscallno =? SYS_env_set_pgfault_upcall then sys_env_set_pgfault_upcall (s32 a1) a2
  else if syscallno =? SYS_ipc_try_send then sys_ipc_try_send (s32 a1) (u32 a2) a3 (u32 a4)
  else if syscallno =? SYS_ipc_recv then sys_ipc_recv a1
  else if syscallno =? SYS_env_set_trapframe then sys_env_set_trapframe (s32 a1) a2
  else ret (- E_INVAL).
End Syscalls.
