(* ===== verification/SyscallProps.v ===== *)
(** Properties of the system calls of kern/syscall.c. *)

From S2P Require Import Prelude Kernel PageAlloc PageTable PageTableInv PageTableSpec PageTableProps.
From S2P Require Import Mmu Ept Vmx Env EnvProps SchedProps Syscall.

(** ** Who may act on whom *)

(** The environment an identifier names, if the caller may act on it. *)
Definition may_act (s : kstate) (envid e : Z) : Prop :=
  (envid = 0 /\ curenv s = Some e) \/
  (envid <> 0 /\ e = ENVX envid /\ env_status (env_at s e) <> ENV_FREE /\ env_id (env_at s e) = envid /\
   (curenv s = Some e \/ exists c, curenv s = Some c /\ env_parent_id (env_at s e) = env_id (env_at s c))).

Lemma envid2env_granted s envid e :
  may_act s envid e -> envid2env envid true s = Ret (0, Some e) s.
Proof.
  unfold envid2env. msteps. intros [[-> Hc]|(Hne & He & Hst & Hid & Hp)].
  - by rewrite Hc.
  - rewrite <- He. destruct (Z.eqb_spec envid 0); [done|]. msteps.
    destruct (Z.eqb_spec (env_status (env_at s e)) ENV_FREE); [done|]. rewrite Hid, Z.eqb_refl. cbn [orb negb andb].
    case_bool_decide as Hcur; [done|]. cbn [negb]. destruct Hp as [Hp|(c & Hc & Hp)]; [done|].
    rewrite Hc. msteps. by rewrite Hp, Z.eqb_refl.
Qed.

Lemma envid2env_denied s envid c :
  curenv s = Some c -> (forall e, ~ may_act s envid e) -> envid2env envid true s = Ret (- E_BAD_ENV, None) s.
Proof.
  intros Hc Hno. unfold envid2env. msteps. destruct (Z.eqb_spec envid 0) as [->|Hne].
  { exfalso. apply (Hno c). by left. }
  msteps. set (e := ENVX envid).
  destruct (Z.eqb_spec (env_status (env_at s e)) ENV_FREE) as [|Hst]; [done|].
  destruct (Z.eqb_spec (env_id (env_at s e)) envid) as [Hid|]; [|done]. cbn [orb negb andb].
  case_bool_decide as Hcur; cbn [negb].
  { exfalso. apply (Hno e). right. by rewrite Hc in *; split_ands; auto. }
  rewrite Hc. msteps. destruct (Z.eqb_spec (env_parent_id (env_at s e)) (env_id (env_at s c))) as [Hp|]; [|done].
  exfalso. apply (Hno e). right. split_ands; try done. right. by exists c.
Qed.

Lemma envid2env_total s envid checkperm c :
  curenv s = Some c ->
  envid2env envid checkperm s = Ret (- E_BAD_ENV, None) s \/ exists e, envid2env envid checkperm s = Ret (0, Some e) s.
Proof.
  intros Hc. unfold envid2env. msteps. rewrite Hc. destruct (envid =? 0); [by right; eexists|]. msteps.
  destruct (_ || _); [by left|]. destruct (_ && _); [|by right; eexists]. msteps.
  destruct (negb _); [by left|by right; eexists].
Qed.

(** The arguments of call [n] that name an environment to act on: the source
    and the destination of [sys_page_map] and [sys_ept_map], the first argument
    of the others. [SYS_ipc_try_send] is not among them: anybody may send to an
    environment that waits for a message. *)
Definition env_args (n a1 a3 : Z) : list Z :=
  if (n =? SYS_page_map) || (n =? SYS_ept_map) then [s32 a1; s32 a3]
  else if (n =? SYS_env_destroy) || (n =? SYS_env_set_status) || (n =? SYS_page_alloc) || (n =? SYS_page_unmap) ||
          (n =? SYS_env_set_pgfault_upcall) || (n =? SYS_env_set_trapframe) then [s32 a1]
  else [].

Lemma env_args_cases n a1 a3 x : x ∈ env_args n a1 a3 ->
  ((n = SYS_page_map \/ n = SYS_ept_map) /\ (x = s32 a1 \/ x = s32 a3)) \/
  ((n = SYS_env_destroy \/ n = SYS_env_set_status \/ n = SYS_page_alloc \/ n = SYS_page_unmap \/
    n = SYS_env_set_pgfault_upcall \/ n = SYS_env_set_trapframe) /\ x = s32 a1).
Proof.
  unfold env_args. destruct ((n =? SYS_page_map) || _) eqn:E1; [|destruct (_ || (n =? SYS_env_set_trapframe)) eqn:E2; [|by intros ?%elem_of_nil]].
  - apply orb_true_iff in E1. rewrite !Z.eqb_eq in E1. rewrite !elem_of_cons, elem_of_nil. tauto.
  - rewrite !orb_true_iff, !Z.eqb_eq in E2. rewrite list_elem_of_singleton. tauto.
Qed.

(** C27: no environment acts on one that is neither itself nor its child. When
    an argument of a system call that names an environment to act on (the
    first argument of sys_env_destroy, sys_env_set_status, sys_page_alloc,
    sys_page_unmap, sys_env_set_pgfault_upcall and sys_env_set_trapframe, the
    source or the destination of sys_page_map and sys_ept_map) names no
    environment the caller may act on, the call answers -E_BAD_ENV (or -E_INVAL
    for a bad status) and changes nothing. sys_ipc_try_send is excluded: it
    checks that the receiver waits, not who it is. *)
Theorem syscall_authority `{!VmxHw} s c n a1 a2 a3 a4 a5 x :
  curenv s = Some c -> x ∈ env_args n a1 a3 -> (forall e, ~ may_act s x e) ->
  exists r, syscall n a1 a2 a3 a4 a5 s = Ret r s /\ (r = - E_BAD_ENV \/ (n = SYS_env_set_status /\ r = - E_INVAL)).
Proof.
  intros Hc Hx Hno. pose proof (envid2env_denied s x c Hc Hno) as Hden.
  apply env_args_cases in Hx as [[Hn Hx]|[Hn ->]].
  - destruct (envid2env_total s (s32 a1) true c Hc) as [H1|[e1 H1]], (envid2env_total s (s32 a3) true c Hc) as [H2|[e2 H2]];
      (destruct Hn as [-> | ->];
       [change (exists r, sys_page_map (s32 a1) a2 (s32 a3) a4 (s32 a5) s = Ret r s /\ (r = - E_BAD_ENV \/ (SYS_page_map = SYS_env_set_status /\ r = - E_INVAL)));
        unfold sys_page_map
       |change (exists r, sys_ept_map (s32 a1) a2 (s32 a3) a4 (s32 a5) s = Ret r s /\ (r = - E_BAD_ENV \/ (SYS_ept_map = SYS_env_set_status /\ r = - E_INVAL)));
        unfold sys_ept_map]);
      rewrite (bind_Ret _ _ _ _ _ H1); cbv beta iota; try change (0 <? 0) with false; cbv iota;
      try rewrite (bind_Ret _ _ _ _ _ H2); try (eexists; split; [done|by left]);
      destruct Hx as [-> | ->]; congruence.
  - destruct Hn as [->|[->|[->|[->|[->| ->]]]]]; unfold syscall; cbn [Z.eqb];
      repeat match goal with |- context [?a =? ?b] => change (a =? b) with false || change (a =? b) with true end; cbv iota;
      unfold sys_env_destroy, sys_env_set_status, sys_page_alloc, sys_page_unmap, sys_env_set_pgfault_upcall, sys_env_set_trapframe;
      try (destruct (_ && _); [eexists; split; [done|by right]|]);
      rewrite (bind_Ret _ _ _ _ _ Hden); (eexists; split; [done|by left]).
Qed.

(** The destination of a [sys_page_map] is a stranger. *)
Lemma syscall_authority_witness :
  exists r, @syscall no_vmx SYS_page_map 0 0x1000 0x1005 0x1000 5 two_envs = Ret r two_envs /\
    (r = - E_BAD_ENV \/ (SYS_page_map = SYS_env_set_status /\ r = - E_INVAL)).
Proof.
  apply (@syscall_authority no_vmx two_envs 1 SYS_page_map 0 0x1000 0x1005 0x1000 5 0x1005); [reflexivity| |].
  - apply (bool_decide_unpack _). by vm_compute.
  - intros e [[H _]|(_ & -> & H & _)]; [done|]. by vm_compute in H.
Defined.

(** ** Memory *)

(** The permission bits a call accepts. *)
Lemma perm_bad_false perm :
  perm_bad perm = false -> 0 <= perm < PGSIZE /\ Z.lor perm PTE_P = perm /\ Z.land perm (Z.lor PTE_U PTE_P) = Z.lor PTE_U PTE_P.
Proof.
  unfold perm_bad. rewrite orb_false_iff, negb_false_iff, Z.eqb_eq, nz_false. intros [H1 H2].
  assert (forall n, 0 <= n -> Z.testbit perm n = true -> Z.testbit PTE_SYSCALL n = true) as Hsub.
  { intros n Hn Hb. assert (Z.testbit (Z.land perm (Z.lnot PTE_SYSCALL)) n = false) as H by (by rewrite H2, Z.bits_0).
    rewrite Z.land_spec, Z.lnot_spec, Hb in H by done. by destruct (Z.testbit PTE_SYSCALL n). }
  assert (perm = Z.land perm PTE_SYSCALL) as Heq.
  { apply Z.bits_inj'. intros n Hn. rewrite Z.land_spec. destruct (Z.testbit perm n) eqn:E; [|done]. by rewrite (Hsub n Hn E). }
  split_ands.
  - rewrite Heq, Z.land_comm. pose proof (land_range_l PTE_SYSCALL perm 12 ltac:(done) ltac:(done)). lia.
  - rewrite Heq, Z.land_comm. pose proof (land_range_l PTE_SYSCALL perm 12 ltac:(done) ltac:(done)).
    change (2 ^ 12) with PGSIZE in *. lia.
  - apply Z.bits_inj'. intros n Hn. rewrite Z.lor_spec. destruct (Z.testbit PTE_P n) eqn:E; [|by rewrite orb_false_r].
    rewrite orb_true_r. assert (Z.testbit (Z.land perm (Z.lor PTE_U PTE_P)) n = true) as Hb.
    { rewrite H1, Z.lor_spec, E. by rewrite orb_true_r. }
    rewrite Z.land_spec in Hb. by destruct (Z.testbit perm n).
  - done.
Qed.

Lemma user_va va : 0 <= va < 2 ^ 39 -> va mod PGSIZE = 0 ->
  PML4 va = 0 /\ (UTOP <=? va) || nz (PGOFF va) = false.
Proof.
  intros H1 H2. split; [rewrite PML4_eq; by rewrite Z.div_small|].
  rewrite PGOFF_eq, H2. destruct (Z.leb_spec UTOP va) as [H|]; [|done]. change UTOP with 0x8000800000 in H. lia.
Qed.

(** The effects of [sys_page_alloc]. *)
Lemma sys_page_alloc_run k own l s envid e r va perm :
  pt_inv k own l s -> may_act s envid e -> env_pml4e (env_at s e) = kva r 0 -> own !! r = Some (r, []) ->
  0 ∉ l -> 0 <= va < 2 ^ 39 -> va mod PGSIZE = 0 -> perm_bad perm = false ->
  (exists p l1 s' own' l', l = p :: l1 /\ sys_page_alloc envid va perm s = Ret 0 s' /\
     inserted k own own' l l' s s' r va (p * PGSIZE + perm) /\ (length l <= length l' + 4)%nat /\
     p ∉ l' /\ own' !! p = None /\ (forall i, entry s' p i = 0) /\ ref_of s' p = 1) \/
  (exists s', sys_page_alloc envid va perm s = Ret (- E_NO_MEM) s' /\ pt_inv k own l s' /\ (length l < 4)%nat /\
     (forall r' va', own !! r' = Some (r', []) -> priv k r' (PML4 va') -> pte_of s' r' va' = pte_of s r' va')).
Proof.
  intros I Hact Hpml Hr H0 Hva Hal Hperm. destruct (user_va va Hva Hal) as [Hva0 Hchk].
  destruct (perm_bad_false perm Hperm) as (Hpr & Hpp & _).
  unfold sys_page_alloc. rewrite (bind_Ret _ _ _ _ _ (envid2env_granted s envid e Hact)). cbv iota beta.
  change (0 <? 0) with false. cbv iota. msteps.
  rewrite (bind_Ret _ _ s e s) by done. destruct l as [|p l].
  { rewrite (bind_Ret _ _ _ _ _ (page_alloc_empty 0 s (pi_fl _ _ _ _ I))). right. exists s.
    split; [done|]. split; [done|]. split; [cbn; lia|done]. }
  rewrite (bind_Ret _ _ _ _ _ (page_alloc_pop 0 s p l (pi_np _ _ _ _ I) (pi_fl _ _ _ _ I))). cbv iota.
  rewrite Hchk, Hperm. cbv iota. msteps. set (s1 := popped 0 p (head l) s).
  change (env_pml4e (env_at s1 e)) with (env_pml4e (env_at s e)). rewrite Hpml.
  destruct (popped_inv k own l p s I) as [I1 Hst]. fold s1 in I1, Hst.
  pose proof (inv_free_range _ _ _ _ I p ltac:(constructor)) as Hprange.
  pose proof (inv_free_not_owned _ _ _ _ I p ltac:(constructor)) as Hpown.
  pose proof (fl_nodup _ _ (pi_fl _ _ _ _ I)) as Hnd. apply NoDup_cons in Hnd as [Hpl _].
  apply not_elem_of_cons in H0 as [Hp0 _].
  assert (forall q, p <> q -> page_at s1 q = page_at s q) as Hpg.
  { intros q Hq. unfold s1. by rewrite popped_page_at, decide_False. }
  assert (ref_of s1 p = 0) as Hr1.
  { unfold ref_of, s1. rewrite popped_page_at, decide_True by done.
    exact (inv_free_ref _ _ _ _ I p ltac:(constructor)). }
  assert (forall q i, entry s1 q i = if decide (p = q) then 0 else entry s q i) as He1.
  { intros q i. unfold s1. rewrite popped_entry. case_decide; [by rewrite bool_decide_eq_true_2|].
    by rewrite bool_decide_eq_false_2, andb_false_r. }
  assert (forall r' va', own !! r' = Some (r', []) -> priv k r' (PML4 va') -> pte_of s1 r' va' = pte_of s r' va') as Hsame.
  { intros r' va' Hr' Hp'. exact (same_tables_pte k own (p :: l) s s1 r' va' I Hst Hr' Hp'). }
  assert (0 < p < npages s1) as Hprange1 by (change (npages s1) with (npages s); lia).
  destruct (page_insert_run k own l s1 r va p perm I1 Hr Hva0 Hprange1 Hpown Hpl ltac:(lia) Hpr)
    as [(s2 & Hrun & I2 & Hst2 & Hf & Hlen)|(s2 & own2 & l2 & Hrun & Hin & Hlen)]; mrun Hrun.
  - right. change (- E_NO_MEM <? 0) with true. cbv iota.
    assert (page_at s2 p = page_at s1 p) as Hps2 by (by apply (wf_page _ _ _ _ _ Hf)).
    assert (link_of s1 p = None) as Hl1 by (by apply (pi_link _ _ _ _ I1)).
    rewrite (bind_Ret _ _ _ _ _ (page_free_push s2 p ltac:(unfold link_of; by rewrite Hps2) ltac:(unfold ref_of; by rewrite Hps2))).
    eexists. split; [done|]. split_ands; [|cbn in *; lia|].
    + apply pushed_inv; [done| |unfold ref_of; by rewrite Hps2|done].
      rewrite (mm_only_npages _ _ (wf_mm _ _ _ _ _ Hf)). change (npages s1) with (npages s). lia.
    + intros r' va' Hr' Hp'. change (pte_of (pushed p s2) r' va') with (pte_of s2 r' va').
      rewrite (same_tables_pte k own l s1 s2 r' va' I1 Hst2 Hr' Hp'). by apply Hsame.
  - left. change (0 <? 0) with false. cbv iota. exists p, l, s2, own2, l2. destruct Hin as [J1 J2 J3 J4 J5 J6 J7 J8 J9 J10].
    assert (mk_pte p perm = p * PGSIZE + perm) as Hv by (unfold mk_pte; by rewrite Hpp).
    assert (PPN (mk_pte p perm) = p) as HvP by (by apply mk_pte_PPN).
    assert (pte_of s1 r va = pte_of s r va) as Hold by (by apply Hsame; [|left]).
    rewrite Hv, Hold in *. split; [done|]. split; [done|].
    split; [|split_ands; [cbn; lia| |by rewrite J4| |]].
    + split; [|exact J2|exact J3| | | | | | |].
      * eapply (mm_only_trans _ s1); [|exact J1]. unfold mm_only. by destruct s.
      * intros q Hq. apply J4. by apply not_elem_of_cons in Hq as [_ ?].
      * intros q Hq. destruct (J5 q Hq) as [?|?]; [left; by constructor|by right].
      * intros r' va' Hr' Hp'. rewrite J6, Hsame by done. done.
      * intros q [Hqp Hql]%not_elem_of_cons. rewrite J7 by done. unfold ref_of. by rewrite Hpg by congruence.
      * intros q i [Hqp Hql]%not_elem_of_cons Ho. rewrite J8, He1, decide_False by congruence. done.
      * intros q i r' path Ho Hl3 Hne. assert (p <> q) by congruence.
        rewrite (J9 q i r' path Ho Hl3); rewrite He1, decide_False by done; done.
      * intros q x Hx. destruct (J10 q x Hx) as [(H1 & (r' & a & b & H2) & H3)|?]; [left|by right].
        rewrite He1, decide_False in H3 by congruence. split; [done|]. split; [by exists r', a, b|done].
    + intros Hin. destruct (J5 p Hin) as [?|(_ & _ & Hne)]; [done|]. by rewrite HvP in Hne.
    + intros i. rewrite J8 by (done || intros path; congruence). by rewrite He1, decide_True.
    + rewrite J7, Hr1 by done. unfold cnt. rewrite HvP. rewrite decide_True by (rewrite <- Hv; split; [apply mk_pte_nz; lia|done]).
      rewrite decide_False; [done|]. intros [Hne Heq]. rewrite <- Hold in Hne, Heq.
      destruct (user_pte_range k own l s1 r va I1 Hr Hva0 Hne) as (_ & _ & Href & _). rewrite Heq in Href. lia.
Qed.

(** [sys_page_alloc] with valid arguments maps a zeroed page that was free
    at [va] in the environment's address space with exactly the permissions
    asked for, and changes no other slot of any address space; when memory
    runs out it answers -E_NO_MEM, every slot reads as before and every page
    it took is free again. *)
Lemma sys_page_alloc_spec k own l s envid e r va perm :
  pt_inv k own l s -> may_act s envid e -> env_pml4e (env_at s e) = kva r 0 -> own !! r = Some (r, []) ->
  0 ∉ l -> 0 <= va < 2 ^ 39 -> va mod PGSIZE = 0 -> perm_bad perm = false ->
  (exists p l1 s' own' l', l = p :: l1 /\ sys_page_alloc envid va perm s = Ret 0 s' /\ pt_inv k own' l' s' /\
     pte_of s' r va = p * PGSIZE + perm /\ (forall i, entry s' p i = 0) /\ ref_of s' p = 1 /\
     (forall r' va', own !! r' = Some (r', []) -> priv k r' (PML4 va') ->
        r' <> r \/ va_idx va' <> va_idx va -> pte_of s' r' va' = pte_of s r' va')) \/
  (exists s', sys_page_alloc envid va perm s = Ret (- E_NO_MEM) s' /\ pt_inv k own l s' /\ (length l < 4)%nat /\
     (forall r' va', own !! r' = Some (r', []) -> priv k r' (PML4 va') -> pte_of s' r' va' = pte_of s r' va')).
Proof.
  intros I Hact Hpml Hr H0 Hva Hal Hperm. destruct (user_va va Hva Hal) as [Hva0 _].
  destruct (sys_page_alloc_run k own l s envid e r va perm I Hact Hpml Hr H0 Hva Hal Hperm)
    as [(p & l1 & s' & own' & l' & Hl & Hrun & Hin & _ & _ & _ & Hz & Href)|?]; [left|by right].
  exists p, l1, s', own', l'. destruct Hin as [J1 J2 J3 J4 J5 J6 J7 J8 J9]. split_ands; try done.
  - rewrite (J6 r va Hr (or_introl Hva0)). by rewrite decide_True.
  - intros r' va' Hr' Hp' Hne. rewrite J6, decide_False by (done || intros [<- ?]; destruct Hne; congruence). done.
Qed.

(** The machines of the page-table examples with environment 0 current; its
    address space is the one at page 10. *)
Definition current (s : kstate) : kstate :=
  set_cr3 (10 * PGSIZE) (set_curenv (Some 0) (set_envs
    {[ 0 := set_env_pml4e (kva 10 0) (set_env_status ENV_RUNNING (set_env_id 4096 Env0));
       1 := set_env_id (4096 + 1) (set_env_status ENV_NOT_RUNNABLE Env0) ]} s)).

Lemma demo_current_inv : pt_inv 10 demo_own demo_free (current demo).
Proof. by apply (pt_inv_same _ _ _ demo); [..|apply demo_inv]. Qed.

Lemma mapped_current_inv : pt_inv 10 mapped_own [7] (current demo_mapped).
Proof. by apply (pt_inv_same _ _ _ demo_mapped); [..|apply mapped_inv]. Qed.

Example sys_page_alloc_spec_example :
  (exists p l1 s' own' l', demo_free = p :: l1 /\ sys_page_alloc 0 0x5000 7 (current demo) = Ret 0 s' /\ pt_inv 10 own' l' s' /\
     pte_of s' 10 0x5000 = p * PGSIZE + 7 /\ (forall i, entry s' p i = 0) /\ ref_of s' p = 1 /\
     (forall r' va', demo_own !! r' = Some (r', []) -> priv 10 r' (PML4 va') ->
        r' <> 10 \/ va_idx va' <> va_idx 0x5000 -> pte_of s' r' va' = pte_of (current demo) r' va')) \/
  (exists s', sys_page_alloc 0 0x5000 7 (current demo) = Ret (- E_NO_MEM) s' /\ pt_inv 10 demo_own demo_free s' /\
     (length demo_free < 4)%nat /\
     (forall r' va', demo_own !! r' = Some (r', []) -> priv 10 r' (PML4 va') ->
        pte_of s' r' va' = pte_of (current demo) r' va')).
Proof.
  apply (sys_page_alloc_spec 10 demo_own demo_free (current demo) 0 0 10 0x5000 7 demo_current_inv);
    [by left|reflexivity|reflexivity| |done|reflexivity|reflexivity].
  apply (bool_decide_unpack _). by vm_compute.
Qed.

(** [sys_page_alloc] takes its page before it checks [va] and [perm]: a call
    refused with -E_INVAL leaves the page off the free list with no reference
    to it, so that a user can exhaust memory with refused calls. *)
Lemma sys_page_alloc_leaks s l p envid e va perm :
  npages_ok s -> free_list_ok s (p :: l) -> may_act s envid e ->
  UTOP <= va \/ va mod PGSIZE <> 0 \/ perm_bad perm = true ->
  exists s', sys_page_alloc envid va perm s = Ret (- E_INVAL) s' /\ free_list_ok s' l /\ ref_of s' p = 0 /\ p ∉ l.
Proof.
  intros Hn Hfl Hact Hbad. unfold sys_page_alloc.
  rewrite (bind_Ret _ _ _ _ _ (envid2env_granted s envid e Hact)). cbv iota beta.
  change (0 <? 0) with false. cbv iota. rewrite (bind_Ret _ _ s e s) by done.
  rewrite (bind_Ret _ _ _ _ _ (page_alloc_pop 0 s p l Hn Hfl)). cbv iota.
  assert ((if (UTOP <=? va) || nz (PGOFF va) then true else perm_bad perm) = true) as Hc.
  { rewrite PGOFF_eq. destruct (Z.leb_spec UTOP va); [done|]. cbn [orb].
    destruct (nz (va mod PGSIZE)) eqn:E; [done|]. apply nz_false in E. destruct Hbad as [?|[?|?]]; [lia|done|done]. }
  exists (popped 0 p (head l) s).
  assert (ref_of (popped 0 p (head l) s) p = 0) as Hr.
  { unfold ref_of. rewrite popped_page_at, decide_True by done. exact (proj2 (fl_pages _ _ Hfl p ltac:(constructor))). }
  pose proof (fl_nodup _ _ Hfl) as Hnd. apply NoDup_cons in Hnd as [Hpl _].
  destruct ((UTOP <=? va) || nz (PGOFF va)); [|rewrite Hc]; split_ands; try done; by apply popped_free_list.
Qed.

Lemma sys_page_alloc_leaks_witness :
  exists s', sys_page_alloc 0 0x5001 7 (current demo) = Ret (- E_INVAL) s' /\ free_list_ok s' [5; 6; 7] /\ ref_of s' 3 = 0 /\ 3 ∉ [5; 6; 7].
Proof.
  apply (sys_page_alloc_leaks (current demo) [5; 6; 7] 3 0 0 0x5001 7);
    [done|apply (pi_fl _ _ _ _ demo_current_inv)|by left|by right; left].
Defined.

(** [sys_page_map] of a mapped page, up to the insertion. *)
Section PageMap.
Context (k : Z) (own : owners) (l : list Z) (s : kstate) (srcid se sr srcva dstid de dr dstva perm : Z).
Context (I : pt_inv k own l s).
Context (Ha1 : may_act s srcid se) (Hp1 : env_pml4e (env_at s se) = kva sr 0) (Hr1 : own !! sr = Some (sr, [])).
Context (Ha2 : may_act s dstid de) (Hp2 : env_pml4e (env_at s de) = kva dr 0) (Hr2 : own !! dr = Some (dr, [])).
Context (Hsv : 0 <= srcva < 2 ^ 39) (Hsa : srcva mod PGSIZE = 0) (Hdv : 0 <= dstva < 2 ^ 39) (Hda : dstva mod PGSIZE = 0).
Context (Hperm : perm_bad perm = false) (Hne : pte_of s sr srcva <> 0).
Notation pp := (PPN (pte_of s sr srcva)).
Context (Hpp0 : pp <> 0) (Href : ref_of s pp < 2 ^ 16 - 1).

Lemma sys_page_map_insert :
  sys_page_map srcid srcva dstid dstva perm s =
  if nz (Z.land perm PTE_W) && negb (nz (Z.land (pte_of s sr srcva) PTE_W)) then Ret (- E_INVAL) s
  else bind (page_insert (kva dr 0) pp dstva perm) (fun r => if r <? 0 then ret (- E_NO_MEM) else ret 0) s.
Proof using All.
  destruct (user_va srcva Hsv Hsa) as [Hs0 Hsc]. destruct (user_va dstva Hdv Hda) as [Hd0 Hdc].
  apply orb_false_iff in Hsc as [Hsc1 Hsc2], Hdc as [Hdc1 Hdc2].
  destruct (user_pte_range _ _ _ _ _ _ I Hr1 Hs0 Hne) as (Hrange & Hpown & Href1 & u & Hu & He).
  unfold sys_page_map. rewrite (bind_Ret _ _ _ _ _ (envid2env_granted s srcid se Ha1)).
  rewrite (bind_Ret _ _ _ _ _ (envid2env_granted s dstid de Ha2)). cbv iota beta.
  change ((0 <? 0) || (0 <? 0)) with false. rewrite Hsc1, Hsc2, Hdc1, Hdc2. cbn [orb]. cbv iota.
  rewrite (bind_Ret _ _ s se s) by done. msteps. rewrite Hp1.
  assert (page_lookup (kva sr 0) srcva s = Ret (Some (pp, kva u (PTX srcva))) s) as HL.
  { rewrite (page_lookup_run _ _ _ _ _ _ I Hr1 (or_introl Hs0)); [|lia|done].
    rewrite (owned_descend _ _ _ _ _ _ _ I Hr1 Hu). cbn. by rewrite He. }
  mrun HL. rewrite Hperm. cbv iota. rewrite (bind_Ret _ _ _ _ _ (load64_kva u _ s (PTX_range srcva))), He.
  destruct (nz (Z.land perm PTE_W) && negb (nz (Z.land (pte_of s sr srcva) PTE_W))); [done|].
  rewrite (bind_Ret _ _ s de s) by done. msteps. by rewrite Hp2.
Qed.

Lemma sys_page_map_ready : 0 < pp < npages s /\ own !! pp = None /\ pp ∉ l /\ 0 <= perm < PGSIZE /\ PML4 dstva = 0 /\
  mk_pte pp perm = pp * PGSIZE + perm.
Proof using All.
  destruct (user_va srcva Hsv Hsa) as [Hs0 _]. destruct (user_va dstva Hdv Hda) as [Hd0 _].
  destruct (perm_bad_false perm Hperm) as (Hpr & Hpp & _).
  destruct (user_pte_range _ _ _ _ _ _ I Hr1 Hs0 Hne) as (Hrange & Hpown & Href1 & _).
  split; [lia|]. split; [done|]. split; [|split; [done|split; [done|unfold mk_pte; by rewrite Hpp]]].
  intros Hin. rewrite (inv_free_ref _ _ _ _ I) in Href1 by done. lia.
Qed.

Lemma sys_page_map_run :
  if nz (Z.land perm PTE_W) && negb (nz (Z.land (pte_of s sr srcva) PTE_W)) then
    sys_page_map srcid srcva dstid dstva perm s = Ret (- E_INVAL) s
  else
    (exists s' own' l', sys_page_map srcid srcva dstid dstva perm s = Ret 0 s' /\
       inserted k own own' l l' s s' dr dstva (pp * PGSIZE + perm) /\ (length l <= length l' + 3)%nat) \/
    (exists s', sys_page_map srcid srcva dstid dstva perm s = Ret (- E_NO_MEM) s' /\ (length l < 3)%nat /\
       pt_inv k own l s' /\ same_tables own s s').
Proof using All.
  destruct sys_page_map_ready as (Hrange & Hpown & Hpl & Hpr & Hd0 & Hmk). rewrite sys_page_map_insert.
  destruct (nz (Z.land perm PTE_W) && negb (nz (Z.land (pte_of s sr srcva) PTE_W))); [done|].
  destruct (page_insert_run k own l s dr dstva pp perm I Hr2 Hd0 Hrange Hpown Hpl Href Hpr)
    as [(s2 & Hrun & I2 & Hst2 & Hf & Hlen)|(s2 & own2 & l2 & Hrun & Hin)]; mrun Hrun.
  - right. exists s2. by split_ands.
  - left. exists s2, own2, l2. by rewrite Hmk in Hin.
Qed.

(** Into a page table that exists. *)
Lemma sys_page_map_present u :
  own !! u = Some (dr, va_path dstva) ->
  nz (Z.land perm PTE_W) && negb (nz (Z.land (pte_of s sr srcva) PTE_W)) = false ->
  exists s' l', sys_page_map srcid srcva dstid dstva perm s = Ret 0 s' /\
    inserted k own own l l' s s' dr dstva (pp * PGSIZE + perm) /\ (length l <= length l')%nat /\
    (forall q i, q <> u -> entry s' q i = entry s q i).
Proof using All.
  intros Hu Hw. destruct sys_page_map_ready as (Hrange & Hpown & Hpl & Hpr & Hd0 & Hmk).
  rewrite sys_page_map_insert, Hw.
  destruct (page_insert_present k own l s dr u dstva pp perm I Hr2 Hd0 Hu Hrange Hpown Hpl Href Hpr) as (s2 & l2 & Hrun & Hin).
  mrun Hrun. exists s2, l2. by rewrite Hmk in Hin.
Qed.
End PageMap.

(** C36: [sys_page_map] by a caller that may act on both environments, for page
    aligned addresses below 2^39, permissions the call accepts and a source
    address that maps a page other than physical page 0 whose references do not
    overflow: write access the source does not have is refused with -E_INVAL
    and nothing changes. Otherwise the destination gets exactly the page the
    source maps, with the permissions asked for, and no other private slot of any
    address space changes, or, only with less than three free pages, the call
    answers -E_NO_MEM and every private slot reads as before. *)
Theorem sys_page_map_spec k own l s srcid se sr srcva dstid de dr dstva perm :
  pt_inv k own l s ->
  may_act s srcid se -> env_pml4e (env_at s se) = kva sr 0 -> own !! sr = Some (sr, []) ->
  may_act s dstid de -> env_pml4e (env_at s de) = kva dr 0 -> own !! dr = Some (dr, []) ->
  0 <= srcva < 2 ^ 39 -> srcva mod PGSIZE = 0 -> 0 <= dstva < 2 ^ 39 -> dstva mod PGSIZE = 0 ->
  perm_bad perm = false -> pte_of s sr srcva <> 0 ->
  let pp := PPN (pte_of s sr srcva) in
  pp <> 0 -> ref_of s pp < 2 ^ 16 - 1 ->
  if nz (Z.land perm PTE_W) && negb (nz (Z.land (pte_of s sr srcva) PTE_W)) then
    sys_page_map srcid srcva dstid dstva perm s = Ret (- E_INVAL) s
  else
    exists s' own' l',
      ((sys_page_map srcid srcva dstid dstva perm s = Ret 0 s' /\ pte_of s' dr dstva = pp * PGSIZE + perm /\
        (forall r' va', own !! r' = Some (r', []) -> priv k r' (PML4 va') ->
           r' <> dr \/ va_idx va' <> va_idx dstva -> pte_of s' r' va' = pte_of s r' va')) \/
       (sys_page_map srcid srcva dstid dstva perm s = Ret (- E_NO_MEM) s' /\ (length l < 3)%nat /\
        (forall r' va', own !! r' = Some (r', []) -> priv k r' (PML4 va') -> pte_of s' r' va' = pte_of s r' va'))) /\
      pt_inv k own' l' s'.
Proof.
  intros I Ha1 Hp1 Hr1 Ha2 Hp2 Hr2 Hsv Hsa Hdv Hda Hperm Hne pp Hpp0 Href.
  destruct (user_va dstva Hdv Hda) as [Hd0 _].
  pose proof (sys_page_map_run k own l s srcid se sr srcva dstid de dr dstva perm I Ha1 Hp1 Hr1 Ha2 Hp2 Hr2
    Hsv Hsa Hdv Hda Hperm Hne Hpp0 Href) as H. fold pp in H.
  destruct (nz (Z.land perm PTE_W) && negb (nz (Z.land (pte_of s sr srcva) PTE_W))); [done|].
  destruct H as [(s2 & own2 & l2 & Hrun & Hin & _)|(s2 & Hrun & Hlen & I2 & Hst2)].
  - exists s2, own2, l2. destruct Hin as [J1 J2 J3 J4 J5 J6 J7 J8 J9]. split; [|done]. left. split_ands; try done.
    + rewrite (J6 dr dstva Hr2 (or_introl Hd0)). by rewrite decide_True.
    + intros r' va' Hr' Hp' Hne'. rewrite J6, decide_False by (done || intros [<- ?]; destruct Hne'; congruence). done.
  - exists s2, own, l. split; [|done]. right. split_ands; try done. intros r' va' Hr' Hp'.
    exact (same_tables_pte k own l s s2 r' va' I Hst2 Hr' Hp').
Qed.

Lemma sys_page_map_spec_witness :
  if nz (Z.land 7 PTE_W) && negb (nz (Z.land (pte_of (current demo_mapped) 10 0) PTE_W)) then
    sys_page_map 0 0 0 0x3000 7 (current demo_mapped) = Ret (- E_INVAL) (current demo_mapped)
  else
    exists s' own' l',
      ((sys_page_map 0 0 0 0x3000 7 (current demo_mapped) = Ret 0 s' /\
        pte_of s' 10 0x3000 = PPN (pte_of (current demo_mapped) 10 0) * PGSIZE + 7 /\
        (forall r' va', mapped_own !! r' = Some (r', []) -> priv 10 r' (PML4 va') ->
           r' <> 10 \/ va_idx va' <> va_idx 0x3000 -> pte_of s' r' va' = pte_of (current demo_mapped) r' va')) \/
       (sys_page_map 0 0 0 0x3000 7 (current demo_mapped) = Ret (- E_NO_MEM) s' /\ (length [7] < 3)%nat /\
        (forall r' va', mapped_own !! r' = Some (r', []) -> priv 10 r' (PML4 va') ->
           pte_of s' r' va' = pte_of (current demo_mapped) r' va'))) /\
      pt_inv 10 own' l' s'.
Proof.
  apply (sys_page_map_spec 10 mapped_own [7] (current demo_mapped) 0 0 10 0 0 0 10 0x3000 7 mapped_current_inv);
    try reflexivity; try done; by left.
Defined.

(** The effects of [sys_page_unmap] of a mapped page. *)
Lemma sys_page_unmap_run k own l s envid e r va :
  pt_inv k own l s -> may_act s envid e -> env_pml4e (env_at s e) = kva r 0 -> own !! r = Some (r, []) ->
  0 <= va < 2 ^ 39 -> va mod PGSIZE = 0 -> pte_of s r va <> 0 ->
  exists s' l' u, sys_page_unmap envid va s = Ret 0 s' /\ mm_only s s' /\ pt_inv k own l' s' /\
    own !! u = Some (r, va_path va) /\
    l' = (if ref_of s (PPN (pte_of s r va)) =? 1 then PPN (pte_of s r va) :: l else l) /\
    (forall q i, q <> u -> entry s' q i = entry s q i) /\
    (forall q, ref_of s' q = ref_of s q - cnt (pte_of s r va) q) /\
    (forall r' va', own !! r' = Some (r', []) -> priv k r' (PML4 va') ->
       pte_of s' r' va' = if decide (r = r' /\ va_idx va = va_idx va') then 0 else pte_of s r' va') /\
    (forall q x, user_slot own s' q x -> user_slot own s q x).
Proof.
  intros I Hact Hpml Hr Hva Hal Hne. destruct (user_va va Hva Hal) as [Hva0 Hchk].
  destruct (user_pte_range _ _ _ _ _ _ I Hr Hva0 Hne) as (_ & _ & _ & u & Hu & He).
  unfold sys_page_unmap. rewrite (bind_Ret _ _ _ _ _ (envid2env_granted s envid e Hact)). cbv iota beta.
  change (0 <? 0) with false. rewrite Hchk. cbv iota. rewrite (bind_Ret _ _ s e s) by done. msteps. rewrite Hpml.
  rewrite <- He in Hne. destruct (page_remove_run k own l s r u va I Hr Hva0 Hu Hne) as (s' & l' & Hrun & Hs & Hl & _).
  mrun Hrun. exists s', l', u. rewrite He in Hl. destruct Hs as [L1 L2 L3 L4]. split_ands; try done.
  - intros q i Hq. rewrite L3, decide_False; [done|]. naive_solver.
  - intros q. rewrite L4, cnt_0, He. lia.
  - intros r' va' Hr' Hp'. by eapply (leaf_reads k own l s s' u (PTX va) 0 r va).
  - intros q x Hx. by destruct (leaf_user_slot _ _ _ _ _ _ _ _ L3 Hx) as [?|[? _]].
Qed.

(** ** Interprocess communication *)

(** [e] is blocked in [sys_ipc_recv] under identifier [envid]. *)
Definition receiving (s : kstate) (envid e : Z) : Prop :=
  envid <> 0 /\ e = ENVX envid /\ env_status (env_at s e) <> ENV_FREE /\ env_id (env_at s e) = envid /\
  env_ipc_recving (env_at s e) = true.

Lemma envid2env_any s envid e :
  envid <> 0 -> e = ENVX envid -> env_status (env_at s e) <> ENV_FREE -> env_id (env_at s e) = envid ->
  envid2env envid false s = Ret (0, Some e) s.
Proof.
  intros Hne -> Hst Hid. unfold envid2env. msteps. destruct (Z.eqb_spec envid 0); [done|]. msteps.
  destruct (Z.eqb_spec (env_status (env_at s (ENVX envid))) ENV_FREE); [done|]. by rewrite Hid, Z.eqb_refl.
Qed.

(** What a send has done to the receiver before it looks at the page. *)
Definition claimed (c e : Z) (s : kstate) : Env :=
  set_env_ipc_perm 0 (set_env_ipc_from (env_id (env_at s c)) (set_env_ipc_recving false (env_at s e))).

(** The three updates of the receiver. *)
Definition upd3 (e : Z) (x y z : Env) (s : kstate) : kstate :=
  set_envs (<[e := z]> (<[e := y]> (<[e := x]> (envs s)))) s.

Lemma upd3_at e x y z s e' : env_at (upd3 e x y z s) e' = if decide (e = e') then z else env_at s e'.
Proof.
  unfold upd3, env_at. cbn. case_decide; [subst; by rewrite lookup_insert_eq|]. by rewrite !lookup_insert_ne.
Qed.

(** The beginning of [sys_ipc_try_send], up to the transfer of the page. *)
Lemma ipc_send_claim s c envid e value srcva perm :
  curenv s = Some c -> receiving s envid e ->
  exists x y, let s1 := upd3 e x y (claimed c e s) s in
  sys_ipc_try_send envid value srcva perm s =
  (let! err :=
     (if (nz srcva && (srcva <? UTOP)) && (nz (env_ipc_dstva (env_at s e)) && (env_ipc_dstva (env_at s e) <? UTOP)) then
        if nz (PGOFF srcva) then ret (Some (- E_INVAL))
        else if perm_bad perm then ret (Some (- E_INVAL))
        else
          let! pml4e := gets (fun s => env_pml4e (env_at s c)) in
          let! m := page_lookup pml4e srcva in
          match m with
          | None => ret (Some (- E_INVAL))
          | Some (map, entry) =>
              let! e0 := load64 entry in
              if nz (Z.land perm PTE_W) && negb (nz (Z.land e0 PTE_W)) then ret (Some (- E_INVAL))
              else
                let! y := gets (fun s => env_at s e) in
                let! r := page_insert (env_pml4e y) map (env_ipc_dstva y) perm in
                if r <? 0 then ret (Some (- E_NO_MEM))
                else do! upd_env e (set_env_ipc_perm perm) ;; ret None
          end
      else ret None) in
   match err with
   | Some e0 => ret e0
   | None =>
       do! upd_env e (set_env_ipc_value value) ;;
       do! upd_env e (set_env_status ENV_RUNNABLE) ;;
       ret 0
   end) s1.
Proof.
  intros Hc (Hne & He & Hst & Hid & Hrecv).
  exists (set_env_ipc_recving false (env_at s e)), (set_env_ipc_from (env_id (env_at s c)) (set_env_ipc_recving false (env_at s e))).
  cbv zeta. unfold sys_ipc_try_send. rewrite (bind_Ret _ _ _ _ _ (envid2env_any s envid e Hne He Hst Hid)). cbv iota beta.
  change (0 <? 0) with false. cbv iota. rewrite (bind_Ret _ _ s e s) by done. msteps. rewrite Hrecv. cbn [negb]. cbv iota.
  msteps. unfold with_curenv. msteps.
  set (s1 := set_envs _ s). change (curenv s1) with (curenv s). rewrite Hc. cbv iota. msteps.
  assert (env_at s1 e = set_env_ipc_recving false (env_at s e)) as E1 by (unfold s1; by rewrite env_at_upd, decide_True).
  assert (env_id (env_at s1 c) = env_id (env_at s c)) as ->.
  { unfold s1. rewrite env_at_upd. case_decide; by subst. }
  rewrite E1. set (s2 := set_envs _ s1).
  assert (env_at s2 e = set_env_ipc_from (env_id (env_at s c)) (set_env_ipc_recving false (env_at s e))) as E2
    by (unfold s2; by rewrite env_at_upd, decide_True).
  rewrite E2. set (s3 := set_envs _ s2).
  change (upd3 _ _ _ _ s) with s3.
  assert (env_at s3 e = claimed c e s) as E3 by (unfold s3; by rewrite env_at_upd, decide_True).
  rewrite E3. reflexivity.
Qed.

(** A send without a page delivers: the receiver gets the value, the
    identifier of the sender and permission 0, is no longer receiving and is
    runnable; nothing else changes. *)
Lemma ipc_send_value s c envid e value srcva perm :
  curenv s = Some c -> receiving s envid e ->
  srcva = 0 \/ UTOP <= srcva \/ env_ipc_dstva (env_at s e) = 0 \/ UTOP <= env_ipc_dstva (env_at s e) ->
  exists s', sys_ipc_try_send envid value srcva perm s = Ret 0 s' /\
    env_at s' e = set_env_status ENV_RUNNABLE (set_env_ipc_value value (set_env_ipc_perm 0
                    (set_env_ipc_from (env_id (env_at s c)) (set_env_ipc_recving false (env_at s e))))) /\
    (forall e', e' <> e -> env_at s' e' = env_at s e') /\ s' = set_envs (envs s') s.
Proof.
  intros Hc Hrecv Hno. destruct (ipc_send_claim s c envid e value srcva perm Hc Hrecv) as (x & y & ->).
  assert ((nz srcva && (srcva <? UTOP)) && (nz (env_ipc_dstva (env_at s e)) && (env_ipc_dstva (env_at s e) <? UTOP)) = false) as ->.
  { unfold nz. destruct Hno as [->|[H|[->|H]]]; [done| |by rewrite andb_false_r|].
    - destruct (Z.ltb_spec srcva UTOP); [lia|]. by rewrite andb_false_r.
    - destruct (Z.ltb_spec (env_ipc_dstva (env_at s e)) UTOP); [lia|]. by rewrite !andb_false_r. }
  msteps. set (s0 := upd3 e x y (claimed c e s) s).
  assert (env_at s0 e = claimed c e s) as E0 by (unfold s0; by rewrite upd3_at, decide_True).
  rewrite E0. set (s1 := set_envs _ s0).
  assert (env_at s1 e = set_env_ipc_value value (claimed c e s)) as E1 by (unfold s1; by rewrite env_at_upd, decide_True).
  rewrite E1. eexists. split; [done|]. split_ands.
  - by rewrite env_at_upd, decide_True.
  - intros e' He'. rewrite env_at_upd, decide_False by congruence. unfold s1.
    rewrite env_at_upd, decide_False by congruence. unfold s0. by rewrite upd3_at, decide_False by congruence.
  - by destruct s.
Qed.

(** C40: a send that fails after finding the receiver breaks it: a transfer that
    is refused (here for an unaligned [srcva]) has already cleared
    [env_ipc_recving] but leaves the receiver not runnable, and from then on
    every send to it is refused, so that it never runs again on a message. *)
Theorem ipc_failed_send_strands s c envid e value srcva perm :
  curenv s = Some c -> receiving s envid e -> env_status (env_at s e) = ENV_NOT_RUNNABLE ->
  0 < srcva < UTOP -> srcva mod PGSIZE <> 0 -> 0 < env_ipc_dstva (env_at s e) < UTOP ->
  exists s', sys_ipc_try_send envid value srcva perm s = Ret (- E_INVAL) s' /\
    env_status (env_at s' e) = ENV_NOT_RUNNABLE /\ env_ipc_recving (env_at s' e) = false /\
    forall value' srcva' perm', sys_ipc_try_send envid value' srcva' perm' s' = Ret (- E_IPC_NOT_RECV) s'.
Proof.
  intros Hc Hrecv Hst Hsv Hal Hdv. destruct (ipc_send_claim s c envid e value srcva perm Hc Hrecv) as (x & y & ->).
  assert ((nz srcva && (srcva <? UTOP)) && (nz (env_ipc_dstva (env_at s e)) && (env_ipc_dstva (env_at s e) <? UTOP)) = true) as ->.
  { rewrite !andb_true_iff, !nz_true, !Z.ltb_lt. lia. }
  rewrite PGOFF_eq. apply nz_true in Hal. rewrite Hal. msteps. eexists. split; [done|].
  set (s1 := upd3 e x y (claimed c e s) s).
  assert (env_at s1 e = claimed c e s) as E1 by (unfold s1; by rewrite upd3_at, decide_True).
  split_ands.
  - by rewrite E1.
  - by rewrite E1.
  - intros value' srcva' perm'. destruct Hrecv as (Hne & He & Hst' & Hid & _). unfold sys_ipc_try_send.
    rewrite (bind_Ret _ _ _ _ _ (envid2env_any s1 envid e Hne He ltac:(by rewrite E1) ltac:(by rewrite E1))). cbv iota beta.
    change (0 <? 0) with false. cbv iota. rewrite (bind_Ret _ _ s1 e s1) by done. msteps. by rewrite E1.
Qed.

(** Environment 1 waits for a page at 0x3000; environment 0 is current. *)
Definition ipc_machine (dstva : Z) : kstate :=
  set_curenv (Some 0) (set_envs
    {[ 0 := set_env_id 4096 (set_env_status ENV_RUNNING Env0);
       1 := set_env_id (4096 + 1) (set_env_status ENV_NOT_RUNNABLE (set_env_ipc_recving true (set_env_ipc_dstva dstva Env0))) ]}
    (machine 8 (KERNBASE + 0x8000))).

Lemma ipc_send_value_witness :
  let s := ipc_machine UTOP in
  exists s', sys_ipc_try_send 4097 99 0 0 s = Ret 0 s' /\
    env_at s' 1 = set_env_status ENV_RUNNABLE (set_env_ipc_value 99 (set_env_ipc_perm 0
                    (set_env_ipc_from (env_id (env_at s 0)) (set_env_ipc_recving false (env_at s 1))))) /\
    (forall e', e' <> 1 -> env_at s' e' = env_at s e') /\ s' = set_envs (envs s') s.
Proof. apply (ipc_send_value (ipc_machine UTOP) 0 4097 1 99 0 0); [reflexivity|by vm_compute|by left]. Defined.

Lemma ipc_failed_send_strands_witness :
  exists s', sys_ipc_try_send 4097 99 0x1001 7 (ipc_machine 0x3000) = Ret (- E_INVAL) s' /\
    env_status (env_at s' 1) = ENV_NOT_RUNNABLE /\ env_ipc_recving (env_at s' 1) = false /\
    forall value' srcva' perm', sys_ipc_try_send 4097 value' srcva' perm' s' = Ret (- E_IPC_NOT_RECV) s'.
Proof.
  apply (ipc_failed_send_strands (ipc_machine 0x3000) 0 4097 1 99 0x1001 7);
    [reflexivity|by vm_compute|reflexivity|done|done|done].
Defined.

(** ** Creating environments *)

(** The effects of [sys_exofork]. *)
Lemma sys_exofork_run k own l p s c e :
  pt_inv k own (p :: l) s -> own !! k = Some (k, []) -> boot_pml4e s = kva k 0 ->
  curenv s = Some c -> env_free_list s = Some e -> c <> e ->
  exists s', sys_exofork s = Ret (env_id (env_at s' e)) s' /\
    env_id (env_at s' e) = next_env_id (env_id (env_at s e)) e /\
    env_status (env_at s' e) = ENV_NOT_RUNNABLE /\ env_parent_id (env_at s' e) = env_id (env_at s c) /\
    env_tf (env_at s' e) = set_tf_regs (set_reg_rax 0 (tf_regs (env_tf (env_at s c)))) (env_tf (env_at s c)) /\
    env_pml4e (env_at s' e) = kva p 0 /\ (forall va, PML4 va = 0 -> pte_of s' p va = 0) /\
    pt_inv k (<[p := (p, [])]> own) l s' /\
    (forall e', e' <> e -> env_at s' e' = env_at s e') /\
    (forall r va, own !! r = Some (r, []) -> priv k r (PML4 va) -> pte_of s' r va = pte_of s r va) /\
    curenv s' = curenv s /\ cr3 s' = cr3 s /\ npages s' = npages s /\ entry s' p (PML4 UVPT) = p * PGSIZE + Z.lor PTE_P PTE_U /\
    (forall q, page_at s' q = if decide (p = q) then mkPageInfo None 1 else page_at s q) /\
    (forall q i, p <> q -> entry s' q i = entry s q i).
Proof.
  intros I Hk Hboot Hc Hfl Hce. unfold sys_exofork, with_curenv. msteps. rewrite Hc. cbv iota. msteps.
  destruct (env_alloc_ok k own l p s e (env_id (env_at s c)) I Hk Hboot Hfl) as (s1 & Hrun & Heq & I1 & He & Ho & Hem & Hent & Hpte & Hpg & Hes).
  mrun Hrun. change (0 <? 0) with false. cbv iota. rewrite (bind_Ret _ _ s1 e s1) by done. msteps.
  set (s2 := set_envs _ s1).
  assert (env_at s2 e = set_env_status ENV_NOT_RUNNABLE (env_at s1 e)) as E2 by (unfold s2; by rewrite env_at_upd, decide_True).
  assert (env_at s2 c = env_at s c) as E2c by (unfold s2; rewrite env_at_upd, decide_False by congruence; by apply Ho).
  rewrite E2, E2c. set (s3 := set_envs _ s2).
  assert (env_at s3 e = set_env_tf (env_tf (env_at s c)) (set_env_status ENV_NOT_RUNNABLE (env_at s1 e))) as E3
    by (unfold s3; by rewrite env_at_upd, decide_True).
  rewrite E3. set (s4 := set_envs _ s3).
  assert (env_at s4 c = env_at s c) as E4c.
  { unfold s4. rewrite env_at_upd, decide_False by congruence. unfold s3. by rewrite env_at_upd, decide_False by congruence. }
  assert (env_at s4 e = set_env_tf (set_tf_regs (set_reg_rax 0 (tf_regs (env_tf (env_at s c)))) (env_tf (env_at s c)))
    (set_env_status ENV_NOT_RUNNABLE (env_at s1 e))) as E4 by (unfold s4; by rewrite env_at_upd, decide_True).
  rewrite E4c, E4. set (s5 := set_envs _ s4).
  assert (env_at s5 e = set_env_parent_id (env_id (env_at s c)) (set_env_tf (set_tf_regs (set_reg_rax 0
    (tf_regs (env_tf (env_at s c)))) (env_tf (env_at s c))) (set_env_status ENV_NOT_RUNNABLE (env_at s1 e)))) as E5
    by (unfold s5; by rewrite env_at_upd, decide_True).
  exists s5. split; [done|]. rewrite E5, He. split_ands; try done.
  - by apply (pt_inv_same _ _ _ s1).
  - intros e' He'. unfold s5, s4, s3, s2. do 4 rewrite env_at_upd, decide_False by congruence. by apply Ho.
  - rewrite <- Hc. change (curenv s1 = curenv s). by rewrite Heq.
  - change (cr3 s1 = cr3 s). by rewrite Heq.
  - change (npages s1 = npages s). by rewrite Heq.
  - change (entry s1 p (PML4 UVPT) = p * PGSIZE + Z.lor PTE_P PTE_U). by rewrite Hent.
Qed.

(** [sys_exofork] creates a child that is not runnable, has the parent's
    registers except that it sees the return value 0, has the caller as its
    parent and an empty user address space of its own; the caller gets the
    child's identifier and nothing of the caller changes. *)
Lemma sys_exofork_spec k own l p s c e :
  pt_inv k own (p :: l) s -> own !! k = Some (k, []) -> boot_pml4e s = kva k 0 ->
  curenv s = Some c -> env_free_list s = Some e -> c <> e ->
  exists s', sys_exofork s = Ret (env_id (env_at s' e)) s' /\
    env_id (env_at s' e) = next_env_id (env_id (env_at s e)) e /\
    env_status (env_at s' e) = ENV_NOT_RUNNABLE /\ env_parent_id (env_at s' e) = env_id (env_at s c) /\
    env_tf (env_at s' e) = set_tf_regs (set_reg_rax 0 (tf_regs (env_tf (env_at s c)))) (env_tf (env_at s c)) /\
    env_pml4e (env_at s' e) = kva p 0 /\ (forall va, PML4 va = 0 -> pte_of s' p va = 0) /\
    pt_inv k (<[p := (p, [])]> own) l s' /\
    (forall e', e' <> e -> env_at s' e' = env_at s e') /\
    (forall r va, own !! r = Some (r, []) -> priv k r (PML4 va) -> pte_of s' r va = pte_of s r va).
Proof.
  intros I Hk Hboot Hc Hfl Hce.
  destruct (sys_exofork_run k own l p s c e I Hk Hboot Hc Hfl Hce) as (s' & H1 & H2 & H3 & H4 & H5 & H6 & H7 & H8 & H9 & H10 & _).
  exists s'. by split_ands.
Qed.

(** The machine of the page-table examples: environment 0 current, 1 free. *)
Definition fork_machine : kstate :=
  set_boot_pml4e (kva 10 0) (set_env_free_list (Some 1) (set_curenv (Some 0) (set_envs
    {[ 0 := set_env_pml4e (kva 10 0) (set_env_status ENV_RUNNING (set_env_id 4096 Env0)) ]} demo))).

Example sys_exofork_spec_example :
  exists s', sys_exofork fork_machine = Ret (env_id (env_at s' 1)) s' /\
    env_id (env_at s' 1) = next_env_id (env_id (env_at fork_machine 1)) 1 /\
    env_status (env_at s' 1) = ENV_NOT_RUNNABLE /\ env_parent_id (env_at s' 1) = env_id (env_at fork_machine 0) /\
    env_tf (env_at s' 1) = set_tf_regs (set_reg_rax 0 (tf_regs (env_tf (env_at fork_machine 0)))) (env_tf (env_at fork_machine 0)) /\
    env_pml4e (env_at s' 1) = kva 3 0 /\ (forall va, PML4 va = 0 -> pte_of s' 3 va = 0) /\
    pt_inv 10 (<[3 := (3, [])]> demo_own) [5; 6; 7] s' /\
    (forall e', e' <> 1 -> env_at s' e' = env_at fork_machine e') /\
    (forall r va, demo_own !! r = Some (r, []) -> priv 10 r (PML4 va) -> pte_of s' r va = pte_of fork_machine r va).
Proof.
  apply (sys_exofork_spec 10 demo_own [5; 6; 7] 3 fork_machine 0 1); try reflexivity; [|done].
  by apply (pt_inv_same _ _ _ demo); [..|apply demo_inv].
Qed.

(** ** User pointers *)

(** [sys_cputs] reads one byte past the range it has checked: when the byte
    printed is the last one mapped, the next one is not, the check succeeds
    and the kernel then faults, so that any environment can bring the kernel
    down. *)
Lemma sys_cputs_overreads `{!VmxHw} s c va p :
  curenv s = Some c -> user_mem_check c va 1 (Z.lor PTE_U PTE_U) s = Ret 0 s ->
  translate s va PTE_P = Some p -> phys_byte s p (va mod PGSIZE) <> 0 -> translate s (u64 (va + 1)) PTE_P = None ->
  exists s', sys_cputs va 1 s = Panic "page fault in kernel mode" s'.
Proof.
  intros Hc Hchk Ht Hb Ht1. unfold sys_cputs, with_curenv. msteps. rewrite Hc. cbv iota.
  unfold user_mem_assert. rewrite bind_assoc, (bind_Ret _ _ _ _ _ Hchk). change (0 <? 0) with false. cbv iota. msteps.
  unfold cprintf_str. change (s32 1) with 1. change (Z.to_nat (if 1 <? 0 then 2 ^ 48 else 1 + 2)) with 3%nat. cbn [loop].
  unfold vload8 at 1. msteps. rewrite Ht. cbv iota. msteps.
  destruct (Z.eqb_spec (phys_byte s p (va mod PGSIZE)) 0); [done|].
  change (1 <? 0) with false. change (0 <=? 1 - 1) with true. cbv iota. unfold console_write. msteps.
  unfold vload8 at 1. msteps.
  change (translate (set_cons_out _ s) (u64 (va + 1)) PTE_P) with (translate s (u64 (va + 1)) PTE_P).
  rewrite Ht1. by eexists.
Qed.

(** Page 11 is mapped at address 0 and its last byte is a character. *)
Definition cputs_machine : kstate := set_phys_byte 11 4095 65 (current demo_mapped).

Lemma sys_cputs_overreads_witness :
  exists s', @sys_cputs no_vmx 4095 1 cputs_machine = Panic "page fault in kernel mode" s'.
Proof. apply (@sys_cputs_overreads no_vmx cputs_machine 0 4095 11); by vm_compute. Defined.
