(* ===== verification/SharedSlot.v ===== *)
(** The top eight megabytes of the user addresses.

    inc/memlayout.h puts [UTOP] at 0x8000800000, above 2^39, so the addresses
    from 2^39 to [UTOP] go through slot 1 of the top-level table. The system
    calls accept them as user addresses, but [env_setup_vm] (kern/env.c) gives
    every environment the kernel's slot 1: what one environment maps there
    every environment sees. *)

From S2P Require Import Prelude Kernel PageAlloc PageTable PageTableInv PageTableSpec PageTableProps.
From S2P Require Import Ept EptProps Mmu Vmx Env EnvProps SchedProps Syscall SyscallProps.

Definition high_user_va (va : Z) : Prop := 2 ^ 39 <= va < UTOP /\ va mod PGSIZE = 0.

(** The address space at page [r] has the kernel's slot 1, as the loop of
    [env_setup_vm] copies it. *)
Definition has_kernel_slot (k : Z) (s : kstate) (r : Z) : Prop := entry s r 1 = Z.lor (entry s k 1) PTE_P.

Lemma high_user_idx va : high_user_va va -> PML4 va = 1 /\ (UTOP <=? va) || nz (PGOFF va) = false.
Proof.
  intros [Hr Hal]. split.
  - rewrite PML4_eq. assert (va / 2 ^ 39 = 1) as ->; [|done].
    change UTOP with 0x8000800000 in Hr. symmetry. apply (Z.div_unique _ _ 1 (va - 2 ^ 39)); lia.
  - rewrite PGOFF_eq, Hal. destruct (Z.leb_spec UTOP va); [lia|done].
Qed.

Section Shared.
Context (k : Z) (own : owners) (l : list Z) (s : kstate).
Context (I : pt_inv k own l s) (Hk : own !! k = Some (k, [])) (Hne : entry s k 1 <> 0).

(** The flag the loop adds is already there. *)
Lemma kernel_slot_eq r : has_kernel_slot k s r -> entry s r 1 = entry s k 1.
Proof.
  unfold has_kernel_slot. intros ->.
  assert (Z.land (entry s k 1) PTE_PWU = PTE_PWU) as Hf.
  { apply (pi_flags _ _ _ _ I k k [] 1 Hk); [cbn; lia|done|by right|done]. }
  apply Z.bits_inj'. intros n Hn. rewrite Z.lor_spec. destruct (Z.testbit PTE_P n) eqn:E; [|by rewrite orb_false_r].
  assert (Z.testbit (Z.land (entry s k 1) PTE_PWU) n = true) as Hb.
  { rewrite Hf. unfold PTE_PWU. by rewrite !Z.lor_spec, E. }
  rewrite Z.land_spec in Hb. by destruct (Z.testbit (entry s k 1) n).
Qed.

(** The kernel's walk from [r] is its walk from its own table. *)
Lemma pml4e_walk_shared r va create :
  0 <= r -> PML4 va = 1 -> has_kernel_slot k s r ->
  pml4e_walk (kva r 0) va create s = pml4e_walk (kva k 0) va create s.
Proof.
  intros Hr Hva Hs. pose proof (pi_tab _ _ _ _ I _ _ _ Hk) as (Hkr & _ & _).
  rewrite !pml4e_walk_level by (apply kva_nz; lia). unfold walk_level.
  rewrite !bind_load64 by (rewrite Hva; lia). rewrite Hva, (kernel_slot_eq r Hs).
  by destruct (Z.eqb_spec (entry s k 1) 0).
Qed.

(** So is the processor's. *)
Lemma translate_shared r va f :
  PML4 va = 1 -> has_kernel_slot k s r -> translate (set_cr3 (r * PGSIZE) s) va f = mmu_walk s k (va_idx va) f.
Proof.
  intros Hva Hs. unfold translate. change (cr3 (set_cr3 (r * PGSIZE) s)) with (r * PGSIZE).
  assert (PPN (r * PGSIZE) = r) as ->. { rewrite <- (Z.add_0_r (r * PGSIZE)). by apply PPN_add. }
  change (mmu_walk s r (va_idx va) f = mmu_walk s k (va_idx va) f).
  unfold va_idx. cbn [mmu_walk]. by rewrite Hva, (kernel_slot_eq r Hs).
Qed.

Lemma kernel_walk va f :
  PML4 va = 1 -> f <> 0 -> Z.land PTE_PWU f = f ->
  mmu_walk s k (va_idx va) f =
  match descend s k (va_path va) with Some u => mmu_walk s u [PTX va] f | None => None end.
Proof.
  intros Hva Hf Hsub. rewrite va_idx_path, mmu_walk_app.
  rewrite (mmu_walk_path k own l s k k [] (va_path va) f I Hk); try done; [unfold idx_ok, va_path; rewrite !Forall_cons; auto 6 with jos|].
  intros j js' H. inversion H; subst. right. done.
Qed.
End Shared.

(** Nothing is mapped at [va]: the processor finds nothing either. *)
Lemma translate_unmapped k own l s r va f :
  pt_inv k own l s -> own !! k = Some (k, []) -> entry s k 1 <> 0 -> has_kernel_slot k s r ->
  PML4 va = 1 -> pte_of s k va = 0 -> f <> 0 -> Z.land PTE_PWU f = f ->
  translate (set_cr3 (r * PGSIZE) s) va f = None.
Proof.
  intros I Hk Hne Hs Hva Hz Hf Hsub. rewrite (translate_shared k own l s I Hk Hne) by done.
  rewrite (kernel_walk k own l s I Hk) by done. unfold pte_of in Hz. rewrite va_idx_path, pt_read_descend in Hz.
  destruct (descend s k (va_path va)) as [u|]; [|done]. cbn [mmu_walk]. rewrite Hz, Z.land_0_l.
  by destruct (Z.eqb_spec 0 f); [congruence|].
Qed.

(** [page_insert] of an unmapped page at such an address, from the table of
    any environment, writes the kernel's tables. *)
Lemma page_insert_shared k own l s r va p perm :
  pt_inv k own l s -> own !! k = Some (k, []) -> entry s k 1 <> 0 -> own !! r = Some (r, []) -> has_kernel_slot k s r ->
  PML4 va = 1 -> pte_of s k va = 0 -> 0 < p < npages s -> p ∉ l -> ref_of s p = 0 -> (3 <= length l)%nat ->
  0 <= perm < PGSIZE ->
  exists s' own' l' s3, page_insert (kva r 0) p va perm s = Ret 0 s' /\ s' = set_pages (pages s') s3 /\
    pt_inv k own' l' s3 /\ own ⊆ own' /\ pte_of s3 k va = mk_pte p perm /\ ref_of s' p = 1 /\
    (exists u, own' !! u = Some (k, va_path va)) /\
    forall r', own !! r' = Some (r', []) -> entry s r' 1 <> 0 -> entry s3 r' 1 = entry s r' 1.
Proof.
  intros I Hk Hne Hr Hs Hva Hz Hp Hpl Href Hlen Hperm.
  assert (priv k k (PML4 va)) as Hpriv by (by right).
  pose proof (pi_tab _ _ _ _ I _ _ _ Hr) as (Hrr & _ & _). pose proof (pi_np _ _ _ _ I) as Hn.
  destruct (pml4e_walk_create k own l s k va I Hk Hpriv) as (res & s1 & Hw & Hf & Hpost).
  destruct res as [a|]; [|destruct Hpost as (_ & _ & H); cbn in H; lia].
  destruct Hpost as (u & own1 & l1 & -> & I1 & Hu & Hsub & _ & _ & Hrd & _).
  unfold page_insert. rewrite <- (pml4e_walk_shared k own l s I Hk Hne r va true) in Hw by (lia || done).
  rewrite (bind_Ret _ _ _ _ _ Hw). pose proof (PTX_range va) as Hj.
  assert (own1 !! k = Some (k, [])) as Hk1 by (by eapply lookup_weaken).
  assert (entry s1 u (PTX va) = 0) as He.
  { rewrite <- (pte_of_owned k own1 l1 s1 k u va I1 Hk1 Hu), <- Hz. unfold pte_of.
    apply (Hrd k k []); [done|apply va_idx_ok|done|]. intros j js H. by inversion H; subst. }
  rewrite (bind_Ret _ _ _ _ _ (load64_kva u _ s1 Hj)), He. rewrite page2pa_eq by (unfold npages_ok in Hn; lia).
  change (PTE_ADDR 0) with 0. destruct (Z.eqb_spec 0 (p * PGSIZE)) as [H|_]; [unfold PGSIZE in H; lia|]. change (nz 0) with false. cbv iota. msteps.
  rewrite (bind_Ret _ _ _ _ _ (store64_kva u _ _ s1 Hj)).
  rewrite (bind_Ret _ _ _ _ _ (load64_kva u _ _ Hj)), entry_set_entry_eq, mk_pte_lor by done.
  rewrite (bind_Ret _ _ _ _ _ (store64_kva u _ _ _ Hj)).
  set (s3 := set_entry u (PTX va) (mk_pte p perm) _). msteps.
  assert (own1 !! u = Some (k, [1; PDPE va; PDX va])) as Hu1 by (rewrite Hu; unfold va_path; by rewrite Hva).
  assert (pt_inv k own1 l1 s3) as I3 by (eapply kernel_slot_inv; [by eapply kernel_slot_inv|done|done]).
  eexists _, own1, l1, s3. split; [done|]. split; [done|]. split; [done|]. split; [done|]. split_ands.
  - rewrite (pte_of_owned k own1 l1 s3 k u va I3 Hk1 Hu). apply entry_set_entry_eq.
  - unfold ref_of. rewrite page_at_upd, decide_True by done. cbn.
    change (page_at s3 p) with (page_at s1 p). rewrite (wf_page _ _ _ _ _ Hf p Hpl).
    change (pp_ref (page_at s p)) with (ref_of s p). by rewrite Href.
  - by exists u.
  - intros r' Hr' Hn1. unfold s3. rewrite !entry_set_entry_ne; [by apply (wf_keep _ _ _ _ _ Hf r' 1 (r', []))|..];
      left; intros <-; apply (lookup_weaken _ _ _ _ Hr') in Hsub; rewrite Hu1 in Hsub; done.
Qed.

(** C37: Address spaces are not isolated from 2^39 up. [UTOP] is 0x8000800000,
    so the system calls take the addresses from 2^39 to [UTOP] for user
    addresses, but they go through slot 1 of the top-level table, which
    [env_setup_vm] copies from the kernel. When the kernel has a table there
    and nothing is mapped at such an address, a successful [sys_page_alloc] of
    one environment (four free pages suffice for success) maps the page, with
    the permissions asked for, in every address space with the copied slot:
    before the call user-mode accesses to the address fault there, after it
    they reach the page, which counts a single reference. *)
Theorem utop_pages_shared k own l p s envid e r va perm :
  pt_inv k own (p :: l) s -> own !! k = Some (k, []) -> entry s k 1 <> 0 ->
  may_act s envid e -> env_pml4e (env_at s e) = kva r 0 -> own !! r = Some (r, []) -> has_kernel_slot k s r ->
  p <> 0 -> (3 <= length l)%nat -> high_user_va va -> perm_bad perm = false -> pte_of s k va = 0 ->
  exists s', sys_page_alloc envid va perm s = Ret 0 s' /\ ref_of s' p = 1 /\
    forall r', own !! r' = Some (r', []) -> has_kernel_slot k s r' ->
      translate (set_cr3 (r' * PGSIZE) s) va (Z.lor PTE_P PTE_U) = None /\
      forall f, f <> 0 -> Z.land PTE_PWU f = f -> Z.land perm f = f ->
        translate (set_cr3 (r' * PGSIZE) s') va f = Some p.
Proof.
  intros I Hk Hne Hact Hpml Hr Hs Hp0 Hlen Hhigh Hperm Hz. destruct (high_user_idx va Hhigh) as [Hva Hchk].
  destruct (perm_bad_false perm Hperm) as (Hpr & Hpp & _).
  unfold sys_page_alloc. rewrite (bind_Ret _ _ _ _ _ (envid2env_granted s envid e Hact)). cbv iota beta.
  change (0 <? 0) with false. cbv iota. msteps. rewrite (bind_Ret _ _ s e s) by done.
  rewrite (bind_Ret _ _ _ _ _ (page_alloc_pop 0 s p l (pi_np _ _ _ _ I) (pi_fl _ _ _ _ I))). cbv iota.
  rewrite Hchk, Hperm. cbv iota. msteps. set (s1 := popped 0 p (head l) s).
  change (env_pml4e (env_at s1 e)) with (env_pml4e (env_at s e)). rewrite Hpml.
  destruct (popped_inv k own l p s I) as [I1 Hst]. fold s1 in I1, Hst.
  pose proof (inv_free_range _ _ _ _ I p ltac:(constructor)) as Hprange.
  pose proof (fl_nodup _ _ (pi_fl _ _ _ _ I)) as Hnd. apply NoDup_cons in Hnd as [Hpl _].
  assert (forall t, own !! t = Some (t, []) -> has_kernel_slot k s t -> has_kernel_slot k s1 t) as Hk1.
  { intros t Ht H. unfold has_kernel_slot. by rewrite !Hst. }
  assert (ref_of s1 p = 0) as Hr1.
  { unfold ref_of, s1. rewrite popped_page_at, decide_True by done. exact (inv_free_ref _ _ _ _ I p ltac:(constructor)). }
  assert (entry s1 k 1 <> 0) as Hne1 by (by rewrite Hst).
  destruct (page_insert_shared k own l s1 r va p perm) as (s' & own' & l' & s3 & Hrun & Hs' & I3 & Hsub & Hpte & Href & (u & Hu) & Hkeep);
    try done; [by apply Hk1|rewrite <- Hz; apply (same_tables_pte k own (p :: l) s s1 k va I Hst Hk); by right|
               change (npages s1) with (npages s); lia|].
  mrun Hrun. exists s'. split; [done|]. split; [done|]. intros r' Hr' Hs1. split.
  { by eapply translate_unmapped. }
  intros f Hf Hfs Hfp. rewrite Hs'. change (translate (set_cr3 (r' * PGSIZE) s3) va f = Some p).
  assert (own' !! k = Some (k, [])) as Hk3 by (by eapply lookup_weaken).
  assert (entry s1 r' 1 = entry s1 k 1) as Heq by (apply (kernel_slot_eq k own l s1 I1 Hk Hne1); by apply Hk1).
  assert (entry s3 k 1 <> 0) as Hne3 by (by rewrite Hkeep).
  assert (has_kernel_slot k s3 r') as Hs3.
  { unfold has_kernel_slot. rewrite !Hkeep by (done || by rewrite Heq). by apply Hk1. }
  rewrite (translate_shared k own' l' s3 I3 Hk3 Hne3), (kernel_walk k own' l' s3 I3 Hk3) by done.
  rewrite (owned_descend k own' l' s3 k u (va_path va) I3 Hk3 Hu). cbn [mmu_walk].
  rewrite <- (pte_of_owned k own' l' s3 k u va I3 Hk3 Hu), Hpte, mk_pte_PPN by done.
  assert (Z.land (mk_pte p perm) f = f) as ->; [|by rewrite Z.eqb_refl].
  rewrite <- mk_pte_lor, Hpp, Z.land_lor_distr_l, Hfp by done.
  apply Z.bits_inj'. intros n _. rewrite Z.lor_spec, Z.land_spec. by destruct (Z.testbit f n), (Z.testbit _ n).
Qed.

(** The kernel makes its tables for [KERNBASE], then two environments, 0 and
    1, are created; the first runs. *)
Definition make_spaces (k : Z) : K unit :=
  do! pml4e_walk (kva k 0) KERNBASE true ;;
  do! env_alloc 0 ;;
  do! env_alloc 0 ;;
  modify (set_curenv (Some 0)).

Definition space_of (s : kstate) (own : owners) (k e r : Z) : Prop :=
  env_pml4e (env_at s e) = kva r 0 /\ own !! r = Some (r, []) /\ has_kernel_slot k s r.

Lemma make_spaces_run k own l s va :
  pt_inv k own l s -> own !! k = Some (k, []) -> boot_pml4e s = kva k 0 -> env_free_list s = Some 0 ->
  env_link (env_at s 0) = Some 1 -> PML4 va = 1 -> pte_of s k va = 0 -> (9 <= length l)%nat ->
  exists s' own' p l' r1 r2, make_spaces k s = Ret tt s' /\ pt_inv k own' (p :: l') s' /\ own' !! k = Some (k, []) /\
    entry s' k 1 <> 0 /\ p ∈ l /\ space_of s' own' k 0 r1 /\ space_of s' own' k 1 r2 /\ r1 <> r2 /\ curenv s' = Some 0 /\
    (3 <= length l')%nat /\ pte_of s' k va = 0.
Proof.
  intros I Hk Hb Hf He Hva Hz Hl.
  destruct (walk_kernel k own l s KERNBASE 3 I Hk eq_refl)
    as (u & s1 & own1 & l1 & Hw & Hmm & I1 & Hu & Hsub & _ & Hsuf & Hll & Hrd & _); [left; split; [done|lia]|].
  assert (own1 !! k = Some (k, [])) as Hk1 by (by eapply lookup_weaken).
  assert (entry s1 k 1 <> 0) as Hn1.
  { pose proof (owned_descend _ _ _ _ _ _ _ I1 Hk1 Hu) as Hd. intros H0. unfold va_path in Hd.
    change (PML4 KERNBASE) with 1 in Hd. cbn [descend] in Hd. by rewrite H0 in Hd. }
  assert (priv k k (PML4 va)) as Hpriv by (by right).
  assert (pte_of s1 k va = 0) as Hz1.
  { rewrite <- Hz. unfold pte_of. apply (Hrd k k []); [done|apply va_idx_ok|done|]. intros j js H. by inversion H; subst. }
  destruct l1 as [|p1 [|p2 [|p l']]]; [cbn in Hll; lia..|].
  assert (boot_pml4e s1 = kva k 0 /\ env_free_list s1 = Some 0 /\ env_link (env_at s1 0) = Some 1) as (Hb1 & Hf1 & He1) by (by rewrite Hmm).
  destruct (env_alloc_ok k own1 (p2 :: p :: l') p1 s1 0 0 I1 Hk1 Hb1 Hf1)
    as (s2 & Ha2 & Hs2 & I2 & Henv2 & Ho2 & _ & Hent2 & Hpte2 & _ & Hoth2).
  assert (env_free_list s2 = Some 1) as Hf2 by (by rewrite Hs2).
  assert (boot_pml4e s2 = kva k 0) as Hb2 by (by rewrite Hs2).
  assert (p1 <> k) as Hp10 by (intros ->; eapply inv_owned_not_free in Hk1; [|exact I1]; lset).
  assert (<[p1 := (p1, [])]> own1 !! k = Some (k, [])) as Hk2 by (by rewrite lookup_insert_ne).
  destruct (env_alloc_ok k _ (p :: l') p2 s2 1 0 I2 Hk2 Hb2 Hf2)
    as (s3 & Ha3 & Hs3 & I3 & Henv3 & Ho3 & _ & Hent3 & Hpte3 & _ & Hoth3).
  assert (p2 <> k) as Hp20 by (intros ->; eapply inv_owned_not_free in Hk2; [|exact I2]; lset).
  assert (p1 <> p2) as Hp12.
  { intros <-. pose proof (fl_nodup _ _ (pi_fl _ _ _ _ I1)) as Hnd. apply NoDup_cons in Hnd as [Hnd _]. lset. }
  assert (entry s3 k 1 = entry s1 k 1) as Hk3 by (rewrite Hoth3, Hoth2 by done; done).
  exists (set_curenv (Some 0) s3), (<[p2 := (p2, [])]> (<[p1 := (p1, [])]> own1)), p, l', p1, p2. unfold space_of. split_ands.
  - unfold make_spaces. by rewrite (bind_Ret _ _ _ _ _ Hw), (bind_Ret _ _ _ _ _ Ha2), (bind_Ret _ _ _ _ _ Ha3).
  - by apply (pt_inv_same _ _ _ s3).
  - by rewrite lookup_insert_ne.
  - change (entry s3 k 1 <> 0). by rewrite Hk3.
  - destruct Hsuf as [l0 ->]. set_solver.
  - change (env_pml4e (env_at s3 0) = kva p1 0). by rewrite Ho3, Henv2.
  - by rewrite lookup_insert_ne, lookup_insert_eq.
  - change (entry s3 p1 1 = Z.lor (entry s3 k 1) PTE_P). by rewrite Hk3, Hoth3, Hent2.
  - change (env_pml4e (env_at s3 1) = kva p2 0). by rewrite Henv3.
  - by rewrite lookup_insert_eq.
  - change (entry s3 p2 1 = Z.lor (entry s3 k 1) PTE_P). rewrite Hk3, Hent3. cbn. by rewrite Hoth2.
  - done.
  - done.
  - cbn in *. lia.
  - change (pte_of s3 k va = 0). by rewrite Hpte3, Hpte2.
Qed.

Definition two_envs_link (s : kstate) : kstate :=
  set_boot_pml4e (kva 10 0) (set_env_free_list (Some 0) (set_envs {[ 0 := set_env_link (Some 1) Env0; 1 := Env0 ]} s)).

Lemma two_envs_link_run own l s va :
  pt_inv 10 own l s -> own !! 10 = Some (10, []) -> PML4 va = 1 -> pte_of s 10 va = 0 -> (9 <= length l)%nat ->
  exists s' own' p l' r1 r2, make_spaces 10 (two_envs_link s) = Ret tt s' /\ pt_inv 10 own' (p :: l') s' /\ own' !! 10 = Some (10, []) /\
    entry s' 10 1 <> 0 /\ p ∈ l /\ space_of s' own' 10 0 r1 /\ space_of s' own' 10 1 r2 /\ r1 <> r2 /\ curenv s' = Some 0 /\
    (3 <= length l')%nat /\ pte_of s' 10 va = 0.
Proof.
  intros I Hk Hva Hz Hl. apply (make_spaces_run 10 own l); try done. by apply (pt_inv_same _ _ _ s).
Qed.

Lemma high_user_first : high_user_va (2 ^ 39).
Proof. by vm_compute. Qed.

Lemma utop_pages_shared_witness :
  exists s s' p r1 r2, make_spaces 10 (two_envs_link (roomy 8)) = Ret tt s /\ r1 <> r2 /\
    env_pml4e (env_at s 0) = kva r1 0 /\ env_pml4e (env_at s 1) = kva r2 0 /\ curenv s = Some 0 /\
    sys_page_alloc 0 (2 ^ 39) 7 s = Ret 0 s' /\ ref_of s' p = 1 /\
    translate (set_cr3 (r2 * PGSIZE) s) (2 ^ 39) (Z.lor PTE_P PTE_U) = None /\
    translate (set_cr3 (r1 * PGSIZE) s') (2 ^ 39) PTE_PWU = Some p /\
    translate (set_cr3 (r2 * PGSIZE) s') (2 ^ 39) PTE_PWU = Some p.
Proof.
  destruct (roomy_inv 8 ltac:(done)) as (I & _). pose proof (roomy_empty 8 (2 ^ 27) ltac:(done)) as Hz0.
  change (2 ^ 27 * PGSIZE) with (2 ^ 39) in Hz0.
  destruct (two_envs_link_run demo_own (roomy_free 8) (roomy 8) (2 ^ 39) I eq_refl eq_refl Hz0)
    as (s & own & p & l & r1 & r2 & Hrun & I' & Hk & Hne & Hp & (H1 & H2 & H3) & (H4 & H5 & H6) & Hr & Hc & Hl & Hz);
    [cbn; lia|].
  destruct (utop_pages_shared 10 own l p s 0 0 r1 (2 ^ 39) 7 I' Hk Hne) as (s' & Hs' & Href & Hall);
    [by left; split|exact H1|exact H2|exact H3| |exact Hl|apply high_user_first|reflexivity|exact Hz|].
  { intros ->. revert Hp. apply (bool_decide_unpack _). by vm_compute. }
  destruct (Hall r2 H5 H6) as [Hb2 Ha2]. destruct (Hall r1 H2 H3) as [_ Ha1].
  exists s, s', p, r1, r2. split_ands; try assumption; [by apply Ha1|by apply Ha2].
Defined.
