(* ===== verification/Trap.v ===== *)
(** Traps: kern/trap.c. *)

From S2P Require Import Prelude Kernel PageAlloc PageTable PageTableInv Mmu Ept Vmx Env Syscall.

(** inc/trap.h *)
Definition T_BRKPT : Z := 3.
Definition T_PGFLT : Z := 14.
Definition T_SYSCALL : Z := 48.
Definition IRQ_OFFSET : Z := 32.
Definition IRQ_TIMER : Z := 0.
Definition IRQ_KBD : Z := 1.
Definition IRQ_SERIAL : Z := 4.
Definition IRQ_SPURIOUS : Z := 7.

Definition trapname (trapno : Z) : string :=
  let excnames := [
    "Divide error"; "Debug"; "Non-Maskable Interrupt"; "Breakpoint"; "Overflow";
    "BOUND Range Exceeded"; "Invalid Opcode"; "Device Not Available"; "Double Fault";
    "Coprocessor Segment Overrun"; "Invalid TSS"; "Segment Not Present"; "Stack Fault";
    "General Protection"; "Page Fault"; "(unknown trap)"; "x87 FPU Floating-Point Error";
    "Alignment Check"; "Machine-Check"; "SIMD Floating-Point Exception" ]%string in
  if u64 trapno <? 20 then nth (Z.to_nat trapno) excnames ""%string
  else if trapno =? T_SYSCALL then "System call"
  else if (IRQ_OFFSET <=? trapno) && (trapno <? IRQ_OFFSET + 16) then "Hardware Interrupt"
  else "(unknown trap)".

(** The characters the console devices have when they interrupt; the routines
    that read them are device code. *)
Class ConsHw : Type := {
  kbd_input : list Z;
  serial_input : list Z;
}.

(** What [cons_intr] of kern/console.c adds to the waiting input: null
    characters are skipped. *)
Definition cons_feed (input : list Z) : K unit :=
  modify (fun s => set_cons_in (cons_in s ++ filter (fun c => c <> 0) input) s).

(** [struct UTrapframe] (inc/trap.h): the words in order, 160 bytes. *)
Definition UTrapframe_size : Z := 160.
Definition utrapframe (fault_va : Z) (tf : Trapframe) : list Z :=
  let r := tf_regs tf in
  [ fault_va; tf_err tf;
    reg_r15 r; reg_r14 r; reg_r13 r; reg_r12 r; reg_r11 r; reg_r10 r; reg_r9 r; reg_r8 r;
    reg_rsi r; reg_rdi r; reg_rbp r; reg_rdx r; reg_rcx r; reg_rbx r; reg_rax r;
    tf_rip tf; tf_eflags tf; tf_rsp tf ].

(** Where the handler puts the frame. *)
Definition utexp_of (rsp : Z) : Z :=
  if (rsp <=? UXSTACKTOP - 1) && (UXSTACKTOP - PGSIZE <=? rsp) then u64 (rsp - UTrapframe_size - 8)
  else UXSTACKTOP - UTrapframe_size.

(** A [struct Trapframe *]: the frame on the kernel stack, or the one saved in
    an environment. *)
Inductive tfptr : Type :=
| TfStack (tf : Trapframe)
| TfEnv (e : Z).

Definition get_tf (p : tfptr) : K Trapframe :=
  match p with
  | TfStack tf => ret tf
  | TfEnv e => gets (fun s => env_tf (env_at s e))
  end.

(** A write through the pointer; the frame on the stack is not read again. *)
Definition upd_tf (p : tfptr) (f : Trapframe -> Trapframe) : K unit :=
  match p with
  | TfStack _ => ret tt
  | TfEnv e => upd_env e (fun x => set_env_tf (f (env_tf x)) x)
  end.

Section Trap.
Context `{!VmxHw, !ConsHw}.
(** The kernel monitor, which talks to the user of the console. *)
Context (monitor : K unit).

Definition page_fault_handler (tfp : tfptr) : K unit :=
  let! fault_va := gets cr2 in
  let! tf := get_tf tfp in
  if Z.land (tf_cs tf) 3 =? 0 then panic "unhandled trap in kernel"
  else
    with_curenv (fun c =>
      let! upcall := gets (fun s => env_pgfault_upcall (env_at s c)) in
      do! (if nz upcall then
             let utexp := utexp_of (tf_rsp tf) in
             do! user_mem_assert c utexp UTrapframe_size (Z.lor PTE_W PTE_U) ;;
             let! tf := get_tf tfp in
             do! vstore utexp (mjoin (bytes64 <$> utrapframe fault_va tf)) ;;
             let! upcall := gets (fun s => env_pgfault_upcall (env_at s c)) in
             do! upd_tf tfp (set_tf_rip upcall) ;;
             do! upd_tf tfp (set_tf_rsp utexp) ;;
             env_run c
           else ret tt) ;;
      env_destroy c).

Definition trap_dispatch (tfp : tfptr) : K unit :=
  let! tf := get_tf tfp in
  let no := tf_trapno tf in
  if no =? IRQ_OFFSET + IRQ_SPURIOUS then ret tt
  else if no =? IRQ_OFFSET + IRQ_TIMER then sched_yield
  else if no =? IRQ_OFFSET + IRQ_KBD then cons_feed kbd_input
  else if no =? IRQ_OFFSET + IRQ_SERIAL then cons_feed serial_input
  else if no =? T_PGFLT then page_fault_handler tfp
  else if no =? T_BRKPT then monitor
  else if no =? T_SYSCALL then
    let r := tf_regs tf in
    let! v := syscall (reg_rax r) (reg_rdx r) (reg_rcx r) (reg_rbx r) (reg_rdi r) (reg_rsi r) in
    upd_tf tfp (fun t => set_tf_regs (set_reg_rax (u64 v) (tf_regs t)) t)
  else if tf_cs tf =? GD_KT then panic "unhandled trap in kernel"
  else with_curenv env_destroy.

(** [panicstr] is null and interrupts are disabled in a processor that gets
    here. *)
Definition trap (tf : Trapframe) : K unit :=
  let! st := gets cpu_status in
  do! modify (set_cpu_status CPU_STARTED) ;;
  do! (if st =? CPU_HALTED then lock_kernel else ret tt) ;;
  let! tfp :=
    (if Z.land (tf_cs tf) 3 =? 3 then
       do! lock_kernel ;;
       with_curenv (fun c =>
         let! st := gets (fun s => env_status (env_at s c)) in
         do! (if st =? ENV_DYING then
                do! env_free c ;;
                do! modify (set_curenv None) ;;
                sched_yield
              else ret tt) ;;
         with_curenv (fun c =>
           do! upd_env c (set_env_tf tf) ;;
           ret (TfEnv c)))
     else ret (TfStack tf)) in
  do! trap_dispatch tfp ;;
  let! cur := gets curenv in
  match cur with
  | Some c =>
      let! st := gets (fun s => env_status (env_at s c)) in
      if st =? ENV_RUNNING then env_run c else sched_yield
  | None => sched_yield
  end.
End Trap.
