(* ===== verification/TrapProps.v ===== *)
(** Properties of the trap handlers of kern/trap.c: kernel stores to user memory
    and the page-fault upcall. *)

From S2P Require Import Prelude Kernel PageAlloc PageTable PageTableInv PageTableSpec PageTableProps.
From S2P Require Import Mmu Ept Vmx Env EnvProps SchedProps Syscall SyscallProps Trap.

(** ** The processor's walk and the tables *)

Lemma mmu_walk_read s t js f p :
  f <> 0 -> js <> [] -> mmu_walk s t js f = Some p ->
  Z.land (pt_read s t js) f = f /\ PPN (pt_read s t js) = p.
Proof.
  intros Hf. revert t. induction js as [|j js IH]; intros t Hne Hw; [done|]. cbn in Hw.
  destruct (Z.eqb_spec (Z.land (entry s t j) f) f) as [He|]; [|done].
  cbn. destruct js as [|j' js]; [by inversion Hw|].
  destruct (Z.eqb_spec (entry s t j) 0) as [H0|]; [by rewrite H0, Z.land_0_l in He|].
  by apply IH.
Qed.

Lemma mmu_walk_same k own l s s' t r path js f :
  pt_inv k own l s -> own !! t = Some (r, path) -> (length path + length js <= 4)%nat -> idx_ok js ->
  (forall j js', js = j :: js' -> slot_priv k r path j) -> f <> 0 ->
  same_tables own s s' -> mmu_walk s' t js f = mmu_walk s t js f.
Proof.
  intros I Ht Hlen Hidx Hpriv Hf Hsame. revert t path Ht Hlen Hidx Hpriv.
  induction js as [|j js IH]; intros t path Ht Hlen Hidx Hpriv; [done|].
  cbn. rewrite Hsame by done. destruct (Z.eqb_spec (Z.land (entry s t j) f) f) as [He|]; [|done].
  destruct js as [|j' js]; [done|]. cbn [length] in Hlen.
  assert (entry s t j <> 0) as Hne by (intros H0; by rewrite H0, Z.land_0_l in He).
  apply Forall_cons in Hidx as [Hj Hidx].
  apply (IH _ (path ++ [j])).
  - apply (pi_child _ _ _ _ I t); try done; [lia|by eapply Hpriv].
  - rewrite length_app. cbn [length] in *. lia.
  - done.
  - intros i js' _. by destruct path.
Qed.

Section Translate.
Context (k : Z) (own : owners) (l : list Z) (s : kstate) (r : Z).
Context (I : pt_inv k own l s) (Hr : own !! r = Some (r, [])) (Hcr3 : PPN (cr3 s) = r).

Lemma translate_same s' va f :
  PML4 va = 0 -> f <> 0 -> cr3 s' = cr3 s -> same_tables own s s' -> translate s' va f = translate s va f.
Proof using All.
  intros Hva Hf Hc Hs. unfold translate. rewrite Hc.
  apply (mmu_walk_same k own l s s' _ r []); try done.
  - by rewrite Hcr3.
  - apply va_idx_ok.
  - intros j js' H. inversion H; subst. by left.
Qed.

Lemma translate_pte va f p :
  f <> 0 -> translate s va f = Some p -> Z.land (pte_of s r va) f = f /\ PPN (pte_of s r va) = p.
Proof using All. intros Hf H. unfold translate in H. rewrite Hcr3 in H. by apply mmu_walk_read in H. Qed.

(** A page of the user part is not a table. *)
Lemma translate_leaf va f p :
  PML4 va = 0 -> f <> 0 -> translate s va f = Some p -> 0 <= p < npages s /\ own !! p = None.
Proof using All.
  intros Hva Hf H. destruct (translate_pte _ _ _ Hf H) as [He <-].
  assert (pte_of s r va <> 0) as Hne by (intros H0; by rewrite H0, Z.land_0_l in He).
  destruct (user_pte_range k own l s r va I Hr Hva Hne) as (H1 & H2 & _). by split.
Qed.

Lemma translate_page va va' f :
  0 <= va < 2 ^ 48 -> 0 <= va' < 2 ^ 48 -> va / PGSIZE = va' / PGSIZE -> translate s va f = translate s va' f.
Proof using All. intros H H' He. unfold translate. f_equal. by apply va_idx_page. Qed.

(** A store within one page of user memory. *)
Lemma vstore_run va bs p :
  0 <= va -> va + Z.of_nat (length bs) <= 2 ^ 39 -> va mod PGSIZE + Z.of_nat (length bs) <= PGSIZE ->
  translate s va (Z.lor PTE_P PTE_W) = Some p ->
  exists s', vstore va bs s = Ret tt s' /\ s' = set_mem (mem s') s /\
    (forall q i, q <> p -> entry s' q i = entry s q i) /\
    forall o, 0 <= o -> phys_byte s' p o =
      if decide (va mod PGSIZE <= o < va mod PGSIZE + Z.of_nat (length bs))
      then u8 (nth (Z.to_nat (o - va mod PGSIZE)) bs 0) else phys_byte s p o.
Proof using All.
  intros Hva Hhi Hpage Htr. unfold vstore. set (n := Z.of_nat (length bs)) in *. set (off := va mod PGSIZE) in *.
  assert (PGSIZE = 4096) as HPG by done.
  assert (PML4 va = 0 \/ n = 0) as Hslot.
  { destruct (Z.eq_dec n 0); [by right|left]. rewrite PML4_eq, Z.div_small by lia. done. }
  destruct Hslot as [Hslot|Hn0].
  2: { destruct bs; [|cbn in n; lia]. exists s. split; [done|]. split; [by destruct s|]. split; [done|].
       intros o Ho. rewrite decide_False; [done|]. lia. }
  destruct (translate_leaf va (Z.lor PTE_P PTE_W) p Hslot ltac:(done) Htr) as [_ Hleaf].
  pose (J := fun (pre : list (Z * Z)) s' => s' = set_mem (mem s') s /\
    (forall q i, q <> p -> entry s' q i = entry s q i) /\
    forall o, 0 <= o -> phys_byte s' p o = if decide (off <= o < off + Z.of_nat (length pre))
      then u8 (nth (Z.to_nat (o - off)) bs 0) else phys_byte s p o).
  destruct (forM_inv J (zip (seqZ 0 n) bs) (fun '(i, b) => vstore8 (u64 (va + i)) b) s) as (s' & Hrun & Hs' & He & Hb).
  - intros pre [i b] post s1 Hl (Hs1 & He & Hb).
    assert (zip (seqZ 0 n) bs !! length pre = Some (i, b)) as Hi by (rewrite Hl; by apply list_lookup_middle).
    apply lookup_zip_Some in Hi as [Hi Hbi]. apply lookup_seqZ in Hi as [-> Hi].
    assert (Z.of_nat (length pre) < n) as Hlt by lia. set (i := Z.of_nat (length pre)) in *.
    unfold vstore8. replace (0 + i) with i by lia. rewrite u64_small by lia. msteps.
    pose proof (Z.div_mod va PGSIZE ltac:(lia)) as Hdm. fold off in Hdm.
    assert ((va + i) / PGSIZE = va / PGSIZE) as Hdiv.
    { symmetry. apply (Z.div_unique _ _ _ (off + i)); [|lia]. pose proof (Z.mod_pos_bound va PGSIZE). lia. }
    assert ((va + i) mod PGSIZE = off + i) as Hmod.
    { rewrite Z.mod_eq, Hdiv by lia. lia. }
    assert (translate s1 (va + i) (Z.lor PTE_P PTE_W) = Some p) as ->.
    { rewrite (translate_same s1 (va + i)); [rewrite (translate_page (va + i) va); [done|lia..]| | |by rewrite Hs1|].
      - rewrite PML4_eq, Z.div_small by lia. done.
      - done.
      - intros t j [x Ht]. apply He. congruence. }
    eexists. split; [done|]. rewrite Hmod. split; [|split].
    + rewrite Hs1. by destruct s.
    + intros q j Hq. rewrite set_phys_byte_entry by done. by apply He.
    + intros o Ho. pose proof (Z.mod_pos_bound va PGSIZE ltac:(lia)). fold off in H.
      rewrite phys_byte_set, Hb, length_app by lia. cbn [length].
      destruct (decide (off + i = o)) as [<-|Hne].
      * rewrite (decide_True (P := p = p /\ _)) by done. rewrite decide_True by lia.
        f_equal. symmetry. apply nth_lookup_Some with (d := 0) in Hbi. rewrite <- Hbi. f_equal. lia.
      * rewrite (decide_False (P := p = p /\ _)) by naive_solver.
        repeat case_decide; (done || lia).
  - split; [by destruct s|]. split; [done|]. intros o Ho. rewrite decide_False; [done|]. cbn. lia.
  - exists s'. split; [done|]. split; [done|]. split; [done|]. intros o Ho. rewrite Hb by done.
    assert (length (zip (seqZ 0 n) bs) = length bs) as ->; [|done].
    rewrite length_zip_with, length_seqZ. lia.
Qed.
End Translate.

(** ** The page-fault upcall *)

Lemma utrapframe_length va tf : length (mjoin (bytes64 <$> utrapframe va tf)) = 160%nat.
Proof. done. Qed.

Lemma bytes64_range w : Forall (fun b => 0 <= b < 256) (bytes64 w).
Proof.
  unfold bytes64. apply Forall_forall. intros b Hb. apply list_elem_of_fmap in Hb as (i & -> & _).
  change 0xFF with (Z.ones 8). rewrite Z.land_ones by done. by apply Z.mod_pos_bound.
Qed.

Lemma utrapframe_byte va tf i : u8 (nth i (mjoin (bytes64 <$> utrapframe va tf)) 0) = nth i (mjoin (bytes64 <$> utrapframe va tf)) 0.
Proof.
  assert (Forall (fun b => 0 <= b < 256) (mjoin (bytes64 <$> utrapframe va tf))) as HF.
  { apply Forall_join, Forall_fmap, Forall_forall. intros w _. apply bytes64_range. }
  unfold u8. apply Z.mod_small. destruct (nth_in_or_default i (mjoin (bytes64 <$> utrapframe va tf)) 0) as [Hin| ->]; [|lia].
  rewrite Forall_forall in HF. by apply HF, list_elem_of_In.
Qed.

(** The frame is in the exception-stack page unless the stack overflows. *)
Lemma utexp_page rsp :
  UXSTACKTOP - PGSIZE <= utexp_of rsp ->
  utexp_of rsp / PGSIZE = UXSTACKTOP / PGSIZE - 1 /\ utexp_of rsp mod PGSIZE + UTrapframe_size <= PGSIZE /\
  utexp_of rsp + UTrapframe_size <= UXSTACKTOP.
Proof.
  intros Hlo. assert (utexp_of rsp + UTrapframe_size <= UXSTACKTOP) as Hhi.
  { unfold utexp_of in *. destruct (Z.leb_spec rsp (UXSTACKTOP - 1)); cbn [andb] in *; [|lia].
    destruct (Z.leb_spec (UXSTACKTOP - PGSIZE) rsp); [|lia].
    rewrite u64_small in * by (unfold UXSTACKTOP, PGSIZE, UTrapframe_size in *; lia). unfold UTrapframe_size. lia. }
  assert (utexp_of rsp / PGSIZE = UXSTACKTOP / PGSIZE - 1) as Hd.
  { symmetry. apply (Z.div_unique _ _ _ (utexp_of rsp - (UXSTACKTOP - PGSIZE))).
    - unfold UTrapframe_size in *. lia.
    - change (PGSIZE * (UXSTACKTOP / PGSIZE - 1)) with (UXSTACKTOP - PGSIZE). lia. }
  split_ands; [done| |done]. rewrite Z.mod_eq, Hd by done.
  change (PGSIZE * (UXSTACKTOP / PGSIZE - 1)) with (UXSTACKTOP - PGSIZE). lia.
Qed.

Lemma exc_stack_check k own l s r c p rsp :
  pt_inv k own l s -> own !! r = Some (r, []) -> PPN (cr3 s) = r -> env_pml4e (env_at s c) = kva r 0 ->
  translate s (UXSTACKTOP - PGSIZE) (Z.lor (Z.lor PTE_P PTE_W) PTE_U) = Some p ->
  UXSTACKTOP - PGSIZE <= utexp_of rsp ->
  user_mem_check c (utexp_of rsp) UTrapframe_size (Z.lor (Z.lor PTE_W PTE_U) PTE_U) s = Ret 0 s.
Proof.
  intros I Hr Hc Hpml Htr Hlo. destruct (utexp_page rsp Hlo) as (Hd & Hm & Hhi).
  assert (UXSTACKTOP = 0xef800000 /\ PGSIZE = 4096 /\ UTrapframe_size = 160) as (HU & HP & HT) by done.
  rewrite (user_mem_check_run k own l s r) by (done || lia).
  destruct (list_find _ _) as [[x i]|] eqn:Hf; [|done]. exfalso.
  apply list_find_Some in Hf as (Hi & Hbad & _). apply lookup_seqZ in Hi as [Hi Hx].
  assert ((utexp_of rsp + UTrapframe_size + PGSIZE - 1) / PGSIZE = utexp_of rsp / PGSIZE + 1) as Hend.
  { symmetry. apply (Z.div_unique _ _ _ (utexp_of rsp mod PGSIZE + UTrapframe_size - 1)).
    - pose proof (Z.mod_pos_bound (utexp_of rsp) PGSIZE). lia.
    - rewrite Z.mod_eq by lia. lia. }
  assert (i * PGSIZE = UXSTACKTOP - PGSIZE) as Hpg.
  { rewrite Hend in Hx. assert (i = UXSTACKTOP / PGSIZE - 1) as -> by lia. done. }
  unfold page_grants in Hbad. rewrite Hpg in Hbad.
  destruct (translate_pte k own l s r I Hr Hc (UXSTACKTOP - PGSIZE) (Z.lor (Z.lor PTE_P PTE_W) PTE_U) p ltac:(done) Htr) as [Hg _].
  change (Z.lor (Z.lor (Z.lor PTE_W PTE_U) PTE_U) PTE_P) with (Z.lor (Z.lor PTE_P PTE_W) PTE_U) in Hbad.
  by rewrite Hg, Z.eqb_refl in Hbad.
Qed.

Lemma mmu_walk_weaken s t js f g p :
  Z.land f g = g -> mmu_walk s t js f = Some p -> mmu_walk s t js g = Some p.
Proof.
  intros Hfg. revert t. induction js as [|j js IH]; intros t; [done|]. cbn.
  destruct (Z.eqb_spec (Z.land (entry s t j) f) f) as [He|]; [|done].
  assert (Z.land (entry s t j) g = g) as ->; [|rewrite Z.eqb_refl; apply IH].
  by rewrite <- Hfg, Z.land_assoc, He.
Qed.

(** Word [w] is in page [p] at offset [o], the least significant byte first. *)
Definition qword_at (s : kstate) (p o w : Z) : Prop :=
  forall i, 0 <= i < 8 -> phys_byte s p (o + i) = w / 2 ^ (8 * i) mod 256.

(** A [struct UTrapframe] (inc/trap.h) at offset [o] of page [p], for a fault at
    [va] with the registers [tf]. *)
Record fault_frame_at (s : kstate) (p o va : Z) (tf : Trapframe) : Prop := {
  ff_fault_va : qword_at s p o va;
  ff_err : qword_at s p (o + 8) (tf_err tf);
  ff_regs : let x := tf_regs tf in
    Forall2 (fun j w => qword_at s p (o + 16 + 8 * j) w) (seqZ 0 15)
      [reg_r15 x; reg_r14 x; reg_r13 x; reg_r12 x; reg_r11 x; reg_r10 x; reg_r9 x; reg_r8 x;
       reg_rsi x; reg_rdi x; reg_rbp x; reg_rdx x; reg_rcx x; reg_rbx x; reg_rax x];
  ff_rip : qword_at s p (o + 136) (tf_rip tf);
  ff_eflags : qword_at s p (o + 144) (tf_eflags tf);
  ff_rsp : qword_at s p (o + 152) (tf_rsp tf);
}.

Lemma utexp_of_eq rsp :
  utexp_of rsp = (if decide (UXSTACKTOP - PGSIZE <= rsp < UXSTACKTOP) then rsp - 8 - 160 else UXSTACKTOP - 160).
Proof.
  unfold utexp_of, UTrapframe_size. destruct (Z.leb_spec rsp (UXSTACKTOP - 1)), (Z.leb_spec (UXSTACKTOP - PGSIZE) rsp); cbn [andb];
    case_decide; try lia; try done. rewrite u64_small; unfold UXSTACKTOP, PGSIZE in *; lia.
Qed.

Lemma bytes_of_words ws n i w :
  ws !! n = Some w -> (i < 8)%nat -> nth (8 * n + i) (mjoin (bytes64 <$> ws)) 0 = w / 2 ^ (8 * Z.of_nat i) mod 256.
Proof.
  intros Hn Hi. revert n Hn. induction ws as [|w' ws IH]; intros n Hn; [done|].
  change (mjoin (bytes64 <$> w' :: ws)) with (bytes64 w' ++ mjoin (bytes64 <$> ws)).
  assert (length (bytes64 w') = 8%nat) as Hl by done. destruct n as [|n].
  - injection Hn as ->. rewrite app_nth1 by lia. change (8 * 0 + i)%nat with i.
    assert (nth i (bytes64 w) 0 = Z.land (Z.shiftr w (8 * Z.of_nat i)) 0xFF) as ->.
    { do 8 (destruct i as [|i]; [done|]). lia. }
    change 0xFF with (2 ^ 8 - 1). rewrite land_mask by done. by rewrite Z.shiftr_div_pow2 by lia.
  - rewrite app_nth2 by lia. replace (8 * S n + i - length (bytes64 w'))%nat with (8 * n + i)%nat by lia. by apply IH.
Qed.

Lemma fault_frame_bytes s p o va tf :
  (forall i, 0 <= i < UTrapframe_size -> phys_byte s p (o + i) = nth (Z.to_nat i) (mjoin (bytes64 <$> utrapframe va tf)) 0) ->
  fault_frame_at s p o va tf.
Proof.
  intros Hb.
  assert (forall n w, utrapframe va tf !! n = Some w -> qword_at s p (o + 8 * Z.of_nat n) w) as Hw.
  { intros n w Hn i Hi. pose proof (lookup_lt_Some _ _ _ Hn) as Hlen. change (length (utrapframe va tf)) with 20%nat in Hlen.
    rewrite <- Z.add_assoc, Hb by (unfold UTrapframe_size; lia).
    replace (Z.to_nat (8 * Z.of_nat n + i)) with (8 * n + Z.to_nat i)%nat by lia.
    rewrite (bytes_of_words _ _ _ w Hn) by lia. by rewrite Z2Nat.id by lia. }
  split.
  - replace o with (o + 8 * Z.of_nat 0) by lia. by apply Hw.
  - by apply (Hw 1%nat).
  - cbv zeta. repeat constructor;
      match goal with |- qword_at _ _ (_ + 16 + 8 * ?j) _ => replace (o + 16 + 8 * j) with (o + 8 * Z.of_nat (Z.to_nat j + 2)) by lia end;
      by apply Hw.
  - by apply (Hw 17%nat).
  - by apply (Hw 18%nat).
  - by apply (Hw 19%nat).
Qed.

Section Upcall.
Context `{!VmxHw, !ConsHw} (monitor : K unit).
Context (k : Z) (own : owners) (l : list Z) (r c p : Z).

(** The handler once the kernel has taken over: environment [c] is current and
    its saved frame is [tf]. *)
Lemma page_fault_handler_upcall s tf :
  pt_inv k own l s -> own !! r = Some (r, []) -> PPN (cr3 s) = r -> curenv s = Some c ->
  env_pml4e (env_at s c) = kva r 0 -> env_tf (env_at s c) = tf -> kernel_locked s = true ->
  Z.land (tf_cs tf) 3 = 3 -> env_pgfault_upcall (env_at s c) <> 0 ->
  translate s (UXSTACKTOP - PGSIZE) (Z.lor (Z.lor PTE_P PTE_W) PTE_U) = Some p ->
  UXSTACKTOP - PGSIZE <= utexp_of (tf_rsp tf) ->
  let utexp := utexp_of (tf_rsp tf) in
  exists s1 s', page_fault_handler (TfEnv c) s = NoRet s' /\
    s1 = set_mem (mem s1) s /\
    (forall q i, q <> p -> entry s1 q i = entry s q i) /\
    (forall o, 0 <= o -> phys_byte s1 p o =
      if decide (utexp mod PGSIZE <= o < utexp mod PGSIZE + UTrapframe_size)
      then nth (Z.to_nat (o - utexp mod PGSIZE)) (mjoin (bytes64 <$> utrapframe (cr2 s) tf)) 0 else phys_byte s p o) /\
    entered c (set_envs (<[c := set_env_tf (set_tf_rsp utexp (set_tf_rip (env_pgfault_upcall (env_at s c)) tf)) (env_at s c)]> (envs s)) s1) s'.
Proof.
  intros I Hr Hc3 Hcur Hpml Htf Hlk Hcs Hup Htr Hlo utexp. unfold page_fault_handler. msteps.
  unfold get_tf. msteps. rewrite Htf, Hcs. change (3 =? 0) with false. cbv iota.
  unfold with_curenv. msteps. rewrite Hcur. msteps.
  unfold nz. destruct (Z.eqb_spec (env_pgfault_upcall (env_at s c)) 0) as [|_]; [done|]. cbn [negb].
  unfold user_mem_assert. msteps.
  pose proof (exc_stack_check k own l s r c p (tf_rsp tf) I Hr Hc3 Hpml Htr Hlo) as Hchk.
  mrun Hchk. change (0 <? 0) with false. cbv iota. msteps. rewrite Htf. fold utexp.
  destruct (utexp_page _ Hlo) as (Hd & Hm & Hhi). fold utexp in Hd, Hm, Hhi, Hlo.
  destruct (vstore_run k own l s r I Hr Hc3 utexp (mjoin (bytes64 <$> utrapframe (cr2 s) tf)) p) as (s1 & Hst & Hs1 & He & Hb).
  1-3: rewrite ?utrapframe_length; unfold UXSTACKTOP, PGSIZE, UTrapframe_size in *; lia.
  { apply (mmu_walk_weaken s _ _ (Z.lor (Z.lor PTE_P PTE_W) PTE_U)); [done|].
    rewrite <- Htr. apply (translate_page k own l s r I Hr Hc3); [..|done].
    all: unfold UXSTACKTOP, PGSIZE, UTrapframe_size in *; lia. }
  exists s1. rewrite (bind_Ret _ _ _ _ _ Hst). msteps. unfold upd_tf. msteps.
  assert (env_at s1 c = env_at s c /\ envs s1 = envs s) as [Hat Henvs] by (by rewrite Hs1).
  match goal with |- context [bind (env_run c) _ ?x] => set (s2 := x) end.
  assert (s2 = set_envs (<[c := set_env_tf (set_tf_rsp utexp (set_tf_rip (env_pgfault_upcall (env_at s c)) tf)) (env_at s c)]> (envs s)) s1) as <-.
  { unfold s2. rewrite env_at_upd, decide_True by done. rewrite Hat, Henvs, Htf. cbn. by rewrite insert_insert_eq. }
  destruct (env_run_entered c s2) as (s' & Hrun & Hen); [unfold s2; by rewrite Hs1|].
  exists s'. rewrite (bind_NoRet _ _ _ _ Hrun). split_ands; try assumption; [reflexivity|].
  intros o Ho. rewrite Hb, utrapframe_length, utrapframe_byte by done. reflexivity.
Qed.

(** The handler entered through [trap], with the frame as bytes. *)
Lemma trap_upcall_bytes s tf :
  pt_inv k own l s -> own !! r = Some (r, []) -> PPN (cr3 s) = r -> curenv s = Some c ->
  env_pml4e (env_at s c) = kva r 0 -> env_status (env_at s c) = ENV_RUNNING ->
  cpu_status s = CPU_STARTED -> kernel_locked s = false ->
  Z.land (tf_cs tf) 3 = 3 -> tf_trapno tf = T_PGFLT -> env_pgfault_upcall (env_at s c) <> 0 ->
  translate s (UXSTACKTOP - PGSIZE) (Z.lor (Z.lor PTE_P PTE_W) PTE_U) = Some p ->
  UXSTACKTOP - PGSIZE <= utexp_of (tf_rsp tf) ->
  let utexp := utexp_of (tf_rsp tf) in
  exists s', trap monitor tf s = NoRet s' /\ curenv s' = Some c /\ env_status (env_at s' c) = ENV_RUNNING /\
    env_tf (env_at s' c) = set_tf_rsp utexp (set_tf_rip (env_pgfault_upcall (env_at s c)) tf) /\
    cr3 s' = env_cr3 (env_at s c) /\ kernel_locked s' = false /\
    (forall i, 0 <= i < UTrapframe_size ->
       phys_byte s' p (utexp mod PGSIZE + i) = nth (Z.to_nat i) (mjoin (bytes64 <$> utrapframe (cr2 s) tf)) 0) /\
    (forall q o, 0 <= o -> ~ (q = p /\ utexp mod PGSIZE <= o < utexp mod PGSIZE + UTrapframe_size) ->
       phys_byte s' q o = phys_byte s q o) /\
    same_tables own s s'.
Proof using All.
  intros I Hr Hc3 Hcur Hpml Hst Hcpu Hlk Hcs Hno Hup Htr Hlo utexp. unfold trap. msteps. rewrite Hcpu.
  change (CPU_STARTED =? CPU_HALTED) with false. cbv iota. msteps. rewrite Hcs. change (3 =? 3) with true. cbv iota.
  unfold lock_kernel. msteps. change (kernel_locked (set_cpu_status _ s)) with (kernel_locked s). rewrite Hlk. cbv iota.
  msteps. unfold with_curenv. msteps. change (curenv (set_kernel_locked _ _)) with (curenv s). rewrite Hcur. cbv iota. msteps.
  match goal with |- context [set_kernel_locked true ?x] => set (s0 := set_kernel_locked true x) end.
  change (env_at s0 c) with (env_at s c). rewrite Hst. change (ENV_RUNNING =? ENV_DYING) with false. cbv iota. msteps.
  change (curenv s0) with (curenv s). rewrite Hcur. cbv iota. msteps.
  match goal with |- context [bind (trap_dispatch _ _) _ ?x] => set (s1 := x) end.
  assert (env_at s1 c = set_env_tf tf (env_at s c)) as Hat1 by (unfold s1; rewrite env_at_upd; by case_decide).
  assert (trap_dispatch monitor (TfEnv c) s1 = page_fault_handler (TfEnv c) s1) as Hdisp.
  { unfold trap_dispatch, get_tf. msteps. rewrite Hat1. cbn [env_tf set_env_tf]. by rewrite Hno. }
  destruct (page_fault_handler_upcall s1 tf) as (s2 & s' & Hrun & Hs2 & He & Hb & Hen); try done.
  { by apply (pt_inv_same _ _ _ s). }
  1-3: by rewrite Hat1.
  rewrite <- Hdisp in Hrun. exists s'. rewrite (bind_NoRet _ _ _ _ Hrun).
  destruct Hen as [E1 E2 _ E4 E5 E6 _ _ [E9 _]].
  assert (forall q i, entry s' q i = entry s2 q i) as Hent by (intros; unfold entry; by rewrite E9).
  assert (forall q o, phys_byte s' q o = phys_byte s2 q o) as Hpb by (intros; unfold phys_byte; by rewrite Hent).
  assert (forall x m st, env_at (set_envs (<[c := x]> m) st) c = x) as Hset.
  { intros. unfold env_at. cbn. by rewrite lookup_insert_eq. }
  rewrite Hset, Hat1 in E4, E5.
  pose proof (Z.mod_pos_bound utexp PGSIZE ltac:(done)) as Hmod.
  split_ands; try assumption; try reflexivity.
  - intros i Hi. rewrite Hpb, Hb by lia. fold utexp. rewrite decide_True by lia. f_equal. lia.
  - intros q o Ho Hout. rewrite Hpb. destruct (decide (q = p)) as [->|Hq].
    + rewrite Hb by done. fold utexp. rewrite decide_False; [reflexivity|]. intros Hin. by apply Hout.
    + unfold phys_byte. rewrite He by done. reflexivity.
  - intros t i [x Ht]. rewrite Hent, He; [reflexivity|]. intros ->.
    destruct (translate_leaf k own l s r I Hr Hc3 (UXSTACKTOP - PGSIZE) (Z.lor (Z.lor PTE_P PTE_W) PTE_U) p) as [_ Hn]; [done..|congruence].
Qed.

(** C31: a page fault in user mode in a running environment that registered an
    upcall and mapped its exception stack writable: the kernel writes the
    fault address, the error code and the registers at the fault, in the order of
    [struct UTrapframe], to the exception stack, and nothing else, and resumes the
    same environment at the upcall with the stack pointer at the frame; the page
    tables are unchanged. The 160 bytes go to the top of the exception stack, or,
    when the fault is itself on the exception stack, below the stack pointer of
    the fault and one scratch word; they must still fit the page of the stack. *)
Theorem page_fault_upcall s tf utexp :
  pt_inv k own l s -> own !! r = Some (r, []) -> PPN (cr3 s) = r -> curenv s = Some c ->
  env_pml4e (env_at s c) = kva r 0 -> env_status (env_at s c) = ENV_RUNNING ->
  cpu_status s = CPU_STARTED -> kernel_locked s = false ->
  Z.land (tf_cs tf) 3 = 3 -> tf_trapno tf = T_PGFLT -> env_pgfault_upcall (env_at s c) <> 0 ->
  translate s (UXSTACKTOP - PGSIZE) (Z.lor (Z.lor PTE_P PTE_W) PTE_U) = Some p ->
  utexp = (if decide (UXSTACKTOP - PGSIZE <= tf_rsp tf < UXSTACKTOP) then tf_rsp tf - 8 - 160 else UXSTACKTOP - 160) ->
  UXSTACKTOP - PGSIZE <= utexp ->
  exists s', trap monitor tf s = NoRet s' /\ curenv s' = Some c /\ env_status (env_at s' c) = ENV_RUNNING /\
    env_tf (env_at s' c) = set_tf_rsp utexp (set_tf_rip (env_pgfault_upcall (env_at s c)) tf) /\
    cr3 s' = env_cr3 (env_at s c) /\ kernel_locked s' = false /\
    fault_frame_at s' p (utexp mod PGSIZE) (cr2 s) tf /\
    (forall q o, 0 <= o -> ~ (q = p /\ utexp mod PGSIZE <= o < utexp mod PGSIZE + 160) ->
       phys_byte s' q o = phys_byte s q o) /\
    same_tables own s s'.
Proof using All.
  intros I Hr Hc3 Hcur Hpml Hst Hcpu Hlk Hcs Hno Hup Htr Hu Hlo. rewrite <- utexp_of_eq in Hu. subst utexp.
  destruct (trap_upcall_bytes s tf I Hr Hc3 Hcur Hpml Hst Hcpu Hlk Hcs Hno Hup Htr Hlo)
    as (s' & H1 & H2 & H3 & H4 & H5 & H6 & Hb & H8 & H9).
  exists s'. split; [done|]. split; [done|]. split; [done|]. split; [done|]. split; [done|]. split; [done|].
  split; [by apply fault_frame_bytes|done].
Qed.
End Upcall.

(** Environment 0 running with page 11 as its exception stack. *)
Definition fault_machine : kstate :=
  match page_insert (kva 10 0) 11 (UXSTACKTOP - PGSIZE) (Z.lor (Z.lor PTE_U PTE_P) PTE_W) demo with
  | Ret _ s =>
      set_envs {[ 0 := set_env_pgfault_upcall 0x800100 (set_env_status ENV_RUNNING
                  (set_env_cr3 (10 * PGSIZE) (set_env_pml4e (kva 10 0) Env0))) ]}
        (set_curenv (Some 0) (set_kernel_locked false (set_cr3 (10 * PGSIZE) (set_cr2 0xdeadbeef s))))
  | _ => demo
  end.
#[local] Instance no_console : ConsHw := {| kbd_input := []; serial_input := [] |}.
Definition fault_frame : Trapframe :=
  set_tf_rsp (UXSTACKTOP - 1000) (set_tf_cs 27 (set_tf_trapno T_PGFLT (env_tf Env0))).

Lemma page_fault_upcall_witness :
  let s := fault_machine in let tf := fault_frame in
  let utexp := UXSTACKTOP - 1168 in
  exists own l s', pt_inv 10 own l s /\ @trap no_vmx no_console (ret tt) tf s = NoRet s' /\ curenv s' = Some 0 /\ env_status (env_at s' 0) = ENV_RUNNING /\
    env_tf (env_at s' 0) = set_tf_rsp utexp (set_tf_rip 0x800100 tf) /\
    cr3 s' = 10 * PGSIZE /\ kernel_locked s' = false /\
    fault_frame_at s' 11 (utexp mod PGSIZE) (cr2 s) tf /\
    (forall q o, 0 <= o -> ~ (q = 11 /\ utexp mod PGSIZE <= o < utexp mod PGSIZE + 160) ->
       phys_byte s' q o = phys_byte s q o) /\
    same_tables own s s'.
Proof.
  intros s tf utexp.
  assert (11 ∉ demo_free) as Hfree by (apply (bool_decide_unpack _); reflexivity).
  assert (0 <= Z.lor (Z.lor PTE_U PTE_P) PTE_W < PGSIZE) as Hperm by (vm_compute; split; [discriminate|reflexivity]).
  destruct (page_insert_run 10 demo_own demo_free demo 10 (UXSTACKTOP - PGSIZE) 11 (Z.lor (Z.lor PTE_U PTE_P) PTE_W)
    demo_inv eq_refl eq_refl (conj eq_refl eq_refl) eq_refl Hfree eq_refl Hperm)
    as [(s1 & _ & _ & _ & _ & Hl)|(s1 & own & l & Hrun & Hin & _)]; [cbn in Hl; lia|].
  exists own, l. assert (pt_inv 10 own l s) as I.
  { apply (pt_inv_same _ _ _ s1); [..|apply (in_inv _ _ _ _ _ _ _ _ _ _ Hin)]; unfold s, fault_machine; rewrite Hrun; reflexivity. }
  assert (own !! 10 = Some (10, [])) as Hr.
  { apply (lookup_weaken demo_own); [reflexivity|apply (in_own _ _ _ _ _ _ _ _ _ _ Hin)]. }
  destruct (@page_fault_upcall no_vmx no_console (ret tt) 10 own l 10 0 11 s tf utexp I Hr) as (s' & Hres).
  1-12: vm_compute; (reflexivity || discriminate).
  exists s'. split; [exact I|exact Hres].
Defined.
