(* ===== verification/User.v ===== *)
(** User programs: memory accesses in user mode through the current page tables,
    the system call stubs of lib/syscall.c, and the page tables as lib/entry.S
    shows them to user code ([uvpt], [uvpd], [uvpde], [uvpml4e]). *)

From S2P Require Import Prelude Kernel PageAlloc PageTable PageTableInv PageTableSpec PageTableProps.
From S2P Require Import Mmu Ept Vmx Env EnvProps SchedProps Syscall SyscallProps.

(** ** Accesses in user mode

    An access needs [PTE_U] at every level, a store [PTE_W] too.  One that the
    tables refuse is a page fault; an access the program itself can recover
    from is modelled with its handler where the program has one. *)
Definition PTE_UR : Z := Z.lor PTE_P PTE_U.

Definition uload8 (va : Z) : K Z :=
  let! t := gets (fun s => translate s va PTE_UR) in
  match t with
  | Some p => gets (fun s => phys_byte s p (va mod PGSIZE))
  | None => panic "page fault in user mode"
  end.

Definition ustore8 (va b : Z) : K unit :=
  let! t := gets (fun s => translate s va PTE_PWU) in
  match t with
  | Some p => modify (set_phys_byte p (va mod PGSIZE) b)
  | None => panic "page fault in user mode"
  end.

(** An aligned word. *)
Definition uload64 (va : Z) : K Z :=
  let! t := gets (fun s => translate s va PTE_UR) in
  match t with
  | Some p => gets (fun s => entry s p (va mod PGSIZE / 8))
  | None => panic "page fault in user mode"
  end.

(** [memmove] of disjoint blocks. *)
Definition umemcpy (dst src n : Z) : K unit :=
  forM (seqZ 0 n) (fun i => let! b := uload8 (u64 (src + i)) in ustore8 (u64 (dst + i)) b).

(** lib/entry.S *)
Definition uvpt_base : Z := UVPT.
Definition uvpd_base : Z := uvpt_base + 0x80000000.
Definition uvpde_base : Z := uvpd_base + 0x400000.
Definition uvpml4e_base : Z := uvpde_base + 0x2000.

Definition uvpt (pn : Z) : K Z := uload64 (u64 (uvpt_base + 8 * pn)).
Definition uvpd (n : Z) : K Z := uload64 (u64 (uvpd_base + 8 * n)).
Definition uvpde (n : Z) : K Z := uload64 (u64 (uvpde_base + 8 * n)).
Definition uvpml4e (n : Z) : K Z := uload64 (u64 (uvpml4e_base + 8 * n)).

(** inc/mmu.h *)
Definition VPD (la : Z) : Z := Z.shiftr la 21.
Definition VPML4E (la : Z) : Z := Z.shiftr la 39.

(** ** System call stubs *)
Section Stubs.
Context {hw : VmxHw}.

Definition usyscall (num : Z) (check : bool) (a1 a2 a3 a4 a5 : Z) : K Z :=
  let! r := syscall num (u64 a1) (u64 a2) (u64 a3) (u64 a4) (u64 a5) in
  if check && (0 <? r) then panic "syscall returned > 0" else ret r.

(** The stubs that return an [int] drop the upper half of the result. *)
Definition usyscall_int (num : Z) (check : bool) (a1 a2 a3 a4 a5 : Z) : K Z :=
  let! r := usyscall num check a1 a2 a3 a4 a5 in ret (s32 r).

Definition usys_cputs (s len : Z) : K unit := do! usyscall SYS_cputs false s len 0 0 0 ;; ret tt.
Definition usys_cgetc : K Z := usyscall_int SYS_cgetc false 0 0 0 0 0.
Definition usys_env_destroy (envid : Z) : K Z := usyscall_int SYS_env_destroy true envid 0 0 0 0.
Definition usys_getenvid : K Z := usyscall_int SYS_getenvid false 0 0 0 0 0.
Definition usys_yield : K unit := do! usyscall SYS_yield false 0 0 0 0 0 ;; ret tt.
Definition usys_page_alloc (envid va perm : Z) : K Z := usyscall_int SYS_page_alloc true envid va perm 0 0.
Definition usys_page_map (srcenv srcva dstenv dstva perm : Z) : K Z :=
  usyscall_int SYS_page_map true srcenv srcva dstenv dstva perm.
Definition usys_page_unmap (envid va : Z) : K Z := usyscall_int SYS_page_unmap true envid va 0 0 0.
Definition usys_env_set_status (envid status : Z) : K Z := usyscall_int SYS_env_set_status true envid status 0 0 0.
Definition usys_env_set_trapframe (envid tf : Z) : K Z := usyscall_int SYS_env_set_trapframe true envid tf 0 0 0.
Definition usys_env_set_pgfault_upcall (envid upcall : Z) : K Z :=
  usyscall_int SYS_env_set_pgfault_upcall true envid upcall 0 0 0.
Definition usys_ipc_try_send (envid value srcva perm : Z) : K Z :=
  usyscall_int SYS_ipc_try_send false envid value srcva perm 0.
Definition usys_ipc_recv (dstva : Z) : K Z := usyscall_int SYS_ipc_recv true dstva 0 0 0 0.
Definition usys_time_msec : K Z := let! r := usyscall SYS_time_msec false 0 0 0 0 0 in ret (u32 r).
Definition usys_ept_map (srcenvid srcva guest guest_pa perm : Z) : K Z :=
  usyscall_int SYS_ept_map false srcenvid srcva guest guest_pa perm.
Definition usys_env_mkguest (gphysz gRIP : Z) : K Z := usyscall_int SYS_env_mkguest false gphysz gRIP 0 0 0.

(** inlined in inc/lib.h *)
Definition usys_exofork : K Z := syscall SYS_exofork 0 0 0 0 0.

(** ** The stubs reach the kernel's functions *)

Definition int32 (x : Z) : Prop := - 2 ^ 31 <= x < 2 ^ 31.

Lemma s32_u64 x : int32 x -> s32 (u64 x) = x.
Proof.
  unfold int32, s32, u64. intros H. rewrite <- (Z.mod_add (x mod 2 ^ 64 + 2 ^ 31) (x / 2 ^ 64 * 2 ^ 32)) by done.
  replace (x mod 2 ^ 64 + 2 ^ 31 + x / 2 ^ 64 * 2 ^ 32 * 2 ^ 32) with (x + 2 ^ 31) by (pose proof (Z.div_mod x (2 ^ 64)); lia).
  rewrite Z.mod_small; lia.
Qed.

Lemma usyscall_Ret num check a1 a2 a3 a4 a5 s r s' :
  syscall num (u64 a1) (u64 a2) (u64 a3) (u64 a4) (u64 a5) s = Ret r s' -> - 2 ^ 31 <= r <= 0 ->
  usyscall_int num check a1 a2 a3 a4 a5 s = Ret r s'.
Proof.
  intros H Hr. unfold usyscall_int. rewrite (bind_Ret _ _ s r s'); [by rewrite s32_small by lia|].
  unfold usyscall. rewrite (bind_Ret _ _ _ _ _ H). destruct (Z.ltb_spec 0 r); [lia|]. by rewrite andb_false_r.
Qed.

Lemma usys_page_alloc_Ret envid va perm s r s' :
  int32 envid -> int32 perm -> 0 <= va < 2 ^ 64 -> - 2 ^ 31 <= r <= 0 -> sys_page_alloc envid va perm s = Ret r s' ->
  usys_page_alloc envid va perm s = Ret r s'.
Proof.
  intros H1 H2 H3 Hr H. apply usyscall_Ret; [|done].
  change (sys_page_alloc (s32 (u64 envid)) (u64 va) (s32 (u64 perm)) s = Ret r s').
  by rewrite !s32_u64, (u64_small va).
Qed.

Lemma usys_page_map_Ret srcid srcva dstid dstva perm s r s' :
  int32 srcid -> int32 dstid -> int32 perm -> 0 <= srcva < 2 ^ 64 -> 0 <= dstva < 2 ^ 64 -> - 2 ^ 31 <= r <= 0 ->
  sys_page_map srcid srcva dstid dstva perm s = Ret r s' ->
  usys_page_map srcid srcva dstid dstva perm s = Ret r s'.
Proof.
  intros H1 H2 H3 H4 H5 Hr H. apply usyscall_Ret; [|done].
  change (sys_page_map (s32 (u64 srcid)) (u64 srcva) (s32 (u64 dstid)) (u64 dstva) (s32 (u64 perm)) s = Ret r s').
  by rewrite !s32_u64, (u64_small srcva), (u64_small dstva).
Qed.

Lemma usys_page_unmap_Ret envid va s r s' :
  int32 envid -> 0 <= va < 2 ^ 64 -> - 2 ^ 31 <= r <= 0 -> sys_page_unmap envid va s = Ret r s' ->
  usys_page_unmap envid va s = Ret r s'.
Proof.
  intros H1 H2 Hr H. apply usyscall_Ret; [|done].
  change (sys_page_unmap (s32 (u64 envid)) (u64 va) s = Ret r s'). by rewrite s32_u64, (u64_small va).
Qed.
End Stubs.

(** ** What the processor sees *)

Lemma u64_add8 base n : 0 <= base -> 0 <= n -> base + 8 * n < 2 ^ 64 -> u64 (base + 8 * n) = base + 8 * n.
Proof. intros. apply u64_small. lia. Qed.

(** The addresses of the page tables go through slot 2 of the top-level table. *)
Lemma uvpt_idx pn : 0 <= pn < 2 ^ 27 ->
  va_idx (uvpt_base + 8 * pn) = 2 :: va_path (pn * PGSIZE) /\
  (uvpt_base + 8 * pn) mod PGSIZE / 8 = PTX (pn * PGSIZE).
Proof.
  intros H. unfold va_idx, va_path, uvpt_base, UVPT, PGSIZE. rewrite !PML4_eq, !PDPE_eq, !PDX_eq, !PTX_eq.
  split; [f_equal; [|f_equal; [|f_equal; [|f_equal]]]|]; Z.to_euclidean_division_equations; lia.
Qed.

Lemma uvpd_idx n : 0 <= n < 2 ^ 18 ->
  va_idx (uvpd_base + 8 * n) = [2; 2; 0; n / 512] /\ (uvpd_base + 8 * n) mod PGSIZE / 8 = n mod 512.
Proof.
  intros H. unfold va_idx, uvpd_base, uvpt_base, UVPT, PGSIZE. rewrite !PML4_eq, !PDPE_eq, !PDX_eq, !PTX_eq.
  split; [f_equal; [|f_equal; [|f_equal; [|f_equal]]]|]; Z.to_euclidean_division_equations; lia.
Qed.

Lemma uvpde_idx n : 0 <= n < 512 ->
  va_idx (uvpde_base + 8 * n) = [2; 2; 2; 0] /\ (uvpde_base + 8 * n) mod PGSIZE / 8 = n.
Proof.
  intros H. unfold va_idx, uvpde_base, uvpd_base, uvpt_base, UVPT, PGSIZE. rewrite !PML4_eq, !PDPE_eq, !PDX_eq, !PTX_eq.
  split; [f_equal; [|f_equal; [|f_equal; [|f_equal]]]|]; Z.to_euclidean_division_equations; lia.
Qed.

Lemma uvpml4e_idx n : 0 <= n < 512 ->
  va_idx (uvpml4e_base + 8 * n) = [2; 2; 2; 2] /\ (uvpml4e_base + 8 * n) mod PGSIZE / 8 = n.
Proof.
  intros H. unfold va_idx, uvpml4e_base, uvpde_base, uvpd_base, uvpt_base, UVPT, PGSIZE.
  rewrite !PML4_eq, !PDPE_eq, !PDX_eq, !PTX_eq.
  split; [f_equal; [|f_equal; [|f_equal; [|f_equal]]]|]; Z.to_euclidean_division_equations; lia.
Qed.

(** Environment [c] is running in the address space [r]. *)
Record running (own : owners) (s : kstate) (c r : Z) : Prop := {
  ru_cur : curenv s = Some c;
  ru_cr3 : PPN (cr3 s) = r;
  ru_pml4 : env_pml4e (env_at s c) = kva r 0;
  ru_own : own !! r = Some (r, []);
  ru_self : entry s r 2 = r * PGSIZE + PTE_UR;
}.

Section Running.
Context (k : Z) (own : owners) (l : list Z) (s : kstate) (c r : Z).
Context (I : pt_inv k own l s) (R : running own s c r).

Lemma walk_self js : mmu_walk s r (2 :: js) PTE_UR = mmu_walk s r js PTE_UR.
Proof using R.
  cbn [mmu_walk]. rewrite (ru_self _ _ _ _ R), land_page, PPN_add by done. by rewrite Z.eqb_refl.
Qed.

Lemma user_walk js f :
  (length js <= 3)%nat -> idx_ok js -> head js = Some 0 -> f <> 0 -> Z.land PTE_PWU f = f ->
  mmu_walk s r js f = descend s r js.
Proof using I R.
  intros Hlen Hidx Hh Hf Hsub. apply (mmu_walk_path k own l s r r []); try done; [apply (ru_own _ _ _ _ R)|].
  intros j js' ->. cbn in *. left. congruence.
Qed.

(** The entry of the page of [va] decides every user access to it. *)
Lemma translate_user va f :
  PML4 va = 0 -> f <> 0 -> Z.land PTE_PWU f = f ->
  translate s va f = if Z.land (pte_of s r va) f =? f then Some (PPN (pte_of s r va)) else None.
Proof using I R.
  intros Hva Hf Hsub. unfold translate. rewrite (ru_cr3 _ _ _ _ R), va_idx_path, mmu_walk_app, pte_of_descend.
  rewrite user_walk; [|done|apply va_path_ok|cbn; by rewrite Hva|done|done].
  destruct (descend s r (va_path va)) as [u|]; [done|]. rewrite Z.land_0_l. by destruct (Z.eqb_spec 0 f).
Qed.

Lemma uload64_run va t i :
  0 <= va < 2 ^ 64 -> mmu_walk s r (va_idx va) PTE_UR = Some t -> va mod PGSIZE / 8 = i ->
  uload64 (u64 va) s = Ret (entry s t i) s.
Proof using R.
  intros Hva Hw Hi. rewrite u64_small by done. unfold uload64. msteps. unfold translate.
  rewrite (ru_cr3 _ _ _ _ R), Hw, Hi. done.
Qed.

(** [uvpt] shows the entry of a page whose page table exists. *)
Lemma uvpt_run pn u :
  0 <= pn < 2 ^ 27 -> descend s r (va_path (pn * PGSIZE)) = Some u ->
  uvpt pn s = Ret (pte_of s r (pn * PGSIZE)) s.
Proof using I R.
  intros Hpn Hd. destruct (uvpt_idx pn Hpn) as [Hi Ho].
  assert (PML4 (pn * PGSIZE) = 0) as H4 by (rewrite PML4_eq, Z.div_small by (unfold PGSIZE; lia); done).
  rewrite pte_of_descend, Hd. unfold uvpt. apply uload64_run; [unfold uvpt_base, UVPT; lia| |done].
  rewrite Hi, walk_self, user_walk; [done|done|apply va_path_ok|cbn; by rewrite H4|done|done].
Qed.

Lemma uvpd_run n t :
  0 <= n < 2 ^ 18 -> descend s r [0; n / 512] = Some t -> uvpd n s = Ret (entry s t (n mod 512)) s.
Proof using I R.
  intros Hn Hd. destruct (uvpd_idx n Hn) as [Hi Ho]. unfold uvpd.
  apply uload64_run; [unfold uvpd_base, uvpt_base, UVPT; lia| |done].
  rewrite Hi, !walk_self, user_walk; try done; [cbn; lia|].
  unfold idx_ok. rewrite !Forall_cons. split_ands; try done; Z.to_euclidean_division_equations; lia.
Qed.

Lemma uvpde_run n t :
  0 <= n < 512 -> descend s r [0] = Some t -> uvpde n s = Ret (entry s t n) s.
Proof using I R.
  intros Hn Hd. destruct (uvpde_idx n Hn) as [Hi Ho]. unfold uvpde.
  apply uload64_run; [unfold uvpde_base, uvpd_base, uvpt_base, UVPT; lia| |done].
  rewrite Hi, !walk_self, user_walk; try done; [cbn; lia|]. unfold idx_ok. rewrite !Forall_cons. by split_ands.
Qed.

Lemma uvpml4e_run n : 0 <= n < 512 -> uvpml4e n s = Ret (entry s r n) s.
Proof using I R.
  intros Hn. destruct (uvpml4e_idx n Hn) as [Hi Ho]. unfold uvpml4e.
  apply uload64_run; [unfold uvpml4e_base, uvpde_base, uvpd_base, uvpt_base, UVPT; lia| |done].
  by rewrite Hi, !walk_self.
Qed.
End Running.
