(* ===== verification/Fork.v ===== *)
(** Copy-on-write fork in user space: lib/fork.c and lib/pgfault.c. *)

From S2P Require Import Prelude Kernel PageAlloc PageTable PageTableInv Mmu Ept Vmx Env Syscall User.

Definition PTE_COW : Z := 0x800.
Definition PTE_SHARE : Z := 0x400.
Definition UTEMP : Z := 2 * PTSIZE.
Definition PFTEMP : Z := UTEMP + PTSIZE - PGSIZE.
Notation FEC_WR := 0x2 (only parsing).

Section Fork.
Context {hw : VmxHw}.

(** The address of [_pgfault_upcall] in lib/pfentry.S. *)
Context (_pgfault_upcall : Z).

(** The handler, for a fault at [fault_va] with error code [err]. *)
Definition pgfault (fault_va err : Z) : K unit :=
  let addr := fault_va in
  let! entry := uvpt (VPN addr) in
  let! cow :=
    (if nz (Z.land err FEC_WR) then let! e := uvpt (VPN addr) in ret (nz (Z.land e PTE_COW)) else ret false) in
  if cow then
    let! r := usys_page_alloc 0 PFTEMP (Z.lor (Z.lor PTE_U PTE_P) PTE_W) in
    if r =? 0 then
      let pg_addr := ROUNDDOWN addr PGSIZE in
      do! umemcpy PFTEMP pg_addr PGSIZE ;;
      let! r := usys_page_map 0 PFTEMP 0 pg_addr (Z.lor (Z.lor PTE_U PTE_W) PTE_P) in
      if r <? 0 then panic "pgfault...something wrong with page_map"
      else
        let! r := usys_page_unmap 0 PFTEMP in
        if r <? 0 then panic "pgfault...something wrong with page_unmap" else ret tt
    else panic "pgfault...something wrong with page_alloc"
  else panic "pgfault...wrong error".

(** [handler_set] says whether [_pgfault_handler] is set; afterwards it is. *)
Definition set_pgfault_handler (handler_set : bool) : K unit :=
  if negb handler_set then
    let! r := usys_page_alloc 0 (UXSTACKTOP - PGSIZE) (Z.lor (Z.lor PTE_W PTE_U) PTE_P) in
    if r =? 0 then
      do! usys_env_set_pgfault_upcall 0 _pgfault_upcall ;;
      ret tt
    else panic "set_pgfault_handler no memory"
  else ret tt.

Definition dup_panic (r : Z) : K unit := if r <? 0 then panic "Something went wrong on duppage" else ret tt.

Definition duppage (envid pn : Z) : K Z :=
  let! entry := uvpt pn in
  let addr := pn * PGSIZE in
  let perm := Z.land entry PTE_SYSCALL in
  if nz (Z.land perm PTE_SHARE) then
    let! r := usys_page_map 0 addr envid addr perm in
    do! dup_panic r ;;
    ret 0
  else if nz (Z.land perm PTE_COW) || nz (Z.land perm PTE_W) then
    let perm := Z.lor (Z.land perm (Z.lnot PTE_W)) PTE_COW in
    let! r := usys_page_map 0 addr envid addr perm in
    do! dup_panic r ;;
    let! r := usys_page_map 0 addr 0 addr perm in
    do! dup_panic r ;;
    ret 0
  else
    let! r := usys_page_map 0 addr envid addr perm in
    do! dup_panic r ;;
    ret 0.

Definition fork_panic (r : Z) : K unit := if r <? 0 then panic "couldn't call fork" else ret tt.

(** The four nested loops; the counters [each_pdpe], [each_pde] and [each_pte]
    index the page tables seen as arrays. *)
Definition fork_pte (childid each_pte : Z) (_ : Z) : K Z :=
  let! e := uvpt each_pte in
  do! (if nz (Z.land e PTE_P) then
         if negb (each_pte =? VPN (UXSTACKTOP - PGSIZE)) then
           let! r := duppage childid (u32 each_pte) in
           fork_panic r
         else ret tt
       else ret tt) ;;
  ret (each_pte + 1).

Definition fork_pde (childid : Z) (st : Z * Z) (_ : Z) : K (Z * Z) :=
  let '(each_pde, each_pte) := st in
  let! e := uvpd each_pde in
  let! each_pte :=
    (if nz (Z.land e PTE_P) then foldM (seqZ 0 NPTENTRIES) each_pte (fork_pte childid)
     else ret ((each_pde + 1) * NPTENTRIES)) in
  ret (each_pde + 1, each_pte).

Definition fork_pdpe (childid : Z) (st : Z * Z * Z) (_ : Z) : K (Z * Z * Z) :=
  let '(each_pdpe, each_pde, each_pte) := st in
  let! e := uvpde each_pdpe in
  let! st :=
    (if nz (Z.land e PTE_P) then foldM (seqZ 0 NPDENTRIES) (each_pde, each_pte) (fork_pde childid)
     else ret ((each_pdpe + 1) * NPDENTRIES, each_pte)) in
  ret (each_pdpe + 1, st.1, st.2).

Definition fork_pml4e (childid : Z) (st : Z * Z * Z) (pml : Z) : K (Z * Z * Z) :=
  let '(each_pdpe, each_pde, each_pte) := st in
  let! e := uvpml4e pml in
  if nz (Z.land e PTE_P) then foldM (seqZ 0 NPDPENTRIES) (each_pdpe, each_pde, each_pte) (fork_pdpe childid)
  else ret ((pml + 1) * NPDPENTRIES, each_pde, each_pte).

(** What the parent executes; the child starts with result 0 and only sets its
    [thisenv]. *)
Definition fork (handler_set : bool) : K Z :=
  do! set_pgfault_handler handler_set ;;
  let! childid := usys_exofork in
  let childid := s32 childid in
  if childid <? 0 then panic "couldn't call fork"
  else if childid =? 0 then
    let! _ := usys_getenvid in
    ret 0
  else
    let! r := usys_page_alloc childid (UXSTACKTOP - PGSIZE) (Z.lor (Z.lor PTE_P PTE_W) PTE_U) in
    do! fork_panic r ;;
    do! foldM (seqZ 0 (VPML4E UTOP)) (0, 0, 0) (fork_pml4e childid) ;;
    let! r := usys_env_set_pgfault_upcall childid _pgfault_upcall in
    do! fork_panic r ;;
    let! r := usys_env_set_status childid ENV_RUNNABLE in
    do! fork_panic r ;;
    ret childid.

Definition sfork : K Z := panic "sfork not implemented".
End Fork.
