(* ===== verification/CowProps.v ===== *)
(** Copy-on-write, lib/fork.c: a fault on a shared page gives the faulting
    environment a private copy and nobody else sees it ([pgfault]); duplicating
    a page shares it without giving anyone write access ([duppage]). *)

From S2P Require Import Prelude Kernel PageAlloc PageTable PageTableInv PageTableSpec PageTableProps.
From S2P Require Import Mmu Ept Vmx Env EnvProps SchedProps Syscall SyscallProps Trap TrapProps User Fork.

(** ** The handler *)

(** Environments and their tables across memory management. *)
Lemma running_mm own own' s s' c r :
  running own s c r -> mm_only s s' -> own ⊆ own' -> entry s' r 2 = entry s r 2 -> running own' s' c r.
Proof.
  intros [R1 R2 R3 R4 R5] Hmm Hsub He. split.
  - by rewrite (mm_only_curenv _ _ Hmm).
  - by rewrite Hmm.
  - unfold env_at. by rewrite (mm_only_envs _ _ Hmm).
  - by eapply lookup_weaken.
  - by rewrite He.
Qed.

Lemma running_self_nz own s c r : running own s c r -> 0 <= r -> entry s r 2 <> 0.
Proof. intros R Hr. rewrite (ru_self _ _ _ _ R). change PTE_UR with 5. unfold PGSIZE. lia. Qed.

Lemma running_inserted k own own' l l' s s' r va v c r0 :
  pt_inv k own l s -> running own s c r0 -> inserted k own own' l l' s s' r va v -> running own' s' c r0.
Proof.
  intros I R Hin. apply (running_mm own own' s s' c r0 R).
  - apply (in_mm _ _ _ _ _ _ _ _ _ _ Hin).
  - apply (in_own _ _ _ _ _ _ _ _ _ _ Hin).
  - pose proof (ru_own _ _ _ _ R) as Ho. apply (in_keep _ _ _ _ _ _ _ _ _ _ Hin _ _ r0 []); [done|cbn; lia|].
    apply (running_self_nz own s c r0 R). apply (pi_tab _ _ _ _ I _ _ _ Ho).
Qed.

(** Copying a page with user accesses. *)
Lemma umemcpy_page_run k own l s c r dst src p q :
  pt_inv k own l s -> running own s c r -> own !! p = None -> p <> q ->
  0 <= src < 2 ^ 39 -> src mod PGSIZE = 0 -> 0 <= dst < 2 ^ 39 -> dst mod PGSIZE = 0 ->
  translate s src PTE_UR = Some q -> translate s dst PTE_PWU = Some p ->
  exists s', umemcpy dst src PGSIZE s = Ret tt s' /\ s' = set_mem (mem s') s /\
    (forall t i, t <> p -> entry s' t i = entry s t i) /\
    forall o, 0 <= o < PGSIZE -> phys_byte s' p o = phys_byte s q o.
Proof.
  intros I R Hp Hpq Hsrc Hsa Hdst Hda Hts Htd. unfold umemcpy. assert (PGSIZE = 4096) as HPG by done.
  pose proof (ru_own _ _ _ _ R) as Hr. pose proof (ru_cr3 _ _ _ _ R) as Hc.
  assert (forall va, 0 <= va < 2 ^ 39 -> va mod PGSIZE = 0 -> forall i, 0 <= i < PGSIZE ->
    0 <= va + i < 2 ^ 39 /\ (va + i) mod PGSIZE = i /\ (va + i) / PGSIZE = va / PGSIZE /\ u64 (va + i) = va + i /\ PML4 (va + i) = 0)
    as Hpage.
  { intros va Hva Ha i Hi. assert (0 <= va + i < 2 ^ 39) as Hr1 by (Z.to_euclidean_division_equations; lia).
    split_ands; try lia; [..|rewrite u64_small by lia; done|rewrite PML4_eq, Z.div_small by lia; done];
      Z.to_euclidean_division_equations; lia. }
  destruct (forM_inv (fun pre s' => s' = set_mem (mem s') s /\ (forall t i, t <> p -> entry s' t i = entry s t i) /\
      forall o, 0 <= o < Z.of_nat (length pre) -> phys_byte s' p o = phys_byte s q o) (seqZ 0 PGSIZE)
      (fun i => let! b := uload8 (u64 (src + i)) in ustore8 (u64 (dst + i)) b) s) as (s' & Hrun & H1 & H2 & H3).
  - intros pre x post s1 Hl (Hs1 & He & Hb). destruct (seqZ_split _ _ _ _ _ Hl) as [Hx Hlt].
    rewrite Z.add_0_l in Hx. set (i := Z.of_nat (length pre)) in *. subst x.
    destruct (Hpage src Hsrc Hsa i ltac:(lia)) as (S1 & S2 & S3 & S4 & S5).
    destruct (Hpage dst Hdst Hda i ltac:(lia)) as (D1 & D2 & D3 & D4 & D5).
    assert (same_tables own s s1) as Hst by (intros t j [x Ht]; apply He; congruence).
    assert (cr3 s1 = cr3 s) as Hc1 by (by rewrite Hs1).
    rewrite S4, D4. unfold uload8, ustore8. msteps.
    rewrite (translate_same k own l s r I Hr Hc s1 (src + i) PTE_UR S5 ltac:(done) Hc1 Hst).
    rewrite (translate_page k own l s r I Hr Hc (src + i) src) by (done || lia). rewrite Hts. msteps.
    rewrite (translate_same k own l s r I Hr Hc s1 (dst + i) PTE_PWU D5 ltac:(done) Hc1 Hst).
    rewrite (translate_page k own l s r I Hr Hc (dst + i) dst) by (done || lia). rewrite Htd, S2, D2.
    eexists. split; [reflexivity|]. split; [|split].
    + rewrite Hs1. by destruct s.
    + intros t j Ht. rewrite set_phys_byte_entry by done. by apply He.
    + intros o Ho. rewrite length_app in Ho. cbn [length] in Ho. rewrite phys_byte_set by lia.
      case_decide as Hd; [|apply Hb; lia]. destruct Hd as [_ <-].
      assert (phys_byte s1 q i = phys_byte s q i) as -> by (unfold phys_byte; by rewrite He).
      unfold u8. rewrite Z.mod_small; [done|]. apply phys_byte_range.
  - split; [by destruct s|]. split; [done|]. intros o Ho. cbn in Ho. lia.
  - exists s'. split; [done|]. split; [done|]. split; [done|]. intros o Ho. apply H3. rewrite length_seqZ. lia.
Qed.

Lemma phys_byte_entry s s' q o : (forall i, entry s' q i = entry s q i) -> phys_byte s' q o = phys_byte s q o.
Proof. intros H. unfold phys_byte. by rewrite H. Qed.

Lemma may_act_self s c : curenv s = Some c -> may_act s 0 c.
Proof. intros H. by left. Qed.

(** The page number of an address and its page. *)
Lemma VPN_eq addr : VPN addr = addr / PGSIZE.
Proof. unfold VPN, PPN. by rewrite Z.shiftr_div_pow2. Qed.

Lemma page_of addr : 0 <= addr < 2 ^ 39 ->
  0 <= addr / PGSIZE < 2 ^ 27 /\ 0 <= addr / PGSIZE * PGSIZE < 2 ^ 39 /\ addr / PGSIZE * PGSIZE mod PGSIZE = 0 /\
  ROUNDDOWN addr PGSIZE = addr / PGSIZE * PGSIZE.
Proof.
  intros H. rewrite ROUNDDOWN_eq by lia. unfold PGSIZE. split_ands; try done; Z.to_euclidean_division_equations; lia.
Qed.

Section Handler.
Context {hw : VmxHw}.

(** Entry bits grant a user access. *)
Lemma translate_grant k own l s c r va f :
  pt_inv k own l s -> running own s c r -> PML4 va = 0 -> f <> 0 -> Z.land PTE_PWU f = f ->
  Z.land (pte_of s r va) f = f -> translate s va f = Some (PPN (pte_of s r va)).
Proof. intros I R Hva Hf Hs He. rewrite (translate_user k own l s c r I R) by done. by rewrite He, Z.eqb_refl. Qed.

(** What the copying of the handler leaves: the page at PFTEMP is a copy of the
    page at [va]. *)
Lemma pgfault_copy k own l s c r va :
  pt_inv k own l s -> running own s c r -> 0 ∉ l -> (4 <= length l)%nat ->
  0 <= va < 2 ^ 39 -> va mod PGSIZE = 0 -> Z.land (pte_of s r va) PTE_UR = PTE_UR -> pte_of s r PFTEMP = 0 ->
  exists s1 s2 own2 l2 p, usys_page_alloc 0 PFTEMP (Z.lor (Z.lor PTE_U PTE_P) PTE_W) s = Ret 0 s1 /\
    umemcpy PFTEMP va PGSIZE s1 = Ret tt s2 /\
    pt_inv k own2 l2 s2 /\ running own2 s2 c r /\ mm_only s s2 /\ own ⊆ own2 /\ (forall q, q ∉ l -> own2 !! q = own !! q) /\
    p ∈ l /\ p <> 0 /\ p ∉ l2 /\ own2 !! p = None /\ (forall q, q ∈ l2 -> q ∈ l) /\ ref_of s2 p = 1 /\
    (forall o, 0 <= o < PGSIZE -> phys_byte s2 p o = phys_byte s (PPN (pte_of s r va)) o) /\
    (forall q, q ∉ l -> ref_of s2 q = ref_of s q) /\
    (forall q i, q ∉ l -> own !! q = None -> entry s2 q i = entry s q i) /\
    (forall r' va', own !! r' = Some (r', []) -> priv k r' (PML4 va') ->
       pte_of s2 r' va' = if decide (r = r' /\ va_idx PFTEMP = va_idx va') then p * PGSIZE + 7 else pte_of s r' va').
Proof.
  intros I R H0 Hlen Hva Hal Hgr Hz. pose proof (ru_own _ _ _ _ R) as Hr.
  assert (PML4 va = 0) as Hva0 by (by apply user_va). assert (PML4 PFTEMP = 0) as Hpf0 by done.
  assert (pte_of s r va <> 0) as Hne by (intros E; by rewrite E in Hgr).
  destruct (user_pte_range _ _ _ _ _ _ I Hr Hva0 Hne) as (_ & Hqo & Hqr & _). set (q := PPN (pte_of s r va)) in *.
  assert (q ∉ l) as Hql by (intros Hin; rewrite (inv_free_ref _ _ _ _ I) in Hqr by done; lia).
  destruct (sys_page_alloc_run k own l s 0 c r PFTEMP 7 I (may_act_self s c (ru_cur _ _ _ _ R)) (ru_pml4 _ _ _ _ R) Hr H0)
    as [(p & l0 & s1 & own1 & l1 & Hl & Hrun & Hin & Hll & Hpl & Hpo & Hpz & Hpr)|(s1 & _ & _ & Hlt & _)];
    [done|done|done| |lia].
  assert (p ∈ l) as Hpin by (rewrite Hl; lset).
  assert (va_idx PFTEMP <> va_idx va) as Hneq by (intros Heq; apply Hne; unfold pte_of; by rewrite <- Heq).
  pose proof (running_inserted _ _ _ _ _ _ _ _ _ _ _ _ I R Hin) as R1.
  destruct Hin as [J1 J2 J3 J4 J5 J6 J7 J8 J9].
  pose proof (J6 r PFTEMP Hr (or_introl Hpf0)) as Ep. rewrite decide_True in Ep by (split; reflexivity).
  pose proof (J6 r va Hr (or_introl Hva0)) as Ev. rewrite decide_False in Ev by (intros [_ E]; exact (Hneq E)).
  assert (p <> q) as Hpq by (intros ->; exact (Hql Hpin)).
  destruct (umemcpy_page_run k own1 l1 s1 c r PFTEMP va p q J2 R1 Hpo Hpq Hva Hal ltac:(done) ltac:(done)) as (s2 & Hcp & Hs2 & He2 & Hb2).
  { unfold q. rewrite <- Ev in *. by apply (translate_grant k own1 l1 s1 c r). }
  { rewrite (translate_grant k own1 l1 s1 c r PFTEMP PTE_PWU J2 R1); try done; rewrite Ep; [by rewrite PPN_add|by rewrite land_page]. }
  assert (same_tables own1 s1 s2) as Hst by (intros t i [x Ht]; apply He2; congruence).
  assert (forall x, page_at s2 x = page_at s1 x) as Hpg by (intros x; by rewrite Hs2).
  exists s1, s2, own1, l1, p. split; [by apply usys_page_alloc_Ret|]. split; [exact Hcp|].
  assert (pt_inv k own1 l1 s2) as I2 by (apply (pt_inv_data k own1 l1 s1 s2); [by rewrite Hs2..|done|done]).
  split; [exact I2|]. split.
  { apply (running_mm own1 own1 s1 s2 c r R1); [rewrite Hs2; unfold mm_only; by destruct s1|done|].
    apply Hst. rewrite (ru_own _ _ _ _ R1). eauto. }
  split. { eapply mm_only_trans; [exact J1|]. rewrite Hs2. unfold mm_only. by destruct s1. }
  split_ands; try done.
  - intros ->. done.
  - intros x Hx. destruct (J5 x Hx) as [?|[Hn _]]; [done|]. by rewrite Hz in Hn.
  - unfold ref_of. rewrite Hpg. exact Hpr.
  - intros o Ho. rewrite Hb2 by done. apply phys_byte_entry. intros i. apply J8; [done|]. intros path. congruence.
  - intros x Hx. unfold ref_of at 1. rewrite Hpg. fold (ref_of s1 x). rewrite J7, Hz, cnt_0 by done.
    pose proof (inv_free_range _ _ _ _ I p Hpin). rewrite cnt_nz by (unfold PGSIZE; lia).
    rewrite PPN_add, decide_False by (done || intros <-; done). lia.
  - intros x i Hx Hxo. rewrite He2 by congruence. apply J8; [done|]. intros path. congruence.
  - intros r' va' Hr' Hp'. rewrite <- (J6 r' va' Hr' Hp').
    eapply (same_tables_pte k own1 l1); [exact J2|exact Hst|by eapply lookup_weaken|done].
Qed.

(** What the rest of the handler does: the page at PFTEMP takes the place of the
    page at [va]. *)
Lemma pgfault_swap k own l s c r va p u :
  pt_inv k own l s -> running own s c r -> 0 <= va < 2 ^ 39 -> va mod PGSIZE = 0 -> PML4 va = 0 ->
  own !! u = Some (r, va_path va) -> pte_of s r va <> 0 -> pte_of s r PFTEMP = p * PGSIZE + 7 ->
  0 < p -> p ∉ l -> ref_of s p = 1 -> p <> PPN (pte_of s r va) -> va_idx PFTEMP <> va_idx va ->
  exists s1 s2 l', usys_page_map 0 PFTEMP 0 va 7 s = Ret 0 s1 /\ usys_page_unmap 0 PFTEMP s1 = Ret 0 s2 /\
    pt_inv k own l' s2 /\ running own s2 c r /\ p ∉ l' /\
    (forall q i, own !! q = None -> entry s2 q i = entry s q i) /\
    (forall q, q ∉ l -> ref_of s2 q = ref_of s q - cnt (pte_of s r va) q) /\
    (forall r' va', own !! r' = Some (r', []) -> priv k r' (PML4 va') ->
       pte_of s2 r' va' = if decide (r = r' /\ va_idx PFTEMP = va_idx va') then 0
         else if decide (r = r' /\ va_idx va = va_idx va') then p * PGSIZE + 7 else pte_of s r' va').
Proof.
  intros I R Hva Hal Hva0 Hu Hne Ep Hp0 Hpl Hpr Hpe Hneq. pose proof (ru_own _ _ _ _ R) as Hr.
  assert (p * PGSIZE + 7 <> 0) as Hpnz by (unfold PGSIZE; lia).
  pose proof (may_act_self s c (ru_cur _ _ _ _ R)) as Hact. pose proof (ru_pml4 _ _ _ _ R) as Hpml.
  destruct (sys_page_map_present k own l s 0 c r PFTEMP 0 c r va 7 I Hact Hpml Hr Hact Hpml Hr
    ltac:(done) ltac:(done) Hva Hal eq_refl) with (u := u) as (s3 & l3 & Hrun3 & Hin3 & _ & He3);
    [by rewrite Ep|rewrite Ep, PPN_add by done; lia|by rewrite Ep, PPN_add, Hpr|done|by rewrite Ep, land_page|].
  rewrite Ep, PPN_add in Hin3 by done.
  pose proof (running_inserted _ _ _ _ _ _ _ _ _ _ _ _ I R Hin3) as R3. destruct Hin3 as [J1 J2 J3 J4 J5 J6 J7 J8 J9].
  assert (pte_of s3 r PFTEMP = p * PGSIZE + 7) as Ep3.
  { rewrite (J6 r PFTEMP Hr (or_introl eq_refl)), decide_False; [done|]. intros [_ E]. by apply Hneq. }
  assert (ref_of s3 p = 2) as Hpr3.
  { rewrite J7, Hpr by done. rewrite !cnt_nz, PPN_add, decide_True, decide_False by (done || congruence). done. }
  destruct (sys_page_unmap_run k own l3 s3 0 c r PFTEMP J2 (may_act_self s3 c (ru_cur _ _ _ _ R3)) (ru_pml4 _ _ _ _ R3)
    (ru_own _ _ _ _ R3)) as (s4 & l4 & u4 & Hrun4 & Hmm4 & I4 & Hu4 & Hl4 & He4 & Href4 & Hpte4 & _); [done|done|by rewrite Ep3|].
  rewrite Ep3, PPN_add, Hpr3 in Hl4 by done. cbn in Hl4. subst l4. rewrite Ep3 in Href4.
  exists s3, s4, l3. split; [apply usys_page_map_Ret; [done..|lia|done|exact Hrun3]|].
  split; [by apply usys_page_unmap_Ret|]. split; [exact I4|]. split.
  { apply (running_mm own own s3 s4 c r R3 Hmm4); [done|]. apply He4. intros ->. rewrite Hr in Hu4. done. }
  split. { intros Hin. by destruct (J5 p Hin) as [?|(_ & E & _)]. }
  split_ands.
  - intros q i Hq. rewrite He4, He3 by congruence. done.
  - intros q Hq. rewrite Href4, J7 by done. lia.
  - intros r' va' Hr' Hp'. rewrite (Hpte4 r' va' Hr' Hp'), (J6 r' va' Hr' Hp'). done.
Qed.

(** C7: the page fault handler installed by [fork] makes private copies.  For a
    write fault on a copy-on-write page of the running environment, with four
    pages free and nothing at PFTEMP, it returns; the page is then mapped
    writable to a page that was free, which this mapping alone refers to and
    which holds the bytes of the old page; the old page has lost one reference
    and none of its bytes, and no other entry of any address space and no other
    page in use has changed. *)
Theorem pgfault_private_copy k own l s c r addr err :
  pt_inv k own l s -> running own s c r -> 0 ∉ l -> (4 <= length l)%nat -> 0 <= addr < 2 ^ 39 ->
  let va := addr / PGSIZE * PGSIZE in
  let e := pte_of s r va in
  Z.land e PTE_COW <> 0 -> Z.land e PTE_UR = PTE_UR -> Z.land err FEC_WR <> 0 -> pte_of s r PFTEMP = 0 ->
  exists s' own' l' p, pgfault addr err s = Ret tt s' /\ pt_inv k own' l' s' /\ running own' s' c r /\
    p ∈ l /\ p ∉ l' /\ ref_of s' p = 1 /\ pte_of s' r va = p * PGSIZE + PTE_PWU /\
    (forall o, 0 <= o < PGSIZE -> phys_byte s' p o = phys_byte s (PPN e) o) /\
    ref_of s' (PPN e) = ref_of s (PPN e) - 1 /\
    (forall q o, q ∉ l -> own !! q = None -> phys_byte s' q o = phys_byte s q o) /\
    (forall r' va', own !! r' = Some (r', []) -> priv k r' (PML4 va') -> ~ (r = r' /\ va_idx va = va_idx va') ->
       pte_of s' r' va' = pte_of s r' va').
Proof.
  intros I R H0 Hlen Haddr va e Hcow Hgr Herr Hz. pose proof (ru_own _ _ _ _ R) as Hr.
  destruct (page_of addr Haddr) as (Hpn & Hva & Hal & Hrd). fold va in Hva, Hal, Hrd.
  assert (PML4 va = 0) as Hva0 by (by apply user_va).
  assert (e <> 0) as Hne by (intros E; by rewrite E in Hgr).
  destruct (user_pte_range _ _ _ _ _ _ I Hr Hva0 Hne) as (_ & Hqo & Hqr & u & Hu & _). fold e in Hqo, Hqr.
  assert (PPN e ∉ l) as Hql by (intros Hin; rewrite (inv_free_ref _ _ _ _ I) in Hqr by done; lia).
  destruct (pgfault_copy k own l s c r va I R H0 Hlen Hva Hal Hgr Hz)
    as (s1 & s2 & own2 & l2 & p & Hrun1 & Hrun2 & I2 & R2 & Hmm2 & Hsub2 & Hout2 & Hpin & Hp0 & Hpl2 & Hpo2 & Hl2 & Hpr2 & Hb2 & Href2 & He2 & Hpte2).
  pose proof (ru_own _ _ _ _ R2) as Hr2.
  assert (va_idx PFTEMP <> va_idx va) as Hneq by (intros Heq; apply Hne; unfold e, pte_of; by rewrite <- Heq).
  assert (pte_of s2 r PFTEMP = p * PGSIZE + 7) as Ep by (rewrite (Hpte2 r PFTEMP Hr (or_introl eq_refl)); by rewrite decide_True).
  assert (pte_of s2 r va = e) as Ev.
  { rewrite (Hpte2 r va Hr (or_introl Hva0)), decide_False; [done|]. intros [_ E]. exact (Hneq E). }
  assert (uvpt (VPN addr) s = Ret e s) as Huv.
  { rewrite VPN_eq. apply (uvpt_run k own l s c r I R _ u); [done|]. by apply (owned_descend _ _ _ _ _ _ _ I Hr). }
  apply nz_true in Herr, Hcow. unfold pgfault. rewrite (bind_Ret _ _ _ _ _ Huv), Herr.
  rewrite (bind_Ret _ _ s true s); [|rewrite (bind_Ret _ _ _ _ _ Huv), Hcow; reflexivity]. mrun Hrun1.
  change (0 =? 0) with true. cbv iota. rewrite Hrd. mrun Hrun2.
  destruct (pgfault_swap k own2 l2 s2 c r va p u I2 R2 Hva Hal Hva0) as (s3 & s4 & l4 & Hrun3 & Hrun4 & I4 & R4 & Hpl4 & He4 & Href4 & Hpte4);
    [by eapply lookup_weaken|by rewrite Ev|exact Ep|pose proof (inv_free_range _ _ _ _ I p Hpin); lia|exact Hpl2|exact Hpr2
    |rewrite Ev; by intros ->|exact Hneq|].
  mrun Hrun3. change (0 <? 0) with false. cbv iota. mrun Hrun4. exists s4, own2, l4, p. rewrite Ev in Href4.
  split; [reflexivity|]. split; [exact I4|]. split; [exact R4|]. split; [exact Hpin|]. split; [exact Hpl4|]. split_ands.
  - rewrite Href4, Hpr2, cnt_nz, decide_False by (done || intros E; by rewrite E in Hql). done.
  - rewrite (Hpte4 r va Hr2 (or_introl Hva0)), decide_False by (intros [_ E]; by apply Hneq). by rewrite decide_True.
  - intros o Ho. rewrite <- Hb2 by done. apply phys_byte_entry. intros i. by apply He4.
  - rewrite Href4, Href2, cnt_nz, decide_True by (done || intros Hin; by apply Hql, Hl2). done.
  - intros q o Hq Hqo'. apply phys_byte_entry. intros i. rewrite He4, He2 by (done || by rewrite Hout2). done.
  - intros r' va' Hr' Hp' Hn. assert (own2 !! r' = Some (r', [])) as Hr2' by (by eapply lookup_weaken).
    rewrite (Hpte4 r' va' Hr2' Hp'), (Hpte2 r' va' Hr' Hp').
    rewrite (decide_False (P := r = r' /\ va_idx va = va_idx va')) by done.
    case_decide as Hd; [|done]. destruct Hd as [<- Hd]. unfold pte_of in Hz |- *. by rewrite <- Hd.
Qed.
End Handler.

(** ** A concrete machine

    [demo_mapped] with environment 0 running, environment 1 free, eight more
    free pages and the recursive slot in the top-level table; the entry of
    address 0 has the given flags. *)
Definition user_mem (flags : Z) : gmap Z (gmap Z Z) :=
  {[ 10 := {[ 0 := 3 * PGSIZE + PTE_USER; 2 := 10 * PGSIZE + PTE_UR ]}; 3 := {[ 0 := 5 * PGSIZE + PTE_USER ]};
     5 := {[ 0 := 6 * PGSIZE + PTE_USER ]}; 6 := {[ 0 := 11 * PGSIZE + flags ]} ]}.
Definition user_base (flags : Z) : kstate :=
  set_mem (user_mem flags) (set_curenv (Some 0) (set_cr3 (10 * PGSIZE) (set_env_free_list (Some 1)
    (set_boot_pml4e (kva 10 0) demo_mapped)))).
Definition user_pool : list Z := [15; 14; 13; 9; 8; 4; 2; 1].
Definition user_machine (flags : Z) : kstate := foldr pushed (user_base flags) user_pool.

(** The invariant depends only on which entries are present, on the pages they
    name and on the interior tables. *)
Lemma pt_inv_shape k own l s s' :
  npages s' = npages s -> page_free_list s' = page_free_list s -> pages s' = pages s ->
  (forall t r path i, own !! t = Some (r, path) -> slot_priv k r path i ->
     (entry s' t i = 0 <-> entry s t i = 0) /\ PPN (entry s' t i) = PPN (entry s t i) /\
     ((length path < 3)%nat -> entry s' t i = entry s t i)) ->
  pt_inv k own l s -> pt_inv k own l s'.
Proof.
  intros H1 H2 H3 Hsh [I1 I2 I3 I4 I5 I6 I7 I8 I9 I10 I11 I12].
  assert (forall p, page_at s' p = page_at s p) as Hpg by (intros p; unfold page_at; by rewrite H3).
  assert (forall t r a b i, own !! t = Some (r, [0; a; b]) ->
    (entry s' t i <> 0 <-> entry s t i <> 0) /\ PPN (entry s' t i) = PPN (entry s t i)) as Hleaf.
  { intros t r a b i Ht. destruct (Hsh t r _ i Ht I) as (Hz & HP & _). split; [by rewrite Hz|done]. }
  split.
  - unfold npages_ok. by rewrite H1.
  - by eapply free_list_ok_ext; [..|exact I2].
  - intros p. unfold link_of. rewrite Hpg. apply I3.
  - intros p. unfold ref_of. rewrite Hpg. apply I4.
  - intros t r path Ht. unfold ref_of. rewrite Hpg, H1. by apply (I5 t r path).
  - exact I6.
  - exact I7.
  - intros t r path i Ht Hl Hi Hp. destruct (Hsh t r path i Ht Hp) as (_ & _ & Hs). rewrite (Hs Hl). by apply I8.
  - intros t r path i Ht. destruct (I9 t r path i Ht) as (Hp & t' & Ht' & Hne & HP). split; [done|]. exists t'.
    destruct (Hsh t' r path i Ht' Hp) as (Hz & HP' & _). split; [done|]. rewrite Hz, HP'. done.
  - intros t r a b i Ht Hi. destruct (Hleaf t r a b i Ht) as [Hz HP]. rewrite HP, H1, Hz. by apply (I10 t r a b).
  - intros p L Hnd HL. unfold ref_of. rewrite Hpg. apply (I11 p L Hnd). eapply Forall_impl; [exact HL|].
    intros [t i] (Hi & (r & a & b & Ht) & Hne & HP). destruct (Hleaf t r a b i Ht) as [Hz HP'].
    split; [done|]. split; [by exists r, a, b|]. cbn in *. by rewrite <- Hz, <- HP'.
  - intros t r path i Ht Hl Hi Hp. destruct (Hsh t r path i Ht Hp) as (_ & _ & Hs). rewrite (Hs Hl). by apply (I12 t r path).
Qed.

Lemma pushed_list_inv k own l s L :
  pt_inv k own l s -> NoDup L -> (forall p, p ∈ L -> 0 <= p < npages s /\ ref_of s p = 0 /\ p ∉ l) ->
  pt_inv k own (L ++ l) (foldr pushed s L) /\ npages (foldr pushed s L) = npages s /\
  (forall p, ref_of (foldr pushed s L) p = ref_of s p).
Proof.
  intros I Hnd HL. induction L as [|x L IH]; [done|]. apply NoDup_cons in Hnd as [Hx Hnd].
  destruct IH as (I' & Hn & Hr); [done|intros p Hp; apply HL; lset|]. destruct (HL x ltac:(lset)) as (Hx1 & Hx2 & Hx3).
  cbn. split; [|split; [done|intros p; by rewrite pushed_ref]].
  apply pushed_inv; [done|by rewrite Hn|by rewrite Hr|]. rewrite elem_of_app. tauto.
Qed.

Lemma user_root_entry flags i : i <> 2 -> entry (user_base flags) 10 i = entry demo_mapped 10 i.
Proof.
  intros Hi. change (default 0 (({[ 0 := 3 * PGSIZE + PTE_USER; 2 := 10 * PGSIZE + PTE_UR ]} : gmap Z Z) !! i) =
    default 0 (({[ 0 := 3 * PGSIZE + PTE_USER ]} : gmap Z Z) !! i)).
  destruct (decide (0 = i)) as [<-|H0]; [done|].
  rewrite lookup_insert_ne by done. rewrite !lookup_singleton_ne by congruence. done.
Qed.

Lemma user_leaf_entry flags i : 0 < flags < PGSIZE ->
  (entry (user_base flags) 6 i = 0 <-> entry demo_mapped 6 i = 0) /\
  PPN (entry (user_base flags) 6 i) = PPN (entry demo_mapped 6 i).
Proof.
  intros Hf. change (entry (user_base flags) 6 i) with (default 0 (({[ 0 := 11 * PGSIZE + flags ]} : gmap Z Z) !! i)).
  change (entry demo_mapped 6 i) with (default 0 (({[ 0 := 11 * PGSIZE + 7 ]} : gmap Z Z) !! i)).
  destruct (decide (0 = i)) as [<-|H0].
  - rewrite !lookup_singleton_eq. change (default 0 (Some ?x)) with x. split; [|by rewrite !PPN_add by (done || lia)].
    unfold PGSIZE in *. split; intros ?; lia.
  - by rewrite !lookup_singleton_ne.
Qed.

Lemma user_machine_inv flags : 0 < flags < PGSIZE -> pt_inv 10 mapped_own (user_pool ++ [7]) (user_machine flags).
Proof.
  intros Hf. apply pushed_list_inv.
  - apply (pt_inv_shape _ _ _ demo_mapped); [done..| |exact mapped_inv]. intros t r path i Ht Hp.
    apply mapped_owned in Ht as [[-> Hx]|[[-> Hx]|[[-> Hx]|[-> Hx]]]]; inversion Hx; subst r path.
    + rewrite user_root_entry; [done|]. intros ->. by destruct Hp as [?|[_ ?]].
    + done.
    + done.
    + destruct (user_leaf_entry flags i Hf) as [Hz HP]. split; [done|]. split; [done|]. cbn [length]. lia.
  - apply (bool_decide_unpack _). by vm_compute.
  - intros p Hp. assert (p = 15 \/ p = 14 \/ p = 13 \/ p = 9 \/ p = 8 \/ p = 4 \/ p = 2 \/ p = 1) as Hc by (unfold user_pool in *; set_solver).
    by destruct_or! Hc; subst p; (split; [done|]); (split; [done|]); intros ?%list_elem_of_singleton.
Qed.

Lemma user_machine_running flags : running mapped_own (user_machine flags) 0 10.
Proof. by split. Qed.

Lemma user_machine_entry flags : pte_of (user_machine flags) 10 0 = 11 * PGSIZE + flags.
Proof. reflexivity. Qed.

(** A write to address 5 of a copy-on-write page. *)
Lemma pgfault_private_copy_witness :
  exists s' own' l' p, @pgfault no_vmx 5 FEC_WR (user_machine 0x805) = Ret tt s' /\ pt_inv 10 own' l' s' /\ running own' s' 0 10 /\
    p ∈ user_pool ++ [7] /\ p ∉ l' /\ ref_of s' p = 1 /\ pte_of s' 10 0 = p * PGSIZE + PTE_PWU /\
    (forall o, 0 <= o < PGSIZE -> phys_byte s' p o = phys_byte (user_machine 0x805) 11 o) /\
    ref_of s' 11 = ref_of (user_machine 0x805) 11 - 1 /\
    (forall q o, q ∉ user_pool ++ [7] -> mapped_own !! q = None -> phys_byte s' q o = phys_byte (user_machine 0x805) q o) /\
    (forall r' va', mapped_own !! r' = Some (r', []) -> priv 10 r' (PML4 va') -> ~ (10 = r' /\ va_idx 0 = va_idx va') ->
       pte_of s' r' va' = pte_of (user_machine 0x805) r' va').
Proof.
  apply (@pgfault_private_copy no_vmx 10 mapped_own (user_pool ++ [7]) (user_machine 0x805) 0 10 5 FEC_WR).
  - by apply user_machine_inv.
  - apply user_machine_running.
  - apply (bool_decide_unpack _). by vm_compute.
  - cbn. lia.
  - lia.
  - by vm_compute.
  - by vm_compute.
  - by vm_compute.
  - by vm_compute.
Defined.

(** ** Duplicating a page *)

(** The permissions [duppage] gives the child, and the entry it leaves the
    parent. *)
Definition dup_perm (e : Z) : Z :=
  let perm := Z.land e PTE_SYSCALL in
  if nz (Z.land perm PTE_SHARE) then perm
  else if nz (Z.land perm PTE_COW) || nz (Z.land perm PTE_W) then Z.lor (Z.land perm (Z.lnot PTE_W)) PTE_COW
  else perm.

Definition dup_child (e : Z) : Z := PPN e * PGSIZE + dup_perm e.

Definition dup_parent (e : Z) : Z :=
  let perm := Z.land e PTE_SYSCALL in
  if nz (Z.land perm PTE_SHARE) then e
  else if nz (Z.land perm PTE_COW) || nz (Z.land perm PTE_W) then dup_child e else e.

Lemma perm_ok perm :
  Z.land perm PTE_UR = PTE_UR -> Z.land perm (Z.lnot PTE_SYSCALL) = 0 -> perm_bad perm = false.
Proof.
  intros H1 H2. unfold perm_bad. change (Z.lor PTE_U PTE_P) with PTE_UR. by rewrite H1, H2, Z.eqb_refl.
Qed.

Lemma dup_perm_bits e : Z.land e PTE_UR = PTE_UR ->
  let perm := Z.land e PTE_SYSCALL in
  let cow := Z.lor (Z.land perm (Z.lnot PTE_W)) PTE_COW in
  perm_bad perm = false /\ perm_bad cow = false /\ Z.land perm PTE_W = Z.land e PTE_W /\ Z.land cow PTE_W = 0.
Proof.
  intros H perm cow.
  assert (Z.land perm (Z.lnot PTE_SYSCALL) = 0) as Hs.
  { unfold perm. rewrite <- Z.land_assoc, Z.land_lnot_diag. apply Z.land_0_r. }
  assert (Z.land perm PTE_UR = PTE_UR) as Hu by (unfold perm; by rewrite <- Z.land_assoc).
  split_ands.
  - by apply perm_ok.
  - apply perm_ok; unfold cow; rewrite Z.land_lor_distr_l, <- (Z.land_assoc perm).
    + change (Z.land (Z.lnot PTE_W) PTE_UR) with PTE_UR. by rewrite Hu.
    + rewrite (Z.land_comm (Z.lnot PTE_W)), Z.land_assoc, Hs. done.
  - unfold perm. by rewrite <- Z.land_assoc.
  - unfold cow. rewrite Z.land_lor_distr_l, <- Z.land_assoc, (Z.land_comm (Z.lnot PTE_W)), Z.land_lnot_diag.
    by rewrite Z.land_0_r.
Qed.

Lemma dup_perm_range e : Z.land e PTE_UR = PTE_UR -> PPN (dup_child e) = PPN e /\ (0 <= PPN e -> dup_child e <> 0).
Proof.
  intros H. destruct (dup_perm_bits e H) as (H1 & H2 & _).
  assert (perm_bad (dup_perm e) = false) as Hb by (unfold dup_perm; destruct (nz _); [done|]; by destruct (_ || _)).
  destruct (perm_bad_false _ Hb) as (Hr & _ & Hu). unfold dup_child. split; [by apply PPN_add|].
  intros HP E. assert (dup_perm e = 0) as E0 by (unfold PGSIZE in *; lia). by rewrite E0 in Hu.
Qed.

(** The child of [c]: slot [e], address space [rc]. *)
Record child_of (own : owners) (s : kstate) (childid e rc r : Z) : Prop := {
  ch_act : may_act s childid e;
  ch_pml4 : env_pml4e (env_at s e) = kva rc 0;
  ch_own : own !! rc = Some (rc, []);
  ch_ne : rc <> r;
  ch_id : int32 childid;
}.

Lemma child_mm own own' s s' childid e rc r :
  child_of own s childid e rc r -> mm_only s s' -> own ⊆ own' -> child_of own' s' childid e rc r.
Proof.
  intros [C1 C2 C3 C4 C5] Hmm Hsub. split; try done.
  - unfold may_act, env_at in *. by rewrite (mm_only_envs _ _ Hmm), (mm_only_curenv _ _ Hmm).
  - unfold env_at in *. by rewrite (mm_only_envs _ _ Hmm).
  - by eapply lookup_weaken.
Qed.

(** The effect of duplicating the page at [va], whose entry is [e0]. *)
Record dupped (k : Z) (own own' : owners) (l l' : list Z) (s s' : kstate) (r rc va e0 : Z) : Prop := {
  du_mm : mm_only s s';
  du_inv : pt_inv k own' l' s';
  du_own : own ⊆ own';
  du_out : forall q, q ∉ l -> own' !! q = own !! q;
  du_free : forall q, q ∈ l' -> q ∈ l;
  du_len : (length l <= length l' + 3)%nat;
  du_pte : forall r' va', own !! r' = Some (r', []) -> priv k r' (PML4 va') ->
    pte_of s' r' va' = if decide (rc = r' /\ va_idx va = va_idx va') then dup_child e0
      else if decide (r = r' /\ va_idx va = va_idx va') then dup_parent e0 else pte_of s r' va';
  du_ref : forall q, q ∉ l -> ref_of s' q = ref_of s q + cnt e0 q;
  du_mem : forall q i, q ∉ l -> own !! q = None -> entry s' q i = entry s q i;
  du_tables : forall t i path, own !! t = Some (r, path) -> (length path < 3)%nat -> entry s' t i = entry s t i;
}.

Section Dup.
Context {hw : VmxHw}.
Context (k : Z) (own : owners) (l : list Z) (s : kstate) (c r childid e rc : Z).
Context (I : pt_inv k own l s) (R : running own s c r) (C : child_of own s childid e rc r).
Context (pn : Z) (Hpn : 0 <= pn < 2 ^ 27).
Notation va := (pn * PGSIZE).
Notation e0 := (pte_of s r va).
Context (Hu : Z.land e0 PTE_UR = PTE_UR) (Hp0 : PPN e0 <> 0) (Href : ref_of s (PPN e0) + 1 < 2 ^ 16 - 1).
Context (Hz : pte_of s rc va = 0) (Hlen : (3 <= length l)%nat).

Lemma dup_va : 0 <= va < 2 ^ 39 /\ va mod PGSIZE = 0 /\ PML4 va = 0.
Proof using All.
  assert (0 <= va < 2 ^ 39) as H by (unfold PGSIZE; lia).
  assert (va mod PGSIZE = 0) as H' by (by apply Z.mod_mul).
  split; [exact H|]. split; [exact H'|]. by apply user_va.
Qed.

(** The mapping in the child. *)
Lemma dup_map_child perm :
  perm_bad perm = false -> nz (Z.land perm PTE_W) && negb (nz (Z.land e0 PTE_W)) = false ->
  exists s1 own1 l1, usys_page_map 0 va childid va perm s = Ret 0 s1 /\
    inserted k own own1 l l1 s s1 rc va (PPN e0 * PGSIZE + perm) /\ (length l <= length l1 + 3)%nat.
Proof using All.
  intros Hperm Hw. destruct dup_va as (Hva & Hal & Hva0).
  assert (e0 <> 0) as Hne by (intros E; by rewrite E in Hu).
  pose proof (sys_page_map_run k own l s 0 c r va childid e rc va perm I (may_act_self s c (ru_cur _ _ _ _ R)) (ru_pml4 _ _ _ _ R)
    (ru_own _ _ _ _ R) (ch_act _ _ _ _ _ _ C) (ch_pml4 _ _ _ _ _ _ C) (ch_own _ _ _ _ _ _ C) Hva Hal Hva Hal Hperm Hne Hp0
    ltac:(lia)) as H.
  rewrite Hw in H. destruct H as [(s1 & own1 & l1 & Hrun & Hin & Hl)|(s1 & _ & H & _)]; [|lia].
  exists s1, own1, l1. split; [|done]. destruct (perm_bad_false perm Hperm) as ([? ?] & _).
  assert (PGSIZE = 4096) by done.
  apply usys_page_map_Ret; [done|apply (ch_id _ _ _ _ _ _ C)|unfold int32; lia|lia|lia|done|exact Hrun].
Qed.

Lemma dup_entry : e0 <> 0 /\ PPN (dup_child e0) = PPN e0 /\ dup_child e0 <> 0.
Proof using All.
  destruct dup_va as (_ & _ & Hva0). assert (e0 <> 0) as Hne by (intros E; by rewrite E in Hu).
  destruct (user_pte_range _ _ _ _ _ _ I (ru_own _ _ _ _ R) Hva0 Hne) as ([HP0 _] & _).
  destruct (dup_perm_range e0 Hu) as [HP Hnz]. split_ands; auto.
Qed.

(** The effect seen from the state before, when only the child's entry has
    changed. *)
Lemma dupped_child own1 l1 s1 :
  inserted k own own1 l l1 s s1 rc va (dup_child e0) -> (length l <= length l1 + 3)%nat -> dup_parent e0 = e0 ->
  dupped k own own1 l l1 s s1 r rc va e0.
Proof using All.
  intros [J1 J2 J3 J4 J5 J6 J7 J8 J9] Hl Hself. pose proof (ch_ne _ _ _ _ _ _ C) as Hrne.
  destruct dup_entry as (Hne & HP & Hnz). split; try done.
  - intros q Hq. destruct (J5 q Hq) as [?|[Hn _]]; [done|]. by rewrite Hz in Hn.
  - intros r' va' Hr' Hp'. rewrite (J6 r' va' Hr' Hp'), Hself. case_decide; [done|]. case_decide as Hd; [|done].
    destruct Hd as [<- Hd]. unfold pte_of. by rewrite Hd.
  - intros q Hq. rewrite J7, Hz, cnt_0 by done. rewrite !cnt_nz, HP by done. lia.
  - intros q i Hq Ho. apply J8; [done|]. intros path. congruence.
  - intros t i path Ht Hl3. apply J8; [by eapply inv_owned_not_free|]. intros path'. congruence.
Qed.

(** ... and when the parent's entry has changed with it. *)
Lemma dupped_both own1 l1 s1 l2 s2 u :
  inserted k own own1 l l1 s s1 rc va (dup_child e0) -> (length l <= length l1 + 3)%nat ->
  own1 !! u = Some (r, va_path va) -> dup_parent e0 = dup_child e0 ->
  inserted k own1 own1 l1 l2 s1 s2 r va (dup_child e0) -> (length l1 <= length l2)%nat ->
  (forall q i, q <> u -> entry s2 q i = entry s1 q i) ->
  dupped k own own1 l l2 s s2 r rc va e0.
Proof using All.
  intros Hin1 Hl1 Hu1 Hself Hin2 Hl2 He2. pose proof (ch_ne _ _ _ _ _ _ C) as Hrne.
  destruct dup_va as (Hva & Hal & Hva0). destruct dup_entry as (Hne & HP & Hnz).
  destruct Hin1 as [J1 J2 J3 J4 J5 J6 J7 J8 J9], Hin2 as [M1 M2 M3 M4 M5 M6 M7 M8 M9].
  assert (pte_of s1 r va = e0) as E1.
  { rewrite (J6 r va (ru_own _ _ _ _ R) (or_introl Hva0)), decide_False; [done|]. by intros [? _]. }
  assert (forall q, q ∈ l1 -> q ∈ l) as Hf1.
  { intros q Hq. destruct (J5 q Hq) as [?|[Hn _]]; [done|]. by rewrite Hz in Hn. }
  split; try done.
  - by eapply mm_only_trans.
  - intros q Hq. destruct (M5 q Hq) as [?|(_ & Heq & Hn)]; [auto|]. by rewrite E1, <- HP in Heq.
  - lia.
  - intros r' va' Hr' Hp'. rewrite (M6 r' va'), (J6 r' va'), Hself by (done || by eapply lookup_weaken).
    repeat case_decide; naive_solver.
  - intros q Hq. rewrite M7, E1 by auto. rewrite J7, Hz, cnt_0 by done. rewrite !cnt_nz, HP by done. lia.
  - intros q i Hq Ho. rewrite He2 by (intros ->; rewrite J4 in Hu1 by done; congruence). apply J8; [done|]. intros path. congruence.
  - intros t i path Ht Hl3. rewrite He2.
    + apply J8; [by eapply inv_owned_not_free|]. intros path'. congruence.
    + intros ->. rewrite (lookup_weaken _ _ _ _ Ht J3) in Hu1. inversion Hu1; subst. cbn in Hl3. lia.
Qed.

(** The mapping in the parent. *)
Lemma dup_map_parent own1 l1 s1 u :
  let cow := Z.lor (Z.land (Z.land e0 PTE_SYSCALL) (Z.lnot PTE_W)) PTE_COW in
  inserted k own own1 l l1 s s1 rc va (dup_child e0) -> own !! u = Some (r, va_path va) ->
  dup_child e0 = PPN e0 * PGSIZE + cow ->
  exists s2 l2, usys_page_map 0 va 0 va cow s1 = Ret 0 s2 /\
    inserted k own1 own1 l1 l2 s1 s2 r va (dup_child e0) /\ (length l1 <= length l2)%nat /\
    (forall q i, q <> u -> entry s2 q i = entry s1 q i).
Proof using All.
  intros cow Hin Hu' Hdc. destruct dup_va as (Hva & Hal & Hva0). destruct dup_entry as (Hne & HP & Hnz).
  destruct (dup_perm_bits e0 Hu) as (_ & Hb2 & _ & Hw2). fold cow in Hb2, Hw2.
  pose proof (running_inserted _ _ _ _ _ _ _ _ _ _ _ _ I R Hin) as R1. destruct Hin as [J1 J2 J3 J4 J5 J6 J7 J8 J9].
  assert (pte_of s1 r va = e0) as E1.
  { rewrite (J6 r va (ru_own _ _ _ _ R) (or_introl Hva0)), decide_False; [done|]. intros [? _]. by apply (ch_ne _ _ _ _ _ _ C). }
  assert (PPN e0 ∉ l) as Hpl.
  { intros Hin. destruct (user_pte_range _ _ _ _ _ _ I (ru_own _ _ _ _ R) Hva0 Hne) as (_ & _ & Hr1 & _).
    rewrite (inv_free_ref _ _ _ _ I) in Hr1 by done. lia. }
  pose proof (may_act_self s1 c (ru_cur _ _ _ _ R1)) as Hact. pose proof (ru_pml4 _ _ _ _ R1) as Hpml.
  pose proof (ru_own _ _ _ _ R1) as Hr1.
  destruct (sys_page_map_present k own1 l1 s1 0 c r va 0 c r va cow J2 Hact Hpml Hr1 Hact Hpml Hr1 Hva Hal Hva Hal Hb2) with (u := u)
    as (s2 & l2 & Hrun & Hin2 & Hl2 & He2).
  - by rewrite E1.
  - by rewrite E1.
  - rewrite E1, J7, Hz, cnt_0, cnt_nz, HP, decide_True by done. lia.
  - by eapply lookup_weaken.
  - by rewrite Hw2.
  - rewrite E1, <- Hdc in Hin2. exists s2, l2. split; [|done]. destruct (perm_bad_false cow Hb2) as ([? ?] & _).
    assert (PGSIZE = 4096) by done. apply usys_page_map_Ret; [done|done|unfold int32; lia|lia|lia|done|exact Hrun].
Qed.

Lemma duppage_run :
  exists s' own' l', duppage childid pn s = Ret 0 s' /\ dupped k own own' l l' s s' r rc va e0.
Proof using All.
  destruct dup_va as (Hva & Hal & Hva0). pose proof (ru_own _ _ _ _ R) as Hr.
  assert (e0 <> 0) as Hne by (intros E; by rewrite E in Hu).
  destruct (user_pte_range _ _ _ _ _ _ I Hr Hva0 Hne) as (_ & _ & _ & u & Hu' & _).
  destruct (dup_perm_bits e0 Hu) as (Hb1 & Hb2 & Hw1 & Hw2).
  assert (uvpt pn s = Ret e0 s) as Huv.
  { apply (uvpt_run k own l s c r I R _ u); [done|]. by apply (owned_descend _ _ _ _ _ _ _ I Hr). }
  unfold duppage. mrun Huv. destruct (nz (Z.land (Z.land e0 PTE_SYSCALL) PTE_SHARE)) eqn:Hsh.
  - destruct (dup_map_child (Z.land e0 PTE_SYSCALL) Hb1) as (s1 & own1 & l1 & Hrun & Hin & Hl).
    { rewrite Hw1. apply andb_negb_r. }
    mrun Hrun. exists s1, own1, l1. split; [done|]. apply dupped_child; [|done|].
    + unfold dup_child, dup_perm. by rewrite Hsh.
    + unfold dup_parent. by rewrite Hsh.
  - destruct (nz (Z.land (Z.land e0 PTE_SYSCALL) PTE_COW) || nz (Z.land (Z.land e0 PTE_SYSCALL) PTE_W)) eqn:Hcw.
    + destruct (dup_map_child _ Hb2) as (s1 & own1 & l1 & Hrun & Hin & Hl); [by rewrite Hw2|]. mrun Hrun.
      change (bind (dup_panic 0) ?f s1) with (f tt s1). cbv beta.
      assert (dup_child e0 = PPN e0 * PGSIZE + Z.lor (Z.land (Z.land e0 PTE_SYSCALL) (Z.lnot PTE_W)) PTE_COW) as Hdc
        by (unfold dup_child, dup_perm; by rewrite Hsh, Hcw).
      rewrite <- Hdc in Hin.
      destruct (dup_map_parent own1 l1 s1 u Hin Hu') as (s2 & l2 & Hrun2 & Hin2 & Hl2 & He2); [done|].
      mrun Hrun2. exists s2, own1, l2. split; [done|].
      apply (dupped_both own1 l1 s1 l2 s2 u); try done.
      * by eapply lookup_weaken, (in_own _ _ _ _ _ _ _ _ _ _ Hin).
      * unfold dup_parent. by rewrite Hsh, Hcw.
    + apply orb_false_iff in Hcw as [Hcow Hwr].
      destruct (dup_map_child (Z.land e0 PTE_SYSCALL) Hb1) as (s1 & own1 & l1 & Hrun & Hin & Hl); [by rewrite Hwr|].
      mrun Hrun. exists s1, own1, l1. split; [done|]. apply dupped_child; [|done|].
      * unfold dup_child, dup_perm. by rewrite Hsh, Hcow, Hwr.
      * unfold dup_parent. by rewrite Hsh, Hcow, Hwr.
Qed.
End Dup.
