(* ===== verification/ForkProps.v ===== *)
(** [fork] of lib/fork.c makes the child a copy of its parent, page by page, that
    shares no writable page with it except those marked as shared. *)

From S2P Require Import Prelude Kernel PageAlloc PageTable PageTableInv PageTableSpec PageTableProps.
From S2P Require Import Mmu Ept Vmx Env EnvProps SchedProps Syscall SyscallProps Trap TrapProps User Fork CowProps.

(** ** The loops of [fork]

    [s0] is the state when the loops start; [D] lists the pages of the parent
    they have to duplicate. *)
Definition UXPAGE : Z := VPN (UXSTACKTOP - PGSIZE).

(** The first page directory after a gigabyte without one does not start with a
    page table: the counter [each_pte] is not moved over such a gigabyte. *)
Definition no_gap (s : kstate) (r : Z) : Prop :=
  forall t1 j t2, descend s r [0] = Some t1 -> 0 < j < 512 -> entry s t1 (j - 1) = 0 ->
    descend s r [0; j] = Some t2 -> entry s t2 0 = 0.

(** The pages of [D] below [n] that satisfy [P]. *)
Definition count (P : Z -> bool) (D : list Z) (n : Z) : nat :=
  length (List.filter (fun pn => (pn <? n) && P pn) D).

Lemma count_perm P D D' n : D ≡ₚ D' -> count P D n = count P D' n.
Proof.
  intros H. unfold count. induction H as [|x D D' _ IH|x y D|D D' D'' _ IH1 _ IH2]; cbn; [done| | |congruence].
  - destruct (_ && _); cbn; congruence.
  - by destruct (_ && _), (_ && _).
Qed.

Lemma count_same P D n m : (forall pn, pn ∈ D -> n <= pn < m -> False) -> n <= m -> count P D m = count P D n.
Proof.
  intros H Hnm. unfold count. f_equal. induction D as [|x D IH]; [done|]. cbn.
  rewrite IH by (intros pn Hin; apply H; lset).
  assert ((x <? m) = (x <? n)) as ->; [|done].
  destruct (Z.ltb_spec x m), (Z.ltb_spec x n); try done; exfalso; [apply (H x); [lset|lia]|lia].
Qed.

Lemma count_step P D n : NoDup D -> n ∈ D -> count P D (n + 1) = (count P D n + if P n then 1 else 0)%nat.
Proof.
  intros Hnd Hin. apply elem_of_Permutation in Hin as [D' HP]. rewrite !(count_perm _ _ _ _ HP).
  rewrite HP in Hnd. apply NoDup_cons in Hnd as [Hn _].
  unfold count. cbn. rewrite Z.ltb_irrefl. destruct (Z.ltb_spec n (n + 1)); [|lia]. cbn.
  pose proof (count_same P D' n (n + 1)) as Hs. unfold count in Hs.
  rewrite <- Hs; [destruct (P n); cbn; lia| |lia].
  intros pn Hin Hr. assert (pn = n) as -> by lia. done.
Qed.

Lemma count_le P D n m : n <= m -> (count P D n <= count P D m)%nat.
Proof.
  intros H. unfold count. induction D as [|x D IH]; [done|]. cbn.
  destruct (P x); rewrite ?andb_false_r, ?andb_true_r; [|done].
  destruct (Z.ltb_spec x n), (Z.ltb_spec x m); cbn; lia.
Qed.

Lemma count_ext P Q D n : (forall pn, pn ∈ D -> P pn = Q pn) -> count P D n = count Q D n.
Proof.
  intros H. unfold count. f_equal. induction D as [|x D IH]; [done|]. cbn. rewrite H by lset.
  rewrite IH by (intros pn Hin; apply H; lset). done.
Qed.

Lemma count_none P D n : (forall pn, pn ∈ D -> P pn = false) -> count P D n = 0%nat.
Proof.
  intros H. unfold count. induction D as [|x D IH]; [done|]. cbn. rewrite H by lset. rewrite andb_false_r.
  apply IH. intros pn Hin. apply H. lset.
Qed.

Lemma pn_va pn : 0 <= pn < 2 ^ 27 -> 0 <= pn * PGSIZE < 2 ^ 48 /\ PML4 (pn * PGSIZE) = 0.
Proof.
  intros H. assert (0 <= pn * PGSIZE < 2 ^ 39) as Hr by (unfold PGSIZE; lia). split; [lia|].
  apply user_va; [done|by apply Z.mod_mul].
Qed.

Lemma pn_idx pn pn' : 0 <= pn < 2 ^ 27 -> 0 <= pn' < 2 ^ 27 -> va_idx (pn * PGSIZE) = va_idx (pn' * PGSIZE) -> pn = pn'.
Proof.
  intros H H' Heq. apply va_idx_page in Heq; [|by apply pn_va..].
  rewrite !Z.div_mul in Heq by done. done.
Qed.

(** The tables of page [n * 512 + i] are those of page directory entry [n]. *)
Lemma va_path_pn n i : 0 <= n < 2 ^ 18 -> 0 <= i < 512 -> va_path ((n * 512 + i) * PGSIZE) = [0; n / 512; n mod 512].
Proof.
  intros Hn Hi. unfold va_path, PGSIZE. rewrite PML4_eq, PDPE_eq, PDX_eq.
  f_equal; [|f_equal; [|f_equal]]; Z.to_euclidean_division_equations; lia.
Qed.

Lemma pd_idx n : 0 <= n < 2 ^ 18 -> idx_ok [0; n / 512; n mod 512] /\ 0 <= n / 512 < 512.
Proof.
  intros Hn. assert (0 <= n / 512 < 512 /\ 0 <= n mod 512 < 512) as [H1 H2] by (Z.to_euclidean_division_equations; lia).
  split; [|done]. repeat (apply Forall_cons; split; [lia|]). done.
Qed.

(** States that agree on the interior tables of [r] agree on its paths. *)
Lemma same_interior_descend k own l s s' r js :
  pt_inv k own l s -> (forall t i path, own !! t = Some (r, path) -> (length path < 3)%nat -> entry s' t i = entry s t i) ->
  own !! r = Some (r, []) -> idx_ok js -> (length js <= 3)%nat -> (forall j js', js = j :: js' -> j = 0) ->
  descend s' r js = descend s r js.
Proof.
  intros I Hsame Hr Hok Hlen Hh.
  assert (forall js t path, own !! t = Some (r, path) -> idx_ok js -> (length path + length js <= 3)%nat ->
    (forall j js', js = j :: js' -> slot_priv k r path j) -> descend s' t js = descend s t js) as Hgen.
  { clear js Hok Hlen Hh. induction js as [|j js IH]; intros t path Ht Hok Hl Hsp; [done|]. cbn [descend]. cbn [length] in Hl.
    rewrite (Hsame t j path Ht) by lia. destruct (Z.eqb_spec (entry s t j) 0) as [|Hne]; [done|].
    apply Forall_cons in Hok as [Hj Hok]. apply (IH _ (path ++ [j])).
    - apply (pi_child _ _ _ _ I); [done|lia|done|by eapply Hsp|done].
    - done.
    - rewrite length_app. cbn. lia.
    - intros ? ? _. by destruct path. }
  apply (Hgen js r []); [done|done|done|]. intros j js' Hj. left. by eapply Hh.
Qed.

Lemma no_gap_same k own l s s' r :
  pt_inv k own l s -> own !! r = Some (r, []) -> (forall t i path, own !! t = Some (r, path) -> entry s' t i = entry s t i) ->
  no_gap s r -> no_gap s' r.
Proof.
  intros I Hr Hsame Hgap t1 j t2 Hd1 Hj Hz Hd2.
  assert (idx_ok [0]) as Hok by (by apply Forall_singleton).
  assert (idx_ok [0; j]) as Hok2 by (apply Forall_cons; split; [done|]; apply Forall_singleton; lia).
  assert (forall j' js', [0] = j' :: js' -> j' = 0) as Hh by (intros j' js' Hj'; by injection Hj' as <- _).
  assert (forall j' js', [0; j] = j' :: js' -> j' = 0) as Hh2 by (intros j' js' Hj'; by injection Hj' as <- _).
  assert (forall t i path, own !! t = Some (r, path) -> (length path < 3)%nat -> entry s' t i = entry s t i) as Hs by eauto.
  rewrite (same_interior_descend k own l s s' r [0] I Hs) in Hd1 by (done || cbn; lia).
  rewrite (same_interior_descend k own l s s' r [0; j] I Hs) in Hd2 by (done || cbn; lia).
  assert (own !! t1 = Some (r, [0])) as Ht1.
  { apply (descend_owned k own l s r r [] [0]); try done; [cbn; lia|]. intros j' js' E. left. by eapply Hh. }
  assert (own !! t2 = Some (r, [0; j])) as Ht2.
  { apply (descend_owned k own l s r r [] [0; j]); try done; [cbn; lia|]. intros j' js' E. left. by eapply Hh2. }
  rewrite (Hsame t1 _ _ Ht1) in Hz. rewrite (Hsame t2 _ _ Ht2). by apply (Hgap t1 j).
Qed.

Section Loops.
Context {hw : VmxHw}.
Context (k : Z) (own0 : owners) (l0 : list Z) (s0 : kstate) (c r childid e rc : Z) (D : list Z).
Notation old pn := (pte_of s0 r (pn * PGSIZE)).
Context (I0 : pt_inv k own0 l0 s0) (R0 : running own0 s0 c r) (C0 : child_of own0 s0 childid e rc r).
Context (HD : NoDup D) (HDin : forall pn, 0 <= pn < 2 ^ 27 -> pn ∈ D <-> old pn <> 0 /\ pn <> UXPAGE).
Context (HDr : forall pn, pn ∈ D -> 0 <= pn < 2 ^ 27).
Context (Hgood : forall pn, pn ∈ D -> Z.land (old pn) PTE_UR = PTE_UR /\ PPN (old pn) <> 0).
Context (Hchild : forall pn, pn ∈ D -> pte_of s0 rc (pn * PGSIZE) = 0).
Context (Hroom : (3 * length D <= length l0)%nat).
Notation maps q := (fun pn => PPN (old pn) =? q).
Context (Hrefs : forall pn, pn ∈ D -> ref_of s0 (PPN (old pn)) + Z.of_nat (count (maps (PPN (old pn))) D (2 ^ 27)) < 2 ^ 16 - 1).
Context (Hgap : no_gap s0 r).

(** The pages below [n] have been duplicated. *)
Record upto (n : Z) (own : owners) (l : list Z) (s : kstate) : Prop := {
  up_mm : mm_only s0 s;
  up_inv : pt_inv k own l s;
  up_own : own0 ⊆ own;
  up_out : forall q, q ∉ l0 -> own !! q = own0 !! q;
  up_free : forall q, q ∈ l -> q ∈ l0;
  up_len : (length l0 <= length l + 3 * count (fun _ => true) D n)%nat;
  up_tables : forall t i path, own0 !! t = Some (r, path) -> (length path < 3)%nat -> entry s t i = entry s0 t i;
  up_child : forall pn, 0 <= pn < 2 ^ 27 -> pte_of s rc (pn * PGSIZE) =
    if decide (pn ∈ D /\ pn < n) then dup_child (old pn) else pte_of s0 rc (pn * PGSIZE);
  up_parent : forall pn, 0 <= pn < 2 ^ 27 -> pte_of s r (pn * PGSIZE) =
    if decide (pn ∈ D /\ pn < n) then dup_parent (old pn) else old pn;
  up_other : forall r' va', own0 !! r' = Some (r', []) -> priv k r' (PML4 va') -> r' <> r -> r' <> rc ->
    pte_of s r' va' = pte_of s0 r' va';
  up_ref : forall q, q ∉ l0 -> ref_of s q = ref_of s0 q + Z.of_nat (count (maps q) D n);
  up_mem : forall q i, q ∉ l0 -> own0 !! q = None -> entry s q i = entry s0 q i;
}.

Lemma upto_running n own l s : upto n own l s -> running own s c r.
Proof using All.
  intros U. apply (running_mm own0 own s0 s c r R0); [apply (up_mm _ _ _ _ U)|apply (up_own _ _ _ _ U)|].
  apply (up_tables _ _ _ _ U _ _ []); [apply (ru_own _ _ _ _ R0)|cbn; lia].
Qed.

Lemma upto_child n own l s : upto n own l s -> child_of own s childid e rc r.
Proof using All. intros U. by apply (child_mm own0 own s0 s), (up_own _ _ _ _ U); [|apply (up_mm _ _ _ _ U)]. Qed.

(** Nothing to do between [n] and [m]. *)
Lemma upto_skip n m own l s :
  upto n own l s -> n <= m -> (forall pn, pn ∈ D -> n <= pn < m -> False) -> upto m own l s.
Proof using All.
  intros [U1 U2 U3 U4 U5 U6 U7 U8 U9 U10 U11 U12] Hnm Hno.
  assert (forall pn, pn ∈ D /\ pn < m <-> pn ∈ D /\ pn < n) as Hiff.
  { intros pn. split; intros [Hin Hlt]; (split; [done|]); [|lia].
    destruct (decide (pn < n)); [done|]. exfalso. apply (Hno pn Hin). lia. }
  split; try done.
  - by rewrite (count_same _ D n m).
  - intros pn Hpn. rewrite U8 by done. symmetry. apply decide_ext, Hiff.
  - intros pn Hpn. rewrite U9 by done. symmetry. apply decide_ext, Hiff.
  - intros q Hq. rewrite (count_same _ D n m) by done. by apply U11.
Qed.

(** Duplicating page [n]. *)
Lemma upto_dup n own l s :
  upto n own l s -> n ∈ D -> exists s' own' l', duppage childid n s = Ret 0 s' /\ upto (n + 1) own' l' s'.
Proof using All.
  intros U Hin. pose proof (HDr n Hin) as Hn. destruct (pn_va n Hn) as [_ Hva0].
  pose proof (upto_running n own l s U) as R. pose proof (upto_child n own l s U) as C.
  destruct (Hgood n Hin) as [Hur HP0].
  assert (pte_of s r (n * PGSIZE) = old n) as E0.
  { rewrite (up_parent _ _ _ _ U n Hn), decide_False; [done|]. intros [_ ?]. lia. }
  assert (pte_of s rc (n * PGSIZE) = 0) as Ec.
  { rewrite (up_child _ _ _ _ U n Hn), decide_False by (intros [_ ?]; lia). by apply Hchild. }
  assert (old n <> 0) as Hne by (intros E; by rewrite E in Hur).
  destruct (user_pte_range _ _ _ _ _ _ I0 (ru_own _ _ _ _ R0) Hva0 Hne) as (_ & _ & Hr1 & _).
  assert (PPN (old n) ∉ l0) as Hpl by (intros H; rewrite (inv_free_ref _ _ _ _ I0) in Hr1 by done; lia).
  assert (forall P, count P D (n + 1) = (count P D n + if P n then 1 else 0)%nat) as Hstep by (intros P; by apply count_step).
  destruct U as [U1 U2 U3 U4 U5 U6 U7 U8 U9 U10 U11 U12].
  destruct (duppage_run k own l s c r childid e rc U2 R C n Hn) as (s' & own' & l' & Hrun & Hd).
  { by rewrite E0. } { by rewrite E0. }
  { rewrite E0, U11 by done. pose proof (Hrefs n Hin). pose proof (count_le (maps (PPN (old n))) D (n + 1) (2 ^ 27) ltac:(lia)).
    rewrite Hstep in *. rewrite Z.eqb_refl in *. lia. }
  { exact Ec. }
  { pose proof (count_le (fun _ => true) D (n + 1) (2 ^ 27) ltac:(lia)) as H. rewrite Hstep in H.
    assert (count (fun _ => true) D (2 ^ 27) <= length D)%nat by apply List.filter_length_le. lia. }
  rewrite E0 in Hd. destruct Hd as [M1 M2 M3 M4 M5 M6 M7 M8 M9 M10].
  exists s', own', l'. split; [exact Hrun|].
  pose proof (ch_ne _ _ _ _ _ _ C0) as Hrne.
  split.
  - by eapply mm_only_trans.
  - exact M2.
  - by transitivity own.
  - intros q Hq. rewrite M4 by auto. by apply U4.
  - auto.
  - rewrite Hstep. lia.
  - intros t i path Ht Hl. rewrite (M10 t i path); [by apply (U7 t i path)|by eapply lookup_weaken|done].
  - intros pn Hpn. destruct (pn_va pn Hpn) as [_ Hv].
    rewrite (M7 rc _ (ch_own _ _ _ _ _ _ C) (or_introl Hv)).
    rewrite (decide_False (P := r = rc /\ _)) by (intros [? _]; congruence). rewrite U8 by done.
    destruct (decide (n = pn)) as [<-|Hnp].
    + rewrite !decide_True by (first [done | split; [done|lia]]). done.
    + rewrite (decide_False (P := rc = rc /\ _)) by (intros [_ Heq]; by apply pn_idx in Heq).
      apply decide_ext. split; intros [? ?]; (split; [done|lia]).
  - intros pn Hpn. destruct (pn_va pn Hpn) as [_ Hv].
    rewrite (M7 r _ (ru_own _ _ _ _ R) (or_introl Hv)).
    rewrite (decide_False (P := rc = r /\ _)) by (intros [? _]; congruence). rewrite U9 by done.
    destruct (decide (n = pn)) as [<-|Hnp].
    + rewrite !decide_True by (first [done | split; [done|lia]]). done.
    + rewrite (decide_False (P := r = r /\ _)) by (intros [_ Heq]; by apply pn_idx in Heq).
      apply decide_ext. split; intros [? ?]; (split; [done|lia]).
  - intros r' va' Hr' Hp' N1 N2. rewrite (M7 r' va'); [|by eapply lookup_weaken|done].
    rewrite !decide_False by (intros [? _]; congruence). by apply U10.
  - intros q Hq. rewrite M8, U11, Hstep by auto. rewrite cnt_nz by done. case_decide as Hd.
    + rewrite Hd, Z.eqb_refl. lia.
    + destruct (Z.eqb_spec (PPN (old n)) q); [done|]. lia.
  - intros q i Hq Ho. rewrite M9; [by apply U12|auto|]. by rewrite U4.
Qed.

(** The tables the loops read are those of [s0]. *)
Lemma upto_descend n own l s js :
  upto n own l s -> idx_ok js -> (length js <= 3)%nat -> (forall j js', js = j :: js' -> j = 0) ->
  descend s r js = descend s0 r js.
Proof using All.
  intros U Hok Hlen Hh.
  apply (same_interior_descend k own0 l0); try done; [|apply (ru_own _ _ _ _ R0)]. intros t i path Ht Hl. by apply (up_tables _ _ _ _ U t i path).
Qed.

(** A page whose table is missing is not mapped. *)
Lemma not_mapped pn : descend s0 r (va_path (pn * PGSIZE)) = None -> old pn = 0.
Proof using Type. intros H. by rewrite pte_of_descend, H. Qed.

Lemma table_present t r' path i :
  own0 !! t = Some (r', path) -> (length path < 3)%nat -> 0 <= i < 512 -> slot_priv k r' path i ->
  entry s0 t i <> 0 -> nz (Z.land (entry s0 t i) PTE_P) = true.
Proof using I0.
  intros Ht Hl Hi Hs Hne. apply nz_true. intros E. pose proof (pi_flags _ _ _ _ I0 t r' path i Ht Hl Hi Hs Hne) as Hf.
  assert (Z.land (Z.land (entry s0 t i) PTE_PWU) PTE_P = 0) as Hz by (rewrite <- Z.land_assoc; exact E).
  by rewrite Hf in Hz.
Qed.

Lemma fork_pte_step n own l s u x :
  upto n own l s -> 0 <= n < 2 ^ 27 -> descend s0 r (va_path (n * PGSIZE)) = Some u ->
  exists s' own' l', fork_pte childid n x s = Ret (n + 1) s' /\ upto (n + 1) own' l' s'.
Proof using All.
  intros U Hn Hd. unfold fork_pte. pose proof (upto_running n own l s U) as R.
  assert (uvpt n s = Ret (old n) s) as Huv.
  { rewrite (uvpt_run k own l s c r (up_inv _ _ _ _ U) R n u Hn).
    - rewrite (up_parent _ _ _ _ U n Hn), decide_False; [done|]. intros [_ ?]. lia.
    - rewrite (upto_descend n own l s _ U); [done|apply va_path_ok|done|]. intros j js' Hj. unfold va_path in Hj.
      injection Hj as <- _. by apply pn_va. }
  mrun Huv. fold UXPAGE.
  assert (n ∉ D -> upto (n + 1) own l s) as Hskip.
  { intros Hni. apply (upto_skip n); [done|lia|]. intros pn Hin Hr. assert (pn = n) as -> by lia. done. }
  destruct (nz (Z.land (old n) PTE_P)) eqn:HP; cycle 1.
  { exists s, own, l. split; [done|]. apply Hskip. intros Hin. destruct (Hgood n Hin) as [Hur _].
    apply nz_false in HP. assert (Z.land (Z.land (old n) PTE_UR) PTE_P = 0) as Hz.
    { rewrite <- Z.land_assoc. exact HP. }
    rewrite Hur in Hz. done. }
  destruct (Z.eqb_spec n UXPAGE) as [->|Hux]; cbn [negb].
  { exists s, own, l. split; [done|]. apply Hskip. rewrite HDin by done. by intros [_ ?]. }
  assert (n ∈ D) as Hin.
  { apply HDin; [done|]. split; [|done]. intros E. rewrite E in HP. done. }
  destruct (upto_dup n own l s U Hin) as (s' & own' & l' & Hrun & U').
  rewrite u32_small by lia. exists s', own', l'. split; [|exact U'].
  rewrite (bind_Ret _ _ s tt s'); [done|]. by rewrite (bind_Ret _ _ _ _ _ Hrun).
Qed.

Lemma fork_pte_loop b own l s u :
  0 <= b < 2 ^ 18 -> descend s0 r [0; b / 512; b mod 512] = Some u -> upto (b * 512) own l s ->
  exists s' own' l', foldM (seqZ 0 NPTENTRIES) (b * 512) (fork_pte childid) s = Ret ((b + 1) * 512) s' /\
    upto ((b + 1) * 512) own' l' s'.
Proof using All.
  intros Hb Hd U.
  destruct (foldM_inv (fun pre acc s' => acc = b * 512 + Z.of_nat (length pre) /\ exists own' l', upto acc own' l' s')
    (seqZ 0 NPTENTRIES) (fork_pte childid) (b * 512) s) as (acc & s' & Hrun & Hacc & own' & l' & U').
  - intros pre x post acc s1 Hl (-> & own1 & l1 & U1). destruct (seqZ_split _ _ _ _ _ Hl) as [_ Hlt].
    unfold NPTENTRIES in Hlt.
    destruct (fork_pte_step (b * 512 + Z.of_nat (length pre)) own1 l1 s1 u x U1) as (s2 & own2 & l2 & Hrun & U2); [lia| |].
    { by rewrite va_path_pn by lia. }
    exists (b * 512 + Z.of_nat (length pre) + 1), s2. split; [done|]. split; [rewrite length_app; cbn; lia|]. by exists own2, l2.
  - split; [cbn; lia|]. by exists own, l.
  - rewrite length_seqZ in Hacc. change (Z.of_nat (Z.to_nat NPTENTRIES)) with 512 in Hacc.
    replace (b * 512 + 512) with ((b + 1) * 512) in Hacc by lia. subst acc. by exists s', own', l'.
Qed.

(** The pages of an absent page directory entry. *)
Lemma pde_absent b own l s :
  0 <= b < 2 ^ 18 -> descend s0 r [0; b / 512; b mod 512] = None -> upto (b * 512) own l s ->
  upto ((b + 1) * 512) own l s.
Proof using All.
  intros Hb Hd U. apply (upto_skip (b * 512)); [done|lia|]. intros pn Hin Hr.
  pose proof (HDr pn Hin) as Hpn. apply HDin in Hin as [Hin _]; [|done]. apply Hin, not_mapped.
  replace pn with (b * 512 + (pn - b * 512)) by lia. by rewrite va_path_pn by lia.
Qed.

Lemma fork_pde_step b a1 own l s t x :
  0 <= b < 2 ^ 18 -> descend s0 r [0; b / 512] = Some t -> upto (b * 512) own l s ->
  a1 = b * 512 \/ entry s0 t (b mod 512) = 0 ->
  exists s' own' l', fork_pde childid (b, a1) x s = Ret (b + 1, (b + 1) * 512) s' /\ upto ((b + 1) * 512) own' l' s'.
Proof using All.
  intros Hb Hd U Ha. destruct (pd_idx b Hb) as [Hidx Hb5].
  pose proof (upto_running _ own l s U) as R. unfold fork_pde.
  assert (idx_ok [0; b / 512]) as Hidx2 by (unfold idx_ok in *; rewrite !Forall_cons in *; tauto).
  assert (own0 !! t = Some (r, [0; b / 512])) as Ht.
  { apply (descend_owned k own0 l0 s0 r r [] [0; b / 512]); try done; [apply (ru_own _ _ _ _ R0)|cbn; lia|].
    intros j js' Hj. injection Hj as <- _. by left. }
  assert (uvpd b s = Ret (entry s0 t (b mod 512)) s) as Huv.
  { rewrite (uvpd_run k own l s c r (up_inv _ _ _ _ U) R b t Hb).
    - by rewrite (up_tables _ _ _ _ U t _ [0; b / 512]) by (done || cbn; lia).
    - rewrite (upto_descend _ own l s _ U); [done|done|cbn; lia|]. intros j js' Hj. by injection Hj as <- _. }
  mrun Huv.
  assert (descend s0 r [0; b / 512; b mod 512] = if entry s0 t (b mod 512) =? 0 then None else Some (PPN (entry s0 t (b mod 512)))) as Hd3.
  { change [0; b / 512; b mod 512] with ([0; b / 512] ++ [b mod 512]). by rewrite descend_snoc, Hd. }
  destruct (Z.eqb_spec (entry s0 t (b mod 512)) 0) as [Hz|Hne].
  - rewrite Hz. cbn. exists s, own, l. split; [done|]. by apply pde_absent.
  - destruct Ha as [->|Ha]; [|done].
    rewrite (table_present t r [0; b / 512] (b mod 512)) by (done || (cbn; lia) || by apply Z.mod_pos_bound).
    destruct (fork_pte_loop b own l s _ Hb Hd3 U) as (s' & own' & l' & Hrun & U').
    mrun Hrun. by exists s', own', l'.
Qed.

Lemma fork_pde_loop a a1 own l s t :
  0 <= a < 512 -> descend s0 r [0; a] = Some t -> upto (a * 512 * 512) own l s ->
  a1 = a * 512 * 512 \/ entry s0 t 0 = 0 ->
  exists s' own' l', foldM (seqZ 0 NPDENTRIES) (a * 512, a1) (fork_pde childid) s =
      Ret ((a + 1) * 512, (a + 1) * 512 * 512) s' /\ upto ((a + 1) * 512 * 512) own' l' s'.
Proof using All.
  intros Ha Hd U H1.
  destruct (foldM_inv (fun pre acc s' => acc.1 = a * 512 + Z.of_nat (length pre) /\
      (acc.2 = acc.1 * 512 \/ pre = [] /\ entry s0 t 0 = 0) /\ exists own' l', upto (acc.1 * 512) own' l' s')
    (seqZ 0 NPDENTRIES) (fork_pde childid) (a * 512, a1) s) as ([b' a1'] & s' & Hrun & Hb & Ha1 & own' & l' & U').
  - intros pre x post [b b1] s1 Hl (Hb & Hb1 & own1 & l1 & U1). cbn [fst snd] in *.
    destruct (seqZ_split _ _ _ _ _ Hl) as [_ Hlt]. unfold NPDENTRIES in Hlt.
    destruct (fork_pde_step b b1 own1 l1 s1 t x) as (s2 & own2 & l2 & Hrun & U2).
    + lia.
    + by replace (b / 512) with a by (Z.to_euclidean_division_equations; lia).
    + done.
    + destruct Hb1 as [->|[-> Hz]]; [by left|right]. cbn in Hb. by replace (b mod 512) with 0 by (Z.to_euclidean_division_equations; lia).
    + exists (b + 1, (b + 1) * 512), s2. split; [done|]. cbn [fst snd]. rewrite length_app. cbn [length].
      split; [lia|]. split; [by left|]. by exists own2, l2.
  - cbn [fst snd length]. split; [lia|]. split; [destruct H1; [by left|by right]|]. by exists own, l.
  - cbn [fst snd] in *. rewrite length_seqZ in Hb. change (Z.of_nat (Z.to_nat NPDENTRIES)) with 512 in Hb.
    replace b' with ((a + 1) * 512) in * by lia.
    destruct Ha1 as [->|[Hnil _]]; [|done]. by exists s', own', l'.
Qed.

Lemma fork_pdpe_step a a1 own l s t x :
  0 <= a < 512 -> descend s0 r [0] = Some t -> upto (a * 512 * 512) own l s ->
  a1 = a * 512 * 512 \/ 0 < a /\ entry s0 t (a - 1) = 0 ->
  exists s' own' l' a1', fork_pdpe childid (a, a * 512, a1) x s = Ret (a + 1, (a + 1) * 512, a1') s' /\
    (a1' = (a + 1) * 512 * 512 \/ entry s0 t a = 0) /\ upto ((a + 1) * 512 * 512) own' l' s'.
Proof using All.
  intros Ha Hd U H1. pose proof (upto_running _ own l s U) as R. unfold fork_pdpe.
  assert (own0 !! t = Some (r, [0])) as Ht.
  { apply (descend_owned k own0 l0 s0 r r [] [0]); try done; [apply (ru_own _ _ _ _ R0)|by apply Forall_singleton|cbn; lia|].
    intros j js' Hj. injection Hj as <- _. by left. }
  assert (uvpde a s = Ret (entry s0 t a) s) as Huv.
  { rewrite (uvpde_run k own l s c r (up_inv _ _ _ _ U) R a t Ha).
    - by rewrite (up_tables _ _ _ _ U t _ [0]) by (done || cbn; lia).
    - rewrite (upto_descend _ own l s _ U); [done|by apply Forall_singleton|cbn; lia|]. intros j js' Hj. by injection Hj as <- _. }
  mrun Huv.
  assert (descend s0 r [0; a] = if entry s0 t a =? 0 then None else Some (PPN (entry s0 t a))) as Hd2.
  { change [0; a] with ([0] ++ [a]). by rewrite descend_snoc, Hd. }
  destruct (Z.eqb_spec (entry s0 t a) 0) as [Hz|Hne].
  - rewrite Hz. cbn. exists s, own, l, a1. split; [done|]. split; [by right|].
    apply (upto_skip (a * 512 * 512)); [done|lia|]. intros pn Hin Hr.
    pose proof (HDr pn Hin) as Hpn. apply HDin in Hin as [Hin _]; [|done]. apply Hin, not_mapped.
    replace pn with (pn / 512 * 512 + pn mod 512) by (Z.to_euclidean_division_equations; lia).
    rewrite va_path_pn by (Z.to_euclidean_division_equations; lia).
    replace (pn / 512 / 512) with a by (Z.to_euclidean_division_equations; lia).
    change [0; a; pn / 512 mod 512] with ([0; a] ++ [pn / 512 mod 512]). by rewrite descend_snoc, Hd2.
  - rewrite (table_present t r [0] a) by (done || cbn; lia).
    destruct (fork_pde_loop a a1 own l s (PPN (entry s0 t a)) Ha Hd2 U) as (s' & own' & l' & Hrun & U').
    { destruct H1 as [->|[Hpos Hz]]; [by left|right]. apply (Hgap t a); [done|lia|done|done]. }
    mrun Hrun. exists s', own', l', ((a + 1) * 512 * 512). split; [done|]. split; [by left|done].
Qed.

Lemma fork_pdpe_loop own l s t :
  descend s0 r [0] = Some t -> upto 0 own l s ->
  exists s' own' l' st, foldM (seqZ 0 NPDPENTRIES) (0, 0, 0) (fork_pdpe childid) s = Ret st s' /\ upto (2 ^ 27) own' l' s'.
Proof using All.
  intros Hd U.
  destruct (foldM_inv (fun pre acc s' => acc.1.1 = Z.of_nat (length pre) /\ acc.1.2 = acc.1.1 * 512 /\
      (acc.2 = acc.1.1 * 512 * 512 \/ 0 < acc.1.1 /\ entry s0 t (acc.1.1 - 1) = 0) /\
      exists own' l', upto (acc.1.1 * 512 * 512) own' l' s')
    (seqZ 0 NPDPENTRIES) (fork_pdpe childid) (0, 0, 0) s) as ([[a' b'] c'] & s' & Hrun & Ha' & Hb' & _ & own' & l' & U').
  - intros pre x post [[a b] a1] s1 Hl (Ha & Hb & Ha1 & own1 & l1 & U1). cbn [fst snd] in *.
    destruct (seqZ_split _ _ _ _ _ Hl) as [_ Hlt]. unfold NPDPENTRIES in Hlt. subst b.
    destruct (fork_pdpe_step a a1 own1 l1 s1 t x) as (s2 & own2 & l2 & a1' & Hrun & Hor & U2); [lia|done..|].
    exists (a + 1, (a + 1) * 512, a1'), s2. split; [done|]. cbn [fst snd]. rewrite length_app. cbn [length].
    split; [lia|]. split; [done|]. split; [|by exists own2, l2].
    destruct Hor as [->|Hz]; [by left|right]. split; [lia|]. by replace (a + 1 - 1) with a by lia.
  - cbn [fst snd length]. split; [done|]. split; [done|]. split; [by left|]. by exists own, l.
  - cbn [fst snd] in *. rewrite length_seqZ in Ha'. change (Z.of_nat (Z.to_nat NPDPENTRIES)) with 512 in Ha'. subst a'.
    by exists s', own', l', (512, b', c').
Qed.

(** The loops duplicate every page of the parent. *)
Lemma fork_loops_run own l s :
  upto 0 own l s ->
  exists s' own' l' st, foldM (seqZ 0 (VPML4E UTOP)) (0, 0, 0) (fork_pml4e childid) s = Ret st s' /\ upto (2 ^ 27) own' l' s'.
Proof using All.
  intros U. pose proof (upto_running _ own l s U) as R.
  change (seqZ 0 (VPML4E UTOP)) with [0]. cbn [foldM]. unfold fork_pml4e.
  assert (uvpml4e 0 s = Ret (entry s0 r 0) s) as Huv.
  { rewrite (uvpml4e_run k own l s c r (up_inv _ _ _ _ U) R 0) by done.
    by rewrite (up_tables _ _ _ _ U r _ []) by (apply (ru_own _ _ _ _ R0) || cbn; lia). }
  destruct (Z.eqb_spec (entry s0 r 0) 0) as [Hz|Hne].
  - exists s, own, l. eexists. rewrite (bind_Ret _ _ s (1 * NPDPENTRIES, 0, 0) s) by (mrun Huv; by rewrite Hz). split; [done|].
    apply (upto_skip 0); [done|lia|]. intros pn Hin Hr.
    apply HDin in Hin as [Hin _]; [|done]. apply Hin, not_mapped.
    destruct (pn_va pn Hr) as [_ Hv]. unfold va_path. rewrite Hv. cbn [descend]. by rewrite Hz.
  - assert (descend s0 r [0] = Some (PPN (entry s0 r 0))) as Hd.
    { cbn [descend]. by destruct (Z.eqb_spec (entry s0 r 0) 0). }
    destruct (fork_pdpe_loop own l s _ Hd U) as (s' & own' & l' & st & Hrun & U').
    exists s', own', l', st. split; [|done].
    rewrite (bind_Ret _ _ s st s'); [done|]. mrun Huv.
    by rewrite (table_present r r [] 0) by (first [done | apply (ru_own _ _ _ _ R0) | cbn; lia | by left]).
Qed.

Lemma upto_start : upto 0 own0 l0 s0.
Proof using All.
  assert (forall P, count P D 0 = 0%nat) as H0.
  { intros P. unfold count. assert (forall pn, pn ∈ D -> (pn <? 0) = false) as H by (intros pn Hp; apply HDr in Hp; lia).
    clear - H. induction D as [|x D' IH]; [done|]. cbn. rewrite H by lset. apply IH. intros pn Hp. apply H. lset. }
  split; try done.
  - apply mm_only_refl.
  - rewrite H0. lia.
  - intros pn Hpn. by rewrite decide_False by (intros [_ ?]; lia).
  - intros pn Hpn. by rewrite decide_False by (intros [_ ?]; lia).
  - intros q _. rewrite H0. lia.
Qed.
End Loops.

(** ** The whole call *)

Section Fork.
Context {hw : VmxHw} (upcall : Z).

(** A caller that can fork: [p] will be the root table of the child and [D] are
    the pages to duplicate. *)
Record forkable (k : Z) (own : owners) (p : Z) (l : list Z) (s : kstate) (c r e : Z) (D : list Z) : Prop := {
  fk_inv : pt_inv k own (p :: l) s;
  fk_run : running own s c r;
  fk_kern : own !! k = Some (k, []) /\ boot_pml4e s = kva k 0;
  fk_env : env_free_list s = Some e /\ c <> e /\ 0 <= e < NENV /\ 0 <= env_id (env_at s e) < 2 ^ 31;
  fk_zero : 0 ∉ l;
  fk_pages : NoDup D /\ forall pn, pn ∈ D <-> 0 <= pn < 2 ^ 27 /\ pte_of s r (pn * PGSIZE) <> 0 /\ pn <> UXPAGE;
  fk_good : forall pn, pn ∈ D -> Z.land (pte_of s r (pn * PGSIZE)) PTE_UR = PTE_UR /\ PPN (pte_of s r (pn * PGSIZE)) <> 0;
  fk_room : (3 * length D + 4 <= length l)%nat;
  fk_refs : forall q, ref_of s q + Z.of_nat (count (fun pn => PPN (pte_of s r (pn * PGSIZE)) =? q) D (2 ^ 27)) < 2 ^ 16 - 1;
  fk_gap : no_gap s r;
}.

(** What [fork] leaves behind. *)
Record forked (k : Z) (own own' : owners) (p : Z) (l l' : list Z) (s s' : kstate) (c r e : Z) : Prop := {
  fo_inv : pt_inv k own' l' s';
  fo_env : env_status (env_at s' e) = ENV_RUNNABLE /\ env_parent_id (env_at s' e) = env_id (env_at s c) /\
    env_pgfault_upcall (env_at s' e) = upcall /\ env_pml4e (env_at s' e) = kva p 0 /\
    env_tf (env_at s' e) = set_tf_regs (set_reg_rax 0 (tf_regs (env_tf (env_at s c)))) (env_tf (env_at s c));
  fo_envs : forall e', e' <> e -> env_at s' e' = env_at s e';
  fo_parent : forall pn, 0 <= pn < 2 ^ 27 -> pte_of s' r (pn * PGSIZE) =
    if decide (pn = UXPAGE) then pte_of s r (pn * PGSIZE) else dup_parent (pte_of s r (pn * PGSIZE));
  fo_child : forall pn, 0 <= pn < 2 ^ 27 -> pn <> UXPAGE -> pte_of s' p (pn * PGSIZE) =
    if decide (pte_of s r (pn * PGSIZE) = 0) then 0 else dup_child (pte_of s r (pn * PGSIZE));
  fo_stack : exists q, q ∈ l /\ q ∉ l' /\ pte_of s' p (UXPAGE * PGSIZE) = q * PGSIZE + PTE_PWU /\ ref_of s' q = 1 /\
    forall i, entry s' q i = 0;
  fo_other : forall r' va, own !! r' = Some (r', []) -> priv k r' (PML4 va) -> r' <> r -> pte_of s' r' va = pte_of s r' va;
  fo_mem : forall q i, q ∉ p :: l -> own !! q = None -> entry s' q i = entry s q i;
}.

(** The state when the loops start: the child exists and has an exception
    stack on page [q]. *)
Record prepared (k : Z) (own own0 : owners) (p : Z) (l l0 : list Z) (s s0 : kstate) (c r e q : Z) : Prop := {
  pr_inv : pt_inv k own0 l0 s0;
  pr_run : running own0 s0 c r;
  pr_child : child_of own0 s0 (env_id (env_at s0 e)) e p r;
  pr_id : 0 < env_id (env_at s0 e) < 2 ^ 31;
  pr_env : env_status (env_at s0 e) = ENV_NOT_RUNNABLE /\ env_parent_id (env_at s0 e) = env_id (env_at s c) /\
    env_tf (env_at s0 e) = set_tf_regs (set_reg_rax 0 (tf_regs (env_tf (env_at s c)))) (env_tf (env_at s c));
  pr_envs : forall e', e' <> e -> env_at s0 e' = env_at s e';
  pr_own : own ⊆ own0;
  pr_out : forall t, t ∉ p :: l -> own0 !! t = own !! t;
  pr_free : forall t, t ∈ l0 -> t ∈ l;
  pr_len : (length l <= length l0 + 4)%nat;
  pr_pte : forall r' va, own !! r' = Some (r', []) -> priv k r' (PML4 va) -> pte_of s0 r' va = pte_of s r' va;
  pr_new : forall pn, 0 <= pn < 2 ^ 27 -> pte_of s0 p (pn * PGSIZE) = if decide (pn = UXPAGE) then q * PGSIZE + PTE_PWU else 0;
  pr_ref : forall t, t ∉ p :: l -> ref_of s0 t = ref_of s t;
  pr_mem : forall t i, t ∉ p :: l -> entry s0 t i = entry s t i;
  pr_stack : q ∈ l /\ q ∉ l0 /\ own0 !! q = None /\ ref_of s0 q = 1 /\ forall i, entry s0 q i = 0;
}.

Lemma fork_prepare k own p l s c r e D :
  forkable k own p l s c r e D ->
  exists s1 s0 own0 l0 q, sys_exofork s = Ret (env_id (env_at s0 e)) s1 /\
    sys_page_alloc (env_id (env_at s0 e)) (UXSTACKTOP - PGSIZE) 7 s1 = Ret 0 s0 /\
    prepared k own own0 p l l0 s s0 c r e q.
Proof.
  intros [I R [Hk Hboot] (Hfl & Hce & He & Hid) H0 _ _ Hroom _ _].
  destruct (sys_exofork_run k own l p s c e I Hk Hboot (ru_cur _ _ _ _ R) Hfl Hce)
    as (s1 & Hrun1 & E1 & E2 & E3 & E4 & E5 & Hz1 & I1 & Ho1 & Hp1 & Hcur1 & Hcr1 & Hn1 & _ & Hpg1 & Hm1).
  destruct (next_env_id_props _ _ Hid He) as (Hid1 & Hx1 & _). rewrite <- E1 in Hid1, Hx1.
  assert (own !! p = None) as Hpo by (apply (inv_free_not_owned _ _ _ _ I); lset).
  assert (own ⊆ <[p := (p, [])]> own) as Hsub by (by apply insert_subseteq).
  assert (p <> r) as Hpr by (intros ->; pose proof (ru_own _ _ _ _ R); congruence).
  assert (forall t, ref_of s1 t = if decide (p = t) then 1 else ref_of s t) as Hr1.
  { intros t. unfold ref_of. rewrite Hpg1. by case_decide. }
  assert (may_act s1 (env_id (env_at s1 e)) e) as Hact.
  { right. split; [lia|]. split; [by rewrite Hx1|]. split; [by rewrite E2|]. split; [done|]. right. exists c.
    rewrite Hcur1, (Ho1 c Hce), E3. split; [apply (ru_cur _ _ _ _ R)|done]. }
  assert (running (<[p := (p, [])]> own) s1 c r) as R1.
  { destruct R as [Q1 Q2 Q3 Q4 Q5]. split.
    - by rewrite Hcur1.
    - by rewrite Hcr1.
    - by rewrite Ho1.
    - by rewrite lookup_insert_ne.
    - by rewrite Hm1. }
  destruct (sys_page_alloc_run k _ l s1 (env_id (env_at s1 e)) e p (UXSTACKTOP - PGSIZE) 7 I1 Hact E5
    (lookup_insert_eq _ _ _) H0) as [(q & l2 & s0 & own0 & l0 & Hl & Hrun2 & Hin & Hlen & Hq1 & Hq2 & Hq3 & Hq4)|(s0 & _ & _ & Hlt & _)];
    [done|done|done| |lia].
  pose proof (running_inserted _ _ _ _ _ _ _ _ _ _ _ _ I1 R1 Hin) as R2.
  destruct Hin as [J1 J2 J3 J4 J5 J6 J7 J8 J9].
  assert (forall e', env_at s0 e' = env_at s1 e') as Hea by (intros e'; unfold env_at; by rewrite (mm_only_envs _ _ J1)).
  assert (pte_of s1 p (UXSTACKTOP - PGSIZE) = 0) as Hzu by (by apply Hz1).
  assert (q ∈ l) as Hql by (rewrite Hl; lset).
  assert (forall t, t ∈ l0 -> t ∈ l) as Hfree by (intros t Ht; destruct (J5 t Ht) as [|[Hc _]]; done).
  exists s1, s0, own0, l0, q. rewrite !Hea. split; [done|]. split; [done|]. split.
  - done.
  - done.
  - rewrite Hea. apply (child_mm (<[p := (p, [])]> own) _ s1); [|done|done]. split; try done; [apply lookup_insert_eq|]. unfold int32. lia.
  - rewrite Hea. done.
  - rewrite Hea. done.
  - intros e' He'. rewrite Hea. by apply Ho1.
  - by transitivity (<[p := (p, [])]> own).
  - intros t Ht. apply not_elem_of_cons in Ht as [Ht1 Ht2]. rewrite J4 by done. by rewrite lookup_insert_ne.
  - done.
  - done.
  - intros r' va Hr' Hp'. rewrite (J6 r' va) by (by rewrite ?lookup_insert_ne by congruence).
    rewrite decide_False by (intros [-> _]; congruence). by apply Hp1.
  - intros pn Hpn. destruct (pn_va pn Hpn) as [_ Hv]. rewrite (J6 p) by (apply lookup_insert_eq || by left).
    rewrite Hz1 by done. apply decide_ext. change (UXSTACKTOP - PGSIZE) with (UXPAGE * PGSIZE). split.
    + intros [_ Hi]. symmetry. by apply pn_idx in Hi.
    + by intros ->.
  - intros t Ht. apply not_elem_of_cons in Ht as [Ht1 Ht2]. rewrite J7, Hzu, cnt_0, Hr1, decide_False by congruence.
    assert (cnt (q * PGSIZE + 7) t = 0) as ->; [|lia]. unfold cnt. rewrite decide_False; [done|].
    intros [_ Hc]. rewrite PPN_add in Hc by done. by subst t.
  - intros t i Ht. apply not_elem_of_cons in Ht as [Ht1 Ht2]. rewrite J8, Hm1; [done|congruence|done|].
    intros path. rewrite lookup_insert_ne by congruence. intros Ho.
    apply (inv_own_root _ _ _ _ _ _ _ I) in Ho. congruence.
  - done.
Qed.

(** The loops, started in a prepared state. *)
Lemma fork_duplicate k own own0 p l l0 s s0 c r e q D :
  forkable k own p l s c r e D -> prepared k own own0 p l l0 s s0 c r e q ->
  exists s' own' l' st, foldM (seqZ 0 (VPML4E UTOP)) (0, 0, 0) (fork_pml4e (env_id (env_at s0 e))) s0 = Ret st s' /\
    upto k own0 l0 s0 r p D (2 ^ 27) own' l' s'.
Proof.
  intros [I R _ _ _ [Hnd HD] Hgood Hroom Hrefs Hgap] P. pose proof (ru_own _ _ _ _ R) as Hr.
  assert (forall pn, 0 <= pn < 2 ^ 27 -> pte_of s0 r (pn * PGSIZE) = pte_of s r (pn * PGSIZE)) as Hold.
  { intros pn Hpn. apply (pr_pte _ _ _ _ _ _ _ _ _ _ _ _ P); [done|]. left. by apply pn_va. }
  assert (forall pn, pn ∈ D -> 0 <= pn < 2 ^ 27) as HDr by (intros pn Hin; by apply HD).
  assert (forall pn, pn ∈ D -> PML4 (pn * PGSIZE) = 0 /\ 1 <= ref_of s (PPN (pte_of s r (pn * PGSIZE)))) as forkable_page.
  { intros pn Hin. assert (PML4 (pn * PGSIZE) = 0) as Hv by (by apply pn_va, HDr). split; [done|].
    apply HD in Hin as (_ & Hne & _). by destruct (user_pte_range _ _ _ _ _ _ I Hr Hv Hne) as (_ & _ & ? & _). }
  assert (forall pn, 0 <= pn < 2 ^ 27 -> pn ∈ D <-> pte_of s0 r (pn * PGSIZE) <> 0 /\ pn <> UXPAGE) as H1.
  { intros pn Hpn. rewrite HD, Hold by done. tauto. }
  assert (forall pn, pn ∈ D -> Z.land (pte_of s0 r (pn * PGSIZE)) PTE_UR = PTE_UR /\ PPN (pte_of s0 r (pn * PGSIZE)) <> 0) as H2.
  { intros pn Hin. rewrite Hold by auto. by apply Hgood. }
  assert (forall pn, pn ∈ D -> pte_of s0 p (pn * PGSIZE) = 0) as H3.
  { intros pn Hin. rewrite (pr_new _ _ _ _ _ _ _ _ _ _ _ _ P) by auto. rewrite decide_False; [done|]. by apply HD in Hin as (_ & _ & ?). }
  assert (3 * length D <= length l0)%nat as H4 by (pose proof (pr_len _ _ _ _ _ _ _ _ _ _ _ _ P); lia).
  assert (forall pn, pn ∈ D -> ref_of s0 (PPN (pte_of s0 r (pn * PGSIZE))) + Z.of_nat
    (count (fun pn' => PPN (pte_of s0 r (pn' * PGSIZE)) =? PPN (pte_of s0 r (pn * PGSIZE))) D (2 ^ 27)) < 2 ^ 16 - 1) as H5.
  { intros pn Hin. rewrite Hold by auto. rewrite (pr_ref _ _ _ _ _ _ _ _ _ _ _ _ P).
    - erewrite (count_ext _ (fun pn' => PPN (pte_of s r (pn' * PGSIZE)) =? PPN (pte_of s r (pn * PGSIZE)))); [apply Hrefs|].
      intros pn' Hin'. cbv beta. by rewrite Hold by auto.
    - intros Hf. destruct (forkable_page pn Hin) as (_ & Hr1). rewrite (inv_free_ref _ _ _ _ I) in Hr1 by done. lia. }
  assert (no_gap s0 r) as H6.
  { apply (no_gap_same k own (p :: l) s s0 r I Hr); [|done]. intros t i path Ht. apply (pr_mem _ _ _ _ _ _ _ _ _ _ _ _ P).
    intros Hin. by rewrite (inv_free_not_owned _ _ _ _ I t Hin) in Ht. }
  apply (fork_loops_run k own0 l0 s0 c r (env_id (env_at s0 e)) e p D (pr_inv _ _ _ _ _ _ _ _ _ _ _ _ P)
    (pr_run _ _ _ _ _ _ _ _ _ _ _ _ P) (pr_child _ _ _ _ _ _ _ _ _ _ _ _ P) Hnd H1 HDr H2 H3 H4 H5 H6 own0 l0).
  by apply (upto_start k own0 l0 s0 c r (env_id (env_at s0 e)) e p D (pr_inv _ _ _ _ _ _ _ _ _ _ _ _ P)
    (pr_run _ _ _ _ _ _ _ _ _ _ _ _ P) (pr_child _ _ _ _ _ _ _ _ _ _ _ _ P)).
Qed.

(** The last two calls. *)
Lemma fork_release childid e s :
  may_act s childid e -> 0 < childid < 2 ^ 31 -> 0 <= upcall < 2 ^ 64 ->
  exists s', (let! r := usys_env_set_pgfault_upcall childid upcall in
    do! fork_panic r ;;
    let! r := usys_env_set_status childid ENV_RUNNABLE in
    do! fork_panic r ;;
    ret childid) s = Ret childid s' /\
    s' = set_envs (envs s') s /\ (forall e', e' <> e -> env_at s' e' = env_at s e') /\
    env_at s' e = set_env_status ENV_RUNNABLE (set_env_pgfault_upcall upcall (env_at s e)).
Proof.
  intros Hact Hid Hup. set (s1 := set_envs (<[e := set_env_pgfault_upcall upcall (env_at s e)]> (envs s)) s).
  assert (int32 childid) as Hi by (unfold int32; lia).
  assert (usys_env_set_pgfault_upcall childid upcall s = Ret 0 s1) as H1.
  { apply usyscall_Ret; [|done]. change (sys_env_set_pgfault_upcall (s32 (u64 childid)) (u64 upcall) s = Ret 0 s1).
    rewrite s32_u64, (u64_small upcall) by done. unfold sys_env_set_pgfault_upcall.
    by rewrite (bind_Ret _ _ _ _ _ (envid2env_granted s childid e Hact)). }
  assert (forall e', env_at s1 e' = if decide (e = e') then set_env_pgfault_upcall upcall (env_at s e) else env_at s e') as E1.
  { intros e'. apply env_at_upd. }
  assert (may_act s1 childid e) as Hact1.
  { destruct Hact as [[? ?]|(Hne & He & Hst & Hx & Hp)]; [by left|]. right. rewrite (E1 e), decide_True by done. split_ands; try done.
    destruct Hp as [Hp|(c & Hc & Hp)]; [by left|]. right. exists c. split; [done|]. rewrite E1. by case_decide as Hd; [rewrite <- Hd in Hp|]. }
  set (s2 := set_envs (<[e := set_env_status ENV_RUNNABLE (env_at s1 e)]> (envs s1)) s1).
  assert (usys_env_set_status childid ENV_RUNNABLE s1 = Ret 0 s2) as H2.
  { apply usyscall_Ret; [|done]. change (sys_env_set_status (s32 (u64 childid)) ENV_RUNNABLE s1 = Ret 0 s2).
    rewrite s32_u64 by done. unfold sys_env_set_status. change (_ && _) with false. cbv iota.
    by rewrite (bind_Ret _ _ _ _ _ (envid2env_granted s1 childid e Hact1)). }
  exists s2. split; [|split; [done|]].
  - mrun H1. change (fork_panic 0) with (ret tt : K unit). rewrite (bind_Ret _ _ s1 tt s1) by done. by mrun H2.
  - split; [intros e' He'|]; unfold s2; rewrite env_at_upd, E1.
    + rewrite decide_False by done. rewrite E1, decide_False by done. done.
    + by rewrite !decide_True by done.
Qed.

(** What the loops leave, in terms of the state before the call. *)
Lemma fork_assemble k own own2 own3 p l l2 l3 s s2 s3 s' c r e q D :
  forkable k own p l s c r e D -> prepared k own own2 p l l2 s s2 c r e q ->
  upto k own2 l2 s2 r p D (2 ^ 27) own3 l3 s3 ->
  s' = set_envs (envs s') s3 -> (forall e', e' <> e -> env_at s' e' = env_at s3 e') ->
  env_at s' e = set_env_status ENV_RUNNABLE (set_env_pgfault_upcall upcall (env_at s3 e)) ->
  forked k own own3 p l l3 s s' c r e.
Proof.
  intros F P U Hs' Ho' He'. destruct F as [I R _ _ _ [_ HD] _ _ _ _].
  destruct P as [_ _ C2 _ (P1 & P2 & P3) P4 P5 P6 P7 _ P8 P9 _ P11 (Q1 & Q2 & Q3 & Q4 & Q5)].
  destruct U as [U1 U2 U3 U4 U5 _ _ U8 U9 U10 U11 U12].
  assert (forall r' va, pte_of s' r' va = pte_of s3 r' va) as Hpte by (intros; by rewrite Hs').
  assert (forall t i, entry s' t i = entry s3 t i) as Hent by (intros; by rewrite Hs').
  assert (forall e', env_at s3 e' = env_at s2 e') as Hea by (intros e'; unfold env_at; by rewrite (mm_only_envs _ _ U1)).
  assert (forall pn, 0 <= pn < 2 ^ 27 -> pte_of s2 r (pn * PGSIZE) = pte_of s r (pn * PGSIZE)) as Hold.
  { intros pn Hpn. apply P8; [apply (ru_own _ _ _ _ R)|]. left. by apply pn_va. }
  assert (forall pn, 0 <= pn < 2 ^ 27 -> (pn ∈ D /\ pn < 2 ^ 27) <-> pte_of s r (pn * PGSIZE) <> 0 /\ pn <> UXPAGE) as HD'.
  { intros pn Hpn. rewrite HD. tauto. }
  split.
  - by apply (pt_inv_same k own3 l3 s3); [rewrite Hs'..|].
  - rewrite He', Hea. split_ands; try done. apply (ch_pml4 _ _ _ _ _ _ C2).
  - intros e' Hne. by rewrite Ho', Hea, P4.
  - intros pn Hpn. rewrite Hpte, U9, Hold by done. destruct (decide (pn = UXPAGE)) as [Hx|Hx].
    + rewrite decide_False; [done|]. rewrite HD' by done. by intros [_ ?].
    + destruct (Z.eq_dec (pte_of s r (pn * PGSIZE)) 0) as [Hz|Hz].
      * rewrite Hz. by case_decide.
      * rewrite decide_True; [done|]. by apply HD'.
  - intros pn Hpn Hx. rewrite Hpte, U8, Hold, P9 by done. rewrite (decide_False (P := pn = UXPAGE)) by done.
    destruct (decide (pte_of s r (pn * PGSIZE) = 0)) as [Hz|Hz].
    + rewrite decide_False; [done|]. rewrite HD' by done. by intros [? _].
    + rewrite decide_True; [done|]. by apply HD'.
  - exists q. split; [done|]. split; [auto|]. split; [|split].
    + rewrite Hpte, U8, P9 by done. rewrite decide_False, decide_True; [done|done|]. rewrite HD' by done. by intros [_ ?].
    + assert (ref_of s' q = ref_of s3 q) as -> by (by rewrite Hs'). rewrite U11, Q4, count_none; [done| |done].
      intros pn Hin. apply Z.eqb_neq. intros Heq. apply HD in Hin as (Hpn & Hne & _). rewrite Hold in Heq by done.
      assert (PML4 (pn * PGSIZE) = 0) as Hv by (by apply pn_va).
      destruct (user_pte_range _ _ _ _ _ _ I (ru_own _ _ _ _ R) Hv Hne) as (_ & _ & Hr1 & _).
      rewrite (inv_free_ref _ _ _ _ I) in Hr1 by (rewrite Heq; lset). lia.
    + intros i. rewrite Hent, U12; done.
  - intros r' va Hr' Hp' Hne. rewrite Hpte, U10; [by apply P8|by eapply lookup_weaken|done|done|].
    intros ->. rewrite (inv_free_not_owned _ _ _ _ I p) in Hr' by lset. done.
  - intros t i Ht Hto. rewrite Hent, U12; [by apply P11| |by rewrite P6].
    intros Hin. apply Ht. apply P7 in Hin. lset.
Qed.

(** Unless it is shared, a duplicated page is writable for neither side. *)
Lemma dup_readonly e :
  Z.land e PTE_UR = PTE_UR -> Z.land e PTE_SHARE = 0 ->
  Z.land (dup_parent e) PTE_W = 0 /\ Z.land (dup_child e) PTE_W = 0 /\ PPN (dup_parent e) = PPN e /\ PPN (dup_child e) = PPN e.
Proof.
  intros Hu Hs. destruct (dup_perm_bits e Hu) as (H1 & H2 & H3 & H4). destruct (dup_perm_range e Hu) as [HP _].
  assert (perm_bad (dup_perm e) = false) as Hb by (unfold dup_perm; destruct (nz _); [done|]; by destruct (_ || _)).
  destruct (perm_bad_false _ Hb) as (Hr & _).
  assert (nz (Z.land (Z.land e PTE_SYSCALL) PTE_SHARE) = false) as Hsh.
  { apply nz_false. rewrite <- Z.land_assoc. exact Hs. }
  assert (Z.land (dup_perm e) PTE_W = 0) as Hw.
  { unfold dup_perm. rewrite Hsh. destruct (_ || _) eqn:Ho; [exact H4|]. apply orb_false_iff in Ho as [_ Ho]. by apply nz_false in Ho. }
  assert (Z.land (dup_child e) PTE_W = 0) as Hc by (unfold dup_child; by rewrite land_page).
  unfold dup_parent. rewrite Hsh. destruct (_ || _) eqn:Ho; [done|]. split_ands; try done.
  apply orb_false_iff in Ho as [_ Ho]. apply nz_false in Ho. by rewrite <- H3.
Qed.

End Fork.

(** ** A concrete run *)

Lemma user_mapped pn : 0 <= pn < 2 ^ 27 -> pte_of (user_machine 7) 10 (pn * PGSIZE) <> 0 -> pn = 0.
Proof.
  intros Hpn Hne. destruct (pn_va pn Hpn) as [_ Hv].
  destruct (user_pte_range _ _ _ _ _ _ (user_machine_inv 7 ltac:(done)) (ru_own _ _ _ _ (user_machine_running 7)) Hv Hne)
    as (_ & _ & _ & u & Hu & He).
  rewrite <- He in Hne. apply pn_idx; [done|done|]. rewrite !va_idx_path.
  apply mapped_owned in Hu as [[-> Hx]|[[-> Hx]|[[-> Hx]|[-> Hx]]]]; [done..|]. apply (f_equal snd) in Hx. cbn [snd] in Hx.
  assert (entry demo_mapped 6 (PTX (pn * PGSIZE)) <> 0) as Hm.
  { intros E. apply Hne. by apply (user_leaf_entry 7). }
  apply mapped_entry in Hm as [Hi _]. by rewrite Hi, Hx.
Qed.

Lemma user_refs q : 0 <= ref_of (user_machine 7) q <= 1.
Proof.
  apply (page_at_cases _ (user_machine 7) (fun x => 0 <= pp_ref x <= 1) eq_refl); [|done].
  apply (bool_decide_unpack _). by vm_compute.
Qed.

Lemma user_no_gap : no_gap (user_machine 7) 10.
Proof.
  intros t1 j t2 _ Hj _ Hd2. exfalso. cbn [descend] in Hd2.
  assert (mem (user_machine 7) = user_mem 7) as Hm by reflexivity. unfold entry in Hd2. rewrite Hm in Hd2.
  change (default 0 (default ∅ (user_mem 7 !! 10) !! 0)) with (3 * PGSIZE + PTE_USER) in Hd2.
  rewrite PPN_add in Hd2 by done. destruct (Z.eqb_spec (3 * PGSIZE + PTE_USER) 0); [done|].
  change (default ∅ (user_mem 7 !! 3)) with ({[ 0 := 5 * PGSIZE + PTE_USER ]} : gmap Z Z) in Hd2.
  by rewrite lookup_singleton_ne in Hd2 by lia.
Qed.

Lemma user_forkable : forkable 10 mapped_own 15 [14; 13; 9; 8; 4; 2; 1; 7] (user_machine 7) 0 10 1 [0].
Proof.
  split.
  - by apply user_machine_inv.
  - apply user_machine_running.
  - done.
  - done.
  - apply (bool_decide_unpack _). by vm_compute.
  - split; [apply NoDup_singleton|]. intros pn. rewrite list_elem_of_singleton. split.
    + intros ->. split; [done|]. change (0 * PGSIZE) with 0. by rewrite user_machine_entry.
    + intros (Hpn & Hne & _). by apply user_mapped.
  - intros pn ->%list_elem_of_singleton. change (0 * PGSIZE) with 0. by rewrite user_machine_entry.
  - cbn. lia.
  - intros q. pose proof (user_refs q) as Hr.
    assert (forall P n, (count P [0%Z] n <= 1)%nat) as Hc by (intros P n; apply List.filter_length_le).
    specialize (Hc (fun pn => PPN (pte_of (user_machine 7) 10 (pn * PGSIZE)) =? q) (2 ^ 27)). lia.
  - exact user_no_gap.
Qed.

