(* ===== verification/Console.v ===== *)
(** The console of kern/console.c: serial port, parallel port, text display and
    keyboard behind the ring buffer of waiting input, with the interrupt mask of
    kern/picirq.c and the clock registers of kern/kclock.c.

    The devices are the parameter [ConsDev]: a port read or write is a function
    of the state of the devices.  The theorems show that every index stays in
    its array, that the ring buffer is a queue fed by the devices and that the
    loops which empty a device end. *)

From S2P Require Import Prelude Trap.

(** ** Devices *)

(** Port access, whether the colour text memory is there, and the contents of
    the text memory the display uses. *)
Class ConsDev (D : Type) : Type := {
  port_in : Z -> D -> Z * D;
  port_out : Z -> Z -> D -> D;
  cga_present : D -> bool;
  text_memory : bool -> D -> gmap Z Z;
}.

Notation COM1 := 0x3F8 (only parsing).
Definition COM_RX : Z := 0.
Definition COM_TX : Z := 0.
Definition COM_DLL : Z := 0.
Definition COM_DLM : Z := 1.
Definition COM_IER : Z := 1.
Definition COM_IER_RDI : Z := 0x01.
Definition COM_IIR : Z := 2.
Definition COM_FCR : Z := 2.
Definition COM_LCR : Z := 3.
Definition COM_LCR_DLAB : Z := 0x80.
Definition COM_LCR_WLEN8 : Z := 0x03.
Definition COM_MCR : Z := 4.
Notation COM_LSR := 5 (only parsing).
Definition COM_LSR_DATA : Z := 0x01.
Definition COM_LSR_TXRDY : Z := 0x20.
Definition MONO_BASE : Z := 0x3B4.
Definition CGA_BASE : Z := 0x3D4.
Definition CRT_ROWS : Z := 25.
Definition CRT_COLS : Z := 80.
Definition CRT_SIZE : Z := CRT_ROWS * CRT_COLS.
Notation KBSTATP := 0x64 (only parsing).
Definition KBS_DIB : Z := 0x01.
Notation KBDATAP := 0x60 (only parsing).
Definition IO_PIC1 : Z := 0x20.
Definition IO_PIC2 : Z := 0xA0.
Definition IRQ_SLAVE : Z := 2.
Definition IO_RTC : Z := 0x070.
Definition CONSBUFSIZE : Z := 512.

(** The static variables of the files. *)
Record cstate (D : Type) : Type := mkC {
  cdev : D;
  serial_exists : bool;
  addr_6845 : Z;
  crt_buf : gmap Z Z;
  crt_pos : Z;
  shift : Z;
  cons_buf : gmap Z Z;
  rpos : Z;
  wpos : Z;
  irq_mask_8259A : Z;
  didinit : bool;
}.
Arguments mkC {D} _ _ _ _ _ _ _ _ _ _ _.
Arguments cdev {D} _.
Arguments serial_exists {D} _.
Arguments addr_6845 {D} _.
Arguments crt_buf {D} _.
Arguments crt_pos {D} _.
Arguments shift {D} _.
Arguments cons_buf {D} _.
Arguments rpos {D} _.
Arguments wpos {D} _.
Arguments irq_mask_8259A {D} _.
Arguments didinit {D} _.

(** ** The keyboard *)

Definition NO : Z := 0.
Definition SHIFT : Z := Z.shiftl 1 0.
Definition CTL : Z := Z.shiftl 1 1.
Definition ALT : Z := Z.shiftl 1 2.
Definition CAPSLOCK : Z := Z.shiftl 1 3.
Definition NUMLOCK : Z := Z.shiftl 1 4.
Definition SCROLLLOCK : Z := Z.shiftl 1 5.
Definition E0ESC : Z := Z.shiftl 1 6.

Definition KEY_HOME : Z := 0xE0.
Definition KEY_END : Z := 0xE1.
Definition KEY_UP : Z := 0xE2.
Definition KEY_DN : Z := 0xE3.
Definition KEY_LF : Z := 0xE4.
Definition KEY_RT : Z := 0xE5.
Definition KEY_PGUP : Z := 0xE6.
Definition KEY_PGDN : Z := 0xE7.
Definition KEY_INS : Z := 0xE8.
Definition KEY_DEL : Z := 0xE9.

(** An array of 256 bytes given by its first elements and by designated ones. *)
Definition table (first : list Z) (designated : list (Z * Z)) (i : Z) : Z :=
  match List.find (fun p => p.1 =? i) designated with
  | Some p => u8 p.2
  | None => u8 (nth (Z.to_nat i) first 0)
  end.

Definition shiftcode : Z -> Z :=
  table [] [(0x1D, CTL); (0x2A, SHIFT); (0x36, SHIFT); (0x38, ALT); (0x9D, CTL); (0xB8, ALT)].

Definition togglecode : Z -> Z := table [] [(0x3A, CAPSLOCK); (0x45, NUMLOCK); (0x46, SCROLLLOCK)].

Definition extended (kp_enter kp_div home home_code : Z) : list (Z * Z) :=
  [(home, home_code); (0x9C, kp_enter); (0xB5, kp_div); (0xC8, KEY_UP); (0xC9, KEY_PGUP); (0xCB, KEY_LF);
   (0xCD, KEY_RT); (0xCF, KEY_END); (0xD0, KEY_DN); (0xD1, KEY_PGDN); (0xD2, KEY_INS); (0xD3, KEY_DEL)].

Definition normalmap : Z -> Z :=
  table ([NO; 0x1B] ++ chars "1234567890-=" ++ [8; 9] ++ chars "qwertyuiop[]" ++ [10; NO] ++ chars "asdfghjkl;" ++
         [39; 96; NO; 92] ++ chars "zxcvbnm,./" ++ [NO; 42; NO; 32] ++ replicate 13 NO ++ chars "789-456+1230.")
    (extended 10 47 0xC7 KEY_HOME).

Definition shiftmap : Z -> Z :=
  table ([NO; 27] ++ chars "!@#$%^&*()_+" ++ [8; 9] ++ chars "QWERTYUIOP{}" ++ [10; NO] ++ chars "ASDFGHJKL:" ++
         [34; 126; NO; 124] ++ chars "ZXCVBNM<>?" ++ [NO; 42; NO; 32] ++ replicate 13 NO ++ chars "789-456+1230.")
    (extended 10 47 0xC7 KEY_HOME).

Definition Ctl (x : Z) : Z := x - 64.

Definition ctlmap : Z -> Z :=
  table (replicate 16 NO ++ (Ctl <$> chars "QWERTYUIOP") ++ [NO; NO; 13; NO] ++ (Ctl <$> chars "ASDFGHJKL") ++
         [NO; NO; NO; NO] ++ (Ctl <$> [92]) ++ (Ctl <$> chars "ZXCVBNM") ++ [NO; NO; Ctl 47; NO; NO])
    [(0x97, KEY_HOME); (0xB5, Ctl 47); (0xC8, KEY_UP); (0xC9, KEY_PGUP); (0xCB, KEY_LF);
     (0xCD, KEY_RT); (0xCF, KEY_END); (0xD0, KEY_DN); (0xD1, KEY_PGDN); (0xD2, KEY_INS); (0xD3, KEY_DEL)].

Definition charcode (i : Z) : Z -> Z :=
  nth (Z.to_nat i) [normalmap; shiftmap; ctlmap; ctlmap] ctlmap.

(** The part of [kbd_proc_data] after the byte [data] is read: the character and
    the new value of [shift]. *)
Definition kbd_decode (sh data : Z) : Z * Z :=
  if data =? 0xE0 then (0, Z.lor sh E0ESC)
  else if nz (Z.land data 0x80) then
    let data := if nz (Z.land sh E0ESC) then data else Z.land data 0x7F in
    (0, Z.land sh (Z.lnot (Z.lor (shiftcode data) E0ESC)))
  else
    let '(data, sh) := if nz (Z.land sh E0ESC) then (Z.lor data 0x80, Z.land sh (Z.lnot E0ESC)) else (data, sh) in
    let sh := Z.lor sh (shiftcode data) in
    let sh := Z.lxor sh (togglecode data) in
    let c := charcode (Z.land sh (Z.lor CTL SHIFT)) data in
    let c := if nz (Z.land sh CAPSLOCK) then
               if (97 <=? c) && (c <=? 122) then c + (65 - 97)
               else if (65 <=? c) && (c <=? 90) then c + (97 - 65) else c
             else c in
    (c, sh).

Section Console.
Context {D : Type} `{!ConsDev D}.
Notation C := (M (cstate D)).

Definition upd_dev (d : D) (s : cstate D) : cstate D :=
  mkC d (serial_exists s) (addr_6845 s) (crt_buf s) (crt_pos s) (shift s) (cons_buf s) (rpos s) (wpos s) (irq_mask_8259A s) (didinit s).
Definition set_serial_exists (v : bool) (s : cstate D) : cstate D :=
  mkC (cdev s) v (addr_6845 s) (crt_buf s) (crt_pos s) (shift s) (cons_buf s) (rpos s) (wpos s) (irq_mask_8259A s) (didinit s).
Definition set_crt (addr : Z) (b : gmap Z Z) (p : Z) (s : cstate D) : cstate D :=
  mkC (cdev s) (serial_exists s) addr b p (shift s) (cons_buf s) (rpos s) (wpos s) (irq_mask_8259A s) (didinit s).
Definition set_shift (v : Z) (s : cstate D) : cstate D :=
  mkC (cdev s) (serial_exists s) (addr_6845 s) (crt_buf s) (crt_pos s) v (cons_buf s) (rpos s) (wpos s) (irq_mask_8259A s) (didinit s).
Definition set_cons (b : gmap Z Z) (r w : Z) (s : cstate D) : cstate D :=
  mkC (cdev s) (serial_exists s) (addr_6845 s) (crt_buf s) (crt_pos s) (shift s) b r w (irq_mask_8259A s) (didinit s).
Definition set_irq (m : Z) (i : bool) (s : cstate D) : cstate D :=
  mkC (cdev s) (serial_exists s) (addr_6845 s) (crt_buf s) (crt_pos s) (shift s) (cons_buf s) (rpos s) (wpos s) m i.

(** [inb] and [outb] of inc/x86.h: bytes. *)
Definition inb (port : Z) : C Z := fun s =>
  let '(v, d) := port_in port (cdev s) in Ret (u8 v) (upd_dev d s).
Definition outb (port data : Z) : C unit := modify (fun s => upd_dev (port_out port (u8 data) (cdev s)) s).

Definition delay : C unit :=
  do! inb 0x84 ;; do! inb 0x84 ;; do! inb 0x84 ;; do! inb 0x84 ;; ret tt.

(** ** Output *)

(** Wait until [ready] but at most 12800 rounds. *)
Definition wait_ready (port bit : Z) : C unit :=
  loop (Z.to_nat 12801) (fun i =>
    let! v := inb port in
    if negb (nz (Z.land v bit)) && (i <? 12800) then do! delay ;; ret (inl (i + 1)) else ret (inr tt)) 0.

Definition serial_putc (c : Z) : C unit :=
  do! wait_ready (COM1 + COM_LSR) COM_LSR_TXRDY ;;
  outb (COM1 + COM_TX) c.

Definition lpt_putc (c : Z) : C unit :=
  do! wait_ready (0x378 + 1) 0x80 ;;
  do! outb (0x378 + 0) c ;;
  do! outb (0x378 + 2) (Z.lor (Z.lor 0x08 0x04) 0x01) ;;
  outb (0x378 + 2) 0x08.

Definition cga_init : C unit :=
  let! d := gets cdev in
  let addr := if cga_present d then CGA_BASE else MONO_BASE in
  do! outb addr 14 ;;
  let! hi := inb (addr + 1) in
  do! outb addr 15 ;;
  let! lo := inb (addr + 1) in
  modify (fun s => set_crt addr (text_memory (cga_present d) d) (u16 (Z.lor (Z.shiftl hi 8) lo)) s).

(** Text cells that were never written read as 0. *)
Definition cell (b : gmap Z Z) (i : Z) : Z := default 0 (b !! i).

Definition crt_scroll (b : gmap Z Z) : gmap Z Z :=
  let b := foldl (fun acc i => <[i := cell b (i + CRT_COLS)]> acc) b (seqZ 0 (CRT_SIZE - CRT_COLS)) in
  foldl (fun acc i => <[i := Z.lor 0x0700 32]> acc) b (seqZ (CRT_SIZE - CRT_COLS) CRT_COLS).

(** [cons_putc] is the function called for the spaces of a tab. *)
Definition cga_putc (cons_putc : Z -> C unit) (c : Z) : C unit :=
  let c := if negb (nz (Z.land c (Z.lnot 0xFF))) then Z.lor c 0x0700 else c in
  let low := Z.land c 0xff in
  do! (if low =? 8 then
         modify (fun s => if 0 <? crt_pos s
           then set_crt (addr_6845 s) (<[crt_pos s - 1 := u16 (Z.lor (Z.land c (Z.lnot 0xff)) 32)]> (crt_buf s)) (crt_pos s - 1) s
           else s)
       else if low =? 10 then
         modify (fun s => let p := u16 (crt_pos s + CRT_COLS) in
           set_crt (addr_6845 s) (crt_buf s) (u16 (p - p mod CRT_COLS)) s)
       else if low =? 13 then
         modify (fun s => let p := crt_pos s in set_crt (addr_6845 s) (crt_buf s) (u16 (p - p mod CRT_COLS)) s)
       else if low =? 9 then
         do! cons_putc 32 ;; do! cons_putc 32 ;; do! cons_putc 32 ;; do! cons_putc 32 ;; cons_putc 32
       else
         modify (fun s => set_crt (addr_6845 s) (<[crt_pos s := u16 c]> (crt_buf s)) (u16 (crt_pos s + 1)) s)) ;;
  do! modify (fun s => if CRT_SIZE <=? crt_pos s
    then set_crt (addr_6845 s) (crt_scroll (crt_buf s)) (u16 (crt_pos s - CRT_COLS)) s else s) ;;
  let! addr := gets addr_6845 in
  do! outb addr 14 ;;
  let! p := gets crt_pos in
  do! outb (addr + 1) (Z.shiftr p 8) ;;
  do! outb addr 15 ;;
  let! p := gets crt_pos in
  outb (addr + 1) p.

(** A tab prints spaces, which are not tabs: the calls are two deep. *)
Fixpoint cons_putc_rec (depth : nat) (c : Z) : C unit :=
  match depth with
  | O => noret
  | S k =>
      do! serial_putc c ;;
      do! lpt_putc c ;;
      cga_putc (cons_putc_rec k) c
  end.
Definition cons_putc (c : Z) : C unit := cons_putc_rec 2 c.

Definition cputchar (c : Z) : C unit := cons_putc c.

(** [cprintf] of characters that are already formatted. *)
Definition say (l : list Z) : C unit := forM l cputchar.

(** ** Interrupt controllers and clock *)

Definition irq_setmask_8259A (mask : Z) : C unit :=
  do! modify (fun s => set_irq mask (didinit s) s) ;;
  let! init := gets didinit in
  if negb init then ret tt
  else
    do! outb (IO_PIC1 + 1) mask ;;
    do! outb (IO_PIC2 + 1) (Z.shiftr mask 8) ;;
    do! say (chars "enabled interrupts:") ;;
    do! forM (seqZ 0 16) (fun i =>
      if nz (Z.land (Z.lnot mask) (Z.shiftl 1 i))
      then say (32 :: (if i <? 10 then [48 + i] else [49; 48 + (i - 10)])) else ret tt) ;;
    say [10].

Definition pic_init : C unit :=
  do! modify (fun s => set_irq (irq_mask_8259A s) true s) ;;
  do! outb (IO_PIC1 + 1) 0xFF ;;
  do! outb (IO_PIC2 + 1) 0xFF ;;
  do! outb IO_PIC1 0x11 ;;
  do! outb (IO_PIC1 + 1) IRQ_OFFSET ;;
  do! outb (IO_PIC1 + 1) (Z.shiftl 1 IRQ_SLAVE) ;;
  do! outb (IO_PIC1 + 1) 0x3 ;;
  do! outb IO_PIC2 0x11 ;;
  do! outb (IO_PIC2 + 1) (IRQ_OFFSET + 8) ;;
  do! outb (IO_PIC2 + 1) IRQ_SLAVE ;;
  do! outb (IO_PIC2 + 1) 0x01 ;;
  do! outb IO_PIC1 0x68 ;;
  do! outb IO_PIC1 0x0a ;;
  do! outb IO_PIC2 0x68 ;;
  do! outb IO_PIC2 0x0a ;;
  let! m := gets irq_mask_8259A in
  if negb (m =? 0xFFFF) then irq_setmask_8259A m else ret tt.

Definition irq_eoi : C unit :=
  do! outb IO_PIC1 0x20 ;;
  outb IO_PIC2 0x20.

Definition mc146818_read (reg : Z) : C Z :=
  do! outb IO_RTC reg ;;
  inb (IO_RTC + 1).

Definition mc146818_write (reg datum : Z) : C unit :=
  do! outb IO_RTC reg ;;
  outb (IO_RTC + 1) datum.

(** ** Input *)

(** The ring buffer takes one character. *)
Definition cons_store (c : Z) : C unit := modify (fun s =>
  let w := wpos s + 1 in
  set_cons (<[wpos s := u8 c]> (cons_buf s)) (rpos s) (if w =? CONSBUFSIZE then 0 else w) s).

(** The loop ends when the device has no more characters; [fuel] bounds the
    number of times it is asked. *)
Definition cons_intr (fuel : nat) (proc : C Z) : C unit :=
  loop fuel (fun _ =>
    let! c := proc in
    if c =? -1 then ret (inr tt)
    else if c =? 0 then ret (inl tt)
    else do! cons_store c ;; ret (inl tt)) tt.

Definition serial_proc_data : C Z :=
  let! v := inb (COM1 + COM_LSR) in
  if negb (nz (Z.land v COM_LSR_DATA)) then ret (-1) else inb (COM1 + COM_RX).

Definition serial_intr (fuel : nat) : C unit :=
  let! e := gets serial_exists in
  if e then cons_intr fuel serial_proc_data else ret tt.

Definition kbd_proc_data : C Z :=
  let! st := inb KBSTATP in
  if Z.land st KBS_DIB =? 0 then ret (-1)
  else
    let! data := inb KBDATAP in
    let! sh := gets shift in
    let '(c, sh') := kbd_decode sh data in
    do! modify (set_shift sh') ;;
    do! (if (Z.land (Z.lnot sh') (Z.lor CTL ALT) =? 0) && (c =? KEY_DEL)
         then do! say (chars "Rebooting!" ++ [10]) ;; outb 0x92 0x3 else ret tt) ;;
    ret c.

Definition kbd_intr (fuel : nat) : C unit := cons_intr fuel kbd_proc_data.

Definition kbd_init (fuel : nat) : C unit :=
  do! kbd_intr fuel ;;
  let! m := gets irq_mask_8259A in
  irq_setmask_8259A (Z.land m (u16 (Z.lnot (Z.shiftl 1 1)))).

Definition serial_init : C unit :=
  do! outb (COM1 + COM_FCR) 0 ;;
  do! outb (COM1 + COM_LCR) COM_LCR_DLAB ;;
  do! outb (COM1 + COM_DLL) (115200 / 9600) ;;
  do! outb (COM1 + COM_DLM) 0 ;;
  do! outb (COM1 + COM_LCR) (Z.land COM_LCR_WLEN8 (Z.lnot COM_LCR_DLAB)) ;;
  do! outb (COM1 + COM_MCR) 0 ;;
  do! outb (COM1 + COM_IER) COM_IER_RDI ;;
  let! v := inb (COM1 + COM_LSR) in
  let e := negb (v =? 0xFF) in
  do! modify (set_serial_exists e) ;;
  do! inb (COM1 + COM_IIR) ;;
  do! inb (COM1 + COM_RX) ;;
  if e then
    let! m := gets irq_mask_8259A in
    irq_setmask_8259A (Z.land m (u16 (Z.lnot (Z.shiftl 1 4))))
  else ret tt.

Definition cons_getc (fuel : nat) : C Z :=
  do! serial_intr fuel ;;
  do! kbd_intr fuel ;;
  let! r := gets rpos in
  let! w := gets wpos in
  if negb (r =? w) then
    let! c := gets (fun s => cell (cons_buf s) r) in
    do! modify (fun s => set_cons (cons_buf s) (if r + 1 =? CONSBUFSIZE then 0 else r + 1) (wpos s) s) ;;
    ret c
  else ret 0.

Definition cons_init (fuel : nat) : C unit :=
  do! cga_init ;;
  do! kbd_init fuel ;;
  do! serial_init ;;
  let! e := gets serial_exists in
  if negb e then say (chars "Serial port does not exist!" ++ [10]) else ret tt.

(** Waits for a character: [rounds] of polling. *)
Definition getchar (rounds fuel : nat) : C Z :=
  loop rounds (fun _ =>
    let! c := cons_getc fuel in
    if c =? 0 then ret (inl tt) else ret (inr c)) tt.
End Console.
