(* ===== verification/ConsoleProps.v ===== *)
(** The console of kern/console.c is correct: its indices stay in range
    whatever the devices do, and with devices that deliver a finite input it is
    a queue of characters. *)

From S2P Require Import Prelude Console.

(** ** Every index stays in its array *)

(** Only cells of the array are written, with values of its type. *)
Definition array_ok (b : gmap Z Z) (n width : Z) : Prop := map_Forall (fun i v => 0 <= i < n /\ 0 <= v < 2 ^ width) b.

Record cons_ok {D : Type} (s : cstate D) : Prop := {
  ok_crt : array_ok (crt_buf s) CRT_SIZE 16;
  ok_pos : 0 <= crt_pos s < CRT_SIZE;
  ok_addr : addr_6845 s = MONO_BASE \/ addr_6845 s = CGA_BASE;
  ok_shift : 0 <= shift s < 128;
  ok_buf : array_ok (cons_buf s) CONSBUFSIZE 8;
  ok_rpos : 0 <= rpos s < CONSBUFSIZE;
  ok_wpos : 0 <= wpos s < CONSBUFSIZE;
}.

Lemma array_ok_insert b n w i v : array_ok b n w -> 0 <= i < n -> 0 <= v < 2 ^ w -> array_ok (<[i := v]> b) n w.
Proof. intros Hb Hi Hv. by apply map_Forall_insert_2. Qed.

Lemma array_ok_cell b n w i : 0 < w -> array_ok b n w -> 0 <= cell b i < 2 ^ w.
Proof.
  intros Hw Hb. unfold cell. destruct (b !! i) as [v|] eqn:E; cbn; [by apply (Hb i v)|].
  split; [done|]. by apply Z.pow_pos_nonneg; lia.
Qed.

Lemma array_ok_fill (f : Z -> Z) b n w l :
  array_ok b n w -> (forall i, i ∈ l -> 0 <= i < n /\ 0 <= f i < 2 ^ w) ->
  array_ok (foldl (fun acc i => <[i := f i]> acc) b l) n w.
Proof.
  revert b. induction l as [|i l IH]; intros b Hb Hl; [done|]. cbn. apply IH.
  - destruct (Hl i) as [H1 H2]; [lset|]. by apply array_ok_insert.
  - intros j Hj. apply Hl. lset.
Qed.

Lemma crt_scroll_ok b : array_ok b CRT_SIZE 16 -> array_ok (crt_scroll b) CRT_SIZE 16.
Proof.
  intros Hb. unfold crt_scroll. apply (array_ok_fill (fun _ => Z.lor 0x0700 32)).
  - apply (array_ok_fill (fun i => cell b (i + CRT_COLS))); [done|]. intros i Hi. apply elem_of_seqZ in Hi.
    change (CRT_SIZE - CRT_COLS) with 1920 in Hi. change CRT_SIZE with 2000. split; [lia|]. by eapply array_ok_cell.
  - intros i Hi. apply elem_of_seqZ in Hi. change (CRT_SIZE - CRT_COLS) with 1920 in Hi. change CRT_COLS with 80 in Hi.
    change CRT_SIZE with 2000. split; [lia|done].
Qed.

(** The tables hold bytes and the modifiers stay in the low seven bits. *)
Lemma kbd_decode_ok sh data : 0 <= sh < 128 -> byte data ->
  byte (kbd_decode sh data).1 /\ 0 <= (kbd_decode sh data).2 < 128.
Proof.
  intros Hs Hd.
  assert (Forall (fun sh => Forall (fun data => byte (kbd_decode sh data).1 /\ 0 <= (kbd_decode sh data).2 < 128) (seqZ 0 256)) (seqZ 0 128)) as H.
  { unfold byte. apply (bool_decide_unpack _). by vm_compute. }
  rewrite Forall_forall in H. specialize (H sh ltac:(apply elem_of_seqZ; lia)). rewrite Forall_forall in H.
  apply H. apply elem_of_seqZ. unfold byte in Hd. lia.
Qed.

(** ** Output *)

Section Output.
Context {D : Type} `{!ConsDev D}.

(** A relation on devices that every access of the output routines maintains. *)
Context (keep : D -> D -> Prop).
Context (keep_refl : forall d, keep d d) (keep_trans : forall d1 d2 d3, keep d1 d2 -> keep d2 d3 -> keep d1 d3).
Context (keep_in : forall p d, p <> KBDATAP -> p <> COM1 + COM_RX -> keep d (port_in p d).2).
Context (keep_out : forall p v d, p <> COM1 + COM_FCR -> keep d (port_out p v d)).

(** Output changes the devices and the display only. *)
Record outs (s s' : cstate D) : Prop := {
  out_dev : keep (cdev s) (cdev s');
  out_eq : s' = set_crt (addr_6845 s) (crt_buf s') (crt_pos s') (upd_dev (cdev s') s);
  out_ok : cons_ok s -> cons_ok s';
}.

Lemma outs_refl s : outs s s.
Proof using keep_refl. split; [done|by destruct s|done]. Qed.

Lemma outs_trans s1 s2 s3 : outs s1 s2 -> outs s2 s3 -> outs s1 s3.
Proof using keep_trans.
  intros [H1 H2 H3] [H4 H5 H6]. split; [by eapply keep_trans| |auto]. rewrite H5, H2. by destruct s1.
Qed.

Lemma upd_dev_outs d s : keep (cdev s) d -> outs s (upd_dev d s).
Proof using Type. intros H. split; [done|by destruct s|]. by intros [? ? ? ? ? ? ?]; split. Qed.

Lemma inb_run p s : p <> KBDATAP -> p <> COM1 + COM_RX -> exists v s', inb p s = Ret v s' /\ outs s s'.
Proof using keep_in.
  intros H1 H2. unfold inb. pose proof (keep_in p (cdev s) H1 H2) as Hk. destruct (port_in p (cdev s)) as [v d].
  eexists _, _. split; [done|]. by apply upd_dev_outs.
Qed.

Lemma outb_run p v s : p <> COM1 + COM_FCR -> exists s', outb p v s = Ret tt s' /\ outs s s'.
Proof using keep_out. intros H. eexists. split; [done|]. by apply upd_dev_outs, keep_out. Qed.

Lemma delay_run s : exists s', delay s = Ret tt s' /\ outs s s'.
Proof using keep_in keep_trans.
  unfold delay. destruct (inb_run 0x84 s) as (v1 & s1 & H1 & O1); [done..|]. mrun H1.
  destruct (inb_run 0x84 s1) as (v2 & s2 & H2 & O2); [done..|]. mrun H2.
  destruct (inb_run 0x84 s2) as (v3 & s3 & H3 & O3); [done..|]. mrun H3.
  destruct (inb_run 0x84 s3) as (v4 & s4 & H4 & O4); [done..|]. mrun H4.
  exists s4. split; [done|]. eauto using outs_trans.
Qed.

(** The waiting loops end, whatever the device answers. *)
Lemma wait_ready_run p bit s : p <> KBDATAP -> p <> COM1 + COM_RX -> exists s', wait_ready p bit s = Ret tt s' /\ outs s s'.
Proof using keep_in keep_refl keep_trans.
  intros H1 H2. unfold wait_ready.
  assert (forall n i s0, 0 <= i -> i + Z.of_nat n = 12800 -> exists s', loop (S n) (fun i =>
    let! v := inb p in
    if negb (nz (Z.land v bit)) && (i <? 12800) then do! delay ;; ret (inl (i + 1)) else ret (inr tt)) i s0 = Ret tt s' /\ outs s0 s') as Hl.
  { induction n as [|n IH]; intros i s0 Hi Hn; cbn [loop]; rewrite bind_assoc;
      destruct (inb_run p s0 H1 H2) as (v & s1 & Hr & O1); mrun Hr.
    - destruct (Z.ltb_spec i 12800); [lia|]. rewrite andb_false_r. by exists s1.
    - destruct (negb (nz (Z.land v bit)) && (i <? 12800)); [|by exists s1].
      rewrite bind_assoc. destruct (delay_run s1) as (s2 & Hd & O2). mrun Hd.
      destruct (IH (i + 1) s2) as (s3 & H3 & O3); [lia|lia|]. exists s3. split; [exact H3|]. eauto using outs_trans. }
  destruct (Hl (Z.to_nat 12800) 0 s) as (s' & Hr & O); [done|lia|]. exists s'. split; [|done].
  by replace (Z.to_nat 12801) with (S (Z.to_nat 12800)) by lia.
Qed.

#[local] Opaque wait_ready crt_scroll.

Lemma serial_putc_run c s : exists s', serial_putc c s = Ret tt s' /\ outs s s'.
Proof using keep_in keep_out keep_refl keep_trans.
  unfold serial_putc. destruct (wait_ready_run (COM1 + COM_LSR) COM_LSR_TXRDY s) as (s1 & H1 & O1); [done..|]. mrun H1.
  destruct (outb_run (COM1 + COM_TX) c s1) as (s2 & H2 & O2); [done|]. exists s2. split; [done|]. eauto using outs_trans.
Qed.

Lemma lpt_putc_run c s : exists s', lpt_putc c s = Ret tt s' /\ outs s s'.
Proof using keep_in keep_out keep_refl keep_trans.
  unfold lpt_putc. destruct (wait_ready_run (0x378 + 1) 0x80 s) as (s1 & H1 & O1); [done..|]. mrun H1.
  destruct (outb_run (0x378 + 0) c s1) as (s2 & H2 & O2); [done|]. mrun H2.
  destruct (outb_run (0x378 + 2) (Z.lor (Z.lor 0x08 0x04) 0x01) s2) as (s3 & H3 & O3); [done|]. mrun H3.
  destruct (outb_run (0x378 + 2) 0x08 s3) as (s4 & H4 & O4); [done|]. exists s4. split; [done|]. eauto 6 using outs_trans.
Qed.

Lemma set_crt_outs s d cells p : keep (cdev s) d -> array_ok cells CRT_SIZE 16 -> 0 <= p < CRT_SIZE ->
  outs s (set_crt (addr_6845 s) cells p (upd_dev d s)).
Proof using Type.
  intros Hk Hb Hp. split; [exact Hk|by destruct s|]. intros [H1 H2 H3 H4 H5 H6 H7].
  split; [exact Hb|exact Hp|exact H3|exact H4|exact H5|exact H6|exact H7].
Qed.

(** The display after the character and before scrolling. *)
Definition drawn (s s1 : cstate D) : Prop :=
  exists d cells p, s1 = set_crt (addr_6845 s) cells p (upd_dev d s) /\ keep (cdev s) d /\
    array_ok cells CRT_SIZE 16 /\ 0 <= p <= CRT_SIZE.

Lemma drawn_crt s cells p : array_ok cells CRT_SIZE 16 -> 0 <= p <= CRT_SIZE -> drawn s (set_crt (addr_6845 s) cells p s).
Proof using keep_refl. intros Hb Hp. exists (cdev s), cells, p. split; [by destruct s|done]. Qed.

Lemma outs_drawn s s1 : cons_ok s -> outs s s1 -> drawn s s1.
Proof using Type.
  intros Hok O. pose proof (out_ok _ _ O Hok) as [O1 O2 _ _ _ _ _]. exists (cdev s1), (crt_buf s1), (crt_pos s1).
  split; [apply (out_eq _ _ O)|]. split; [apply (out_dev _ _ O)|]. split; [done|lia].
Qed.

(** The steps after the switch of [cga_putc]. *)
Lemma cga_finish_run s s1 : cons_ok s -> drawn s s1 ->
  exists s', (do! modify (fun s : cstate D => if CRT_SIZE <=? crt_pos s
      then set_crt (addr_6845 s) (crt_scroll (crt_buf s)) (u16 (crt_pos s - CRT_COLS)) s else s) ;;
    let! addr := gets addr_6845 in
    do! outb addr 14 ;;
    let! p := gets crt_pos in
    do! outb (addr + 1) (Z.shiftr p 8) ;;
    do! outb addr 15 ;;
    let! p := gets crt_pos in
    outb (addr + 1) p) s1 = Ret tt s' /\ outs s s'.
Proof using keep_out keep_refl keep_trans.
  intros Hok (d & cells & p & -> & Hk & Hb & Hp). msteps.
  match goal with |- context [if CRT_SIZE <=? ?x then ?y else ?z] => set (s2 := if CRT_SIZE <=? x then y else z) end.
  assert (outs s s2 /\ addr_6845 s2 = addr_6845 s) as [O2 Ha2].
  { subst s2. cbn [crt_pos set_crt]. destruct (Z.leb_spec CRT_SIZE p); (split; [|done]).
    - assert (p = CRT_SIZE) as -> by lia. change (u16 (CRT_SIZE - CRT_COLS)) with 1920.
      apply (set_crt_outs s d (crt_scroll cells) 1920 Hk); [by apply crt_scroll_ok|]. change CRT_SIZE with 2000. lia.
    - apply set_crt_outs; [done|done|lia]. }
  clearbody s2. rewrite !Ha2.
  assert (forall x, addr_6845 s + x <> COM1 + COM_FCR \/ x <> 0 /\ x <> 1) as Hport.
  { intros x. unfold COM_FCR. destruct (ok_addr _ Hok) as [-> | ->]; unfold MONO_BASE, CGA_BASE; lia. }
  assert (addr_6845 s <> COM1 + COM_FCR) as Hp0 by (destruct (Hport 0); lia).
  assert (addr_6845 s + 1 <> COM1 + COM_FCR) as Hp1 by (destruct (Hport 1); lia).
  destruct (outb_run (addr_6845 s) 14 s2) as (s3 & H3 & O3); [done|]. mrun H3. msteps.
  destruct (outb_run (addr_6845 s + 1) (Z.shiftr (crt_pos s3) 8) s3) as (s4 & H4 & O4); [done|]. mrun H4.
  destruct (outb_run (addr_6845 s) 15 s4) as (s5 & H5 & O5); [done|]. mrun H5. msteps.
  destruct (outb_run (addr_6845 s + 1) (crt_pos s5) s5) as (s6 & H6 & O6); [done|].
  exists s6. split; [done|]. eauto 7 using outs_trans.
Qed.

Lemma cga_putc_run (putc : Z -> M (cstate D) unit) c s : cons_ok s ->
  (Z.land c 0xff = 9 -> forall s1, cons_ok s1 -> exists s2, putc 32 s1 = Ret tt s2 /\ outs s1 s2) ->
  exists s', cga_putc putc c s = Ret tt s' /\ outs s s'.
Proof using keep_in keep_out keep_refl keep_trans.
  intros Hok Htab. unfold cga_putc.
  match goal with |- context [if negb ?x then ?y else c] => set (c' := if negb x then y else c) end.
  assert (Z.land c' 0xff = Z.land c 0xff) as Hlow.
  { subst c'. destruct (negb _); [|done]. rewrite Z.land_lor_distr_l. change (Z.land 0x0700 0xff) with 0. apply Z.lor_0_r. }
  rewrite Hlow. clearbody c'. pose proof Hok as [H1 H2 _ _ _ _ _]. change CRT_SIZE with 2000 in H2.
  assert (forall x, 0 <= x <= 2000 -> u16 x = x) as Hu by (intros x Hx; apply u16_small; lia).
  match goal with |- exists s', bind ?m ?k s = _ /\ _ => assert (exists s1, m s = Ret tt s1 /\ drawn s s1) as (s1 & Hm & Hd) end.
  2: { rewrite (bind_Ret _ _ _ _ _ Hm). by apply cga_finish_run. }
  destruct (Z.land c 0xff =? 8); [|destruct (Z.land c 0xff =? 10); [|destruct (Z.land c 0xff =? 13); [|destruct (Z.eqb_spec (Z.land c 0xff) 9) as [H9|]]]].
  - eexists. split; [done|]. destruct (Z.ltb_spec 0 (crt_pos s)).
    + apply drawn_crt; [|change CRT_SIZE with 2000; lia].
      apply array_ok_insert; [done|change CRT_SIZE with 2000; lia|apply u16_range].
    + exists (cdev s), (crt_buf s), (crt_pos s). split; [by destruct s|]. split; [done|]. split; [done|]. change CRT_SIZE with 2000. lia.
  - eexists. split; [done|]. apply drawn_crt; [done|]. change CRT_SIZE with 2000. change CRT_COLS with 80. cbv zeta.
    assert (u16 (crt_pos s + 80) = crt_pos s + 80) as -> by (apply u16_small; lia).
    assert (0 <= (crt_pos s + 80) - (crt_pos s + 80) mod 80 <= 2000) by (Z.to_euclidean_division_equations; lia). by rewrite Hu.
  - eexists. split; [done|]. apply drawn_crt; [done|]. change CRT_SIZE with 2000. change CRT_COLS with 80. cbv zeta.
    assert (0 <= crt_pos s - crt_pos s mod 80 <= 2000) by (Z.to_euclidean_division_equations; lia). by rewrite Hu.
  - destruct (Htab H9 s Hok) as (s1 & R1 & O1). mrun R1. pose proof (out_ok _ _ O1 Hok) as K1.
    destruct (Htab H9 s1 K1) as (s2 & R2 & O2). mrun R2. pose proof (out_ok _ _ O2 K1) as K2.
    destruct (Htab H9 s2 K2) as (s3 & R3 & O3). mrun R3. pose proof (out_ok _ _ O3 K2) as K3.
    destruct (Htab H9 s3 K3) as (s4 & R4 & O4). mrun R4. pose proof (out_ok _ _ O4 K3) as K4.
    destruct (Htab H9 s4 K4) as (s5 & R5 & O5). exists s5. split; [done|]. apply outs_drawn; [done|]. eauto 6 using outs_trans.
  - eexists. split; [done|]. rewrite (Hu (crt_pos s + 1)) by lia. apply drawn_crt; [|change CRT_SIZE with 2000; lia].
    apply array_ok_insert; [done|change CRT_SIZE with 2000; lia|apply u16_range].
Qed.

Lemma cons_putc_run c s : cons_ok s -> exists s', cons_putc c s = Ret tt s' /\ outs s s'.
Proof using keep_in keep_out keep_refl keep_trans.
  assert (forall n c s, cons_ok s -> (Z.land c 0xff = 9 -> forall s1, cons_ok s1 -> exists s2, cons_putc_rec n 32 s1 = Ret tt s2 /\ outs s1 s2) ->
    exists s', cons_putc_rec (S n) c s = Ret tt s' /\ outs s s') as Hgen.
  { intros n c0 s0 Hok Htab. cbn [cons_putc_rec].
    destruct (serial_putc_run c0 s0) as (s1 & H1 & O1). mrun H1. destruct (lpt_putc_run c0 s1) as (s2 & H2 & O2). mrun H2.
    pose proof (out_ok _ _ O2 (out_ok _ _ O1 Hok)) as K2.
    destruct (cga_putc_run (cons_putc_rec n) c0 s2 K2 Htab) as (s3 & H3 & O3). exists s3. split; [done|]. eauto using outs_trans. }
  intros Hok. apply Hgen; [done|]. intros _ s1 Hok1. by apply Hgen.
Qed.

Lemma say_run l s : cons_ok s -> exists s', say l s = Ret tt s' /\ outs s s'.
Proof using keep_in keep_out keep_refl keep_trans.
  revert s. induction l as [|c l IH]; intros s Hok; [exists s; split; [done|by apply outs_refl]|].
  unfold say. cbn [forM]. destruct (cons_putc_run c s Hok) as (s1 & H1 & O1).
  rewrite (bind_Ret _ _ _ _ _ H1). destruct (IH s1 (out_ok _ _ O1 Hok)) as (s2 & H2 & O2).
  exists s2. split; [exact H2|]. eauto using outs_trans.
Qed.
End Output.

(** ** Safety with any devices *)

Section Safe.
Context {D : Type} `{!ConsDev D}.

(** The computation leaves the state in range and, if it returns, its value
    satisfies [Q]; it never panics. *)
Definition safe {A : Type} (m : M (cstate D) A) (s : cstate D) (Q : A -> Prop) : Prop :=
  match m s with
  | Ret a s' => cons_ok s' /\ Q a
  | NoRet s' => cons_ok s'
  | Panic _ _ => False
  end.

Lemma safe_bind {A B : Type} (m : M (cstate D) A) (k : A -> M (cstate D) B) s Q R :
  safe m s Q -> (forall a s', cons_ok s' -> Q a -> safe (k a) s' R) -> safe (bind m k) s R.
Proof. unfold safe, bind. intros H Hk. destruct (m s) as [a s'|s'|]; [|done..]. destruct H as [H1 H2]. by apply Hk. Qed.

Lemma safe_ret {A : Type} (a : A) s (Q : A -> Prop) : cons_ok s -> Q a -> safe (ret a) s Q.
Proof. done. Qed.

Lemma safe_loop {A B : Type} fuel (body : A -> M (cstate D) (A + B)) s x (Q : B -> Prop) :
  cons_ok s -> (forall y s', cons_ok s' -> safe (body y) s' (fun r => match r with inl _ => True | inr b => Q b end)) ->
  safe (loop fuel body x) s Q.
Proof.
  intros Hok Hb. revert s x Hok. induction fuel as [|n IH]; intros s x Hok; [done|]. cbn [loop].
  eapply safe_bind; [by apply Hb|]. intros [y|y] s' Hs' Hq; [by apply IH|by apply safe_ret].
Qed.

Lemma safe_inb p s : cons_ok s -> safe (inb p) s byte.
Proof.
  intros [H1 H2 H3 H4 H5 H6 H7]. unfold safe, inb. destruct (port_in p (cdev s)) as [v d]. split; [by split|].
  unfold byte, u8. by apply Z.mod_pos_bound.
Qed.

Lemma safe_outs {A : Type} (m : M (cstate D) A) s : cons_ok s -> (exists a s', m s = Ret a s' /\ outs (fun _ _ => True) s s') ->
  safe m s (fun _ => True).
Proof. intros Hok (a & s' & Hm & O). unfold safe. rewrite Hm. split; [|done]. by apply (out_ok _ _ _ O). Qed.

Lemma safe_say l s : cons_ok s -> safe (say l) s (fun _ => True).
Proof.
  intros Hok. apply safe_outs; [done|]. destruct (say_run (fun _ _ : D => True) ltac:(done) ltac:(done) ltac:(done) ltac:(done) l s Hok) as (s' & H).
  by exists tt, s'.
Qed.

Lemma safe_outb p v s : cons_ok s -> safe (outb p v) s (fun _ => True).
Proof. intros [H1 H2 H3 H4 H5 H6 H7]. split; [by split|done]. Qed.

Lemma safe_cons_store c s : cons_ok s -> safe (cons_store c) s (fun _ => True).
Proof.
  intros [H1 H2 H3 H4 H5 H6 H7]. unfold safe, cons_store, modify. split; [|done].
  split; cbn; try done.
  - apply array_ok_insert; [done|done|]. unfold u8. by apply Z.mod_pos_bound.
  - destruct (Z.eqb_spec (wpos s + 1) CONSBUFSIZE); [done|lia].
Qed.

Definition char_or_none (c : Z) : Prop := c = -1 \/ byte c.

Lemma safe_serial s : cons_ok s -> safe serial_proc_data s char_or_none.
Proof.
  intros Hok. unfold serial_proc_data. eapply safe_bind; [by apply safe_inb|]. intros v s1 H1 _.
  destruct (negb _); [by apply safe_ret; [|left]|].
  pose proof (safe_inb (COM1 + COM_RX) s1 H1) as H. unfold safe in *. destruct (inb _ s1); [|done..]. destruct H. by split; [|right].
Qed.

Lemma safe_kbd s : cons_ok s -> safe kbd_proc_data s char_or_none.
Proof.
  intros Hok. unfold kbd_proc_data. eapply safe_bind; [by apply safe_inb|]. intros v s1 H1 _.
  destruct (Z.land v KBS_DIB =? 0); [by apply safe_ret; [|left]|].
  eapply safe_bind; [by apply safe_inb|]. intros x s2 H2 Hx.
  eapply (safe_bind _ _ _ (fun sh => 0 <= sh < 128)); [by split; [|apply H2]|]. intros sh s3 H3 Hsh.
  pose proof (kbd_decode_ok sh x Hsh Hx) as [Hc Hs]. destruct (kbd_decode sh x) as [c sh']. cbn [fst snd] in *.
  eapply (safe_bind _ _ _ (fun _ => True)).
  { destruct H3 as [G1 G2 G3 G4 G5 G6 G7]. split; [by split|done]. }
  intros _ s4 H4 _. eapply (safe_bind _ _ _ (fun _ => True)).
  { destruct (_ && _); [|by apply safe_ret]. eapply safe_bind; [by apply safe_say|]. intros _ s5 H5 _. by apply safe_outb. }
  intros _ s5 H5 _. apply safe_ret; [done|by right].
Qed.

Lemma safe_cons_intr fuel proc s :
  cons_ok s -> (forall s', cons_ok s' -> safe proc s' char_or_none) -> safe (cons_intr fuel proc) s (fun _ => True).
Proof.
  intros Hok Hp. unfold cons_intr. apply safe_loop; [done|]. intros _ s1 H1.
  eapply safe_bind; [by apply Hp|]. intros c s2 H2 _. destruct (c =? -1); [done|]. destruct (c =? 0); [done|].
  eapply safe_bind; [by apply safe_cons_store|]. intros _ s3 H3 _. done.
Qed.

(** C33: with any devices at all, the console routines keep every position
    inside its array and every value within its type, and they never panic:
    printing a character returns, the keyboard and the serial port give a byte
    or nothing, and reading a character gives a byte or is still polling. *)
Theorem console_typed (s : cstate D) :
  cons_ok s ->
  (forall c, exists s', cons_putc c s = Ret tt s' /\ cons_ok s') /\
  safe kbd_proc_data s char_or_none /\ safe serial_proc_data s char_or_none /\
  (forall fuel, safe (serial_intr fuel) s (fun _ => True) /\ safe (kbd_intr fuel) s (fun _ => True) /\ safe (cons_getc fuel) s byte).
Proof.
  intros Hok. split; [|split; [by apply safe_kbd|split; [by apply safe_serial|]]].
  - intros c. destruct (cons_putc_run (fun _ _ : D => True) ltac:(done) ltac:(done) ltac:(done) ltac:(done) c s Hok) as (s' & H & O).
    exists s'. split; [done|]. by apply (out_ok _ _ _ O).
  - intros fuel.
    assert (forall s, cons_ok s -> safe (serial_intr fuel) s (fun _ => True)) as Hser.
    { intros s1 H1. unfold serial_intr. eapply (safe_bind _ _ _ (fun _ => True)); [done|]. intros e s2 H2 _.
      destruct e; [|done]. apply safe_cons_intr; [done|]. apply safe_serial. }
    assert (forall s, cons_ok s -> safe (kbd_intr fuel) s (fun _ => True)) as Hkbd.
    { intros s1 H1. apply safe_cons_intr; [done|]. apply safe_kbd. }
    split; [by apply Hser|]. split; [by apply Hkbd|].
    unfold cons_getc. eapply safe_bind; [by apply Hser|]. intros _ s1 H1 _. eapply safe_bind; [by apply Hkbd|]. intros _ s2 H2 _.
    destruct H2 as [G1 G2 G3 G4 G5 G6 G7]. unfold safe. msteps. destruct (Z.eqb_spec (rpos s2) (wpos s2)) as [|Hne]; [by split; [split|]|].
    cbn. split; [split; cbn; try done|by apply (array_ok_cell _ CONSBUFSIZE 8)].
    destruct (Z.eqb_spec (rpos s2 + 1) CONSBUFSIZE); [done|lia].
Qed.
End Safe.

(** ** The ring buffer is a queue *)

(** Devices that hold finite sequences of bytes: the status ports say whether
    there is one, the data ports deliver them in order, and no other access
    changes them. *)
Class ConsLaws (D : Type) `{!ConsDev D} : Type := {
  kbd_waiting : D -> list Z;
  serial_waiting : D -> list Z;
  in_kbd : forall p d, kbd_waiting (port_in p d).2 = if decide (p = KBDATAP) then tail (kbd_waiting d) else kbd_waiting d;
  in_serial : forall p d,
    serial_waiting (port_in p d).2 = if decide (p = COM1 + COM_RX) then tail (serial_waiting d) else serial_waiting d;
  out_waiting : forall p v d, p <> COM1 + COM_FCR ->
    kbd_waiting (port_out p v d) = kbd_waiting d /\ serial_waiting (port_out p v d) = serial_waiting d;
  kbd_ready : forall d, nz (Z.land (u8 (port_in KBSTATP d).1) KBS_DIB) = negb (bool_decide (kbd_waiting d = []));
  kbd_byte : forall d x r, kbd_waiting d = x :: r -> u8 (port_in KBDATAP d).1 = x;
  serial_ready : forall d, nz (Z.land (u8 (port_in (COM1 + COM_LSR) d).1) COM_LSR_DATA) = negb (bool_decide (serial_waiting d = []));
  serial_byte : forall d x r, serial_waiting d = x :: r -> u8 (port_in (COM1 + COM_RX) d).1 = x;
}.

(** What the keyboard routine answers for a sequence of scan codes. *)
Fixpoint kbd_results (sh : Z) (ks : list Z) : list Z :=
  match ks with
  | [] => []
  | k :: ks' => (kbd_decode sh k).1 :: kbd_results (kbd_decode sh k).2 ks'
  end.

(** Null characters are skipped. *)
Definition real_chars (cs : list Z) : list Z := List.filter nz cs.

Lemma real_chars_cons c cs : real_chars (c :: cs) = if c =? 0 then real_chars cs else c :: real_chars cs.
Proof. unfold real_chars, nz. cbn. by destruct (c =? 0). Qed.

(** The buffer holds the characters [q], oldest first. *)
Definition ring {D : Type} (s : cstate D) (q : list Z) : Prop :=
  Z.of_nat (length q) < CONSBUFSIZE /\ wpos s = (rpos s + Z.of_nat (length q)) mod CONSBUFSIZE /\
  forall i x, q !! i = Some x -> cell (cons_buf s) ((rpos s + Z.of_nat i) mod CONSBUFSIZE) = x.

Section Queue.
Context {D : Type} `{!ConsDev D, !ConsLaws D}.
Implicit Types s : cstate D.

Lemma cons_store_ring c s q :
  cons_ok s -> ring s q -> byte c -> Z.of_nat (length q) + 1 < CONSBUFSIZE ->
  exists s', cons_store c s = Ret tt s' /\ cons_ok s' /\ ring s' (q ++ [c]) /\
    s' = set_cons (cons_buf s') (rpos s) (wpos s') s.
Proof using Type.
  intros Hok (Hl & Hw & Hq) Hc Hroom. pose proof (safe_cons_store c s Hok) as [Hok' _].
  eexists. split; [done|]. split; [done|]. destruct Hok as [_ _ _ _ _ H6 H7]. split; [|by destruct s].
  unfold CONSBUFSIZE in *. unfold ring. cbn [rpos wpos cons_buf set_cons]. rewrite length_app. cbn [length].
  split; [unfold CONSBUFSIZE; lia|]. split.
  - unfold CONSBUFSIZE. destruct (Z.eqb_spec (wpos s + 1) 512); Z.to_euclidean_division_equations; lia.
  - intros i x Hi. unfold cell, CONSBUFSIZE in *. apply lookup_app_Some in Hi as [Hi|[Hge Hi]].
    + rewrite lookup_insert_ne; [by apply Hq|]. apply lookup_lt_Some in Hi. Z.to_euclidean_division_equations; lia.
    + apply list_lookup_singleton_Some in Hi as [Hi <-]. assert (i = length q) as -> by lia.
      rewrite <- Hw, lookup_insert_eq. cbn. unfold byte in Hc. unfold u8. by rewrite Z.mod_small.
Qed.

(** Emptying a device: [W s cs] says that [proc] will answer [cs] and then that
    there is nothing left. *)
Lemma cons_intr_run (proc : M (cstate D) Z) (W : cstate D -> list Z -> Prop) fuel s q cs :
  (forall s, cons_ok s -> W s [] -> exists s', proc s = Ret (-1) s' /\ cons_ok s' /\ W s' [] /\ (forall q, ring s q -> ring s' q)) ->
  (forall s c cs, cons_ok s -> W s (c :: cs) -> exists s', proc s = Ret c s' /\ cons_ok s' /\ W s' cs /\ byte c /\ (forall q, ring s q -> ring s' q)) ->
  (forall s cs b r w, W s cs -> W (set_cons b r w s) cs) ->
  cons_ok s -> W s cs -> ring s q -> Z.of_nat (length (q ++ real_chars cs)) < CONSBUFSIZE -> (length cs < fuel)%nat ->
  exists s', cons_intr fuel proc s = Ret tt s' /\ cons_ok s' /\ W s' [] /\ ring s' (q ++ real_chars cs).
Proof using Type.
  intros H1 H2 H3. revert s q cs. induction fuel as [|n IH]; intros s q cs Hok HW Hr Hroom Hf; [lia|].
  unfold cons_intr. cbn [loop]. destruct cs as [|c cs].
  - destruct (H1 s Hok HW) as (s1 & Hp & Hok1 & HW1 & Hr1). rewrite bind_assoc. mrun Hp. change (-1 =? -1) with true.
    exists s1. rewrite app_nil_r. split; [done|]. auto.
  - destruct (H2 s c cs Hok HW) as (s1 & Hp & Hok1 & HW1 & Hc & Hr1). rewrite bind_assoc. mrun Hp.
    destruct (Z.eqb_spec c (-1)) as [->|_]; [by destruct Hc|]. cbn [length] in Hf. rewrite real_chars_cons in *.
    destruct (Z.eqb_spec c 0) as [->|Hnz].
    + apply (IH s1 q cs); auto. lia.
    + rewrite length_app in Hroom. cbn [length] in Hroom.
      destruct (cons_store_ring c s1 q Hok1 (Hr1 q Hr) Hc) as (s2 & Hs & Hok2 & Hr2 & Heq); [lia|].
      rewrite bind_assoc. mrun Hs. destruct (IH s2 (q ++ [c]) cs) as (s3 & Hl & Hok3 & HW3 & Hr3); try done.
      * rewrite Heq. by apply H3.
      * rewrite !length_app. cbn [length]. lia.
      * lia.
      * exists s3. split; [exact Hl|]. by rewrite <- app_assoc in Hr3.
Qed.

(** The routines that only output keep what waits at the devices. *)
Definition same_waiting (d d' : D) : Prop := kbd_waiting d' = kbd_waiting d /\ serial_waiting d' = serial_waiting d.

Lemma same_in p d : p <> KBDATAP -> p <> COM1 + COM_RX -> same_waiting d (port_in p d).2.
Proof using Type. intros H1 H2. split; [rewrite in_kbd|rewrite in_serial]; by rewrite decide_False. Qed.

Lemma same_trans d1 d2 d3 : same_waiting d1 d2 -> same_waiting d2 d3 -> same_waiting d1 d3.
Proof using Type. intros [H1 H2] [H3 H4]. split; congruence. Qed.

Lemma inb_dev p s : exists s', inb p s = Ret (u8 (port_in p (cdev s)).1) s' /\ s' = upd_dev (port_in p (cdev s)).2 s.
Proof using Type. unfold inb. destruct (port_in p (cdev s)). by eexists. Qed.

Lemma upd_dev_ok d s : cons_ok s -> cons_ok (upd_dev d s).
Proof using Type. intros [? ? ? ? ? ? ?]. by split. Qed.

(** The serial port. *)
Lemma serial_intr_run fuel s q ks ss :
  cons_ok s -> ring s q -> kbd_waiting (cdev s) = ks -> serial_waiting (cdev s) = ss -> Forall byte ss ->
  let arrived := if serial_exists s then real_chars ss else [] in
  Z.of_nat (length (q ++ arrived)) < CONSBUFSIZE -> (length ss < fuel)%nat ->
  exists s', serial_intr fuel s = Ret tt s' /\ cons_ok s' /\ ring s' (q ++ arrived) /\ kbd_waiting (cdev s') = ks /\
    shift s' = shift s /\ (serial_exists s = true -> serial_waiting (cdev s') = []).
Proof using Type.
  intros Hok Hr Hk Hs Hb arrived Hroom Hf. unfold serial_intr. msteps. subst arrived. destruct (serial_exists s).
  2: { exists s. rewrite app_nil_r. split; [done|]. by split_ands. }
  destruct (cons_intr_run serial_proc_data (fun s1 cs => serial_waiting (cdev s1) = cs /\ Forall byte cs /\ kbd_waiting (cdev s1) = ks /\
    shift s1 = shift s) fuel s q ss) as (s' & Hrun & Hok' & (W1 & _ & W3 & W4) & Hr'); try done.
  - intros s1 Hok1 (W1 & _ & W3 & W4). unfold serial_proc_data.
    destruct (inb_dev (COM1 + COM_LSR) s1) as (s2 & R2 & E2). mrun R2. rewrite serial_ready, W1. cbn [negb bool_decide decide].
    exists s2. split; [done|]. rewrite E2. destruct (same_in (COM1 + COM_LSR) (cdev s1)) as [Q1 Q2]; [done..|].
    split; [by apply upd_dev_ok|]. split; [|done]. cbn [cdev upd_dev shift]. by rewrite Q1, Q2.
  - intros s1 c cs Hok1 (W1 & Wb & W3 & W4). apply Forall_cons in Wb as [Hc Wb]. unfold serial_proc_data.
    destruct (inb_dev (COM1 + COM_LSR) s1) as (s2 & R2 & E2). mrun R2. rewrite serial_ready, W1. cbn [negb bool_decide decide].
    destruct (same_in (COM1 + COM_LSR) (cdev s1)) as [Q1 Q2]; [done..|].
    assert (cdev s2 = (port_in (COM1 + COM_LSR) (cdev s1)).2) as Ed by (by rewrite E2). rewrite <- Ed in Q1, Q2.
    destruct (inb_dev (COM1 + COM_RX) s2) as (s3 & R3 & E3).
    rewrite (serial_byte _ c cs) in R3 by (by rewrite Q2). exists s3. split; [exact R3|]. rewrite E3, E2.
    split; [by apply upd_dev_ok, upd_dev_ok|]. split; [|done]. cbn [cdev upd_dev shift]. rewrite <- Ed.
    rewrite in_serial, in_kbd, decide_True, decide_False by done. by rewrite Q2, Q1, W1.
  - exists s'. split; [done|]. by split_ands.
Qed.

(** One scan code. *)
Lemma kbd_proc_code s x ks :
  cons_ok s -> kbd_waiting (cdev s) = x :: ks -> byte x ->
  exists s', kbd_proc_data s = Ret (kbd_decode (shift s) x).1 s' /\ cons_ok s' /\ byte (kbd_decode (shift s) x).1 /\
    kbd_waiting (cdev s') = ks /\ serial_waiting (cdev s') = serial_waiting (cdev s) /\
    shift s' = (kbd_decode (shift s) x).2 /\ (forall q, ring s q -> ring s' q).
Proof using Type.
  intros Hok Hk Hx. pose proof (kbd_decode_ok (shift s) x (ok_shift _ Hok) Hx) as [Hc Hsh]. unfold kbd_proc_data.
  destruct (inb_dev KBSTATP s) as (s1 & R1 & E1). mrun R1.
  assert ((Z.land (u8 (port_in KBSTATP (cdev s)).1) KBS_DIB =? 0) = false) as ->.
  { pose proof (kbd_ready (cdev s)) as Hrd. rewrite Hk in Hrd. cbn in Hrd. by apply negb_true_iff. }
  destruct (same_in KBSTATP (cdev s)) as [Q1 Q2]; [done..|].
  assert (cdev s1 = (port_in KBSTATP (cdev s)).2) as Ed by (by rewrite E1). rewrite <- Ed in Q1, Q2.
  destruct (inb_dev KBDATAP s1) as (s2 & R2 & E2). rewrite (kbd_byte _ x ks) in R2 by (by rewrite Q1). mrun R2. msteps.
  assert (shift s2 = shift s) as -> by (by rewrite E2, E1). destruct (kbd_decode (shift s) x) as [c sh']. cbn [fst snd] in *. msteps.
  set (s3 := set_shift sh' s2).
  assert (cons_ok s3) as Hok3.
  { subst s3. rewrite E2, E1. destruct Hok as [? ? ? ? ? ? ?]. by split. }
  assert (kbd_waiting (cdev s3) = ks /\ serial_waiting (cdev s3) = serial_waiting (cdev s)) as [K3 S3].
  { subst s3. rewrite E2. cbn [cdev set_shift upd_dev]. rewrite in_kbd, in_serial, decide_True, decide_False by done. by rewrite Q1, Hk, Q2. }
  assert (forall q, ring s q -> ring s3 q) as Hr3 by (subst s3; by rewrite E2, E1).
  assert (shift s3 = sh') as Hs3 by done. clearbody s3.
  match goal with |- context [bind ?m _ s3] => assert (exists s4, m s3 = Ret tt s4 /\ outs same_waiting s3 s4) as (s4 & R4 & O4) end.
  { destruct (_ && _); [|exists s3; split; [done|by apply outs_refl]].
    destruct (say_run same_waiting ltac:(done) same_trans same_in ltac:(by apply out_waiting) (chars "Rebooting!" ++ [10]) s3 Hok3) as (s4 & R4 & O4).
    mrun R4. destruct (outb_run same_waiting ltac:(by apply out_waiting) 0x92 0x3 s4) as (s5 & R5 & O5); [done|].
    exists s5. split; [done|]. eapply outs_trans; [exact same_trans|done..]. }
  mrun R4. destruct O4 as [[P1 P2] O4 Hok4]. exists s4. split; [done|]. split; [auto|]. split; [done|].
  rewrite P1, P2, K3, S3. split_ands; try done.
  - by rewrite O4.
  - intros q Hq. rewrite O4. by apply Hr3.
Qed.

(** The keyboard. *)
Lemma kbd_intr_run fuel s q ks ss :
  cons_ok s -> ring s q -> kbd_waiting (cdev s) = ks -> serial_waiting (cdev s) = ss -> Forall byte ks ->
  let arrived := real_chars (kbd_results (shift s) ks) in
  Z.of_nat (length (q ++ arrived)) < CONSBUFSIZE -> (length ks < fuel)%nat ->
  exists s', kbd_intr fuel s = Ret tt s' /\ cons_ok s' /\ ring s' (q ++ arrived) /\ kbd_waiting (cdev s') = [] /\
    serial_waiting (cdev s') = ss.
Proof using Type.
  intros Hok Hr Hk Hs Hb arrived Hroom Hf.
  assert (forall sh ks, length (kbd_results sh ks) = length ks) as Hlen.
  { intros sh ks'. revert sh. induction ks' as [|x ks' IH]; intros sh; cbn; [done|]. by rewrite IH. }
  destruct (cons_intr_run kbd_proc_data (fun s1 cs => exists ks1, kbd_waiting (cdev s1) = ks1 /\ Forall byte ks1 /\
      kbd_results (shift s1) ks1 = cs /\ serial_waiting (cdev s1) = ss) fuel s q (kbd_results (shift s) ks))
    as (s' & Hrun & Hok' & (ks1 & W1 & W2 & W3 & W4) & Hr'); try done.
  - intros s1 Hok1 (ks1 & W1 & W2 & W3 & W4). destruct ks1; [|done]. unfold kbd_proc_data.
    destruct (inb_dev KBSTATP s1) as (s2 & R2 & E2). mrun R2.
    assert ((Z.land (u8 (port_in KBSTATP (cdev s1)).1) KBS_DIB =? 0) = true) as ->.
    { pose proof (kbd_ready (cdev s1)) as Hrd. rewrite W1 in Hrd. cbn in Hrd. by apply negb_false_iff. }
    exists s2. split; [done|]. rewrite E2. destruct (same_in KBSTATP (cdev s1)) as [Q1 Q2]; [done..|].
    split; [by apply upd_dev_ok|]. split; [|done]. exists []. cbn [cdev upd_dev]. by rewrite Q1, Q2.
  - intros s1 c cs Hok1 (ks1 & W1 & W2 & W3 & W4). destruct ks1 as [|x ks1]; [done|]. cbn [kbd_results] in W3.
    injection W3 as Ec Ecs. apply Forall_cons in W2 as [Hx W2].
    destruct (kbd_proc_code s1 x ks1 Hok1 W1 Hx) as (s2 & R2 & Hok2 & Hc & K2 & S2 & Hsh & Hr2). subst c.
    exists s2. split; [done|]. split; [done|]. split; [|done]. exists ks1. split; [done|]. split; [done|].
    rewrite Hsh, S2. done.
  - by exists ks.
  - rewrite Hlen. done.
  - exists s'. split; [done|]. split; [done|]. split; [done|]. destruct ks1; done.
Qed.

(** C11: [cons_getc] takes the oldest character of a queue, or answers 0 when it
    is empty; before, the characters waiting at the serial port and the
    characters the waiting scan codes stand for have been put at the end of the
    queue, and both devices have been emptied. This holds as long as no more than
    511 characters wait, and the loops end when they may ask once more than the
    device has bytes. *)
Theorem cons_getc_queue fuel s q ks ss :
  cons_ok s -> ring s q -> kbd_waiting (cdev s) = ks -> serial_waiting (cdev s) = ss -> Forall byte ks -> Forall byte ss ->
  let all := q ++ (if serial_exists s then real_chars ss else []) ++ real_chars (kbd_results (shift s) ks) in
  Z.of_nat (length all) < CONSBUFSIZE -> (length ks < fuel)%nat -> (length ss < fuel)%nat ->
  exists s', cons_getc fuel s = Ret (default 0 (head all)) s' /\ ring s' (tail all) /\ cons_ok s' /\
    kbd_waiting (cdev s') = [] /\ (serial_exists s = true -> serial_waiting (cdev s') = []).
Proof using Type.
  intros Hok Hr Hk Hs Hbk Hbs all Hroom Hf1 Hf2. unfold cons_getc. subst all. rewrite app_assoc in *.
  destruct (serial_intr_run fuel s q ks ss Hok Hr Hk Hs Hbs) as (s1 & R1 & Hok1 & Hr1 & K1 & Sh1 & S1); [rewrite length_app in Hroom; lia|done|].
  mrun R1. rewrite <- Sh1 in *.
  destruct (kbd_intr_run fuel s1 _ ks (serial_waiting (cdev s1)) Hok1 Hr1 K1 eq_refl Hbk Hroom Hf1) as (s2 & R2 & Hok2 & Hr2 & K2 & S2).
  mrun R2. msteps. destruct Hr2 as (Hl & Hw & Hq). pose proof Hok2 as [G1 G2 G3 G4 G5 G6 G7]. unfold CONSBUFSIZE in *.
  destruct (_ ++ real_chars _) as [|c rest]; cbn [length] in Hl, Hw.
  - destruct (Z.eqb_spec (rpos s2) (wpos s2)) as [_|Hne]; [|Z.to_euclidean_division_equations; lia]. exists s2. rewrite S2.
    split; [done|]. split; [|done]. by split.
  - destruct (Z.eqb_spec (rpos s2) (wpos s2)) as [He|_]; [Z.to_euclidean_division_equations; lia|]. cbn [negb]. msteps.
    pose proof (Hq 0%nat c eq_refl) as Hc. rewrite Z.add_0_r, Z.mod_small in Hc by lia. rewrite Hc. eexists. split; [done|].
    split; [split|split; [|by rewrite <- S2 in S1]].
    + cbn [tail]. unfold CONSBUFSIZE. lia.
    + unfold CONSBUFSIZE. cbn [rpos wpos cons_buf set_cons tail]. split.
      * rewrite Hw. destruct (Z.eqb_spec (rpos s2 + 1) 512) as [E|E]; Z.to_euclidean_division_equations; lia.
      * intros i x Hi. rewrite <- (Hq (S i) x Hi). f_equal.
        destruct (Z.eqb_spec (rpos s2 + 1) 512) as [E|E]; Z.to_euclidean_division_equations; lia.
    + split; cbn; try done. unfold CONSBUFSIZE. destruct (Z.eqb_spec (rpos s2 + 1) 512); lia.
Qed.
End Queue.

(** ** Concrete devices *)

(** Scan codes and serial input still to be read; the outputs are always ready. *)
#[export] Instance queue_dev : ConsDev (list Z * list Z) := {|
  port_in p d :=
    if decide (p = KBSTATP) then (if bool_decide (d.1 = []) then 0 else KBS_DIB, d)
    else if decide (p = KBDATAP) then (default 0 (head d.1), (tail d.1, d.2))
    else if decide (p = COM1 + COM_LSR) then (if bool_decide (d.2 = []) then 0x20 else 0x21, d)
    else if decide (p = COM1 + COM_RX) then (default 0 (head d.2), (d.1, tail d.2))
    else (0x80, d);
  port_out p v d := d;
  cga_present d := true;
  text_memory c d := ∅;
|}.

#[export] Instance queue_laws : ConsLaws (list Z * list Z).
Proof.
  refine {| kbd_waiting d := u8 <$> d.1; serial_waiting d := u8 <$> d.2 |}.
  - intros p [k s]. unfold port_in, queue_dev. repeat case_decide; subst; try done; by destruct k.
  - intros p [k s]. unfold port_in, queue_dev. repeat case_decide; subst; try done; by destruct s.
  - done.
  - intros [[|x k] s]; done.
  - intros [[|x k] s] y r [=]; done.
  - intros [k [|x s]]; done.
  - intros [k [|x s]] y r [=]; done.
Defined.

(** Shift and the key of the letter a are pressed and the serial port has
    received a null character and the letter h. *)
Definition typing : cstate (list Z * list Z) :=
  mkC ([0x2A; 0x1E], [0; 104]) true CGA_BASE ∅ 0 0 ∅ 511 511 0xFFFF false.

Lemma typing_ok : cons_ok typing.
Proof. split; try done; try apply map_Forall_empty. by right. Qed.

Lemma console_typed_witness :
  (forall c, exists s', cons_putc c typing = Ret tt s' /\ cons_ok s') /\
  safe kbd_proc_data typing char_or_none /\ safe serial_proc_data typing char_or_none /\
  (forall fuel, safe (serial_intr fuel) typing (fun _ => True) /\ safe (kbd_intr fuel) typing (fun _ => True) /\
     safe (cons_getc fuel) typing byte).
Proof. exact (console_typed typing typing_ok). Defined.

Lemma cons_getc_queue_witness :
  exists s', cons_getc 3 typing = Ret 104 s' /\ ring s' [65] /\ cons_ok s' /\
    kbd_waiting (cdev s') = [] /\ (serial_exists typing = true -> serial_waiting (cdev s') = []).
Proof.
  apply (cons_getc_queue 3 typing [] [0x2A; 0x1E] [0; 104] typing_ok); try done; try (cbn; lia).
  all: apply (bool_decide_unpack _); by vm_compute.
Defined.
