(* ===== verification/Spinlock.v ===== *)
(** The kernel's spin locks, kern/spinlock.c, on any number of processors, and
    the clock of kern/time.c. *)

From S2P Require Import Prelude Kernel.

(** ** The lock *)

(** [struct spinlock]; a processor is its number, a null [cpu] is [None]. *)
Record spinlock : Type := mkSpinlock {
  locked : Z;
  lk_cpu : option Z;
  pcs : list Z;
}.

(** The saved program counters of the call chain from [rbp]; [rd] reads a word of
    kernel memory. *)
Fixpoint get_caller_pcs_loop (n : nat) (rd : Z -> Z) (rbp : Z) : list Z :=
  match n with
  | O => []
  | S n' =>
      if (rbp =? 0) || (rbp <? ULIM) then replicate n 0
      else rd (rbp + 8) :: get_caller_pcs_loop n' rd (rd rbp)
  end.
Definition get_caller_pcs (rd : Z -> Z) (rbp : Z) : list Z := get_caller_pcs_loop 10 rd rbp.

Definition spin_initlock : spinlock := mkSpinlock 0 None (replicate 10 0).

(** ** Processors

    Where a processor is. Every access to the lock is a step of its own, since
    another processor may run between any two of them. *)
Inductive pc : Type :=
| Idle                 (* not in the kernel *)
| LockHolding1         (* spin_lock: holding() reads lock->locked *)
| LockHolding2         (* spin_lock: holding() reads lock->cpu *)
| LockXchg             (* spin_lock: the loop on xchg *)
| LockSetCpu           (* spin_lock: lk->cpu = thiscpu *)
| LockSetPcs           (* spin_lock: get_caller_pcs(lk->pcs) *)
| Critical             (* after spin_lock returned *)
| UnlockHolding1       (* spin_unlock: holding() reads lock->locked *)
| UnlockHolding2       (* spin_unlock: holding() reads lock->cpu *)
| UnlockClearPcs       (* spin_unlock: lk->pcs[0] = 0 *)
| UnlockClearCpu       (* spin_unlock: lk->cpu = 0 *)
| UnlockXchg           (* spin_unlock: xchg(&lk->locked, 0) *)
| Panicked.

Record lockst : Type := mkLockst {
  lk : spinlock;
  cpus : Z -> pc;
}.

Definition goto (c : Z) (p : pc) (s : lockst) : lockst :=
  mkLockst (lk s) (fun c' => if decide (c = c') then p else cpus s c').
Definition set_lk (k : spinlock) (s : lockst) : lockst := mkLockst k (cpus s).

Section Locks.
(** The frame pointer of each processor and its stack memory. *)
Context (rbp : Z -> Z) (stack : Z -> Z -> Z).

(** One step of processor [c] in [spin_lock]. *)
Definition spin_lock_step (c : Z) (s : lockst) : lockst :=
  let k := lk s in
  match cpus s c with
  | LockHolding1 => goto c (if nz (locked k) then LockHolding2 else LockXchg) s
  | LockHolding2 => goto c (if decide (lk_cpu k = Some c) then Panicked else LockXchg) s
  | LockXchg => goto c (if nz (locked k) then LockXchg else LockSetCpu) (set_lk (mkSpinlock 1 (lk_cpu k) (pcs k)) s)
  | LockSetCpu => goto c LockSetPcs (set_lk (mkSpinlock (locked k) (Some c) (pcs k)) s)
  | LockSetPcs => goto c Critical (set_lk (mkSpinlock (locked k) (lk_cpu k) (get_caller_pcs (stack c) (rbp c))) s)
  | _ => s
  end.

(** One step of processor [c] in [spin_unlock]. *)
Definition spin_unlock_step (c : Z) (s : lockst) : lockst :=
  let k := lk s in
  match cpus s c with
  | UnlockHolding1 => goto c (if nz (locked k) then UnlockHolding2 else Panicked) s
  | UnlockHolding2 => goto c (if decide (lk_cpu k = Some c) then UnlockClearPcs else Panicked) s
  | UnlockClearPcs => goto c UnlockClearCpu (set_lk (mkSpinlock (locked k) (lk_cpu k) (<[0%nat := 0]> (pcs k))) s)
  | UnlockClearCpu => goto c UnlockXchg (set_lk (mkSpinlock (locked k) None (pcs k)) s)
  | UnlockXchg => goto c Idle (set_lk (mkSpinlock 0 (lk_cpu k) (pcs k)) s)
  | _ => s
  end.

(** A step of the machine: a processor enters [spin_lock] from outside the
    kernel, leaves its critical section through [spin_unlock], or makes a step
    of one of them. *)
Inductive step : lockst -> lockst -> Prop :=
| StepEnter c s : cpus s c = Idle -> step s (goto c LockHolding1 s)
| StepLeave c s : cpus s c = Critical -> step s (goto c UnlockHolding1 s)
| StepLock c s : step s (spin_lock_step c s)
| StepUnlock c s : step s (spin_unlock_step c s).

(** All processors outside the kernel, the lock initialised. *)
Definition lock_init : lockst := mkLockst spin_initlock (fun _ => Idle).

(** ** The invariant *)

(** The processor has won the lock and not yet given it back. *)
Definition owns (p : pc) : bool :=
  match p with
  | LockSetCpu | LockSetPcs | Critical | UnlockHolding1 | UnlockHolding2
  | UnlockClearPcs | UnlockClearCpu | UnlockXchg => true
  | _ => false
  end.

(** The processor is recorded as the owner. *)
Definition recorded (p : pc) : bool :=
  match p with
  | LockSetPcs | Critical | UnlockHolding1 | UnlockHolding2 | UnlockClearPcs | UnlockClearCpu => true
  | _ => false
  end.

Record lock_inv (s : lockst) : Prop := {
  li_free : locked (lk s) = 0 -> forall c, owns (cpus s c) = false;
  li_held : locked (lk s) <> 0 -> exists c, owns (cpus s c) = true;
  li_one : forall c c', owns (cpus s c) = true -> owns (cpus s c') = true -> c = c';
  li_cpu : forall c, lk_cpu (lk s) = Some c <-> recorded (cpus s c) = true;
  li_ok : forall c, cpus s c <> Panicked;
}.

Lemma recorded_owns p : recorded p = true -> owns p = true.
Proof. by destruct p. Qed.

Lemma lock_inv_init : lock_inv lock_init.
Proof. by split. Qed.

(** A step of processor [c] that stays on the same side of the lock. *)
Lemma lock_inv_move c s s' p :
  lock_inv s -> cpus s' = cpus (goto c p s) -> locked (lk s') = locked (lk s) -> lk_cpu (lk s') = lk_cpu (lk s) ->
  owns p = owns (cpus s c) -> recorded p = recorded (cpus s c) -> p <> Panicked -> lock_inv s'.
Proof.
  intros [I1 I2 I3 I4 I5] Hc Hl Hk Ho Hr Hp.
  assert (forall c', owns (cpus s' c') = owns (cpus s c')) as Ho'.
  { intros c'. rewrite Hc. cbn. by case_decide; subst. }
  assert (forall c', recorded (cpus s' c') = recorded (cpus s c')) as Hr'.
  { intros c'. rewrite Hc. cbn. by case_decide; subst. }
  split.
  - rewrite Hl. intros H c'. rewrite Ho'. auto.
  - rewrite Hl. intros H. destruct (I2 H) as [c' H']. exists c'. by rewrite Ho'.
  - intros a b. rewrite !Ho'. apply I3.
  - intros c'. by rewrite Hk, Hr'.
  - intros c'. rewrite Hc. cbn. by case_decide.
Qed.

(** A step that changes who owns the lock or who is recorded. *)
Lemma lock_inv_change c s s' p :
  lock_inv s -> cpus s' = cpus (goto c p s) -> p <> Panicked ->
  (forall c', c' <> c -> owns (cpus s c') = false) ->
  (locked (lk s') <> 0 <-> owns p = true) -> lk_cpu (lk s') = (if recorded p then Some c else None) -> lock_inv s'.
Proof.
  intros [_ _ _ _ I5] Hc Hp Hother Hl Hk.
  assert (forall c', cpus s' c' = if decide (c = c') then p else cpus s c') as Hat by (by rewrite Hc).
  assert (forall c', owns (cpus s' c') = true -> c' = c) as Hown.
  { intros c'. rewrite Hat. case_decide; [done|]. by rewrite Hother. }
  split.
  - intros H c'. rewrite Hat. case_decide; [|by apply Hother].
    apply not_true_is_false. intros E. by apply Hl in E.
  - intros H. exists c. rewrite Hat, decide_True by done. by apply Hl.
  - intros a b Ha Hb. by rewrite (Hown a Ha), (Hown b Hb).
  - intros c'. rewrite Hk. split.
    + destruct (recorded p) eqn:E; [|done]. intros [= <-]. by rewrite Hat, decide_True.
    + intros H. pose proof (Hown c' (recorded_owns _ H)) as ->. rewrite Hat, decide_True in H by done. by rewrite H.
  - intros c'. rewrite Hat. by case_decide.
Qed.

Lemma owner_locked s c : lock_inv s -> owns (cpus s c) = true -> locked (lk s) <> 0 /\ forall c', c' <> c -> owns (cpus s c') = false.
Proof.
  intros I Ho. split.
  - intros H0. by rewrite (li_free _ I H0) in Ho.
  - intros c' Hc. destruct (owns (cpus s c')) eqn:E; [|done]. by destruct Hc; apply (li_one _ I).
Qed.

Lemma spin_lock_step_inv c s : lock_inv s -> lock_inv (spin_lock_step c s).
Proof.
  intros I. unfold spin_lock_step. destruct (cpus s c) eqn:Hpc; try exact I.
  - unfold nz. destruct (locked (lk s) =? 0); (eapply (lock_inv_move c); [exact I|reflexivity..| | |done]; by rewrite Hpc).
  - case_decide as Hd.
    + apply (li_cpu _ I) in Hd. by rewrite Hpc in Hd.
    + eapply (lock_inv_move c); [exact I|reflexivity..| | |done]; by rewrite Hpc.
  - unfold nz. destruct (Z.eqb_spec (locked (lk s)) 0) as [H0|H0]; cbn [negb].
    + eapply (lock_inv_change c); [exact I|reflexivity|done|intros c' _; by apply (li_free _ I)|done|].
      cbn. destruct (lk_cpu (lk s)) as [c'|] eqn:Ek; [|done].
      apply (li_cpu _ I) in Ek. apply recorded_owns in Ek. by rewrite (li_free _ I H0) in Ek.
    + destruct (li_held _ I H0) as [o Ho]. destruct I as [I1 I2 I3 I4 I5].
      assert (forall c', cpus (goto c LockXchg (set_lk (mkSpinlock 1 (lk_cpu (lk s)) (pcs (lk s))) s)) c' = cpus s c') as Hat.
      { intros c'. cbn. by case_decide; subst. }
      split; try done; [by exists o; rewrite Hat|..]; intros *; rewrite !Hat; eauto.
  - assert (owns (cpus s c) = true) as Ho by (by rewrite Hpc). destruct (owner_locked s c I Ho) as [Hl Hother].
    by eapply (lock_inv_change c).
  - eapply (lock_inv_move c); [exact I|reflexivity..| | |done]; by rewrite Hpc.
Qed.

Lemma spin_unlock_step_inv c s : lock_inv s -> lock_inv (spin_unlock_step c s).
Proof.
  intros I. unfold spin_unlock_step. destruct (cpus s c) eqn:Hpc; try exact I.
  all: assert (owns (cpus s c) = true) as Ho by (by rewrite Hpc); destruct (owner_locked s c I Ho) as [Hl Hother].
  - unfold nz. destruct (Z.eqb_spec (locked (lk s)) 0); [done|].
    eapply (lock_inv_move c); [exact I|reflexivity..| | |done]; by rewrite Hpc.
  - assert (lk_cpu (lk s) = Some c) as Hk by (apply (li_cpu _ I); by rewrite Hpc). rewrite decide_True by done.
    eapply (lock_inv_move c); [exact I|reflexivity..| | |done]; by rewrite Hpc.
  - eapply (lock_inv_move c); [exact I|reflexivity..| | |done]; by rewrite Hpc.
  - by eapply (lock_inv_change c).
  - eapply (lock_inv_change c); [exact I|reflexivity|done|done|done|].
    cbn. destruct (lk_cpu (lk s)) as [c'|] eqn:Ek; [|done]. apply (li_cpu _ I) in Ek.
    rewrite <- (li_one _ I c c' Ho (recorded_owns _ Ek)), Hpc in Ek. done.
Qed.

Lemma step_inv s s' : step s s' -> lock_inv s -> lock_inv s'.
Proof.
  intros Hs I. destruct Hs as [c s H|c s H|c s|c s].
  - eapply (lock_inv_move c); [exact I|reflexivity..| | |done]; by rewrite H.
  - eapply (lock_inv_move c); [exact I|reflexivity..| | |done]; by rewrite H.
  - by apply spin_lock_step_inv.
  - by apply spin_unlock_step_inv.
Qed.

(** C32: on any number of processors, under every interleaving of the individual
    accesses to the lock, at most one processor is in its critical section;
    neither of the two debugging panics is ever reached by processors that
    pair [spin_lock] with [spin_unlock]; and the lock is never left held by
    no one: when it is held some processor is between winning and releasing
    it, and when it is free the next [xchg] of any waiting processor wins. *)
Theorem spinlock_mutual_exclusion s :
  rtc step lock_init s ->
  (forall c c', cpus s c = Critical -> cpus s c' = Critical -> c = c') /\
  (forall c, cpus s c <> Panicked) /\
  (locked (lk s) <> 0 -> exists c, owns (cpus s c) = true) /\
  (forall c, locked (lk s) = 0 -> cpus s c = LockXchg -> owns (cpus (spin_lock_step c s) c) = true).
Proof using All.
  intros Hr. assert (lock_inv s) as I.
  { pose proof lock_inv_init as I0. induction Hr as [|x y z Hxy Hyz IH]; [done|]. by eapply IH, step_inv. }
  split_ands.
  - intros c c' H H'. apply (li_one _ I); [by rewrite H|by rewrite H'].
  - apply (li_ok _ I).
  - apply (li_held _ I).
  - intros c H0 Hc. unfold spin_lock_step. rewrite Hc, H0. cbn. by rewrite decide_True.
Qed.
End Locks.

(** Processor 0 in its critical section while processor 1 spins. *)
Lemma spinlock_mutual_exclusion_witness :
  let step_lock := spin_lock_step (fun _ => 0) (fun _ _ => 0) in
  let s := step_lock 1 (step_lock 0 (step_lock 0 (step_lock 1 (step_lock 0 (step_lock 0
             (goto 1 LockHolding1 (goto 0 LockHolding1 lock_init))))))) in
  cpus s 0 = Critical /\ cpus s 1 = LockXchg /\
  (forall c c', cpus s c = Critical -> cpus s c' = Critical -> c = c') /\
  (forall c, cpus s c <> Panicked) /\
  (locked (lk s) <> 0 -> exists c, owns (cpus s c) = true) /\
  (forall c, locked (lk s) = 0 -> cpus s c = LockXchg -> owns (cpus (step_lock c s) c) = true).
Proof.
  intros step_lock s. split; [reflexivity|]. split; [reflexivity|].
  apply (spinlock_mutual_exclusion (fun _ => 0) (fun _ _ => 0) s).
  eapply rtc_l; [apply (StepEnter _ _ 0); reflexivity|]. eapply rtc_l; [apply (StepEnter _ _ 1); reflexivity|].
  do 2 (eapply rtc_l; [apply (StepLock _ _ 0)|]). eapply rtc_l; [apply (StepLock _ _ 1)|].
  do 2 (eapply rtc_l; [apply (StepLock _ _ 0)|]). eapply rtc_l; [apply (StepLock _ _ 1)|].
  apply rtc_refl.
Defined.

(** ** The clock *)

(** [time_init], [time_tick], [time_msec] on the 32-bit tick counter; [None] is
    the panic. *)
Definition time_init : Z := 0.
Definition time_tick (ticks : Z) : option Z :=
  let ticks := u32 (ticks + 1) in
  if u32 (ticks * 10) <? ticks then None else Some ticks.
Definition time_msec (ticks : Z) : Z := u32 (ticks * 10).

Fixpoint time_ticks (n : nat) (t : Z) : option Z :=
  match n with O => Some t | S n' => match time_tick t with Some t' => time_ticks n' t' | None => None end end.

Lemma time_tick_small t :
  0 <= t -> (t + 1) * 10 < 2 ^ 32 -> time_tick t = Some (t + 1).
Proof.
  intros H0 H. unfold time_tick. rewrite (u32_small (t + 1)), u32_small by lia.
  by destruct (Z.ltb_spec ((t + 1) * 10) (t + 1)); [lia|].
Qed.

(** The clock never gives a wrong time: after [n] interrupts either the
    milliseconds are exactly [10 * n], or the kernel has panicked, which it
    does exactly when [10 * n] no longer fits 32 bits. *)
Lemma time_msec_exact n :
  match time_ticks n time_init with
  | Some t => time_msec t = 10 * Z.of_nat n /\ 10 * Z.of_nat n < 2 ^ 32
  | None => 2 ^ 32 <= 10 * Z.of_nat n
  end.
Proof.
  assert (forall m t, 0 <= t -> t * 10 < 2 ^ 32 ->
    time_ticks m t = if (t + Z.of_nat m) * 10 <? 2 ^ 32 then Some (t + Z.of_nat m) else None) as Hgen.
  { induction m as [|m IH]; intros t H0 Ht.
    - cbn [time_ticks]. replace (t + Z.of_nat 0) with t by lia. by destruct (Z.ltb_spec (t * 10) (2 ^ 32)); [|lia].
    - cbn [time_ticks]. destruct (Z.lt_ge_cases ((t + 1) * 10) (2 ^ 32)) as [Hs|Hs].
      + rewrite time_tick_small, IH by lia. replace (t + 1 + Z.of_nat m) with (t + Z.of_nat (S m)) by lia. reflexivity.
      + assert (t = 429496729) as -> by lia. change (time_tick 429496729) with (@None Z).
        by destruct (Z.ltb_spec ((429496729 + Z.of_nat (S m)) * 10) (2 ^ 32)); [lia|]. }
  unfold time_init. rewrite (Hgen n 0 (Z.le_refl 0) eq_refl), Z.add_0_l.
  destruct (Z.ltb_spec (Z.of_nat n * 10) (2 ^ 32)) as [H|H]; [|lia].
  unfold time_msec. rewrite u32_small by lia. lia.
Qed.
