(* ===== verification/CString.v ===== *)
(** The string library, lib/string.c, over a byte-addressed memory.

    A memory gives the byte, 0 to 255, at every address. Loops that run to a
    terminating null are given fuel, the number of characters they may look at;
    [None] is running out of it. *)

From S2P Require Import Prelude.

Definition cmem : Type := Z -> Z.

Definition upd (m : cmem) (a v : Z) : cmem := fun x => if decide (x = a) then v else m x.
Definition load_n (m : cmem) (a n : Z) : list Z := (fun i => m (a + i)) <$> seqZ 0 n.
Definition store_n (m : cmem) (a : Z) (bs : list Z) : cmem :=
  fun x => if (a <=? x) && (x <? a + Z.of_nat (length bs)) then nth (Z.to_nat (x - a)) bs 0 else m x.

(** ** Null-terminated strings *)

Fixpoint strlen_loop (fuel : nat) (m : cmem) (s n : Z) : option Z :=
  match fuel with
  | O => None
  | S f => if m s =? 0 then Some n else strlen_loop f m (s + 1) (s32 (n + 1))
  end.
Definition strlen (fuel : nat) (m : cmem) (s : Z) : option Z := strlen_loop fuel m s 0.

Fixpoint strnlen_loop (size : nat) (m : cmem) (s n : Z) : Z :=
  match size with
  | O => n
  | S size' => if m s =? 0 then n else strnlen_loop size' m (s + 1) (s32 (n + 1))
  end.
Definition strnlen (m : cmem) (s size : Z) : Z := strnlen_loop (Z.to_nat size) m s 0.

Fixpoint strcpy (fuel : nat) (m : cmem) (dst src : Z) : option cmem :=
  match fuel with
  | O => None
  | S f =>
      let c := m src in
      let m := upd m dst c in
      if c =? 0 then Some m else strcpy f m (dst + 1) (src + 1)
  end.

Definition strcat (fuel : nat) (m : cmem) (dst src : Z) : option cmem :=
  match strlen fuel m dst with
  | Some len => strcpy fuel m (dst + len) src
  | None => None
  end.

Fixpoint strncpy_loop (size : nat) (m : cmem) (dst src : Z) : cmem :=
  match size with
  | O => m
  | S size' =>
      let m := upd m dst (m src) in
      strncpy_loop size' m (dst + 1) (if m src =? 0 then src else src + 1)
  end.
Definition strncpy (m : cmem) (dst src size : Z) : cmem := strncpy_loop (Z.to_nat size) m dst src.

(** The loop of [strlcpy], [n] characters left before the last one of the
    buffer: the memory and the final [dst]. *)
Fixpoint strlcpy_loop (n : nat) (m : cmem) (dst src : Z) : cmem * Z :=
  match n with
  | O => (m, dst)
  | S n' => if m src =? 0 then (m, dst) else strlcpy_loop n' (upd m dst (m src)) (dst + 1) (src + 1)
  end.
Definition strlcpy (m : cmem) (dst src size : Z) : cmem * Z :=
  if 0 <? size then
    let '(m, d) := strlcpy_loop (Z.to_nat (size - 1)) m dst src in
    (upd m d 0, d - dst)
  else (m, 0).

Fixpoint strcmp (fuel : nat) (m : cmem) (p q : Z) : option Z :=
  match fuel with
  | O => None
  | S f => if nz (m p) && (m p =? m q) then strcmp f m (p + 1) (q + 1) else Some (m p - m q)
  end.

Fixpoint strncmp_loop (n : nat) (m : cmem) (p q : Z) : Z :=
  match n with
  | O => 0
  | S n' => if nz (m p) && (m p =? m q) then strncmp_loop n' m (p + 1) (q + 1) else m p - m q
  end.
Definition strncmp (m : cmem) (p q n : Z) : Z := strncmp_loop (Z.to_nat n) m p q.

Fixpoint strfind (fuel : nat) (m : cmem) (s c : Z) : option Z :=
  match fuel with
  | O => None
  | S f => if m s =? 0 then Some s else if m s =? c then Some s else strfind f m (s + 1) c
  end.

(** A null pointer is [Some None]. *)
Fixpoint strchr (fuel : nat) (m : cmem) (s c : Z) : option (option Z) :=
  match fuel with
  | O => None
  | S f => if m s =? 0 then Some None else if m s =? c then Some (Some s) else strchr f m (s + 1) c
  end.

(** [strstr]: the inner loop looks for the first character, the outer one
    compares the rest; [in] is past the character just read. *)
Fixpoint strstr_loop (fuel : nat) (m : cmem) (inp str c len : Z) : option (option Z) :=
  match fuel with
  | O => None
  | S f =>
      let sc := m inp in
      if sc =? 0 then Some None
      else if negb (sc =? c) then strstr_loop f m (inp + 1) str c len
      else if negb (strncmp m (inp + 1) str len =? 0) then strstr_loop f m (inp + 1) str c len
      else Some (Some inp)
  end.
Definition strstr (fuel : nat) (m : cmem) (inp str : Z) : option (option Z) :=
  let c := m str in
  if c =? 0 then Some (Some inp)
  else match strlen fuel m (str + 1) with
       | Some len => strstr_loop fuel m inp (str + 1) c len
       | None => None
       end.

(** ** Memory blocks

    The processor's string instructions: [w] bytes at a time, the pointers
    moving by [w] up or down. *)
Fixpoint rep_stos (w : Z) (n : nat) (m : cmem) (d eax : Z) : cmem :=
  match n with
  | O => m
  | S n' => rep_stos w n' (store_n m d ((fun i => Z.land (Z.shiftr eax (8 * i)) 0xFF) <$> seqZ 0 w)) (d + w) eax
  end.

Fixpoint rep_movs (w dir : Z) (n : nat) (m : cmem) (d s : Z) : cmem :=
  match n with
  | O => m
  | S n' => rep_movs w dir n' (store_n m d (load_n m s w)) (d + dir * w) (s + dir * w)
  end.

Definition memset (m : cmem) (v c n : Z) : cmem :=
  if n =? 0 then m
  else if (v mod 4 =? 0) && (n mod 4 =? 0) then
    let c := Z.land c 0xFF in
    let c := u32 (Z.lor (Z.lor (Z.lor (Z.shiftl c 24) (Z.shiftl c 16)) (Z.shiftl c 8)) c) in
    rep_stos 4 (Z.to_nat (n / 4)) m v c
  else rep_stos 1 (Z.to_nat n) m v (u32 c).

Definition memmove (m : cmem) (dst src n : Z) : cmem :=
  let s := src in
  let d := dst in
  if (s <? d) && (d <? s + n) then
    let s := s + n in
    let d := d + n in
    if (s mod 4 =? 0) && (d mod 4 =? 0) && (n mod 4 =? 0)
    then rep_movs 4 (-1) (Z.to_nat (n / 4)) m (d - 4) (s - 4)
    else rep_movs 1 (-1) (Z.to_nat n) m (d - 1) (s - 1)
  else
    if (s mod 4 =? 0) && (d mod 4 =? 0) && (n mod 4 =? 0)
    then rep_movs 4 1 (Z.to_nat (n / 4)) m d s
    else rep_movs 1 1 (Z.to_nat n) m d s.

Definition memcpy (m : cmem) (dst src n : Z) : cmem := memmove m dst src n.

Fixpoint memcmp_loop (n : nat) (m : cmem) (s1 s2 : Z) : Z :=
  match n with
  | O => 0
  | S n' => if negb (m s1 =? m s2) then m s1 - m s2 else memcmp_loop n' m (s1 + 1) (s2 + 1)
  end.
Definition memcmp (m : cmem) (v1 v2 n : Z) : Z := memcmp_loop (Z.to_nat n) m v1 v2.

Fixpoint memfind_loop (n : nat) (m : cmem) (s c : Z) : Z :=
  match n with
  | O => s
  | S n' => if m s =? u8 c then s else memfind_loop n' m (s + 1) c
  end.
Definition memfind (m : cmem) (s c n : Z) : Z := memfind_loop (Z.to_nat n) m s c.

(** ** Numbers *)

Definition char_dig (c : Z) : option Z :=
  if (48 <=? c) && (c <=? 57) then Some (c - 48)
  else if (97 <=? c) && (c <=? 122) then Some (c - 97 + 10)
  else if (65 <=? c) && (c <=? 90) then Some (c - 65 + 10)
  else None.

Fixpoint skip_blanks (fuel : nat) (m : cmem) (s : Z) : option Z :=
  match fuel with
  | O => None
  | S f => if (m s =? 32) || (m s =? 9) then skip_blanks f m (s + 1) else Some s
  end.

Fixpoint strtol_digits (fuel : nat) (m : cmem) (s base val : Z) : option (Z * Z) :=
  match fuel with
  | O => None
  | S f =>
      match char_dig (m s) with
      | None => Some (val, s)
      | Some dig => if base <=? dig then Some (val, s) else strtol_digits f m (s + 1) base (s64 (val * base + dig))
      end
  end.

(** The value and the final position, what the source stores in [*endptr]. *)
Definition strtol (fuel : nat) (m : cmem) (s base : Z) : option (Z * Z) :=
  match skip_blanks fuel m s with
  | None => None
  | Some s =>
      let '(s, neg) := if m s =? 43 then (s + 1, false) else if m s =? 45 then (s + 1, true) else (s, false) in
      let '(s, base) :=
        if ((base =? 0) || (base =? 16)) && ((m s =? 48) && (m (s + 1) =? 120)) then (s + 2, 16)
        else if (base =? 0) && (m s =? 48) then (s + 1, 8)
        else if base =? 0 then (s, 10)
        else (s, base) in
      match strtol_digits fuel m s base 0 with
      | None => None
      | Some (val, e) => Some (if neg : bool then s64 (- val) else val, e)
      end
  end.

(** ** Block copies *)

Lemma load_n_length m a n : 0 <= n -> Z.of_nat (length (load_n m a n)) = n.
Proof. intros H. unfold load_n. rewrite length_fmap, length_seqZ. lia. Qed.

Lemma load_n_nth m a n i : 0 <= i < n -> nth (Z.to_nat i) (load_n m a n) 0 = m (a + i).
Proof.
  intros H. apply nth_lookup_Some. unfold load_n. rewrite list_lookup_fmap.
  rewrite (proj2 (lookup_seqZ _ _ _ (0 + i))) by lia. cbn. by rewrite Z.add_0_l.
Qed.

Lemma store_load m m' d s w a :
  0 <= w -> store_n m d (load_n m' s w) a = if decide (d <= a < d + w) then m' (s + (a - d)) else m a.
Proof.
  intros Hw. unfold store_n. rewrite load_n_length by done.
  destruct (Z.leb_spec d a), (Z.ltb_spec a (d + w)); cbn [andb]; case_decide; try lia; try done.
  apply load_n_nth. lia.
Qed.

(** The copy as if through a second buffer. *)
Definition copied (m : cmem) (d s n : Z) : cmem := fun a => if decide (d <= a < d + n) then m (s + (a - d)) else m a.

Lemma rep_movs_up w n m d s :
  0 < w -> (d <= s \/ s + Z.of_nat n * w <= d) -> forall a, rep_movs w 1 n m d s a = copied m d s (Z.of_nat n * w) a.
Proof.
  intros Hw. revert m d s. induction n as [|n IH]; intros m d s Hd a.
  - unfold copied. cbn. case_decide; [lia|done].
  - cbn [rep_movs]. rewrite Z.mul_1_l, IH by lia. unfold copied.
    assert (0 <= Z.of_nat n * w) by lia.
    replace (Z.of_nat (S n) * w) with (w + Z.of_nat n * w) in * by lia.
    case_decide as H1.
    + rewrite store_load by lia. rewrite decide_False by lia. rewrite decide_True by lia. f_equal. lia.
    + rewrite store_load by lia. repeat case_decide; (lia || done).
Qed.

Lemma rep_movs_down w n m d s :
  0 < w -> s <= d -> forall a,
  rep_movs w (-1) n m (d + Z.of_nat n * w - w) (s + Z.of_nat n * w - w) a = copied m d s (Z.of_nat n * w) a.
Proof.
  intros Hw Hd. revert m. induction n as [|n IH]; intros m a.
  - unfold copied. cbn. case_decide; [lia|done].
  - cbn [rep_movs].
    replace (d + Z.of_nat (S n) * w - w + -1 * w) with (d + Z.of_nat n * w - w) by lia.
    replace (s + Z.of_nat (S n) * w - w + -1 * w) with (s + Z.of_nat n * w - w) by lia.
    rewrite IH. unfold copied.
    replace (d + Z.of_nat (S n) * w - w) with (d + Z.of_nat n * w) by lia.
    replace (s + Z.of_nat (S n) * w - w) with (s + Z.of_nat n * w) by lia.
    replace (d + Z.of_nat (S n) * w) with (d + Z.of_nat n * w + w) by lia.
    assert (0 <= Z.of_nat n * w) by lia. set (N := Z.of_nat n * w) in *.
    rewrite !store_load by lia. repeat case_decide; try lia; try done. f_equal. lia.
Qed.

Lemma div4 n : 0 <= n -> (n mod 4 =? 0) = true -> Z.of_nat (Z.to_nat (n / 4)) * 4 = n.
Proof. intros H0 H. apply Z.eqb_eq in H. pose proof (Z.div_mod n 4). rewrite Z2Nat.id by (apply Z.div_pos; lia). lia. Qed.

Lemma memmove_copied m dst src n a :
  0 <= n -> memmove m dst src n a = if decide (dst <= a < dst + n) then m (src + (a - dst)) else m a.
Proof.
  intros Hn. change (if decide (dst <= a < dst + n) then m (src + (a - dst)) else m a) with (copied m dst src n a).
  pose proof (Z2Nat.id n Hn) as E1.
  unfold memmove. destruct ((src <? dst) && (dst <? src + n)) eqn:Hb.
  - apply andb_true_iff in Hb as [Hb _]. apply Z.ltb_lt in Hb.
    destruct (_ && (n mod 4 =? 0)) eqn:E4; [apply andb_true_iff in E4 as [_ E4]; apply div4 in E4; [|done]|].
    + pose proof (rep_movs_down 4 (Z.to_nat (n / 4)) m dst src eq_refl ltac:(lia) a) as H. by rewrite E4 in H.
    + pose proof (rep_movs_down 1 (Z.to_nat n) m dst src eq_refl ltac:(lia) a) as H. by rewrite E1, Z.mul_1_r in H.
  - assert (dst <= src \/ src + n <= dst) as Hd.
    { apply andb_false_iff in Hb as [Hb|Hb]; apply Z.ltb_ge in Hb; lia. }
    destruct (_ && (n mod 4 =? 0)) eqn:E4; [apply andb_true_iff in E4 as [_ E4]; apply div4 in E4; [|done]|].
    + pose proof (rep_movs_up 4 (Z.to_nat (n / 4)) m dst src eq_refl ltac:(lia) a) as H. by rewrite E4 in H.
    + pose proof (rep_movs_up 1 (Z.to_nat n) m dst src eq_refl ltac:(lia) a) as H. by rewrite E1, Z.mul_1_r in H.
Qed.

(** [memmove] copies [n] bytes as if through a second buffer, however the
    two blocks overlap, whichever direction it chooses and whether it moves
    bytes or words, and changes nothing else. *)
Lemma memmove_copies m dst src n a :
  0 <= n -> memmove m dst src n a = if decide (dst <= a < dst + n) then m (src + (a - dst)) else m a.
Proof. apply memmove_copied. Qed.

Lemma memmove_copies_witness :
  let m := fun a => a mod 256 in
  memmove m 5 3 7 9 = if decide (5 <= 9 < 5 + 7) then m (3 + (9 - 5)) else m 9.
Proof. apply memmove_copies. discriminate. Defined.

(** ** Bounded copies of strings *)

(** The string [bs] is at address [p]. *)
Definition cstr (m : cmem) (p : Z) (bs : list Z) : Prop :=
  Forall (fun b => b <> 0) bs /\ (forall i b, bs !! i = Some b -> m (p + Z.of_nat i) = b) /\ m (p + Z.of_nat (length bs)) = 0.

Lemma cstr_cons m p b bs : cstr m p (b :: bs) <-> b <> 0 /\ m p = b /\ cstr m (p + 1) bs.
Proof.
  unfold cstr. rewrite Forall_cons. cbn [length].
  replace (p + Z.of_nat (S (length bs))) with (p + 1 + Z.of_nat (length bs)) by lia. split.
  - intros ((Hb & Hbs) & Hi & H0). split_ands; try done.
    + rewrite <- (Hi 0%nat b eq_refl). f_equal. lia.
    + intros i c Hc. rewrite <- (Hi (S i) c Hc). f_equal. lia.
  - intros (Hb & Hp & Hbs & Hi & H0). split_ands; try done. intros [|i] c Hc.
    + inversion Hc; subst. f_equal. lia.
    + rewrite <- (Hi i c Hc). f_equal. lia.
Qed.

Lemma cstr_nil m p : cstr m p [] <-> m p = 0.
Proof. unfold cstr. cbn. rewrite Z.add_0_r. split; [by intros (_ & _ & H)|]. intros H. by split_ands. Qed.

Lemma cstr_frame m m' p bs :
  cstr m p bs -> (forall a, p <= a <= p + Z.of_nat (length bs) -> m' a = m a) -> cstr m' p bs.
Proof.
  intros (H1 & H2 & H3) Hf. unfold cstr. split_ands; [done| |].
  - intros i b Hb. rewrite Hf; [by apply H2|]. apply lookup_lt_Some in Hb. lia.
  - rewrite Hf by lia. done.
Qed.

(** The length of a string is found with one unit of fuel more than it. *)
Lemma strlen_cstr m p bs fuel :
  cstr m p bs -> Z.of_nat (length bs) < 2 ^ 31 -> (length bs < fuel)%nat -> strlen fuel m p = Some (Z.of_nat (length bs)).
Proof.
  intros Hs Hl Hf. unfold strlen.
  assert (forall f bs q n, cstr m q bs -> 0 <= n -> n + Z.of_nat (length bs) < 2 ^ 31 -> (length bs < f)%nat ->
    strlen_loop f m q n = Some (n + Z.of_nat (length bs))) as Hgen.
  { clear. induction f as [|f IH]; intros bs q n Hs Hn Hl Hf; [lia|]. cbn. destruct bs as [|b bs].
    - apply cstr_nil in Hs. rewrite Hs. cbn. f_equal. lia.
    - apply cstr_cons in Hs as (Hb & <- & Hs). cbn [length] in *. destruct (Z.eqb_spec (m q) 0); [done|].
      rewrite s32_small by lia. rewrite (IH bs) by (done || lia). f_equal. lia. }
  by rewrite (Hgen fuel bs p 0).
Qed.

Lemma strlcpy_loop_spec n m dst src bs :
  cstr m src bs -> (dst + Z.of_nat n < src \/ src + Z.of_nat (length bs) < dst) ->
  let k := Nat.min n (length bs) in
  (strlcpy_loop n m dst src).2 = dst + Z.of_nat k /\
  forall a, (strlcpy_loop n m dst src).1 a = if decide (dst <= a < dst + Z.of_nat k) then nth (Z.to_nat (a - dst)) bs 0 else m a.
Proof.
  revert m dst src bs. induction n as [|n IH]; intros m dst src bs Hs Hd; cbn.
  { split; [lia|]. intros a. case_decide; [lia|done]. }
  destruct bs as [|b bs].
  - apply cstr_nil in Hs. rewrite Hs. cbn. split; [lia|]. intros a. case_decide; [lia|done].
  - apply cstr_cons in Hs as (Hb & <- & Hs). destruct (Z.eqb_spec (m src) 0); [done|]. cbn [length] in *.
    destruct (IH (upd m dst (m src)) (dst + 1) (src + 1) bs) as [H1 H2].
    { apply (cstr_frame m); [done|]. intros a Ha. unfold upd. case_decide; [lia|done]. }
    { lia. }
    split; [rewrite H1; lia|]. intros a. rewrite H2. unfold upd.
    destruct (decide (a = dst)) as [->|Hne].
    + rewrite decide_False by lia. rewrite decide_True by lia. by rewrite Z.sub_diag.
    + repeat case_decide; try lia; try done. replace (Z.to_nat (a - dst)) with (S (Z.to_nat (a - (dst + 1)))) by lia. done.
Qed.

(** C38: [strlcpy] into a buffer of [size > 0] bytes that does not overlap the
    source: the buffer holds the longest prefix of the string that leaves
    room for the null that follows it, the result is the number of characters
    copied, and no byte outside the buffer is written. *)
Theorem strlcpy_truncates m dst src size bs :
  cstr m src bs -> 0 < size -> (dst + size <= src \/ src + Z.of_nat (length bs) < dst) ->
  let r := strlcpy m dst src size in
  cstr r.1 dst (take (Z.to_nat (size - 1)) bs) /\
  r.2 = Z.min (size - 1) (Z.of_nat (length bs)) /\
  (forall a, ~ (dst <= a < dst + size) -> r.1 a = m a) /\ cstr r.1 src bs.
Proof.
  intros Hs Hsz Hd r. pose proof (strlcpy_loop_spec (Z.to_nat (size - 1)) m dst src bs Hs ltac:(lia)) as [H2 H1].
  assert (r = (upd (strlcpy_loop (Z.to_nat (size - 1)) m dst src).1 (strlcpy_loop (Z.to_nat (size - 1)) m dst src).2 0,
    (strlcpy_loop (Z.to_nat (size - 1)) m dst src).2 - dst)) as Hr.
  { unfold r, strlcpy. destruct (Z.ltb_spec 0 size); [|lia]. by destruct (strlcpy_loop _ _ _ _). }
  rewrite H2 in Hr. set (k := Nat.min (Z.to_nat (size - 1)) (length bs)) in *.
  assert (forall a, r.1 a = if decide (a = dst + Z.of_nat k) then 0
    else if decide (dst <= a < dst + Z.of_nat k) then nth (Z.to_nat (a - dst)) bs 0 else m a) as Hmem.
  { intros a. rewrite Hr. cbn. unfold upd. case_decide; [done|apply H1]. }
  assert (forall a, ~ (dst <= a < dst + size) -> r.1 a = m a) as Hout.
  { intros a Ha. rewrite Hmem. repeat case_decide; (lia || done). }
  split_ands.
  - destruct Hs as (Hnz & _). unfold cstr. split_ands.
    + by apply Forall_take.
    + intros i b Hb. apply lookup_take_Some in Hb as [Hb Hi]. pose proof (lookup_lt_Some _ _ _ Hb).
      rewrite Hmem, decide_False, decide_True by lia. apply nth_lookup_Some. rewrite <- Hb. f_equal. lia.
    + rewrite Hmem, length_take, decide_True by lia. done.
  - rewrite Hr. cbn. lia.
  - exact Hout.
  - apply (cstr_frame m); [done|]. intros a Ha. apply Hout. lia.
Qed.

Lemma strlcpy_truncates_witness :
  let m := store_n (fun _ => 0) 100 [104; 101; 108; 108; 111] in
  let r := strlcpy m 10 100 4 in
  cstr r.1 10 [104; 101; 108] /\ r.2 = 3 /\ (forall a, ~ (10 <= a < 10 + 4) -> r.1 a = m a) /\
  cstr r.1 100 [104; 101; 108; 108; 111].
Proof.
  apply (strlcpy_truncates _ 10 100 4 [104; 101; 108; 108; 111]); [|done|left; discriminate].
  repeat (apply cstr_cons; split; [done|split; [reflexivity|]]). by apply cstr_nil.
Defined.
