(* ===== verification/Printfmt.v ===== *)
(** Formatted output, lib/printfmt.c, and the round trip of numbers through
    [printnum] and [strtol].

    [putch] is the list of the characters it is called with. The variable
    arguments are the list of their 64-bit slots; reading past the last one is
    [None], like running out of fuel. *)

From S2P Require Import Prelude Kernel CString.

Notation MAXERROR := 22 (only parsing).

(** The entries of the table that are not null. *)
Definition error_string (err : Z) : option (list Z) :=
  chars <$> nth (Z.to_nat err) [
    None; Some "unspecified error"; Some "bad environment"; Some "invalid parameter"; Some "out of memory";
    Some "out of environments"; Some "segmentation fault"; None; Some "env is not recving";
    Some "unexpected end of file"; Some "no free space on disk"; Some "too many files are open";
    Some "file or block not found"; Some "invalid path"; Some "file already exists";
    Some "file is not a valid executable"; Some "operation not supported"]%string None.

Definition hex_digit (d : Z) : Z := nth (Z.to_nat d) (chars "0123456789abcdef") 0.

(** [printnum] for a 64-bit number: the recursion is at most 64 deep. *)
Fixpoint printnum_rec (depth : nat) (num base width padc : Z) : list Z :=
  match depth with
  | O => []
  | S k =>
      (if base <=? num then printnum_rec k (num / base) base (width - 1) padc
       else replicate (Z.to_nat (width - 1)) padc) ++ [hex_digit (num mod base)]
  end.
Definition printnum (num base width padc : Z) : list Z := printnum_rec 64 num base width padc.

(** [getuint] and [getint]: the value and the remaining arguments. *)
Definition getuint (ap : list Z) (lflag : Z) : option (Z * list Z) :=
  match ap with
  | [] => None
  | x :: ap => Some (if 2 <=? lflag then u64 x else if nz lflag then u64 x else u32 x, ap)
  end.
Definition getint (ap : list Z) (lflag : Z) : option (Z * list Z) :=
  match ap with
  | [] => None
  | x :: ap => Some (if 2 <=? lflag then s64 x else if nz lflag then s64 x else s32 x, ap)
  end.

(** The flags of the escape being read. *)
Record fmtst : Type := mkFmtst { padc : Z; width : Z; precision : Z; lflag : Z; altflag : bool }.
Definition fmtst0 : fmtst := mkFmtst 32 (-1) (-1) 0 false.

Definition process_precision (prec : Z) (st : fmtst) : fmtst :=
  if width st <? 0 then mkFmtst (padc st) prec (-1) (lflag st) (altflag st)
  else mkFmtst (padc st) (width st) prec (lflag st) (altflag st).

(** The width field: the value and the position of the first character after
    it. *)
Fixpoint width_digits (fuel : nat) (m : cmem) (fmt prec ch : Z) : option (Z * Z) :=
  match fuel with
  | O => None
  | S f =>
      let prec := s32 (prec * 10 + ch - 48) in
      let ch := s8 (m fmt) in
      if (ch <? 48) || (57 <? ch) then Some (prec, fmt) else width_digits f m (fmt + 1) prec ch
  end.

(** The characters of [%s]: the output and the final width. *)
Fixpoint fmt_chars (fuel : nat) (m : cmem) (p prec width : Z) (altflag : bool) : option (list Z * Z) :=
  match fuel with
  | O => None
  | S f =>
      let ch := s8 (m p) in
      if (ch =? 0) || negb ((prec <? 0) || (0 <=? prec - 1)) then Some ([], width)
      else
        match fmt_chars f m (p + 1) (if prec <? 0 then prec else prec - 1) (width - 1) altflag with
        | Some (out, w) => Some ((if altflag && ((ch <? 32) || (126 <? ch)) then 63 else ch) :: out, w)
        | None => None
        end
  end.

Definition fmt_string (fuel : nat) (m : cmem) (p : Z) (st : fmtst) : option (list Z) :=
  let pads :=
    if (0 <? width st) && negb (padc st =? 45) then
      width st - strnlen_loop (if precision st <? 0 then fuel else Z.to_nat (precision st)) m p 0
    else 0 in
  let width := if (0 <? width st) && negb (padc st =? 45) then Z.min pads 0 else width st in
  match fmt_chars fuel m p (precision st) width (altflag st) with
  | Some (out, w) => Some (replicate (Z.to_nat pads) (padc st) ++ out ++ replicate (Z.to_nat w) 32)
  | None => None
  end.

(** Back to the character after the nearest [%] before [fmt]. *)
Fixpoint back (fuel : nat) (m : cmem) (fmt : Z) : option Z :=
  match fuel with
  | O => None
  | S f => if m (fmt - 1) =? 37 then Some fmt else back f m (fmt - 1)
  end.

(** Literals of the program, at addresses 0 and 64 of a memory of their own. *)
Definition literals (a b : list Z) : cmem := store_n (store_n (fun _ => 0) 0 a) 64 b.

(** [vprintfmt]: [None] is ordinary text, [Some st] is inside an escape. A null
    string pointer is 0. *)
Fixpoint vprintfmt_loop (fuel : nat) (m : cmem) (mode : option fmtst) (fmt : Z) (aq : list Z) : option (list Z) :=
  match fuel with
  | O => None
  | S f =>
      let ch := m fmt in
      let text out aq := option_map (app out) (vprintfmt_loop f m None (fmt + 1) aq) in
      match mode with
      | None =>
          if ch =? 37 then vprintfmt_loop f m (Some fmtst0) (fmt + 1) aq
          else if ch =? 0 then Some []
          else text [ch] aq
      | Some st =>
          let reswitch st fmt aq := vprintfmt_loop f m (Some st) fmt aq in
          let number pre num base aq := text (pre ++ printnum num base (width st) (padc st)) aq in
          if ch =? 45 then reswitch (mkFmtst 45 (width st) (precision st) (lflag st) (altflag st)) (fmt + 1) aq
          else if ch =? 48 then reswitch (mkFmtst 48 (width st) (precision st) (lflag st) (altflag st)) (fmt + 1) aq
          else if (49 <=? ch) && (ch <=? 57) then
            match width_digits f m (fmt + 1) 0 ch with
            | Some (prec, fmt) => reswitch (process_precision prec st) fmt aq
            | None => None
            end
          else if ch =? 42 then
            match aq with
            | x :: aq => reswitch (process_precision (s32 x) st) (fmt + 1) aq
            | [] => None
            end
          else if ch =? 46 then
            reswitch (mkFmtst (padc st) (Z.max (width st) 0) (precision st) (lflag st) (altflag st)) (fmt + 1) aq
          else if ch =? 35 then reswitch (mkFmtst (padc st) (width st) (precision st) (lflag st) true) (fmt + 1) aq
          else if ch =? 108 then reswitch (mkFmtst (padc st) (width st) (precision st) (lflag st + 1) (altflag st)) (fmt + 1) aq
          else if ch =? 99 then
            match aq with x :: aq => text [s32 x] aq | [] => None end
          else if ch =? 101 then
            match aq with
            | x :: aq =>
                let err := if s32 x <? 0 then s32 (- s32 x) else s32 x in
                let out :=
                  match (if MAXERROR <=? err then None else error_string err) with
                  | None => vprintfmt_loop f (literals (chars "error %d") []) None 0 [err]
                  | Some p => vprintfmt_loop f (literals (chars "%s") p) None 0 [64]
                  end in
                match out with Some out => text out aq | None => None end
            | [] => None
            end
          else if ch =? 115 then
            match aq with
            | x :: aq =>
                match (if x =? 0 then fmt_string f (literals [] (chars "(null)")) 64 st else fmt_string f m x st) with
                | Some out => text out aq
                | None => None
                end
            | [] => None
            end
          else if ch =? 100 then
            match getint aq 3 with
            | Some (num, aq) => if num <? 0 then number [45] (u64 (- num)) 10 aq else number [] (u64 num) 10 aq
            | None => None
            end
          else if ch =? 117 then
            match getuint aq 3 with Some (num, aq) => number [] num 10 aq | None => None end
          else if ch =? 111 then text [88; 88; 88] aq
          else if ch =? 112 then
            match aq with x :: aq => number [48; 120] (u64 x) 16 aq | [] => None end
          else if ch =? 120 then
            match getuint aq 3 with Some (num, aq) => number [] num 16 aq | None => None end
          else if ch =? 37 then text [ch] aq
          else
            match back f m fmt with
            | Some fmt => option_map (app [37]) (vprintfmt_loop f m None fmt aq)
            | None => None
            end
      end
  end.
Definition vprintfmt (fuel : nat) (m : cmem) (fmt : Z) (ap : list Z) : option (list Z) :=
  vprintfmt_loop fuel m None fmt ap.

(** [vsnprintf]: [sprintputch] stores while there is room and counts every
    character. The memory and the result. *)
Record sprintbuf : Type := mkSprintbuf { buf : Z; ebuf : Z; cnt : Z }.
Definition sprintputch (ch : Z) (mb : cmem * sprintbuf) : cmem * sprintbuf :=
  let '(m, b) := mb in
  let b := mkSprintbuf (buf b) (ebuf b) (s32 (cnt b + 1)) in
  if buf b <? ebuf b then (upd m (buf b) (u8 ch), mkSprintbuf (buf b + 1) (ebuf b) (cnt b)) else (m, b).
Definition vsnprintf (fuel : nat) (m : cmem) (bf n fmt : Z) (ap : list Z) : option (cmem * Z) :=
  if (bf =? 0) || (n <? 1) then Some (m, - E_INVAL)
  else
    match vprintfmt fuel m fmt ap with
    | Some out =>
        let '(m, b) := foldl (fun mb ch => sprintputch ch mb) (m, mkSprintbuf bf (bf + n - 1) 0) out in
        Some (upd m (buf b) 0, cnt b)
    | None => None
    end.

(** ** Numbers out and in *)

(** The digits of a number, most significant first. *)
Fixpoint digits (depth : nat) (num base : Z) : list Z :=
  match depth with
  | O => []
  | S k => (if base <=? num then digits k (num / base) base else []) ++ [num mod base]
  end.

Definition horner (base : Z) (ds : list Z) (v : Z) : Z := foldl (fun v d => v * base + d) v ds.

Lemma depth_enough k num base :
  2 <= base -> base <= num < base ^ Z.of_nat (S k) -> exists k', k = S k' /\ 0 <= num / base < base ^ Z.of_nat (S k').
Proof.
  intros Hb [Hn Hlt]. destruct k as [|k']; [cbn in Hlt; lia|]. exists k'. split; [done|].
  rewrite Nat2Z.inj_succ, Z.pow_succ_r in Hlt by lia. split; [apply Z.div_pos; lia|].
  by apply Z.div_lt_upper_bound; lia.
Qed.

Lemma printnum_rec_S k num base width padc :
  printnum_rec (S k) num base width padc =
  (if base <=? num then printnum_rec k (num / base) base (width - 1) padc
   else replicate (Z.to_nat (width - 1)) padc) ++ [hex_digit (num mod base)].
Proof. done. Qed.

Lemma digits_S k num base :
  digits (S k) num base = (if base <=? num then digits k (num / base) base else []) ++ [num mod base].
Proof. done. Qed.

(** The padding comes before the digits. *)
Lemma printnum_rec_digits k num base width padc :
  2 <= base -> 0 <= num < base ^ Z.of_nat (S k) ->
  printnum_rec (S k) num base width padc =
  replicate (Z.to_nat (width - Z.of_nat (length (digits (S k) num base)))) padc ++ (hex_digit <$> digits (S k) num base).
Proof.
  intros Hb. revert num width. induction k as [|k IH]; intros num width Hn.
  all: rewrite printnum_rec_S, digits_S, length_app, fmap_app, app_assoc; f_equal.
  all: destruct (Z.leb_spec base num) as [Hge|Hge]; [|cbn; by rewrite app_nil_r].
  - destruct (depth_enough 0 num base Hb) as (k' & H & _); [lia|done].
  - destruct (depth_enough (S k) num base Hb) as (k' & [= <-] & H); [lia|].
    rewrite IH by done. f_equal. f_equal. cbn [length]. lia.
Qed.

Lemma digits_spec k num base :
  2 <= base -> 0 <= num < base ^ Z.of_nat (S k) ->
  horner base (digits (S k) num base) 0 = num /\ Forall (fun d => 0 <= d < base) (digits (S k) num base) /\
  digits (S k) num base <> [] /\
  (0 < num -> exists d ds, digits (S k) num base = d :: ds /\ 0 < d).
Proof.
  intros Hb. revert num. induction k as [|k IH]; intros num Hn.
  all: pose proof (Z.mod_pos_bound num base ltac:(lia)); rewrite digits_S.
  all: destruct (Z.leb_spec base num) as [Hge|Hge].
  - destruct (depth_enough 0 num base Hb) as (k' & H' & _); [lia|done].
  - cbn. rewrite Z.mod_small by lia. split_ands; try done; [by constructor; [lia|]|]. intros H1. by exists num, [].
  - destruct (depth_enough (S k) num base Hb) as (k' & [= <-] & H'); [lia|].
    destruct (IH _ H') as (H1 & H2 & H3 & H4). split_ands.
    + unfold horner in *. rewrite foldl_snoc, H1. pose proof (Z.div_mod num base). lia.
    + apply Forall_app. split; [done|]. by constructor.
    + by destruct (digits (S k) (num / base) base).
    + intros _. destruct H4 as (d & ds & -> & Hd); [apply Z.div_str_pos; lia|]. by exists d, (ds ++ [num mod base]).
  - cbn. rewrite Z.mod_small by lia. split_ands; try done; [by constructor; [lia|]|]. intros H1. by exists num, [].
Qed.

Lemma hex_digit_char d : 0 <= d < 16 -> char_dig (hex_digit d) = Some d /\ hex_digit d <> 32 /\ hex_digit d <> 9
  /\ hex_digit d <> 43 /\ hex_digit d <> 45 /\ hex_digit d <> 120 /\ hex_digit d <> 0.
Proof.
  intros H. assert (d ∈ seqZ 0 16) as Hin by (apply elem_of_seqZ; lia).
  clear H. revert d Hin. apply Forall_forall. apply (bool_decide_unpack _). by vm_compute.
Qed.

(** Reading digits: the value is Horner's, as long as it fits. *)
Lemma strtol_digits_spec m base ds s v fuel :
  2 <= base <= 16 -> Forall (fun d => 0 <= d < base) ds -> cstr m s (hex_digit <$> ds) -> 0 <= v ->
  horner base ds v < 2 ^ 63 -> (length ds < fuel)%nat ->
  strtol_digits fuel m s base v = Some (horner base ds v, s + Z.of_nat (length ds)).
Proof.
  intros Hb. revert ds s v. induction fuel as [|f IH]; intros ds s v Hds Hs Hv Hlt Hf; [lia|].
  cbn. destruct ds as [|d ds].
  - apply cstr_nil in Hs. rewrite Hs. cbn. by rewrite Z.add_0_r.
  - apply Forall_cons in Hds as [Hd Hds]. cbn [fmap list_fmap] in Hs. apply cstr_cons in Hs as (_ & Hc & Hs).
    rewrite Hc. destruct (hex_digit_char d) as [-> _]; [lia|]. destruct (Z.leb_spec base d); [lia|].
    assert (forall l w, 0 <= w -> Forall (fun d => 0 <= d < base) l -> w <= horner base l w) as Hmono.
    { clear -Hb. induction l as [|x l IHl]; intros w Hw Hl; [cbn; lia|]. apply Forall_cons in Hl as [Hx Hl]. cbn.
      etrans; [|apply IHl]; [nia|nia|done]. }
    cbn [horner foldl] in Hlt. pose proof (Hmono ds (v * base + d) ltac:(nia) Hds) as Hm. fold (horner base ds (v * base + d)) in *.
    rewrite s64_small by nia. cbn [length] in *. rewrite (IH ds) by (done || nia || lia). cbn. do 2 f_equal. lia.
Qed.

Lemma skip_blanks_spec m n c cs p fuel :
  cstr m p (replicate n 32 ++ c :: cs) -> c <> 32 -> c <> 9 -> (n < fuel)%nat ->
  skip_blanks fuel m p = Some (p + Z.of_nat n) /\ cstr m (p + Z.of_nat n) (c :: cs).
Proof.
  revert n p. induction fuel as [|f IH]; intros n p Hs H32 H9 Hf; [lia|]. cbn. destruct n as [|n].
  - rewrite Z.add_0_r. split; [|done]. apply cstr_cons in Hs as (_ & -> & _).
    destruct (Z.eqb_spec c 32), (Z.eqb_spec c 9); done.
  - apply cstr_cons in Hs as (_ & -> & Hs). change (32 =? 32) with true. cbn [orb].
    replace (p + Z.of_nat (S n)) with (p + 1 + Z.of_nat n) by lia. apply IH; (done || lia).
Qed.

Lemma horner_zeros base n ds : horner base (replicate n 0 ++ ds) 0 = horner base ds 0.
Proof. induction n as [|n IH]; [done|]. exact IH. Qed.

(** Blanks, leading zeros, digits. *)
Lemma printnum_shape num base width padc :
  0 <= num < 2 ^ 64 -> base = 10 \/ base = 16 -> padc = 32 \/ padc = 48 ->
  exists a ds, printnum num base width padc = replicate a 32 ++ (hex_digit <$> ds) /\ ds <> [] /\
    Forall (fun d => 0 <= d < base) ds /\ horner base ds 0 = num.
Proof.
  intros Hn Hb Hp. assert (2 <= base <= 16) as Hb2 by lia.
  assert (0 <= num < base ^ Z.of_nat 64) as Hn2.
  { assert (2 ^ 64 <= base ^ Z.of_nat 64) by (apply Z.pow_le_mono_l; lia). lia. }
  unfold printnum. rewrite printnum_rec_digits by (done || lia).
  destruct (digits_spec 63 num base ltac:(lia) Hn2) as (H1 & H2 & H3 & _).
  set (ds := digits 64 num base) in *. set (n := Z.to_nat (width - Z.of_nat (length ds))).
  destruct Hp as [-> | ->].
  - by exists n, ds.
  - exists 0%nat, (replicate n 0 ++ ds). rewrite fmap_app, fmap_replicate, horner_zeros. split_ands; try done.
    + intros H. by apply app_nil in H as [_ H].
    + apply Forall_app. split; [|done]. apply Forall_replicate. lia.
Qed.

(** C39: what [printnum] prints, [strtol] reads back: for a number that fits a
    [long], in decimal or hexadecimal, padded with blanks or zeros to any
    width, [strtol] returns the number and stops at the end of the string. *)
Theorem printnum_strtol m p num base width padc fuel :
  0 <= num < 2 ^ 63 -> base = 10 \/ base = 16 -> padc = 32 \/ padc = 48 ->
  cstr m p (printnum num base width padc) -> (length (printnum num base width padc) < fuel)%nat ->
  strtol fuel m p base = Some (num, p + Z.of_nat (length (printnum num base width padc))).
Proof.
  intros Hn Hb Hp Hs Hf. assert (2 <= base <= 16) as Hb2 by lia.
  destruct (printnum_shape num base width padc) as (a & ds & Heq & Hne & Hds & Hval); [lia|done..|].
  rewrite Heq in *. rewrite length_app, length_replicate, length_fmap in *. destruct ds as [|d ds]; [done|].
  apply Forall_cons in Hds as Hdd. destruct Hdd as [Hd Hds']. cbn [fmap list_fmap] in Hs.
  destruct (hex_digit_char d) as (_ & H32 & H9 & H43 & H45 & _); [lia|].
  destruct (skip_blanks_spec m a (hex_digit d) (hex_digit <$> ds) p fuel Hs H32 H9 ltac:(lia)) as [Hsk Hrest].
  unfold strtol. rewrite Hsk. set (s := p + Z.of_nat a) in *.
  pose proof Hrest as Hc. apply cstr_cons in Hc as (_ & Hms & Hnext).
  destruct (Z.eqb_spec (m s) 43); [congruence|]. destruct (Z.eqb_spec (m s) 45); [congruence|].
  assert (m (s + 1) <> 120) as Hx.
  { destruct ds as [|d2 ds]; [apply cstr_nil in Hnext; lia|]. apply cstr_cons in Hnext as (_ & -> & _).
    apply Forall_cons in Hds' as [Hd2 _]. apply hex_digit_char. lia. }
  destruct (Z.eqb_spec (m (s + 1)) 120); [done|]. rewrite !andb_false_r.
  destruct (Z.eqb_spec base 0); [lia|]. cbn [andb].
  rewrite (strtol_digits_spec m base (d :: ds)); try done; [|lia..]. rewrite Hval. do 2 f_equal. unfold s. lia.
Qed.

Lemma printnum_strtol_witness :
  strtol 100 (store_n (fun _ => 0) 7 (printnum 48879 16 8 32)) 7 16 = Some (48879, 15).
Proof.
  apply (printnum_strtol (store_n (fun _ => 0) 7 (printnum 48879 16 8 32)) 7 48879 16 8 32 100); try done; [by right|by left| |].
  - change (printnum 48879 16 8 32) with [32; 32; 32; 32; 98; 101; 101; 102].
    repeat (apply cstr_cons; split; [done|split; [reflexivity|]]). by apply cstr_nil.
  - apply Nat.ltb_lt. by vm_compute.
Defined.
