(* ===== verification/Fs.v ===== *)
(** The file system of the file server: fs/bc.c (the block cache), fs/fs.c (the
    on-disk structures) and their data, inc/fs.h.

    The server sees disk block [n] as the page at [DISKMAP + n * BLKSIZE] of its
    own memory; a page that is not mapped is read from the disk by the page
    fault handler [bc_pgfault]. Pointers to on-disk structures ([struct File *])
    are addresses in that memory, so that all aliases of a structure are the
    same bytes. *)

From S2P Require Import Prelude Kernel CString.

Definition BLKSIZE : Z := PGSIZE.
Definition BLKBITSIZE : Z := BLKSIZE * 8.
Definition MAXNAMELEN : Z := 128.
Notation MAXPATHLEN := 1024 (only parsing).
Definition NDIRECT : Z := 10.
Definition NINDIRECT : Z := BLKSIZE / 4.
Notation FTYPE_REG := 0 (only parsing).
Notation FTYPE_DIR := 1 (only parsing).
Notation FS_MAGIC := 0x4A0530AE (only parsing).
Definition SECTSIZE : Z := 512.
Definition BLKSECTS : Z := BLKSIZE / SECTSIZE.
Definition DISKMAP : Z := 0x10000000.
Definition DISKSIZE : Z := 0xC0000000.

(** [struct File], packed: the offsets of its fields, and its size. *)
Notation f_size_off := MAXNAMELEN (only parsing).
Notation f_type_off := (MAXNAMELEN + 4) (only parsing).
Definition f_direct_off : Z := MAXNAMELEN + 8.
Definition f_indirect_off : Z := MAXNAMELEN + 8 + 4 * NDIRECT.
Definition File_size : Z := 256.
Definition BLKFILES : Z := BLKSIZE / File_size.
(** [struct Super] *)
Definition s_magic_off : Z := 0.
Definition s_nblocks_off : Z := 4.
Definition s_root_off : Z := 8.

Record OpenFile : Type := mkOpenFile { o_fileid : Z; o_file : Z; o_mode : Z; o_fd : Z }.

(** The server: its memory, the pages that are mapped and how often each is
    referenced, the disk, and its variables; null pointers are 0. *)
Record fsst : Type := mkFsst {
  fmem : cmem;
  fmapped : gset Z;
  frefs : Z -> Z;
  fdisk : cmem;
  super : Z;
  bitmap : Z;
  opentab : Z -> OpenFile;
}.
Definition set_fmem v s := mkFsst v (fmapped s) (frefs s) (fdisk s) (super s) (bitmap s) (opentab s).
Definition set_fmapped v s := mkFsst (fmem s) v (frefs s) (fdisk s) (super s) (bitmap s) (opentab s).
Definition set_frefs v s := mkFsst (fmem s) (fmapped s) v (fdisk s) (super s) (bitmap s) (opentab s).
Definition set_super v s := mkFsst (fmem s) (fmapped s) (frefs s) (fdisk s) v (bitmap s) (opentab s).
Definition set_bitmap v s := mkFsst (fmem s) (fmapped s) (frefs s) (fdisk s) (super s) v (opentab s).
Definition set_opentab v s := mkFsst (fmem s) (fmapped s) (frefs s) (fdisk s) (super s) (bitmap s) v.

Notation F := (M fsst).

(** The bytes of a 32-bit word, least significant first. *)
Definition bytes32 (w : Z) : list Z := (fun i => Z.land (Z.shiftr w (8 * i)) 0xFF) <$> seqZ 0 4.
Definition word32 (m : cmem) (a : Z) : Z := m a + 2 ^ 8 * m (a + 1) + 2 ^ 16 * m (a + 2) + 2 ^ 24 * m (a + 3).

(** What the server relies on: the result of mapping a fresh page at an address,
    which fails when memory runs out, and of reading the sectors of a block,
    which fails on a disk error. *)
Class FsEnv : Type := {
  page_alloc_res : Z -> Z;
  ide_read_res : Z -> Z;
}.

Section Fs.
Context `{!FsEnv}.

(** ** The block cache *)

(** [sys_page_alloc(0, va, ...)]: a zeroed page of its own. *)
Definition fs_page_alloc (va : Z) : F Z :=
  let r := page_alloc_res va in
  if r <? 0 then ret r
  else
    do! modify (fun s => set_fmem (store_n (fmem s) va (replicate (Z.to_nat PGSIZE) 0)) s) ;;
    do! modify (fun s => set_frefs (fun p => if p =? va / PGSIZE then 1 else frefs s p) s) ;;
    do! modify (fun s => set_fmapped ({[ va / PGSIZE ]} ∪ fmapped s) s) ;;
    ret 0.

(** [ide_read]: sector [n] is the 512 bytes of the disk from [n * SECTSIZE]. *)
Definition ide_read (secno dst nsecs : Z) : F Z :=
  do! assertM (nsecs <=? 256) ;;
  let r := ide_read_res secno in
  if r <? 0 then ret r
  else
    do! modify (fun s => set_fmem (store_n (fmem s) dst (load_n (fdisk s) (secno * SECTSIZE) (nsecs * SECTSIZE))) s) ;;
    ret 0.

(** A read of [super->s_nblocks] by the handler itself. If the super block is
    not in memory the handler faults in turn, and again, until its stack
    overflows. *)
Definition handler_nblocks : F Z :=
  let! sup := gets super in
  let! ok := gets (fun s => bool_decide (sup / PGSIZE ∈ fmapped s)) in
  if ok : bool then gets (fun s => word32 (fmem s) (sup + s_nblocks_off)) else panic "page faults without end".

Definition bc_pgfault (addr : Z) : F unit :=
  let blockno := u64 (addr - DISKMAP) / BLKSIZE in
  if (addr <? DISKMAP) || (DISKMAP + DISKSIZE <=? addr) then panic "page fault in FS"
  else
    let! sup := gets super in
    let! n := (if nz sup then handler_nblocks else ret 0) in
    if nz sup && (n <=? blockno) then panic "reading non-existent block"
    else
      let new_addr := ROUNDDOWN addr PGSIZE in
      let! r := fs_page_alloc new_addr in
      if r <? 0 then panic "Something wrong with allocation"
      else
        let! r := ide_read (u32 (BLKSECTS * blockno)) new_addr BLKSECTS in
        if r <? 0 then panic "Something wrong with reading from the disk" else ret tt.

(** Accesses of the server to its memory. *)
Definition touch (a : Z) : F unit :=
  let! ok := gets (fun s => bool_decide (a / PGSIZE ∈ fmapped s)) in
  if ok : bool then ret tt else bc_pgfault a.
Definition fload8 (a : Z) : F Z := do! touch a ;; gets (fun s => fmem s a).
Definition fstore8 (a v : Z) : F unit := do! touch a ;; modify (fun s => set_fmem (upd (fmem s) a (u8 v)) s).
(** Words are aligned, so they are in one page. *)
Definition fload32 (a : Z) : F Z := do! touch a ;; gets (fun s => word32 (fmem s) a).
Definition fstore32 (a v : Z) : F unit := do! touch a ;; modify (fun s => set_fmem (store_n (fmem s) a (bytes32 v)) s).

Definition diskaddr (blockno : Z) : F Z :=
  let! sup := gets super in
  let! n := (if nz sup && negb (blockno =? 0) then fload32 (sup + s_nblocks_off) else ret 0) in
  if (blockno =? 0) || (nz sup && (n <=? blockno)) then panic "bad block number in diskaddr"
  else ret (DISKMAP + blockno * BLKSIZE).

(** [flush_block]: the write to the disk is not implemented. *)
Definition flush_block (addr : Z) : F unit :=
  if (addr <? DISKMAP) || (DISKMAP + DISKSIZE <=? addr) then panic "flush_block of bad va" else ret tt.

Definition bc_init : F unit :=
  let! a := diskaddr 1 in
  forM (seqZ 0 (s_root_off + File_size)) (fun i => do! fload8 (a + i) ;; ret tt).

(** ** Super block and bitmap *)

Definition check_super : F unit :=
  let! sup := gets super in
  let! magic := fload32 (sup + s_magic_off) in
  if negb (magic =? FS_MAGIC) then panic "bad file system magic number"
  else
    let! n := fload32 (sup + s_nblocks_off) in
    if DISKSIZE / BLKSIZE <? n then panic "file system is too large" else ret tt.

Definition block_is_free (blockno : Z) : F bool :=
  let! sup := gets super in
  if sup =? 0 then ret false
  else
    let! n := fload32 (sup + s_nblocks_off) in
    if n <=? blockno then ret false
    else
      let! bm := gets bitmap in
      let! w := fload32 (bm + 4 * (blockno / 32)) in
      ret (nz (Z.land w (Z.shiftl 1 (blockno mod 32)))).

Definition free_block (blockno : Z) : F unit :=
  if blockno =? 0 then panic "attempt to free zero block"
  else
    let! bm := gets bitmap in
    let! w := fload32 (bm + 4 * (blockno / 32)) in
    fstore32 (bm + 4 * (blockno / 32)) (Z.lor w (Z.shiftl 1 (blockno mod 32))).

Definition alloc_block : F Z := panic "alloc_block not implemented".

(** At most [2 ^ 32 / BLKBITSIZE] rounds. *)
Definition check_bitmap : F unit :=
  let! sup := gets super in
  do! loop (Z.to_nat (2 ^ 17 + 1)) (fun i =>
    let! n := fload32 (sup + s_nblocks_off) in
    if u32 (i * BLKBITSIZE) <? n then
      let! f := block_is_free (u32 (2 + i)) in
      do! assertM (negb f) ;;
      ret (inl (u32 (i + 1)))
    else ret (inr tt)) 0 ;;
  let! f := block_is_free 0 in
  do! assertM (negb f) ;;
  let! f := block_is_free 1 in
  assertM (negb f).

(** [fs_init]; which of the two disks is used makes no difference here. *)
Definition fs_init : F unit :=
  do! bc_init ;;
  let! a := diskaddr 1 in
  do! modify (set_super a) ;;
  do! check_super ;;
  let! a := diskaddr 2 in
  do! modify (set_bitmap a) ;;
  check_bitmap.

(** ** Files *)

Definition f_size (f : Z) : F Z := let! w := fload32 (f + f_size_off) in ret (s32 w).
Definition f_type (f : Z) : F Z := fload32 (f + f_type_off).

(** The result and the address of the slot. *)
Definition file_block_walk (f filebno : Z) (alloc : bool) : F (Z * Z) :=
  if NDIRECT + NINDIRECT <=? filebno then ret (- E_INVAL, 0)
  else
    let! size := f_size f in
    let nblock := u32 (Z.quot size BLKSIZE) in
    if nblock <? filebno then ret (- E_NOT_FOUND, 0)
    else if filebno <? NDIRECT then ret (0, f + f_direct_off + 4 * filebno)
    else
      let! ind := fload32 (f + f_indirect_off) in
      if ind =? 0 then ret (- E_NOT_FOUND, 0)
      else
        let! index := diskaddr ind in
        ret (0, index + 4 * (filebno - NDIRECT)).

Definition file_get_block (f filebno : Z) : F (Z * Z) :=
  if NDIRECT + NINDIRECT <=? filebno then ret (- E_INVAL, 0)
  else
    let! rp := file_block_walk f filebno false in
    let '(r, p) := rp in
    if r <? 0 then ret (r, 0)
    else
      let! bno := fload32 p in
      if bno =? 0 then ret (- E_NO_DISK, 0)
      else
        let! blk := diskaddr bno in
        ret (0, blk).

(** [strcmp] of the string at [p] with the string [q]: at most one step more
    than the characters of [q]. *)
Fixpoint fstrcmp (p : Z) (q : list Z) : F Z :=
  match q with
  | [] => let! c := fload8 p in ret c
  | x :: q' => let! c := fload8 p in if nz c && (c =? x) then fstrcmp (p + 1) q' else ret (c - x)
  end.

(** The entries of a directory block from [f] on. *)
Fixpoint dir_lookup_block (n : nat) (f : Z) (name : list Z) : F (option Z) :=
  match n with
  | O => ret None
  | S n' =>
      let! c := fstrcmp f name in
      if c =? 0 then ret (Some f) else dir_lookup_block n' (f + File_size) name
  end.

Fixpoint dir_lookup_from (n : nat) (dir i : Z) (name : list Z) : F (Z * Z) :=
  match n with
  | O => ret (- E_NOT_FOUND, 0)
  | S n' =>
      let! rb := file_get_block dir i in
      let '(r, blk) := rb in
      if r <? 0 then ret (r, 0)
      else
        let! found := dir_lookup_block (Z.to_nat BLKFILES) blk name in
        match found with
        | Some f => ret (0, f)
        | None => dir_lookup_from n' dir (i + 1) name
        end
  end.

Definition dir_lookup (dir : Z) (name : list Z) : F (Z * Z) :=
  let! size := f_size dir in
  do! assertM (Z.rem size BLKSIZE =? 0) ;;
  dir_lookup_from (Z.to_nat (u32 (Z.quot size BLKSIZE))) dir 0 name.

Fixpoint dir_free_entry (n : nat) (f : Z) : F (option Z) :=
  match n with
  | O => ret None
  | S n' =>
      let! c := fload8 f in
      if c =? 0 then ret (Some f) else dir_free_entry n' (f + File_size)
  end.

Fixpoint dir_alloc_from (n : nat) (dir i : Z) : F (Z * Z) :=
  match n with
  | O =>
      let! size := f_size dir in
      do! fstore32 (dir + f_size_off) (u32 (size + BLKSIZE)) ;;
      file_get_block dir i
  | S n' =>
      let! rb := file_get_block dir i in
      let '(r, blk) := rb in
      if r <? 0 then ret (r, 0)
      else
        let! found := dir_free_entry (Z.to_nat BLKFILES) blk in
        match found with
        | Some f => ret (0, f)
        | None => dir_alloc_from n' dir (i + 1)
        end
  end.

Definition dir_alloc_file (dir : Z) : F (Z * Z) :=
  let! size := f_size dir in
  do! assertM (Z.rem size BLKSIZE =? 0) ;;
  dir_alloc_from (Z.to_nat (u32 (Z.quot size BLKSIZE))) dir 0.

(** ** Paths

    A path is the list of its characters, without the null. *)

Definition slash : Z := 47.

Fixpoint skip_slash (p : list Z) : list Z :=
  match p with c :: p' => if c =? slash then skip_slash p' else p | [] => [] end.

(** The element at the front of a path, and the rest. *)
Fixpoint path_elem (p : list Z) : list Z * list Z :=
  match p with
  | [] => ([], [])
  | c :: p' => if c =? slash then ([], p) else let '(e, r) := path_elem p' in (c :: e, r)
  end.

Record walked : Type := mkWalked { w_r : Z; w_dir : Z; w_file : Z; w_last : list Z }.

(** The loop of [walk_path] in directory [f], [dir] its parent: the result, the
    directory and the file, 0 for a null pointer, and the last element when it
    is missing. Every round consumes a character, so the length of the path is
    enough fuel. *)
Fixpoint walk_path_loop (fuel : nat) (path : list Z) (dir f : Z) : F walked :=
  match path with
  | [] => ret (mkWalked 0 dir f [])
  | _ :: _ =>
      match fuel with
      | O => noret
      | S fuel' =>
          let dir := f in
          let '(name, path) := path_elem path in
          if MAXNAMELEN <=? Z.of_nat (length name) then ret (mkWalked (- E_BAD_PATH) 0 0 [])
          else
            let path := skip_slash path in
            let! ty := f_type dir in
            if negb (ty =? FTYPE_DIR) then ret (mkWalked (- E_NOT_FOUND) 0 0 [])
            else
              let! rf := dir_lookup dir name in
              let '(r, f) := rf in
              if r <? 0 then
                match path with
                | [] => if r =? - E_NOT_FOUND then ret (mkWalked r dir 0 name) else ret (mkWalked r 0 0 [])
                | _ => ret (mkWalked r 0 0 [])
                end
              else walk_path_loop fuel' path dir f
      end
  end.

Definition walk_path (path : list Z) : F walked :=
  let path := skip_slash path in
  let! sup := gets super in
  walk_path_loop (length path) path 0 (sup + s_root_off).

(** ** File operations *)

Fixpoint fstrcpy (dst : Z) (src : list Z) : F unit :=
  match src with
  | [] => fstore8 dst 0
  | c :: src' => do! fstore8 dst c ;; fstrcpy (dst + 1) src'
  end.

(** The blocks of a file one by one. *)
Definition file_flush (f : Z) : F unit :=
  let! size := f_size f in
  do! forM (seqZ 0 (Z.quot (s32 (size + BLKSIZE - 1)) BLKSIZE)) (fun i =>
    let! rp := file_block_walk f i false in
    let '(r, p) := rp in
    if r <? 0 then ret tt
    else
      let! bno := fload32 p in
      if bno =? 0 then ret tt
      else let! a := diskaddr bno in flush_block a) ;;
  do! flush_block f ;;
  let! ind := fload32 (f + f_indirect_off) in
  if nz ind then let! a := diskaddr ind in flush_block a else ret tt.

Definition file_create (path : list Z) : F (Z * Z) :=
  let! w := walk_path path in
  if w_r w =? 0 then ret (- E_FILE_EXISTS, 0)
  else if negb (w_r w =? - E_NOT_FOUND) || (w_dir w =? 0) then ret (w_r w, 0)
  else
    let! rf := dir_alloc_file (w_dir w) in
    let '(r, f) := rf in
    if r <? 0 then ret (r, 0)
    else
      do! fstrcpy f (w_last w) ;;
      do! file_flush (w_dir w) ;;
      ret (0, f).

Definition file_open (path : list Z) : F (Z * Z) :=
  let! w := walk_path path in
  ret (w_r w, w_file w).

(** [memmove] within the server: the pages of both blocks are touched first. *)
Definition fmemmove (dst src n : Z) : F unit :=
  do! forM (seqZ 0 n) (fun i => touch (src + i)) ;;
  do! forM (seqZ 0 n) (fun i => touch (dst + i)) ;;
  modify (fun s => set_fmem (memmove (fmem s) dst src n) s).

(** The loops of [file_read] and [file_write]: every round but the first starts
    at a block boundary, so [count / BLKSIZE + 2] rounds are enough. *)
Definition file_read (f buf count offset : Z) : F Z :=
  let! size := f_size f in
  if size <=? offset then ret 0
  else
    let! size := f_size f in
    let left := u64 (s32 (size - offset)) in
    let count := if count <=? left then count else left in
    let! r := loop (Z.to_nat (count / BLKSIZE + 3)) (fun '(pos, buf) =>
      if u64 pos <? u64 (offset + count) then
        let! rb := file_get_block f (u32 (Z.quot pos BLKSIZE)) in
        let '(r, blk) := rb in
        if r <? 0 then ret (inr r)
        else
          let left := u64 (offset + count - pos) in
          let room := u64 (BLKSIZE - Z.rem pos BLKSIZE) in
          let bn := s32 (if room <=? left then room else left) in
          do! fmemmove buf (blk + Z.rem pos BLKSIZE) bn ;;
          ret (inl (s32 (pos + bn), buf + bn))
      else ret (inr 0)) (offset, buf) in
    if r <? 0 then ret r else ret (s32 count).

(** A block of a file is forgotten; the one it was is free. *)
Definition file_free_block (f filebno : Z) : F Z :=
  let! rp := file_block_walk f filebno false in
  let '(r, p) := rp in
  if r <? 0 then ret r
  else
    let! bno := fload32 p in
    if nz bno then
      do! free_block bno ;;
      do! fstore32 p 0 ;;
      ret 0
    else ret 0.

Definition file_truncate_blocks (f newsize : Z) : F unit :=
  let! size := f_size f in
  let old_nblocks := u32 (Z.quot (s32 (size + BLKSIZE - 1)) BLKSIZE) in
  let new_nblocks := u32 (Z.quot (s32 (newsize + BLKSIZE - 1)) BLKSIZE) in
  do! forM (seqZ new_nblocks (old_nblocks - new_nblocks)) (fun bno => do! file_free_block f bno ;; ret tt) ;;
  if new_nblocks <=? NDIRECT then
    let! ind := fload32 (f + f_indirect_off) in
    if nz ind then
      do! free_block ind ;;
      fstore32 (f + f_indirect_off) 0
    else ret tt
  else ret tt.

Definition file_set_size (f newsize : Z) : F Z :=
  let! size := f_size f in
  do! (if newsize <? size then file_truncate_blocks f newsize else ret tt) ;;
  do! fstore32 (f + f_size_off) (u32 newsize) ;;
  do! flush_block f ;;
  ret 0.

Definition file_write (f buf count offset : Z) : F Z :=
  let! size := f_size f in
  let! r := (if u64 size <? u64 (offset + count) then file_set_size f (s32 (offset + count)) else ret 0) in
  if r <? 0 then ret r
  else
    let! r := loop (Z.to_nat (count / BLKSIZE + 3)) (fun '(pos, buf) =>
      if u64 pos <? u64 (offset + count) then
        let! rb := file_get_block f (u32 (Z.quot pos BLKSIZE)) in
        let '(r, blk) := rb in
        if r <? 0 then ret (inr r)
        else
          let left := u64 (offset + count - pos) in
          let room := u64 (BLKSIZE - Z.rem pos BLKSIZE) in
          let bn := s32 (if room <=? left then room else left) in
          do! fmemmove (blk + Z.rem pos BLKSIZE) buf bn ;;
          ret (inl (s32 (pos + bn), buf + bn))
      else ret (inr 0)) (offset, buf) in
    if r <? 0 then ret r else ret (s32 count).

Definition file_remove (path : list Z) : F Z :=
  let! w := walk_path path in
  if w_r w <? 0 then ret (w_r w)
  else
    let f := w_file w in
    do! file_truncate_blocks f 0 ;;
    do! fstore8 f 0 ;;
    do! fstore32 (f + f_size_off) 0 ;;
    do! flush_block f ;;
    ret 0.

(** The bound is read again in every round of the source, and does not
    change. *)
Definition fs_sync : F unit :=
  let! sup := gets super in
  let! n := fload32 (sup + s_nblocks_off) in
  forM (seqZ 1 (n - 1)) (fun i => let! a := diskaddr i in flush_block a).
End Fs.
