(* ===== verification/FsServ.v ===== *)
(** The file server's request handlers, fs/serv.c. *)

From S2P Require Import Prelude Kernel CString Fs.

Notation MAXOPEN := 1024 (only parsing).
Notation FILEVA := 0xD0000000 (only parsing).
Definition fsreq : Z := 0x0ffff000.
Definition PTE_SHARE : Z := 0x400.
Notation O_ACCMODE := 3 (only parsing).
Definition O_CREAT : Z := 0x100.
Definition O_TRUNC : Z := 0x200.
Definition O_EXCL : Z := 0x400.
Notation FSREQ_OPEN := 1 (only parsing).
Notation FSREQ_SET_SIZE := 2 (only parsing).
Notation FSREQ_READ := 3 (only parsing).
Notation FSREQ_WRITE := 4 (only parsing).
Notation FSREQ_STAT := 5 (only parsing).
Notation FSREQ_FLUSH := 6 (only parsing).
Notation FSREQ_REMOVE := 7 (only parsing).
Notation FSREQ_SYNC := 8 (only parsing).
(** [devfile.dev_id], the letter f. *)
Definition devfile_id : Z := 102.
(** [struct Fd] *)
Definition fd_dev_id_off : Z := 0.
Notation fd_offset_off := 4 (only parsing).
Definition fd_omode_off : Z := 8.
Definition fd_file_id_off : Z := 12.

Section Serv.
Context `{!FsEnv}.

Definition upd_open (i : Z) (g : OpenFile -> OpenFile) : F unit :=
  modify (fun s => set_opentab (fun j => if j =? i then g (opentab s j) else opentab s j) s).

Definition serve_init : F unit :=
  forM (seqZ 0 MAXOPEN) (fun i =>
    upd_open i (fun o => mkOpenFile (u32 i) (o_file o) (o_mode o) (FILEVA + i * PGSIZE))).

(** The references to the page at [v] (lib/pageref.c). *)
Definition pageref (v : Z) : F Z :=
  gets (fun s => if bool_decide (v / PGSIZE ∈ fmapped s) then frefs s (v / PGSIZE) else 0).

(** The result and the index of the entry. *)
Fixpoint openfile_alloc_from (n : nat) (i : Z) : F (Z * Z) :=
  match n with
  | O => ret (- E_MAX_OPEN, 0)
  | S n' =>
      let! fd := gets (fun s => o_fd (opentab s i)) in
      let take :=
        do! upd_open i (fun o => mkOpenFile (u32 (o_fileid o + MAXOPEN)) (o_file o) (o_mode o) (o_fd o)) ;;
        do! modify (fun s => set_fmem (memset (fmem s) fd 0 PGSIZE) s) ;;
        let! id := gets (fun s => o_fileid (opentab s i)) in
        ret (s32 id, i) in
      let! refs := pageref fd in
      if refs =? 0 then
        let! r := fs_page_alloc fd in
        if r <? 0 then ret (r, 0) else take
      else if refs =? 1 then take
      else openfile_alloc_from n' (i + 1)
  end.
Definition openfile_alloc : F (Z * Z) := openfile_alloc_from (Z.to_nat MAXOPEN) 0.

Definition openfile_lookup (fileid : Z) : F (Z * Z) :=
  let i := fileid mod MAXOPEN in
  let! o := gets (fun s => opentab s i) in
  let! refs := pageref (o_fd o) in
  if (refs =? 1) || negb (o_fileid o =? fileid) then ret (- E_INVAL, 0) else ret (0, i).

(** The path of a request: the bytes of [req_path] up to the first null; the last
    byte is made null. *)
Fixpoint until_null (bs : list Z) : list Z :=
  match bs with [] => [] | b :: bs' => if b =? 0 then [] else b :: until_null bs' end.
Definition req_path (req : Z) : F (list Z) :=
  let! bs := foldM (seqZ 0 MAXPATHLEN) [] (fun acc i => let! b := fload8 (req + i) in ret (acc ++ [b])) in
  ret (until_null (take (Z.to_nat (MAXPATHLEN - 1)) bs)).

(** The result, the page to send and its permissions. *)
Definition serve_open (req : Z) : F (Z * Z * Z) :=
  let! path := req_path req in
  let! ro := openfile_alloc in
  let '(r, o) := ro in
  if r <? 0 then ret (r, 0, 0)
  else
    let! omode := fload32 (req + MAXPATHLEN) in
    let! rf :=
      (if nz (Z.land omode O_CREAT) then
         let! rf := file_create path in
         let '(r, _) := rf in
         if r <? 0 then
           if negb (nz (Z.land omode O_EXCL)) && (r =? - E_FILE_EXISTS) then file_open path else ret rf
         else ret rf
       else file_open path) in
    let '(r, f) := rf in
    if r <? 0 then ret (r, 0, 0)
    else
      let! r := (if nz (Z.land omode O_TRUNC) then file_set_size f 0 else ret 0) in
      if r <? 0 then ret (r, 0, 0)
      else
        do! upd_open o (fun x => mkOpenFile (o_fileid x) f (o_mode x) (o_fd x)) ;;
        let! x := gets (fun s => opentab s o) in
        do! fstore32 (o_fd x + fd_file_id_off) (o_fileid x) ;;
        do! fstore32 (o_fd x + fd_omode_off) (Z.land omode O_ACCMODE) ;;
        do! fstore32 (o_fd x + fd_dev_id_off) devfile_id ;;
        do! upd_open o (fun x => mkOpenFile (o_fileid x) (o_file x) (s32 omode) (o_fd x)) ;;
        ret (0, o_fd x, Z.lor (Z.lor (Z.lor PTE_P PTE_U) PTE_W) PTE_SHARE).

Definition serve_set_size (req : Z) : F Z :=
  let! id := fload32 req in
  let! ro := openfile_lookup id in
  let '(r, o) := ro in
  if r <? 0 then ret r
  else
    let! size := fload32 (req + 4) in
    let! f := gets (fun s => o_file (opentab s o)) in
    file_set_size f (s32 size).

(** [struct Fsreq_read]: [req_fileid] at 0, the 64-bit [req_n] at 8; the
    reply overwrites the request. *)
Definition serve_read (ipc : Z) : F Z :=
  let! id := fload32 ipc in
  let! ro := openfile_lookup id in
  let '(r, o) := ro in
  if r <? 0 then ret r
  else
    let! lo := fload32 (ipc + 8) in
    let! hi := fload32 (ipc + 12) in
    let req_n := lo + 2 ^ 32 * hi in
    let req_size := if req_n <? PGSIZE then req_n else PGSIZE in
    let! x := gets (fun s => opentab s o) in
    let! off := fload32 (o_fd x + fd_offset_off) in
    let! ret_size := file_read (o_file x) ipc req_size (s32 off) in
    if ret_size <? 0 then ret ret_size
    else
      let! off := fload32 (o_fd x + fd_offset_off) in
      do! fstore32 (o_fd x + fd_offset_off) (u32 (s32 off + ret_size)) ;;
      ret ret_size.

Definition serve_write : F Z := panic "serve_write not implemented".

(** The copy of a name runs to its null; with no null in the structure it goes
    on into the fields that follow. *)
Fixpoint fstrcpy_mem (fuel : nat) (dst src : Z) : F unit :=
  match fuel with
  | O => noret
  | S f =>
      let! c := fload8 src in
      do! fstore8 dst c ;;
      if c =? 0 then ret tt else fstrcpy_mem f (dst + 1) (src + 1)
  end.

Definition serve_stat (ipc : Z) : F Z :=
  let! id := fload32 ipc in
  let! ro := openfile_lookup id in
  let '(r, o) := ro in
  if r <? 0 then ret r
  else
    let! f := gets (fun s => o_file (opentab s o)) in
    do! fstrcpy_mem (Z.to_nat PGSIZE) ipc f ;;
    let! size := f_size f in
    do! fstore32 (ipc + MAXNAMELEN) (u32 size) ;;
    let! ty := f_type f in
    do! fstore32 (ipc + MAXNAMELEN + 4) (if ty =? FTYPE_DIR then 1 else 0) ;;
    ret 0.

Definition serve_flush (req : Z) : F Z :=
  let! id := fload32 req in
  let! ro := openfile_lookup id in
  let '(r, o) := ro in
  if r <? 0 then ret r
  else
    let! f := gets (fun s => o_file (opentab s o)) in
    do! file_flush f ;;
    ret 0.

Definition serve_remove (req : Z) : F Z :=
  let! path := req_path req in
  file_remove path.

Definition serve_sync : F Z := do! fs_sync ;; ret 0.

(** One round of [serve] for a request [req] whose page came with permissions
    [perm]: the reply's value, page and permissions; [None] when the request is
    left hanging. *)
Definition serve_request (req perm : Z) : F (option (Z * Z * Z)) :=
  if Z.land perm PTE_P =? 0 then ret None
  else
    let! rpp :=
      (if req =? FSREQ_OPEN then
         let! rpp := serve_open fsreq in
         let '(r, pg, p) := rpp in
         ret (r, pg, if r <? 0 then perm else p)
       else
         let! r :=
           (if req =? FSREQ_READ then serve_read fsreq
            else if req =? FSREQ_STAT then serve_stat fsreq
            else if req =? FSREQ_FLUSH then serve_flush fsreq
            else if req =? FSREQ_SET_SIZE then serve_set_size fsreq
            else if req =? FSREQ_WRITE then serve_write
            else if req =? FSREQ_REMOVE then serve_remove fsreq
            else if req =? FSREQ_SYNC then serve_sync
            else ret (- E_INVAL)) in
         ret (r, 0, perm)) in
    do! modify (fun s => set_fmapped (fmapped s ∖ {[ fsreq / PGSIZE ]}) s) ;;
    ret (Some rpp).
End Serv.
