(* ===== verification/FsProps.v ===== *)
(** Properties of the file server: the block cache is transparent, files are
    read as the disk describes them, and the server's request handlers. *)

From S2P Require Import Prelude Kernel CString Fs FsServ.

(** ** The block cache is transparent

    What the server sees at an address: its memory where a page is mapped, the
    disk where the page would be read in. *)
Definition fv (s : fsst) : cmem := fun a => if bool_decide (a / PGSIZE ∈ fmapped s) then fmem s a else fdisk s (a - DISKMAP).

(** Only the set of blocks in memory differs. *)
Record same_view (s s' : fsst) : Prop := {
  sv_view : forall a, fv s' a = fv s a;
  sv_disk : fdisk s' = fdisk s;
  sv_super : super s' = super s;
  sv_bitmap : bitmap s' = bitmap s;
  sv_open : opentab s' = opentab s;
  sv_mapped : fmapped s ⊆ fmapped s';
}.

Lemma same_view_refl s : same_view s s.
Proof. by split. Qed.

Lemma same_view_trans s1 s2 s3 : same_view s1 s2 -> same_view s2 s3 -> same_view s1 s3.
Proof.
  intros [A1 A2 A3 A4 A5 A6] [B1 B2 B3 B4 B5 B6]. split; [|congruence..|by trans (fmapped s2)].
  intros a. by rewrite B1, A1.
Qed.

#[export] Instance same_view_preorder : PreOrder same_view.
Proof. split; [exact same_view_refl|exact same_view_trans]. Qed.

Lemma word32_ext m m' a : (forall i, 0 <= i < 4 -> m' (a + i) = m (a + i)) -> word32 m' a = word32 m a.
Proof.
  intros H. unfold word32. rewrite <- (Z.add_0_r a) at 1 5.
  by rewrite (H 0), (H 1), (H 2), (H 3) by lia.
Qed.

Lemma same_view_word s s' a : same_view s s' -> word32 (fv s') a = word32 (fv s) a.
Proof. intros H. apply word32_ext. intros i _. apply (sv_view _ _ H). Qed.

(** The word at [a] does not cross a page. *)
Definition in_page (a n : Z) : Prop := a mod PGSIZE + n <= PGSIZE.

Lemma in_page_same a n i : in_page a n -> 0 <= i < n -> (a + i) / PGSIZE = a / PGSIZE.
Proof.
  unfold in_page. intros H Hi. pose proof (Z.mod_pos_bound a PGSIZE ltac:(done)). pose proof (Z.div_mod a PGSIZE ltac:(done)).
  symmetry. apply (Z.div_unique _ _ _ (a mod PGSIZE + i)); lia.
Qed.

Section View.
Context {fe : FsEnv}.
(** Memory does not run out and the disk has no errors. *)
Hypothesis page_ok : forall a, page_alloc_res a = 0.
Hypothesis ide_ok : forall n, ide_read_res n = 0.

(** After [fs_init]: the super block is in memory, and the disk has [n] blocks. *)
Record fs_ok (n : Z) (s : fsst) : Prop := {
  fo_super : super s = DISKMAP + BLKSIZE;
  fo_cached : (DISKMAP + BLKSIZE) / PGSIZE ∈ fmapped s;
  fo_nblocks : word32 (fv s) (DISKMAP + BLKSIZE + s_nblocks_off) = n;
  fo_max : 1 < n <= DISKSIZE / BLKSIZE;
}.

(** Addresses the server can use: mapped memory and the blocks of the disk. *)
Definition acc (n : Z) (s : fsst) (a : Z) : Prop :=
  a / PGSIZE ∈ fmapped s \/ DISKMAP <= a < DISKMAP + n * BLKSIZE.

Lemma same_view_ok n s s' : fs_ok n s -> same_view s s' -> fs_ok n s'.
Proof.
  intros [H1 H2 H3 H4] V. split.
  - by rewrite (sv_super _ _ V).
  - by apply (sv_mapped _ _ V).
  - by rewrite (same_view_word _ _ _ V).
  - done.
Qed.

Lemma same_view_acc n s s' a : acc n s a -> same_view s s' -> acc n s' a.
Proof. intros [H|H] V; [left; by apply (sv_mapped _ _ V)|by right]. Qed.

(** Every byte of a block in memory is its byte on the disk. *)
Lemma block_loaded s a b :
  DISKMAP <= a < DISKMAP + DISKSIZE ->
  let blockno := u64 (a - DISKMAP) / BLKSIZE in
  store_n (store_n (fmem s) (ROUNDDOWN a PGSIZE) (replicate (Z.to_nat PGSIZE) 0)) (ROUNDDOWN a PGSIZE)
    (load_n (fdisk s) (u32 (BLKSECTS * blockno) * SECTSIZE) (BLKSECTS * SECTSIZE)) b =
  if decide (b / PGSIZE = a / PGSIZE) then fdisk s (b - DISKMAP) else fmem s b.
Proof.
  intros Ha blockno. assert (ROUNDDOWN a PGSIZE = a / PGSIZE * PGSIZE) as ->.
  { apply ROUNDDOWN_eq. unfold DISKMAP, DISKSIZE in Ha. lia. }
  assert (blockno = a / PGSIZE - DISKMAP / PGSIZE) as Hb.
  { unfold blockno, DISKMAP, DISKSIZE in *. rewrite u64_small by lia.
    replace (a - 0x10000000) with (a + (- 0x10000) * PGSIZE) by (unfold PGSIZE; lia). by rewrite Z.div_add. }
  assert (PGSIZE = 4096 /\ BLKSECTS = 8 /\ SECTSIZE = 512) as (HP & HB & HS) by done.
  assert (0 <= blockno < DISKSIZE / PGSIZE) as Hrange.
  { rewrite Hb. change (DISKSIZE / PGSIZE) with 786432. change (DISKMAP / PGSIZE) with 65536.
    pose proof (Z.div_le_mono DISKMAP a PGSIZE ltac:(done) ltac:(lia)) as H1. change (DISKMAP / PGSIZE) with 65536 in H1.
    assert (a / PGSIZE < 65536 + 786432); [|lia]. apply Z.div_lt_upper_bound; [done|]. unfold DISKMAP, DISKSIZE, PGSIZE in *. lia. }
  rewrite u32_small by (change (DISKSIZE / PGSIZE) with 786432 in Hrange; lia).
  rewrite store_load by done. pose proof (Z.div_mod b PGSIZE ltac:(done)) as Hdb. pose proof (Z.mod_pos_bound b PGSIZE ltac:(done)).
  rewrite HB, HS in *. change (8 * 512) with 4096. rewrite HP in *.
  destruct (decide (b / 4096 = a / 4096)) as [He|He].
  - rewrite decide_True by lia. f_equal. change (DISKMAP / 4096) with 65536 in Hb. rewrite Hb. unfold DISKMAP. lia.
  - rewrite decide_False by lia. unfold store_n. rewrite length_replicate. change (Z.of_nat (Z.to_nat 4096)) with 4096.
    destruct (Z.leb_spec (a / 4096 * 4096) b), (Z.ltb_spec b (a / 4096 * 4096 + 4096)); cbn [andb]; (done || lia).
Qed.

(** Bringing a page in changes nothing the server can see. *)
Lemma touch_ok n s a :
  fs_ok n s -> acc n s a -> exists s', touch a s = Ret tt s' /\ same_view s s' /\ a / PGSIZE ∈ fmapped s'.
Proof using All.
  intros Hok Hacc. unfold touch. msteps. case_bool_decide as Hm; [by exists s|].
  destruct Hacc as [|Ha]; [done|]. destruct Hok as [H1 H2 H3 H4].
  assert (DISKMAP <= a < DISKMAP + DISKSIZE) as Har by (change (DISKSIZE / BLKSIZE) with 786432 in H4; unfold DISKSIZE, BLKSIZE, PGSIZE in *; lia).
  unfold bc_pgfault. destruct (Z.ltb_spec a DISKMAP); [lia|]. destruct (Z.leb_spec (DISKMAP + DISKSIZE) a); [lia|]. cbn [orb].
  msteps. rewrite H1. change (nz (DISKMAP + BLKSIZE)) with true. cbv iota. unfold handler_nblocks. msteps. rewrite H1.
  rewrite bool_decide_true by done. msteps.
  assert (word32 (fmem s) (DISKMAP + BLKSIZE + s_nblocks_off) = n) as ->.
  { rewrite <- H3. apply word32_ext. intros i Hi. unfold fv. rewrite bool_decide_true; [done|].
    replace (DISKMAP + BLKSIZE + s_nblocks_off + i) with (DISKMAP + BLKSIZE + (4 + i)) by (unfold s_nblocks_off; lia).
    rewrite (in_page_same _ 8); [done|done|lia]. }
  assert (u64 (a - DISKMAP) / BLKSIZE < n) as Hblk.
  { unfold DISKMAP, DISKSIZE in *. rewrite u64_small by lia. apply Z.div_lt_upper_bound; [done|]. lia. }
  destruct (Z.leb_spec n (u64 (a - DISKMAP) / BLKSIZE)); [lia|]. cbn [andb]. cbv iota.
  unfold fs_page_alloc. rewrite page_ok. change (0 <? 0) with false. cbv iota. msteps.
  unfold ide_read. change (BLKSECTS <=? 256) with true. unfold assertM. msteps. rewrite ide_ok. change (0 <? 0) with false. cbv iota. msteps.
  assert (ROUNDDOWN a PGSIZE / PGSIZE = a / PGSIZE) as Hrd.
  { rewrite ROUNDDOWN_eq by (unfold DISKMAP, DISKSIZE in *; lia). by rewrite Z.div_mul. }
  rewrite Hrd. eexists. split; [done|]. split; [|cbn; set_solver].
  split; try done; [|cbn; set_solver].
  intros b. unfold fv. cbn [fmapped fmem fdisk set_fmem set_fmapped set_frefs].
  rewrite block_loaded by done. destruct (decide (b / PGSIZE = a / PGSIZE)) as [He|He].
  - rewrite He. rewrite (bool_decide_false (_ ∈ fmapped s)) by done. rewrite bool_decide_true by set_solver. done.
  - destruct (bool_decide (b / PGSIZE ∈ fmapped s)) eqn:E.
    + apply bool_decide_eq_true in E. rewrite bool_decide_true by set_solver. done.
    + apply bool_decide_eq_false in E. rewrite bool_decide_false by set_solver. done.
Qed.

(** A computation that only brings blocks in, and returns [v]. *)
Definition reads {A : Type} (m : F A) (s : fsst) (v : A) : Prop := exists s', m s = Ret v s' /\ same_view s s'.

Lemma reads_ret {A : Type} (v : A) s : reads (ret v) s v.
Proof using. by exists s. Qed.

Lemma reads_bind {A B : Type} (m : F A) (k : A -> F B) s v w :
  reads m s v -> (forall s', same_view s s' -> reads (k v) s' w) -> reads (bind m k) s w.
Proof using.
  intros (s1 & Hm & V1) Hk. destruct (Hk s1 V1) as (s2 & Hr & V2).
  exists s2. rewrite (bind_Ret _ _ _ _ _ Hm). split; [done|]. by trans s1.
Qed.

Lemma reads_gets {A B : Type} (g : fsst -> A) (k : A -> F B) s w : reads (k (g s)) s w -> reads (bind (gets g) k) s w.
Proof using. done. Qed.

Lemma fload8_reads n s a : fs_ok n s -> acc n s a -> reads (fload8 a) s (fv s a).
Proof using All.
  intros Hok Ha. destruct (touch_ok n s a Hok Ha) as (s' & Ht & V & Hm).
  exists s'. unfold fload8. rewrite (bind_Ret _ _ _ _ _ Ht). split; [|done].
  rewrite <- (sv_view _ _ V). unfold fv. by rewrite bool_decide_true.
Qed.

Lemma fload32_reads n s a : fs_ok n s -> acc n s a -> in_page a 4 -> reads (fload32 a) s (word32 (fv s) a).
Proof using All.
  intros Hok Ha Hp. destruct (touch_ok n s a Hok Ha) as (s' & Ht & V & Hm).
  exists s'. unfold fload32. rewrite (bind_Ret _ _ _ _ _ Ht). split; [|done].
  rewrite <- (same_view_word _ _ _ V). unfold gets. f_equal. symmetry. apply word32_ext. intros i Hi. unfold fv.
  rewrite (in_page_same a 4 i Hp Hi). by rewrite bool_decide_true.
Qed.

Lemma diskaddr_reads n s b : fs_ok n s -> 0 < b < n -> reads (diskaddr b) s (DISKMAP + b * BLKSIZE).
Proof using All.
  intros Hok Hb. unfold diskaddr. apply reads_gets. rewrite (fo_super _ _ Hok).
  change (nz (DISKMAP + BLKSIZE)) with true. destruct (Z.eqb_spec b 0); [lia|]. cbn [negb andb orb].
  eapply reads_bind; [apply (fload32_reads n); [done|left; exact (fo_cached _ _ Hok)|done]|].
  intros s' _. rewrite (fo_nblocks _ _ Hok). destruct (Z.leb_spec n b); [lia|]. apply reads_ret.
Qed.

(** ** Files on the disk

    The disk address of a file's block number [i], and its content, as a
    function of what the server sees. *)
Definition file_slot (m : cmem) (f i : Z) : Z :=
  if i <? NDIRECT then f + f_direct_off + 4 * i
  else DISKMAP + word32 m (f + f_indirect_off) * BLKSIZE + 4 * (i - NDIRECT).
Definition file_block (m : cmem) (f i : Z) : Z := word32 m (file_slot m f i).
Definition file_len (m : cmem) (f : Z) : Z := s32 (word32 m (f + f_size_off)).
Definition file_byte (m : cmem) (f o : Z) : Z := m (DISKMAP + file_block m f (o / BLKSIZE) * BLKSIZE + o mod BLKSIZE).

(** A file structure in a block of the disk, with every block it needs. *)
Record file_ok (n : Z) (s : fsst) (f : Z) : Prop := {
  fi_disk : DISKMAP <= f < DISKMAP + n * BLKSIZE;
  fi_page : in_page f File_size;
  fi_align : f mod 4 = 0;
  fi_len : 0 <= file_len (fv s) f <= (NDIRECT + NINDIRECT) * BLKSIZE;
  fi_indirect : NDIRECT * BLKSIZE < file_len (fv s) f -> 0 < word32 (fv s) (f + f_indirect_off) < n;
  fi_blocks : forall i, 0 <= i -> i * BLKSIZE < file_len (fv s) f -> 0 < file_block (fv s) f i < n;
}.

(** The disk looks the same. *)
Record disk_same (n : Z) (s s' : fsst) : Prop := {
  ds_view : forall a, DISKMAP <= a < DISKMAP + n * BLKSIZE -> fv s' a = fv s a;
  ds_super : super s' = super s;
  ds_mapped : fmapped s ⊆ fmapped s';
}.

Lemma same_view_disk n s s' : same_view s s' -> disk_same n s s'.
Proof using. intros [A1 A2 A3 A4 A5 A6]. by split. Qed.

Lemma disk_page n a b : DISKMAP <= a < DISKMAP + n * BLKSIZE -> b / PGSIZE = a / PGSIZE -> DISKMAP <= b < DISKMAP + n * BLKSIZE.
Proof using.
  intros H Hb. change BLKSIZE with PGSIZE in *.
  assert (DISKMAP = (DISKMAP / PGSIZE) * PGSIZE) as HD by done. rewrite HD in H |- *. set (d := DISKMAP / PGSIZE) in *.
  assert (PGSIZE = 4096) as HP by done.
  pose proof (Z.div_mod a PGSIZE ltac:(done)). pose proof (Z.div_mod b PGSIZE ltac:(done)).
  pose proof (Z.mod_pos_bound a PGSIZE ltac:(done)). pose proof (Z.mod_pos_bound b PGSIZE ltac:(done)). nia.
Qed.

Lemma disk_same_word n s s' a :
  disk_same n s s' -> DISKMAP <= a < DISKMAP + n * BLKSIZE -> in_page a 4 -> word32 (fv s') a = word32 (fv s) a.
Proof using.
  intros D Ha Hp. apply word32_ext. intros i Hi. apply (ds_view _ _ _ D).
  by apply (disk_page n a); [|apply (in_page_same a 4)].
Qed.

Lemma disk_same_ok n s s' : fs_ok n s -> disk_same n s s' -> fs_ok n s'.
Proof using.
  intros [H1 H2 H3 H4] D. split.
  - by rewrite (ds_super _ _ _ D).
  - by apply (ds_mapped _ _ _ D).
  - rewrite (disk_same_word n s s'); [done..| |done]. change BLKSIZE with 4096 in *. unfold s_nblocks_off. lia.
  - done.
Qed.

(** The fields of a file structure. *)
Lemma file_field n s f o :
  file_ok n s f -> 0 <= o -> o + 4 <= File_size -> DISKMAP <= f + o < DISKMAP + n * BLKSIZE /\ in_page (f + o) 4.
Proof using.
  intros Hf Ho Ho4. pose proof (in_page_same f File_size o (fi_page _ _ _ Hf) ltac:(lia)) as Hp. split.
  - by apply (disk_page n f); [apply Hf|].
  - pose proof (fi_page _ _ _ Hf) as H. unfold in_page in *. rewrite Z.mod_eq, Hp in * by done.
    pose proof (Z.div_mod f PGSIZE ltac:(done)). lia.
Qed.

Lemma f_size_reads n s f : fs_ok n s -> file_ok n s f -> reads (f_size f) s (file_len (fv s) f).
Proof using All.
  intros Hok Hf. destruct (file_field n s f f_size_off Hf ltac:(done) ltac:(done)) as [Ha Hp].
  unfold f_size. eapply reads_bind; [by apply (fload32_reads n); [|right|]|]. intros s' _. apply reads_ret.
Qed.

(** The slot of a block of the file is a word of the disk. *)
Lemma file_slot_disk n s f i :
  file_ok n s f -> 0 <= i -> i * BLKSIZE < file_len (fv s) f ->
  i < NDIRECT + NINDIRECT /\ DISKMAP <= file_slot (fv s) f i < DISKMAP + n * BLKSIZE /\ in_page (file_slot (fv s) f i) 4.
Proof using.
  intros Hf Hi Hl. assert (i < NDIRECT + NINDIRECT) as Hmax.
  { pose proof (fi_len _ _ _ Hf). change BLKSIZE with 4096 in *. change NINDIRECT with 1024 in *. unfold NDIRECT in *. lia. }
  split; [done|]. unfold file_slot. destruct (Z.ltb_spec i NDIRECT) as [Hd|Hd].
  - rewrite <- Z.add_assoc. apply (file_field n s f); [done|..]; unfold f_direct_off, MAXNAMELEN, NDIRECT, File_size in *; lia.
  - destruct (fi_indirect _ _ _ Hf) as [H1 H2]; [change BLKSIZE with 4096 in *; unfold NDIRECT in *; lia|].
    set (b := word32 _ _) in *. change BLKSIZE with 4096 in *. change NINDIRECT with 1024 in *. unfold NDIRECT in *.
    split; [lia|]. unfold in_page. change PGSIZE with 4096.
    replace (DISKMAP + b * 4096 + 4 * (i - 10)) with (4 * (i - 10) + (65536 + b) * 4096) by (unfold DISKMAP; lia).
    rewrite Z.mod_add by done. rewrite Z.mod_small by lia. lia.
Qed.

Lemma disk_same_file n s s' f :
  disk_same n s s' -> file_ok n s f ->
  file_ok n s' f /\ file_len (fv s') f = file_len (fv s) f /\
  forall o, 0 <= o < file_len (fv s) f -> file_byte (fv s') f o = file_byte (fv s) f o.
Proof using.
  intros D Hf.
  assert (forall o, 0 <= o -> o + 4 <= File_size -> word32 (fv s') (f + o) = word32 (fv s) (f + o)) as Hw.
  { intros o H1 H2. destruct (file_field n s f o Hf H1 H2). by apply (disk_same_word n). }
  assert (file_len (fv s') f = file_len (fv s) f) as Hlen by (unfold file_len; by rewrite Hw).
  assert (forall i, 0 <= i -> i * BLKSIZE < file_len (fv s) f -> file_block (fv s') f i = file_block (fv s) f i) as Hblk.
  { intros i Hi Hl. destruct (file_slot_disk n s f i Hf Hi Hl) as (_ & H1 & H2). unfold file_block.
    assert (file_slot (fv s') f i = file_slot (fv s) f i) as -> by (unfold file_slot; by rewrite Hw).
    by apply (disk_same_word n). }
  split_ands; [|done|].
  - destruct Hf as [H1 H2 H3 H4 H5 H6]. split; try done; rewrite ?Hlen; try done.
    + intros H. rewrite Hw by done. auto.
    + intros i Hi Hl. rewrite Hblk by done. auto.
  - intros o Ho. unfold file_byte. pose proof (Z.div_mod o BLKSIZE ltac:(done)). pose proof (Z.mod_pos_bound o BLKSIZE ltac:(done)).
    assert (0 <= o / BLKSIZE) by (apply Z.div_pos; [lia|done]).
    assert (o / BLKSIZE * BLKSIZE < file_len (fv s) f) as Hl by lia.
    rewrite Hblk by done. pose proof (fi_blocks _ _ _ Hf (o / BLKSIZE) ltac:(done) Hl).
    apply (ds_view _ _ _ D). change BLKSIZE with 4096 in *. lia.
Qed.

Lemma file_get_block_reads n s f i :
  fs_ok n s -> file_ok n s f -> 0 <= i -> i * BLKSIZE < file_len (fv s) f ->
  reads (file_get_block f i) s (0, DISKMAP + file_block (fv s) f i * BLKSIZE).
Proof using All.
  intros Hok Hf Hi Hl. destruct (file_slot_disk n s f i Hf Hi Hl) as (Hmax & Hslot & Hsp).
  unfold file_get_block. destruct (Z.leb_spec (NDIRECT + NINDIRECT) i); [lia|].
  assert (reads (file_block_walk f i false) s (0, file_slot (fv s) f i)) as Hwalk.
  { unfold file_block_walk. destruct (Z.leb_spec (NDIRECT + NINDIRECT) i); [lia|].
    eapply reads_bind; [by apply (f_size_reads n)|]. intros s1 V1.
    pose proof (fi_len _ _ _ Hf) as Hlen. assert (BLKSIZE = 4096 /\ NINDIRECT = 1024) as [HB HN] by done.
    assert (i <= file_len (fv s) f / BLKSIZE) as Hq by (apply Z.div_le_lower_bound; lia).
    assert (0 <= file_len (fv s) f / BLKSIZE < 2 ^ 32) as Hq2.
    { split; [apply Z.div_pos; lia|]. apply Z.div_lt_upper_bound; [lia|]. unfold NDIRECT in *. lia. }
    rewrite Z.quot_div_nonneg, u32_small by lia. destruct (Z.ltb_spec (file_len (fv s) f / BLKSIZE) i); [lia|].
    unfold file_slot. destruct (Z.ltb_spec i NDIRECT) as [Hd|Hd]; [apply reads_ret|].
    destruct (fi_indirect _ _ _ Hf) as [Hi1 Hi2]; [lia|].
    destruct (file_field n s f f_indirect_off Hf ltac:(done) ltac:(done)) as [Hfa Hfp].
    pose proof (same_view_ok n s s1 Hok V1) as Hok1.
    eapply reads_bind; [apply (fload32_reads n); [done|by right|done]|]. intros s2 V2.
    rewrite (same_view_word _ _ _ V1). destruct (Z.eqb_spec (word32 (fv s) (f + f_indirect_off)) 0); [lia|].
    eapply reads_bind; [by apply (diskaddr_reads n); [apply (same_view_ok n s1)|]|]. intros s3 _. apply reads_ret. }
  eapply reads_bind; [exact Hwalk|]. intros s1 V1. change (0 <? 0) with false. cbv iota.
  pose proof (same_view_ok n s s1 Hok V1) as Hok1.
  eapply reads_bind; [apply (fload32_reads n); [done|by right|done]|]. intros s2 V2.
  rewrite (same_view_word _ _ _ V1). fold (file_block (fv s) f i). pose proof (fi_blocks _ _ _ Hf i Hi Hl).
  destruct (Z.eqb_spec (file_block (fv s) f i) 0); [lia|].
  eapply reads_bind; [by apply (diskaddr_reads n); [apply (same_view_ok n s1)|]|]. intros s3 _. apply reads_ret.
Qed.

(** ** Reading a file *)

Lemma touch_range n s a k :
  fs_ok n s -> 0 <= k -> (forall i, 0 <= i < k -> acc n s (a + i)) ->
  exists s', forM (seqZ 0 k) (fun i => touch (a + i)) s = Ret tt s' /\ same_view s s' /\
    forall i, 0 <= i < k -> (a + i) / PGSIZE ∈ fmapped s'.
Proof using All.
  intros Hok Hk Hacc.
  destruct (forM_inv (fun pre s' => same_view s s' /\ forall i, i ∈ pre -> (a + i) / PGSIZE ∈ fmapped s')
    (seqZ 0 k) (fun i => touch (a + i)) s) as (s' & Hrun & V & Hm).
  - intros pre i post s1 Hl [V1 Hm1]. assert (i ∈ seqZ 0 k) as Hi by (rewrite Hl; set_solver). apply elem_of_seqZ in Hi.
    destruct (touch_ok n s1 (a + i)) as (s2 & Ht & V2 & Hm2).
    { by apply (same_view_ok n s). }
    { apply (same_view_acc n s); [|done]. apply Hacc. lia. }
    exists s2. split; [done|]. split; [by trans s1|]. intros j Hj. apply elem_of_app in Hj as [Hj|Hj].
    + apply (sv_mapped _ _ V2). auto.
    + by apply list_elem_of_singleton in Hj as ->.
  - split; [done|]. intros i Hi. by apply not_elem_of_nil in Hi.
  - exists s'. split_ands; try done. intros i Hi. apply Hm, elem_of_seqZ. lia.
Qed.

(** A copy from a block of the disk to memory of the server's own. *)
Lemma fmemmove_run n s dst src k :
  fs_ok n s -> 0 <= k -> DISKMAP <= src -> src + k <= DISKMAP + n * BLKSIZE ->
  (forall i, 0 <= i < k -> (dst + i) / PGSIZE ∈ fmapped s) -> (dst + k <= DISKMAP \/ DISKMAP + n * BLKSIZE <= dst) ->
  exists s', fmemmove dst src k s = Ret tt s' /\ disk_same n s s' /\ opentab s' = opentab s /\
    forall a, fv s' a = if decide (dst <= a < dst + k) then fv s (src + (a - dst)) else fv s a.
Proof using All.
  intros Hok Hk Hs1 Hs2 Hd Hdis. unfold fmemmove.
  destruct (touch_range n s src k Hok Hk) as (s1 & Hr1 & V1 & Hm1); [intros; right; lia|]. mrun Hr1.
  destruct (touch_range n s1 dst k (same_view_ok _ _ _ Hok V1) Hk) as (s2 & Hr2 & V2 & Hm2).
  { intros i Hi. left. apply (sv_mapped _ _ V1). auto. }
  mrun Hr2. assert (same_view s s2) as V by (by trans s1).
  assert (forall a, fv (set_fmem (memmove (fmem s2) dst src k) s2) a =
    if decide (dst <= a < dst + k) then fv s (src + (a - dst)) else fv s a) as Hfv.
  { intros a. unfold fv at 1. cbn [fmapped fmem fdisk set_fmem]. rewrite memmove_copied by done.
    destruct (decide (dst <= a < dst + k)) as [Hin|Hout].
    - rewrite bool_decide_true by (replace a with (dst + (a - dst)) by lia; apply Hm2; lia).
      rewrite <- (sv_view _ _ V). unfold fv. rewrite bool_decide_true; [done|].
      apply (sv_mapped _ _ V2), Hm1. lia.
    - rewrite <- (sv_view _ _ V). unfold fv. done. }
  eexists. split; [done|]. split_ands; [|by cbn; apply (sv_open _ _ V)|exact Hfv].
  split; [|by cbn; apply (sv_super _ _ V)|by cbn; apply (sv_mapped _ _ V)].
  intros a Ha. rewrite Hfv, decide_False by lia. done.
Qed.

Section Read.
Context (n : Z) (s : fsst) (f buf offset k : Z).
Context (Hok : fs_ok n s) (Hf : file_ok n s f) (Hoff : 0 <= offset) (Hk : 0 <= k) (Hend : offset + k <= file_len (fv s) f).
Context (Hbuf : forall i, 0 <= i < k -> (buf + i) / PGSIZE ∈ fmapped s).
Context (Hdis : buf + k <= DISKMAP \/ DISKMAP + n * BLKSIZE <= buf).

(** The first [d] bytes have been copied. *)
Definition read_inv (d : Z) (st : fsst) : Prop :=
  disk_same n s st /\ opentab st = opentab s /\
  forall a, fv st a = if decide (buf <= a < buf + d) then file_byte (fv s) f (offset + (a - buf)) else fv s a.

(** The body of the loop of [file_read]. *)
Definition read_round : Z * Z -> F (Z * Z + Z) := fun '(pos, b) =>
  if u64 pos <? u64 (offset + k) then
    let! rb := file_get_block f (u32 (Z.quot pos BLKSIZE)) in
    let '(r, blk) := rb in
    if r <? 0 then ret (inr r)
    else
      let left := u64 (offset + k - pos) in
      let room := u64 (BLKSIZE - Z.rem pos BLKSIZE) in
      let bn := s32 (if room <=? left then room else left) in
      do! fmemmove b (blk + Z.rem pos BLKSIZE) bn ;;
      ret (inl (s32 (pos + bn), b + bn))
  else ret (inr 0).

Lemma read_round_step d st :
  0 <= d < k -> read_inv d st ->
  let bn := Z.min (BLKSIZE - (offset + d) mod BLKSIZE) (k - d) in
  exists st', read_round (offset + d, buf + d) st = Ret (inl (offset + (d + bn), buf + (d + bn))) st' /\ read_inv (d + bn) st'.
Proof using All.
  intros Hd (D & Ho & Hv) bn. set (pos := offset + d) in *.
  pose proof (fi_len _ _ _ Hf) as Hlen. assert (BLKSIZE = 4096 /\ NINDIRECT = 1024 /\ NDIRECT = 10) as (HB & HN & HD) by done.
  destruct (disk_same_file n s st f D Hf) as (Hf' & Hlen' & Hbyte). pose proof (disk_same_ok _ _ _ Hok D) as Hok'.
  pose proof (Z.div_mod pos BLKSIZE ltac:(done)) as Hdm. pose proof (Z.mod_pos_bound pos BLKSIZE ltac:(done)) as Hmod.
  assert (0 <= pos / BLKSIZE) as Hq0 by (apply Z.div_pos; lia).
  unfold read_round. rewrite !u64_small by lia. destruct (Z.ltb_spec pos (offset + k)); [|lia].
  rewrite Z.quot_div_nonneg, Z.rem_mod_nonneg by lia. rewrite (u32_small (pos / BLKSIZE)) by lia.
  destruct (file_get_block_reads n st f (pos / BLKSIZE) Hok' Hf' Hq0 ltac:(lia)) as (st1 & Hg & V1).
  mrun Hg. change (0 <? 0) with false. cbv iota.
  assert ((if BLKSIZE - pos mod BLKSIZE <=? offset + k - pos then BLKSIZE - pos mod BLKSIZE else offset + k - pos) = bn) as Hbn.
  { unfold bn. destruct (Z.leb_spec (BLKSIZE - pos mod BLKSIZE) (offset + k - pos)); lia. }
  rewrite ?(u64_small (BLKSIZE - pos mod BLKSIZE)), ?(u64_small (offset + k - pos)) by lia.
  rewrite Hbn. rewrite (s32_small bn) by lia.
  pose proof (fi_blocks _ _ _ Hf' (pos / BLKSIZE) Hq0 ltac:(lia)) as Hblk. set (b := file_block (fv st) f (pos / BLKSIZE)) in *.
  destruct (fmemmove_run n st1 (buf + d) (DISKMAP + b * BLKSIZE + pos mod BLKSIZE) bn) as (st2 & Hm & D2 & Ho2 & Hv2).
  { by apply (same_view_ok n st). }
  1-3: lia.
  { intros i Hi. rewrite <- Z.add_assoc. apply (sv_mapped _ _ V1), (ds_mapped _ _ _ D), Hbuf. lia. }
  { lia. }
  mrun Hm. rewrite s32_small by lia. exists st2. split; [unfold ret; do 3 f_equal; lia|].
  split; [|split].
  - split.
    + intros a Ha. rewrite (ds_view _ _ _ D2), (sv_view _ _ V1) by done. by apply (ds_view _ _ _ D).
    + by rewrite (ds_super _ _ _ D2), (sv_super _ _ V1), (ds_super _ _ _ D).
    + etrans; [apply (ds_mapped _ _ _ D)|]. etrans; [apply (sv_mapped _ _ V1)|apply (ds_mapped _ _ _ D2)].
  - by rewrite Ho2, (sv_open _ _ V1).
  - intros a. rewrite Hv2. destruct (decide (buf + d <= a < buf + d + bn)) as [Hin|Hout].
    + rewrite decide_True by lia. rewrite (sv_view _ _ V1). rewrite <- Hbyte by lia. unfold file_byte.
      assert ((offset + (a - buf)) / BLKSIZE = pos / BLKSIZE /\ (offset + (a - buf)) mod BLKSIZE = pos mod BLKSIZE + (a - buf - d)) as [-> ->].
      { assert ((offset + (a - buf)) / BLKSIZE = pos / BLKSIZE) as Hq.
        { symmetry. apply (Z.div_unique _ _ _ (pos mod BLKSIZE + (a - buf - d))); lia. }
        split; [done|]. rewrite Z.mod_eq, Hq by done. lia. }
      fold b. f_equal. lia.
    + rewrite (sv_view _ _ V1), Hv. repeat case_decide; (done || lia).
Qed.

Lemma read_loop fuel d st :
  0 <= d <= k -> (1 <= fuel)%nat -> (d = k \/ k - d + (offset + d) mod BLKSIZE <= (Z.of_nat fuel - 1) * BLKSIZE) ->
  read_inv d st -> exists st', loop fuel read_round (offset + d, buf + d) st = Ret 0 st' /\ read_inv k st'.
Proof using All.
  revert d st. induction fuel as [|fuel IH]; intros d st Hd Hfuel Hm I; [lia|]. cbn [loop].
  destruct (decide (d = k)) as [->|Hne].
  - exists st. split; [|done]. unfold read_round at 1. by rewrite Z.ltb_irrefl.
  - destruct Hm as [Hm|Hm]; [done|]. destruct (read_round_step d st ltac:(lia) I) as (st1 & Hr & I1).
    set (bn := Z.min (BLKSIZE - (offset + d) mod BLKSIZE) (k - d)) in *. rewrite (bind_Ret _ _ _ _ _ Hr).
    assert (BLKSIZE = 4096) as HB by done. pose proof (Z.mod_pos_bound (offset + d) BLKSIZE ltac:(done)).
    apply IH; [lia|lia| |done].
    destruct (Z.le_gt_cases (k - d) (BLKSIZE - (offset + d) mod BLKSIZE)); [left; lia|right].
    assert ((offset + (d + bn)) mod BLKSIZE = 0) as ->; [|lia].
    replace (offset + (d + bn)) with ((offset + d) / BLKSIZE * BLKSIZE + 1 * BLKSIZE).
    + rewrite Z.mod_add by done. by apply Z.mod_mul.
    + pose proof (Z.div_mod (offset + d) BLKSIZE ltac:(done)). lia.
Qed.
End Read.

(** C8: [file_read] returns what is in the file, as long as every page the block
    cache asks for is allocated and every disk read succeeds. For a well-formed
    file of the disk and a mapped buffer outside the disk map, it returns the
    number of bytes there are between the offset and the end of the file, at most
    [count], and the buffer then holds exactly those bytes of the file's
    blocks, direct and indirect, whichever of them were in the block cache;
    nothing else the server sees changes. *)
Theorem file_read_spec n s f buf count offset :
  fs_ok n s -> file_ok n s f -> 0 <= offset < 2 ^ 31 -> 0 <= count < 2 ^ 31 ->
  let k := Z.min count (Z.max 0 (file_len (fv s) f - offset)) in
  (forall i, 0 <= i < k -> (buf + i) / PGSIZE ∈ fmapped s) -> (buf + k <= DISKMAP \/ DISKMAP + n * BLKSIZE <= buf) ->
  exists s', file_read f buf count offset s = Ret k s' /\ fs_ok n s' /\ file_ok n s' f /\ opentab s' = opentab s /\
    forall a, fv s' a = if decide (buf <= a < buf + k) then file_byte (fv s) f (offset + (a - buf)) else fv s a.
Proof using All.
  intros Hok Hf Hoff Hcount k Hbuf Hdis. unfold file_read.
  pose proof (fi_len _ _ _ Hf) as Hlen. assert (BLKSIZE = 4096 /\ NINDIRECT = 1024 /\ NDIRECT = 10) as (HB & HN & HD) by done.
  destruct (f_size_reads n s f Hok Hf) as (s1 & Hr1 & V1). mrun Hr1. set (len := file_len (fv s) f) in *.
  destruct (disk_same_file n s s1 f (same_view_disk n _ _ V1) Hf) as (Hf1 & Hlen1 & _).
  pose proof (same_view_ok _ _ _ Hok V1) as Hok1.
  destruct (Z.leb_spec len offset) as [Hle|Hgt].
  { exists s1. unfold ret. replace k with 0 by lia. split_ands; try done; [apply (sv_open _ _ V1)|].
    intros a. rewrite decide_False by lia. apply (sv_view _ _ V1). }
  destruct (f_size_reads n s1 f Hok1 Hf1) as (s2 & Hr2 & V2). mrun Hr2. rewrite Hlen1. fold len.
  assert (same_view s s2) as V by (by trans s1).
  rewrite (s32_small (len - offset)), (u64_small (len - offset)) by lia.
  assert ((if count <=? len - offset then count else len - offset) = k) as ->.
  { unfold k. destruct (Z.leb_spec count (len - offset)); lia. }
  destruct (read_loop n s f buf offset k Hok Hf ltac:(lia) ltac:(lia) ltac:(lia) Hbuf Hdis (Z.to_nat (k / BLKSIZE + 3)) 0 s2)
    as (s3 & Hloop & D & Ho & Hv).
  - lia.
  - pose proof (Z.div_pos k BLKSIZE ltac:(lia) ltac:(done)). lia.
  - right. pose proof (Z.div_pos k BLKSIZE ltac:(lia) ltac:(done)). rewrite Z2Nat.id by lia.
    pose proof (Z.mod_pos_bound (offset + 0) BLKSIZE ltac:(done)). pose proof (Z.div_mod k BLKSIZE ltac:(done)).
    pose proof (Z.mod_pos_bound k BLKSIZE ltac:(done)). lia.
  - split; [by apply same_view_disk|]. split; [apply (sv_open _ _ V)|]. intros a. rewrite decide_False by lia. apply (sv_view _ _ V).
  - rewrite !Z.add_0_r in Hloop. change (fun '(pos, b) => _) with (read_round f offset k). mrun Hloop.
    change (0 <? 0) with false. cbv iota. rewrite s32_small by lia.
    exists s3. unfold ret. split_ands; try done; [by apply (disk_same_ok n s)|by apply (disk_same_file n s)].
Qed.

(** ** Looking a name up in a directory *)

Fixpoint strcmp_list (m : cmem) (p : Z) (q : list Z) : Z :=
  match q with
  | [] => m p
  | x :: q' => if nz (m p) && (m p =? x) then strcmp_list m (p + 1) q' else m p - x
  end.

Lemma strcmp_list_eq m p q : Forall (fun b => b <> 0) q -> strcmp_list m p q = 0 <-> cstr m p q.
Proof using.
  revert p. induction q as [|x q IH]; intros p Hq; cbn; [by rewrite cstr_nil|].
  apply Forall_cons in Hq as [Hx Hq]. rewrite cstr_cons. unfold nz.
  destruct (Z.eqb_spec (m p) 0), (Z.eqb_spec (m p) x); cbn [negb andb]; try (split; [lia|naive_solver lia]).
  rewrite (IH (p + 1) Hq). naive_solver.
Qed.

Lemma fstrcmp_reads n s p q :
  fs_ok n s -> DISKMAP <= p < DISKMAP + n * BLKSIZE -> in_page p (Z.of_nat (length q) + 1) ->
  reads (fstrcmp p q) s (strcmp_list (fv s) p q).
Proof using All.
  revert s p. induction q as [|x q IH]; intros s p Hok Hp Hpg; cbn [fstrcmp strcmp_list].
  - eapply reads_bind; [by apply (fload8_reads n); [|right]|]. intros s' _. apply reads_ret.
  - eapply reads_bind; [by apply (fload8_reads n); [|right]|]. intros s' V. destruct (nz _ && _); [|apply reads_ret].
    cbn [length] in Hpg. pose proof (in_page_same p _ 1 Hpg ltac:(lia)) as Hnext.
    assert (strcmp_list (fv s) (p + 1) q = strcmp_list (fv s') (p + 1) q) as ->.
    { generalize (p + 1). clear -V. induction q as [|y q IHq]; intros a; cbn; rewrite (sv_view _ _ V); [done|].
      by rewrite IHq. }
    apply IH; [by apply (same_view_ok n s)|by apply (disk_page n p)|].
    unfold in_page in *. rewrite (Z.mod_eq (p + 1)), Hnext by done. pose proof (Z.div_mod p PGSIZE ltac:(done)). lia.
Qed.

(** Entry [j] of a directory. *)
Definition dir_entry (m : cmem) (dir j : Z) : Z :=
  DISKMAP + file_block m dir (j / BLKFILES) * BLKSIZE + j mod BLKFILES * File_size.

(** The first of the entries from [j] on, at most [c] of them, with the name. *)
Definition finds (m : cmem) (dir : Z) (name : list Z) (j c : Z) (r : option Z) : Prop :=
  match r with
  | Some e => exists i, j <= i < j + c /\ e = dir_entry m dir i /\ cstr m e name /\ forall i', j <= i' < i -> ~ cstr m (dir_entry m dir i') name
  | None => forall i, j <= i < j + c -> ~ cstr m (dir_entry m dir i) name
  end.

Lemma finds_skip m dir name j c c' r :
  0 <= c -> 0 <= c' -> (forall i, j <= i < j + c -> ~ cstr m (dir_entry m dir i) name) -> finds m dir name (j + c) c' r -> finds m dir name j (c + c') r.
Proof using.
  intros Hc Hc' Hn Hr. destruct r as [e|]; cbn in *.
  - destruct Hr as (i & Hi & He & Hs & Hb). exists i. split_ands; try done; try lia.
    intros i' Hi'. destruct (Z.lt_ge_cases i' (j + c)); [apply Hn; lia|apply Hb; lia].
  - intros i Hi. destruct (Z.lt_ge_cases i (j + c)); [apply Hn; lia|apply Hr; lia].
Qed.

Section Dir.
Context (n dir : Z) (name : list Z) (s0 : fsst).
Context (Hok0 : fs_ok n s0) (Hdir : file_ok n s0 dir).
Context (Hnz : Forall (fun b => b <> 0) name) (Hlen : Z.of_nat (length name) < MAXNAMELEN).
Let m := fv s0.

Lemma dir_entry_disk j :
  0 <= j -> j / BLKFILES * BLKSIZE < file_len m dir ->
  DISKMAP <= dir_entry m dir j < DISKMAP + n * BLKSIZE /\ in_page (dir_entry m dir j) (Z.of_nat (length name) + 1).
Proof using All.
  intros Hj Hl. pose proof (fi_blocks _ _ _ Hdir (j / BLKFILES) (Z.div_pos j BLKFILES Hj eq_refl) Hl) as Hb.
  unfold dir_entry. fold m in Hb. set (b := file_block m dir (j / BLKFILES)) in *. pose proof (Z.mod_pos_bound j BLKFILES ltac:(done)) as Hm.
  change BLKFILES with 16 in *. change BLKSIZE with 4096 in *. unfold File_size, MAXNAMELEN in *. split; [lia|].
  unfold in_page. change PGSIZE with 4096.
  replace (DISKMAP + b * 4096 + j mod 16 * 256) with (j mod 16 * 256 + (65536 + b) * 4096) by (unfold DISKMAP; lia).
  rewrite Z.mod_add by done. rewrite Z.mod_small; lia.
Qed.

Lemma same_view_strcmp s p q : same_view s0 s -> strcmp_list (fv s) p q = strcmp_list m p q.
Proof using.
  intros V. revert p. induction q as [|x q IH]; intros p; cbn; rewrite (sv_view _ _ V); [done|]. by rewrite IH.
Qed.

Lemma dir_lookup_block_reads c b i s :
  same_view s0 s -> 0 <= b -> b * BLKSIZE < file_len m dir -> 0 <= i -> i + Z.of_nat c = BLKFILES ->
  exists r, reads (dir_lookup_block c (DISKMAP + file_block m dir b * BLKSIZE + i * File_size) name) s r /\
    finds m dir name (b * BLKFILES + i) (Z.of_nat c) r.
Proof using All.
  revert i s. induction c as [|c IH]; intros i s V Hb Hl Hi Hc; cbn [dir_lookup_block].
  { exists None. split; [apply reads_ret|]. intros j Hj. lia. }
  assert ((b * BLKFILES + i) / BLKFILES = b /\ (b * BLKFILES + i) mod BLKFILES = i) as [Hq Hr].
  { change BLKFILES with 16 in *. rewrite Z.add_comm, Z.div_add, Z.mod_add by done. rewrite Z.div_small, Z.mod_small by lia. lia. }
  assert (DISKMAP + file_block m dir b * BLKSIZE + i * File_size = dir_entry m dir (b * BLKFILES + i)) as He.
  { unfold dir_entry. by rewrite Hq, Hr. }
  assert (0 <= b * BLKFILES + i) as Hj0 by (change BLKFILES with 16; lia).
  destruct (dir_entry_disk (b * BLKFILES + i) Hj0) as [Hd Hp]; [by rewrite Hq|].
  pose proof (fstrcmp_reads n s (dir_entry m dir (b * BLKFILES + i)) name (same_view_ok _ _ _ Hok0 V) Hd Hp) as Hcmp.
  rewrite same_view_strcmp in Hcmp by done. pose proof (strcmp_list_eq m (dir_entry m dir (b * BLKFILES + i)) name Hnz) as Hiff.
  rewrite He. destruct (Z.eqb_spec (strcmp_list m (dir_entry m dir (b * BLKFILES + i)) name) 0) as [H0|H0].
  - exists (Some (dir_entry m dir (b * BLKFILES + i))). split.
    + eapply reads_bind; [exact Hcmp|]. intros s' _. rewrite H0. apply reads_ret.
    + exists (b * BLKFILES + i). split_ands; try done; [lia..|by apply Hiff|]. intros i' Hi'. lia.
  - destruct Hcmp as (s1 & Hrun & V1). assert (same_view s0 s1) as V01 by (by trans s).
    destruct (IH (i + 1) s1 V01) as (r & Hr' & Hf); [done..|lia|lia|]. exists r. split.
    + destruct Hr' as (s2 & Hr2 & V2). exists s2. rewrite (bind_Ret _ _ _ _ _ Hrun).
      destruct (Z.eqb_spec (strcmp_list m (dir_entry m dir (b * BLKFILES + i)) name) 0); [done|].
      rewrite <- He. replace (DISKMAP + file_block m dir b * BLKSIZE + i * File_size + File_size)
        with (DISKMAP + file_block m dir b * BLKSIZE + (i + 1) * File_size) by lia.
      split; [done|]. by trans s1.
    + replace (Z.of_nat (S c)) with (1 + Z.of_nat c) by lia. apply finds_skip; try lia.
      * intros i' Hi'. replace i' with (b * BLKFILES + i) by lia. by rewrite <- Hiff.
      * by replace (b * BLKFILES + i + 1) with (b * BLKFILES + (i + 1)) by lia.
Qed.

Lemma dir_lookup_from_reads c b s :
  same_view s0 s -> 0 <= b -> (b + Z.of_nat c) * BLKSIZE <= file_len m dir ->
  exists r, reads (dir_lookup_from c dir b name) s (match r with Some e => (0, e) | None => (- E_NOT_FOUND, 0) end) /\
    finds m dir name (b * BLKFILES) (Z.of_nat c * BLKFILES) r.
Proof using All.
  assert (BLKSIZE = 4096) as HB by done. revert b s. induction c as [|c IH]; intros b s V Hb Hl; cbn [dir_lookup_from].
  { exists None. split; [apply reads_ret|]. intros j Hj. lia. }
  assert (b * BLKSIZE < file_len m dir) as Hl1 by lia.
  destruct (disk_same_file n s0 s dir (same_view_disk n _ _ V) Hdir) as (Hf & Hlen' & _).
  destruct (file_get_block_reads n s dir b (same_view_ok _ _ _ Hok0 V) Hf Hb) as (s1 & Hg & V1); [by rewrite Hlen'|].
  assert (file_block (fv s) dir b = file_block m dir b) as Hfb.
  { unfold file_block, file_slot, m. rewrite (same_view_word _ _ (dir + f_indirect_off) V). by rewrite (same_view_word _ _ _ V). }
  rewrite Hfb in Hg. assert (same_view s0 s1) as V01 by (by trans s).
  destruct (dir_lookup_block_reads (Z.to_nat BLKFILES) b 0 s1 V01 Hb Hl1) as (r & (s2 & Hr2 & V2) & Hfind); [lia|done|].
  rewrite Z.mul_0_l, !Z.add_0_r in *. change (Z.of_nat (Z.to_nat BLKFILES)) with BLKFILES in Hfind.
  destruct r as [e|].
  - exists (Some e). split.
    + exists s2. rewrite (bind_Ret _ _ _ _ _ Hg). change (0 <? 0) with false. cbv iota. rewrite (bind_Ret _ _ _ _ _ Hr2).
      split; [done|]. trans s1; [done|]. done.
    + destruct Hfind as (i & Hi & He & Hs & Hbef). exists i. split_ands; try done; [lia|]. change BLKFILES with 16 in *. lia.
  - destruct (IH (b + 1) s2) as (r & (s3 & Hr3 & V3) & Hf3); [by trans s1|lia|lia|]. exists r. split.
    + exists s3. rewrite (bind_Ret _ _ _ _ _ Hg). change (0 <? 0) with false. cbv iota. rewrite (bind_Ret _ _ _ _ _ Hr2).
      split; [done|]. trans s1; [done|]. by trans s2.
    + replace (Z.of_nat (S c) * BLKFILES) with (BLKFILES + Z.of_nat c * BLKFILES) by lia.
      apply finds_skip; [done|change BLKFILES with 16; lia|done|].
      by replace (b * BLKFILES + BLKFILES) with ((b + 1) * BLKFILES) by lia.
Qed.
End Dir.

(** [dir_lookup] on a well-formed directory whose size is a number of
    blocks returns the first entry whose name is exactly the one asked for,
    and -E_NOT_FOUND only when no entry has it; the server sees the same
    memory as before. *)
Lemma dir_lookup_spec n dir name s :
  fs_ok n s -> file_ok n s dir -> file_len (fv s) dir mod BLKSIZE = 0 ->
  Forall (fun b => b <> 0) name -> Z.of_nat (length name) < MAXNAMELEN ->
  let entries := file_len (fv s) dir / BLKSIZE * BLKFILES in
  let named j := cstr (fv s) (dir_entry (fv s) dir j) name in
  (exists j, 0 <= j < entries /\ named j /\ (forall i, 0 <= i < j -> ~ named i) /\
     reads (dir_lookup dir name) s (0, dir_entry (fv s) dir j)) \/
  ((forall j, 0 <= j < entries -> ~ named j) /\ reads (dir_lookup dir name) s (- E_NOT_FOUND, 0)).
Proof using All.
  intros Hok Hdir Hmod Hnz Hlen entries named. pose proof (fi_len _ _ _ Hdir) as Hsize.
  assert (BLKSIZE = 4096 /\ NDIRECT + NINDIRECT = 1034) as [HB HN] by done.
  destruct (f_size_reads n s dir Hok Hdir) as (s1 & Hr1 & V1).
  pose proof (Z.div_mod (file_len (fv s) dir) BLKSIZE ltac:(done)) as Hdm.
  assert (0 <= file_len (fv s) dir / BLKSIZE) as Hq by (apply Z.div_pos; lia).
  destruct (dir_lookup_from_reads n dir name s Hok Hdir Hnz Hlen (Z.to_nat (file_len (fv s) dir / BLKSIZE)) 0 s1 V1) as (r & (s2 & Hr2 & V2) & Hf).
  1-2: lia.
  rewrite Z2Nat.id, Z.mul_0_l in Hf by done. fold entries in Hf.
  assert (forall v, match r with Some e => (0, e) | None => (- E_NOT_FOUND, 0) end = v -> reads (dir_lookup dir name) s v) as Hres.
  { intros v <-. exists s2. split; [|by trans s1]. unfold dir_lookup. rewrite (bind_Ret _ _ _ _ _ Hr1).
    rewrite Z.rem_mod_nonneg, Hmod by lia. cbn [assertM Z.eqb]. msteps.
    rewrite Z.quot_div_nonneg, u32_small by lia. exact Hr2. }
  destruct r as [e|].
  - left. destruct Hf as (j & Hj & -> & Hs & Hb). exists j. split_ands; try done; try lia. by apply Hres.
  - right. split; [exact Hf|by apply Hres].
Qed.
End View.

(** A disk of 8 blocks whose root file has 6000 bytes in blocks 5 and 6; the super
    block is in memory, and so is the page of requests. *)
Definition demo_disk : cmem := fun a =>
  if decide (a = 4096 + 4) then 8
  else if decide (a = 4096 + 8 + 128) then 112
  else if decide (a = 4096 + 8 + 129) then 23
  else if decide (a = 4096 + 8 + 136) then 5
  else if decide (a = 4096 + 8 + 140) then 6
  else if decide (20480 <= a < 28672) then a mod 251
  else 0.
Definition demo_fs : fsst :=
  mkFsst (fun a => if decide (DISKMAP <= a) then demo_disk (a - DISKMAP) else 0)
    {[ (DISKMAP + BLKSIZE) / PGSIZE; fsreq / PGSIZE ]} (fun _ => 1) demo_disk (DISKMAP + BLKSIZE) 0 (fun _ => mkOpenFile 0 0 0 0).
#[local] Instance demo_env_ok : FsEnv := {| page_alloc_res := fun _ => 0; ide_read_res := fun _ => 0 |}.

Lemma demo_fs_file : file_ok 8 demo_fs (DISKMAP + BLKSIZE + 8).
Proof.
  split; try done. intros i Hi Hl. change (file_len (fv demo_fs) (DISKMAP + BLKSIZE + 8)) with 6000 in Hl.
  change BLKSIZE with 4096 in Hl. assert (i = 0 \/ i = 1) as [-> | ->] by lia; done.
Qed.

Lemma file_read_spec_witness :
  exists s', @file_read demo_env_ok (DISKMAP + BLKSIZE + 8) fsreq 3000 4000 demo_fs = Ret 2000 s' /\
    fs_ok 8 s' /\ file_ok 8 s' (DISKMAP + BLKSIZE + 8) /\ opentab s' = opentab demo_fs /\
    forall a, fv s' a = if decide (fsreq <= a < fsreq + 2000)
      then file_byte (fv demo_fs) (DISKMAP + BLKSIZE + 8) (4000 + (a - fsreq)) else fv demo_fs a.
Proof.
  apply (@file_read_spec demo_env_ok (fun _ => eq_refl) (fun _ => eq_refl) 8 demo_fs (DISKMAP + BLKSIZE + 8) fsreq 3000 4000); try done.
  - exact demo_fs_file.
  - intros i Hi. change (Z.min 3000 _) with 2000 in Hi. assert ((fsreq + i) / PGSIZE = fsreq / PGSIZE) as ->.
    { apply (in_page_same fsreq 2000); done. }
    apply (bool_decide_unpack _). by vm_compute.
  - left. discriminate.
Defined.

(** A root directory of one block, block 5, with entries "a" and "bc". *)
Definition demo_dir_disk : cmem := fun a =>
  if decide (a = 4096 + 4) then 8
  else if decide (a = 4096 + 8 + 129) then 16
  else if decide (a = 4096 + 8 + 132) then 1
  else if decide (a = 4096 + 8 + 136) then 5
  else if decide (a = 20480) then 97
  else if decide (a = 20480 + 256) then 98
  else if decide (a = 20480 + 257) then 99
  else 0.
Definition demo_dir_fs : fsst :=
  mkFsst (fun a => if decide (DISKMAP <= a) then demo_dir_disk (a - DISKMAP) else 0)
    {[ (DISKMAP + BLKSIZE) / PGSIZE ]} (fun _ => 1) demo_dir_disk (DISKMAP + BLKSIZE) 0 (fun _ => mkOpenFile 0 0 0 0).

Lemma demo_dir_file : file_ok 8 demo_dir_fs (DISKMAP + BLKSIZE + 8).
Proof.
  split; try done. intros i Hi Hl. change (file_len (fv demo_dir_fs) (DISKMAP + BLKSIZE + 8)) with 4096 in Hl.
  change BLKSIZE with 4096 in Hl. assert (i = 0) as -> by lia; done.
Qed.

Example dir_lookup_spec_example :
  let dir := DISKMAP + BLKSIZE + 8 in
  let named j := cstr (fv demo_dir_fs) (dir_entry (fv demo_dir_fs) dir j) [98; 99] in
  (exists j, 0 <= j < 16 /\ named j /\ (forall i, 0 <= i < j -> ~ named i) /\
     reads (@dir_lookup demo_env_ok dir [98; 99]) demo_dir_fs (0, dir_entry (fv demo_dir_fs) dir j)) \/
  ((forall j, 0 <= j < 16 -> ~ named j) /\ reads (@dir_lookup demo_env_ok dir [98; 99]) demo_dir_fs (- E_NOT_FOUND, 0)).
Proof.
  apply (@dir_lookup_spec demo_env_ok (fun _ => eq_refl) (fun _ => eq_refl) 8 (DISKMAP + BLKSIZE + 8) [98; 99] demo_dir_fs).
  - split; try reflexivity. split; [reflexivity|discriminate].
  - exact demo_dir_file.
  - reflexivity.
  - repeat constructor; discriminate.
  - reflexivity.
Qed.

(** ** Requests *)

(** Any client can crash the file server. The entries of the open-file
    table start with their index as identifier and no file, and
    [openfile_lookup] only rejects an entry whose page has exactly one
    reference, so the identifier of an entry that was never opened (whose page
    is not mapped at all) is accepted; [serve_stat] then follows the null file
    pointer and the server panics. *)
Lemma serve_stat_unopened_panics (fe : FsEnv) s i perm :
  0 <= i < MAXOPEN -> o_fileid (opentab s i) = i -> o_file (opentab s i) = 0 ->
  o_fd (opentab s i) / PGSIZE ∉ fmapped s -> 0 ∉ fmapped s ->
  fsreq / PGSIZE ∈ fmapped s -> word32 (fmem s) fsreq = i -> Z.land perm PTE_P <> 0 ->
  exists s', serve_request FSREQ_STAT perm s = Panic "page fault in FS" s'.
Proof.
  intros Hi Hid Hfile Hfd H0 Hreq Hword Hperm. unfold serve_request.
  destruct (Z.eqb_spec (Z.land perm PTE_P) 0); [done|].
  change (FSREQ_STAT =? FSREQ_OPEN) with false. change (FSREQ_STAT =? FSREQ_READ) with false.
  change (FSREQ_STAT =? FSREQ_STAT) with true. cbv iota. exists s. msteps.
  erewrite (bind_Panic (serve_stat fsreq)); [reflexivity|].
  unfold serve_stat, fload32, touch. msteps. rewrite bool_decide_true by done. msteps. rewrite Hword.
  unfold openfile_lookup, pageref. msteps. rewrite (Z.mod_small i) by done. rewrite bool_decide_false by done.
  change (0 =? 1) with false. rewrite Hid, Z.eqb_refl. cbn [orb negb]. msteps. change (0 <? 0) with false. cbv iota. msteps.
  rewrite Hfile.
  assert (exists fuel, Z.to_nat PGSIZE = S fuel) as [fuel ->] by (exists (Z.to_nat PGSIZE - 1)%nat; unfold PGSIZE; lia).
  cbn [fstrcpy_mem].
  unfold fload8, touch. msteps. change (0 / PGSIZE) with 0. rewrite bool_decide_false by done.
  unfold bc_pgfault. change (0 <? DISKMAP) with true. cbn [orb]. msteps. reflexivity.
Qed.

(** The open-file table as [serve_init] leaves it. *)
Lemma serve_init_run s :
  exists s', serve_init s = Ret tt s' /\ s' = set_opentab (opentab s') s /\
    forall i, 0 <= i < MAXOPEN -> opentab s' i = mkOpenFile i (o_file (opentab s i)) (o_mode (opentab s i)) (FILEVA + i * PGSIZE).
Proof.
  destruct (forM_inv (fun pre s' => s' = set_opentab (opentab s') s /\
      forall i, opentab s' i = if decide (i ∈ pre) then mkOpenFile i (o_file (opentab s i)) (o_mode (opentab s i)) (FILEVA + i * PGSIZE) else opentab s i)
    (seqZ 0 MAXOPEN) (fun i => upd_open i (fun o => mkOpenFile (u32 i) (o_file o) (o_mode o) (FILEVA + i * PGSIZE))) s)
    as (s' & Hrun & Hs & Ht).
  - intros pre i post s1 Hl [Hs1 Ht1]. eexists. split; [done|]. split; [rewrite Hs1; by destruct s|].
    assert (i ∈ seqZ 0 MAXOPEN) as Hi by (rewrite Hl; set_solver). apply elem_of_seqZ in Hi.
    intros j. cbn [opentab set_opentab]. rewrite Ht1. destruct (Z.eqb_spec j i) as [->|Hne].
    + rewrite (decide_True (P := i ∈ pre ++ [i])) by set_solver. rewrite u32_small by lia.
      by case_decide.
    + destruct (decide (j ∈ pre)); [rewrite decide_True by set_solver|rewrite decide_False by set_solver]; done.
  - split; [by destruct s|]. intros i. rewrite decide_False; [done|]. set_solver.
  - exists s'. split_ands; try done. intros i Hi. rewrite Ht, decide_True; [done|]. apply elem_of_seqZ. lia.
Qed.

(** That server, with a request for identifier 7. *)
Definition unopened_fs : fsst :=
  set_opentab (fun i => mkOpenFile i 0 0 (FILEVA + i * PGSIZE))
    (set_fmem (store_n (fmem demo_fs) fsreq (bytes32 7)) demo_fs).

Lemma serve_stat_unopened_panics_witness :
  exists s', @serve_request demo_env_ok FSREQ_STAT PTE_P unopened_fs = Panic "page fault in FS" s'.
Proof.
  apply (serve_stat_unopened_panics demo_env_ok unopened_fs 7 PTE_P); try reflexivity; try discriminate.
  split; [discriminate|reflexivity].
Defined.
