(* ===== verification/Pipe.v ===== *)
(** Pipes between environments, lib/pipe.c: one reader and one writer on a shared
    page, interleaved at every access to it. *)

From S2P Require Import Prelude Kernel.

Definition PIPEBUFSIZ : Z := 32.

(** [struct Pipe], the page the two environments share. *)
Record Pipe : Type := mkPipe { p_rpos : Z; p_wpos : Z; p_buf : Z -> Z }.

(** Where a writer is in [devpipe_write], with the index [i] of the next byte of
    its buffer [bs]; the result when it has returned. *)
Inductive wpc : Type :=
| WDone (r : Z)
| WFull (i : Z) (bs : list Z)      (* the test of the inner loop *)
| WStore (i : Z) (bs : list Z)     (* p->p_buf[p->p_wpos % PIPEBUFSIZ] = buf[i] *)
| WNext (i : Z) (bs : list Z).     (* p->p_wpos++ *)

(** Where a reader is in [devpipe_read], with the bytes [out] it has put in its
    buffer of [n]. *)
Inductive rpc : Type :=
| RDone (out : list Z)
| REmpty (n : Z) (out : list Z)    (* the test of the inner loop *)
| RLoad (n : Z) (out : list Z)     (* buf[i] = p->p_buf[p->p_rpos % PIPEBUFSIZ] *)
| RNext (n : Z) (out : list Z).    (* p->p_rpos++ *)

(** The pipe, the two environments, and the bytes put in and taken out so far. *)
Record pipest : Type := mkPipest {
  the_pipe : Pipe;
  writer : wpc;
  reader : rpc;
  sent : list Z;
  received : list Z;
}.

(** One access of the writer; [closed] is what [_pipeisclosed] says if it is
    asked. *)
Definition devpipe_write_step (closed : bool) (s : pipest) : pipest :=
  let p := the_pipe s in
  match writer s with
  | WDone _ => s
  | WFull i bs =>
      if Z.of_nat (length bs) <=? i then mkPipest p (WDone (s32 i)) (reader s) (sent s) (received s)
      else if u64 (u64 (p_rpos p) + PIPEBUFSIZ) <=? u64 (p_wpos p) then
        if closed then mkPipest p (WDone 0) (reader s) (sent s) (received s) else s
      else mkPipest p (WStore i bs) (reader s) (sent s) (received s)
  | WStore i bs =>
      let k := Z.rem (p_wpos p) PIPEBUFSIZ in
      let b := nth (Z.to_nat i) bs 0 in
      mkPipest (mkPipe (p_rpos p) (p_wpos p) (fun j => if j =? k then b else p_buf p j)) (WNext i bs) (reader s) (sent s) (received s)
  | WNext i bs =>
      mkPipest (mkPipe (p_rpos p) (s32 (p_wpos p + 1)) (p_buf p)) (WFull (i + 1) bs) (reader s)
        (sent s ++ [nth (Z.to_nat i) bs 0]) (received s)
  end.

(** One access of the reader. *)
Definition devpipe_read_step (closed : bool) (s : pipest) : pipest :=
  let p := the_pipe s in
  match reader s with
  | RDone _ => s
  | REmpty n out =>
      if n <=? Z.of_nat (length out) then mkPipest p (writer s) (RDone out) (sent s) (received s)
      else if p_rpos p =? p_wpos p then
        if 0 <? Z.of_nat (length out) then mkPipest p (writer s) (RDone out) (sent s) (received s)
        else if closed then mkPipest p (writer s) (RDone []) (sent s) (received s) else s
      else mkPipest p (writer s) (RLoad n out) (sent s) (received s)
  | RLoad n out =>
      mkPipest p (writer s) (RNext n (out ++ [p_buf p (Z.rem (p_rpos p) PIPEBUFSIZ)])) (sent s) (received s)
  | RNext n out =>
      mkPipest (mkPipe (s32 (p_rpos p + 1)) (p_wpos p) (p_buf p)) (writer s) (REmpty n out) (sent s)
        (received s ++ [List.last out 0])
  end.

(** A call starts when the one before has returned. *)
Inductive pipe_step : pipest -> pipest -> Prop :=
| StepWrite bs s r : writer s = WDone r -> pipe_step s (mkPipest (the_pipe s) (WFull 0 bs) (reader s) (sent s) (received s))
| StepRead n s out : reader s = RDone out -> pipe_step s (mkPipest (the_pipe s) (writer s) (REmpty n []) (sent s) (received s))
| StepWriter closed s : pipe_step s (devpipe_write_step closed s)
| StepReader closed s : pipe_step s (devpipe_read_step closed s).

(** A fresh pipe: its page is zero. *)
Definition pipe_init : pipest := mkPipest (mkPipe 0 0 (fun _ => 0)) (WDone 0) (RDone []) [] [].

(** ** The invariant *)

Record pipe_inv (s : pipest) : Prop := {
  pv_rpos : p_rpos (the_pipe s) = Z.of_nat (length (received s));
  pv_wpos : p_wpos (the_pipe s) = Z.of_nat (length (sent s));
  pv_room : p_rpos (the_pipe s) <= p_wpos (the_pipe s) <= p_rpos (the_pipe s) + PIPEBUFSIZ;
  pv_recv : received s = take (length (received s)) (sent s);
  pv_buf : forall k, p_rpos (the_pipe s) <= k < p_wpos (the_pipe s) ->
    p_buf (the_pipe s) (k mod PIPEBUFSIZ) = nth (Z.to_nat k) (sent s) 0;
  pv_writer : match writer s with
    | WDone _ => True
    | WFull i _ => 0 <= i
    | WStore i _ => 0 <= i /\ p_wpos (the_pipe s) < p_rpos (the_pipe s) + PIPEBUFSIZ
    | WNext i bs => 0 <= i /\ p_wpos (the_pipe s) < p_rpos (the_pipe s) + PIPEBUFSIZ /\
        p_buf (the_pipe s) (p_wpos (the_pipe s) mod PIPEBUFSIZ) = nth (Z.to_nat i) bs 0
    end;
  pv_reader : match reader s with
    | RDone out | REmpty _ out => exists l, received s = l ++ out
    | RLoad _ out => (exists l, received s = l ++ out) /\ p_rpos (the_pipe s) < p_wpos (the_pipe s)
    | RNext _ out => p_rpos (the_pipe s) < p_wpos (the_pipe s) /\
        exists l out', received s = l ++ out' /\ out = out' ++ [nth (Z.to_nat (p_rpos (the_pipe s))) (sent s) 0]
    end;
}.

Lemma pipe_slot_ne k k' :
  k <> k' -> Z.abs (k - k') < PIPEBUFSIZ -> k mod PIPEBUFSIZ <> k' mod PIPEBUFSIZ.
Proof.
  intros Hne Hlt He. unfold PIPEBUFSIZ in *.
  pose proof (Z.div_mod k 32 ltac:(done)). pose proof (Z.div_mod k' 32 ltac:(done)). lia.
Qed.

Lemma pipe_inv_init : pipe_inv pipe_init.
Proof. split; cbn; try done. - lia. - by exists []. Qed.

Lemma sent_mono s s' : pipe_step s s' -> (length (sent s) <= length (sent s'))%nat.
Proof.
  intros [bs s0 r _|n s0 out _|closed s0|closed s0]; cbn; try lia.
  - unfold devpipe_write_step. destruct (writer s0); cbn; try lia.
    + repeat case_match; cbn; lia.
    + rewrite length_app. lia.
  - unfold devpipe_read_step. destruct (reader s0); cbn; try lia. repeat case_match; cbn; lia.
Qed.

Lemma write_step_inv closed s :
  Z.of_nat (length (sent (devpipe_write_step closed s))) < 2 ^ 31 -> pipe_inv s -> pipe_inv (devpipe_write_step closed s).
Proof.
  intros Hb [I1 I2 I3 I4 I5 I6 I7]. pose proof (sent_mono _ _ (StepWriter closed s)) as Hm.
  assert (Z.of_nat (length (sent s)) < 2 ^ 31) as Hb0 by lia. clear Hm. revert Hb. unfold devpipe_write_step. destruct s as [[rp wp buf] w r se re]. cbn in *.
  destruct w as [v|i bs|i bs|i bs]; cbn in *; intros Hb.
  - by split.
  - destruct (Z.leb_spec (Z.of_nat (length bs)) i); [by split|].
    clear Hb. rewrite (u64_small rp), (u64_small wp) by (unfold PIPEBUFSIZ in *; lia). rewrite u64_small by (unfold PIPEBUFSIZ in *; lia).
    destruct (Z.leb_spec (rp + PIPEBUFSIZ) wp); [by destruct closed; split|]. by split.
  - destruct I6 as [Hi Hroom]. rewrite Z.rem_mod_nonneg by (unfold PIPEBUFSIZ in *; lia).
    split; cbn; try done.
    + intros k Hk. destruct (Z.eqb_spec (k mod PIPEBUFSIZ) (wp mod PIPEBUFSIZ)) as [He|_]; [|by apply I5].
      exfalso. apply (pipe_slot_ne k wp); [lia| |done]. unfold PIPEBUFSIZ in *. lia.
    + by rewrite Z.eqb_refl.
  - destruct I6 as (Hi & Hroom & Hst). rewrite length_app in Hb. cbn in Hb. rewrite s32_small by lia. split; cbn; try done.
    + rewrite length_app. cbn. lia.
    + lia.
    + rewrite I4 at 1. symmetry. apply take_app_le. lia.
    + intros k Hk. destruct (Z.eq_dec k wp) as [->|Hne].
      * rewrite Hst. rewrite app_nth2 by lia. replace (Z.to_nat wp - length se)%nat with 0%nat by lia. done.
      * rewrite app_nth1 by lia. apply I5. lia.
    + lia.
    + destruct r as [out|n out|n out|n out]; try done.
      * destruct I7 as [H1 H2]. split; [done|lia].
      * destruct I7 as (H1 & l & out' & H2 & H3). split; [lia|]. exists l, out'. split; [done|].
        rewrite app_nth1 by lia. done.
Qed.

Lemma read_step_inv closed s :
  Z.of_nat (length (sent s)) < 2 ^ 31 -> pipe_inv s -> pipe_inv (devpipe_read_step closed s).
Proof.
  intros Hb [I1 I2 I3 I4 I5 I6 I7]. unfold devpipe_read_step. destruct s as [[rp wp buf] w r se re]. cbn in *.
  destruct r as [out|n out|n out|n out]; cbn in *.
  - by split.
  - destruct (Z.leb_spec n (Z.of_nat (length out))); [by split|].
    destruct (Z.eqb_spec rp wp).
    + destruct (0 <? Z.of_nat (length out)); [by split|]. destruct closed; [|by split].
      split; cbn; try done. exists re. by rewrite app_nil_r.
    + split; cbn; try done. split; [done|lia].
  - destruct I7 as [[l Hl] Hlt]. split; cbn; try done. split; [done|]. exists l, out. split; [done|].
    rewrite Z.rem_mod_nonneg by (unfold PIPEBUFSIZ; lia). f_equal. f_equal. apply I5. lia.
  - destruct I7 as (Hlt & l & out' & Hl & ->). rewrite s32_small by lia.
    assert (last_ok : List.last (out' ++ [nth (Z.to_nat rp) se 0]) 0 = nth (Z.to_nat rp) se 0) by apply List.last_last.
    rewrite last_ok. split; cbn; try done.
    + rewrite length_app. cbn. lia.
    + lia.
    + rewrite length_app. cbn. rewrite Nat.add_1_r. rewrite I4 at 1.
      replace (Z.to_nat rp) with (length re) by lia. symmetry. apply take_S_r.
      destruct (lookup_lt_is_Some_2 se (length re) ltac:(lia)) as [x Hx]. rewrite Hx. f_equal. symmetry. by apply nth_lookup_Some.
    + intros k Hk. apply I5. lia.
    + destruct w as [v|i bs|i bs|i bs]; try done.
      * destruct I6 as [H1 H2]. split; [done|lia].
      * destruct I6 as (H1 & H2 & H3). split_ands; try done. lia.
    + exists l. rewrite Hl, <- !app_assoc. done.
Qed.

Lemma pipe_step_inv s s' :
  pipe_step s s' -> Z.of_nat (length (sent s')) < 2 ^ 31 -> pipe_inv s -> pipe_inv s'.
Proof.
  intros [bs s0 r Hw|n s0 out Hr|closed s0|closed s0] Hb I; cbn in Hb.
  - destruct I. by split.
  - destruct I. split; try done. exists (received s0). cbn. by rewrite app_nil_r.
  - by apply write_step_inv.
  - apply read_step_inv; [|done]. pose proof (sent_mono _ _ (StepReader closed s0)). lia.
Qed.

(** C9: a pipe is a queue. Under every interleaving of the accesses of one
    writer and one reader, in any number of calls of any size, as long as
    fewer than [2 ^ 31] bytes have gone through it: the bytes taken out are
    the bytes put in, in the same order, with at most [PIPEBUFSIZ] still in
    the pipe, which are the ones in the ring between the two positions; and
    what a call of [devpipe_read] returns is the last bytes taken out. *)
Theorem pipe_fifo s :
  rtc pipe_step pipe_init s -> Z.of_nat (length (sent s)) < 2 ^ 31 ->
  exists rest, sent s = received s ++ rest /\ Z.of_nat (length rest) <= PIPEBUFSIZ /\
    (forall i, 0 <= i < Z.of_nat (length rest) ->
       p_buf (the_pipe s) ((p_rpos (the_pipe s) + i) mod PIPEBUFSIZ) = nth (Z.to_nat i) rest 0) /\
    (forall out, reader s = RDone out -> exists before, received s = before ++ out).
Proof.
  intros Hr Hb. assert (pipe_inv s) as [I1 I2 I3 I4 I5 I6 I7].
  { revert s Hr Hb. apply (rtc_ind_r (fun s => Z.of_nat (length (sent s)) < 2 ^ 31 -> pipe_inv s)); [intros _; apply pipe_inv_init|].
    intros s1 s2 _ Hs IH Hb. apply (pipe_step_inv s1); try done. apply IH. pose proof (sent_mono _ _ Hs). lia. }
  exists (drop (length (received s)) (sent s)). assert (sent s = received s ++ drop (length (received s)) (sent s)) as Heq.
  { rewrite I4 at 1. by rewrite take_drop. }
  assert (Z.of_nat (length (drop (length (received s)) (sent s))) = p_wpos (the_pipe s) - p_rpos (the_pipe s)) as Hlen.
  { rewrite length_drop. lia. }
  split_ands; [done|lia| |].
  - intros i Hi. rewrite I5 by lia. rewrite Heq at 1. rewrite app_nth2 by lia. f_equal. lia.
  - intros out Ho. by rewrite Ho in I7.
Qed.

(** Three bytes written, two of them read. *)
Lemma pipe_fifo_witness :
  let w := devpipe_write_step false in let r := devpipe_read_step false in
  let start bs s := mkPipest (the_pipe s) (WFull 0 bs) (reader s) (sent s) (received s) in
  let want n s := mkPipest (the_pipe s) (writer s) (REmpty n []) (sent s) (received s) in
  let s := r (r (r (r (r (r (r (w (w (w (w (w (w (w (w (w (w (want 2 (start [7; 8; 9] pipe_init)))))))))))))))))) in
  exists rest, sent s = [7; 8] ++ rest /\ Z.of_nat (length rest) <= PIPEBUFSIZ /\
    (forall i, 0 <= i < Z.of_nat (length rest) ->
       p_buf (the_pipe s) ((p_rpos (the_pipe s) + i) mod PIPEBUFSIZ) = nth (Z.to_nat i) rest 0) /\
    (forall out, reader s = RDone out -> exists before, [7; 8] = before ++ out).
Proof.
  intros w r start want s. apply (pipe_fifo s); [|reflexivity].
  eapply rtc_l; [by eapply (StepWrite [7; 8; 9])|]. eapply rtc_l; [by eapply (StepRead 2)|].
  do 10 (eapply rtc_l; [apply (StepWriter false)|]). do 7 (eapply rtc_l; [apply (StepReader false)|]). apply rtc_refl.
Defined.
