(* ===== verification/Args.v ===== *)
(** Command lines: lib/args.c.

    A string is the list of its characters without the final null, [argv] the
    list of the pointers of the array with the null pointer at its end.  The
    functions return [None] for an access outside the array or through a null
    pointer.  The theorem shows that calling [argnext] until it returns -1 ends,
    gives the flags of inc/args.h and leaves the other arguments. *)

From S2P Require Import Prelude.

Record Argstate : Type := mkArgstate {
  argc : Z;
  argv : list (option (list Z));
  curarg : option (list Z);
  argvalue_ : option (list Z);
}.

(** [s[i]], where the null at the end may be read. *)
Definition str_at (s : list Z) (i : nat) : Z := nth i s 0.

(** [argv[i]], not null. *)
Definition arg_at (l : list (option (list Z))) (i : nat) : option (list Z) := mjoin (l !! i).

(** [memmove(argv + 1, argv + 2, sizeof(char * ) * n)] *)
Definition shift_args (n : Z) (l : list (option (list Z))) : list (option (list Z)) :=
  take 1 l ++ take (Z.to_nat n) (drop 2 l) ++ drop (1 + Z.to_nat n) l.

Definition argstart (argc : Z) (argv : option (list (option (list Z)))) : Argstate :=
  mkArgstate argc (default [] argv) (match argv with Some _ => if 1 <? argc then Some [] else None | None => None end) None.

Definition endofargs (a : Argstate) : Z * Argstate := (-1, mkArgstate (argc a) (argv a) None None).

(** The flag at the start of [curarg]. *)
Definition argchar (a : Argstate) (cur : list Z) : Z * Argstate :=
  (str_at cur 0, mkArgstate (argc a) (argv a) (Some (tail cur)) None).

Definition argnext (a : Argstate) : option (Z * Argstate) :=
  let a := mkArgstate (argc a) (argv a) (curarg a) None in
  match curarg a with
  | None => Some (-1, a)
  | Some cur =>
      if str_at cur 0 =? 0 then
        if argc a =? 1 then Some (endofargs a)
        else
          arg1 ← arg_at (argv a) 1;
          if negb (str_at arg1 0 =? 45) then Some (endofargs a)
          else if str_at arg1 1 =? 0 then Some (endofargs a)
          else
            let cur := tail arg1 in
            let a := mkArgstate (argc a - 1) (shift_args (argc a - 1) (argv a)) (Some cur) None in
            if (str_at cur 0 =? 45) && (str_at cur 1 =? 0) then Some (endofargs a)
            else Some (argchar a cur)
      else Some (argchar a cur)
  end.

Definition argnextvalue (a : Argstate) : option (option (list Z) * Argstate) :=
  match curarg a with
  | None => Some (None, a)
  | Some cur =>
      if negb (str_at cur 0 =? 0) then Some (Some cur, mkArgstate (argc a) (argv a) (Some []) (Some cur))
      else if 1 <? argc a then
        v ← argv a !! 1%nat;
        Some (v, mkArgstate (argc a - 1) (shift_args (argc a - 1) (argv a)) (curarg a) v)
      else Some (None, mkArgstate (argc a) (argv a) None None)
  end.

Definition argvalue (a : Argstate) : option (option (list Z) * Argstate) :=
  match argvalue_ a with Some v => Some (Some v, a) | None => argnextvalue a end.

(** ** The flags of a command line *)

(** inc/args.h: flags stop at an argument that does not start with [-], at the
    end, before [-] or after [--]. *)
Fixpoint flags (args : list (list Z)) : list Z * list (list Z) :=
  match args with
  | [] => ([], [])
  | a :: rest =>
      match a with
      | 45 :: fs =>
          if decide (fs = []) then ([], args)
          else if decide (fs = [45]) then ([], rest)
          else let '(f, r) := flags rest in (fs ++ f, r)
      | _ => ([], args)
      end
  end.

(** Calling [argnext] until it returns a negative value. *)
Fixpoint argall (fuel : nat) (a : Argstate) : option (list Z * Argstate) :=
  match fuel with
  | O => None
  | S n =>
      r ← argnext a;
      let '(c, a') := r in
      if c <? 0 then Some ([], a')
      else q ← argall n a'; Some (c :: q.1, q.2)
  end.

Definition is_string (s : list Z) : Prop := Forall (fun c => 0 < c < 256) s.

(** The array of a command line. *)
Definition arg_array (args : list (list Z)) : list (option (list Z)) := (Some <$> args) ++ [None].

(** ** Proofs *)

Lemma str_at_nil s : is_string s -> (str_at s 0 =? 0) = bool_decide (s = []).
Proof.
  intros Hs. destruct s as [|c s]; [done|]. apply Forall_cons in Hs as [Hc _].
  rewrite bool_decide_false by done. apply Z.eqb_neq. cbn. lia.
Qed.

Lemma shift_args_array p x args junk :
  let n := Z.of_nat (length (p :: x :: args)) in
  exists junk', shift_args (n - 1) (arg_array (p :: x :: args) ++ junk) = arg_array (p :: args) ++ junk'.
Proof.
  intros n. exists (None :: junk). unfold shift_args, arg_array. subst n.
  replace (Z.to_nat (Z.of_nat (length (p :: x :: args)) - 1)) with (S (length args)) by (cbn [length]; lia).
  set (l := Some <$> args). assert (length l = length args) as Hl by apply length_fmap.
  change (Some p :: take (S (length args)) ((l ++ [None]) ++ junk) ++ drop (length args) ((l ++ [None]) ++ junk) =
    Some p :: (l ++ [None]) ++ None :: junk). f_equal.
  rewrite take_app_length' by (rewrite length_app; cbn; lia). f_equal.
  rewrite <- app_assoc. by rewrite drop_app_length'.
Qed.

(** A state of the scan: [p] is the name of the program, [args] what is left. *)
Definition scanning (a : Argstate) (cur : list Z) (p : list Z) (args : list (list Z)) : Prop :=
  argc a = Z.of_nat (length (p :: args)) /\ (exists junk, argv a = arg_array (p :: args) ++ junk) /\ curarg a = Some cur.

Definition finished (a : Argstate) (p : list Z) (args : list (list Z)) : Prop :=
  argc a = Z.of_nat (length (p :: args)) /\ (exists junk, argv a = arg_array (p :: args) ++ junk) /\ curarg a = None.

Lemma argnext_flag a c cur p args :
  scanning a (c :: cur) p args -> 0 < c < 256 -> exists a', argnext a = Some (c, a') /\ scanning a' cur p args.
Proof.
  intros (H1 & H2 & H3) Hc. unfold argnext. cbn [curarg argc argv]. rewrite H3. cbn [str_at nth].
  destruct (Z.eqb_spec c 0); [lia|]. eexists. split; [done|]. by split.
Qed.

Lemma arg_at_array p x rest junk : arg_at (arg_array (p :: x :: rest) ++ junk) 1 = Some x.
Proof. reflexivity. Qed.

Lemma argnext_stop a p args :
  scanning a [] p args -> match args with [] => True | x :: _ => (str_at x 0 =? 45) && negb (str_at x 1 =? 0) = false end ->
  exists a', argnext a = Some (-1, a') /\ finished a' p args.
Proof.
  intros (H1 & (junk & H2) & H3) Hx. unfold argnext. cbn [curarg argc argv]. rewrite H3, H1, H2. change (str_at [] 0 =? 0) with true. cbv iota.
  assert (forall a', argc a' = Z.of_nat (length (p :: args)) -> argv a' = arg_array (p :: args) ++ junk ->
    exists a'', Some (endofargs a') = Some (-1, a'') /\ finished a'' p args) as Hend.
  { intros a' E1 E2. eexists. split; [done|]. split; [done|]. split; [by exists junk|done]. }
  destruct (Z.eqb_spec (Z.of_nat (length (p :: args))) 1) as [E|E]; [by apply Hend|].
  destruct args as [|x rest]; [done|]. rewrite arg_at_array. cbn [mbind option_bind].
  destruct (str_at x 0 =? 45); [|by apply Hend]. destruct (str_at x 1 =? 0); [|done]. by apply Hend.
Qed.

Lemma argnext_shift a p x rest :
  scanning a [] p (x :: rest) -> str_at x 0 = 45 -> str_at x 1 <> 0 ->
  exists a', scanning a' (tail x) p rest /\
    argnext a = if (str_at (tail x) 0 =? 45) && (str_at (tail x) 1 =? 0) then Some (endofargs a') else Some (argchar a' (tail x)).
Proof.
  intros (H1 & (junk & H2) & H3) Hx0 Hx1. unfold argnext. cbn [curarg argc argv]. rewrite H3, H1, H2. change (str_at [] 0 =? 0) with true. cbv iota.
  destruct (Z.eqb_spec (Z.of_nat (length (p :: x :: rest))) 1) as [E|_]; [cbn in E; lia|].
  rewrite arg_at_array. cbn [mbind option_bind]. rewrite Hx0. change (negb (45 =? 45)) with false.
  destruct (Z.eqb_spec (str_at x 1) 0) as [|_]; [done|]. cbv iota zeta.
  destruct (shift_args_array p x rest junk) as [junk' Hs]. rewrite Hs.
  eexists. split; [|reflexivity]. split; [cbn [argc length]; lia|]. split; [by exists junk'|done].
Qed.

(** Reading the rest of an argument that holds flags. *)
Lemma argall_flags fuel a cur p args :
  scanning a cur p args -> is_string cur ->
  (exists a', scanning a' [] p args /\ argall (length cur + fuel) a = q ← argall fuel a'; Some (cur ++ q.1, q.2)).
Proof.
  revert a. induction cur as [|c cur IH]; intros a Hsc Hs.
  { exists a. split; [done|]. cbn. destruct (argall fuel a) as [[]|]; done. }
  apply Forall_cons in Hs as [Hc Hs]. destruct (argnext_flag a c cur p args Hsc Hc) as (a1 & Hn & Hsc1).
  destruct (IH a1 Hsc1 Hs) as (a2 & Hsc2 & Hall). exists a2. split; [done|].
  cbn [length Nat.add argall]. rewrite Hn. cbn [mbind option_bind]. destruct (Z.ltb_spec c 0); [lia|].
  rewrite Hall. destruct (argall fuel a2) as [[]|]; done.
Qed.

Lemma argall_scan fuel a p args :
  scanning a [] p args -> Forall is_string args -> (length (flags args).1 < fuel)%nat ->
  exists a', argall fuel a = Some ((flags args).1, a') /\ finished a' p (flags args).2.
Proof.
  revert fuel a. induction args as [|x rest IH]; intros fuel a Hsc Hs Hf.
  all: destruct fuel as [|n]; [lia|].
  { destruct (argnext_stop a p [] Hsc Logic.I) as (a' & Hn & Hfin). exists a'. split; [|done]. cbn [argall]. by rewrite Hn. }
  apply Forall_cons in Hs as [Hx Hs].
  destruct (decide (str_at x 0 = 45 /\ str_at x 1 <> 0)) as [[H0 H1]|Hno].
  - destruct x as [|x0 fs]; [done|]. cbn in H0. subst x0. destruct fs as [|c fs]; [done|]. cbn [str_at nth] in H1.
    apply Forall_cons in Hx as [_ Hfs]. pose proof Hfs as [Hc Hfs']%Forall_cons.
    destruct (argnext_shift a p _ rest Hsc eq_refl H1) as (a1 & Hsc1 & Hn). cbn [tail str_at nth] in Hn, Hsc1.
    cbn [flags] in *. rewrite (decide_False (P := c :: fs = [])) in * by done.
    destruct (decide (c :: fs = [45])) as [E|E].
    + injection E as -> ->. change ((45 =? 45) && (0 =? 0)) with true in Hn. cbn [argall]. rewrite Hn. eexists. split; [reflexivity|].
      destruct Hsc1 as (Q1 & Q2 & _). by split.
    + assert ((c =? 45) && (nth 0 fs 0 =? 0) = false) as Hb.
      { apply andb_false_iff. destruct (Z.eqb_spec c 45) as [->|]; [right|by left]. destruct fs as [|c2 fs]; [done|].
        apply Forall_cons in Hfs' as [? _]. cbn. apply Z.eqb_neq. lia. }
      rewrite Hb in Hn. cbv iota in Hn. destruct (flags rest) as [f r]. cbn [fst snd] in *.
      assert (argnext a = argnext a1) as Heq.
      { rewrite Hn. destruct Hsc1 as (_ & _ & Q3). unfold argnext. cbn [curarg]. rewrite Q3. cbn [str_at nth].
        destruct (Z.eqb_spec c 0); [lia|]. done. }
      destruct (argall_flags (S n - length (c :: fs)) a1 (c :: fs) p rest Hsc1 Hfs) as (a2 & Hsc2 & Hall).
      rewrite length_app in Hf. replace (length (c :: fs) + (S n - length (c :: fs)))%nat with (S n) in Hall by (cbn [length] in *; lia).
      destruct (IH (S n - length (c :: fs))%nat a2 Hsc2 Hs) as (a3 & Hr & Hfin); [lia|].
      exists a3. split; [|done]. rewrite Hr in Hall. cbn [mbind option_bind fst snd] in Hall. rewrite <- Hall. cbn [argall]. by rewrite Heq.
  - destruct (argnext_stop a p (x :: rest) Hsc) as (a' & Hn & Hfin).
    { apply andb_false_iff. destruct (Z.eqb_spec (str_at x 0) 45); [right|by left]. apply negb_false_iff, Z.eqb_eq.
      destruct (Z.eq_dec (str_at x 1) 0); [done|]. tauto. }
    assert (flags (x :: rest) = ([], x :: rest)) as Hfl.
    { destruct x as [|x0 fs]; [done|]. cbn [flags]. destruct (Z.eq_dec x0 45) as [->|Hx0].
      - destruct fs as [|c fs]; [done|]. exfalso. apply Hno. split; [done|]. cbn.
        apply Forall_cons in Hx as [_ Hx]. apply Forall_cons in Hx as [? _]. lia.
      - destruct x0 as [|q|q]; [done| |done]. do 6 (destruct q as [q|q|]; try done). }
    rewrite Hfl in *. exists a'. split; [|done]. cbn [argall]. by rewrite Hn.
Qed.

(** C34: a program that starts with [argstart] and calls [argnext] until it
    returns -1 sees it after at most one call more than there are flag
    characters: the calls return exactly the flags of the command line, in order,
    without an access outside the array, and leave the name of the program and
    the other arguments in the array. *)
Theorem argnext_all p args fuel :
  Forall is_string args -> (length (flags args).1 < fuel)%nat ->
  exists a', argall fuel (argstart (Z.of_nat (length (p :: args))) (Some (arg_array (p :: args)))) = Some ((flags args).1, a') /\
    argc a' = Z.of_nat (length (p :: (flags args).2)) /\ exists junk, argv a' = arg_array (p :: (flags args).2) ++ junk.
Proof.
  intros Hs Hf. unfold argstart. destruct (Z.ltb_spec 1 (Z.of_nat (length (p :: args)))) as [Hl|Hl].
  - edestruct (argall_scan fuel) as (a' & Hr & (Q1 & Q2 & _)); [|done|done|by exists a'].
    split; [done|]. split; [exists []; by rewrite app_nil_r|done].
  - destruct args as [|x rest]; [|cbn in Hl; lia]. destruct fuel as [|n]; [lia|]. eexists. split; [done|].
    split; [done|]. exists []. by rewrite app_nil_r.
Qed.

(** [sh -rx -f foo -- duh] *)
Lemma argnext_all_witness :
  exists a', argall 5 (argstart 5 (Some (arg_array [[115; 104]; [45; 114; 120]; [45; 102]; [102; 111; 111]; [45; 45]]))) = Some ([114; 120; 102], a') /\
    argc a' = 3 /\ exists junk, argv a' = arg_array [[115; 104]; [102; 111; 111]; [45; 45]] ++ junk.
Proof.
  apply (argnext_all [115; 104] [[45; 114; 120]; [45; 102]; [102; 111; 111]; [45; 45]] 5); [|vm_compute; lia].
  apply (bool_decide_unpack _). by vm_compute.
Defined.
