(* ===== verification/LwipMemProps.v ===== *)
(** The heap of net/lwip/core/mem.c implements a list of blocks. *)

From S2P Require Import Prelude LwipMem.

(** ** Blocks

    A block is its size, header included, and whether it is in use. *)
Definition blk : Type := (Z * bool)%type.

Fixpoint total (bs : list blk) : Z := match bs with [] => 0 | (n, _) :: bs' => n + total bs' end.

(** Adjacent free blocks become one. *)
Fixpoint coalesce (bs : list blk) : list blk :=
  match bs with
  | [] => []
  | (n, true) :: bs' => (n, true) :: coalesce bs'
  | (n, false) :: bs' =>
      match coalesce bs' with
      | (m, false) :: r => (n + m, false) :: r
      | r => (n, false) :: r
      end
  end.

(** The offset of the first free block, or the size of the heap. *)
Fixpoint lowest_free (bs : list blk) : Z :=
  match bs with
  | [] => 0
  | (n, true) :: bs' => n + lowest_free bs'
  | (n, false) :: _ => 0
  end.

(** First fit for [size] bytes: the offset of the block and the new blocks. What
    is left over becomes a free block if it has room for a header and the
    smallest data. *)
Fixpoint first_fit (size : Z) (bs : list blk) : option (Z * list blk) :=
  match bs with
  | [] => None
  | (n, u) :: bs' =>
      if negb u && (size + 12 <=? n) then
        Some (0, if size + 36 <=? n then (size + 12, true) :: (n - size - 12, false) :: bs' else (n, true) :: bs')
      else r ← first_fit size bs'; Some (n + r.1, (n, u) :: r.2)
  end.

Lemma total_app a b : total (a ++ b) = total a + total b.
Proof. induction a as [|[n u] a IH]; [done|]. cbn in *. lia. Qed.

(** ** The headers of a list of blocks *)

Fixpoint seg (s : heap) (p pv : Z) (bs : list blk) : Prop :=
  match bs with
  | [] => True
  | (n, u) :: bs' => hdr s p = mkMem (p + n) pv (Z.b2z u) /\ 24 <= n /\ n mod 4 = 0 /\ seg s (p + n) p bs'
  end.

(** The offset of the last block. *)
Fixpoint last_at (p pv : Z) (bs : list blk) : Z :=
  match bs with [] => pv | (n, _) :: bs' => last_at (p + n) p bs' end.

Definition heap_size : Z := 2228224.

Record heap_ok (bs : list blk) (s : heap) : Prop := {
  ho_seg : seg s 0 0 bs;
  ho_total : total bs = heap_size;
  ho_end : used (hdr s heap_size) = 1;
  ho_coal : coalesce bs = bs;
  ho_lfree : lfree s = lowest_free bs;
  ho_sem : mem_sem s = 1;
}.

Lemma heap_size_eq : MEM_SIZE_ALIGNED = heap_size.
Proof. reflexivity. Qed.

Lemma last_at_app a : forall p pv b, last_at p pv (a ++ b) = last_at (p + total a) (last_at p pv a) b.
Proof.
  induction a as [|[n u] a IH]; intros p pv b; cbn; [by rewrite Z.add_0_r|]. rewrite IH. f_equal. cbn. lia.
Qed.

Lemma seg_app a : forall s p pv b, seg s p pv (a ++ b) <-> seg s p pv a /\ seg s (p + total a) (last_at p pv a) b.
Proof.
  induction a as [|[n u] a IH]; intros s p pv b; cbn; [rewrite Z.add_0_r; tauto|].
  rewrite IH. replace (p + n + total a) with (p + (n + total a)) by lia. cbn. tauto.
Qed.

Lemma seg_total bs : forall s p pv, seg s p pv bs -> 0 <= total bs.
Proof. induction bs as [|[n u] bs IH]; intros s p pv H; cbn in *; [done|]. destruct H as (_ & H1 & _ & H2). apply IH in H2. lia. Qed.

Lemma seg_frame bs : forall s s' p pv,
  (forall q, p <= q < p + total bs -> hdr s' q = hdr s q) -> seg s p pv bs -> seg s' p pv bs.
Proof.
  induction bs as [|[n u] bs IH]; intros s s' p pv Hq H; cbn in *; [done|]. destruct H as (H1 & H2 & H3 & H4).
  pose proof (seg_total _ _ _ _ H4). split_ands; try done.
  - rewrite Hq; [done|lia].
  - apply (IH s); [|done]. intros q Hr. apply Hq. lia.
Qed.

(** Replacing some blocks by others that fill the same space: the headers of the
    new blocks are in place, the block after them points back to the last one
    and nothing else has changed. *)
Lemma seg_replace s s' pre mid mid' post :
  let p := total pre in
  let e := p + total mid in
  seg s 0 0 (pre ++ mid ++ post) -> total mid' = total mid -> seg s' p (last_at 0 0 pre) mid' ->
  (forall q, 0 <= q < p \/ e < q < e + total post -> hdr s' q = hdr s q) ->
  (post <> [] -> hdr s' e = mkMem (next (hdr s e)) (last_at p (last_at 0 0 pre) mid') (used (hdr s e))) ->
  seg s' 0 0 (pre ++ mid' ++ post).
Proof.
  intros p e H Ht Hm Hq He. rewrite !seg_app in *. rewrite !Z.add_0_l in *. fold p in H |- *.
  destruct H as (H1 & H2 & H3). split; [|split; [done|]].
  - apply (seg_frame _ s); [|done]. intros q Hr. apply Hq. left. fold p in Hr. lia.
  - rewrite Ht. fold e. fold e in H3. destruct post as [|[n u] post]; [done|]. cbn in H3 |- *. destruct H3 as (H3 & H4 & H5 & H6).
    rewrite He, H3 by done. cbn. split_ands; try done. pose proof (seg_total _ _ _ _ H6).
    apply (seg_frame _ s); [|done]. intros q Hr. apply Hq. right. cbn. lia.
Qed.

(** ** The list functions *)

Lemma coalesce_total bs : total (coalesce bs) = total bs.
Proof.
  induction bs as [|[n [|]] bs IH]; cbn in *; [done|lia|]. destruct (coalesce bs) as [|[m [|]] r]; cbn in *; lia.
Qed.

(** Only the neighbours of a block matter. *)
Lemma coalesce_app_used a n b : coalesce (a ++ (n, true) :: b) = coalesce a ++ (n, true) :: coalesce b.
Proof.
  induction a as [|[m [|]] a IH]; cbn; [done|by rewrite IH|]. rewrite IH.
  destruct (coalesce a) as [|[k [|]] r]; done.
Qed.

Lemma coalesce_cons_inv n u bs : coalesce ((n, u) :: bs) = (n, u) :: bs -> coalesce bs = bs.
Proof.
  destruct u; cbn; [congruence|]. destruct (coalesce bs) as [|[m [|]] r] eqn:E; intros Hc; try congruence.
  injection Hc as Hn Hr. exfalso. subst bs.
  assert (forall l, length (coalesce l) <= length l)%nat as Hl.
  { induction l as [|[k [|]] l IHl]; cbn; [lia..|]. destruct (coalesce l) as [|[j [|]] q]; cbn in *; lia. }
  specialize (Hl r). rewrite E in Hl. cbn in Hl. lia.
Qed.

Lemma coalesce_adjacent m x r : coalesce ((m, false) :: (x, false) :: r) <> (m, false) :: (x, false) :: r.
Proof.
  intros Hc. pose proof (coalesce_cons_inv _ _ _ Hc) as Hc2. remember ((x, false) :: r) as l eqn:El.
  cbn [coalesce] in Hc. rewrite Hc2, El in Hc. apply (f_equal length) in Hc. cbn in Hc. lia.
Qed.

Lemma coalesce_suffix a b : coalesce (a ++ b) = a ++ b -> coalesce b = b.
Proof. induction a as [|[n u] a IH]; [done|]. cbn [app]. intros Hc. by apply coalesce_cons_inv in Hc; auto. Qed.

Lemma lowest_free_app a b :
  lowest_free (a ++ b) = if forallb snd a then total a + lowest_free b else lowest_free a.
Proof.
  induction a as [|[n [|]] a IH]; cbn [app lowest_free total forallb snd andb]; [lia| |done].
  rewrite IH. destruct (forallb snd a); lia.
Qed.

(** [first_fit] skips what does not fit. *)
Definition fits (size : Z) (b : blk) : bool := negb b.2 && (size + 12 <=? b.1).

Lemma first_fit_skip size pre post :
  Forall (fun b => fits size b = false) pre ->
  first_fit size (pre ++ post) = r ← first_fit size post; Some (total pre + r.1, pre ++ r.2).
Proof.
  induction pre as [|[n u] pre IH]; intros Hf; cbn [app first_fit total].
  - destruct (first_fit size post) as [[]|]; done.
  - apply Forall_cons in Hf as [Hx Hf]. unfold fits in Hx. cbn in Hx. rewrite Hx, (IH Hf).
    destruct (first_fit size post) as [[o r]|]; cbn; [|done]. do 2 f_equal. lia.
Qed.

(** ** Reading and writing headers *)

Lemma hdr_set p m s q : hdr (set_hdr p m s) q = if decide (p = q) then m else hdr s q.
Proof.
  unfold hdr. cbn. case_decide as Hd; [subst; by rewrite lookup_insert_eq|by rewrite lookup_insert_ne].
Qed.

(** The size the code works with. *)
Lemma align_size size : 0 <= size < 2 ^ 32 - 3 -> LWIP_MEM_ALIGN_SIZE size = (size + 3) / 4 * 4.
Proof.
  intros Hs. unfold LWIP_MEM_ALIGN_SIZE, MEM_ALIGNMENT. rewrite u32_small by lia.
  change (u32 (Z.lnot (4 - 1))) with (Z.shiftl (Z.ones 30) 2).
  replace (size + 4 - 1) with (size + 3) by lia.
  assert (Z.land (size + 3) (Z.shiftl (Z.ones 30) 2) = Z.shiftl (Z.shiftr (size + 3) 2) 2) as ->.
  { apply Z.bits_inj'. intros i Hi. rewrite Z.land_spec. destruct (Z.lt_ge_cases i 2).
    - rewrite !Z.shiftl_spec_low by lia. by rewrite andb_false_r.
    - rewrite !Z.shiftl_spec by lia. rewrite Z.shiftr_spec by lia. replace (i - 2 + 2) with i by lia.
      destruct (Z.lt_ge_cases (i - 2) 30).
      + rewrite Z.ones_spec_low by lia. by rewrite andb_true_r.
      + rewrite Z.ones_spec_high by lia. rewrite andb_false_r. symmetry. apply Z.bits_above_log2; [lia|].
        destruct (Z.eq_dec (size + 3) 0) as [->|]; [cbn; lia|]. apply Z.log2_lt_pow2; [lia|].
        eapply Z.lt_le_trans; [|apply Z.pow_le_mono_r; [done|]]; [|instantiate (1 := 32); lia]. lia. }
  rewrite Z.shiftl_mul_pow2, Z.shiftr_div_pow2 by done. done.
Qed.

(** The blocks of a heap: positions and sizes. *)
Lemma seg_block s pre n u post :
  heap_ok (pre ++ (n, u) :: post) s ->
  let p := total pre in
  hdr s p = mkMem (p + n) (last_at 0 0 pre) (Z.b2z u) /\ 24 <= n /\ n mod 4 = 0 /\ 0 <= p /\ p mod 4 = 0 /\
  p + n + total post = heap_size /\ 0 <= total post /\
  (match post with [] => p + n = heap_size | (m, v) :: _ => used (hdr s (p + n)) = Z.b2z v /\ p + n < heap_size end).
Proof.
  intros [H1 H2 H3 H4 H5 H6] p. rewrite seg_app in H1. destruct H1 as [G1 G2]. rewrite Z.add_0_l in G2. fold p in G2. cbn in G2.
  destruct G2 as (G2 & G3 & G4 & G5). rewrite total_app in H2. cbn in H2. fold p in H2.
  pose proof (seg_total _ _ _ _ G1). pose proof (seg_total _ _ _ _ G5).
  assert (forall bs q pv, seg s q pv bs -> total bs mod 4 = 0) as Hmod.
  { induction bs as [|[k v] bs IH]; intros q pv Hb; [done|]. cbn in *. destruct Hb as (_ & _ & Hb1 & Hb2). apply IH in Hb2.
    rewrite Z.add_mod, Hb1, Hb2 by done. done. }
  split_ands; try done; [by eapply Hmod|lia|].
  destruct post as [|[m v] post]; cbn in *; [lia|]. destruct G5 as (G5 & G6 & _ & G7). rewrite G5.
  pose proof (seg_total _ _ _ _ G7). split; [done|lia].
Qed.

(** ** Joining and marking blocks *)

(** A heap in which adjacent free blocks may still have to be joined. *)
Record heap_pre (bs : list blk) (s : heap) : Prop := {
  hp_seg : seg s 0 0 bs;
  hp_total : total bs = heap_size;
  hp_end : used (hdr s heap_size) = 1;
  hp_lfree : lfree s = lowest_free bs;
}.

Lemma lowest_free_range s p pv bs : seg s p pv bs -> 0 <= lowest_free bs <= total bs.
Proof.
  revert p pv. induction bs as [|[n [|]] bs IH]; intros p pv Hs; cbn in *; [done| |].
  - destruct Hs as (_ & H1 & _ & H2). apply IH in H2. lia.
  - destruct Hs as (_ & H1 & _ & H2). apply seg_total in H2. lia.
Qed.

Lemma lowest_free_lt s p pv bs : seg s p pv bs -> forallb snd bs = false -> lowest_free bs < total bs.
Proof.
  revert p pv. induction bs as [|[n [|]] bs IH]; intros p pv Hs Hb; cbn in *; [done| |].
  - destruct Hs as (_ & H1 & _ & H2). apply (IH _ _ H2) in Hb. lia.
  - destruct Hs as (_ & H1 & _ & H2). apply seg_total in H2. lia.
Qed.

(** Marking a block. *)
Lemma mark_pre pre n u v post s s' :
  heap_pre (pre ++ (n, u) :: post) s ->
  (forall q, hdr s' q = if decide (q = total pre) then mkMem (next (hdr s q)) (prev (hdr s q)) (Z.b2z v) else hdr s q) ->
  lfree s' = lowest_free (pre ++ (n, v) :: post) -> heap_pre (pre ++ (n, v) :: post) s'.
Proof.
  intros [H1 H2 H3 H4] Hh Hl. pose proof H1 as G. rewrite seg_app, Z.add_0_l in G. destruct G as [G1 (G2 & G3 & G4 & G5)].
  pose proof (seg_total _ _ _ _ G5). rewrite total_app in H2. cbn [total] in H2. fold total in H2.
  split; [|by rewrite total_app|rewrite Hh, decide_False by lia; done|done].
  apply (seg_replace s s' pre [(n, u)] [(n, v)] post); cbn [total last_at seg]; try done.
  - rewrite Hh, decide_True, G2 by done. done.
  - intros q Hq. rewrite Hh, decide_False by lia. done.
  - intros Hp. rewrite Hh, decide_False by lia. destruct post as [|[m w] post]; [done|]. cbn in G5. destruct G5 as (G5 & _).
    rewrite Z.add_0_r, G5. done.
Qed.

(** Joining two free blocks. *)
Lemma join_pre pre a b post s s' :
  let p := total pre in
  heap_pre (pre ++ (a, false) :: (b, false) :: post) s -> s' = set_prev (p + a + b) p (set_next p (p + a + b) s) ->
  heap_pre (pre ++ (a + b, false) :: post) s'.
Proof.
  intros p [H1 H2 H3 H4] ->. pose proof H1 as G. rewrite seg_app, Z.add_0_l in G. fold p in G.
  destruct G as [G1 (G2 & G3 & G4 & G5 & G6 & G7 & G8)].
  pose proof (seg_total _ _ _ _ G8). pose proof (seg_total _ _ _ _ G1). rewrite total_app in H2. cbn [total] in H2. fold total p in H2.
  set (s' := set_prev _ _ _).
  assert (forall q, hdr s' q = if decide (q = p + a + b) then mkMem (next (hdr s q)) p (used (hdr s q))
    else if decide (q = p) then mkMem (p + a + b) (prev (hdr s q)) (used (hdr s q)) else hdr s q) as Hh.
  { intros q. subst s'. unfold set_prev, set_next. rewrite !hdr_set.
    destruct (decide (q = p + a + b)) as [->|].
    - rewrite !decide_True by done. rewrite !decide_False by lia. done.
    - rewrite !decide_False by congruence. destruct (decide (q = p)) as [->|]; [by rewrite decide_True|by rewrite decide_False by congruence]. }
  split.
  - apply (seg_replace s s' pre [(a, false); (b, false)] [(a + b, false)] post); cbn [total last_at seg]; fold p; try done.
    + lia.
    + rewrite Hh, decide_False, decide_True, G2 by lia. cbn. split_ands; try done; [f_equal; lia|lia|]. rewrite Z.add_mod, G4, G7 by done. done.
    + intros q Hq. rewrite Hh, !decide_False by lia. done.
    + intros Hp. rewrite Hh, decide_True by lia. done.
  - rewrite total_app. cbn [total]. fold total p. lia.
  - rewrite Hh. case_decide as Hd; [done|]. rewrite decide_False by lia. done.
  - change (lfree s = lowest_free (pre ++ (a + b, false) :: post)). rewrite H4, !lowest_free_app. done.
Qed.

Lemma coalesce_free_mid pre k X j Y :
  coalesce (pre ++ [(k, false)]) = pre ++ [(k, false)] -> coalesce ((k, false) :: X) = (j, false) :: Y ->
  coalesce (pre ++ (k, false) :: X) = pre ++ (j, false) :: Y.
Proof.
  intros Hpre HX. induction pre as [|[m u] pre IH]; [done|]. cbn [app] in Hpre |- *.
  specialize (IH (coalesce_cons_inv _ _ _ Hpre)). destruct u; cbn [coalesce]; rewrite IH; [done|].
  destruct pre as [|[x [|]] pre]; cbn [app] in *; [|done|]; by apply coalesce_adjacent in Hpre.
Qed.

(** Freeing a block of a joined list: what [plug_holes] has to produce. *)
Lemma coalesce_freed pre n post :
  coalesce (pre ++ (n, true) :: post) = pre ++ (n, true) :: post ->
  coalesce pre = pre /\ coalesce post = post /\
  coalesce ((n, false) :: post) = match post with (m, false) :: post' => (n + m, false) :: post' | _ => (n, false) :: post end.
Proof.
  intros Hc. pose proof (coalesce_suffix _ _ Hc) as Hp. cbn in Hp. injection Hp as Hp.
  rewrite coalesce_app_used, Hp in Hc. apply app_inv_tail in Hc. split_ands; try done.
  cbn [coalesce]. rewrite Hp. by destruct post as [|[m [|]] post].
Qed.

(** ** [plug_holes] *)

Lemma plug_holes_run pre n post s :
  let p := total pre in
  coalesce (pre ++ (n, true) :: post) = pre ++ (n, true) :: post -> heap_pre (pre ++ (n, false) :: post) s ->
  exists s', plug_holes p s = Ret tt s' /\ heap_pre (coalesce (pre ++ (n, false) :: post)) s' /\ mem_sem s' = mem_sem s /\ data s' = data s.
Proof.
  intros p Hc Hp. destruct (coalesce_freed _ _ _ Hc) as (Hc1 & Hc2 & Hc3).
  pose proof Hp as [H1 H2 H3 H4]. pose proof H1 as G. rewrite seg_app, Z.add_0_l in G. fold p in G.
  destruct G as [G1 (G2 & G3 & G4 & G5)]. pose proof (seg_total _ _ _ _ G1) as Hp0. pose proof (seg_total _ _ _ _ G5) as Hp1.
  rewrite total_app in H2. cbn [total] in H2. fold total p in H2, Hp0.
  unfold plug_holes, getm. unfold ram_end. rewrite !heap_size_eq.
  assert (LWIP_ASSERT (0 <=? p) = ret tt) as -> by (destruct (Z.leb_spec 0 p); [done|lia]).
  assert (LWIP_ASSERT (p <? heap_size) = ret tt) as -> by (destruct (Z.ltb_spec p heap_size); [done|lia]).
  msteps. rewrite G2. cbn [used next]. change (LWIP_ASSERT (Z.b2z false =? 0)) with (ret tt : H unit). msteps. rewrite G2. cbn [next].
  assert (LWIP_ASSERT (p + n <=? heap_size) = ret tt) as -> by (destruct (Z.leb_spec (p + n) heap_size); [done|lia]). msteps.
  (* forwards *)
  set (n1 := match post with (m, false) :: _ => n + m | _ => n end).
  set (post1 := match post with (m, false) :: post' => post' | _ => post end).
  assert (coalesce ((n, false) :: post) = (n1, false) :: post1) as Hc4 by (rewrite Hc3; by destruct post as [|[m [|]] post]).
  match goal with |- exists s', bind ?m ?k s = _ /\ _ => assert (exists s1, m s = Ret tt s1 /\ heap_pre (pre ++ (n1, false) :: post1) s1 /\
    mem_sem s1 = mem_sem s /\ data s1 = data s) as (s1 & Hm & Hp1' & Hsem & Hdat) end.
  { destruct (Z.eqb_spec p (p + n)) as [|_]; [lia|]. cbn [negb andb]. destruct post as [|[m u] post].
    - destruct (Z.eqb_spec (p + n) heap_size) as [_|Hne]; [|cbn in H2; lia]. rewrite andb_false_r. by exists s.
    - destruct G5 as (G5 & G6 & G7 & G8). rewrite G5. cbn [used]. destruct u; [by exists s|]. cbn [Z.b2z Z.eqb andb].
      pose proof (seg_total _ _ _ _ G8). cbn [total] in H2. fold total in H2.
      destruct (Z.eqb_spec (p + n) heap_size) as [|_]; [lia|]. cbn [negb]. msteps.
      assert ((lfree s =? p + n) = false) as ->.
      { rewrite H4, lowest_free_app. fold p. apply Z.eqb_neq. destruct (forallb snd pre) eqn:Hb; [cbn; lia|].
        pose proof (lowest_free_lt _ _ _ _ G1 Hb). fold p in H. lia. }
      msteps. rewrite G5. cbn [next]. eexists. split; [done|]. split; [|done]. by eapply join_pre. }
  rewrite (bind_Ret _ _ _ _ _ Hm). msteps. clear Hm.
  pose proof Hp1' as [K1 K2 K3 K4]. pose proof K1 as K. rewrite seg_app, Z.add_0_l in K. fold p in K. destruct K as [L1 (L2 & L3 & L4 & L5)].
  rewrite L2. cbn [prev]. rewrite <- Hsem, <- Hdat.
  (* backwards *)
  destruct pre as [|[k u] pre' _] using rev_ind.
  { exists s1. cbn [last_at]. change p with 0. cbn [Z.eqb negb andb app]. rewrite Hc4. done. }
  rewrite last_at_app. cbn [last_at]. rewrite Z.add_0_l. rewrite seg_app, Z.add_0_l in L1. destruct L1 as [L1 (L6 & L7 & L8 & _)].
  assert (p = total pre' + k) as Hpk by (subst p; rewrite total_app; cbn; lia).
  rewrite L6. cbn [used]. destruct (Z.eqb_spec (total pre') p) as [|_]; [lia|]. cbn [negb andb].
  destruct u; cbn [Z.b2z Z.eqb].
  { exists s1. split; [done|]. rewrite <- app_assoc in *. cbn [app] in *. rewrite coalesce_app_used, Hc4.
    rewrite coalesce_app_used in Hc1. apply app_inj_tail in Hc1 as [-> _]. done. }
  msteps. assert ((lfree s1 =? p) = false) as ->.
  { rewrite K4, !lowest_free_app. rewrite forallb_app. cbn [forallb snd]. rewrite andb_false_r. apply Z.eqb_neq.
    destruct (forallb snd pre') eqn:Hb; [cbn; lia|]. pose proof (lowest_free_lt _ _ _ _ L1 Hb). lia. }
  msteps. rewrite L2. cbn [next]. eexists. split; [done|]. split; [|done].
  rewrite <- app_assoc in *. cbn [app] in *. rewrite (coalesce_free_mid pre' k _ (k + n1) post1).
  - eapply join_pre; [exact Hp1'|]. by rewrite Hpk.
  - done.
  - cbn [coalesce]. fold coalesce. cbn [coalesce] in Hc4. rewrite Hc4. done.
Qed.

(** ** [mem_free] *)

Lemma heap_ok_pre bs s : heap_ok bs s -> heap_pre bs s.
Proof. intros [H1 H2 H3 H4 H5 H6]. by split. Qed.

Lemma heap_pre_ok bs s : heap_pre bs s -> coalesce bs = bs -> heap_ok bs (set_mem_sem 1 s).
Proof. intros [H1 H2 H3 H4] Hc. split; try done. by apply (seg_frame _ s). Qed.

Lemma coalesce_idem bs : coalesce (coalesce bs) = coalesce bs.
Proof.
  induction bs as [|[n [|]] bs IH]; cbn [coalesce]; [done|by rewrite IH|].
  destruct (coalesce bs) as [|[m [|]] r]; [done|cbn [coalesce] in *; congruence|].
  pose proof (coalesce_cons_inv _ _ _ IH) as Hr. cbn [coalesce]. rewrite Hr.
  destruct r as [|[k [|]] r]; [done..|]. by apply coalesce_adjacent in IH.
Qed.

Lemma mem_free_run pre n post s :
  let p := total pre in
  heap_ok (pre ++ (n, true) :: post) s ->
  exists s', mem_free (Some (p + 12)) s = Ret tt s' /\ heap_ok (coalesce (pre ++ (n, false) :: post)) s' /\ data s' = data s.
Proof.
  intros p Hok. destruct (seg_block _ _ _ _ _ Hok) as (B1 & B2 & B3 & B4 & B5 & B6 & B7 & _). fold p in B1, B4, B5, B6.
  pose proof Hok as [H1 H2 H3 Hc H5 H6]. unfold mem_free.
  assert ((Z.land (p + 12) (MEM_ALIGNMENT - 1) =? 0) = true) as ->.
  { change (MEM_ALIGNMENT - 1) with (2 ^ 2 - 1). rewrite land_mask by done. apply Z.eqb_eq. change (2 ^ 2) with 4.
    rewrite Z.add_mod, B5 by done. done. }
  unfold ram_end. rewrite heap_size_eq. assert (0 <= p + 12 < heap_size) as Hr by lia.
  destruct (Z.leb_spec 0 (p + 12)); [|lia]. destruct (Z.ltb_spec (p + 12) heap_size); [|lia]. cbn [andb LWIP_ASSERT]. msteps.
  destruct (Z.ltb_spec (p + 12) 0); [lia|]. destruct (Z.leb_spec heap_size (p + 12)); [lia|]. cbn [orb].
  unfold sem_wait. msteps. rewrite H6. cbn [Z.ltb Z.compare]. msteps. unfold getm. msteps.
  change SIZEOF_STRUCT_MEM with 12. replace (p + 12 - 12) with p by lia. set (s1 := set_mem_sem (1 - 1) s).
  change (hdr s1 p) with (hdr s p). rewrite B1. cbn [used Z.b2z]. change (LWIP_ASSERT (nz 1)) with (ret tt : M heap unit). msteps.
  set (s2 := set_used p 0 s1). change (lfree s2) with (lfree s).
  match goal with |- context [bind (if ?c then ?a else ?b) ?k s2] =>
    assert (exists s3, (if c then a else b) s2 = Ret tt s3 /\ heap_pre (pre ++ (n, false) :: post) s3 /\ mem_sem s3 = 0 /\ data s3 = data s)
    as (s3 & Hm & Hp3 & Hs3 & Hd3) end.
  { assert (forall s3, ram s3 = ram s2 -> lfree s3 = lowest_free (pre ++ (n, false) :: post) -> heap_pre (pre ++ (n, false) :: post) s3) as Hmark.
    { intros s3 Hr3 Hl3. apply (mark_pre _ _ true false _ s); [by apply heap_ok_pre| |done]. intros q. unfold hdr at 1. rewrite Hr3.
      change (default _ _) with (hdr (set_hdr p (mkMem (next (hdr s p)) (prev (hdr s p)) 0) s) q). rewrite hdr_set. fold p.
      destruct (decide (q = p)) as [->|]; [by rewrite decide_True|by rewrite decide_False by congruence]. }
    rewrite seg_app in H1. destruct H1 as [H1 (_ & _ & _ & H1')]. pose proof (lowest_free_range _ _ _ _ H1') as Hlf.
    rewrite H5, lowest_free_app. rewrite lowest_free_app in Hmark, H5. fold p in Hmark, H5 |- *. cbn [lowest_free] in *.
    destruct (forallb snd pre) eqn:Hb.
    - destruct (Z.ltb_spec p (p + (n + lowest_free post))); [|lia]. eexists. split; [done|]. split; [apply Hmark; [done|cbn; lia]|done].
    - pose proof (lowest_free_lt _ _ _ _ H1 Hb) as Hlt. fold p in Hlt. destruct (Z.ltb_spec p (lowest_free pre)); [lia|].
      exists s2. split; [done|]. split; [by apply Hmark|done]. }
  mrun Hm. destruct (plug_holes_run pre n post s3 Hc Hp3) as (s4 & Hr4 & [K1 K2 K3 K4] & Hs4 & Hd4). mrun Hr4.
  exists (set_mem_sem 1 s4). split; [unfold sem_signal, modify; by rewrite Hs4, Hs3|]. split; [|by rewrite <- Hd3, <- Hd4].
  apply heap_pre_ok; [by split|apply coalesce_idem].
Qed.

(** ** [mem_malloc] *)

Lemma coalesce_prefix a b : coalesce (a ++ b) = a ++ b -> coalesce a = a.
Proof.
  induction a as [|[n u] a IH]; [done|]. cbn [app]. intros Hc. pose proof (IH (coalesce_cons_inv _ _ _ Hc)) as Ha.
  destruct u; cbn [coalesce]; rewrite Ha; [done|]. destruct a as [|[x [|]] a]; [done..|]. by apply coalesce_adjacent in Hc.
Qed.

Lemma coalesce_used pre n post : coalesce (pre ++ (n, false) :: post) = pre ++ (n, false) :: post ->
  coalesce (pre ++ (n, true) :: post) = pre ++ (n, true) :: post /\
  forall a b, coalesce (pre ++ (a, true) :: (b, false) :: post) = pre ++ (a, true) :: (b, false) :: post.
Proof.
  intros Hc. pose proof (coalesce_prefix _ _ Hc) as H1. pose proof (coalesce_suffix _ _ Hc) as H2.
  pose proof (coalesce_cons_inv _ _ _ H2) as H3. split; [by rewrite coalesce_app_used, H1, H3|]. intros a b.
  rewrite coalesce_app_used, H1. do 2 f_equal. cbn [coalesce]. rewrite H3. destruct post as [|[m [|]] post]; [done..|].
  by apply coalesce_adjacent in H2.
Qed.

(** Cutting the block at [p] in two at [q]: the headers after the writes. *)
Definition cut (p q e vu : Z) (s s' : heap) : Prop :=
  forall x, hdr s' x = if decide (x = q) then mkMem e p 0
    else if decide (x = p) then mkMem q (prev (hdr s p)) vu
    else if decide (x = e /\ e <> heap_size) then mkMem (next (hdr s x)) q (used (hdr s x)) else hdr s x.

(** One block, or a block and the free block after it, cut at a new place. *)
Lemma cut_seg pre mid post s s' a u :
  let p := total pre in
  let e := p + total mid in
  seg s 0 0 (pre ++ mid ++ post) -> total (pre ++ mid ++ post) = heap_size -> mid <> [] -> used (hdr s heap_size) = 1 ->
  24 <= a -> a mod 4 = 0 -> 24 <= total mid - a -> total mid mod 4 = 0 -> cut p (p + a) e (Z.b2z u) s s' ->
  seg s' 0 0 (pre ++ [(a, u); (total mid - a, false)] ++ post) /\ used (hdr s' heap_size) = 1.
Proof.
  intros p e H1 Ht Hne He Ha Ha4 Hb Hb4 Hcut. rewrite !total_app in Ht. fold p in Ht. fold e in Ht.
  pose proof H1 as G. rewrite !seg_app, !Z.add_0_l in G. fold p in G. destruct G as (G1 & G2 & G3).
  pose proof (seg_total _ _ _ _ G1). pose proof (seg_total _ _ _ _ G3). fold p in H.
  assert (prev (hdr s p) = last_at 0 0 pre) as Hpv by (destruct mid as [|[n w] mid]; [done|]; destruct G2 as (-> & _); done).
  split.
  - apply (seg_replace s s' pre mid [(a, u); (total mid - a, false)] post); cbn [total last_at seg]; fold p e; try done.
    + lia.
    + rewrite !Hcut. rewrite decide_False, decide_True, decide_True by lia. rewrite Hpv. split_ands; try done.
      * f_equal. unfold e. lia.
      * rewrite Zminus_mod, Ha4, Hb4. done.
    + intros x Hx. rewrite Hcut, !decide_False by lia. done.
    + intros Hp. rewrite Hcut, !decide_False by lia. rewrite decide_True; [done|]. split; [done|].
      destruct post as [|[m w] post]; [done|]. destruct G3 as (_ & G3 & _ & G4). apply seg_total in G4. cbn [total] in Ht. fold total in Ht. lia.
  - rewrite Hcut, !decide_False by lia. done.
Qed.

Lemma writes_cut p q e vu s s' :
  p <> q -> e <> p -> e <> q ->
  (forall x, hdr s' x = hdr (let s1 := set_prev q p (set_next q e (set_used q 0 s)) in
                             let s2 := set_used p vu (set_next p q s1) in
                             if e =? heap_size then s2 else set_prev e q s2) x) -> cut p q e vu s s'.
Proof.
  intros N1 N2 N3 Hr x. rewrite Hr. cbv zeta. clear Hr.
  set (s1 := set_prev q p (set_next q e (set_used q 0 s))). set (s2 := set_used p vu (set_next p q s1)).
  assert (forall x, hdr s1 x = if decide (x = q) then mkMem e p 0 else hdr s x) as E1.
  { intros y. subst s1. unfold set_prev, set_next, set_used. rewrite !hdr_set.
    destruct (decide (y = q)) as [->|]; [by rewrite !decide_True by done|by rewrite !decide_False by congruence]. }
  assert (forall x, hdr s2 x = if decide (x = q) then mkMem e p 0 else if decide (x = p) then mkMem q (prev (hdr s p)) vu else hdr s x) as E2.
  { intros y. subst s2. unfold set_next, set_used. rewrite !hdr_set. destruct (decide (y = p)) as [->|].
    - rewrite !decide_True by done. rewrite !E1, !decide_False by congruence. done.
    - rewrite !decide_False by congruence. rewrite E1. done. }
  clearbody s1 s2. destruct (Z.eqb_spec e heap_size) as [He|He].
  - rewrite E2. repeat case_decide; try done. tauto.
  - unfold set_prev. rewrite hdr_set, !E2.
    destruct (decide (e = x)) as [<-|].
    + rewrite !decide_False by congruence. by rewrite decide_True.
    + repeat case_decide; try done. destruct H1. congruence.
Qed.

Definition taken (size n : Z) : list blk :=
  if size + 36 <=? n then [(size + 12, true); (n - size - 12, false)] else [(n, true)].

Lemma mem_take_run pre n post size s :
  let p := total pre in
  heap_pre (pre ++ (n, false) :: post) s -> 12 <= size -> size mod 4 = 0 -> size + 12 <= n ->
  exists s', mem_take p size s = Ret tt s' /\ seg s' 0 0 (pre ++ taken size n ++ post) /\ used (hdr s' heap_size) = 1 /\
    lfree s' = lfree s /\ mem_sem s' = mem_sem s /\ data s' = data s.
Proof.
  intros p Hp Hs Hs4 Hn. pose proof Hp as [H1 H2 H3 H4]. pose proof H1 as G. rewrite seg_app, Z.add_0_l in G. fold p in G.
  destruct G as [G1 (G2 & G3 & G4 & G5)]. pose proof (seg_total _ _ _ _ G1) as Hp0. pose proof (seg_total _ _ _ _ G5) as Hp1.
  rewrite total_app in H2. cbn [total] in H2. fold total p in H2, Hp0.
  assert (heap_size = 2228224) as Hhs by done. unfold mem_take, getm, taken. msteps. rewrite G2. cbn [next].
  change SIZEOF_STRUCT_MEM with 12. change MIN_SIZE_ALIGNED with 12. rewrite (u64_small (size + 12 + 12)), (u64_small (p + 12)), (u64_small (p + n - (p + 12))), (u32_small (p + 12 + size)) by lia.
  destruct (Z.leb_spec (size + 12 + 12) (p + n - (p + 12))); destruct (Z.leb_spec (size + 36) n); try lia.
  - msteps. rewrite heap_size_eq. set (s2 := set_used p 1 _). exists (if p + n =? heap_size then s2 else set_prev (p + n) (p + 12 + size) s2).
    assert (cut p (p + (size + 12)) (p + n) 1 s (if p + n =? heap_size then s2 else set_prev (p + n) (p + 12 + size) s2)) as Hcut.
    { replace (p + (size + 12)) with (p + 12 + size) by lia. apply writes_cut; try lia. done. }
    split; [by destruct (p + n =? heap_size)|].
    destruct (cut_seg pre [(n, false)] post s (if p + n =? heap_size then s2 else set_prev (p + n) (p + 12 + size) s2) (size + 12) true) as [K1 K2];
      cbn [total]; rewrite ?Z.add_0_r; fold p; try done; try lia.
    + rewrite total_app. cbn [total app]. fold total p. lia.
    + rewrite Z.add_mod, Hs4 by done. done.
    + split; [|split; [exact K2|by destruct (p + n =? heap_size)]]. cbn [total] in K1. rewrite Z.add_0_r in K1.
      replace (n - size - 12) with (n - (size + 12)) by lia. exact K1.
  - exists (set_used p 1 s). split; [done|]. split; [|split; [|done]]; [|unfold set_used; rewrite hdr_set, decide_False by lia; done].
    destruct (mark_pre pre n false true post s (set_lfree (lowest_free (pre ++ (n, true) :: post)) (set_used p 1 s)) Hp) as [K _ _ _]; [|done|].
    + intros q. change (hdr (set_lfree _ (set_used p 1 s)) q) with (hdr (set_used p 1 s) q). unfold set_used. rewrite hdr_set. fold p.
      destruct (decide (q = p)) as [->|]; [by rewrite decide_True|by rewrite decide_False by congruence].
    + eapply seg_frame; [|exact K]. done.
Qed.

Lemma seg_length s bs : forall p pv, seg s p pv bs -> 24 * Z.of_nat (length bs) <= total bs.
Proof. induction bs as [|[n u] bs IH]; intros p pv Hs; cbn [length total]; [done|]. destruct Hs as (_ & ? & _ & Hs). apply IH in Hs. lia. Qed.

Lemma mem_rounds_enough s bs : seg s 0 0 bs -> total bs = heap_size -> (length bs < mem_rounds)%nat.
Proof. intros Hs Ht. apply seg_length in Hs. unfold mem_rounds. rewrite heap_size_eq. lia. Qed.

Lemma mem_next_free_run pre post s :
  seg s 0 0 (pre ++ post) -> total (pre ++ post) = heap_size -> used (hdr s heap_size) = 1 ->
  forallb snd pre = true -> lfree s = total pre ->
  mem_next_free s = Ret tt (set_lfree (lowest_free (pre ++ post)) s).
Proof.
  intros Hs Ht He Hb Hl. pose proof (mem_rounds_enough _ _ Hs Ht) as Hf. unfold mem_next_free, ram_end, getm. rewrite !heap_size_eq.
  rewrite length_app in Hf. assert (length post < mem_rounds)%nat as Hf' by lia. clear Hf. revert Hf'. generalize mem_rounds as fuel. intros fuel Hf.
  revert pre fuel s Hs Ht He Hb Hl Hf. induction post as [|[n u] post IH]; intros pre fuel s Hs Ht He Hb Hl Hf; (destruct fuel; [cbn in Hf; lia|]).
  - rewrite app_nil_r in *. cbn [loop]. msteps. rewrite Hl, Ht, He, Z.eqb_refl. cbn [negb]. rewrite andb_false_r. msteps.
    rewrite Hl, Ht, He, Z.eqb_refl. cbn [orb LWIP_ASSERT]. unfold ret. f_equal.
    rewrite <- (app_nil_r pre), lowest_free_app, Hb. cbn [lowest_free]. rewrite Z.add_0_r, <- Hl. by destruct s.
  - pose proof Hs as G. rewrite seg_app, Z.add_0_l in G. destruct G as [_ (G2 & G3 & _ & G5)]. pose proof (seg_total _ _ _ _ G5).
    rewrite total_app in Ht. cbn [total] in Ht. fold total in Ht. cbn [loop]. msteps. rewrite Hl, G2. cbn [used].
    destruct (Z.eqb_spec (total pre) heap_size); [lia|]. destruct u; cbn [Z.b2z negb nz Z.eqb andb].
    + msteps. rewrite G2. cbn [next].
      rewrite (IH (pre ++ [(n, true)])); try done.
      * by rewrite <- app_assoc.
      * rewrite <- app_assoc. eapply seg_frame; [|exact Hs]. done.
      * rewrite !total_app. cbn [total]. fold total. lia.
      * rewrite forallb_app. apply andb_true_intro. by split.
      * rewrite total_app. cbn. lia.
      * cbn in Hf. lia.
    + msteps. rewrite Hl, G2. cbn [used Z.b2z]. rewrite orb_true_r. cbn [LWIP_ASSERT]. unfold ret. f_equal.
      rewrite lowest_free_app, Hb. cbn [lowest_free]. rewrite Z.add_0_r, <- Hl. by destruct s.
Qed.

(** The bytes a request takes: a multiple of four, and not less than twelve. *)
Definition request (size : Z) : Z := Z.max 12 ((size + 3) / 4 * 4).

Lemma request_mod size : request size mod 4 = 0.
Proof. unfold request. destruct (Z.max_spec 12 ((size + 3) / 4 * 4)) as [[_ ->]|[_ ->]]; [apply Z_mod_mult|done]. Qed.

Lemma request_code size : 0 <= size < 2 ^ 32 - 3 ->
  (if LWIP_MEM_ALIGN_SIZE size <? MIN_SIZE_ALIGNED then MIN_SIZE_ALIGNED else LWIP_MEM_ALIGN_SIZE size) = request size.
Proof.
  intros Hs. rewrite align_size by done. change MIN_SIZE_ALIGNED with 12. unfold request. destruct (Z.ltb_spec ((size + 3) / 4 * 4) 12); lia.
Qed.

Lemma first_fit_none size s p pv bs : seg s p pv bs -> total bs < size + 12 -> first_fit size bs = None.
Proof.
  revert p pv. induction bs as [|[n u] bs IH]; intros p pv Hs Ht; cbn [first_fit total] in *; [done|]. destruct Hs as (_ & ? & _ & Hs).
  pose proof (seg_total _ _ _ _ Hs). fold total in Ht. destruct (Z.leb_spec (size + 12) n); [lia|]. rewrite andb_false_r.
  rewrite (IH _ _ Hs); [done|lia].
Qed.

(** Taking the free block after [pre] and moving [lfree] on. *)
Lemma take_and_move pre n post size s :
  let p := total pre in
  coalesce (pre ++ (n, false) :: post) = pre ++ (n, false) :: post -> heap_pre (pre ++ (n, false) :: post) s ->
  12 <= size -> size mod 4 = 0 -> size + 12 <= n ->
  exists s1 s', mem_take p size s = Ret tt s1 /\ (if p =? lfree s1 then mem_next_free else ret tt) s1 = Ret tt s' /\
    heap_pre (pre ++ taken size n ++ post) s' /\ mem_sem s' = mem_sem s /\ data s' = data s.
Proof.
  intros p Hc Hp Hs Hs4 Hn. destruct (mem_take_run pre n post size s Hp Hs Hs4 Hn) as (s1 & Hr & K1 & K2 & K3 & K4 & K5). fold p in Hr.
  pose proof Hp as [H1 H2 H3 H4]. rewrite seg_app in H1. destruct H1 as [H1 _]. exists s1. rewrite K3, H4, lowest_free_app. fold p.
  assert (total (pre ++ taken size n ++ post) = heap_size) as Ht.
  { rewrite total_app in H2. rewrite !total_app. unfold taken. cbn [total] in H2. fold total in H2. destruct (_ <=? _); cbn [total]; lia. }
  destruct (forallb snd pre) eqn:Hb.
  - cbn [lowest_free]. rewrite Z.add_0_r, Z.eqb_refl. rewrite (mem_next_free_run pre (taken size n ++ post) s1); try done.
    + eexists. do 2 (split; [done|]). split; [|done]. split; try done. eapply seg_frame; [|exact K1]. done.
    + rewrite K3, H4, lowest_free_app, Hb. cbn [lowest_free]. fold p. lia.
  - pose proof (lowest_free_lt _ _ _ _ H1 Hb) as Hlt. fold p in Hlt. destruct (Z.eqb_spec p (lowest_free pre)); [lia|].
    exists s1. do 2 (split; [done|]). split; [|done]. split; try done. rewrite K3, H4, !lowest_free_app, Hb. done.
Qed.

Lemma taken_coalesced pre n post size : coalesce (pre ++ (n, false) :: post) = pre ++ (n, false) :: post ->
  coalesce (pre ++ taken size n ++ post) = pre ++ taken size n ++ post.
Proof. intros Hc. destruct (coalesce_used _ _ _ Hc) as [H1 H2]. unfold taken. destruct (size + 36 <=? n); [apply H2|exact H1]. Qed.

(** What precedes the lowest free block does not fit. *)
Lemma lowest_free_split size bs : exists pre post,
  bs = pre ++ post /\ lowest_free bs = total pre /\ Forall (fun b => fits size b = false) pre.
Proof.
  induction bs as [|[n [|]] bs (pre & post & -> & Hl & Hf)].
  - by exists [], [].
  - exists ((n, true) :: pre), post. cbn [lowest_free total]. rewrite Hl. split_ands; try done. by constructor.
  - by exists [], ((n, false) :: pre ++ post).
Qed.

(** What [mem_malloc] does: the place and the blocks of [first_fit]. *)
Definition malloc_post (size : Z) (bs : list blk) (d : gmap Z Z) (o : outcome heap (option Z)) : Prop :=
  exists s', o = Ret ((fun r => r.1 + 12) <$> first_fit size bs) s' /\ heap_ok (from_option snd bs (first_fit size bs)) s' /\ data s' = d.

Lemma malloc_post_none size bs d s : first_fit size bs = None -> heap_pre bs s -> coalesce bs = bs -> mem_sem s = 0 -> data s = d ->
  malloc_post size bs d ((do! sem_signal ;; ret None) s).
Proof.
  intros Hf Hp Hc Hs Hd. unfold malloc_post, sem_signal. rewrite Hf. msteps. rewrite Hs. eexists. split; [done|]. split; [by apply heap_pre_ok|done].
Qed.

(** The block found is taken. *)
Lemma search_found pre n post size s :
  let p := total pre in
  coalesce (pre ++ (n, false) :: post) = pre ++ (n, false) :: post -> heap_pre (pre ++ (n, false) :: post) s ->
  12 <= size -> size mod 4 = 0 -> size + 12 <= n -> p mod 4 = 0 -> mem_sem s = 0 ->
  exists s', (do! mem_take p size ;;
    let! lf := gets lfree in
    do! (if p =? lf then mem_next_free else ret tt) ;;
    do! sem_signal ;;
    do! LWIP_ASSERT (p + SIZEOF_STRUCT_MEM + size <=? ram_end) ;;
    do! LWIP_ASSERT ((p + SIZEOF_STRUCT_MEM) mod MEM_ALIGNMENT =? 0) ;;
    do! LWIP_ASSERT (Z.land p (MEM_ALIGNMENT - 1) =? 0) ;;
    ret (inr (Some (p + SIZEOF_STRUCT_MEM)))) s = Ret (inr (Some (p + 12)) : Z + option Z) s' /\
    heap_ok (pre ++ taken size n ++ post) s' /\ data s' = data s.
Proof.
  intros p Hc Hp Hr Hr4 Hn Hp4 Hs. destruct (take_and_move pre n post size s) as (s2 & s3 & R2 & R3 & Q1 & Q2 & Q3); try done.
  fold p in R2, R3. mrun R2. msteps. mrun R3. unfold sem_signal. msteps. rewrite Q2, Hs.
  change SIZEOF_STRUCT_MEM with 12. change MEM_ALIGNMENT with 4. unfold ram_end. rewrite heap_size_eq.
  destruct Hp as [H1 H2 _ _]. rewrite seg_app in H1. destruct H1 as [_ (_ & _ & _ & H1)]. apply seg_total in H1.
  rewrite total_app in H2. cbn [total] in H2. fold total p in H2.
  assert (p + 12 + size <=? heap_size = true) as -> by (apply Z.leb_le; lia).
  assert ((p + 12) mod 4 =? 0 = true) as -> by (apply Z.eqb_eq; rewrite Z.add_mod, Hp4 by done; done).
  assert (Z.land p (4 - 1) =? 0 = true) as ->.
  { apply Z.eqb_eq. change (4 - 1) with (2 ^ 2 - 1). by rewrite land_mask by done. }
  cbn [LWIP_ASSERT]. msteps. eexists. split; [done|]. split; [|done]. apply heap_pre_ok; [done|by apply taken_coalesced].
Qed.

Lemma seg_mod s bs : forall p pv, seg s p pv bs -> total bs mod 4 = 0.
Proof.
  induction bs as [|[k v] bs IH]; intros q pv Hb; [done|]. cbn [total]. destruct Hb as (_ & _ & Hb1 & Hb2). apply IH in Hb2.
  rewrite Z.add_mod, Hb1, Hb2 by done. done.
Qed.

(** The loop from the block after [pre]. *)
Lemma search_run size s : 12 <= size <= heap_size -> size mod 4 = 0 -> mem_sem s = 0 ->
  forall post pre fuel, heap_pre (pre ++ post) s -> coalesce (pre ++ post) = pre ++ post ->
  Forall (fun b => fits size b = false) pre -> (length post < fuel)%nat ->
  malloc_post size (pre ++ post) (data s) (mem_search fuel size (total pre) s).
Proof.
  intros Hr Hr4 Hs. assert (heap_size = 2228224) as Hhs by done. unfold mem_search, getm. change SIZEOF_STRUCT_MEM with 12.
  rewrite heap_size_eq, (u32_small (heap_size - size)) by lia. induction post as [|[n u] post IH]; intros pre fuel Hp Hc Hf Hfu;
    (destruct fuel as [|fuel]; [cbn in Hfu; lia|]); cbn [loop]; pose proof Hp as [K1 K2 _ _]; pose proof K1 as G; rewrite seg_app, Z.add_0_l in G;
    destruct G as [G1 G]; pose proof (seg_total _ _ _ _ G1); rewrite total_app in K2;
    (destruct (Z.ltb_spec (total pre) (heap_size - size)) as [Hlt|Hge];
     [|rewrite bind_assoc; apply malloc_post_none; try done; rewrite first_fit_skip by done; rewrite (first_fit_none size _ _ _ _ G); [done|lia]]).
  - cbn in K2. lia.
  - destruct G as (G2 & G3 & G4 & G5). pose proof (seg_total _ _ _ _ G5). cbn [total] in K2. fold total in K2.
    msteps. rewrite G2. cbn [used next]. rewrite (u64_small (total pre + 12)), u64_small by lia.
    assert ((Z.b2z u =? 0) && (size <=? total pre + n - (total pre + 12)) = fits size (n, u)) as ->.
    { unfold fits. destruct u; cbn [snd fst negb Z.b2z Z.eqb andb]; [done|].
      destruct (Z.leb_spec (size + 12) n), (Z.leb_spec size (total pre + n - (total pre + 12))); lia || done. }
    destruct (fits size (n, u)) eqn:Hfits.
    + unfold fits in Hfits. destruct u; [done|]. cbn [snd fst negb andb] in Hfits. pose proof (proj1 (Z.leb_le _ _) Hfits).
      destruct (search_found pre n post size s) as (s' & R & Q1 & Q2); try done; [lia|by eapply seg_mod|].
      change SIZEOF_STRUCT_MEM with 12 in R. rewrite (bind_Ret _ _ _ _ _ R). exists s'. rewrite first_fit_skip by done. cbn [first_fit negb andb].
      rewrite Hfits. split; [cbn; by rewrite Z.add_0_r|]. split; [|done]. unfold taken in Q1. cbn. by destruct (size + 36 <=? n).
    + msteps. specialize (IH (pre ++ [(n, u)]) fuel). rewrite <- app_assoc, total_app in IH. cbn [app total] in IH. rewrite Z.add_0_r in IH.
      apply IH; [done..| |cbn in Hfu; lia]. apply Forall_app. split; [done|]. by constructor.
Qed.

Lemma mem_malloc_run size bs s :
  heap_ok bs s -> 0 < size < 2 ^ 32 - 3 -> malloc_post (request size) bs (data s) (mem_malloc size s).
Proof.
  intros Hok Hsz. pose proof Hok as [H1 H2 H3 Hc H5 H6]. unfold mem_malloc. destruct (Z.eqb_spec size 0); [lia|]. rewrite request_code by lia.
  pose proof (request_mod size) as Hr4. assert (12 <= request size) as Hr12 by (unfold request; lia). rewrite heap_size_eq.
  destruct (Z.ltb_spec heap_size (request size)) as [Hbig|Hle].
  { exists s. rewrite (first_fit_none (request size) s 0 0 bs); [done..|lia]. }
  unfold sem_wait. msteps. rewrite H6. cbn [Z.ltb Z.compare]. msteps. set (s1 := set_mem_sem (1 - 1) s).
  destruct (lowest_free_split (request size) bs) as (pre & post & -> & Hl & Hf).
  change (lfree s1) with (lfree s). rewrite H5, Hl. change (data s) with (data s1). pose proof (mem_rounds_enough _ _ H1 H2) as Hfu.
  rewrite length_app in Hfu. apply search_run; try done; [|lia].
  split; try done. eapply seg_frame; [|exact H1]. done.
Qed.

(** ** [mem_realloc] *)

(** The blocks from one in use on, when [size] of its [n] bytes are kept. *)
Definition shrink (size n : Z) (post : list blk) : list blk :=
  match post with
  | (m, false) :: post' => if size + 12 =? n then (n, true) :: post else (size + 12, true) :: (n + m - (size + 12), false) :: post'
  | _ => if size + 36 <=? n then (size + 12, true) :: (n - (size + 12), false) :: post else (n, true) :: post
  end.

Lemma shrink_coalesced pre n post size : coalesce (pre ++ (n, true) :: post) = pre ++ (n, true) :: post ->
  coalesce (pre ++ shrink size n post) = pre ++ shrink size n post.
Proof.
  intros Hc. destruct (coalesce_freed _ _ _ Hc) as (H1 & H2 & _).
  assert (forall a b r, coalesce r = r -> (forall k r', r <> (k, false) :: r') ->
    coalesce (pre ++ (a, true) :: (b, false) :: r) = pre ++ (a, true) :: (b, false) :: r) as Hsplit.
  { intros a b r Hr Hn. rewrite coalesce_app_used, H1. do 2 f_equal. cbn [coalesce]. rewrite Hr. destruct r as [|[k [|]] r]; [done..|]. by destruct (Hn k r). }
  unfold shrink. destruct post as [|[m [|]] post].
  - destruct (size + 36 <=? n); [|done]. by apply Hsplit.
  - destruct (size + 36 <=? n); [|done]. by apply Hsplit.
  - destruct (size + 12 =? n); [done|]. apply Hsplit; [by eapply coalesce_cons_inv|]. intros k r ->. by apply coalesce_adjacent in H2.
Qed.

Lemma set_used_same p v s x : used (hdr s p) = v -> hdr (set_used p v s) x = hdr s x.
Proof. intros <-. unfold set_used. rewrite hdr_set. case_decide; [subst|done]. by destruct (hdr s x). Qed.

Lemma set_prev_ext p v s s' x : (forall y, hdr s y = hdr s' y) -> hdr (set_prev p v s) x = hdr (set_prev p v s') x.
Proof. intros E. unfold set_prev. rewrite !hdr_set, !E. done. Qed.

(** The writes of [mem_realloc]. *)
Definition cut_writes (p q e : Z) (s : heap) : heap :=
  let s4 := set_next p q (set_prev q p (set_next q e (set_used q 0 s))) in if e =? heap_size then s4 else set_prev e q s4.

Lemma cut_writes_cut p q e s : p <> q -> e <> p -> e <> q -> used (hdr s p) = 1 -> cut p q e 1 s (cut_writes p q e s).
Proof.
  intros N1 N2 N3 Hu. apply writes_cut; try done. intros x. unfold cut_writes. cbv zeta. set (s2 := set_next p q _).
  assert (used (hdr s2 p) = 1) as Hu2.
  { subst s2. unfold set_next, set_prev, set_used. rewrite !hdr_set. rewrite decide_True by done. rewrite !decide_False by congruence. done. }
  destruct (e =? heap_size); [by rewrite set_used_same|]. apply set_prev_ext. intros y. by rewrite set_used_same.
Qed.

Lemma cut_pre pre n mid post a s :
  let p := total pre in
  let k := n + total mid in
  seg s 0 0 (pre ++ ((n, true) :: mid) ++ post) -> p + k + total post = heap_size -> used (hdr s heap_size) = 1 ->
  24 <= a -> a mod 4 = 0 -> 24 <= k - a -> k mod 4 = 0 -> lfree s = lowest_free (pre ++ [(a, true); (k - a, false)] ++ post) ->
  heap_pre (pre ++ [(a, true); (k - a, false)] ++ post) (cut_writes p (p + a) (p + k) s).
Proof.
  intros p k H1 Ht He Ha Ha4 Hk Hk4 Hl.
  assert (used (hdr s p) = 1) as Hu by (rewrite seg_app in H1; destruct H1 as [_ [H1 _]]; rewrite Z.add_0_l in H1; fold p in H1; by rewrite H1).
  pose proof (cut_writes_cut p (p + a) (p + k) s ltac:(lia) ltac:(lia) ltac:(lia) Hu) as Hcut.
  destruct (cut_seg pre ((n, true) :: mid) post s (cut_writes p (p + a) (p + k) s) a true) as [K1 K2]; try done.
  - rewrite !total_app. cbn [total]. fold total p k. lia.
  - split; [exact K1| |exact K2|].
    + rewrite !total_app. cbn [total]. fold p. lia.
    + rewrite <- Hl. unfold cut_writes. by destruct (p + k =? heap_size).
Qed.

(** The code that cuts, with the change of [lfree] before it. *)
Lemma realloc_cut_run (c : bool) p k pre n mid post a s :
  let q := p + a in
  p = total pre -> k = n + total mid ->
  heap_pre (pre ++ ((n, true) :: mid) ++ post) s ->
  24 <= a -> a mod 4 = 0 -> 24 <= k - a -> k mod 4 = 0 ->
  (if c then q else lfree s) = lowest_free (pre ++ [(a, true); (k - a, false)] ++ post) ->
  exists s', (do! (if c then modify (set_lfree q) else ret tt) ;;
    do! modify (set_used q 0) ;;
    do! modify (set_next q (p + k)) ;;
    do! modify (set_prev q p) ;;
    do! modify (set_next p q) ;;
    if negb (p + k =? heap_size) then modify (set_prev (p + k) q) else ret tt) s = Ret tt s' /\
  heap_pre (pre ++ [(a, true); (k - a, false)] ++ post) s' /\ mem_sem s' = mem_sem s /\ data s' = data s.
Proof.
  intros q -> -> [H1 H2 H3 H4] Ha Ha4 Hk Hk4 Hl. set (p := total pre) in *. set (k := n + total mid) in *. exists (cut_writes p q (p + k) (if c then set_lfree q s else s)). split; [|split].
  - unfold cut_writes. destruct c; msteps; by destruct (p + k =? heap_size).
  - apply cut_pre; try done.
    + eapply seg_frame; [|exact H1]. by destruct c.
    + rewrite !total_app in H2. cbn [total] in H2. fold total p k in H2. lia.
    + by destruct c.
    + fold k. rewrite <- Hl. by destruct c.
  - unfold cut_writes. by destruct c, (p + k =? heap_size).
Qed.

Lemma mem_realloc_run pre n post newsize s :
  let p := total pre in
  heap_ok (pre ++ (n, true) :: post) s -> 0 <= newsize < 2 ^ 32 - 3 -> request newsize + 12 <= n ->
  exists s', mem_realloc (p + 12) newsize s = Ret (Some (p + 12)) s' /\ heap_ok (pre ++ shrink (request newsize) n post) s' /\ data s' = data s.
Proof.
  intros p Hok Hsz Hn. destruct (seg_block _ _ _ _ _ Hok) as (B1 & B2 & B3 & B4 & B5 & B6 & B7 & B8). fold p in B1, B4, B5, B6, B8.
  pose proof Hok as [H1 H2 H3 Hc H5 H6]. assert (heap_size = 2228224) as Hhs by done. unfold mem_realloc, getm. rewrite request_code by done.
  pose proof (request_mod newsize) as Hr4. assert (12 <= request newsize) as Hr12 by (unfold request; lia). revert Hn Hr4 Hr12. generalize (request newsize).
  clear newsize Hsz. intros size Hn Hr4 Hr12. unfold ram_end. rewrite heap_size_eq. change SIZEOF_STRUCT_MEM with 12. change MIN_SIZE_ALIGNED with 12.
  destruct (Z.ltb_spec heap_size size); [lia|]. destruct (Z.leb_spec 0 (p + 12)); [|lia]. destruct (Z.ltb_spec (p + 12) heap_size); [|lia].
  cbn [andb LWIP_ASSERT]. msteps. destruct (Z.ltb_spec (p + 12) 0); [lia|]. destruct (Z.leb_spec heap_size (p + 12)); [lia|]. cbn [orb].
  replace (p + 12 - 12) with p by lia. rewrite (u32_small p) by lia. msteps. rewrite B1. cbn [next]. rewrite (u32_small (p + n - p - 12)) by lia.
  destruct (Z.leb_spec size (p + n - p - 12)); [|lia]. cbn [LWIP_ASSERT]. msteps. destruct (Z.ltb_spec (p + n - p - 12) size); [lia|].
  rewrite (u32_small (p + 12 + size)) by lia. rewrite (u64_small (size + 12 + 12)) by lia.
  destruct (Z.eqb_spec size (p + n - p - 12)) as [Heq|Hne].
  { exists s. split; [done|]. split; [|done]. unfold shrink. destruct (Z.eqb_spec (size + 12) n); [|lia]. destruct (Z.leb_spec (size + 36) n); [lia|].
    by destruct post as [|[m [|]] post]. }
  unfold sem_wait. msteps. rewrite H6. cbn [Z.ltb Z.compare]. msteps. set (s1 := set_mem_sem (1 - 1) s).
  assert (heap_pre (pre ++ (n, true) :: post) s1) as Hp1 by (split; try done; eapply seg_frame; [|exact H1]; done).
  replace (p + 12 + size) with (p + (size + 12)) by lia.
  assert ((size + 12) mod 4 = 0) as Ha4 by (rewrite Z.add_mod, Hr4 by done; done).
  match goal with |- exists s', bind ?m ?k s1 = _ /\ _ => assert (exists s2, m s1 = Ret tt s2 /\ heap_pre (pre ++ shrink size n post) s2 /\
    mem_sem s2 = 0 /\ data s2 = data s) as (s2 & Hm & Hp2 & Hsem & Hdat) end.
  2: { mrun Hm. unfold sem_signal. msteps. rewrite Hsem. eexists. split; [done|]. split; [|done]. apply heap_pre_ok; [done|by apply shrink_coalesced]. }
  rewrite seg_app in H1. destruct H1 as [H1 (_ & _ & _ & H1')]. rewrite Z.add_0_l in H1'. fold p in H1'. rewrite lowest_free_app in H5. fold p in H5.
  msteps. change (hdr s1) with (hdr s).
  assert (used (hdr s (p + n)) = Z.b2z (from_option snd true (head post))) as -> by (destruct post as [|[m v] post]; [by rewrite B8|by destruct B8 as [-> _]]).
  destruct (from_option snd true (head post)) eqn:Hhd; cbn [Z.b2z Z.eqb].
  - assert (shrink size n post = if size + 36 <=? n then (size + 12, true) :: (n - (size + 12), false) :: post else (n, true) :: post) as ->.
    { unfold shrink. by destruct post as [|[m [|]] post]. }
    destruct (Z.leb_spec (size + 12 + 12) (p + n - p - 12)), (Z.leb_spec (size + 36) n); try lia; [|by exists s1]. msteps.
    destruct (realloc_cut_run (p + (size + 12) <? lfree s1) p n pre n [] post (size + 12) s1) as (s2 & R & Q & E1 & E2); try done; try lia;
      [cbn; lia|..].
    + change (lfree s1) with (lfree s). rewrite H5, lowest_free_app. fold p. cbn [lowest_free app].
      pose proof (lowest_free_range _ _ _ _ H1'). destruct (forallb snd pre) eqn:Hb.
      * destruct (Z.ltb_spec (p + (size + 12)) (p + (n + lowest_free post))); lia.
      * pose proof (lowest_free_lt _ _ _ _ H1 Hb) as Hlt. fold p in Hlt. destruct (Z.ltb_spec (p + (size + 12)) (lowest_free pre)); lia.
    + by exists s2.
  - destruct post as [|[m v] post]; [done|]. cbn in Hhd. subst v. destruct H1' as (H1' & G3 & G4 & _). msteps. change (hdr s1) with (hdr s). rewrite H1'. cbn [next].
    unfold shrink. destruct (Z.eqb_spec (size + 12) n); [lia|].
    destruct (realloc_cut_run (lfree s1 =? p + n) p (n + m) pre n [(m, false)] post (size + 12) s1) as (s2 & R & Q & E1 & E2); try done; try lia;
      [cbn; lia|..].
    + rewrite Z.add_mod, B3, G4 by done. done.
    + change (lfree s1) with (lfree s). rewrite H5, lowest_free_app. fold p. cbn [lowest_free app]. destruct (forallb snd pre) eqn:Hb.
      * rewrite Z.add_0_r, Z.eqb_refl. lia.
      * pose proof (lowest_free_lt _ _ _ _ H1 Hb) as Hlt. fold p in Hlt. destruct (Z.eqb_spec (lowest_free pre) (p + n)); lia.
    + exists s2. split; [|done]. rewrite <- R, (Z.add_assoc p n m). done.
Qed.

(** ** [mem_init] and [mem_calloc] *)

Lemma mem_init_run s : exists s', mem_init s = Ret tt s' /\ heap_ok [(heap_size, false)] s' /\ data s' = data s.
Proof.
  exists (set_lfree 0 (set_mem_sem 1 (set_hdr ram_end (mkMem MEM_SIZE_ALIGNED MEM_SIZE_ALIGNED 1) (set_hdr 0 (mkMem MEM_SIZE_ALIGNED 0 0) s)))).
  split; [reflexivity|]. set (s1 := set_hdr ram_end _ _). assert (forall q, hdr s1 q = if decide (ram_end = q) then mkMem MEM_SIZE_ALIGNED MEM_SIZE_ALIGNED 1
    else if decide (0 = q) then mkMem MEM_SIZE_ALIGNED 0 0 else hdr s q) as Hh by (intros q; subst s1; by rewrite !hdr_set). split; [|done].
  split; try done.
  - apply (seg_frame _ s1); [done|]. cbn [seg]. rewrite Hh. done.
  - change (used (hdr s1 heap_size) = 1). rewrite Hh. done.
Qed.

(** The bytes that [mem_calloc] clears. *)
Lemma clear_bytes p n (d : gmap Z Z) i : 0 <= i < n -> foldl (fun d i => <[p + i := 0]> d) d (seqZ 0 n) !! (p + i) = Some 0.
Proof.
  intros Hi. assert (i ∈ seqZ 0 n) as Hin by (apply elem_of_seqZ; lia). clear Hi. induction (seqZ 0 n) as [|j l IH] using rev_ind; [by apply elem_of_nil in Hin|].
  rewrite foldl_app. cbn. destruct (decide (i = j)) as [->|]; [by rewrite lookup_insert_eq|]. rewrite lookup_insert_ne by lia. apply IH.
  apply elem_of_app in Hin as [|Hin]; [done|]. by apply list_elem_of_singleton in Hin.
Qed.

(** ** Sequences of calls *)

(** Marking the block at offset [p] free, and keeping [size] bytes of it. *)
Fixpoint free_at (p : Z) (bs : list blk) : option (list blk) :=
  match bs with
  | [] => None
  | (n, u) :: bs' => if p =? 0 then (if u then Some ((n, false) :: bs') else None) else cons (n, u) <$> free_at (p - n) bs'
  end.

Fixpoint shrink_at (p size : Z) (bs : list blk) : option (list blk) :=
  match bs with
  | [] => None
  | (n, u) :: bs' => if p =? 0 then (if u && (size + 12 <=? n) then Some (shrink size n bs') else None) else cons (n, u) <$> shrink_at (p - n) size bs'
  end.

Lemma free_at_split bs : forall p bs', free_at p bs = Some bs' ->
  exists pre n post, bs = pre ++ (n, true) :: post /\ bs' = pre ++ (n, false) :: post /\ p = total pre.
Proof.
  induction bs as [|[n u] bs IH]; intros p bs' Hf; cbn [free_at] in Hf; [done|]. destruct (Z.eqb_spec p 0) as [->|].
  - destruct u; [|done]. injection Hf as <-. by exists [], n, bs.
  - apply fmap_Some in Hf as (r & Hf & ->). apply IH in Hf as (pre & m & post & -> & -> & Hp). exists ((n, u) :: pre), m, post.
    split_ands; try done. cbn. lia.
Qed.

Lemma shrink_at_split size bs : forall p bs', shrink_at p size bs = Some bs' ->
  exists pre n post, bs = pre ++ (n, true) :: post /\ bs' = pre ++ shrink size n post /\ p = total pre /\ size + 12 <= n.
Proof.
  induction bs as [|[n u] bs IH]; intros p bs' Hf; cbn [shrink_at] in Hf; [done|]. destruct (Z.eqb_spec p 0) as [->|].
  - destruct u; [|done]. destruct (Z.leb_spec (size + 12) n); [|done]. injection Hf as <-. by exists [], n, bs.
  - apply fmap_Some in Hf as (r & Hf & ->). apply IH in Hf as (pre & m & post & -> & -> & Hp & Hs). exists ((n, u) :: pre), m, post.
    split_ands; try done. cbn. lia.
Qed.

Inductive heap_op : Type :=
  | Malloc (size : Z)
  | Calloc (count size : Z)
  | Free (rmem : Z)
  | Realloc (rmem newsize : Z).

Definition exec_op (op : heap_op) : M heap (option Z) :=
  match op with
  | Malloc size => mem_malloc size
  | Calloc count size => mem_calloc count size
  | Free r => do! mem_free (Some r) ;; ret None
  | Realloc r newsize => mem_realloc r newsize
  end.

Definition spec_malloc (size : Z) (bs : list blk) : option (option Z * list blk) :=
  if size =? 0 then Some (None, bs)
  else if (0 <? size) && (size <? 2 ^ 32 - 3) then
    Some ((fun r => r.1 + 12) <$> first_fit (request size) bs, from_option snd bs (first_fit (request size) bs))
  else None.

(** A call on a list of blocks. A caller may free a block in use and shrink it. *)
Definition spec_op (op : heap_op) (bs : list blk) : option (option Z * list blk) :=
  match op with
  | Malloc size => spec_malloc size bs
  | Calloc count size => spec_malloc (u32 (count * size)) bs
  | Free r => bs' ← free_at (r - 12) bs; Some (None, coalesce bs')
  | Realloc r newsize =>
      if (0 <=? newsize) && (newsize <? 2 ^ 32 - 3) then bs' ← shrink_at (r - 12) (request newsize) bs; Some (Some r, bs') else None
  end.

Fixpoint exec_ops (ops : list heap_op) : M heap (list (option Z)) :=
  match ops with
  | [] => ret []
  | op :: ops' => let! r := exec_op op in let! rs := exec_ops ops' in ret (r :: rs)
  end.

Fixpoint spec_ops (ops : list heap_op) (bs : list blk) : option (list (option Z) * list blk) :=
  match ops with
  | [] => Some ([], bs)
  | op :: ops' => '(r, bs1) ← spec_op op bs; '(rs, bs2) ← spec_ops ops' bs1; Some (r :: rs, bs2)
  end.

Lemma spec_malloc_run size bs s r bs' : heap_ok bs s -> spec_malloc size bs = Some (r, bs') ->
  exists s', mem_malloc size s = Ret r s' /\ heap_ok bs' s'.
Proof.
  intros Hok. unfold spec_malloc. destruct (Z.eqb_spec size 0) as [->|].
  - intros [= <- <-]. by exists s.
  - destruct (Z.ltb_spec 0 size); [|done]. destruct (Z.ltb_spec size (2 ^ 32 - 3)); [|done]. intros [= <- <-].
    destruct (mem_malloc_run size bs s Hok) as (s' & R & K & _); [lia|]. by exists s'.
Qed.

Lemma heap_ok_data bs s d : heap_ok bs s -> heap_ok bs (set_data d s).
Proof. intros [H1 H2 H3 H4 H5 H6]. split; try done. eapply seg_frame; [|exact H1]. done. Qed.

(** One call. *)
Lemma spec_op_run op bs s r bs' : heap_ok bs s -> spec_op op bs = Some (r, bs') -> exists s', exec_op op s = Ret r s' /\ heap_ok bs' s'.
Proof.
  intros Hok. destruct op as [size|count size|r0|r0 newsize]; cbn [spec_op exec_op].
  - by apply spec_malloc_run.
  - intros Hs. destruct (spec_malloc_run _ _ s _ _ Hok Hs) as (s' & R & K). unfold mem_calloc. mrun R. destruct r as [p|]; [|by exists s'].
    msteps. eexists. split; [done|]. by apply heap_ok_data.
  - destruct (free_at (r0 - 12) bs) as [bs1|] eqn:E; [|done]. intros [= <- <-]. apply free_at_split in E as (pre & n & post & -> & -> & Hp).
    destruct (mem_free_run pre n post s Hok) as (s' & R & K & _). replace r0 with (total pre + 12) by lia. mrun R. by exists s'.
  - destruct (Z.leb_spec 0 newsize); [|done]. destruct (Z.ltb_spec newsize (2 ^ 32 - 3)); [|done]. cbn [andb].
    destruct (shrink_at (r0 - 12) (request newsize) bs) as [bs1|] eqn:E; [|done]. intros [= <- <-].
    apply shrink_at_split in E as (pre & n & post & -> & -> & Hp & Hn).
    destruct (mem_realloc_run pre n post newsize s Hok) as (s' & R & K & _); [lia|done|]. replace r0 with (total pre + 12) by lia. by exists s'.
Qed.

Lemma spec_ops_run ops : forall bs s rs bs', heap_ok bs s -> spec_ops ops bs = Some (rs, bs') -> exists s', exec_ops ops s = Ret rs s' /\ heap_ok bs' s'.
Proof.
  induction ops as [|op ops IH]; intros bs s rs bs' Hok Hs; cbn [spec_ops exec_ops] in *.
  - injection Hs as <- <-. by exists s.
  - destruct (spec_op op bs) as [[r bs1]|] eqn:E; [|done]. cbn in Hs. destruct (spec_ops ops bs1) as [[rs1 bs2]|] eqn:E2; [|done]. injection Hs as <- <-.
    destruct (spec_op_run _ _ _ _ _ Hok E) as (s1 & R1 & K1). destruct (IH _ _ _ _ K1 E2) as (s2 & R2 & K2). mrun R1. mrun R2. by exists s2.
Qed.

(** ** The regions of the callers *)

Fixpoint in_use_from (p : Z) (bs : list blk) : list (Z * Z) :=
  match bs with
  | [] => []
  | (n, u) :: bs' => (if u then [(p + 12, n - 12)] else []) ++ in_use_from (p + n) bs'
  end.

(** Where the data of the blocks in use starts, and its size. *)
Definition in_use (bs : list blk) : list (Z * Z) := in_use_from 0 bs.

Lemma in_use_app a : forall p b, in_use_from p (a ++ b) = in_use_from p a ++ in_use_from (p + total a) b.
Proof.
  induction a as [|[n u] a IH]; intros p b; cbn [app in_use_from total]; [by rewrite Z.add_0_r|]. rewrite IH, <- app_assoc. do 3 f_equal. lia.
Qed.

Lemma in_use_range s bs : forall p pv, seg s p pv bs -> forall a m, (a, m) ∈ in_use_from p bs -> p + 12 <= a /\ a + m <= p + total bs.
Proof.
  induction bs as [|[n u] bs IH]; intros p pv Hs a m Ha; cbn [in_use_from total] in *; [by apply elem_of_nil in Ha|].
  destruct Hs as (_ & Hn & _ & Hs). pose proof (seg_total _ _ _ _ Hs). apply elem_of_app in Ha as [Ha|Ha].
  - destruct u; [|by apply elem_of_nil in Ha]. apply list_elem_of_singleton in Ha. injection Ha as -> ->. lia.
  - apply (IH _ _ Hs) in Ha. lia.
Qed.

Lemma first_fit_split size bs : forall p bs', first_fit size bs = Some (p, bs') ->
  exists pre n post, bs = pre ++ (n, false) :: post /\ bs' = pre ++ taken size n ++ post /\ p = total pre /\ size + 12 <= n.
Proof.
  induction bs as [|[n u] bs IH]; intros p bs' Hf; cbn [first_fit] in Hf; [done|]. destruct (negb u && (size + 12 <=? n)) eqn:E.
  - apply andb_true_iff in E as [Hu Hn]. destruct u; [done|]. apply Z.leb_le in Hn. injection Hf as <- <-. exists [], n, bs.
    split_ands; try done. unfold taken. by destruct (size + 36 <=? n).
  - destruct (first_fit size bs) as [[q r]|] eqn:Hr; [|done]. cbn in Hf. injection Hf as <- <-.
    destruct (IH _ _ eq_refl) as (pre & m & post & -> & -> & Hq & Hm). exists ((n, u) :: pre), m, post. split_ands; try done. cbn. lia.
Qed.

Lemma first_fit_failed size bs n : first_fit size bs = None -> (n, false) ∈ bs -> n < size + 12.
Proof.
  induction bs as [|[m u] bs IH]; intros Hf Hin; [by apply elem_of_nil in Hin|]. cbn [first_fit] in Hf. apply elem_of_cons in Hin as [[= <- <-]|Hin].
  - cbn [negb andb] in Hf. by destruct (Z.leb_spec (size + 12) n).
  - apply IH; [|done]. destruct (negb u && (size + 12 <=? m)); [done|]. by destruct (first_fit size bs) as [[]|].
Qed.

(** The block taken is new among those in use. *)
Lemma taken_in_use pre n post size : 12 <= size -> size + 12 <= n ->
  exists m, size <= m /\ in_use (pre ++ taken size n ++ post) ≡ₚ (total pre + 12, m) :: in_use (pre ++ (n, false) :: post).
Proof.
  intros Hs Hn. exists (if size + 36 <=? n then size else n - 12). split; [destruct (Z.leb_spec (size + 36) n); lia|].
  unfold in_use, taken. rewrite !in_use_app, Z.add_0_l. destruct (Z.leb_spec (size + 36) n); cbn [in_use_from app total].
  - replace (total pre + (size + 12 + (n - size - 12 + 0))) with (total pre + n) by lia. replace (size + 12 - 12) with size by lia. by rewrite <- Permutation_middle.
  - rewrite Z.add_0_r. by rewrite <- Permutation_middle.
Qed.

Lemma mem_calloc_zero count size bs s r s' : heap_ok bs s -> 0 < u32 (count * size) < 2 ^ 32 - 3 ->
  mem_calloc count size s = Ret (Some r) s' -> forall i, 0 <= i < u32 (count * size) -> data s' !! (r + i) = Some 0.
Proof.
  intros Hok Hn Hr i Hi. unfold mem_calloc in Hr. destruct (mem_malloc_run _ _ s Hok Hn) as (s1 & R & _). rewrite (bind_Ret _ _ _ _ _ R) in Hr.
  destruct (first_fit _ bs) as [[p bs']|]; cbn [fmap option_fmap option_map] in Hr; [|done]. injection Hr as <- <-. by apply clear_bytes.
Qed.

(** The three largest sizes wrap around when they are rounded up: they get the
    smallest block. *)
Lemma mem_malloc_wraps size s : 2 ^ 32 - 3 <= size < 2 ^ 32 -> mem_malloc size s = mem_malloc 12 s.
Proof.
  intros Hs. assert (LWIP_MEM_ALIGN_SIZE size = 0) as E.
  { assert (size = 2 ^ 32 - 3 \/ size = 2 ^ 32 - 2 \/ size = 2 ^ 32 - 1) as [-> | [-> | ->]] by lia; reflexivity. }
  unfold mem_malloc. destruct (Z.eqb_spec size 0); [lia|]. rewrite E. reflexivity.
Qed.

(** C12: any sequence of calls made after [mem_init] that frees and shrinks only
    blocks in use does what the same calls do on a list of blocks: allocation
    takes the first block that fits, and a freed block joins its free
    neighbours. No call stops on an assertion or waits for ever, and at the end
    the headers, [lfree] and the semaphore describe the list. *)
Theorem mem_heap_refines ops s rs bs :
  spec_ops ops [(heap_size, false)] = Some (rs, bs) -> exists s', (do! mem_init ;; exec_ops ops) s = Ret rs s' /\ heap_ok bs s'.
Proof.
  intros Hs. destruct (mem_init_run s) as (s1 & R & Hok & _). mrun R. by apply (spec_ops_run ops [(heap_size, false)]).
Qed.

Definition blank_heap : heap := mkHeap ∅ ∅ 0 0.

(** Three blocks; the middle one is freed and taken again by a smaller request;
    the first one shrinks; all are freed in an order that joins on both sides. *)
Definition sample_ops : list heap_op :=
  [Malloc 100; Malloc 1500; Calloc 4 25; Free 124; Malloc 40; Realloc 12 50; Free 1636; Free 124; Free 12].

Lemma mem_heap_refines_witness :
  spec_ops sample_ops [(heap_size, false)]
    = Some ([Some 12; Some 124; Some 1636; None; Some 124; Some 12; None; None; None], [(heap_size, false)]) /\
  exists s', (do! mem_init ;; exec_ops sample_ops) blank_heap
    = Ret [Some 12; Some 124; Some 1636; None; Some 124; Some 12; None; None; None] s' /\ heap_ok [(heap_size, false)] s'.
Proof.
  assert (spec_ops sample_ops [(heap_size, false)]
    = Some ([Some 12; Some 124; Some 1636; None; Some 124; Some 12; None; None; None], [(heap_size, false)])) as Hs by (vm_compute; reflexivity).
  split; [exact Hs|]. exact (mem_heap_refines sample_ops blank_heap _ _ Hs).
Defined.

(** [mem_malloc] on a heap in order either returns an aligned region inside
    the heap that holds the bytes asked for, is disjoint from every region in
    use, and is the only change to the regions in use; or it fails and changes
    nothing, and then no free block has room for the request. *)
Lemma mem_malloc_region size bs s :
  heap_ok bs s -> 0 < size < 2 ^ 32 - 3 ->
  exists r bs' s', mem_malloc size s = Ret r s' /\ heap_ok bs' s' /\ data s' = data s /\
    match r with
    | Some a =>
        a mod 4 = 0 /\ 12 <= a /\ a + size <= heap_size /\
        (forall b m, (b, m) ∈ in_use bs -> b + m <= a - 12 \/ a + size <= b - 12) /\
        (exists m, size <= m /\ in_use bs' ≡ₚ (a, m) :: in_use bs)
    | None => bs' = bs /\ forall n, (n, false) ∈ bs -> n < request size + 12
    end.
Proof.
  intros Hok Hsz. destruct (mem_malloc_run size bs s Hok Hsz) as (s' & R & K & Hd). assert (size <= request size /\ 12 <= request size) as [Hq Hq12].
  { unfold request. pose proof (Z.div_mod (size + 3) 4). pose proof (Z.mod_pos_bound (size + 3) 4). lia. }
  do 3 eexists. split; [exact R|]. split; [exact K|]. split; [exact Hd|]. clear R K. destruct (first_fit (request size) bs) as [[p bs']|] eqn:E.
  - apply first_fit_split in E as (pre & n & post & -> & -> & -> & Hn). destruct (seg_block _ _ _ _ _ Hok) as (_ & _ & _ & B4 & B5 & B6 & B7 & _).
    cbn [fmap option_fmap option_map fst snd from_option]. split_ands; try lia.
    + rewrite Z.add_mod, B5 by done. done.
    + intros b m Hb. pose proof (ho_seg _ _ Hok) as G. rewrite seg_app, Z.add_0_l in G. destruct G as [G1 (_ & _ & _ & G2)].
      unfold in_use in Hb. rewrite in_use_app, Z.add_0_l in Hb. apply elem_of_app in Hb as [Hb|Hb].
      * apply (in_use_range _ _ _ _ G1) in Hb. lia.
      * apply (in_use_range _ _ _ _ G2) in Hb. lia.
    + destruct (taken_in_use pre n post (request size)) as (m & Hm & Hperm); [done..|]. exists m. split; [lia|exact Hperm].
  - cbn. split; [done|]. intros n. by apply first_fit_failed.
Qed.

Example mem_malloc_region_example : exists s, heap_ok [(heap_size, false)] s /\
  exists r bs' s', mem_malloc 100 s = Ret r s' /\ heap_ok bs' s' /\
    match r with Some a => a mod 4 = 0 /\ a + 100 <= heap_size | None => False end.
Proof.
  destruct (mem_init_run blank_heap) as (s & _ & Hok & _). exists s. split; [exact Hok|].
  destruct (mem_malloc_region 100 [(heap_size, false)] s Hok) as (r & bs' & s' & R & K & _ & Hr); [split; reflexivity|].
  exists r, bs', s'. split; [exact R|]. split; [exact K|]. destruct r as [a|].
  - destruct Hr as (H1 & _ & H2 & _). split; [exact H1|exact H2].
  - destruct Hr as [_ Hr]. assert (heap_size < request 100 + 12) as Hlt by (apply Hr, list_elem_of_here). discriminate Hlt.
Qed.
