(* ===== verification/LwipRegions.v ===== *)
(** What the heap of the network stack promises to its callers: the regions in
    use as a list without order, whatever blocks they are cut from. *)

From S2P Require Import Prelude LwipMem LwipMemProps.

(** The regions in use, each with its start and its size. *)
Definition mem_rep (us : list (Z * Z)) (h : heap) : Prop := exists bs, heap_ok bs h /\ in_use bs ≡ₚ us.

#[global] Instance mem_rep_proper : Proper ((≡ₚ) ==> (=) ==> iff) mem_rep.
Proof. intros us us' Hp h h' ->. unfold mem_rep. setoid_rewrite Hp. done. Qed.

Lemma in_use_fst s bs : forall p pv, seg s p pv bs -> NoDup (in_use_from p bs).*1.
Proof.
  induction bs as [|[n u] bs IH]; intros p pv Hs; cbn [in_use_from]; [constructor|]. destruct Hs as (_ & Hn & _ & Hs). specialize (IH _ _ Hs).
  destruct u; [|done]. cbn. constructor; [|done]. rewrite list_elem_of_fmap. intros ([a m] & Ha & Hin). cbn in Ha. subst a.
  apply (in_use_range _ _ _ _ Hs) in Hin. lia.
Qed.

Lemma mem_rep_nodup us h : mem_rep us h -> NoDup us.*1.
Proof. intros (bs & [H1 _ _ _ _ _] & <-). by apply (in_use_fst h bs 0 0). Qed.

Lemma mem_rep_range us h a m : mem_rep us h -> (a, m) ∈ us -> 12 <= a /\ 12 <= m /\ a + m <= heap_size /\ a mod 4 = 0.
Proof.
  intros (bs & Hok & Hp) Hin. rewrite <- Hp in Hin. unfold in_use in Hin. pose proof Hok as [H1 H2 _ _ _ _].
  assert (forall bs p pv, seg h p pv bs -> p mod 4 = 0 -> (a, m) ∈ in_use_from p bs -> p + 12 <= a /\ 12 <= m /\ a + m <= p + total bs /\ a mod 4 = 0) as Hgen.
  { clear. induction bs as [|[n u] bs IH]; intros p pv Hs Hp Hin; cbn [in_use_from total] in *; [by apply elem_of_nil in Hin|].
    destruct Hs as (_ & Hn & Hn4 & Hs). pose proof (seg_total _ _ _ _ Hs). apply elem_of_app in Hin as [Hin|Hin].
    - destruct u; [|by apply elem_of_nil in Hin]. apply list_elem_of_singleton in Hin. injection Hin as -> ->. split_ands; [lia..|]. rewrite Z.add_mod, Hp by done. done.
    - destruct (IH (p + n) p Hs) as (J1 & J2 & J3 & J4); [rewrite Z.add_mod, Hp, Hn4 by done; done|done|]. split_ands; [lia..|done]. }
  destruct (Hgen bs 0 0 H1 eq_refl Hin) as (J1 & J2 & J3 & J4). split_ands; [lia..|done].
Qed.

Lemma mem_rep_malloc us h size : mem_rep us h -> 0 < size < 2 ^ 32 - 3 ->
  exists r h', mem_malloc size h = Ret r h' /\
    match r with Some a => exists m, size <= m /\ mem_rep ((a, m) :: us) h' | None => mem_rep us h' end.
Proof.
  intros (bs & Hok & Hp) Hsz. destruct (mem_malloc_run size bs h Hok Hsz) as (h' & R & K & _). do 2 eexists. split; [exact R|].
  assert (size <= request size /\ 12 <= request size) as [Hq Hq12].
  { unfold request. pose proof (Z.div_mod (size + 3) 4). pose proof (Z.mod_pos_bound (size + 3) 4). lia. }
  destruct (first_fit (request size) bs) as [[p bs']|] eqn:E; cbn [fmap option_fmap option_map fst snd from_option] in *; [|by exists bs].
  apply first_fit_split in E as (pre & n & post & -> & -> & -> & Hn). destruct (taken_in_use pre n post (request size)) as (m & Hm & Hperm); [done..|].
  exists m. split; [lia|]. eexists. split; [exact K|]. by rewrite Hperm, Hp.
Qed.

Lemma in_use_split bs : forall p a m, (a, m) ∈ in_use_from p bs -> exists pre n post, bs = pre ++ (n, true) :: post /\ a = p + total pre + 12 /\ m = n - 12.
Proof.
  induction bs as [|[n u] bs IH]; intros p a m Hin; cbn [in_use_from] in Hin; [by apply elem_of_nil in Hin|]. apply elem_of_app in Hin as [Hin|Hin].
  - destruct u; [|by apply elem_of_nil in Hin]. apply list_elem_of_singleton in Hin. injection Hin as -> ->. exists [], n, bs. split_ands; [done|cbn; lia|done].
  - apply IH in Hin as (pre & k & post & -> & -> & ->). exists ((n, u) :: pre), k, post. split_ands; [done|cbn [total]; lia|done].
Qed.

Lemma in_use_coalesce bs : forall p, in_use_from p (coalesce bs) = in_use_from p bs.
Proof.
  induction bs as [|[n [|]] bs IH]; intros p; cbn [coalesce in_use_from]; [done|by rewrite IH|]. rewrite <- (IH (p + n)).
  destruct (coalesce bs) as [|[k [|]] r]; cbn [in_use_from app]; [done..|]. by replace (p + n + k) with (p + (n + k)) by lia.
Qed.

(** The regions around a block. *)
Lemma in_use_middle pre n post us : in_use (pre ++ (n, true) :: post) ≡ₚ (total pre + 12, n - 12) :: us -> in_use (pre ++ (n, false) :: post) ≡ₚ us.
Proof. unfold in_use. rewrite !in_use_app. cbn [in_use_from app total]. rewrite Z.add_0_l, <- Permutation_middle. by intros ?%Permutation_cons_inv. Qed.

Lemma mem_rep_free us h a m : mem_rep ((a, m) :: us) h -> exists h', mem_free (Some a) h = Ret tt h' /\ mem_rep us h'.
Proof.
  intros (bs & Hok & Hp). assert ((a, m) ∈ in_use bs) as Hin by (rewrite Hp; by left). apply in_use_split in Hin as (pre & n & post & -> & -> & ->).
  rewrite Z.add_0_l in *. destruct (mem_free_run pre n post h Hok) as (h' & R & K & _). exists h'. split; [done|]. eexists. split; [exact K|].
  unfold in_use. rewrite in_use_coalesce. by apply in_use_middle.
Qed.

(** The block that was shrunk; what is cut off is not in use. *)
Lemma in_use_shrink size n post : size + 12 <= n ->
  exists k rest, shrink size n post = (k, true) :: rest /\ size + 12 <= k /\ forall q, in_use_from (q + k) rest = in_use_from (q + n) post.
Proof.
  intros Hn. assert (forall j q, in_use_from (q + (size + 12)) ((n + j - (size + 12), false) :: post) = in_use_from (q + (n + j)) post) as Hcut.
  { intros j q. cbn [in_use_from app]. by replace (q + (size + 12) + (n + j - (size + 12))) with (q + (n + j)) by lia. }
  unfold shrink. destruct post as [|[m [|]] post]; [destruct (Z.leb_spec (size + 36) n)..|destruct (Z.eqb_spec (size + 12) n)];
    do 2 eexists; (split; [reflexivity|]); (split; [lia|]); intros q; try done.
  - specialize (Hcut 0 q). rewrite !Z.add_0_r in Hcut. exact Hcut.
  - cbn [in_use_from app]. f_equal. lia.
Qed.

Lemma mem_rep_realloc us h a m size : mem_rep ((a, m) :: us) h -> 0 <= size <= m -> size < 2 ^ 32 - 3 ->
  exists h' m', mem_realloc a size h = Ret (Some a) h' /\ size <= m' /\ mem_rep ((a, m') :: us) h'.
Proof.
  intros (bs & Hok & Hp) Hsz H32. assert ((a, m) ∈ in_use bs) as Hin by (rewrite Hp; by left). apply in_use_split in Hin as (pre & n & post & -> & -> & ->).
  rewrite Z.add_0_l in *. destruct (seg_block _ _ _ _ _ Hok) as (_ & B2 & B3 & _). assert (size <= request size /\ request size + 12 <= n) as [Hq Hr].
  { unfold request. Z.to_euclidean_division_equations. lia. }
  destruct (mem_realloc_run pre n post size h Hok) as (h' & R & K & _); [lia|done|].
  destruct (in_use_shrink (request size) n post Hr) as (k & rest & Hk & Hk12 & Hrest). rewrite Hk in K.
  exists h', (k - 12). split_ands; [done|lia|]. eexists. split; [exact K|]. apply in_use_middle in Hp. rewrite <- Hp. unfold in_use. rewrite !in_use_app.
  cbn [in_use_from app]. rewrite Z.add_0_l, Hrest. by rewrite <- Permutation_middle.
Qed.
