(* ===== verification/Memp.v ===== *)
(** The pools of the network stack, net/lwip/core/memp.c in the configuration of
    lwipopts.h: arrays of elements of one size, of which the free ones are linked.

    [struct memp] is the link alone and starts at the element ([MEMP_SIZE] is 0):
    it is the first word of the element, which the owner overwrites and
    [memp_free] writes again.  An address is an integer and 0 is the null
    pointer.  The theorems show that a pool is a stack of its free elements. *)

From S2P Require Import Prelude LwipMem.

Notation MEMP_MAX := 14 (only parsing).
Notation MEMP_PBUF := 12 (only parsing).
Notation MEMP_PBUF_POOL := 13 (only parsing).

(** [memp_tab], and the first word at an address. *)
Record pools : Type := mkPools {
  memp_tab : Z -> Z;
  link : Z -> Z;
}.

Definition set_memp_tab (t v : Z) (s : pools) : pools := mkPools (fset (memp_tab s) t v) (link s).
Definition set_link (p v : Z) (s : pools) : pools := mkPools (memp_tab s) (fset (link s) p v).

Definition LWIP_MEM_ALIGN (addr : Z) : Z := Z.land (u64 (addr + MEM_ALIGNMENT - 1)) (u64 (Z.lnot (MEM_ALIGNMENT - 1))).

Definition memp_assert (c : bool) : M pools unit := if c then ret tt else panic "lwIP assertion failed".

(** [memp_num] and [memp_sizes] are the arrays made of memp_std.h. *)
Definition memp_init (memp_memory : Z) (memp_num memp_sizes : Z -> Z) : M pools unit :=
  do! foldM (seqZ 0 MEMP_MAX) (LWIP_MEM_ALIGN memp_memory) (fun memp i =>
    do! modify (set_memp_tab i 0) ;;
    foldM (seqZ 0 (memp_num i)) memp (fun memp _ =>
      let! t := gets (fun s => memp_tab s i) in
      do! modify (set_link memp t) ;;
      do! modify (set_memp_tab i memp) ;;
      ret (memp + memp_sizes i))) ;;
  ret tt.

Definition memp_malloc (type : Z) : M pools Z :=
  do! memp_assert (type <? MEMP_MAX) ;;
  let! memp := gets (fun s => memp_tab s type) in
  if negb (memp =? 0) then
    let! n := gets (fun s => link s memp) in
    do! modify (set_memp_tab type n) ;;
    do! memp_assert (memp mod MEM_ALIGNMENT =? 0) ;;
    ret memp
  else ret memp.

Definition memp_free (type mem : Z) : M pools unit :=
  if mem =? 0 then ret tt
  else
    do! memp_assert (mem mod MEM_ALIGNMENT =? 0) ;;
    let! t := gets (fun s => memp_tab s type) in
    do! modify (set_link mem t) ;;
    modify (set_memp_tab type mem).

(** ** A pool is a stack *)

Fixpoint free_list (s : pools) (p : Z) (l : list Z) : Prop :=
  match l with
  | [] => p = 0
  | x :: l' => p = x /\ x <> 0 /\ x mod 4 = 0 /\ free_list s (link s x) l'
  end.

Definition pool_rep (s : pools) (t : Z) (l : list Z) : Prop := free_list s (memp_tab s t) l.

Lemma free_list_frame s s' p l : (forall x, x ∈ l -> link s' x = link s x) -> free_list s p l -> free_list s' p l.
Proof.
  revert p. induction l as [|x l IH]; intros p H Hl; [done|]. cbn in *. destruct Hl as (-> & H1 & H2 & H3). split_ands; [done..|].
  rewrite H by (by left). apply IH; [|done]. intros y Hy. apply H. by right.
Qed.

Lemma memp_malloc_pop s t x l : t < MEMP_MAX -> pool_rep s t (x :: l) ->
  memp_malloc t s = Ret x (set_memp_tab t (link s x) s) /\ pool_rep (set_memp_tab t (link s x) s) t l /\ x <> 0 /\ x mod 4 = 0.
Proof.
  intros Ht (H1 & H2 & H3 & H4). unfold memp_malloc. destruct (Z.ltb_spec t MEMP_MAX); [|lia]. cbn [memp_assert]. msteps. rewrite H1.
  destruct (Z.eqb_spec x 0); [done|]. cbn [negb]. msteps. change (x mod MEM_ALIGNMENT) with (x mod 4). rewrite H3. change (0 =? 0) with true. cbn [memp_assert]. msteps.
  split; [done|]. split; [|done]. unfold pool_rep. cbn. rewrite fset_eq. by apply (free_list_frame s).
Qed.

Lemma memp_malloc_empty s t : t < MEMP_MAX -> pool_rep s t [] -> memp_malloc t s = Ret 0 s.
Proof.
  intros Ht H1. unfold memp_malloc. destruct (Z.ltb_spec t MEMP_MAX); [|lia]. cbn [memp_assert]. msteps. by rewrite H1.
Qed.

Lemma memp_free_push s t x l : x <> 0 -> x mod 4 = 0 -> x ∉ l -> pool_rep s t l ->
  memp_free t x s = Ret tt (set_memp_tab t x (set_link x (memp_tab s t) s)) /\
  pool_rep (set_memp_tab t x (set_link x (memp_tab s t) s)) t (x :: l).
Proof.
  intros H1 H2 H3 H4. unfold memp_free. destruct (Z.eqb_spec x 0); [done|]. change (x mod MEM_ALIGNMENT) with (x mod 4). rewrite H2. change (0 =? 0) with true.
  cbn [memp_assert]. msteps. split; [done|]. unfold pool_rep. cbn. rewrite fset_eq. split_ands; [done..|]. rewrite fset_eq.
  apply (free_list_frame s); [|done]. intros y Hy. cbn. rewrite fset_ne; [done|]. intros ->. done.
Qed.

(** The elements that [memp_init] makes of a pool of [n], each of [size] bytes,
    at [p]; the last one is the first to be taken. *)
Definition elements (p size : Z) (n : nat) : list Z := (fun j => p + size * j) <$> reverse (seqZ 0 (Z.of_nat n)).

Definition pool_start (nums sizes : Z -> Z) (p i : Z) : Z := foldl (fun p j => p + nums j * sizes j) p (seqZ 0 i).

Section Init.
Context (nums sizes : Z -> Z) (base : Z).
Context (Hnums : forall i, 0 <= nums i) (Hsizes : forall i, 0 < sizes i /\ sizes i mod 4 = 0) (Hbase : 0 < base) (Hal : base mod 4 = 0).

Lemma pool_start_succ i : 0 <= i -> pool_start nums sizes base (i + 1) = pool_start nums sizes base i + nums i * sizes i.
Proof using. intros Hi. unfold pool_start. rewrite seqZ_snoc by done. by rewrite foldl_app. Qed.

Lemma pool_start_aligned i : 0 <= i -> base <= pool_start nums sizes base i /\ pool_start nums sizes base i mod 4 = 0.
Proof using Hnums Hsizes Hal.
  revert i. apply natlike_ind; [by split|]. intros j Hj [IH1 IH2]. rewrite <- Z.add_1_r, pool_start_succ by done.
  destruct (Hsizes j) as [H1 H2]. specialize (Hnums j). split; [nia|].
  rewrite Z.add_mod, IH2, Z.mul_mod, H2, Z.mul_0_r by done. done.
Qed.

Lemma elements_S p size n : elements p size (S n) = (p + size * Z.of_nat n) :: elements p size n.
Proof using. unfold elements. replace (Z.of_nat (S n)) with (Z.of_nat n + 1) by lia. rewrite seqZ_snoc by lia. by rewrite reverse_app. Qed.

Lemma elements_range p size n x : 0 <= size -> x ∈ elements p size n -> p <= x /\ x + size <= p + size * Z.of_nat n.
Proof using. intros Hs. unfold elements. rewrite list_elem_of_fmap. intros (j & -> & Hj). rewrite elem_of_reverse, elem_of_seqZ in Hj. nia. Qed.

(** One pool. *)
Lemma memp_init_pool i p s : 0 < p -> p mod 4 = 0 -> memp_tab s i = 0 ->
  exists s', foldM (seqZ 0 (nums i)) p (fun memp _ =>
      let! t := gets (fun s => memp_tab s i) in
      do! modify (set_link memp t) ;;
      do! modify (set_memp_tab i memp) ;;
      ret (memp + sizes i)) s = Ret (p + nums i * sizes i) s' /\
    pool_rep s' i (elements p (sizes i) (Z.to_nat (nums i))) /\
    (forall j, j <> i -> memp_tab s' j = memp_tab s j) /\ (forall x, x < p -> link s' x = link s x).
Proof using Hnums Hsizes.
  intros Hp Hp4 Hs. destruct (Hsizes i) as [H1 H2]. specialize (Hnums i).
  match goal with |- context [foldM ?l ?a ?b s] => destruct (foldM_inv (fun pre acc s1 => acc = p + sizes i * Z.of_nat (length pre) /\ pool_rep s1 i (elements p (sizes i) (length pre)) /\
    (forall j, j <> i -> memp_tab s1 j = memp_tab s j) /\ (forall x, x < p -> link s1 x = link s x)) l b a s) as (acc & s' & Hr & -> & H3 & H4) end; [|cbn [length]; split_ands; [lia|done..]|].
  2: { rewrite length_seqZ in *. exists s'. split; [|by split]. rewrite Hr. f_equal. lia. }
  intros pre x post acc s1 _ (-> & I2 & I3 & I4). do 2 eexists. msteps. split; [reflexivity|]. rewrite length_app. cbn [length]. rewrite Nat.add_1_r, elements_S.
  split; [lia|]. split_ands.
  - unfold pool_rep. cbn. rewrite fset_eq. split_ands; [done|lia| |].
    + rewrite Z.add_mod, Hp4, Z.mul_mod, H2, Z.mul_0_l by done. done.
    + rewrite fset_eq. apply (free_list_frame s1); [|done]. intros y Hy. cbn. apply fset_ne. apply elements_range in Hy; lia.
  - intros j Hj. cbn. rewrite fset_ne by done. by apply I3.
  - intros y Hy. cbn. rewrite fset_ne by lia. by apply I4.
Qed.
End Init.

(** After [memp_init] every pool has its elements, one behind the other from
    the start of the array. *)
Lemma memp_init_pools nums sizes mem s : (forall i, 0 <= nums i) -> (forall i, 0 < sizes i /\ sizes i mod 4 = 0) -> 0 < LWIP_MEM_ALIGN mem -> LWIP_MEM_ALIGN mem mod 4 = 0 ->
  exists s', memp_init mem nums sizes s = Ret tt s' /\
    forall i, 0 <= i < MEMP_MAX -> pool_rep s' i (elements (pool_start nums sizes (LWIP_MEM_ALIGN mem) i) (sizes i) (Z.to_nat (nums i))).
Proof.
  intros Hn Hs Hb Ha. unfold memp_init. set (base := LWIP_MEM_ALIGN mem) in *.
  match goal with |- context [foldM ?l ?a ?b] => destruct (foldM_inv (fun pre acc s1 => acc = pool_start nums sizes base (Z.of_nat (length pre)) /\
    forall i, 0 <= i < Z.of_nat (length pre) -> pool_rep s1 i (elements (pool_start nums sizes base i) (sizes i) (Z.to_nat (nums i)))) l b a s)
    as (acc & s' & Hr & _ & H1) end; [| |exists s'; mrun Hr; by split].
  2: { split; [done|]. cbn [length]. lia. }
  intros pre x post acc s1 Hpre [-> I1]. apply seqZ_split in Hpre as [-> Hlt]. rewrite Z.add_0_l. set (k := Z.of_nat (length pre)) in *. assert (0 <= k) by lia.
  destruct (pool_start_aligned nums sizes base Hn Hs Ha k) as [P1 P2]; [done|].
  destruct (memp_init_pool nums sizes Hn Hs k (pool_start nums sizes base k) (set_memp_tab k 0 s1)) as (s2 & R & Q1 & Q2 & Q3); [lia|done|apply fset_eq|].
  do 2 eexists. msteps. split; [exact R|]. rewrite length_app. cbn [length]. replace (Z.of_nat (length pre + 1)) with (k + 1) by lia. split; [by rewrite pool_start_succ|].
  intros i Hi. destruct (Z.eq_dec i k) as [->|Hne]; [done|]. unfold pool_rep. rewrite Q2 by done. cbn. rewrite fset_ne by done.
  apply (free_list_frame s1); [|apply I1; lia]. intros y Hy. rewrite Q3; [done|].
  apply elements_range in Hy; [|destruct (Hs i); lia]. assert (forall a b, 0 <= a -> a <= b -> pool_start nums sizes base a <= pool_start nums sizes base b) as Hmono.
  { intros a b Ha0 Hab. replace b with (a + (b - a)) by lia. assert (0 <= b - a) as Hd by lia. revert Hd. generalize (b - a). apply natlike_ind; [by rewrite Z.add_0_r|].
    intros j Hj IH. replace (a + Z.succ j) with (a + j + 1) by lia. rewrite pool_start_succ by lia. destruct (Hs (a + j)). specialize (Hn (a + j)). nia. }
  pose proof (Hmono (i + 1) k ltac:(lia) ltac:(lia)) as Hm. rewrite pool_start_succ in Hm by lia. destruct (Hs i). lia.
Qed.
