(* ===== verification/Pbuf.v ===== *)
(** Packet buffers, net/lwip/core/pbuf.c: chains of buffers with a count of
    references, taken from the heap (mem.c) and from two pools (memp.c).

    An address is an integer and 0 is the null pointer.  [next] is the first word
    of [struct pbuf], the word that links the free elements of a pool (Memp); the
    other members are kept by address, and the bytes of the payloads in a memory
    of their own.  The enumerations are inductive types, so that the branches for
    other values do not arise.  [LWIP_ERROR] panics, as [LWIP_ASSERT] does: its
    handler is not reached.  The loops over a chain get [fuel] rounds. *)

From S2P Require Import Prelude CString LwipMem Memp.

Inductive pbuf_layer : Type := PBUF_TRANSPORT | PBUF_IP | PBUF_LINK | PBUF_RAW.
Inductive pbuf_type : Type := PBUF_RAM | PBUF_ROM | PBUF_REF | PBUF_POOL.

#[global] Instance pbuf_type_eq_dec : EqDecision pbuf_type.
Proof. solve_decision. Defined.

(** [struct pbuf] without [next]. *)
Record pbuf : Type := mkPbuf {
  pb_payload : Z;
  pb_tot_len : Z;
  pb_len : Z;
  pb_type : pbuf_type;
  pb_flags : Z;
  pb_ref : Z;
}.

Notation ERR_OK := 0 (only parsing).

Notation PBUF_TRANSPORT_HLEN := 20 (only parsing).
Notation PBUF_IP_HLEN := 20 (only parsing).
Notation PBUF_LINK_HLEN := 14 (only parsing).
Notation PBUF_POOL_BUFSIZE := 2000 (only parsing).
Definition SIZEOF_STRUCT_PBUF : Z := LWIP_MEM_ALIGN_SIZE 24.
Definition PBUF_POOL_BUFSIZE_ALIGNED : Z := LWIP_MEM_ALIGN_SIZE PBUF_POOL_BUFSIZE.

Record pstate : Type := mkPS {
  p_heap : heap;
  p_pools : pools;
  structs : Z -> pbuf;
  pmem : cmem;
}.

Definition P (A : Type) : Type := M pstate A.

Definition liftH {A : Type} (m : H A) : P A := fun s =>
  match m (p_heap s) with
  | Ret a h => Ret a (mkPS h (p_pools s) (structs s) (pmem s))
  | NoRet h => NoRet (mkPS h (p_pools s) (structs s) (pmem s))
  | Panic e h => Panic e (mkPS h (p_pools s) (structs s) (pmem s))
  end.

Definition liftP {A : Type} (m : M pools A) : P A := fun s =>
  match m (p_pools s) with
  | Ret a h => Ret a (mkPS (p_heap s) h (structs s) (pmem s))
  | NoRet h => NoRet (mkPS (p_heap s) h (structs s) (pmem s))
  | Panic e h => Panic e (mkPS (p_heap s) h (structs s) (pmem s))
  end.

Definition pnext (s : pstate) (p : Z) : Z := link (p_pools s) p.
Definition set_pnext (p v : Z) (s : pstate) : pstate := mkPS (p_heap s) (set_link p v (p_pools s)) (structs s) (pmem s).
Definition set_struct (p : Z) (b : pbuf) (s : pstate) : pstate := mkPS (p_heap s) (p_pools s) (fset (structs s) p b) (pmem s).
Definition set_pmem (m : cmem) (s : pstate) : pstate := mkPS (p_heap s) (p_pools s) (structs s) m.

Definition set_pb_payload v b := mkPbuf v (pb_tot_len b) (pb_len b) (pb_type b) (pb_flags b) (pb_ref b).
Definition set_pb_tot_len v b := mkPbuf (pb_payload b) v (pb_len b) (pb_type b) (pb_flags b) (pb_ref b).
Definition set_pb_len v b := mkPbuf (pb_payload b) (pb_tot_len b) v (pb_type b) (pb_flags b) (pb_ref b).
Definition set_pb_type v b := mkPbuf (pb_payload b) (pb_tot_len b) (pb_len b) v (pb_flags b) (pb_ref b).
Definition set_pb_flags v b := mkPbuf (pb_payload b) (pb_tot_len b) (pb_len b) (pb_type b) v (pb_ref b).
Definition set_pb_ref v b := mkPbuf (pb_payload b) (pb_tot_len b) (pb_len b) (pb_type b) (pb_flags b) v.

Definition getp {A : Type} (p : Z) (f : pbuf -> A) : P A := gets (fun s => f (structs s p)).
Definition updp (p : Z) (f : pbuf -> pbuf) : P unit := modify (fun s => set_struct p (f (structs s p)) s).
Definition get_next (p : Z) : P Z := gets (fun s => pnext s p).
Definition put_next (p v : Z) : P unit := modify (set_pnext p v).
Definition lwip_assert (c : bool) : P unit := if c then ret tt else panic "lwIP assertion failed".
Definition MEMCPY (dst src n : Z) : P unit := modify (fun s => set_pmem (memcpy (pmem s) dst src n) s).

Section Pbuf.

(** The address of the heap's array, and the rounds of the loops. *)
Context (ram_addr : Z) (fuel : nat).

(** De-allocation of [p], by its type. *)
Definition pbuf_release (type : pbuf_type) (p : Z) : P unit :=
  match type with
  | PBUF_POOL => liftP (memp_free MEMP_PBUF_POOL p)
  | PBUF_ROM | PBUF_REF => liftP (memp_free MEMP_PBUF p)
  | PBUF_RAM => liftH (mem_free (Some (p - ram_addr)))
  end.

Definition pbuf_free_round (x : Z * Z) : P (Z * Z + Z) :=
  let '(p, count) := x in
  if negb (p =? 0) then
    let! r := getp p pb_ref in
    do! lwip_assert (0 <? r) ;;
    let ref := u16 (r - 1) in
    do! updp p (set_pb_ref ref) ;;
    if ref =? 0 then
      let! q := get_next p in
      let! type := getp p pb_type in
      do! pbuf_release type p ;;
      ret (inl (q, u8 (count + 1)))
    else ret (inl (0, count))
  else ret (inr count).

Definition pbuf_free (p : Z) : P Z :=
  do! lwip_assert (negb (p =? 0)) ;;
  loop fuel pbuf_free_round (p, 0).

Definition header_offset (layer : pbuf_layer) : Z :=
  match layer with
  | PBUF_TRANSPORT => PBUF_TRANSPORT_HLEN + PBUF_IP_HLEN + PBUF_LINK_HLEN
  | PBUF_IP => PBUF_IP_HLEN + PBUF_LINK_HLEN
  | PBUF_LINK => PBUF_LINK_HLEN
  | PBUF_RAW => 0
  end.

(** One more buffer from the pool: [p] is the head of the chain and [r] its last
    buffer. *)
Definition pbuf_alloc_round (p : Z) (x : Z * Z) : P (Z * Z + bool) :=
  let '(r, rem_len) := x in
  if 0 <? rem_len then
    let! q := liftP (memp_malloc MEMP_PBUF_POOL) in
    if q =? 0 then
      do! pbuf_free p ;;
      ret (inr false)
    else
      do! updp q (set_pb_type PBUF_POOL) ;;
      do! updp q (set_pb_flags 0) ;;
      do! put_next q 0 ;;
      do! put_next r q ;;
      do! lwip_assert (rem_len <? 0xffff) ;;
      do! updp q (set_pb_tot_len (u16 rem_len)) ;;
      let len := Z.min (u16 rem_len) PBUF_POOL_BUFSIZE_ALIGNED in
      do! updp q (set_pb_len len) ;;
      do! updp q (set_pb_payload (q + SIZEOF_STRUCT_PBUF)) ;;
      do! lwip_assert ((q + SIZEOF_STRUCT_PBUF) mod MEM_ALIGNMENT =? 0) ;;
      let! pp := getp p pb_payload in
      let! pl := getp p pb_len in
      do! lwip_assert (pp + pl <=? p + SIZEOF_STRUCT_PBUF + PBUF_POOL_BUFSIZE_ALIGNED) ;;
      do! updp q (set_pb_ref 1) ;;
      ret (inl (q, rem_len - len))
  else ret (inr true).

Definition pbuf_alloc (layer : pbuf_layer) (length : Z) (type : pbuf_type) : P Z :=
  let offset := header_offset layer in
  let finish p := do! updp p (set_pb_ref 1) ;; do! updp p (set_pb_flags 0) ;; ret p in
  match type with
  | PBUF_POOL =>
      let! p := liftP (memp_malloc MEMP_PBUF_POOL) in
      if p =? 0 then ret 0
      else
        do! updp p (set_pb_type type) ;;
        do! put_next p 0 ;;
        let pay := LWIP_MEM_ALIGN (p + (SIZEOF_STRUCT_PBUF + offset)) in
        do! updp p (set_pb_payload pay) ;;
        do! lwip_assert (pay mod MEM_ALIGNMENT =? 0) ;;
        do! updp p (set_pb_tot_len length) ;;
        let len := Z.min length (PBUF_POOL_BUFSIZE_ALIGNED - LWIP_MEM_ALIGN_SIZE offset) in
        do! updp p (set_pb_len len) ;;
        do! lwip_assert (pay + len <=? p + SIZEOF_STRUCT_PBUF + PBUF_POOL_BUFSIZE_ALIGNED) ;;
        do! updp p (set_pb_ref 1) ;;
        let! ok := loop fuel (pbuf_alloc_round p) (p, length - len) in
        if ok then finish p else ret 0
  | PBUF_RAM =>
      let! r := liftH (mem_malloc (LWIP_MEM_ALIGN_SIZE (SIZEOF_STRUCT_PBUF + offset) + LWIP_MEM_ALIGN_SIZE length)) in
      match r with
      | None => ret 0
      | Some a =>
          let p := ram_addr + a in
          let pay := LWIP_MEM_ALIGN (p + SIZEOF_STRUCT_PBUF + offset) in
          do! updp p (set_pb_payload pay) ;;
          do! updp p (fun b => set_pb_len length (set_pb_tot_len length b)) ;;
          do! put_next p 0 ;;
          do! updp p (set_pb_type type) ;;
          do! lwip_assert (pay mod MEM_ALIGNMENT =? 0) ;;
          finish p
      end
  | PBUF_ROM | PBUF_REF =>
      let! p := liftP (memp_malloc MEMP_PBUF) in
      if p =? 0 then ret 0
      else
        do! updp p (set_pb_payload 0) ;;
        do! updp p (fun b => set_pb_len length (set_pb_tot_len length b)) ;;
        do! put_next p 0 ;;
        do! updp p (set_pb_type type) ;;
        finish p
  end.

(** Step over a buffer that stays as it is. *)
Definition pbuf_realloc_round (grow : Z) (x : Z * Z) : P (Z * Z + Z * Z) :=
  let '(q, rem_len) := x in
  let! l := getp q pb_len in
  if l <? rem_len then
    do! lwip_assert (grow <? 0xffff) ;;
    do! updp q (fun b => set_pb_tot_len (u16 (pb_tot_len b + u16 grow)) b) ;;
    let! q' := get_next q in
    do! lwip_assert (negb (q' =? 0)) ;;
    ret (inl (q', u16 (rem_len - l)))
  else ret (inr (q, rem_len)).

Definition pbuf_realloc (p new_len : Z) : P unit :=
  do! lwip_assert (negb (p =? 0)) ;;
  let! tl := getp p pb_tot_len in
  if tl <=? new_len then ret tt
  else
    let grow := new_len - tl in
    let! x := loop fuel (pbuf_realloc_round grow) (p, new_len) in
    let '(q, rem_len) := x in
    let! type := getp q pb_type in
    let! l := getp q pb_len in
    let! q :=
      (if bool_decide (type = PBUF_RAM) && negb (rem_len =? l) then
         let! pay := getp q pb_payload in
         let! r := liftH (mem_realloc (q - ram_addr) (u32 (pay - q + rem_len))) in
         match r with
         | None => panic "lwIP assertion failed"
         | Some a => ret (ram_addr + a)
         end
       else ret q) in
    do! updp q (set_pb_len rem_len) ;;
    do! updp q (fun b => set_pb_tot_len (pb_len b) b) ;;
    let! n := get_next q in
    do! (if negb (n =? 0) then do! pbuf_free n ;; ret tt else ret tt) ;;
    put_next q 0.

(** The result is 1 on failure. *)
Definition pbuf_header (p header_size_increment : Z) : P Z :=
  do! lwip_assert (negb (p =? 0)) ;;
  let inc := header_size_increment in
  if inc =? 0 then ret 0
  else
    let! len := getp p pb_len in
    let increment_magnitude := if inc <? 0 then u16 (- inc) else u16 inc in
    do! (if inc <? 0 then lwip_assert (increment_magnitude <=? len) else ret tt) ;;
    let! type := getp p pb_type in
    let! payload := getp p pb_payload in
    let grown :=
      do! updp p (fun b => set_pb_len (u16 (pb_len b + inc)) b) ;;
      do! updp p (fun b => set_pb_tot_len (u16 (pb_tot_len b + inc)) b) ;;
      ret 0 in
    match type with
    | PBUF_RAM | PBUF_POOL =>
        do! updp p (set_pb_payload (payload - inc)) ;;
        if payload - inc <? p + SIZEOF_STRUCT_PBUF then
          do! updp p (set_pb_payload payload) ;;
          ret 1
        else grown
    | PBUF_REF | PBUF_ROM =>
        if (inc <? 0) && (increment_magnitude <=? len) then
          do! updp p (set_pb_payload (payload - inc)) ;;
          grown
        else ret 1
    end.

Definition pbuf_clen (p : Z) : P Z :=
  loop fuel (fun x =>
    let '(p, len) := x in
    if negb (p =? 0) then
      let! n := get_next p in
      ret (inl (n, u8 (len + 1)))
    else ret (inr len)) (p, 0).

Definition pbuf_ref (p : Z) : P unit :=
  if negb (p =? 0) then updp p (fun b => set_pb_ref (u16 (pb_ref b + 1)) b) else ret tt.

Definition pbuf_cat (h t : Z) : P unit :=
  do! lwip_assert (negb (h =? 0) && negb (t =? 0)) ;;
  let add p :=
    let! tt' := getp t pb_tot_len in
    updp p (fun b => set_pb_tot_len (u16 (pb_tot_len b + tt')) b) in
  let! p := loop fuel (fun p =>
    let! n := get_next p in
    if negb (n =? 0) then
      do! add p ;;
      ret (inl n)
    else ret (inr p)) h in
  let! tl := getp p pb_tot_len in
  let! l := getp p pb_len in
  do! lwip_assert (tl =? l) ;;
  do! add p ;;
  put_next p t.

Definition pbuf_chain (h t : Z) : P unit :=
  do! pbuf_cat h t ;;
  pbuf_ref t.

Definition pbuf_dechain (p : Z) : P Z :=
  let! q := get_next p in
  let! tail_gone :=
    (if negb (q =? 0) then
       let! qt := getp q pb_tot_len in
       let! pt := getp p pb_tot_len in
       let! pl := getp p pb_len in
       do! lwip_assert (qt =? pt - pl) ;;
       do! updp q (set_pb_tot_len (u16 (pt - pl))) ;;
       do! put_next p 0 ;;
       do! updp p (fun b => set_pb_tot_len (pb_len b) b) ;;
       pbuf_free q
     else ret 1) in
  let! pt := getp p pb_tot_len in
  let! pl := getp p pb_len in
  do! lwip_assert (pt =? pl) ;;
  ret (if 0 <? tail_gone then 0 else q).

(** A packet queue: a buffer that ends a packet and has a successor. *)
Definition not_queue (p : Z) : P unit :=
  if negb (p =? 0) then
    let! l := getp p pb_len in
    let! tl := getp p pb_tot_len in
    let! n := get_next p in
    if l =? tl then lwip_assert (n =? 0) else ret tt
  else ret tt.

Definition pbuf_copy_round (x : Z * Z * Z * Z) : P (Z * Z * Z * Z + Z) :=
  let '(p_to, p_from, offset_to, offset_from) := x in
  do! lwip_assert (negb (p_to =? 0)) ;;
  let! tl := getp p_to pb_len in
  let! fl := getp p_from pb_len in
  let len := u16 (if fl - offset_from <=? tl - offset_to then fl - offset_from else tl - offset_to) in
  let! tp := getp p_to pb_payload in
  let! fp := getp p_from pb_payload in
  do! MEMCPY (tp + offset_to) (fp + offset_from) len ;;
  let offset_to := u16 (offset_to + len) in
  let offset_from := u16 (offset_from + len) in
  do! lwip_assert (offset_to <=? tl) ;;
  let! t2 := (if offset_to =? tl then let! n := get_next p_to in ret (0, n) else ret (offset_to, p_to)) in
  let '(offset_to, p_to) := t2 in
  do! lwip_assert (offset_from <=? fl) ;;
  let! f2 := (if fl <=? offset_from then let! n := get_next p_from in ret (0, n) else ret (offset_from, p_from)) in
  let '(offset_from, p_from) := f2 in
  do! not_queue p_from ;;
  do! not_queue p_to ;;
  if negb (p_from =? 0) then ret (inl (p_to, p_from, offset_to, offset_from)) else ret (inr ERR_OK).

Definition pbuf_copy (p_to p_from : Z) : P Z :=
  do! lwip_assert (negb (p_to =? 0)) ;;
  do! lwip_assert (negb (p_from =? 0)) ;;
  let! tt' := getp p_to pb_tot_len in
  let! ft := getp p_from pb_tot_len in
  do! lwip_assert (ft <=? tt') ;;
  loop fuel pbuf_copy_round (p_to, p_from, 0, 0).

Definition pbuf_copy_partial_round (dataptr : Z) (x : Z * Z * Z * Z * Z) : P (Z * Z * Z * Z * Z + Z) :=
  let '(p, lft, len, offset, copied_total) := x in
  if negb (len =? 0) && negb (p =? 0) then
    let! pl := getp p pb_len in
    let! n := get_next p in
    if negb (offset =? 0) && (pl <=? offset) then ret (inl (n, lft, len, u16 (offset - pl), copied_total))
    else
      let buf_copy_len := u16 (pl - offset) in
      let buf_copy_len := if len <? buf_copy_len then len else buf_copy_len in
      let! pay := getp p pb_payload in
      do! MEMCPY (dataptr + lft) (pay + offset) buf_copy_len ;;
      ret (inl (n, u16 (lft + buf_copy_len), u16 (len - buf_copy_len), 0, u16 (copied_total + buf_copy_len)))
  else ret (inr copied_total).

Definition pbuf_copy_partial (buf dataptr len offset : Z) : P Z :=
  do! lwip_assert (negb (buf =? 0)) ;;
  do! lwip_assert (negb (dataptr =? 0)) ;;
  loop fuel (pbuf_copy_partial_round dataptr) (buf, 0, len, offset, 0).
End Pbuf.
