(* ===== verification/PbufOps.v ===== *)
(** The bytes of a packet: [pbuf_copy] and [pbuf_copy_partial] move them whatever
    the lengths of the buffers are. *)

From S2P Require Import Prelude CString LwipMem LwipMemProps LwipRegions Memp Pbuf PbufProps.

(** The addresses of the bytes of a packet, in order. *)
Definition addrs (s : pstate) (l : list Z) : list Z := concat ((fun x => seqZ (pb_payload (structs s x)) (pb_len (structs s x))) <$> l).

Definition contents (s : pstate) (l : list Z) : list Z := pmem s <$> addrs s l.

(** Every buffer has bytes. *)
Definition filled (s : pstate) (l : list Z) : Prop := Forall (fun x => 0 < pb_len (structs s x) < 2 ^ 16) l.

Lemma addrs_length s l : forall p n, packet s p l n 0 -> len (addrs s l) = n.
Proof.
  induction l as [|x l IH]; intros p n H; cbn in *; [lia|]. destruct H as (_ & _ & _ & H1 & H2). apply IH in H2. unfold addrs in *. cbn [fmap list_fmap concat].
  rewrite length_app, length_seqZ. lia.
Qed.

Lemma packet_mem s m p l n rem : packet s p l n rem -> packet (set_pmem m s) p l n rem.
Proof. apply packet_frame. done. Qed.

(** The end of a packet of which every buffer has bytes. *)
Lemma filled_nil s p l n : packet s p l n 0 -> filled s l -> n = 0 -> l = [] /\ p = 0.
Proof.
  intros HP Hf Hn. destruct l as [|x l]; [by destruct HP|]. destruct HP as (_ & _ & _ & _ & HP). apply Forall_cons in Hf as [Hx _].
  apply addrs_length in HP. lia.
Qed.

(** ** Copying runs of bytes *)

(** [m'] is [m] after the bytes at [bs] were copied, in order, to [ds]. *)
Definition copied (ds bs : list Z) (m m' : cmem) : Prop :=
  (forall i d b, ds !! i = Some d -> bs !! i = Some b -> m' d = m b) /\ (forall a, a ∉ take (length bs) ds -> m' a = m a).

Lemma copied_nil ds m : copied ds [] m m.
Proof. split; [|done]. intros i d b _ Hb. by rewrite lookup_nil in Hb. Qed.

(** A block, and then the rest. *)
Lemma copied_block d b k ds bs m m' : 0 <= k -> NoDup (seqZ d k ++ ds) -> (forall x, x ∈ seqZ d k ++ ds -> x ∉ seqZ b k ++ bs) ->
  (length bs <= length ds)%nat -> copied ds bs (memcpy m d b k) m' -> copied (seqZ d k ++ ds) (seqZ b k ++ bs) m m'.
Proof.
  intros Hk Hnd Hdis Hle [H1 H2]. apply NoDup_app in Hnd as (_ & Hnd & _). assert (forall x, memcpy m d b k x = if decide (d <= x < d + k) then m (b + (x - d)) else m x) as Hm.
  { intros x. by apply memmove_copied. }
  assert (forall x, x ∈ seqZ d k -> x ∉ take (length bs) ds) as Hsep.
  { intros x Hx Hin. apply (Hnd x Hx). by apply (subseteq_take (length bs)). }
  split.
  - intros i x y Hx Hy. apply lookup_app_Some in Hx as [Hx|[Hlx Hx]]; apply lookup_app_Some in Hy as [Hy|[Hly Hy]].
    + apply lookup_seqZ in Hx as Hx'. apply lookup_seqZ in Hy as Hy'. rewrite H2 by (apply Hsep; by eapply list_elem_of_lookup_2). rewrite Hm, decide_True by lia. f_equal. lia.
    + apply lookup_lt_Some in Hx. rewrite !length_seqZ in *. lia.
    + apply lookup_lt_Some in Hy. rewrite !length_seqZ in *. lia.
    + rewrite !length_seqZ in *. rewrite (H1 _ _ _ Hx Hy), Hm, decide_False; [done|]. intros Hr. apply list_elem_of_lookup_2 in Hy. apply (Hdis y).
      * apply elem_of_app. left. apply elem_of_seqZ. lia.
      * apply elem_of_app. by right.
  - intros a Ha. rewrite length_app, !length_seqZ in Ha. rewrite take_app_add' in Ha by (by rewrite length_seqZ). apply not_elem_of_app in Ha as [Ha1 Ha2].
    rewrite H2 by done. rewrite Hm, decide_False; [done|]. intros Hr. apply Ha1. apply elem_of_seqZ. lia.
Qed.

(** ** [pbuf_copy] *)

(** The bytes from offset [o] of the first buffer on. *)
Definition rest (s : pstate) (l : list Z) (o : Z) : list Z := drop (Z.to_nat o) (addrs s l).

(** A place in a packet: the buffers from it on, and the offset in the first one. *)
Definition place (s : pstate) (p : Z) (l : list Z) (o : Z) : Prop :=
  (exists n, packet s p l n 0) /\ filled s l /\ match l with [] => o = 0 | x :: _ => 0 <= o < pb_len (structs s x) end.

(** The place [k] bytes further, at most at the end of the first buffer. *)
Definition advance (s : pstate) (x : Z) (l : list Z) (o k : Z) : Z * Z * list Z :=
  if o + k =? pb_len (structs s x) then (0, pnext s x, l) else (o + k, x, x :: l).

Lemma rest_split s x l o k : 0 <= o -> 0 <= k -> o + k <= pb_len (structs s x) ->
  rest s (x :: l) o = seqZ (pb_payload (structs s x) + o) k ++ rest s (x :: l) (o + k).
Proof.
  intros Ho Hk Hle. unfold rest, addrs. cbn [fmap list_fmap concat]. set (b := structs s x) in *. replace (pb_len b) with (o + (k + (pb_len b - o - k))) by lia.
  rewrite seqZ_app, <- !app_assoc by lia. rewrite (drop_app_length' (seqZ _ o)) by (rewrite length_seqZ; lia). rewrite seqZ_app, <- app_assoc by lia. f_equal.
  rewrite app_assoc, drop_app_length'; [done|]. rewrite length_app, !length_seqZ. lia.
Qed.

Lemma advance_place s x l o k : place s x (x :: l) o -> 0 < k -> o + k <= pb_len (structs s x) ->
  let '(o', p', l') := advance s x l o k in place s p' l' o' /\ rest s l' o' = rest s (x :: l) (o + k) /\ (length l' <= S (length l))%nat /\ (o + k = pb_len (structs s x) -> l' = l).
Proof.
  intros ((n & HP) & Hf & Ho) Hk Hle. unfold advance. destruct (Z.eqb_spec (o + k) (pb_len (structs s x))) as [E|E].
  - pose proof HP as (_ & _ & _ & _ & HP'). apply Forall_cons in Hf as [_ Hf]. split; [split; [by eexists|]; split; [done|]|].
    + destruct l as [|y l]; [done|]. apply Forall_cons in Hf as [Hf _]. lia.
    + split; [|split; [lia|done]]. unfold rest, addrs. cbn [fmap list_fmap concat]. rewrite E, (drop_app_length' (seqZ _ _)) by (rewrite length_seqZ; lia). done.
  - split; [split; [by eexists|]; split; [done|lia]|]. split; [done|]. split; [cbn; lia|lia].
Qed.

Lemma not_queue_run s p l o : place s p l o -> not_queue p s = Ret tt s.
Proof.
  intros ((n & HP) & Hf & _). unfold not_queue, getp, get_next. destruct l as [|x l]; [by destruct HP as [-> _]|]. destruct HP as (-> & Hx & H1 & H2 & HP).
  destruct (Z.eqb_spec x 0); [done|]. cbn [negb]. msteps. destruct (Z.eqb_spec (pb_len (structs s x)) (pb_tot_len (structs s x))) as [E|E]; [|done].
  apply Forall_cons in Hf as [_ Hf]. apply filled_nil in HP as [_ ->]; [done|done|lia].
Qed.

Lemma place_mem s m p l o : place s p l o -> place (set_pmem m s) p l o.
Proof. intros ((n & HP) & Hf & Ho). split; [exists n; by apply packet_mem|done]. Qed.

Lemma place_zero s p l o : place s p l o -> (p =? 0) = bool_decide (l = []).
Proof.
  intros ((n & HP) & _ & _). destruct l as [|x l]; [by destruct HP as [-> _]|]. destruct HP as (-> & Hx & _). rewrite bool_decide_false by done. by apply Z.eqb_neq.
Qed.

Lemma pbuf_copy_round_run s x lt y lf ot fo : place s x (x :: lt) ot -> place s y (y :: lf) fo ->
  let k := Z.min (pb_len (structs s y) - fo) (pb_len (structs s x) - ot) in
  let '(ot', pt', lt') := advance s x lt ot k in
  let '(fo', pf', lf') := advance s y lf fo k in
  pbuf_copy_round (x, y, ot, fo) s =
    Ret (if bool_decide (lf' = []) then inr ERR_OK else inl (pt', pf', ot', fo'))
      (set_pmem (memcpy (pmem s) (pb_payload (structs s x) + ot) (pb_payload (structs s y) + fo) k) s).
Proof.
  intros Pt Pf k. pose proof Pt as ((nt & _ & Hx & _) & Ft & Ot). pose proof Pf as ((nf & _ & Hy & _) & Ff & Of). apply Forall_cons in Ft as [Ft _]. apply Forall_cons in Ff as [Ff _].
  assert (0 < k) as Hk by lia. pose proof (advance_place s x lt ot k Pt Hk ltac:(lia)) as At. pose proof (advance_place s y lf fo k Pf Hk ltac:(lia)) as Af.
  unfold pbuf_copy_round. destruct (Z.eqb_spec x 0); [done|]. cbn [negb lwip_assert]. unfold getp, MEMCPY, get_next. msteps.
  set (tl := pb_len (structs s x)) in *. set (fl := pb_len (structs s y)) in *.
  assert ((if fl - fo <=? tl - ot then fl - fo else tl - ot) = k) as -> by (destruct (Z.leb_spec (fl - fo) (tl - ot)); lia).
  rewrite (u16_small k), (u16_small (ot + k)), (u16_small (fo + k)) by lia. set (m := memcpy _ _ _ _). set (s1 := set_pmem m s).
  destruct (Z.leb_spec (ot + k) tl); [|lia]. cbn [lwip_assert]. msteps.
  unfold advance in At, Af |- *. fold tl in At |- *. fold fl in Af |- *. change (pnext s1) with (pnext s).
  assert ((fl <=? fo + k) = (fo + k =? fl)) as -> by (destruct (Z.leb_spec fl (fo + k)), (Z.eqb_spec (fo + k) fl); lia).
  destruct (Z.leb_spec (fo + k) fl); [|lia]. cbn [lwip_assert].
  destruct (ot + k =? tl), (fo + k =? fl); msteps; change (pnext s1) with (pnext s); destruct At as (Pt' & _), Af as (Pf' & _);
    rewrite (bind_Ret _ _ _ _ _ (not_queue_run s1 _ _ _ (place_mem _ m _ _ _ Pf'))), (bind_Ret _ _ _ _ _ (not_queue_run s1 _ _ _ (place_mem _ m _ _ _ Pt')));
    rewrite (place_zero _ _ _ _ Pf'); by destruct (bool_decide _).
Qed.

Lemma pbuf_copy_loop : forall f s pt lt ot pf lf fo, place s pt lt ot -> place s pf lf fo -> lf <> [] -> (length (rest s lf fo) <= length (rest s lt ot))%nat ->
  NoDup (rest s lt ot) -> (forall a, a ∈ rest s lt ot -> a ∉ rest s lf fo) -> (length lt + length lf < f)%nat ->
  exists m', loop f pbuf_copy_round (pt, pf, ot, fo) s = Ret ERR_OK (set_pmem m' s) /\ copied (rest s lt ot) (rest s lf fo) (pmem s) m'.
Proof.
  induction f as [|f IH]; intros s pt lt ot pf lf fo Pt Pf Hlf Hle Hnd Hdis Hf; [lia|]. destruct lf as [|y lf]; [done|].
  destruct lt as [|x lt].
  { exfalso. destruct Pf as (_ & Ff & Of). apply Forall_cons in Ff as [Ff _]. rewrite (rest_split s y lf fo (pb_len (structs s y) - fo)) in Hle by lia.
    rewrite length_app, length_seqZ in Hle. unfold rest in Hle at 2. cbn in Hle. rewrite drop_nil in Hle. cbn in Hle. lia. }
  assert (pt = x) as -> by (by destruct Pt as ((? & -> & _) & _)). assert (pf = y) as -> by (by destruct Pf as ((? & -> & _) & _)).
  set (k := Z.min (pb_len (structs s y) - fo) (pb_len (structs s x) - ot)).
  assert (0 < k /\ 0 <= ot /\ 0 <= fo /\ ot + k <= pb_len (structs s x) /\ fo + k <= pb_len (structs s y)) as (Hk & Hot & Hof & Kt & Kf).
  { destruct Pt as (_ & _ & Ot), Pf as (_ & _ & Of). lia. }
  pose proof (pbuf_copy_round_run s x lt y lf ot fo Pt Pf) as HR. cbv zeta in HR. fold k in HR.
  pose proof (advance_place s x lt ot k Pt Hk Kt) as At. pose proof (advance_place s y lf fo k Pf Hk Kf) as Af.
  destruct (advance s x lt ot k) as [[ot' pt'] lt']. destruct (advance s y lf fo k) as [[fo' pf'] lf']. destruct At as (Pt' & Rt & Lt & Et), Af as (Pf' & Rf & Lf & Ef).
  cbn [loop]. mrun HR. set (m1 := memcpy _ _ _ _). rewrite (rest_split s x lt ot k), (rest_split s y lf fo k) in * by lia. rewrite <- Rt, <- Rf in *.
  rewrite !length_app, !length_seqZ in Hle. destruct (bool_decide_reflect (lf' = [])) as [->|Hne].
  - msteps. exists m1. split; [done|]. apply copied_block; [lia|done|done|lia|]. unfold rest at 2. cbn. rewrite drop_nil. apply copied_nil.
  - assert (ot + k = pb_len (structs s x) \/ fo + k = pb_len (structs s y)) as Hend by lia.
    destruct (IH (set_pmem m1 s) pt' lt' ot' pf' lf' fo') as (m' & Hrun & Hc); try done; [by apply place_mem|by apply place_mem| | | | |].
    + change (rest (set_pmem m1 s)) with (rest s). lia.
    + change (rest (set_pmem m1 s)) with (rest s). apply NoDup_app in Hnd. tauto.
    + change (rest (set_pmem m1 s)) with (rest s). intros a Ha Hb. apply (Hdis a); apply elem_of_app; by right.
    + cbn [length] in Hf. destruct Hend as [He|He]; [rewrite (Et He) in *|rewrite (Ef He) in *]; lia.
    + exists m'. split; [exact Hrun|]. apply copied_block; [lia|done|done|lia|exact Hc].
Qed.

Lemma copied_contents ds bs m m' : (length bs <= length ds)%nat -> (forall a, a ∈ ds -> a ∉ bs) -> copied ds bs m m' -> NoDup ds ->
  take (length bs) (m' <$> ds) = m <$> bs /\ drop (length bs) (m' <$> ds) = drop (length bs) (m <$> ds) /\ m' <$> bs = m <$> bs.
Proof.
  intros Hle Hdis [H1 H2] Hnd. split_ands.
  - apply list_eq. intros i. destruct (decide (i < length bs)%nat) as [Hi|Hi].
    + destruct (lookup_lt_is_Some_2 bs i Hi) as [b Hb]. destruct (lookup_lt_is_Some_2 ds i ltac:(lia)) as [d Hd].
      rewrite lookup_take_lt by done. rewrite !list_lookup_fmap, Hb, Hd. cbn. f_equal. by eapply H1.
    + rewrite lookup_take_ge, list_lookup_fmap, lookup_ge_None_2 by lia. done.
  - rewrite <- !fmap_drop. apply list_fmap_ext. intros i d Hd. apply H2. intros Hin. rewrite <- (take_drop (length bs) ds) in Hnd. apply NoDup_app in Hnd as (_ & Hnd & _).
    apply (Hnd d Hin). by eapply list_elem_of_lookup_2.
  - apply list_fmap_ext. intros i b Hb. apply H2. intros Hin. apply subseteq_take in Hin. apply (Hdis b Hin). by eapply list_elem_of_lookup_2.
Qed.

Lemma pbuf_copy_run fuel s p_to p_from lt lf nt nf : packet s p_to lt nt 0 -> packet s p_from lf nf 0 -> filled s lt -> filled s lf -> lf <> [] -> nf <= nt ->
  NoDup (addrs s lt) -> (forall a, a ∈ addrs s lt -> a ∉ addrs s lf) -> (length lt + length lf < fuel)%nat ->
  exists m', pbuf_copy fuel p_to p_from s = Ret ERR_OK (set_pmem m' s) /\ copied (addrs s lt) (addrs s lf) (pmem s) m'.
Proof.
  intros Pt Pf Ft Ff Hlf Hn Hnd Hdis Hfu. pose proof (addrs_length _ _ _ _ Pt) as At. pose proof (addrs_length _ _ _ _ Pf) as Af.
  assert (place s p_to lt 0) as Lt by (split; [by exists nt|]; split; [done|]; destruct lt; [done|]; apply Forall_cons in Ft as [Ft _]; lia).
  assert (place s p_from lf 0) as Lf by (split; [by exists nf|]; split; [done|]; destruct lf; [done|]; apply Forall_cons in Ff as [Ff _]; lia).
  assert (lt <> []) as Hlt. { intros ->. destruct Pt as [_ ->]. destruct lf as [|y lf]; [done|]. destruct (filled_nil s p_from (y :: lf) nf) as [? _]; try done. lia. }
  unfold pbuf_copy. rewrite (place_zero _ _ _ _ Lt), (place_zero _ _ _ _ Lf), !bool_decide_false by done. cbn [negb lwip_assert]. unfold getp. msteps.
  destruct lt as [|x lt]; [done|]. destruct lf as [|y lf]; [done|]. pose proof Pt as (-> & _ & -> & _). pose proof Pf as (-> & _ & -> & _).
  destruct (Z.leb_spec nf nt); [|lia]. cbn [lwip_assert]. msteps. apply (pbuf_copy_loop fuel s x (x :: lt) 0 y (y :: lf) 0); try done. unfold rest. rewrite !drop_0. lia.
Qed.

(** ** [pbuf_copy_partial] *)

(** The bytes from [offset] on, when that is in the first buffer. *)
Lemma take_first pay pl offset A c : 0 <= offset <= pl -> 0 <= c ->
  take (Z.to_nat c) (drop (Z.to_nat offset) (seqZ pay pl ++ A)) = seqZ (pay + offset) (Z.min c (pl - offset)) ++ take (Z.to_nat (c - Z.min c (pl - offset))) A.
Proof.
  intros Ho Hc. replace pl with (offset + (pl - offset)) at 1 by lia. rewrite seqZ_app, <- app_assoc, drop_app_length' by (rewrite ?length_seqZ; lia).
  destruct (Z.le_gt_cases c (pl - offset)).
  - rewrite Z.min_l, Z.sub_diag by done. cbn. rewrite app_nil_r. rewrite take_app_le by (rewrite length_seqZ; lia).
    replace (pl - offset) with (c + (pl - offset - c)) by lia. rewrite seqZ_app by lia. rewrite take_app_length' by (rewrite length_seqZ; lia). done.
  - rewrite Z.min_r by lia. rewrite take_app_ge, length_seqZ by (rewrite length_seqZ; lia). do 2 f_equal. lia.
Qed.

Lemma copy_partial_loop dataptr l : forall f s p n lft k offset, packet s p l n 0 -> n < 2 ^ 16 ->
  0 <= lft -> 0 <= k -> lft + k < 2 ^ 16 -> 0 <= offset < 2 ^ 16 -> (forall a, a ∈ addrs s l -> ~ (dataptr <= a < dataptr + lft + k)) -> (length l < f)%nat ->
  let c := Z.min k (Z.max 0 (n - offset)) in
  exists m', loop f (pbuf_copy_partial_round dataptr) (p, lft, k, offset, lft) s = Ret (lft + c) (set_pmem m' s) /\
    copied (seqZ (dataptr + lft) c) (take (Z.to_nat c) (drop (Z.to_nat offset) (addrs s l))) (pmem s) m'.
Proof.
  induction l as [|x l IH]; intros f s p n lft k offset HP Hn H1 H2 H3 H4 Hdis Hf c; (destruct f as [|f]; [cbn in Hf; lia|]); cbn [loop length] in *; unfold pbuf_copy_partial_round at 1.
  { destruct HP as [-> ->]. assert (c = 0) as -> by lia. rewrite andb_false_r. msteps. exists (pmem s). split; [destruct s; f_equal; lia|]. cbn. apply copied_nil. }
  destruct (Z.eqb_spec k 0) as [Hk|Hk].
  { assert (c = 0) as -> by lia. cbn [negb andb]. msteps. exists (pmem s). split; [destruct s; f_equal; lia|]. cbn. apply copied_nil. }
  destruct HP as (-> & Hx & _ & Hpl & HP). pose proof (addrs_length _ _ _ _ HP) as HA. destruct (Z.eqb_spec x 0); [done|]. cbn [negb andb]. unfold getp, get_next, MEMCPY. msteps.
  set (pl := pb_len (structs s x)) in *. set (pay := pb_payload (structs s x)). assert (addrs s (x :: l) = seqZ pay pl ++ addrs s l) as EA by done. rewrite EA in *.
  assert (forall a, a ∈ addrs s l -> ~ (dataptr <= a < dataptr + lft + k)) as Hdis' by (intros a Ha; apply Hdis, elem_of_app; by right).
  destruct (negb (offset =? 0) && (pl <=? offset)) eqn:Eo; msteps.
  - apply andb_true_iff in Eo as [_ Eo%Z.leb_le]. rewrite u16_small by lia. destruct (IH f s (pnext s x) (n - pl) lft k (offset - pl)) as (m' & Hrun & Hc); try done; [lia..|].
    replace (n - pl - (offset - pl)) with (n - offset) in * by lia. exists m'. split; [exact Hrun|]. rewrite drop_app_ge, length_seqZ by (rewrite length_seqZ; lia).
    replace (Z.to_nat offset - Z.to_nat pl)%nat with (Z.to_nat (offset - pl)) by lia. exact Hc.
  - assert (offset <= pl) as Hop. { apply andb_false_iff in Eo as [Eo|Eo]; [apply negb_false_iff, Z.eqb_eq in Eo|apply Z.leb_gt in Eo]; lia. }
    rewrite (u16_small (pl - offset)) by lia. set (bc := if k <? pl - offset then k else pl - offset). assert (bc = Z.min k (pl - offset)) as Ebc by (unfold bc; destruct (Z.ltb_spec k (pl - offset)); lia).
    clearbody bc. rewrite !u16_small by lia. set (m1 := memcpy _ _ _ _).
    destruct (IH f (set_pmem m1 s) (pnext s x) (n - pl) (lft + bc) (k - bc) 0) as (m' & Hrun & Hc); try lia; [by apply packet_mem|intros a Ha; specialize (Hdis' a Ha); lia|].
    exists m'. rewrite Hrun. split; [f_equal; lia|]. rewrite take_first by lia. set (c' := Z.min (k - bc) (Z.max 0 (n - pl - 0))) in *.
    replace (Z.min c (pl - offset)) with bc by lia. replace (c - bc) with c' by lia. replace c with (bc + c') by lia. rewrite seqZ_app by lia.
    change (addrs (set_pmem m1 s) l) with (addrs s l) in Hc. rewrite drop_0, Z.add_assoc in Hc. apply copied_block; [lia|..|exact Hc].
    + rewrite <- seqZ_app by lia. apply NoDup_seqZ.
    + rewrite <- seqZ_app by lia. intros a Ha Hin. apply elem_of_seqZ in Ha. apply (Hdis a); [|lia]. apply elem_of_app in Hin as [Hin|Hin]; apply elem_of_app.
      * left. apply elem_of_seqZ in Hin. apply elem_of_seqZ. lia.
      * right. by apply subseteq_take in Hin.
    + rewrite length_take, length_seqZ. lia.
Qed.

(** ** [pbuf_realloc] *)

Section Realloc.
Context (ram_addr : Z) (E_pbuf E_pool : list Z).

(** The buffers that stay: only their total lengths change. *)
Definition retotal (s s' : pstate) : Prop :=
  (forall x, structs s' x = set_pb_tot_len (pb_tot_len (structs s' x)) (structs s x)) /\ p_heap s' = p_heap s /\ p_pools s' = p_pools s /\ pmem s' = pmem s.

Lemma realloc_loop_run g l : forall f s p n rem, packet s p l n 0 -> n < 2 ^ 16 -> 0 <= rem -> g = rem - n -> g < 0 -> (length l < f)%nat ->
  exists l1 q l2 r s', loop f (pbuf_realloc_round g) (p, rem) s = Ret (q, r) s' /\ l = l1 ++ q :: l2 /\ 0 <= r <= pb_len (structs s q) /\ retotal s s' /\
    (forall x, x ∉ l1 -> structs s' x = structs s x) /\ len (addrs s l1) + r = rem /\
    forall s2, (forall x, x ∈ l1 -> structs s2 x = structs s' x /\ pnext s2 x = pnext s x) -> packet s2 q [q] r 0 -> packet s2 p (l1 ++ [q]) rem 0.
Proof.
  induction l as [|x l IH]; intros f s p n rem HP Hn Hr Hg Hg0 Hf; [destruct HP; lia|]. destruct f as [|f]; [cbn in Hf; lia|]. cbn [loop length] in *.
  pose proof (chain_nodup _ _ _ (packet_chain _ _ _ _ _ HP)) as Hnd. apply NoDup_cons in Hnd as [Hnx _]. destruct HP as (-> & Hx & Ht & Hl & HP). pose proof (addrs_length _ _ _ _ HP) as HA.
  unfold pbuf_realloc_round at 1, getp, updp, get_next. msteps. destruct (Z.ltb_spec (pb_len (structs s x)) rem) as [Hlt|Hge].
  - destruct (Z.ltb_spec g 0xffff); [|lia]. cbn [lwip_assert]. msteps. change (pnext (set_struct _ _ _) x) with (pnext s x).
    assert (u16 (pb_tot_len (structs s x) + u16 g) = n + g) as Eu.
    { unfold u16. rewrite Zplus_mod_idemp_r, Z.mod_small by lia. lia. }
    rewrite Eu. set (s1 := set_struct x _ s). assert (pnext s x <> 0) as Hnext.
    { destruct l as [|y l]; [destruct HP as [_ HP]; lia|]. by destruct HP as (-> & ? & _). }
    destruct (Z.eqb_spec (pnext s x) 0); [done|]. cbn [negb lwip_assert]. msteps. rewrite u16_small by lia.
    assert (forall y, y <> x -> structs s1 y = structs s y) as Hs1 by (intros y Hy; cbn; by rewrite fset_ne).
    assert (structs s1 x = set_pb_tot_len (n + g) (structs s x)) as Hs1x by (cbn; by rewrite fset_eq).
    destruct (IH f s1 (pnext s x) (n - pb_len (structs s x)) (rem - pb_len (structs s x))) as (l1 & q & l2 & r & s' & Hrun & -> & Hrq & [R1 (R2 & R3 & R4)] & Hsame & Hlen & Hpk); [|lia..|].
    { apply (packet_frame s); [|done]. intros y Hy. rewrite Hs1; [done|]. intros ->. done. }
    assert (x ∉ l1 /\ x <> q) as [Hx1 Hxq] by (split; [intros Hin; apply Hnx; set_solver|intros ->; apply Hnx; set_solver]). assert (structs s' x = structs s1 x) as Hsx by (by apply Hsame).
    exists (x :: l1), q, l2, r, s'. split; [exact Hrun|]. split; [done|]. split; [rewrite <- Hs1 by done; done|]. split_ands.
    + split; [|done]. intros y. destruct (Z.eq_dec y x) as [->|Hy]; [by rewrite Hsx, Hs1x|]. rewrite R1 at 1. by rewrite Hs1.
    + intros y Hy. apply not_elem_of_cons in Hy as [Hy1 Hy2]. rewrite Hsame by done. by apply Hs1.
    + change (addrs s (x :: l1)) with (seqZ (pb_payload (structs s x)) (pb_len (structs s x)) ++ addrs s l1). rewrite length_app, length_seqZ.
      assert (addrs s1 l1 = addrs s l1) as EA. { unfold addrs. f_equal. apply list_fmap_ext. intros i y Hy. rewrite Hs1; [done|]. intros ->. apply Hx1. by eapply list_elem_of_lookup_2. }
      rewrite EA in Hlen. lia.
    + intros s2 H2 Hq. destruct (H2 x ltac:(by left)) as [G1 G2]. cbn [app packet]. rewrite G1, G2, Hsx, Hs1x. cbn. split_ands; try done; [lia|].
      apply Hpk; [|done]. intros y Hy. apply H2. by right.
  - msteps. exists [], x, l, rem, s. split; [done|]. split_ands; try done. split; [|done]. intros y. by destruct (structs s y).
Qed.

Context (Hlayout : layout ram_addr E_pbuf E_pool) (fuel : nat).

Lemma live_not_free a s q : wf ram_addr E_pbuf E_pool a s -> q ∈ live a -> q ∉ free_pbuf a ++ free_pool a.
Proof using Hlayout.
  intros [W1 W2 W3 (W4 & W5 & W6 & W7) W8 W9] Hq. destruct (W9 q Hq) as (_ & _ & _ & Hh). rewrite elem_of_app. intros Hin.
  destruct (pb_type (structs s q)).
  - destruct Hh as (m & Hm & _). apply (mem_rep_range _ _ _ _ W1) in Hm. destruct (lay_apart _ _ _ Hlayout q); [destruct Hin; auto|lia].
  - destruct Hh as [H1 H2]. destruct Hin as [Hin|Hin]; [done|]. by apply (lay_pools _ _ _ Hlayout q), W5.
  - destruct Hh as [H1 H2]. destruct Hin as [Hin|Hin]; [done|]. by apply (lay_pools _ _ _ Hlayout q), W5.
  - destruct Hh as (H1 & H2 & _). destruct Hin as [Hin|Hin]; [|done]. apply (lay_pools _ _ _ Hlayout q); auto.
Qed.

Lemma wf_put_next a s q v : wf ram_addr E_pbuf E_pool a s -> q ∈ live a -> wf ram_addr E_pbuf E_pool a (set_pnext q v s).
Proof using Hlayout.
  intros Hw Hq. pose proof (live_not_free a s q Hw Hq) as Hn. apply not_elem_of_app in Hn as [N1 N2]. destruct Hw as [W1 W2 W3 W4 W5 W6].
  assert (forall l t, q ∉ l -> pool_rep (p_pools s) t l -> pool_rep (set_link q v (p_pools s)) t l) as Hfr.
  { intros l t Hl. apply free_list_frame. intros x Hx. cbn. apply fset_ne. intros ->. done. }
  split; try done; cbn; by apply Hfr.
Qed.

Lemma wf_retotal a s s' : wf ram_addr E_pbuf E_pool a s -> retotal s s' -> wf ram_addr E_pbuf E_pool a s'.
Proof.
  intros [W1 W2 W3 W4 W5 W6] (R1 & R2 & R3 & _). split; try done; rewrite ?R2, ?R3; try done. intros x Hx. specialize (W6 x Hx). rewrite R1. exact W6.
Qed.

(** Whoever owns them, the same buffers, with regions that may have shrunk. *)
Definition same_owners (a a' : owners) : Prop :=
  live a' = live a /\ free_pbuf a' = free_pbuf a /\ free_pool a' = free_pool a /\ (regions a').*1 ≡ₚ (regions a).*1.

(** The memory of the new last buffer. *)
Lemma shrink_region a s q r : wf ram_addr E_pbuf E_pool a s -> q ∈ live a -> 0 <= r <= pb_len (structs s q) -> r < 2 ^ 16 ->
  exists a' h', (if bool_decide (pb_type (structs s q) = PBUF_RAM) && negb (r =? pb_len (structs s q)) then
      let! pay := getp q pb_payload in
      let! r := liftH (mem_realloc (q - ram_addr) (u32 (pay - q + r))) in
      match r with None => panic "lwIP assertion failed" | Some a => ret (ram_addr + a) end
    else ret q) s = Ret q (mkPS h' (p_pools s) (structs s) (pmem s)) /\ same_owners a a' /\
    forall s2, p_heap s2 = h' -> p_pools s2 = p_pools s -> (forall y, y <> q -> structs s2 y = structs s y) ->
      structs s2 q = set_pb_tot_len r (set_pb_len r (structs s q)) -> wf ram_addr E_pbuf E_pool a' s2.
Proof using Hlayout.
  intros Hw Hq Hr Hr16. pose proof Hw as [W1 W2 W3 W4 W5 W6]. destruct (W6 q Hq) as (H0 & H4 & [Hr1 Hr2] & Hh). destruct (bool_decide_reflect (pb_type (structs s q) = PBUF_RAM)) as [Ety|Ety]; cbn [andb].
  1: destruct (Z.eqb_spec r (pb_len (structs s q))) as [Er|Er]; cbn [negb].
  2: { rewrite Ety in Hh. destruct Hh as (m & Hm & Hp1 & Hp2). destruct (mem_rep_range _ _ _ _ W1 Hm) as (M1 & M2 & M3 & M4). pose proof (proj1 (elem_of_Permutation _ _) Hm) as [R HR].
    assert (heap_size = 2228224) as Hhs by done. rewrite HR in W1.
    destruct (mem_rep_realloc R (p_heap s) (q - ram_addr) m (pb_payload (structs s q) - q + r) W1) as (h' & m' & Hrun & Hm' & Hrep); [lia..|].
    exists (mkOwn ((q - ram_addr, m') :: R) (free_pbuf a) (free_pool a) (live a)), h'. split; [|split; [unfold same_owners; cbn [regions live free_pbuf free_pool]; split_ands; try done; by rewrite HR|]].
    - unfold getp. msteps. rewrite u32_small by lia. rewrite (bind_Ret _ _ _ _ _ (liftH_Ret _ _ _ _ Hrun)). unfold ret. f_equal. lia.
    - intros s2 S1 S2 S3 S4. split; cbn; rewrite ?S1, ?S2; try done. intros y Hy. destruct (Z.eq_dec y q) as [->|Hne].
      + rewrite S4. unfold home. cbn. rewrite Ety. split_ands; try done. exists m'. split_ands; [by left|lia|lia].
      + rewrite S3 by done. destruct (W6 y Hy) as (G1 & G2 & [G3 G4] & G5). unfold home. cbn. split_ands; try done. destruct (pb_type (structs s y)); try done.
        destruct G5 as (k & G5 & G6). exists k. split; [|done]. rewrite HR in G5. apply elem_of_cons in G5 as [[= G5 _]|G5]; [lia|by right]. }
  all: exists a, (p_heap s); split; [by destruct s|]; split; [done|]; intros s2 S1 S2 S3 S4; split; rewrite ?S1, ?S2; try done; intros y Hy; destruct (Z.eq_dec y q) as [->|Hne];
    [rewrite S4|rewrite S3 by done; by apply W6]; unfold home; cbn; split_ands; try done; destruct (pb_type (structs s q)); try done.
  - destruct Hh as (m & Hm & Hp1 & Hp2). exists m. split_ands; [done|lia|lia].
  - destruct Hh as (G1 & G2 & G3 & G4). split_ands; try done; lia.
Qed.

Lemma contents_prefix s l1 q l2 r : 0 <= r <= pb_len (structs s q) ->
  take (Z.to_nat (len (addrs s l1) + r)) (addrs s (l1 ++ q :: l2)) = addrs s l1 ++ seqZ (pb_payload (structs s q)) r.
Proof.
  intros Hr. unfold addrs. rewrite fmap_app, concat_app. cbn [fmap list_fmap concat]. set (A := concat _). rewrite take_app_ge by lia.
  f_equal. replace (Z.to_nat (len A + r) - length A)%nat with (Z.to_nat r) by lia. replace (pb_len (structs s q)) with (r + (pb_len (structs s q) - r)) by lia.
  rewrite seqZ_app, <- app_assoc, take_app_length' by (rewrite ?length_seqZ; lia). done.
Qed.

Lemma kept_in s l y : kept s l = Some y -> y ∈ l.
Proof. induction l as [|x l IH]; cbn; [done|]. destruct (_ =? 1); [intros H; right; auto|]. intros [= ->]. by left. Qed.

Lemma released_all_live s l : forall a a', released_all ram_addr s l a a' -> live a ≡ₚ l ++ live a'.
Proof. induction l as [|x l IH]; intros a a' H; cbn in H; [by subst|]. destruct H as (a1 & [H1 _] & H2). by rewrite H1, (IH _ _ H2). Qed.

(** The buffers behind the new last one. *)
Lemma free_tail a s q l : wf ram_addr E_pbuf E_pool a s -> chain s q l -> (forall x, x ∈ l -> x ∈ live a) -> (S (length l) < fuel)%nat ->
  exists a' s', (if negb (q =? 0) then do! pbuf_free ram_addr fuel q ;; ret tt else ret tt) s = Ret tt s' /\ wf ram_addr E_pbuf E_pool a' s' /\ live a ≡ₚ gone s l ++ live a' /\
    (forall y, y ∉ l -> structs s' y = structs s y /\ pnext s' y = pnext s y) /\ pmem s' = pmem s.
Proof using Hlayout.
  intros Hw Hc Hl Hf. destruct l as [|x l]; [cbn in Hc; subst q; by exists a, s|]. assert (q <> 0) by (by destruct Hc as (-> & ? & _)). destruct (Z.eqb_spec q 0); [done|]. cbn [negb].
  destruct (pbuf_free_run ram_addr E_pbuf E_pool Hlayout fuel a s q (x :: l) Hw Hc) as (a' & s' & Hrun & Hw' & Hrel & [F1 F2]); [done..|]. mrun Hrun. exists a', s'.
  split; [done|]. split; [done|]. split; [by apply (released_all_live s)|]. split; [|done]. intros y Hy. destruct (F1 y) as [-> ->]; [intros Hin; by apply Hy, (gone_sub s)|].
  split; [|done]. unfold drop_ref. rewrite decide_False; [done|]. intros Hk. by apply kept_in in Hk.
Qed.

Lemma pbuf_realloc_run a s p l n new_len : wf ram_addr E_pbuf E_pool a s -> packet s p l n 0 -> n < 2 ^ 16 -> 0 <= new_len < n -> (forall x, x ∈ l -> x ∈ live a) ->
  (S (length l) < fuel)%nat ->
  exists l1 l2 a' s', pbuf_realloc ram_addr fuel p new_len s = Ret tt s' /\ l = l1 ++ l2 /\ l1 <> [] /\ wf ram_addr E_pbuf E_pool a' s' /\ packet s' p l1 new_len 0 /\
    contents s' l1 = take (Z.to_nat new_len) (contents s l) /\ live a ≡ₚ gone s l2 ++ live a' /\
    forall x, x ∉ l -> structs s' x = structs s x /\ pnext s' x = pnext s x.
Proof using Hlayout.
  intros Hw HP Hn Hnew Hl Hf. pose proof (chain_nodup _ _ _ (packet_chain _ _ _ _ _ HP)) as Hnd.
  assert (p <> 0 /\ pb_tot_len (structs s p) = n) as [Hp0 Htot] by (destruct l as [|y l']; [destruct HP; lia|by destruct HP as (-> & ? & ? & _)]).
  unfold pbuf_realloc. destruct (Z.eqb_spec p 0); [done|]. cbn [negb lwip_assert]. unfold getp at 1. msteps. rewrite Htot. destruct (Z.leb_spec n new_len); [lia|].
  destruct (realloc_loop_run (new_len - n) l fuel s p n new_len) as (l1 & q & l2 & r & s1 & Hrun & -> & Hr & Hret & Hsame & Hlen & Hpk); [done|lia|lia|lia|lia|lia|]. mrun Hrun.
  pose proof (wf_retotal a s s1 Hw Hret) as Hw1. assert (q ∈ live a) as Hq by (apply Hl; set_solver).
  apply NoDup_app in Hnd as (Hnd1 & Hnd12 & Hnd2). apply NoDup_cons in Hnd2 as [Hq2 Hnd2]. assert (q ∉ l1) as Hq1 by (intros Hin; apply (Hnd12 q Hin); by left).
  pose proof (Hsame q Hq1) as Esq. unfold getp at 1 2. msteps. rewrite <- Esq in Hr. destruct Hret as (R1 & R2 & R3 & R4).
  assert (forall x, pb_payload (structs s1 x) = pb_payload (structs s x) /\ pb_len (structs s1 x) = pb_len (structs s x)) as R5 by (intros x; by rewrite (R1 x)).
  destruct (shrink_region a s1 q r Hw1 Hq Hr) as (a2 & h' & Hrun & (O1 & O2 & O3 & _) & Hw3); [lia|]. mrun Hrun. unfold updp, get_next. msteps.
  match goal with |- context [bind (if negb (pnext ?s0 q =? 0) then _ else _) _ _] => set (s3 := s0) end.
  assert (structs s3 q = set_pb_tot_len r (set_pb_len r (structs s1 q))) as Q1 by (unfold s3; cbn; by rewrite !fset_eq).
  assert (forall y, y <> q -> structs s3 y = structs s1 y) as Q2 by (intros y Hy; unfold s3; cbn; by rewrite !fset_ne by done).
  assert (wf ram_addr E_pbuf E_pool a2 s3) as Hw3' by (by apply Hw3). assert (forall x, pnext s3 x = pnext s x) as Q3 by (intros x; unfold s3, pnext; cbn; by rewrite R3).
  assert (pmem s3 = pmem s) as Q4 by done. clearbody s3. clear Hw3.
  assert (forall y, y ∈ l2 -> structs s3 y = structs s y) as Q5. { intros y Hy. rewrite Q2 by (intros ->; done). apply Hsame. intros Hin. apply (Hnd12 y Hin). by right. }
  assert (q <> 0 /\ chain s (pnext s q) l2) as [Hq0 Hc2]. { apply packet_chain, chain_app in HP as (q' & (-> & ? & Hc) & _). done. }
  destruct (free_tail a2 s3 (pnext s3 q) l2 Hw3') as (a4 & s4 & Hrun & Hw4 & L4 & F4 & M4); [|intros x Hx; rewrite O1; apply Hl; set_solver|rewrite length_app in Hf; cbn in Hf; lia|].
  { rewrite Q3. apply (chain_frame s); [|done]. done. }
  mrun Hrun. destruct (gone_ext s s3 l2 Q5) as [Eg _]. rewrite Eg, O1 in L4. assert (q ∈ live a4) as Hq4.
  { rewrite L4 in Hq. apply elem_of_app in Hq as [Hq|Hq]; [|done]. by apply gone_sub in Hq. }
  exists (l1 ++ [q]), l2, a4, (set_pnext q 0 s4). split; [done|]. split; [by rewrite <- app_assoc|]. split; [by destruct l1|]. split; [by apply wf_put_next|].
  assert (forall x, x ∉ l2 -> x <> q -> structs s4 x = structs s1 x /\ pnext (set_pnext q 0 s4) x = pnext s x) as Q6.
  { intros x Hx Hxq. unfold pnext at 1. cbn. rewrite fset_ne by done. destruct (F4 x Hx) as [-> G]. split; [by apply Q2|]. rewrite <- Q3, <- G. done. }
  destruct (F4 q Hq2) as [F5 _]. split_ands; [| |done|].
  - apply Hpk; [intros x Hx; apply Q6; [intros Hin; apply (Hnd12 x Hx); by right|intros ->; done]|]. cbn. rewrite F5, Q1. cbn. unfold pnext. cbn. rewrite fset_eq. split_ands; try done; lia.
  - unfold contents. rewrite <- fmap_take, <- Hlen, contents_prefix by (rewrite Esq in Hr; done). cbn [pmem set_pnext]. rewrite M4, Q4. f_equal. unfold addrs. rewrite fmap_app, concat_app.
    cbn [fmap list_fmap concat structs set_pnext]. rewrite app_nil_r, F5, Q1. cbn [pb_payload pb_len set_pb_tot_len set_pb_len]. rewrite Esq. f_equal. f_equal. apply list_fmap_ext.
    intros i x Hx. apply list_elem_of_lookup_2 in Hx. destruct (Q6 x) as [-> _]; [intros Hin; apply (Hnd12 x Hx); by right|intros ->; done|]. by destruct (R5 x) as [-> ->].
  - intros x Hx. rewrite not_elem_of_app, not_elem_of_cons in Hx. destruct Hx as (X1 & X2 & X3). destruct (Q6 x X3 X2) as [G1 G2]. split; [|done]. cbn. rewrite G1. by apply Hsame.
Qed.
End Realloc.

(** ** [pbuf_cat] and [pbuf_header] *)

(** Only total lengths change. *)
Lemma cat_loop l : forall f s h n t m, packet s h l n 0 -> l <> [] -> 0 <= n -> 0 <= m -> n + m < 2 ^ 16 -> t ∉ l -> pb_tot_len (structs s t) = m -> (length l <= f)%nat ->
  exists q r s', loop f (fun p =>
    let! n := get_next p in
    if negb (n =? 0) then
      do! (let! tt' := getp t pb_tot_len in updp p (fun b => set_pb_tot_len (u16 (pb_tot_len b + tt')) b)) ;;
      ret (inl n)
    else ret (inr p)) h s = Ret q s' /\ retotal s s' /\ q ∈ l /\ pb_tot_len (structs s' q) = r /\ pb_len (structs s' q) = r /\ 0 <= r <= n /\ (forall x, x ∉ l -> structs s' x = structs s x) /\
    forall s2 l2, (forall x, x <> q -> structs s2 x = structs s' x /\ pnext s2 x = pnext s x) -> structs s2 q = set_pb_tot_len (r + m) (structs s' q) -> pnext s2 q = t ->
      packet s2 t l2 m 0 -> packet s2 h (l ++ l2) (n + m) 0.
Proof.
  induction l as [|x l IH]; intros f s h n t m HP Hne Hn Hm Hnm Ht Htm Hf; [done|]. destruct f as [|f]; [cbn in Hf; lia|]. cbn [loop length] in *.
  pose proof (chain_nodup _ _ _ (packet_chain _ _ _ _ _ HP)) as Hnd. apply NoDup_cons in Hnd as [Hnx _]. apply not_elem_of_cons in Ht as [Htx Ht]. destruct HP as (-> & Hx & Hxt & Hxl & HP).
  pose proof (addrs_length _ _ _ _ HP) as HA. unfold get_next at 1. msteps. destruct l as [|y l].
  - destruct HP as [HP1 HP2]. rewrite HP1. change (negb (0 =? 0)) with false. cbv iota. msteps. exists x, n, s. split; [done|]. split_ands; try done; try lia; [|by left|].
    + split; [|done]. intros z. by destruct (structs s z).
    + intros s2 l2 H2 Hq Hnq HP2'. cbn [app packet]. rewrite Hq, Hnq. cbn. split_ands; try done. replace (n + m - pb_len (structs s x)) with m by lia. done.
  - assert (pnext s x <> 0) as Hnext by (by destruct HP as (-> & ? & _)). destruct (Z.eqb_spec (pnext s x) 0); [done|]. cbn [negb]. unfold getp at 1, updp at 1. msteps.
    rewrite Hxt, Htm, u16_small by lia. set (s1 := set_struct x _ s). assert (forall z, z <> x -> structs s1 z = structs s z) as Hs1 by (intros z Hz; cbn; by rewrite fset_ne).
    assert (structs s1 x = set_pb_tot_len (n + m) (structs s x)) as Hs1x by (cbn; by rewrite fset_eq).
    destruct (IH f s1 (pnext s x) (n - pb_len (structs s x)) t m) as (q & r & s' & Hrun & [R1 (R2 & R3 & R4)] & Hq & Hr1 & Hr2 & Hr3 & Hsame & Hpk); try done; try lia.
    { apply (packet_frame s); [|done]. intros z Hz. rewrite Hs1; [done|]. intros ->. done. }
    { by rewrite Hs1. }
    assert (q <> x) as Hqx by (intros ->; done). assert (structs s' x = structs s1 x) as Hsx by (by apply Hsame).
    exists q, r, s'. split; [exact Hrun|]. split_ands; try done; try lia; [|by right| |].
    + split; [|done]. intros z. destruct (Z.eq_dec z x) as [->|Hz]; [by rewrite Hsx, Hs1x|]. rewrite R1 at 1. by rewrite Hs1.
    + intros z Hz. apply not_elem_of_cons in Hz as [Hz1 Hz2]. rewrite Hsame by done. by apply Hs1.
    + intros s2 l2 H2 Hq2 Hnq HP2. destruct (H2 x ltac:(done)) as [G1 G2]. rewrite Hsx, Hs1x in G1. split; [done|]. split; [done|]. rewrite G1, G2. split; [done|]. split; [done|].
      cbn [pb_len set_pb_tot_len]. replace (n + m - pb_len (structs s x)) with (n - pb_len (structs s x) + m) by lia. by apply Hpk.
Qed.

Lemma addrs_ext s s' l : (forall x, x ∈ l -> pb_payload (structs s' x) = pb_payload (structs s x) /\ pb_len (structs s' x) = pb_len (structs s x)) -> addrs s' l = addrs s l.
Proof. intros H. unfold addrs. f_equal. apply list_fmap_ext. intros i x Hx. by destruct (H x) as [-> ->]; [eapply list_elem_of_lookup_2|]. Qed.

(** Two packets become one, with the bytes of both. *)
Lemma pbuf_cat_packet fuel s h t l1 l2 n1 n2 : packet s h l1 n1 0 -> packet s t l2 n2 0 -> l1 <> [] -> l2 <> [] -> (forall x, x ∈ l1 -> x ∉ l2) -> n1 + n2 < 2 ^ 16 -> (length l1 <= fuel)%nat ->
  exists s', pbuf_cat fuel h t s = Ret tt s' /\ packet s' h (l1 ++ l2) (n1 + n2) 0 /\ contents s' (l1 ++ l2) = contents s l1 ++ contents s l2.
Proof.
  intros P1 P2 N1 N2 Hdis Hn Hf. pose proof (addrs_length _ _ _ _ P1). pose proof (addrs_length _ _ _ _ P2).
  assert (h <> 0) by (destruct l1; [done|by destruct P1 as (-> & ? & _)]). assert (t <> 0 /\ t ∈ l2 /\ pb_tot_len (structs s t) = n2) as (Ht0 & Ht2 & Htn).
  { destruct l2; [done|]. destruct P2 as (-> & ? & ? & _). split_ands; try done. by left. }
  destruct (cat_loop l1 fuel s h n1 t n2) as (q & r & s1 & Hrun & [R1 (R2 & R3 & R4)] & Hq & Hr1 & Hr2 & Hr3 & Hsame & Hpk); try done; try lia; [intros Hin; by apply (Hdis t)|].
  unfold pbuf_cat. destruct (Z.eqb_spec h 0); [done|]. destruct (Z.eqb_spec t 0); [done|]. cbn [negb andb lwip_assert]. msteps. mrun Hrun. unfold getp at 1 2. msteps. rewrite Hr1, Hr2, Z.eqb_refl.
  cbn [lwip_assert]. unfold getp, updp, put_next. msteps. assert (structs s1 t = structs s t) as Est by (apply Hsame; intros Hin; by apply (Hdis t)). rewrite Est, Htn, Hr1, u16_small by lia.
  eexists. split; [reflexivity|]. match goal with |- packet ?x _ _ _ _ /\ _ => set (s' := x) end.
  assert (forall x, x <> q -> structs s' x = structs s1 x /\ pnext s' x = pnext s x) as Hs'. { intros x Hx. unfold s', pnext. cbn. rewrite !fset_ne by done. by rewrite R3. }
  assert (structs s' q = set_pb_tot_len (r + n2) (structs s1 q)) as Hsq by (unfold s'; cbn; by rewrite fset_eq).
  assert (forall x, x ∈ l2 -> x <> q /\ structs s' x = structs s x /\ pnext s' x = pnext s x) as Hs2.
  { intros x Hx. assert (x <> q) as Hxq by (intros ->; by apply (Hdis q)). destruct (Hs' x Hxq) as [-> G]. split_ands; try done. apply Hsame. intros Hin. by apply (Hdis x). }
  split.
  - apply Hpk; [done|done|unfold s', pnext; cbn; by rewrite fset_eq|]. apply (packet_frame s); [|done]. intros x Hx. by destruct (Hs2 x Hx) as (_ & -> & ->).
  - unfold contents. change (pmem s') with (pmem s1). rewrite R4, <- fmap_app. f_equal. unfold addrs at 1. rewrite fmap_app, concat_app. f_equal.
    + apply addrs_ext. intros x Hx. destruct (Z.eq_dec x q) as [->|Hxq]; [rewrite Hsq|destruct (Hs' x Hxq) as [-> _]]; rewrite R1; done.
    + apply addrs_ext. intros x Hx. by destruct (Hs2 x Hx) as (_ & -> & _).
Qed.

(** Hiding a header of [k] bytes: the packet without them. *)
Lemma pbuf_header_hide s p x l n k : packet s p (x :: l) n 0 -> n < 2 ^ 16 -> 0 < k <= pb_len (structs s x) -> p + 24 <= pb_payload (structs s x) ->
  exists s', pbuf_header p (- k) s = Ret 0 s' /\ packet s' p (x :: l) (n - k) 0 /\ contents s' (x :: l) = drop (Z.to_nat k) (contents s (x :: l)).
Proof.
  intros HP Hn Hk Hpay. pose proof (chain_nodup _ _ _ (packet_chain _ _ _ _ _ HP)) as Hnd. apply NoDup_cons in Hnd as [Hnx _].
  pose proof (addrs_length _ _ _ _ HP) as HA. destruct HP as (-> & Hx & Ht & Hl & HP). pose proof (addrs_length _ _ _ _ HP) as HA2.
  assert (exists s', pbuf_header x (- k) s = Ret 0 s' /\ pb_tot_len (structs s' x) = n - k /\ pb_len (structs s' x) = pb_len (structs s x) - k /\
    pb_payload (structs s' x) = pb_payload (structs s x) + k /\ (forall y, y <> x -> structs s' y = structs s y) /\ p_pools s' = p_pools s /\ pmem s' = pmem s)
    as (s' & Hrun & T1 & T2 & T3 & T4 & T5 & T6).
  { unfold pbuf_header. destruct (Z.eqb_spec x 0); [done|]. cbn [negb lwip_assert]. msteps. destruct (Z.eqb_spec (- k) 0); [lia|]. unfold getp at 1. msteps.
    destruct (Z.ltb_spec (- k) 0); [|lia]. rewrite Z.opp_involutive, u16_small by lia. destruct (Z.leb_spec k (pb_len (structs s x))); [|lia]. cbn [lwip_assert andb]. unfold getp. msteps.
    change SIZEOF_STRUCT_PBUF with 24. destruct (Z.ltb_spec (pb_payload (structs s x) - - k) (x + 24)); [lia|].
    destruct (pb_type (structs s x)); unfold updp; msteps; (eexists; split; [reflexivity|]); cbn; rewrite !fset_eq; cbn; rewrite ?u16_small by lia; rewrite Ht;
      (split_ands; [rewrite ?u16_small; lia|rewrite ?u16_small; lia|lia|intros y Hy; by rewrite !fset_ne by done|done|done]). }
  exists s'. split; [done|]. assert (forall y, y ∈ l -> structs s' y = structs s y) as T7 by (intros y Hy; apply T4; intros ->; done). split.
  - split; [done|]. split; [done|]. rewrite T1, T2. split; [done|]. split; [lia|]. unfold pnext. rewrite T5. replace (n - k - (pb_len (structs s x) - k)) with (n - pb_len (structs s x)) by lia.
    apply (packet_frame s); [|done]. intros y Hy. unfold pnext. by rewrite T5, T7.
  - unfold contents. rewrite T6, <- fmap_drop. f_equal. unfold addrs. cbn [fmap list_fmap concat]. rewrite T2, T3. replace (pb_len (structs s x)) with (k + (pb_len (structs s x) - k)) at 2 by lia.
    rewrite seqZ_app, <- app_assoc, drop_app_length' by (rewrite ?length_seqZ; lia). f_equal. apply addrs_ext. intros y Hy. by rewrite T7.
Qed.

(** ** [pbuf_dechain] *)

Section Dechain.
Context (ram_addr : Z) (E_pbuf E_pool : list Z) (Hlayout : layout ram_addr E_pbuf E_pool) (fuel : nat).

Lemma wf_set_tot a s p v : wf ram_addr E_pbuf E_pool a s -> wf ram_addr E_pbuf E_pool a (set_struct p (set_pb_tot_len v (structs s p)) s).
Proof. intros Hw. apply wf_set_struct; [done|]. intros Hp. exact (wf_live _ _ _ _ _ Hw p Hp). Qed.

Lemma pbuf_dechain_run a s p l n : wf ram_addr E_pbuf E_pool a s -> packet s p (p :: l) n 0 -> n < 2 ^ 16 -> l <> [] -> (forall x, x ∈ p :: l -> x ∈ live a) -> (S (length l) < fuel)%nat ->
  exists a' s', pbuf_dechain ram_addr fuel p s = Ret (if 0 <? u8 (len (gone s l)) then 0 else pnext s p) s' /\ wf ram_addr E_pbuf E_pool a' s' /\
    live a ≡ₚ gone s l ++ live a' /\ packet s' p [p] (pb_len (structs s p)) 0.
Proof using Hlayout.
  intros Hw HP Hn Hne Hl Hf. pose proof (chain_nodup _ _ _ (packet_chain _ _ _ _ _ HP)) as Hnd. apply NoDup_cons in Hnd as [Hpl Hnd].
  destruct HP as (_ & Hp0 & Htp & Hlp & HP). pose proof (addrs_length _ _ _ _ HP) as HA. set (q := pnext s p) in *.
  assert (q <> 0 /\ q ∈ l /\ pb_tot_len (structs s q) = n - pb_len (structs s p)) as (Hq0 & Hql & Hqt).
  { destruct l as [|y l]; [done|]. destruct HP as (Ey & ? & Et & _). rewrite Ey. split_ands; try done. by left. }
  assert (q <> p) as Hqp by (intros E; rewrite E in Hql; done).
  unfold pbuf_dechain, get_next. msteps. fold q. destruct (Z.eqb_spec q 0); [done|]. cbn [negb]. unfold getp at 1 2 3. msteps. rewrite Hqt, Htp, Z.eqb_refl. cbn [lwip_assert]. unfold updp, put_next. msteps.
  rewrite u16_small by lia. set (s1 := set_struct q _ s).
  match goal with |- context [bind (pbuf_free _ _ _) _ ?s0] => set (s2 := s0) end.
  assert (forall x, x <> p -> structs s2 x = structs s x /\ pnext s2 x = pnext s x) as S2.
  { intros x Hx. unfold s2, pnext. cbn. rewrite !(fset_ne _ p x) by done. destruct (Z.eq_dec q x) as [<-|Hxq]; [|by rewrite fset_ne]. rewrite fset_eq. split; [|done].
    rewrite <- Hqt. by destruct (structs s q). }
  assert (structs s2 p = set_pb_tot_len (pb_len (structs s p)) (structs s p) /\ pnext s2 p = 0) as [Sp Np].
  { unfold s2, pnext. cbn. rewrite !fset_eq, (fset_ne _ q p) by done. done. }
  assert (wf ram_addr E_pbuf E_pool a s2) as Hw2 by (apply wf_set_tot, (wf_put_next _ _ _ Hlayout); [by apply wf_set_tot|apply Hl; by left]). clearbody s2. clear s1.
  destruct (pbuf_free_run ram_addr E_pbuf E_pool Hlayout fuel a s2 q l Hw2) as (a' & s' & Hrun & Hw' & Hrel & [F1 F2]); [|done|intros x Hx; apply Hl; by right|done|].
  { apply (chain_frame s); [|by eapply packet_chain]. intros x Hx. apply S2. intros ->. done. }
  mrun Hrun. destruct (gone_ext s s2 l) as [Eg Ek]; [intros x Hx; apply S2; intros ->; done|]. rewrite Eg, Ek in *.
  destruct (F1 p) as [G1 G2]; [intros Hin; by apply gone_sub in Hin|]. assert (structs s' p = structs s2 p) as Es.
  { rewrite G1. unfold drop_ref. rewrite decide_False; [done|]. intros Hk. by apply kept_in in Hk. }
  unfold getp. msteps. rewrite Es, Sp. cbn [pb_tot_len pb_len set_pb_tot_len]. rewrite Z.eqb_refl. cbn [lwip_assert]. msteps.
  exists a', s'. split; [done|]. split; [done|]. split; [by apply (released_all_live ram_addr s2)|]. cbn. rewrite Es, Sp, G2, Np. cbn. split_ands; try done. lia.
Qed.
End Dechain.

(** The count of freed buffers has eight bits: when the whole tail of 256 buffers
    goes, [pbuf_dechain] returns a pointer to a buffer that is free. *)
Lemma pbuf_dechain_dangling ram_addr E_pbuf E_pool fuel a s p l n : layout ram_addr E_pbuf E_pool ->
  wf ram_addr E_pbuf E_pool a s -> packet s p (p :: l) n 0 -> n < 2 ^ 16 -> length l = 256%nat -> mine s l -> (forall x, x ∈ p :: l -> x ∈ live a) -> (257 < fuel)%nat ->
  exists q a' s', pbuf_dechain ram_addr fuel p s = Ret q s' /\ wf ram_addr E_pbuf E_pool a' s' /\ q <> 0 /\ q ∉ live a'.
Proof.
  intros Hlay Hw HP Hn Hl Hm Hlive Hf. destruct (gone_mine _ _ Hm) as [Eg _].
  destruct (pbuf_dechain_run ram_addr E_pbuf E_pool Hlay fuel a s p l n Hw HP Hn) as (a' & s' & Hrun & Hw' & HL & _); [by destruct l|done|lia|]. rewrite Eg, Hl in *.
  change (0 <? u8 (Z.of_nat 256)) with false in Hrun. exists (pnext s p), a', s'. split; [done|]. split; [done|]. destruct HP as (_ & _ & _ & _ & HP). destruct l as [|y l]; [done|].
  destruct HP as (-> & Hy & _). split; [done|]. pose proof (wf_nodup _ _ _ _ _ Hw) as Hnd. rewrite HL in Hnd. apply NoDup_app in Hnd as (_ & Hnd & _). apply Hnd. by left.
Qed.

(** ** What the callers see *)

(** C14: [pbuf_alloc] of any type and layer, with the heap and the pools in
    order, makes a packet of the length asked for out of buffers that nobody had,
    each with one reference and its payload in its own memory behind room for the
    headers; or it returns null, and then the pool is exhausted and everybody has
    what they had before, the buffers taken on the way included. *)
Theorem pbuf_alloc_packet ram_addr E_pbuf E_pool fuel a s layer n type : layout ram_addr E_pbuf E_pool ->
  wf ram_addr E_pbuf E_pool a s -> 0 <= n < 2 ^ 16 -> (3 + length (free_pool a) < fuel)%nat ->
  exists p a' s', pbuf_alloc ram_addr fuel layer n type s = Ret p s' /\ alloc_post ram_addr E_pbuf E_pool layer n type a s p a' s'.
Proof. intros Hlay. by apply pbuf_alloc_run. Qed.

(** C13: [pbuf_free] of a chain gives back exactly the buffers at its head whose
    only reference it drops, each to the heap or the pool it came from; the next
    one loses a reference and every other buffer stays as it was. The result is
    their number modulo 256. *)
Theorem pbuf_free_releases ram_addr E_pbuf E_pool fuel a s p l : layout ram_addr E_pbuf E_pool ->
  wf ram_addr E_pbuf E_pool a s -> chain s p l -> l <> [] -> (forall x, x ∈ l -> x ∈ live a) -> (S (length l) < fuel)%nat ->
  exists a' s', pbuf_free ram_addr fuel p s = Ret (u8 (len (gone s l))) s' /\ wf ram_addr E_pbuf E_pool a' s' /\
    released_all ram_addr s (gone s l) a a' /\ live a ≡ₚ gone s l ++ live a' /\ freed s l s'.
Proof.
  intros Hlay Hw Hc Hne Hl Hf. destruct (pbuf_free_run ram_addr E_pbuf E_pool Hlay fuel a s p l Hw Hc Hne Hl Hf) as (a' & s' & H1 & H2 & H3 & H4).
  exists a', s'. split_ands; try done. by apply (released_all_live ram_addr s).
Qed.

(** [pbuf_realloc] to a smaller length leaves a packet of that length with
    the first bytes of the old one, frees the buffers behind as [pbuf_free] does
    and cuts the memory of the last one when it is from the heap. *)
Lemma pbuf_realloc_shrinks ram_addr E_pbuf E_pool fuel a s p l n new_len : layout ram_addr E_pbuf E_pool ->
  wf ram_addr E_pbuf E_pool a s -> packet s p l n 0 -> n < 2 ^ 16 -> 0 <= new_len < n -> (forall x, x ∈ l -> x ∈ live a) -> (S (length l) < fuel)%nat ->
  exists l1 l2 a' s', pbuf_realloc ram_addr fuel p new_len s = Ret tt s' /\ l = l1 ++ l2 /\ l1 <> [] /\ wf ram_addr E_pbuf E_pool a' s' /\ packet s' p l1 new_len 0 /\
    contents s' l1 = take (Z.to_nat new_len) (contents s l) /\ live a ≡ₚ gone s l2 ++ live a' /\
    forall x, x ∉ l -> structs s' x = structs s x /\ pnext s' x = pnext s x.
Proof. intros Hlay. by apply pbuf_realloc_run. Qed.

(** C15: [pbuf_copy] of a packet to one that is at least as long makes the bytes
    of the target begin with those of the source, however both are cut into
    non-empty buffers, and changes nothing else. The bytes of the target must be
    in different places, none of them a place of the source. *)
Theorem pbuf_copy_packet fuel s p_to p_from lt lf nt nf : packet s p_to lt nt 0 -> packet s p_from lf nf 0 -> filled s lt -> filled s lf -> lf <> [] -> nf <= nt ->
  NoDup (addrs s lt) -> (forall a, a ∈ addrs s lt -> a ∉ addrs s lf) -> (length lt + length lf < fuel)%nat ->
  exists m', pbuf_copy fuel p_to p_from s = Ret ERR_OK (set_pmem m' s) /\
    take (Z.to_nat nf) (contents (set_pmem m' s) lt) = contents s lf /\ drop (Z.to_nat nf) (contents (set_pmem m' s) lt) = drop (Z.to_nat nf) (contents s lt) /\
    contents (set_pmem m' s) lf = contents s lf /\ forall a, a ∉ addrs s lt -> m' a = pmem s a.
Proof.
  intros Pt Pf Ft Ff Hlf Hn Hnd Hdis Hfu. destruct (pbuf_copy_run fuel s p_to p_from lt lf nt nf) as (m' & Hrun & Hc); try done. exists m'. split; [done|].
  pose proof (addrs_length _ _ _ _ Pt). pose proof (addrs_length _ _ _ _ Pf). destruct (copied_contents (addrs s lt) (addrs s lf) (pmem s) m') as (C1 & C2 & C3); try done; [lia|].
  replace (Z.to_nat nf) with (length (addrs s lf)) by lia. split_ands; try done. intros a Ha. apply Hc. intros Hin. apply Ha. by apply subseteq_take in Hin.
Qed.

(** Two buffers of the pool hold a packet of 3000 bytes, and the second one is
    also somebody else's; a third one is free. *)
Definition sample_packet (h : heap) : pstate :=
  mkPS h (mkPools (fun t => if t =? 13 then 8000 else if t =? 12 then 600 else 0) (fun p => if p =? 1000 then 4000 else 0))
    (fun p => if p =? 1000 then mkPbuf 1080 3000 1944 PBUF_POOL 0 1 else mkPbuf 4024 1056 1056 PBUF_POOL 0 2) (fun a => a mod 251).

Definition sample_owners : owners := mkOwn [] [600] [8000] [1000; 4000].

Lemma sample_layout : layout (2 ^ 20) [600] [1000; 4000; 8000].
Proof.
  split; [set_solver by lia|by vm_compute|]. intros x Hx. assert (x = 600 \/ x = 1000 \/ x = 4000 \/ x = 8000) as Hc by set_solver. unfold heap_size. lia.
Qed.

Lemma sample_wf : exists h, wf (2 ^ 20) [600] [1000; 4000; 8000] sample_owners (sample_packet h).
Proof.
  destruct (mem_init_run blank_heap) as (h & _ & Hok & _). exists h. split; cbn; try done.
  - by exists [(heap_size, false)].
  - split_ands; [set_solver|set_solver|by apply NoDup_singleton|by apply NoDup_singleton].
  - by apply (bool_decide_unpack _).
  - intros p Hp. assert (p = 1000 \/ p = 4000) as [-> | ->] by set_solver; unfold home; cbn; split_ands; try done; set_solver.
Qed.

Lemma sample_chain h : packet (sample_packet h) 1000 [1000; 4000] 3000 0 /\ gone (sample_packet h) [1000; 4000] = [1000].
Proof. split; [cbn; lia|done]. Qed.

Lemma pbuf_alloc_packet_witness : exists h, wf (2 ^ 20) [600] [1000; 4000; 8000] sample_owners (sample_packet h) /\
  exists p a' s', pbuf_alloc (2 ^ 20) 10 PBUF_TRANSPORT 1500 PBUF_POOL (sample_packet h) = Ret p s' /\
    alloc_post (2 ^ 20) [600] [1000; 4000; 8000] PBUF_TRANSPORT 1500 PBUF_POOL sample_owners (sample_packet h) p a' s'.
Proof.
  destruct sample_wf as [h Hw]. exists h. split; [exact Hw|]. apply (pbuf_alloc_packet (2 ^ 20) [600] [1000; 4000; 8000] 10 sample_owners (sample_packet h) PBUF_TRANSPORT 1500 PBUF_POOL);
    [exact sample_layout|exact Hw|lia|cbn; lia].
Defined.

Lemma pbuf_free_releases_witness : exists h, wf (2 ^ 20) [600] [1000; 4000; 8000] sample_owners (sample_packet h) /\
  exists a' s', pbuf_free (2 ^ 20) 10 1000 (sample_packet h) = Ret (u8 1) s' /\ wf (2 ^ 20) [600] [1000; 4000; 8000] a' s' /\
    released_all (2 ^ 20) (sample_packet h) [1000] sample_owners a' /\ [1000; 4000] ≡ₚ [1000] ++ live a' /\ freed (sample_packet h) [1000; 4000] s'.
Proof.
  destruct sample_wf as [h Hw]. exists h. split; [exact Hw|].
  apply (pbuf_free_releases (2 ^ 20) [600] [1000; 4000; 8000] 10 sample_owners (sample_packet h) 1000 [1000; 4000]); [exact sample_layout|exact Hw|cbn; lia|discriminate| |cbn; lia].
  intros x Hx. exact Hx.
Defined.

Example pbuf_realloc_shrinks_example : exists h, wf (2 ^ 20) [600] [1000; 4000; 8000] sample_owners (sample_packet h) /\
  exists l1 l2 a' s', pbuf_realloc (2 ^ 20) 10 1000 1500 (sample_packet h) = Ret tt s' /\ [1000; 4000] = l1 ++ l2 /\ l1 <> [] /\
    wf (2 ^ 20) [600] [1000; 4000; 8000] a' s' /\ packet s' 1000 l1 1500 0 /\
    contents s' l1 = take (Z.to_nat 1500) (contents (sample_packet h) [1000; 4000]) /\ [1000; 4000] ≡ₚ gone (sample_packet h) l2 ++ live a' /\
    forall x, x ∉ [1000; 4000] -> structs s' x = structs (sample_packet h) x /\ pnext s' x = pnext (sample_packet h) x.
Proof.
  destruct sample_wf as [h Hw]. exists h. split; [exact Hw|].
  apply (pbuf_realloc_shrinks (2 ^ 20) [600] [1000; 4000; 8000] 10 sample_owners (sample_packet h) 1000 [1000; 4000] 3000 1500);
    [exact sample_layout|exact Hw|exact (proj1 (sample_chain h))|lia|lia| |cbn; lia].
  intros x Hx. exact Hx.
Qed.

(** Five bytes in buffers of two and three, copied to buffers of four and two. *)
Definition sample_copy : pstate :=
  mkPS blank_heap (mkPools (fun _ => 0) (fun p => if p =? 100 then 200 else if p =? 300 then 400 else 0))
    (fun p => if p =? 100 then mkPbuf 1000 5 2 PBUF_POOL 0 1 else if p =? 200 then mkPbuf 1010 3 3 PBUF_POOL 0 1
       else if p =? 300 then mkPbuf 1020 6 4 PBUF_POOL 0 1 else mkPbuf 1030 2 2 PBUF_POOL 0 1) (fun a => a mod 251).

Lemma pbuf_copy_packet_witness : exists m', pbuf_copy 9 300 100 sample_copy = Ret ERR_OK (set_pmem m' sample_copy) /\
  take (Z.to_nat 5) (contents (set_pmem m' sample_copy) [300; 400]) = contents sample_copy [100; 200] /\
  drop (Z.to_nat 5) (contents (set_pmem m' sample_copy) [300; 400]) = drop (Z.to_nat 5) (contents sample_copy [300; 400]) /\
  contents (set_pmem m' sample_copy) [100; 200] = contents sample_copy [100; 200] /\ forall a, a ∉ addrs sample_copy [300; 400] -> m' a = pmem sample_copy a.
Proof.
  apply (pbuf_copy_packet 9 sample_copy 300 100 [300; 400] [100; 200] 6 5);
    [cbn; lia|cbn; lia|repeat constructor|repeat constructor|discriminate|lia|apply (bool_decide_unpack _); reflexivity| |cbn; lia].
  assert (Forall (fun a => a ∉ addrs sample_copy [100; 200]) (addrs sample_copy [300; 400])) as HF by (apply (bool_decide_unpack _); reflexivity).
  exact (proj1 (Forall_forall _ _) HF).
Defined.
