(* ===== verification/SysArch.v ===== *)
(** Threads, semaphores and mailboxes of the network server: net/lwip/jos/arch,
    thread.c, threadq.h and sys_arch.c.

    The threads are coroutines of one environment: a thread runs until it calls
    [thread_yield], which resumes the thread that waited longest.  A thread is
    where it stands in the nested loops of [sys_arch_sem_wait] and [thread_wait]
    ([place]), with what it does once it has the semaphore ([kont]); the code between
    two such places is one step.  A thread context and a semaphore are named by an
    integer, and 0 is the null pointer of a context.  The lists of free entries
    ([LIST_HEAD] of queue.h) are lists.  The readings of the clock are a
    parameter.  [lwip_core_lock] and [lwip_core_unlock] are empty. *)

From S2P Require Import Prelude.

Notation NSEM := 256 (only parsing).
Notation NMBOX := 128 (only parsing).
Notation MBOXSLOTS := 32 (only parsing).
Notation SYS_ARCH_TIMEOUT := 0xffffffff (only parsing).
Notation SYS_ARCH_NOWAIT := 0xfffffffe (only parsing).

Record sys_sem_entry : Type := mkSem {
  sem_freed : bool;
  sem_gen : Z;
  sem_counter : Z;
  sem_waiters : Z;
}.

(** The member [v] of the union: both halves as one word. *)
Definition sem_v (e : sys_sem_entry) : Z := sem_counter e + 2 ^ 16 * sem_waiters e.

Record sys_mbox_entry : Type := mkMbox {
  mb_freed : bool;
  mb_head : Z;
  mb_nextq : Z;
  mb_msg : Z -> Z;
  mb_queued_msg : Z;
  mb_free_msg : Z;
}.

(** What threadq.h and thread.c use of [struct thread_context]; the address to
    wait for is that of the word of a semaphore. *)
Record thread_context : Type := mkTc {
  tc_wait_addr : option Z;
  tc_wakeup : bool;
  tc_queue_link : Z;
}.

Record thread_queue : Type := mkTq {
  tq_first : Z;
  tq_last : Z;
}.

Record net : Type := mkNet {
  sems : Z -> sys_sem_entry;
  sem_free : list Z;
  mboxes : Z -> sys_mbox_entry;
  mbox_free : list Z;
  tcs : Z -> thread_context;
  ready : thread_queue;
  kill : thread_queue;
  cur_tc : Z;
  readings : nat;
}.

Definition N (A : Type) : Type := M net A.

Definition set_sems f s := mkNet f (sem_free s) (mboxes s) (mbox_free s) (tcs s) (ready s) (kill s) (cur_tc s) (readings s).
Definition set_sem_free l s := mkNet (sems s) l (mboxes s) (mbox_free s) (tcs s) (ready s) (kill s) (cur_tc s) (readings s).
Definition set_mboxes f s := mkNet (sems s) (sem_free s) f (mbox_free s) (tcs s) (ready s) (kill s) (cur_tc s) (readings s).
Definition set_mbox_free l s := mkNet (sems s) (sem_free s) (mboxes s) l (tcs s) (ready s) (kill s) (cur_tc s) (readings s).
Definition set_tcs f s := mkNet (sems s) (sem_free s) (mboxes s) (mbox_free s) f (ready s) (kill s) (cur_tc s) (readings s).
Definition set_ready q s := mkNet (sems s) (sem_free s) (mboxes s) (mbox_free s) (tcs s) q (kill s) (cur_tc s) (readings s).
Definition set_kill q s := mkNet (sems s) (sem_free s) (mboxes s) (mbox_free s) (tcs s) (ready s) q (cur_tc s) (readings s).
Definition set_cur_tc t s := mkNet (sems s) (sem_free s) (mboxes s) (mbox_free s) (tcs s) (ready s) (kill s) t (readings s).
Definition set_readings n s := mkNet (sems s) (sem_free s) (mboxes s) (mbox_free s) (tcs s) (ready s) (kill s) (cur_tc s) n.

Definition set_sem (i : Z) (e : sys_sem_entry) (s : net) : net := set_sems (fset (sems s) i e) s.
Definition set_mbox (i : Z) (e : sys_mbox_entry) (s : net) : net := set_mboxes (fset (mboxes s) i e) s.
Definition upd_sem (i : Z) (f : sys_sem_entry -> sys_sem_entry) : N unit := modify (fun s => set_sem i (f (sems s i)) s).
Definition upd_mbox (i : Z) (f : sys_mbox_entry -> sys_mbox_entry) : N unit := modify (fun s => set_mbox i (f (mboxes s i)) s).
Definition upd_tc (t : Z) (f : thread_context -> thread_context) : N unit := modify (fun s => set_tcs (fset (tcs s) t (f (tcs s t))) s).

Definition set_counter v e := mkSem (sem_freed e) (sem_gen e) v (sem_waiters e).
Definition set_waiters v e := mkSem (sem_freed e) (sem_gen e) (sem_counter e) v.
Definition set_link_tc v c := mkTc (tc_wait_addr c) (tc_wakeup c) v.
Definition set_wait_addr v c := mkTc v (tc_wakeup c) (tc_queue_link c).
Definition set_wakeup v c := mkTc (tc_wait_addr c) v (tc_queue_link c).

(** ** threadq.h *)

Definition threadq_push (q : thread_queue) (cs : Z -> thread_context) (t : Z) : thread_queue * (Z -> thread_context) :=
  let cs := fset cs t (set_link_tc 0 (cs t)) in
  if tq_first q =? 0 then (mkTq t t, cs)
  else
    let l := tq_last q in
    (mkTq (tq_first q) t, fset cs l (set_link_tc t (cs l))).

Definition threadq_pop (q : thread_queue) (cs : Z -> thread_context) : Z * thread_queue * (Z -> thread_context) :=
  if tq_first q =? 0 then (0, q, cs)
  else
    let t := tq_first q in
    (t, mkTq (tc_queue_link (cs t)) (tq_last q), fset cs t (set_link_tc 0 (cs t))).

Section SysArch.

(** The readings of the clock by [sys_time_msec], and the rounds of a walk over the queue. *)
Context (clock : nat -> Z) (fuel : nat).

Definition time_msec : N Z :=
  let! n := gets readings in
  do! modify (set_readings (S n)) ;;
  ret (u32 (clock n)).

(** ** thread.c *)

Definition thread_wakeup (addr : Z) : N unit :=
  let! first := gets (fun s => tq_first (ready s)) in
  loop fuel (fun tc =>
    if negb (tc =? 0) then
      let! c := gets (fun s => tcs s tc) in
      do! (if bool_decide (tc_wait_addr c = Some addr) then upd_tc tc (set_wakeup true) else ret tt) ;;
      let! l := gets (fun s => tc_queue_link (tcs s tc)) in
      ret (inl l)
    else ret (inr tt)) first.

(** Whether another thread was resumed: otherwise the caller goes on. *)
Definition thread_yield : N bool :=
  let! s := get in
  let '(next_tc, q, cs) := threadq_pop (ready s) (tcs s) in
  if next_tc =? 0 then ret false
  else
    do! modify (fun s => set_tcs cs (set_ready q s)) ;;
    do! (if negb (cur_tc s =? 0) then
           modify (fun s => let '(q, cs) := threadq_push (ready s) (tcs s) (cur_tc s) in set_tcs cs (set_ready q s))
         else ret tt) ;;
    do! modify (set_cur_tc next_tc) ;;
    ret true.

(** Up to [exit] when there is no other thread: the thread to clean up, and
    whether another one was resumed. *)
Definition thread_halt : N (Z * bool) :=
  let! s := get in
  let '(old, k, cs) := threadq_pop (kill s) (tcs s) in
  do! modify (fun s => set_tcs cs (set_kill k s)) ;;
  do! modify (fun s => let '(k, cs) := threadq_push (kill s) (tcs s) (cur_tc s) in set_tcs cs (set_kill k s)) ;;
  do! modify (set_cur_tc 0) ;;
  let! b := thread_yield in
  ret (old, b).

(** ** sys_arch.c: semaphores *)

Definition sys_init : N unit :=
  do! forM (seqZ 0 NSEM) (fun i =>
    do! upd_sem i (fun e => mkSem true (sem_gen e) (sem_counter e) (sem_waiters e)) ;;
    modify (fun s => set_sem_free (i :: sem_free s) s)) ;;
  forM (seqZ 0 NMBOX) (fun i =>
    do! upd_mbox i (fun e => mkMbox true (mb_head e) (mb_nextq e) (mb_msg e) (mb_queued_msg e) (mb_free_msg e)) ;;
    modify (fun s => set_mbox_free (i :: mbox_free s) s)).

(** [None] is [SYS_SEM_NULL]. *)
Definition sys_sem_new (count : Z) : N (option Z) :=
  let! l := gets sem_free in
  match l with
  | [] => ret None
  | i :: l =>
      do! modify (set_sem_free l) ;;
      let! e := gets (fun s => sems s i) in
      do! assertM (sem_freed e) ;;
      do! upd_sem i (fun e => mkSem false (sem_gen e + 1) (u8 count) (sem_waiters e)) ;;
      ret (Some i)
  end.

(** An entry before the array is not there. *)
Definition sys_sem_free (sem : Z) : N unit :=
  if sem <? 0 then panic "sems[-1]"
  else
    let! e := gets (fun s => sems s sem) in
    do! assertM (negb (sem_freed e)) ;;
    do! upd_sem sem (fun e => mkSem true (sem_gen e + 1) (sem_counter e) (sem_waiters e)) ;;
    modify (fun s => set_sem_free (sem :: sem_free s) s).

Definition sys_sem_signal (sem : Z) : N unit :=
  let! e := gets (fun s => sems s sem) in
  do! assertM (negb (sem_freed e)) ;;
  do! upd_sem sem (fun e => set_counter (u16 (sem_counter e + 1)) e) ;;
  if nz (sem_waiters e) then
    do! upd_sem sem (set_waiters 0) ;;
    thread_wakeup sem
  else ret tt.

(** ** sys_arch.c: mailboxes *)

Definition sys_mbox_free (mbox : Z) : N unit :=
  let! e := gets (fun s => mboxes s mbox) in
  do! assertM (negb (mb_freed e)) ;;
  do! sys_sem_free (mb_queued_msg e) ;;
  do! sys_sem_free (mb_free_msg e) ;;
  do! modify (fun s => set_mbox_free (mbox :: mbox_free s) s) ;;
  upd_mbox mbox (fun e => mkMbox true (mb_head e) (mb_nextq e) (mb_msg e) (mb_queued_msg e) (mb_free_msg e)).

Definition sys_mbox_new (size : Z) : N (option Z) :=
  do! assertM (size <? MBOXSLOTS) ;;
  let! l := gets mbox_free in
  match l with
  | [] => ret None
  | i :: l =>
      do! modify (set_mbox_free l) ;;
      let! e := gets (fun s => mboxes s i) in
      do! assertM (mb_freed e) ;;
      do! upd_mbox i (fun e => mkMbox false (-1) 0 (mb_msg e) (mb_queued_msg e) (mb_free_msg e)) ;;
      let! q := sys_sem_new 0 in
      do! upd_mbox i (fun e => mkMbox (mb_freed e) (mb_head e) (mb_nextq e) (mb_msg e) (default (-1) q) (mb_free_msg e)) ;;
      let! f := sys_sem_new MBOXSLOTS in
      do! upd_mbox i (fun e => mkMbox (mb_freed e) (mb_head e) (mb_nextq e) (mb_msg e) (mb_queued_msg e) (default (-1) f)) ;;
      match q, f with
      | Some _, Some _ => ret (Some i)
      | _, _ => do! sys_mbox_free i ;; ret None
      end
  end.

(** ** Where a thread stands *)

(** What follows [sys_arch_sem_wait]: its caller, [sys_mbox_trypost] (from
    [sys_mbox_post], which asserts its result, or not) or [sys_arch_mbox_fetch]. *)
Inductive kont : Type :=
| KWait
| KPost (mbox msg : Z) (must : bool)
| KFetch (mbox : Z).

Inductive request : Type :=
| SemWait (sem tm : Z)
| SemSignal (sem : Z)
| MboxPost (mbox msg : Z)
| MboxTryPost (mbox msg : Z)
| MboxFetch (mbox tm : Z)
| Yield.

Inductive place : Type :=
| AtCall
| AtSem (k : kont) (sem tm gen waited : Z)
| AtWait (k : kont) (sem tm gen waited a val msec s p : Z)
| AtBack (k : kont) (sem tm gen waited a val msec s : Z).

(** What the caller of an operation learns. *)
Inductive event : Type :=
| EvPost (mbox msg : Z)
| EvFull (mbox : Z)
| EvFetch (mbox msg waited : Z)
| EvEmpty (mbox waited : Z)
| EvSem (sem waited : Z).

(** The end of [sys_mbox_trypost]; the result of the wait is not looked at. *)
Definition mbox_put (mbox msg : Z) (must : bool) : N (list event) :=
  let! e := gets (fun s => mboxes s mbox) in
  if mb_nextq e =? mb_head e then if must then panic "assertion failed" else ret [EvFull mbox]
  else
    let slot := mb_nextq e in
    do! upd_mbox mbox (fun e =>
      mkMbox (mb_freed e) (if mb_head e =? -1 then slot else mb_head e) ((slot + 1) mod MBOXSLOTS) (fset (mb_msg e) slot msg) (mb_queued_msg e) (mb_free_msg e)) ;;
    do! sys_sem_signal (mb_queued_msg e) ;;
    ret [EvPost mbox msg].

(** The end of [sys_arch_mbox_fetch]. *)
Definition mbox_get (mbox waited : Z) : N (list event) :=
  if waited =? SYS_ARCH_TIMEOUT then ret [EvEmpty mbox waited]
  else
    let! e := gets (fun s => mboxes s mbox) in
    let slot := mb_head e in
    if slot =? -1 then panic "lwip: sys_arch_mbox_fetch: no message"
    else
      let msg := mb_msg e slot in
      let h := (slot + 1) mod MBOXSLOTS in
      do! upd_mbox mbox (fun e =>
        mkMbox (mb_freed e) (if h =? mb_nextq e then -1 else h) (mb_nextq e) (mb_msg e) (mb_queued_msg e) (mb_free_msg e)) ;;
      do! sys_sem_signal (mb_free_msg e) ;;
      ret [EvFetch mbox msg waited].

(** [sys_arch_sem_wait] returns [waited] to its caller. *)
Definition sem_return (k : kont) (sem waited : Z) : N (place * list event) :=
  let! ev := match k with
             | KWait => ret [EvSem sem waited]
             | KPost mbox msg must => mbox_put mbox msg must
             | KFetch mbox => mbox_get mbox waited
             end in
  ret (AtCall, ev).

Definition sem_enter (k : kont) (sem tm : Z) : N (place * list event) :=
  let! e := gets (fun s => sems s sem) in
  do! assertM (negb (sem_freed e)) ;;
  ret (AtSem k sem tm (sem_gen e) 0, []).

(** The calls up to the first place where a thread can stand; the other result
    is whether another thread was resumed. *)
Definition start (c : request) : N (place * list event * bool) :=
  match c with
  | SemWait sem tm => let! r := sem_enter KWait sem tm in ret (r, false)
  | SemSignal sem => do! sys_sem_signal sem ;; ret (AtCall, [], false)
  | MboxPost mbox msg =>
      let! e := gets (fun s => mboxes s mbox) in
      do! assertM (negb (mb_freed e)) ;;
      let! r := sem_enter (KPost mbox msg true) (mb_free_msg e) 0 in ret (r, false)
  | MboxTryPost mbox msg =>
      let! e := gets (fun s => mboxes s mbox) in
      do! assertM (negb (mb_freed e)) ;;
      let! r := sem_enter (KPost mbox msg false) (mb_free_msg e) 0 in ret (r, false)
  | MboxFetch mbox tm =>
      let! e := gets (fun s => mboxes s mbox) in
      do! assertM (negb (mb_freed e)) ;;
      let! r := sem_enter (KFetch mbox) (mb_queued_msg e) tm in ret (r, false)
  | Yield => let! b := thread_yield in ret (AtCall, [], b)
  end.

(** One round of the loop of [sys_arch_sem_wait], up to the loop of
    [thread_wait]. *)
Definition sem_round (k : kont) (sem tm gen waited : Z) : N (place * list event) :=
  if (tm =? 0) || (waited <? tm) then
    let! e := gets (fun s => sems s sem) in
    if 0 <? sem_counter e then
      do! upd_sem sem (fun e => set_counter (u16 (sem_counter e - 1)) e) ;;
      sem_return k sem waited
    else if tm =? SYS_ARCH_NOWAIT then sem_return k sem SYS_ARCH_TIMEOUT
    else
      let! a := time_msec in
      let sleep_until := if nz tm then u32 (a + u32 (tm - waited)) else 0xffffffff in
      do! upd_sem sem (set_waiters 1) ;;
      let! cur_v := gets (fun s => sem_v (sems s sem)) in
      let! s := time_msec in
      let! t := gets cur_tc in
      do! upd_tc t (set_wait_addr (Some sem)) ;;
      do! upd_tc t (set_wakeup false) ;;
      ret (AtWait k sem tm gen waited a cur_v sleep_until s s, [])
  else sem_return k sem SYS_ARCH_TIMEOUT.

(** One round of the loop of [thread_wait], and what follows it. *)
Definition wait_round (k : kont) (sem tm gen waited a val msec s p : Z) : N (place * list event * bool) :=
  let! t := gets cur_tc in
  let! v := gets (fun s => sem_v (sems s sem)) in
  let! w := gets (fun s => tc_wakeup (tcs s t)) in
  if (p <? msec) && negb ((p <? s) || negb (v =? val) || w) then
    let! b := thread_yield in
    ret (AtBack k sem tm gen waited a val msec s, [], b)
  else
    do! upd_tc t (set_wait_addr None) ;;
    do! upd_tc t (set_wakeup false) ;;
    let! e := gets (fun s => sems s sem) in
    if negb (gen =? sem_gen e) then let! r := sem_return k sem SYS_ARCH_TIMEOUT in ret (r, false)
    else
      let! b := time_msec in
      ret (AtSem k sem tm gen (u32 (waited + u32 (b - a))), [], false).

(** One step of the current thread, whose next call is [c]. *)
Definition thread_step (c : option request) (p : place) : N (place * list event * bool) :=
  match p with
  | AtCall => match c with Some c => start c | None => let! r := thread_halt in ret (AtCall, [], snd r) end
  | AtSem k sem tm gen waited => let! r := sem_round k sem tm gen waited in ret (r, false)
  | AtWait k sem tm gen waited a val msec s p => wait_round k sem tm gen waited a val msec s p
  | AtBack k sem tm gen waited a val msec s =>
      let! p := time_msec in
      ret (AtWait k sem tm gen waited a val msec s p, [], false)
  end.

(** ** The server

    Every thread has the calls it still makes; the events are in order. *)
Record server : Type := mkServer {
  net_of : net;
  pcs : Z -> place;
  calls : Z -> list request;
  events : list event;
}.

(** The calls left after a step: the first step of a call takes it off the list. *)
Definition calls_after (p : place) (l : list request) : list request := match p with AtCall => tail l | _ => l end.

Definition server_step (c : server) : option server :=
  let t := cur_tc (net_of c) in
  if t =? 0 then None
  else
    match thread_step (head (calls c t)) (pcs c t) (net_of c) with
    | Ret (p, ev, _) s => Some (mkServer s (fset (pcs c) t p) (fset (calls c) t (calls_after (pcs c t) (calls c t))) (events c ++ ev))
    | _ => None
    end.

Inductive reachable (c : server) : server -> Prop :=
| reach_start : reachable c c
| reach_step c1 c2 : reachable c c1 -> server_step c1 = Some c2 -> reachable c c2.
End SysArch.
