(* ===== verification/SysArchProps.v ===== *)
(** Mailboxes are queues and no thread is forgotten, for any number of threads
    that post and fetch in any order. *)

From S2P Require Import Prelude SysArch.

Notation len l := (Z.of_nat (length l)).

(** ** The queue of threads *)

Fixpoint tq_linked (cs : Z -> thread_context) (p : Z) (l : list Z) : Prop :=
  match l with
  | [] => p = 0
  | x :: l' => p = x /\ x <> 0 /\ tq_linked cs (tc_queue_link (cs x)) l'
  end.

Definition tq_rep (q : thread_queue) (cs : Z -> thread_context) (l : list Z) : Prop := tq_linked cs (tq_first q) l /\ (l <> [] -> last l = Some (tq_last q)).

Lemma tq_linked_frame cs cs' l : (forall x, x ∈ l -> tc_queue_link (cs' x) = tc_queue_link (cs x)) -> forall p, tq_linked cs p l -> tq_linked cs' p l.
Proof.
  induction l as [|x l IH]; intros H p Hl; [done|]. destruct Hl as (-> & H1 & H2). split; [done|]. split; [done|]. rewrite H by (by left). apply IH; [|done]. intros y Hy. apply H. by right.
Qed.

Lemma tq_rep_frame q cs cs' l : (forall x, x ∈ l -> tc_queue_link (cs' x) = tc_queue_link (cs x)) -> tq_rep q cs l -> tq_rep q cs' l.
Proof. intros H [H1 H2]. split; [|done]. by apply (tq_linked_frame cs). Qed.

Lemma tq_linked_snoc cs l t : forall p x, NoDup (l ++ [x]) -> t <> 0 -> tq_linked cs p (l ++ [x]) -> t ∉ l ++ [x] ->
  tq_linked (fset (fset cs t (set_link_tc 0 (cs t))) x (set_link_tc t (fset cs t (set_link_tc 0 (cs t)) x))) p (l ++ [x; t]).
Proof.
  induction l as [|y l IH]; intros p x Hnd Ht Hl Hin; cbn [app tq_linked] in *.
  - destruct Hl as (-> & Hx & Hl). split; [done|]. split; [done|]. rewrite fset_eq. cbn. split; [done|]. split; [done|]. apply not_elem_of_cons in Hin as [Hin _]. by rewrite fset_ne, fset_eq by done.
  - destruct Hl as (-> & Hy & Hl). apply NoDup_cons in Hnd as [Hny Hnd]. apply not_elem_of_cons in Hin as [Hty Hin]. split; [done|]. split; [done|].
    rewrite !(fset_ne _ _ y); [by apply IH|done|]. intros ->. apply Hny. apply elem_of_app. right. by left.
Qed.

Lemma threadq_push_rep q cs l t : tq_rep q cs l -> NoDup l -> t <> 0 -> t ∉ l ->
  let '(q', cs') := threadq_push q cs t in
  tq_rep q' cs' (l ++ [t]) /\ (forall x, x ∉ t :: l -> cs' x = cs x) /\ forall x, tc_wait_addr (cs' x) = tc_wait_addr (cs x) /\ tc_wakeup (cs' x) = tc_wakeup (cs x).
Proof.
  intros [H1 H2] Hnd Ht Hin. unfold threadq_push.
  assert (forall (c : Z -> thread_context) y v x, tc_wait_addr (fset c y (set_link_tc v (c y)) x) = tc_wait_addr (c x) /\ tc_wakeup (fset c y (set_link_tc v (c y)) x) = tc_wakeup (c x)) as Hkeep.
  { intros c y v x. unfold fset. destruct (decide (y = x)) as [->|]; done. }
  destruct l as [|y l0] using rev_ind.
  - cbn in H1. rewrite H1. cbn. split; [split; [|done]; cbn; split_ands; try done; by rewrite fset_eq|]. split; [|intros x; apply Hkeep].
    intros x Hx. apply fset_ne. set_solver.
  - assert (tq_first q <> 0) as Hf. { destruct l0; destruct H1 as (-> & ? & _); done. } destruct (Z.eqb_spec (tq_first q) 0); [done|]. specialize (H2 ltac:(by destruct l0)).
    rewrite last_snoc in H2. injection H2 as H2. rewrite <- H2. split_ands.
    + split; [rewrite <- app_assoc; by apply tq_linked_snoc|]. intros _. by rewrite last_snoc.
    + intros x Hx. rewrite !fset_ne; [done|set_solver|set_solver].
    + intros x. destruct (Hkeep (fset cs t (set_link_tc 0 (cs t))) y t x) as [-> ->]. apply Hkeep.
Qed.

Lemma threadq_pop_rep q cs x l : tq_rep q cs (x :: l) -> x ∉ l ->
  let '(t, q', cs') := threadq_pop q cs in
  t = x /\ x <> 0 /\ tq_rep q' cs' l /\ (forall y, y <> x -> cs' y = cs y) /\ forall y, tc_wait_addr (cs' y) = tc_wait_addr (cs y) /\ tc_wakeup (cs' y) = tc_wakeup (cs y).
Proof.
  intros [(H1 & H2 & H3) H4] Hx. unfold threadq_pop. rewrite H1. destruct (Z.eqb_spec x 0); [done|]. split_ands; try done.
  - split; [|intros Hl; cbn; rewrite <- H4 by done; by destruct l]. cbn. apply (tq_linked_frame cs); [|done]. intros y Hy. rewrite fset_ne; [done|]. intros ->. done.
  - intros y Hy. by apply fset_ne.
  - intros y. unfold fset. destruct (decide (x = y)) as [->|]; done.
Qed.

Lemma threadq_pop_empty q cs : tq_rep q cs [] -> threadq_pop q cs = (0, q, cs).
Proof. intros [H _]. unfold threadq_pop. cbn in H. by rewrite H. Qed.

(** ** The ring of a mailbox *)

Definition ring_size (e : sys_mbox_entry) : Z :=
  if mb_head e =? -1 then 0 else let d := (mb_nextq e - mb_head e) mod 32 in if d =? 0 then 32 else d.

(** The messages that wait, the oldest first. *)
Definition waiting (e : sys_mbox_entry) : list Z := (fun i => mb_msg e ((mb_head e + i) mod 32)) <$> seqZ 0 (ring_size e).

Definition ring_ok (e : sys_mbox_entry) : Prop := 0 <= mb_nextq e < 32 /\ (mb_head e = -1 \/ 0 <= mb_head e < 32).

Lemma pending_length e : ring_ok e -> len (waiting e) = ring_size e /\ 0 <= ring_size e <= 32.
Proof.
  intros [H1 H2]. assert (0 <= ring_size e <= 32) as H.
  { unfold ring_size. destruct (mb_head e =? -1); [lia|]. pose proof (Z.mod_pos_bound (mb_nextq e - mb_head e) 32). cbv zeta. destruct (_ =? 0); lia. }
  split; [|done]. unfold waiting. rewrite length_fmap, length_seqZ. lia.
Qed.

(** The entry after [sys_mbox_trypost] and after [sys_arch_mbox_fetch]. *)
Definition ring_put (m : Z) (e : sys_mbox_entry) : sys_mbox_entry :=
  mkMbox (mb_freed e) (if mb_head e =? -1 then mb_nextq e else mb_head e) ((mb_nextq e + 1) mod 32) (fset (mb_msg e) (mb_nextq e) m) (mb_queued_msg e) (mb_free_msg e).
Definition ring_get (e : sys_mbox_entry) : sys_mbox_entry :=
  let h := (mb_head e + 1) mod 32 in mkMbox (mb_freed e) (if h =? mb_nextq e then -1 else h) (mb_nextq e) (mb_msg e) (mb_queued_msg e) (mb_free_msg e).

Lemma ring_put_pending m e : ring_ok e -> ring_size e < 32 -> mb_nextq e <> mb_head e /\ ring_ok (ring_put m e) /\ waiting (ring_put m e) = waiting e ++ [m].
Proof.
  intros [H1 H2] Hs. assert (mb_nextq e <> mb_head e) as Hne.
  { intros E. unfold ring_size in Hs. rewrite E, Z.sub_diag in Hs. destruct (Z.eqb_spec (mb_head e) (-1)); [lia|]. change (32 < 32) in Hs. lia. }
  pose proof (Z.mod_pos_bound (mb_nextq e + 1) 32 ltac:(lia)) as Hb. split; [done|]. split; [split; cbn; [lia|right; destruct (Z.eqb_spec (mb_head e) (-1)); lia]|].
  unfold waiting, ring_size, ring_put in *. cbn [mb_head mb_nextq mb_msg]. destruct (Z.eqb_spec (mb_head e) (-1)) as [E|E].
  - destruct (Z.eqb_spec (mb_nextq e) (-1)); [lia|]. assert (((mb_nextq e + 1) mod 32 - mb_nextq e) mod 32 = 1) as -> by (Z.to_euclidean_division_equations; lia).
    cbv zeta. change (seqZ 0 (if 1 =? 0 then 32 else 1)) with [0]. change (seqZ 0 0) with (@nil Z). cbn [fmap list_fmap app]. by rewrite Z.add_0_r, Z.mod_small, fset_eq by lia.
  - destruct (Z.eqb_spec (mb_head e) (-1)); [lia|]. cbv zeta in *. set (d := (mb_nextq e - mb_head e) mod 32) in *. assert (0 <= d < 32) by (apply Z.mod_pos_bound; lia).
    destruct (Z.eqb_spec d 0); [lia|]. assert (mb_nextq e = (mb_head e + d) mod 32) as En.
    { unfold d. rewrite Zplus_mod_idemp_r. replace (mb_head e + (mb_nextq e - mb_head e)) with (mb_nextq e) by lia. by rewrite Z.mod_small. }
    assert ((((mb_nextq e + 1) mod 32 - mb_head e) mod 32) = (d + 1) mod 32) as ->.
    { unfold d. rewrite Zminus_mod_idemp_l, Zplus_mod_idemp_l. f_equal. lia. }
    assert ((if (d + 1) mod 32 =? 0 then 32 else (d + 1) mod 32) = d + 1) as -> by (destruct (Z.eqb_spec ((d + 1) mod 32) 0); Z.to_euclidean_division_equations; lia).
    rewrite seqZ_snoc, fmap_app by lia. cbn [fmap list_fmap]. rewrite Z.add_0_l, <- En, fset_eq. f_equal. apply list_fmap_ext. intros i x Hx. apply lookup_seqZ in Hx as [-> Hx].
    apply fset_ne. rewrite En. Z.to_euclidean_division_equations. lia.
Qed.

Lemma ring_get_pending e : ring_ok e -> 0 < ring_size e -> mb_head e <> -1 /\ ring_ok (ring_get e) /\ waiting e = mb_msg e (mb_head e) :: waiting (ring_get e).
Proof.
  intros [H1 H2] Hs. unfold waiting, ring_size in *. destruct (Z.eqb_spec (mb_head e) (-1)) as [|Hh]; [lia|]. split; [done|]. set (h := (mb_head e + 1) mod 32).
  assert (0 <= h < 32) by (apply Z.mod_pos_bound; lia). split; [split; cbn; [lia|fold h; destruct (h =? mb_nextq e); lia]|].
  cbv zeta in *. set (d := (mb_nextq e - mb_head e) mod 32) in *. set (n := if d =? 0 then 32 else d) in *. assert (1 <= n <= 32 /\ n mod 32 = d) as [Hn Hd].
  { unfold n, d. destruct (Z.eqb_spec ((mb_nextq e - mb_head e) mod 32) 0); Z.to_euclidean_division_equations; lia. }
  assert (mb_nextq e = (mb_head e + n) mod 32) as En.
  { rewrite <- Zplus_mod_idemp_r, Hd. unfold d. rewrite Zplus_mod_idemp_r. replace (mb_head e + (mb_nextq e - mb_head e)) with (mb_nextq e) by lia. by rewrite Z.mod_small. }
  clearbody n d.
  unfold ring_get. cbn [mb_head mb_nextq mb_msg]. fold h. rewrite seqZ_cons by lia. cbn [fmap list_fmap]. rewrite Z.add_0_r, (Z.mod_small (mb_head e)) by lia. f_equal.
  assert ((h =? mb_nextq e) = (n =? 1)) as -> by (unfold h; destruct (Z.eqb_spec ((mb_head e + 1) mod 32) (mb_nextq e)), (Z.eqb_spec n 1); Z.to_euclidean_division_equations; lia).
  destruct (Z.eqb_spec n 1) as [->|Hn1]; [done|]. destruct (Z.eqb_spec h (-1)); [lia|].
  assert ((if (mb_nextq e - h) mod 32 =? 0 then 32 else (mb_nextq e - h) mod 32) = n - 1) as ->.
  { unfold h. destruct (Z.eqb_spec ((mb_nextq e - (mb_head e + 1) mod 32) mod 32) 0); Z.to_euclidean_division_equations; lia. }
  change (Z.succ 0) with (1 + 0). replace (Z.pred n) with (n - 1) by lia. rewrite <- (fmap_add_seqZ 1 0), <- list_fmap_compose. apply list_fmap_ext. intros i x _. cbn. f_equal.
  unfold h. rewrite Zplus_mod_idemp_l. f_equal. lia.
Qed.

(** ** The invariant *)

Section Server.
Context (clock : nat -> Z) (fuel : nat).

(** The mailboxes in use, the semaphores of each, the semaphores that are
    allocated and how often each was. *)
Context (B : list Z) (Q F G : Z -> Z) (alive : Z -> Prop).

(** The clock counts milliseconds and has not wrapped around. *)
Definition clock_ok : Prop := forall n, 0 <= clock n <= clock (S n) /\ clock n < 2 ^ 32 - 1.

Definition names_ok : Prop := NoDup ((Q <$> B) ++ (F <$> B)) /\ forall b, b ∈ B -> alive (Q b) /\ alive (F b).

Definition private (sem : Z) : Prop := forall b, b ∈ B -> sem <> Q b /\ sem <> F b.

Definition posted (b : Z) (evs : list event) : list Z := omap (fun ev => match ev with EvPost b' m => if b' =? b then Some m else None | _ => None end) evs.
Definition fetched (b : Z) (evs : list event) : list Z := omap (fun ev => match ev with EvFetch b' m _ => if b' =? b then Some m else None | _ => None end) evs.

Record box_ok (s : net) (evs : list event) (b : Z) : Prop := {
  bx_freed : mb_freed (mboxes s b) = false;
  bx_queued : mb_queued_msg (mboxes s b) = Q b;
  bx_free : mb_free_msg (mboxes s b) = F b;
  bx_ring : ring_ok (mboxes s b);
  bx_full : sem_counter (sems s (Q b)) = ring_size (mboxes s b);
  bx_empty : sem_counter (sems s (F b)) = 32 - ring_size (mboxes s b);
  bx_fifo : posted b evs = fetched b evs ++ waiting (mboxes s b);
}.

Record net_ok (l kl : list Z) (evs : list event) (s : net) : Prop := {
  nk_ready : tq_rep (ready s) (tcs s) l;
  nk_kill : tq_rep (kill s) (tcs s) kl;
  nk_len : (length l < fuel)%nat;
  nk_sems : forall i, alive i -> sem_freed (sems s i) = false /\ sem_gen (sems s i) = G i /\ 0 <= sem_counter (sems s i) < 2 ^ 16;
  nk_boxes : forall b, b ∈ B -> box_ok s evs b;
}.

Definition kont_ok (k : kont) (sem tm : Z) : Prop :=
  match k with
  | KWait => private sem
  | KPost b _ _ => b ∈ B /\ sem = F b /\ tm = 0
  | KFetch b => b ∈ B /\ sem = Q b
  end.

Definition pc_ok (n : nat) (p : place) : Prop :=
  match p with
  | AtCall => True
  | AtSem k sem tm gen waited => kont_ok k sem tm /\ alive sem /\ gen = G sem /\ 0 <= waited <= clock n
  | AtWait k sem tm gen waited a val _ _ _ | AtBack k sem tm gen waited a val _ _ => kont_ok k sem tm /\ alive sem /\ gen = G sem /\ 0 <= waited <= a /\ a <= clock n /\ val = 2 ^ 16
  end.

Definition call_ok (c : request) : Prop :=
  match c with
  | SemWait sem _ | SemSignal sem => alive sem /\ private sem
  | MboxPost b _ | MboxTryPost b _ | MboxFetch b _ => b ∈ B
  | Yield => True
  end.

Context (Hclock : clock_ok) (Hnames : names_ok).

Lemma clock_mono n m : (n <= m)%nat -> clock n <= clock m.
Proof using Hclock. induction 1 as [|m _ IH]; [lia|]. pose proof (Hclock m). lia. Qed.

Lemma pc_ok_mono n m p : (n <= m)%nat -> pc_ok n p -> pc_ok m p.
Proof using Hclock. intros Hn. pose proof (clock_mono n m Hn). destruct p; cbn; [done|..]; intros; destruct_and?; split_ands; try done; lia. Qed.

(** *** Steps that leave the queues and the mailboxes alone *)

Definition quiet (s s' : net) : Prop :=
  ready s' = ready s /\ kill s' = kill s /\ cur_tc s' = cur_tc s /\ (readings s <= readings s')%nat /\ (forall x, tc_queue_link (tcs s' x) = tc_queue_link (tcs s x)) /\
  forall i, sem_freed (sems s' i) = sem_freed (sems s i) /\ sem_gen (sems s' i) = sem_gen (sems s i) /\ (0 <= sem_counter (sems s i) < 2 ^ 16 -> 0 <= sem_counter (sems s' i) < 2 ^ 16).

Lemma quiet_refl s : quiet s s.
Proof. split_ands; done. Qed.

Lemma quiet_trans s1 s2 s3 : quiet s1 s2 -> quiet s2 s3 -> quiet s1 s3.
Proof.
  intros (A1 & A2 & A3 & A4 & A5 & A6) (B1 & B2 & B3 & B4 & B5 & B6). unfold quiet. split_ands; [congruence..|lia|intros x; by rewrite B5|]. intros i. destruct (A6 i) as (? & ? & ?), (B6 i) as (? & ? & ?). split_ands; [congruence..|auto].
Qed.

Lemma net_ok_quiet l kl evs evs' s s' : net_ok l kl evs s -> quiet s s' -> (forall b, b ∈ B -> box_ok s' evs' b) -> net_ok l kl evs' s'.
Proof.
  intros [N1 N2 N3 N4 N5] (A1 & A2 & A3 & A4 & A5 & A6) Hb. split; try done.
  - rewrite A1. by apply (tq_rep_frame _ (tcs s)).
  - rewrite A2. by apply (tq_rep_frame _ (tcs s)).
  - intros i Hi. destruct (A6 i) as (-> & -> & ?), (N4 i Hi) as (? & ? & ?). auto.
Qed.

Lemma thread_wakeup_run addr l s : tq_rep (ready s) (tcs s) l -> (length l < fuel)%nat ->
  exists cs, thread_wakeup fuel addr s = Ret tt (set_tcs cs s) /\ forall x, tc_queue_link (cs x) = tc_queue_link (tcs s x).
Proof.
  intros [H1 _] Hf. unfold thread_wakeup. msteps. revert H1 Hf. generalize (tq_first (ready s)) as p. generalize fuel as f. revert s.
  induction l as [|x l IH]; intros s f p Hl Hf; (destruct f as [|f]; [cbn in Hf; lia|]); cbn [loop].
  - cbn in Hl. subst p. change (negb (0 =? 0)) with false. cbv iota. msteps. exists (tcs s). split; [by destruct s|done].
  - destruct Hl as (-> & Hx & Hl). destruct (Z.eqb_spec x 0); [done|]. cbn [negb]. msteps. cbn in Hf.
    match goal with |- context [bind (if ?c then ?u else ?v) _ s] => assert (exists cs1, (if c then u else v) s = Ret tt (set_tcs cs1 s) /\
      forall y, tc_queue_link (cs1 y) = tc_queue_link (tcs s y)) as (cs1 & Hrun & H1) end.
    { destruct (bool_decide_reflect (tc_wait_addr (tcs s x) = Some addr)).
      - eexists. split; [reflexivity|]. intros y. unfold fset. destruct (decide (x = y)) as [->|]; done.
      - exists (tcs s). split; [by destruct s|done]. }
    mrun Hrun. msteps. cbn [tcs set_tcs]. rewrite H1. destruct (IH (set_tcs cs1 s) f (tc_queue_link (tcs s x))) as (cs & Hr & K1); [|lia|].
    { apply (tq_linked_frame (tcs s)); [|done]. intros y _. apply H1. }
    exists cs. split; [exact Hr|]. intros y. rewrite K1. apply H1.
Qed.

Lemma sys_sem_signal_run sem l s : tq_rep (ready s) (tcs s) l -> (length l < fuel)%nat -> sem_freed (sems s sem) = false ->
  exists s', sys_sem_signal fuel sem s = Ret tt s' /\ quiet s s' /\ mboxes s' = mboxes s /\
    sem_counter (sems s' sem) = u16 (sem_counter (sems s sem) + 1) /\ forall i, i <> sem -> sems s' i = sems s i.
Proof.
  intros Hq Hl Hf. unfold sys_sem_signal, upd_sem, assertM. msteps. rewrite Hf. cbn [negb]. msteps. destruct (nz (sem_waiters (sems s sem))).
  - msteps. match goal with |- exists s', thread_wakeup fuel sem ?s1 = _ /\ _ => set (s1' := s1); destruct (thread_wakeup_run sem l s1' Hq Hl) as (cs & -> & Hcs) end.
    eexists. split; [reflexivity|]. unfold quiet, s1', set_sem. cbn. rewrite !fset_eq. split_ands; try done.
    + intros i. unfold fset. destruct (decide (sem = i)) as [->|]; cbn; split_ands; auto using u16_range.
    + intros i Hi. by rewrite !fset_ne by done.
  - eexists. split; [reflexivity|]. unfold quiet, set_sem. cbn. rewrite !fset_eq. split_ands; try done.
    + intros i. unfold fset. destruct (decide (sem = i)) as [->|]; cbn; split_ands; auto using u16_range.
    + intros i Hi. by rewrite !fset_ne by done.
Qed.

Lemma box_frame s s' evs evs' b : box_ok s evs b -> mboxes s' b = mboxes s b -> sem_counter (sems s' (Q b)) = sem_counter (sems s (Q b)) -> sem_counter (sems s' (F b)) = sem_counter (sems s (F b)) ->
  posted b evs' = posted b evs -> fetched b evs' = fetched b evs -> box_ok s' evs' b.
Proof. intros [] Hm Hq Hf Hp Hg. split; rewrite ?Hm, ?Hq, ?Hf, ?Hp, ?Hg; done. Qed.

Lemma names_distinct b b' : b ∈ B -> b' ∈ B -> Q b <> F b' /\ (b <> b' -> Q b <> Q b' /\ F b <> F b').
Proof using Hnames.
  intros Hb Hb'. destruct Hnames as [Hnd _]. apply NoDup_app in Hnd as (H1 & H2 & H3). split.
  - intros E. apply (H2 (Q b)); [by apply list_elem_of_fmap_2|]. rewrite E. by apply list_elem_of_fmap_2.
  - intros Hne. apply list_elem_of_lookup in Hb as [i Hi]. apply list_elem_of_lookup in Hb' as [j Hj]. 
    split; intros E; [pose proof (NoDup_lookup _ i j (Q b) H1)|pose proof (NoDup_lookup _ i j (F b) H3)]; rewrite !list_lookup_fmap, Hi, Hj in H; cbn in H; rewrite E in H; specialize (H eq_refl eq_refl); congruence.
Qed.

(** A semaphore that is no mailbox's does not matter to the mailboxes. *)
Lemma boxes_private s s' evs evs' sem : (forall b, b ∈ B -> box_ok s evs b) -> private sem -> mboxes s' = mboxes s -> (forall i, i <> sem -> sems s' i = sems s i) ->
  (forall b, posted b evs' = posted b evs /\ fetched b evs' = fetched b evs) -> forall b, b ∈ B -> box_ok s' evs' b.
Proof.
  intros Hb Hp Hm Hs He b Hin. destruct (Hp b Hin), (He b). apply (box_frame s _ evs); [by apply Hb|by rewrite Hm|..]; by rewrite ?Hs.
Qed.

Lemma posted_app b e1 e2 : posted b (e1 ++ e2) = posted b e1 ++ posted b e2.
Proof. apply omap_app. Qed.
Lemma fetched_app b e1 e2 : fetched b (e1 ++ e2) = fetched b e1 ++ fetched b e2.
Proof. apply omap_app. Qed.

Definition token_taken (i : Z) (s : net) : net := set_sem i (set_counter (u16 (sem_counter (sems s i) - 1)) (sems s i)) s.

(** Both operations take a token of one semaphore, change the entry of the
    mailbox and signal the other one. *)
Lemma exchange_run i j b e l s : tq_rep (ready s) (tcs s) l -> (length l < fuel)%nat -> i <> j -> sem_freed (sems s j) = false ->
  exists s', sys_sem_signal fuel j (set_mbox b e (token_taken i s)) = Ret tt s' /\ quiet s s' /\ mboxes s' = fset (mboxes s) b e /\
    sem_counter (sems s' i) = u16 (sem_counter (sems s i) - 1) /\ sem_counter (sems s' j) = u16 (sem_counter (sems s j) + 1) /\ forall k, k <> i -> k <> j -> sems s' k = sems s k.
Proof.
  intros Hq Hl Hij Hf. assert (forall k, k <> i -> sems (set_mbox b e (token_taken i s)) k = sems s k) as Hk. { intros k Hk. cbn. by rewrite fset_ne. }
  assert (sems (set_mbox b e (token_taken i s)) i = set_counter (u16 (sem_counter (sems s i) - 1)) (sems s i)) as Hi by apply fset_eq.
  destruct (sys_sem_signal_run j l (set_mbox b e (token_taken i s)) Hq Hl) as (s' & -> & Hs & Hm & H1 & H2); [by rewrite Hk|].
  exists s'. split; [done|]. rewrite Hk in H1 by done. split_ands; [|done|by rewrite H2, Hi|done|].
  - apply (quiet_trans _ (set_mbox b e (token_taken i s))); [|done]. unfold quiet. split_ands; try done. intros k. destruct (decide (k = i)) as [->|]; [rewrite Hi; cbn; auto using u16_range|by rewrite Hk].
  - intros k K1 K2. by rewrite H2, Hk.
Qed.

Lemma exchange_boxes i j b s s' evs ev : (forall b, b ∈ B -> box_ok s evs b) -> b ∈ B -> i = Q b \/ i = F b -> j = Q b \/ j = F b ->
  (forall b', b' <> b -> mboxes s' b' = mboxes s b') -> (forall k, k <> i -> k <> j -> sems s' k = sems s k) ->
  (forall b', b' <> b -> posted b' [ev] = [] /\ fetched b' [ev] = []) -> box_ok s' (evs ++ [ev]) b -> forall b', b' ∈ B -> box_ok s' (evs ++ [ev]) b'.
Proof using Hnames.
  intros Hb Hin Hi Hj Hm Hs He Hnew b' Hin'. destruct (decide (b' = b)) as [->|Hne]; [done|].
  destruct (names_distinct b b' Hin Hin') as [D1 D2], (names_distinct b' b Hin' Hin) as [D3 _]. destruct D2 as [D2 D4]; [done|]. destruct (He b' Hne) as [E1 E2].
  apply (box_frame s _ evs); [by apply Hb|by apply Hm| | |by rewrite posted_app, E1, app_nil_r|by rewrite fetched_app, E2, app_nil_r]; f_equal; apply Hs; destruct Hi as [-> | ->], Hj as [-> | ->]; done.
Qed.

Lemma mbox_put_run b m must l kl evs s : net_ok l kl evs s -> b ∈ B -> 0 < sem_counter (sems s (F b)) ->
  exists s', mbox_put fuel b m must (token_taken (F b) s) = Ret [EvPost b m] s' /\ quiet s s' /\ net_ok l kl (evs ++ [EvPost b m]) s'.
Proof using Hnames.
  intros N Hb Hc. destruct (nk_boxes _ _ _ _ N b Hb) as [X1 X2 X3 X4 X5 X6 X7]. pose proof (pending_length _ X4) as [HL Hr].
  destruct (ring_put_pending m _ X4 ltac:(lia)) as (P1 & P2 & P3). destruct (names_distinct b b Hb Hb) as [Dq _]. destruct (pending_length _ P2) as [HL' _]. rewrite P3, length_app in HL'. cbn in HL'.
  unfold mbox_put, upd_mbox. msteps. destruct (Z.eqb_spec (mb_nextq (mboxes (token_taken (F b) s) b)) (mb_head (mboxes (token_taken (F b) s) b))); [done|]. msteps.
  match goal with |- context [bind _ _ ?st] => change st with (set_mbox b (ring_put m (mboxes s b)) (token_taken (F b) s)) end.
  destruct (exchange_run (F b) (Q b) b (ring_put m (mboxes s b)) l s) as (s' & Hrun & Hs & Hm & C1 & C2 & C3); [apply N|apply N|done|apply N; apply Hnames, Hb|].
  change (mb_queued_msg (mboxes (token_taken (F b) s) b)) with (mb_queued_msg (mboxes s b)). rewrite X2. mrun Hrun. exists s'. split; [reflexivity|]. split; [done|]. apply (net_ok_quiet _ _ evs _ s); [done..|].
  apply (exchange_boxes (F b) (Q b) b s); [apply N|auto..| |done| |].
  - intros b' Hb'. by rewrite Hm, fset_ne.
  - intros b' Hb'. cbn. by destruct (Z.eqb_spec b b').
  - split; rewrite ?Hm, ?fset_eq; cbn [mb_freed mb_queued_msg mb_free_msg ring_put]; try done; [rewrite C2|rewrite C1|].
    + unfold u16. rewrite Z.mod_small; lia.
    + unfold u16. rewrite Z.mod_small; lia.
    + rewrite posted_app, fetched_app, P3, X7. cbn. by rewrite Z.eqb_refl, app_nil_r, app_assoc.
Qed.

Lemma mbox_get_run b w l kl evs s : net_ok l kl evs s -> b ∈ B -> 0 < sem_counter (sems s (Q b)) -> w <> SYS_ARCH_TIMEOUT ->
  exists s' m ms, mbox_get fuel b w (token_taken (Q b) s) = Ret [EvFetch b m w] s' /\ waiting (mboxes s b) = m :: ms /\ quiet s s' /\ net_ok l kl (evs ++ [EvFetch b m w]) s'.
Proof using Hnames.
  intros N Hb Hc Hw. destruct (nk_boxes _ _ _ _ N b Hb) as [X1 X2 X3 X4 X5 X6 X7]. pose proof (pending_length _ X4) as [HL Hr].
  destruct (ring_get_pending _ X4 ltac:(lia)) as (P1 & P2 & P3). destruct (names_distinct b b Hb Hb) as [Dq _]. destruct (pending_length _ P2) as [HL' _]. rewrite P3 in HL. cbn [length] in HL.
  unfold mbox_get, upd_mbox. destruct (Z.eqb_spec w SYS_ARCH_TIMEOUT); [done|]. msteps. destruct (Z.eqb_spec (mb_head (mboxes (token_taken (Q b) s) b)) (-1)); [done|]. msteps.
  match goal with |- context [bind _ _ ?st] => change st with (set_mbox b (ring_get (mboxes s b)) (token_taken (Q b) s)) end.
  destruct (exchange_run (Q b) (F b) b (ring_get (mboxes s b)) l s) as (s' & Hrun & Hs & Hm & C1 & C2 & C3); [apply N|apply N|done|apply N; apply Hnames, Hb|].
  change (mb_free_msg (mboxes (token_taken (Q b) s) b)) with (mb_free_msg (mboxes s b)). rewrite X3. mrun Hrun. eexists s', _, _. split; [reflexivity|]. split; [exact P3|]. split; [done|]. apply (net_ok_quiet _ _ evs _ s); [done..|].
  apply (exchange_boxes (Q b) (F b) b s); [apply N|auto..| |done| |].
  - intros b' Hb'. by rewrite Hm, fset_ne.
  - intros b' Hb'. cbn. by destruct (Z.eqb_spec b b').
  - split; rewrite ?Hm, ?fset_eq; cbn [mb_freed mb_queued_msg mb_free_msg ring_get]; try done; [rewrite C1|rewrite C2|].
    + unfold u16. rewrite Z.mod_small; lia.
    + unfold u16. rewrite Z.mod_small; lia.
    + rewrite posted_app, fetched_app, X7, P3. cbn. by rewrite Z.eqb_refl, app_nil_r, <- app_assoc.
Qed.

(** *** The loops of the wait *)

Lemma net_ok_same l kl evs ev s s' : net_ok l kl evs s -> quiet s s' -> mboxes s' = mboxes s -> (forall i, sem_counter (sems s' i) = sem_counter (sems s i)) ->
  (forall b, posted b ev = [] /\ fetched b ev = []) -> net_ok l kl (evs ++ ev) s'.
Proof.
  intros N Hq Hm Hc He. apply (net_ok_quiet _ _ evs _ s); [done..|]. intros b Hb. destruct (He b) as [E1 E2].
  apply (box_frame s _ evs); [by apply N|by rewrite Hm|done..|by rewrite posted_app, E1, app_nil_r|by rewrite fetched_app, E2, app_nil_r].
Qed.

Lemma sem_return_timeout k sem tm l kl evs s : net_ok l kl evs s -> kont_ok k sem tm -> tm <> 0 ->
  exists ev, sem_return fuel k sem SYS_ARCH_TIMEOUT s = Ret (AtCall, ev) s /\ net_ok l kl (evs ++ ev) s.
Proof.
  intros N Hk Htm. destruct k as [|b m must|b]; cbn in Hk; [| |]; [..|unfold sem_return, mbox_get; rewrite Z.eqb_refl]; cbn [sem_return].
  - eexists. split; [reflexivity|]. apply (net_ok_same l kl evs _ s); [done|apply quiet_refl|done..].
  - lia.
  - eexists. split; [reflexivity|]. apply (net_ok_same l kl evs _ s); [done|apply quiet_refl|done..].
Qed.

Lemma sem_return_took k sem tm w l kl evs s : net_ok l kl evs s -> kont_ok k sem tm -> 0 < sem_counter (sems s sem) -> w <> SYS_ARCH_TIMEOUT ->
  exists ev s', sem_return fuel k sem w (token_taken sem s) = Ret (AtCall, ev) s' /\ quiet s s' /\ net_ok l kl (evs ++ ev) s' /\
    match k with KFetch b => exists m ms, waiting (mboxes s b) = m :: ms /\ ev = [EvFetch b m w] | KPost b m _ => ev = [EvPost b m] | KWait => True end.
Proof using Hnames.
  intros N Hk Hc Hw. unfold sem_return. destruct k as [|b m must|b]; cbn in Hk.
  - eexists _, _. split; [reflexivity|]. assert (quiet s (token_taken sem s)) as Hq.
    { unfold quiet, token_taken. cbn. split_ands; try done. intros i. unfold fset. destruct (decide (sem = i)) as [->|]; cbn; auto using u16_range. }
    split; [done|]. split; [|done]. apply (net_ok_quiet _ _ evs _ s); [done..|]. apply (boxes_private s _ evs _ sem); [apply N|done|done| |].
    + intros i Hi. cbn. by rewrite fset_ne.
    + intros b. rewrite posted_app, fetched_app, !app_nil_r. done.
  - destruct Hk as (Hb & -> & ->). destruct (mbox_put_run b m must l kl evs s N Hb Hc) as (s' & Hrun & Hq & N'). mrun Hrun. eexists _, _. split; [reflexivity|]. done.
  - destruct Hk as (Hb & ->). destruct (mbox_get_run b w l kl evs s N Hb Hc Hw) as (s' & m & ms & Hrun & Hp & Hq & N'). mrun Hrun. eexists _, _. split; [reflexivity|]. split_ands; try done. by eexists _, _.
Qed.

Lemma clock_u32 n : u32 (clock n) = clock n.
Proof using Hclock. pose proof (Hclock n). apply Z.mod_small. lia. Qed.

Lemma sem_round_ok k sem tm gen w l kl evs s : net_ok l kl evs s -> pc_ok (readings s) (AtSem k sem tm gen w) ->
  exists p ev s', sem_round clock fuel k sem tm gen w s = Ret (p, ev) s' /\ quiet s s' /\ net_ok l kl (evs ++ ev) s' /\ pc_ok (readings s') p.
Proof using Hclock Hnames.
  intros N (K1 & K2 & -> & K3). unfold sem_round. pose proof (Hclock (readings s)) as [HC1 HC2]. assert (w <> SYS_ARCH_TIMEOUT) as Hw by lia.
  destruct (_ || _) eqn:Etm.
  2: { assert (tm <> 0) as Htm by lia. destruct (sem_return_timeout k sem tm l kl evs s N K1 Htm) as (ev & -> & N'). eexists _, _, _. split; [done|]. split; [apply quiet_refl|]. done. }
  msteps. destruct (Z.ltb_spec 0 (sem_counter (sems s sem))) as [Hc|Hc].
  { unfold upd_sem. msteps. destruct (sem_return_took k sem tm w l kl evs s N K1 Hc Hw) as (ev & s' & Hrun & Hq & N' & _). unfold token_taken in Hrun. rewrite Hrun. eexists _, _, _. split; [done|]. done. }
  destruct (Z.eqb_spec tm SYS_ARCH_NOWAIT) as [->|_].
  { destruct (sem_return_timeout k sem SYS_ARCH_NOWAIT l kl evs s N K1 ltac:(done)) as (ev & -> & N'). eexists _, _, _. split; [done|]. split; [apply quiet_refl|]. done. }
  unfold time_msec, upd_sem, upd_tc. msteps. eexists _, _, _. split; [reflexivity|].
  match goal with |- quiet s ?st /\ _ => assert (quiet s st) as Hq end.
  { unfold quiet, set_sem. cbn. split_ands; try done; [lia| |].
    - intros x. unfold fset. destruct (decide (cur_tc s = x)) as [->|]; [|done]. by destruct (decide (x = x)).
    - intros i. unfold fset. by destruct (decide (sem = i)) as [->|]. }
  split; [done|]. split.
  - apply (net_ok_same l kl evs _ s); [done..| |done]. intros i. unfold set_sem. cbn. unfold fset. by destruct (decide (sem = i)) as [->|].
  - cbn [pc_ok readings set_tcs set_readings set_sem set_sems]. rewrite !clock_u32. pose proof (Hclock (S (readings s))). split_ands; [done|done|done|lia|lia|lia|].
    cbn. rewrite fset_eq. unfold sem_v. cbn. destruct (nk_sems _ _ _ _ N sem K2) as (_ & _ & ?). lia.
Qed.

(** *** Switching threads *)

(** Only the queues and the current thread change. *)
Definition switched (s s' : net) : Prop := sems s' = sems s /\ mboxes s' = mboxes s /\ readings s' = readings s.

Lemma net_ok_switched l kl l' kl' evs s s' : net_ok l kl evs s -> switched s s' -> tq_rep (ready s') (tcs s') l' -> tq_rep (kill s') (tcs s') kl' -> (length l' < fuel)%nat -> net_ok l' kl' evs s'.
Proof.
  intros N (E1 & E2 & E3) Hr Hk Hl. split; try done; [rewrite E1; apply N|]. intros b Hb. apply (box_frame s _ evs); [by apply N|by rewrite E2|by rewrite E1..|done|done].
Qed.

Lemma bind_get {A} (k : net -> N A) (s : net) : bind get k s = k s s.
Proof. done. Qed.

Lemma thread_yield_run l kl s : tq_rep (ready s) (tcs s) l -> tq_rep (kill s) (tcs s) kl -> NoDup (l ++ kl) -> (cur_tc s <> 0 -> cur_tc s ∉ l ++ kl) ->
  exists r s' l', thread_yield s = Ret r s' /\ switched s s' /\ tq_rep (ready s') (tcs s') l' /\ tq_rep (kill s') (tcs s') kl /\
    match l with [] => s' = s /\ l' = [] | x :: rest => cur_tc s' = x /\ l' = rest ++ (if cur_tc s =? 0 then [] else [cur_tc s]) end.
Proof.
  intros Hr Hk Hnd Hcur. unfold thread_yield. rewrite bind_get. destruct l as [|x l].
  - rewrite threadq_pop_empty by done. eexists _, _, _. split; [reflexivity|]. done.
  - cbn in Hnd. apply NoDup_cons in Hnd as [Hx Hnd]. apply not_elem_of_app in Hx as [Hx Hxk]. apply NoDup_app in Hnd as (Hnl & Hdis & Hnk).
    pose proof (threadq_pop_rep _ _ x l Hr Hx) as Hpop. destruct (threadq_pop (ready s) (tcs s)) as [[t q] cs]. destruct Hpop as (-> & Hx0 & Hq & Hfr & _).
    destruct (Z.eqb_spec x 0); [done|]. msteps. assert (tq_rep (kill s) cs kl) as Hk1. { apply (tq_rep_frame _ (tcs s)); [|done]. intros y Hy. rewrite Hfr; [done|]. intros ->. done. }
    destruct (Z.eqb_spec (cur_tc s) 0) as [E|E]; cbn [negb].
    + msteps. eexists _, _, l. split; [reflexivity|]. rewrite app_nil_r. split_ands; done.
    + specialize (Hcur E). cbn in Hcur. apply not_elem_of_cons in Hcur as [Hc1 Hc2]. apply not_elem_of_app in Hc2 as [Hc2 Hc3]. msteps. cbn [ready tcs set_tcs set_ready cur_tc].
      pose proof (threadq_push_rep q cs l (cur_tc s) Hq Hnl E Hc2) as Hpush. destruct (threadq_push q cs (cur_tc s)) as [q2 cs2]. destruct Hpush as (Hq2 & Hfr2 & _).
      msteps. eexists _, _, (l ++ [cur_tc s]). split; [reflexivity|]. split_ands; try done. cbn. apply (tq_rep_frame _ cs); [|done]. intros y Hy. rewrite Hfr2; [done|].
      apply not_elem_of_cons. split; [intros ->; done|]. intros Hyl. by apply (Hdis y).
Qed.

Lemma thread_halt_run l kl s : tq_rep (ready s) (tcs s) l -> tq_rep (kill s) (tcs s) kl -> cur_tc s <> 0 -> NoDup (cur_tc s :: l ++ kl) ->
  exists r s', thread_halt s = Ret r s' /\ switched s s' /\ tq_rep (ready s') (tcs s') (tail l) /\ tq_rep (kill s') (tcs s') (tail kl ++ [cur_tc s]) /\ cur_tc s' = default 0 (head l).
Proof.
  intros Hr Hk Hc Hnd. unfold thread_halt. rewrite bind_get. apply NoDup_cons in Hnd as [Hcl Hnd]. apply not_elem_of_app in Hcl as [Hcl Hck]. apply NoDup_app in Hnd as (Hnl & Hdis & Hnk).
  assert (exists old k cs, threadq_pop (kill s) (tcs s) = (old, k, cs) /\ tq_rep k cs (tail kl) /\ tq_rep (ready s) cs l) as (old & k & cs & -> & Hk1 & Hr1).
  { destruct kl as [|x kl]; [rewrite threadq_pop_empty by done; by eexists _, _, _|]. apply NoDup_cons in Hnk as [Hx Hnk]. pose proof (threadq_pop_rep _ _ x kl Hk Hx) as Hpop.
    destruct (threadq_pop (kill s) (tcs s)) as [[t q] cs]. destruct Hpop as (-> & Hx0 & Hq & Hfr & _). eexists _, _, _. split; [reflexivity|]. split; [done|].
    apply (tq_rep_frame _ (tcs s)); [|done]. intros y Hy. rewrite Hfr; [done|]. intros ->. apply (Hdis x Hy). by left. }
  assert (forall y, y ∈ tail kl -> y ∈ kl) as Htl by (destruct kl; [done|]; intros y Hy; by right). assert (NoDup (tail kl)) as Hnt by (destruct kl; [done|]; by apply NoDup_cons in Hnk as [_ ?]).
  msteps. cbn [kill tcs set_tcs set_kill cur_tc]. pose proof (threadq_push_rep k cs (tail kl) (cur_tc s) Hk1 Hnt Hc ltac:(auto)) as Hpush.
  destruct (threadq_push k cs (cur_tc s)) as [k2 cs2]. destruct Hpush as (Hk2 & Hfr2 & _). msteps.
  match goal with |- context [bind thread_yield _ ?st] => destruct (thread_yield_run l (tail kl ++ [cur_tc s]) st) as (r & s' & l' & Hrun & Hs & Hr' & Hk' & Hm) end.
  - cbn. apply (tq_rep_frame _ cs); [|done]. intros y Hy. rewrite Hfr2; [done|]. apply not_elem_of_cons. split; [intros ->; done|]. intros Hyk. apply (Hdis y Hy); auto.
  - done.
  - apply NoDup_app. split_ands; [done| |apply NoDup_app; split_ands; [done| |apply NoDup_singleton]].
    + intros y Hy Hyk. apply elem_of_app in Hyk as [Hyk|Hyk]; [apply (Hdis y Hy); auto|]. apply list_elem_of_singleton in Hyk as ->. done.
    + intros y Hy Hyk. apply list_elem_of_singleton in Hyk as ->. auto.
  - done.
  - mrun Hrun. eexists _, s'. split; [reflexivity|]. destruct l as [|x l]; destruct Hm as [-> ->]; split_ands; try done. cbn in Hr'. by rewrite app_nil_r in Hr'.
Qed.

(** *** One step *)

(** The threads that can run still can, and nothing is in a queue twice. *)
Definition threads_kept (l l' kl' : list Z) (s s' : net) : Prop :=
  (readings s <= readings s')%nat /\ (cur_tc s' <> 0 -> NoDup (cur_tc s' :: l' ++ kl') /\ forall t, t ∈ cur_tc s' :: l' -> t ∈ cur_tc s :: l).

Definition step_ok (l kl : list Z) (evs : list event) (s : net) (m : N (place * list event * bool)) : Prop :=
  exists p ev r s' l' kl', m s = Ret (p, ev, r) s' /\ net_ok l' kl' (evs ++ ev) s' /\ pc_ok (readings s') p /\ threads_kept l l' kl' s s'.

Lemma step_quiet l kl evs s (m : N (place * list event * bool)) p ev r s' : NoDup (cur_tc s :: l ++ kl) -> m s = Ret (p, ev, r) s' -> quiet s s' -> net_ok l kl (evs ++ ev) s' -> pc_ok (readings s') p -> step_ok l kl evs s m.
Proof.
  intros Hnd Hm Hq N Hp. exists p, ev, r, s', l, kl. split_ands; try done. destruct Hq as (_ & _ & E & Hr & _). split; [done|]. rewrite E. done.
Qed.

Lemma step_yield l kl evs s p : net_ok l kl evs s -> cur_tc s <> 0 -> NoDup (cur_tc s :: l ++ kl) -> pc_ok (readings s) p -> step_ok l kl evs s (let! r := thread_yield in ret (p, [], r)).
Proof.
  intros N Hc Hnd Hp. pose proof Hnd as Hnd0. apply NoDup_cons in Hnd0 as [Hin Hnd0].
  destruct (thread_yield_run l kl s) as (r & s' & l' & Hrun & Hs & Hr & Hk & Hm); [apply N|apply N|done|done|].
  unfold step_ok. mrun Hrun. exists p, [], r, s', l', kl. rewrite app_nil_r. split; [done|]. destruct Hs as (S1 & S2 & S3). rewrite S3. unfold threads_kept. rewrite S3. destruct l as [|x l].
  - destruct Hm as [-> ->]. split_ands; done.
  - destruct Hm as [E ->]. destruct (Z.eqb_spec (cur_tc s) 0); [done|]. split; [|split; [done|split; [lia|]]].
    + apply (net_ok_switched (x :: l) kl _ _ _ s); try done. pose proof (nk_len _ _ _ _ N) as Hl. rewrite length_app. cbn in *. lia.
    + intros _. rewrite E. assert (x :: (l ++ [cur_tc s]) ≡ₚ cur_tc s :: x :: l) as Hperm by (rewrite <- Permutation_cons_append; apply Permutation_swap). split.
      * rewrite app_comm_cons, Hperm. done.
      * intros t. by rewrite Hperm.
Qed.

Lemma step_halt l kl evs s : net_ok l kl evs s -> cur_tc s <> 0 -> NoDup (cur_tc s :: l ++ kl) -> step_ok l kl evs s (let! r := thread_halt in ret (AtCall, [], snd r)).
Proof.
  intros N Hc Hnd. destruct (thread_halt_run l kl s) as (r & s' & Hrun & Hs & Hr & Hk & E); [apply N|apply N|done|done|].
  unfold step_ok. mrun Hrun. exists AtCall, [], (snd r), s', (tail l), (tail kl ++ [cur_tc s]). rewrite app_nil_r. split; [done|].
  assert (net_ok (tail l) (tail kl ++ [cur_tc s]) evs s') as N'. { apply (net_ok_switched l kl _ _ _ s); try done. pose proof (nk_len _ _ _ _ N) as Hl. destruct l; cbn in *; lia. }
  split; [done|]. split; [done|]. destruct Hs as (_ & _ & S3). split; [lia|]. rewrite E. intros Hc'. destruct l as [|x l]; [done|]. cbn. split.
  - assert (x :: l ++ tail kl ++ [cur_tc s] ≡ₚ cur_tc s :: (x :: l) ++ tail kl) as -> by (rewrite !app_comm_cons, app_assoc, <- Permutation_cons_append; done).
    destruct kl as [|y kl]; [done|]. cbn [tail]. rewrite <- Permutation_middle, Permutation_swap in Hnd. by apply NoDup_cons in Hnd as [_ ?].
  - intros t Ht. by right.
Qed.

Lemma wake_quiet t s n : (readings s <= n)%nat -> let s' := set_readings n (set_tcs (fset (fset (tcs s) t (set_wait_addr None (tcs s t))) t (set_wakeup false (fset (tcs s) t (set_wait_addr None (tcs s t)) t))) s) in quiet s s'.
Proof.
  intros Hn. unfold quiet. cbn. split_ands; try done. intros x. unfold fset. destruct (decide (t = x)) as [->|]; [|done]. by destruct (decide (x = x)).
Qed.

Lemma step_wait k sem tm gen w a val msec st p l kl evs s : net_ok l kl evs s -> cur_tc s <> 0 -> NoDup (cur_tc s :: l ++ kl) -> pc_ok (readings s) (AtWait k sem tm gen w a val msec st p) ->
  step_ok l kl evs s (wait_round clock fuel k sem tm gen w a val msec st p).
Proof using Hclock.
  intros N Hc Hnd (K1 & K2 & -> & K3 & K4 & K5). unfold wait_round. destruct ((p <? msec) && negb ((p <? st) || negb (sem_v (sems s sem) =? val) || tc_wakeup (tcs s (cur_tc s)))) eqn:E.
  - destruct (step_yield l kl evs s (AtBack k sem tm (G sem) w a val msec st) N Hc Hnd) as (p' & ev & r & s' & l' & kl' & Hm & H); [cbn; done|]. exists p', ev, r, s', l', kl'. split; [|done]. msteps. rewrite E. done.
  - unfold upd_tc, time_msec. destruct (nk_sems _ _ _ _ N sem K2) as (Hf & Hg & _). pose proof (wake_quiet (cur_tc s) s (S (readings s)) ltac:(lia)) as Hq. cbv zeta in Hq. eapply (step_quiet l kl evs s _ _ []); [done| |exact Hq| |].
    + msteps. rewrite E. msteps. cbn [sems set_tcs]. rewrite Hg, Z.eqb_refl. cbn [negb]. msteps. reflexivity.
    + by apply (net_ok_same l kl evs [] s).
    + cbn [pc_ok readings set_readings set_tcs]. rewrite clock_u32. pose proof (Hclock (readings s)) as [? ?]. split_ands; [done|done|done|..]; unfold u32; rewrite (Z.mod_small (clock _ - a)), Z.mod_small by lia; lia.
Qed.

Lemma step_start c l kl evs s : net_ok l kl evs s -> cur_tc s <> 0 -> NoDup (cur_tc s :: l ++ kl) -> call_ok c -> step_ok l kl evs s (start fuel c).
Proof using Hclock Hnames.
  intros N Hc Hnd Hcall.
  assert (forall k sem tm, kont_ok k sem tm -> alive sem -> step_ok l kl evs s (let! r := sem_enter k sem tm in ret (r, false))) as Henter.
  { intros k sem tm Hk Ha. destruct (nk_sems _ _ _ _ N sem Ha) as (Hf & Hg & _). apply (step_quiet l kl evs s _ (AtSem k sem tm (G sem) 0) [] false s); [done| |apply quiet_refl|by rewrite app_nil_r|].
    - unfold sem_enter, assertM. msteps. rewrite Hf. cbn [negb]. msteps. by rewrite Hg.
    - pose proof (Hclock (readings s)). cbn. split_ands; done || lia. }
  destruct c as [sem tm|sem|b m|b m|b tm|]; cbn [start call_ok] in *.
  1: destruct Hcall; by apply Henter.
  1: { destruct Hcall as [Ha Hp]. destruct (sys_sem_signal_run sem l s) as (s' & Hrun & Hq & Hm & _ & Hs); [apply N|apply N|by apply N|].
       apply (step_quiet l kl evs s _ AtCall [] false s'); [done|by mrun Hrun|done| |done]. rewrite app_nil_r. apply (net_ok_quiet _ _ evs _ s); [done..|]. apply (boxes_private s _ evs _ sem); [apply N|done..]. }
  4: by apply step_yield.
  all: destruct (nk_boxes _ _ _ _ N b Hcall) as [X1 X2 X3 _ _ _ _]; destruct Hnames as [_ Ha]; destruct (Ha b Hcall) as [HaQ HaF].
  all: unfold step_ok, assertM; msteps; rewrite X1; cbn [negb]; msteps; rewrite ?X2, ?X3; by apply Henter.
Qed.

Lemma thread_step_ok c p l kl evs s : net_ok l kl evs s -> cur_tc s <> 0 -> NoDup (cur_tc s :: l ++ kl) -> pc_ok (readings s) p -> (forall x, c = Some x -> call_ok x) ->
  step_ok l kl evs s (thread_step clock fuel c p).
Proof using Hclock Hnames.
  intros N Hc Hnd Hp Hcall. destruct p as [|k sem tm gen w|k sem tm gen w a val msec st p|k sem tm gen w a val msec st]; cbn [thread_step].
  - destruct c as [c|]; [by apply step_start; auto|by apply step_halt].
  - destruct (sem_round_ok k sem tm gen w l kl evs s N Hp) as (p & ev & s' & Hrun & Hq & N' & Hp'). apply (step_quiet l kl evs s _ p ev false s'); try done. by mrun Hrun.
  - by apply step_wait.
  - eapply (step_quiet l kl evs s _ _ [] false); [done|unfold time_msec; msteps; reflexivity| | |].
    + unfold quiet. cbn. split_ands; try done. lia.
    + apply (net_ok_same l kl evs [] s); try done. unfold quiet. cbn. split_ands; try done. lia.
    + apply (pc_ok_mono (readings s)); [cbn; lia|done].
Qed.

Definition server_ok (c : server) : Prop :=
  exists l kl, let s := net_of c in net_ok l kl (events c) s /\
    (cur_tc s <> 0 -> NoDup (cur_tc s :: l ++ kl) /\ forall t, t ∈ cur_tc s :: l -> pc_ok (readings s) (pcs c t) /\ Forall call_ok (calls c t)).

Lemma server_step_ok c : server_ok c -> cur_tc (net_of c) <> 0 -> exists c', server_step clock fuel c = Some c' /\ server_ok c'.
Proof using Hclock Hnames.
  intros (l & kl & N & Ht) Hc. specialize (Ht Hc) as [Hnd Ht]. unfold server_step. destruct (Z.eqb_spec (cur_tc (net_of c)) 0); [done|].
  destruct (Ht (cur_tc (net_of c))) as [Hp Hcalls]; [by left|].
  destruct (thread_step_ok (head (calls c (cur_tc (net_of c)))) (pcs c (cur_tc (net_of c))) l kl (events c) (net_of c) N Hc Hnd Hp) as (p & ev & r & s' & l' & kl' & -> & N' & Hp' & Hr & Hk).
  { intros x Hx. destruct (calls c _) as [|y ys]; [done|]. injection Hx as ->. by apply Forall_cons in Hcalls as [? _]. }
  eexists. split; [reflexivity|]. exists l', kl'. cbn. split; [done|]. intros Hc'. destruct (Hk Hc') as [Hnd' Hsub]. split; [done|]. intros t Htin. unfold fset.
  destruct (decide (cur_tc (net_of c) = t)) as [<-|Hne].
  - split; [done|]. destruct (pcs c _); cbn; [|done..]. by destruct (calls c _); [|apply Forall_cons in Hcalls as [_ ?]].
  - destruct (Ht t (Hsub t Htin)) as [H1 H2]. split; [|done]. by apply (pc_ok_mono (readings (net_of c))).
Qed.

Lemma reachable_ok c0 c : server_ok c0 -> reachable clock fuel c0 c -> server_ok c.
Proof using Hclock Hnames.
  intros H0. induction 1 as [|c1 c2 _ IH Hs]; [done|]. destruct (decide (cur_tc (net_of c1) = 0)) as [E|E].
  - unfold server_step in Hs. by rewrite E in Hs.
  - destruct (server_step_ok c1 IH E) as (c' & Hs' & Hok). by rewrite Hs in Hs'; injection Hs' as <-.
Qed.

(** A thread that comes back to the loop of [thread_wait] with a token there
    leaves it and takes the token. *)
Lemma back_takes k sem gen w a val msec st l kl evs s c : net_ok l kl evs s -> pc_ok (readings s) (AtBack k sem 0 gen w a val msec st) -> 0 < sem_counter (sems s sem) ->
  exists p1 s1 p2 s2 w' ev s3, thread_step clock fuel c (AtBack k sem 0 gen w a val msec st) s = Ret (p1, [], false) s1 /\ thread_step clock fuel c p1 s1 = Ret (p2, [], false) s2 /\
    thread_step clock fuel c p2 s2 = Ret (AtCall, ev, false) s3 /\ p1 <> AtCall /\ p2 <> AtCall /\ cur_tc s1 = cur_tc s /\ cur_tc s2 = cur_tc s /\ cur_tc s3 = cur_tc s /\
    match k with KFetch b => exists m ms, waiting (mboxes s b) = m :: ms /\ ev = [EvFetch b m w'] | KPost b m _ => ev = [EvPost b m] | KWait => ev = [EvSem sem w'] end.
Proof using Hclock Hnames.
  intros N (K1 & K2 & -> & K3 & K4 & ->) Hcnt. destruct (nk_sems _ _ _ _ N sem K2) as (Hf & Hg & Hmax). cbn [thread_step]. unfold time_msec at 1. 
  set (w' := u32 (w + u32 (u32 (clock (S (readings s))) - a))). set (s1 := set_readings (S (readings s)) s).
  pose proof (wake_quiet (cur_tc s) s (S (S (readings s))) ltac:(lia)) as Hq. cbv zeta in Hq. match type of Hq with quiet s ?st => set (s2 := st) in * end.
  assert (net_ok l kl evs s2) as N2. { rewrite <- (app_nil_r evs). by apply (net_ok_same l kl evs [] s). }
  assert (w' <> SYS_ARCH_TIMEOUT) as Hw'.
  { unfold w'. rewrite clock_u32. pose proof (Hclock (S (readings s))) as [_ ?]. pose proof (Hclock (readings s)) as [? ?]. unfold u32. rewrite (Z.mod_small (clock _ - a)), Z.mod_small by lia. lia. }
  destruct (sem_return_took k sem 0 w' l kl evs s2 N2 K1 ltac:(exact Hcnt) Hw') as (ev & s3 & Hrun & Hq3 & _ & Hev).
  eexists _, s1, (AtSem k sem 0 (G sem) w'), s2, w', ev, s3. split; [msteps; reflexivity|]. split; [|split].
  - cbn [thread_step]. unfold wait_round. msteps. change (sems s1 sem) with (sems s sem). destruct (Z.eqb_spec (sem_v (sems s sem)) (2 ^ 16)) as [E|E].
    { exfalso. unfold sem_v in E. lia. }
    cbn [negb]. rewrite orb_true_r, orb_true_l, andb_false_r. unfold upd_tc, time_msec. msteps. cbn [sems set_tcs s1 set_readings]. rewrite Hg, Z.eqb_refl. cbn [negb]. msteps. reflexivity.
  - cbn [thread_step]. unfold sem_round. change (0 =? 0) with true. cbn [orb]. msteps. change (sems s2 sem) with (sems s sem). destruct (Z.ltb_spec 0 (sem_counter (sems s sem))); [|lia].
    unfold upd_sem. msteps. unfold token_taken in Hrun. by mrun Hrun.
  - split_ands; try done. { by destruct Hq3 as (_ & _ & -> & _). } destruct k; [|done..]. unfold sem_return in Hrun. msteps. revert Hrun. msteps. intros Hrun. by injection Hrun as <- _.
Qed.
End Server.

(** ** A server that starts

    The threads [l] wait for their first turn, the mailboxes [B] have just been
    made by [sys_mbox_new], and the calls are about them and about other
    semaphores that are allocated. *)
Record started (B l : list Z) (alive : Z -> Prop) (c : server) : Prop := {
  st_ready : tq_rep (ready (net_of c)) (tcs (net_of c)) l;
  st_kill : tq_first (kill (net_of c)) = 0;
  st_threads : NoDup (cur_tc (net_of c) :: l);
  st_sems : forall i, alive i -> sem_freed (sems (net_of c) i) = false /\ 0 <= sem_counter (sems (net_of c) i) < 2 ^ 16;
  st_boxes : forall b, b ∈ B -> let e := mboxes (net_of c) b in mb_freed e = false /\ mb_head e = -1 /\ mb_nextq e = 0 /\
    sem_counter (sems (net_of c) (mb_queued_msg e)) = 0 /\ sem_counter (sems (net_of c) (mb_free_msg e)) = 32;
  st_names : names_ok B (fun b => mb_queued_msg (mboxes (net_of c) b)) (fun b => mb_free_msg (mboxes (net_of c) b)) alive;
  st_pcs : forall t, pcs c t = AtCall;
  st_calls : forall t, Forall (call_ok B (fun b => mb_queued_msg (mboxes (net_of c) b)) (fun b => mb_free_msg (mboxes (net_of c) b)) alive) (calls c t);
  st_events : events c = [];
}.

Lemma started_ok clock fuel B l alive c : started B l alive c -> (length l < fuel)%nat -> 
  server_ok clock fuel B (fun b => mb_queued_msg (mboxes (net_of c) b)) (fun b => mb_free_msg (mboxes (net_of c) b)) (fun i => sem_gen (sems (net_of c) i)) alive c.
Proof.
  intros [S1 S2 S3 S4 S5 S6 S7 S8 S9] Hl. exists l, []. cbv zeta. rewrite S9, app_nil_r. split.
  - split; try done.
    + intros i Hi. destruct (S4 i Hi). auto.
    + intros b Hb. destruct (S5 b Hb) as (E1 & E2 & E3 & E4 & E5). assert (ring_size (mboxes (net_of c) b) = 0) as E by (unfold ring_size; by rewrite E2).
      split; rewrite ?E; try done; [|by unfold waiting; rewrite E]. split; lia.
  - intros _. split; [done|]. intros t _. split; [by rewrite S7|done].
Qed.

(** C16: mailboxes are queues.  Whatever threads post to and fetch from them, in
    whatever order and with whatever timeouts, at every moment the messages
    posted to a mailbox are, in their order, those that were fetched from it and
    those that still wait, of which there are never more than the slots; and the
    current thread never runs into an assertion or a panic of sys_arch.c. *)
Theorem mailbox_fifo (clock : nat -> Z) (fuel : nat) (B l : list Z) (alive : Z -> Prop) (c0 c : server) :
  clock_ok clock -> started B l alive c0 -> (length l < fuel)%nat -> reachable clock fuel c0 c ->
  (forall b, b ∈ B -> posted b (events c) = fetched b (events c) ++ waiting (mboxes (net_of c) b) /\ len (waiting (mboxes (net_of c) b)) <= MBOXSLOTS) /\
  (cur_tc (net_of c) <> 0 -> exists c', server_step clock fuel c = Some c').
Proof.
  intros Hclock Hst Hl Hr. pose proof (started_ok clock fuel B l alive c0 Hst Hl) as H0. pose proof (st_names _ _ _ _ Hst) as Hnames. apply (reachable_ok _ _ _ _ _ _ _ Hclock Hnames c0 c H0) in Hr. split.
  - destruct Hr as (l' & kl & N & _). intros b Hb. destruct (nk_boxes _ _ _ _ _ _ _ _ _ _ N b Hb) as [_ _ _ X4 _ _ X7]. split; [done|]. destruct (pending_length _ X4) as [-> ?]. lia.
  - intros Hc. destruct (server_step_ok _ _ _ _ _ _ _ Hclock Hnames c Hr Hc) as (c' & Hs & _). eauto.
Qed.

(** C17: no wakeup is lost.  A thread that waits without a timeout for a semaphore
    that has been signalled takes it in its next turn: from the place behind
    [thread_yield] it is three steps, with no other thread in between, to the
    message that waits longest, to the free slot of the message it posts or to
    the end of [sys_arch_sem_wait]. *)
Theorem mailbox_wakes (clock : nat -> Z) (fuel : nat) (B l : list Z) (alive : Z -> Prop) (c0 c : server) k sem gen w a val msec st :
  clock_ok clock -> started B l alive c0 -> (length l < fuel)%nat -> reachable clock fuel c0 c ->
  let t := cur_tc (net_of c) in
  t <> 0 -> pcs c t = AtBack k sem 0 gen w a val msec st -> 0 < sem_counter (sems (net_of c) sem) ->
  exists c1 c2 c3 w' ev, server_step clock fuel c = Some c1 /\ server_step clock fuel c1 = Some c2 /\ server_step clock fuel c2 = Some c3 /\
    cur_tc (net_of c3) = t /\ pcs c3 t = AtCall /\ calls c3 t = calls c t /\ events c3 = events c ++ ev /\
    match k with KFetch b => exists m ms, waiting (mboxes (net_of c) b) = m :: ms /\ ev = [EvFetch b m w'] | KPost b m _ => ev = [EvPost b m] | KWait => ev = [EvSem sem w'] end.
Proof.
  intros Hclock Hst Hl Hr t Ht Hpc Hcnt. pose proof (started_ok clock fuel B l alive c0 Hst Hl) as H0. pose proof (st_names _ _ _ _ Hst) as Hnames. apply (reachable_ok _ _ _ _ _ _ _ Hclock Hnames c0 c H0) in Hr.
  destruct Hr as (l' & kl & N & Hth). destruct (Hth Ht) as [_ Hth']. destruct (Hth' t) as [Hp _]; [by left|]. rewrite Hpc in Hp.
  destruct (back_takes _ _ _ _ _ _ _ Hclock Hnames k sem gen w a val msec st l' kl _ _ (head (calls c t)) N Hp Hcnt) as (p1 & s1 & p2 & s2 & w' & ev & s3 & R1 & R2 & R3 & P1 & P2 & C1 & C2 & C3 & Hev).
  assert (forall d s p p' e s', net_of d = s -> cur_tc s = t -> pcs d t = p -> calls d t = calls c t -> p <> AtCall -> thread_step clock fuel (head (calls c t)) p s = Ret (p', e, false) s' ->
    exists d', server_step clock fuel d = Some d' /\ net_of d' = s' /\ pcs d' t = p' /\ calls d' t = calls c t /\ events d' = events d ++ e) as Hstep.
  { intros d s p p' e s' Hn Hcur Hpd Hcd Hne Hrun. unfold server_step. rewrite Hn, Hcur. destruct (Z.eqb_spec t 0); [done|]. rewrite Hcd, Hpd, Hrun. eexists. split; [reflexivity|]. cbn. rewrite !fset_eq. split_ands; try done. by destruct p. }
  destruct (Hstep c _ _ _ _ _ eq_refl eq_refl Hpc eq_refl ltac:(done) R1) as (c1 & E1 & N1 & Q1 & L1 & V1).
  destruct (Hstep c1 _ _ _ _ _ N1 C1 Q1 L1 P1 R2) as (c2 & E2 & N2 & Q2 & L2 & V2).
  destruct (Hstep c2 _ _ _ _ _ N2 C2 Q2 L2 P2 R3) as (c3 & E3 & N3 & Q3 & L3 & V3).
  exists c1, c2, c3, w', ev. split_ands; try done; [by rewrite N3|by rewrite V3, V2, V1, !app_nil_r].
Qed.

(** ** A server of two threads

    After [sys_init] and [sys_mbox_new], thread 2 fetches from the new mailbox
    what thread 1 posts to it. *)
Definition zero_net : net := mkNet (fun _ => mkSem false 0 0 0) [] (fun _ => mkMbox false 0 0 (fun _ => 0) 0 0) [] (fun _ => mkTc None false 0) (mkTq 0 0) (mkTq 0 0) 0 0.

Definition duet_net : net :=
  match bind sys_init (fun _ => sys_mbox_new 8) zero_net with
  | Ret _ s => let '(q, cs) := threadq_push (ready s) (tcs s) 1 in set_cur_tc 2 (set_tcs cs (set_ready q s))
  | _ => zero_net
  end.

Definition duet : server := mkServer duet_net (fun _ => AtCall) (fun t => if t =? 1 then [MboxPost 127 7; MboxTryPost 127 8; Yield] else if t =? 2 then [MboxFetch 127 0; MboxFetch 127 50] else []) [].

Definition duet_clock (n : nat) : Z := Z.min (Z.of_nat n) 1000.

Fixpoint run (n : nat) (c : server) : option server := match n with O => Some c | S n => match run n c with Some c => server_step duet_clock 4 c | None => None end end.

Definition duet_at (n : nat) : server := default duet (run n duet).

Lemma duet_reachable n : (if run n duet then true else false) = true -> reachable duet_clock 4 duet (duet_at n).
Proof.
  unfold duet_at. induction n as [|n IH]; cbn [run]; [constructor|]. destruct (run n duet) as [c|]; [|done]. destruct (server_step duet_clock 4 c) as [c'|] eqn:E; [|done].
  intros _. eapply reach_step; [by apply IH|done].
Qed.

Lemma duet_clock_ok : clock_ok duet_clock.
Proof. intros n. unfold duet_clock. lia. Qed.

Lemma duet_started : started [127] [1] (fun i => i ∈ [254; 255]) duet.
Proof.
  split.
  - split; [|intros _; by vm_compute]. cbn [tq_linked]. split_ands; [by vm_compute|lia|by vm_compute].
  - by vm_compute.
  - apply (bool_decide_unpack _). by vm_compute.
  - intros i Hi. repeat (apply elem_of_cons in Hi as [->|Hi]; [vm_compute; split_ands; done|]). by apply elem_of_nil in Hi.
  - intros b Hb. apply list_elem_of_singleton in Hb as ->. vm_compute. split_ands; done.
  - split; [apply (bool_decide_unpack _); by vm_compute|]. intros b Hb. apply list_elem_of_singleton in Hb as ->. split; apply (bool_decide_unpack _); by vm_compute.
  - done.
  - intros t. cbn. destruct (t =? 1), (t =? 2); repeat constructor; cbn; by apply list_elem_of_singleton.
  - done.
Qed.

Lemma mailbox_fifo_witness : (forall b, b ∈ [127] -> posted b (events (duet_at 11)) = fetched b (events (duet_at 11)) ++ waiting (mboxes (net_of (duet_at 11)) b) /\ len (waiting (mboxes (net_of (duet_at 11)) b)) <= MBOXSLOTS) /\
  events (duet_at 11) = [EvPost 127 7; EvPost 127 8; EvFetch 127 7 3] /\ waiting (mboxes (net_of (duet_at 11)) 127) = [8].
Proof.
  split; [|split; by vm_compute]. apply (mailbox_fifo duet_clock 4 [127] [1] (fun i => i ∈ [254; 255]) duet (duet_at 11)); [apply duet_clock_ok|apply duet_started|cbn; lia|].
  apply duet_reachable. by vm_compute.
Defined.

Lemma mailbox_wakes_witness : cur_tc (net_of (duet_at 8)) = 2 /\ exists c1 c2 c3 w' ev, server_step duet_clock 4 (duet_at 8) = Some c1 /\ server_step duet_clock 4 c1 = Some c2 /\ server_step duet_clock 4 c2 = Some c3 /\
    cur_tc (net_of c3) = cur_tc (net_of (duet_at 8)) /\ pcs c3 (cur_tc (net_of (duet_at 8))) = AtCall /\ calls c3 (cur_tc (net_of (duet_at 8))) = calls (duet_at 8) (cur_tc (net_of (duet_at 8))) /\
    events c3 = events (duet_at 8) ++ ev /\ exists m ms, waiting (mboxes (net_of (duet_at 8)) 127) = m :: ms /\ ev = [EvFetch 127 m w'].
Proof.
  split; [by vm_compute|]. apply (mailbox_wakes duet_clock 4 [127] [1] (fun i => i ∈ [254; 255]) duet (duet_at 8) (KFetch 127) 255 1 0 0 65536 4294967295 1); [apply duet_clock_ok|apply duet_started|cbn; lia| | | |].
  - apply duet_reachable. by vm_compute.
  - by vm_compute.
  - by vm_compute.
  - by vm_compute.
Defined.
