(* ===== verification/Inet.v ===== *)
(** Internet addresses and byte order: net/lwip/core/ipv4/inet.c.

    A C string is the list of its characters, as unsigned codes, without the
    final zero; the routines here never read past that zero. *)

From S2P Require Import Prelude.

(** ** Byte order *)

Definition htons (n : Z) : Z := u16 (Z.lor (Z.shiftl (Z.land n 0xff) 8) (Z.shiftr (Z.land n 0xff00) 8)).
Definition ntohs (n : Z) : Z := htons n.
Definition htonl (n : Z) : Z :=
  u32 (Z.lor (Z.lor (Z.lor (Z.shiftl (Z.land n 0xff) 24) (Z.shiftl (Z.land n 0xff00) 8))
             (Z.shiftr (Z.land n 0xff0000) 8)) (Z.shiftr (Z.land n 0xff000000) 24)).
Definition ntohl (n : Z) : Z := htonl n.

(** ** Characters *)

Definition in_range (c lo up : Z) : bool := (lo <=? u8 c) && (u8 c <=? up).
Definition isprint (c : Z) : bool := in_range c 0x20 0x7f.
Definition isdigit (c : Z) : bool := in_range c 48 57.
Definition isxdigit (c : Z) : bool := isdigit c || in_range c 97 102 || in_range c 65 70.
Definition islower (c : Z) : bool := in_range c 97 122.
Definition isspace (c : Z) : bool := (c =? 32) || (c =? 12) || (c =? 10) || (c =? 13) || (c =? 9) || (c =? 11).

(** ** Dotted addresses *)

(** The digits of one number: its value and what follows. *)
Fixpoint aton_number (base val : Z) (cp : list Z) : Z * list Z :=
  match cp with
  | [] => (val, [])
  | c :: cp' =>
      if isdigit c then aton_number base (u32 (val * base + (c - 48))) cp'
      else if (base =? 16) && isxdigit c then
        aton_number base (u32 (Z.lor (u32 (Z.shiftl val 4)) (c + 10 - (if islower c then 97 else 65)))) cp'
      else (val, cp)
  end.

(** The prefix that chooses the base. *)
Definition aton_base (cp : list Z) : Z * list Z :=
  match cp with
  | 48 :: cp' =>
      match cp' with
      | c :: cp'' => if (c =? 120) || (c =? 88) then (16, cp'') else (8, cp')
      | [] => (8, [])
      end
  | _ => (10, cp)
  end.

(** The numbers up to the last; [room] entries of [parts] are left. *)
Fixpoint aton_parts (room : nat) (parts : list Z) (cp : list Z) : option (list Z * Z * list Z) :=
  match cp with
  | [] => None
  | c :: _ =>
      if negb (isdigit c) then None
      else
        let '(base, cp1) := aton_base cp in
        let '(val, cp2) := aton_number base 0 cp1 in
        match cp2 with
        | 46 :: cp3 =>
            match room with
            | O => None
            | S room' => aton_parts room' (parts ++ [val]) cp3
            end
        | _ => Some (parts, val, cp2)
        end
  end.

Definition inet_aton (cp : list Z) : option Z :=
  match aton_parts 3 [] cp with
  | None => None
  | Some (parts, val, rest) =>
      if match rest with [] => false | c :: _ => negb (isprint c) || negb (isspace c) end then None
      else
        match parts with
        | [] => Some (htonl val)
        | [p0] => if 0xffffff <? val then None else Some (htonl (Z.lor val (u32 (Z.shiftl p0 24))))
        | [p0; p1] =>
            if 0xffff <? val then None
            else Some (htonl (Z.lor val (Z.lor (u32 (Z.shiftl p0 24)) (u32 (Z.shiftl p1 16)))))
        | p0 :: p1 :: p2 :: _ =>
            if 0xff <? val then None
            else Some (htonl (Z.lor val (Z.lor (Z.lor (u32 (Z.shiftl p0 24)) (u32 (Z.shiftl p1 16))) (u32 (Z.shiftl p2 8)))))
        end
  end.

Definition INADDR_NONE : Z := 0xffffffff.

Definition inet_addr (cp : list Z) : Z := match inet_aton cp with Some v => v | None => INADDR_NONE end.

(** The digits of a byte, last one first, in [inv]. *)
Fixpoint ntoa_inv (fuel : nat) (ap : Z) : list Z :=
  match fuel with
  | O => []
  | S fuel' => (48 + ap mod 10) :: (if nz (ap / 10) then ntoa_inv fuel' (ap / 10) else [])
  end.

(** The bytes in the order of memory, each followed by a dot; the last dot is
    overwritten by the zero. *)
Definition inet_ntoa (s_addr : Z) : list Z :=
  removelast (concat (map (fun n => rev (ntoa_inv 3 (u8 (Z.shiftr s_addr (8 * n)))) ++ [46]) (seqZ 0 4))).

(** ** Byte order as arithmetic *)

Lemma land_field n m k : 0 <= k -> Z.land n (m * 2 ^ k) = Z.land (n / 2 ^ k) m * 2 ^ k.
Proof.
  intros Hk. rewrite <- !Z.shiftl_mul_pow2, <- Z.shiftr_div_pow2 by done. apply Z.bits_inj'. intros i Hi. rewrite Z.land_spec.
  destruct (Z.lt_ge_cases i k); [by rewrite !Z.shiftl_spec_low, andb_false_r by done|].
  rewrite !Z.shiftl_spec, Z.land_spec, Z.shiftr_spec by lia. do 2 f_equal. lia.
Qed.

Lemma byte_field n k : 0 <= k -> Z.land n (255 * 2 ^ k) = (n / 2 ^ k) mod 256 * 2 ^ k.
Proof. intros Hk. rewrite land_field by done. f_equal. by apply (land_mask _ 8). Qed.

Lemma htons_spec n : 0 <= n < 65536 -> htons n = n mod 256 * 256 + n / 256.
Proof.
  intros Hn. unfold htons. change (Z.land n 0xff) with (Z.land n (2 ^ 8 - 1)). rewrite land_mask by done.
  change 0xff00 with (255 * 2 ^ 8). rewrite byte_field by done. rewrite Z.shiftl_mul_pow2, Z.shiftr_div_pow2, Z.div_mul by done.
  change (2 ^ 8) with 256. rewrite (lor_disjoint (n mod 256) _ 8) by (try done; apply Z.mod_pos_bound; lia). change (2 ^ 8) with 256.
  rewrite (Z.mod_small (n / 256)) by (Z.to_euclidean_division_equations; lia). apply u16_small. Z.to_euclidean_division_equations; lia.
Qed.

(** The four bytes of a word, from the lowest on. *)
Definition word (b0 b1 b2 b3 : Z) : Z := b3 * 2 ^ 24 + (b2 * 2 ^ 16 + (b1 * 2 ^ 8 + b0)).

Lemma lor_word b0 b1 b2 b3 : byte b0 -> byte b1 -> byte b2 -> byte b3 ->
  Z.lor (b3 * 2 ^ 24) (Z.lor (b2 * 2 ^ 16) (Z.lor (b1 * 2 ^ 8) b0)) = word b0 b1 b2 b3 /\ 0 <= word b0 b1 b2 b3 < 2 ^ 32.
Proof. unfold byte, word. intros. rewrite (lor_disjoint b1), (lor_disjoint b2), (lor_disjoint b3) by lia. lia. Qed.

Lemma word_byte b0 b1 b2 b3 : byte b0 -> byte b1 -> byte b2 -> byte b3 ->
  word b0 b1 b2 b3 mod 256 = b0 /\ (word b0 b1 b2 b3 / 2 ^ 8) mod 256 = b1 /\
  (word b0 b1 b2 b3 / 2 ^ 16) mod 256 = b2 /\ (word b0 b1 b2 b3 / 2 ^ 24) mod 256 = b3.
Proof. unfold byte, word. intros. split_ands; Z.to_euclidean_division_equations; lia. Qed.

Lemma word_split n : 0 <= n < 2 ^ 32 -> n = word (n mod 256) ((n / 2 ^ 8) mod 256) ((n / 2 ^ 16) mod 256) ((n / 2 ^ 24) mod 256).
Proof. unfold word. intros. Z.to_euclidean_division_equations; lia. Qed.

Lemma htonl_word b0 b1 b2 b3 : byte b0 -> byte b1 -> byte b2 -> byte b3 -> htonl (word b0 b1 b2 b3) = word b3 b2 b1 b0.
Proof.
  intros B0 B1 B2 B3. destruct (word_byte b0 b1 b2 b3) as (E0 & E1 & E2 & E3); try done. unfold htonl.
  change (Z.land ?n 0xff) with (Z.land n (2 ^ 8 - 1)). rewrite land_mask by done.
  change 0xff00 with (255 * 2 ^ 8). change 0xff0000 with (255 * 2 ^ 16). change 0xff000000 with (255 * 2 ^ 24). rewrite !byte_field by done.
  change (word b0 b1 b2 b3 mod 2 ^ 8) with (word b0 b1 b2 b3 mod 256). rewrite E0, E1, E2, E3, !Z.shiftl_mul_pow2, !Z.shiftr_div_pow2 by done.
  rewrite Z.div_mul by done. replace (b1 * 2 ^ 8 * 2 ^ 8) with (b1 * 2 ^ 16) by lia. replace (b2 * 2 ^ 16 / 2 ^ 8) with (b2 * 2 ^ 8) by (Z.to_euclidean_division_equations; lia).
  rewrite <- !Z.lor_assoc. destruct (lor_word b3 b2 b1 b0) as [-> Hr]; try done. by apply u32_small.
Qed.

(** ** Printing and reading back *)

(** The value of decimal digits as the loop computes it. *)
Definition decimal (l : list Z) : Z := foldl (fun v c => u32 (v * 10 + (c - 48))) 0 l.

Definition byte_digits (b : Z) : list Z := rev (ntoa_inv 3 b).

(** A byte printed: at most three digits, with its value, and no leading zero
    that would make it octal. *)
Lemma byte_digits_ok b : byte b ->
  decimal (byte_digits b) = b /\ Forall (fun c => isdigit c = true) (byte_digits b) /\ (length (byte_digits b) <= 3)%nat /\
  (b <> 0 -> head (byte_digits b) <> Some 48 /\ byte_digits b <> []).
Proof.
  intros Hb. assert (Forall (fun b => decimal (byte_digits b) = b /\ Forall (fun c => isdigit c = true) (byte_digits b) /\ (length (byte_digits b) <= 3)%nat /\
    (b <> 0 -> head (byte_digits b) <> Some 48 /\ byte_digits b <> [])) (seqZ 0 256)) as Hall.
  { apply (bool_decide_unpack _). by vm_compute. }
  rewrite Forall_forall in Hall. apply Hall. apply elem_of_seqZ. unfold byte in Hb. lia.
Qed.

(** What may follow a number: the end or a dot. *)
Definition stops (rest : list Z) : Prop := rest = [] \/ exists r, rest = 46 :: r.

Lemma aton_number_digits base ds rest : forall v, Forall (fun c => isdigit c = true) ds -> stops rest ->
  aton_number base v (ds ++ rest) = (foldl (fun v c => u32 (v * base + (c - 48))) v ds, rest).
Proof.
  induction ds as [|d ds IH]; intros v Hd Hs; cbn [app foldl].
  - destruct Hs as [->|[r ->]]; [done|]. cbn [aton_number]. change (isdigit 46) with false. change (isxdigit 46) with false. by rewrite andb_false_r.
  - apply Forall_cons in Hd as [Hd Hds]. cbn [aton_number]. rewrite Hd. by apply IH.
Qed.

Lemma aton_byte b rest : byte b -> stops rest ->
  exists c l, byte_digits b ++ rest = c :: l /\ isdigit c = true /\
  (let '(base, cp) := aton_base (byte_digits b ++ rest) in aton_number base 0 cp) = (b, rest).
Proof.
  intros Hb Hs. destruct (byte_digits_ok b Hb) as (Hv & Hd & _ & H0). destruct (Z.eq_dec b 0) as [->|Hne].
  - exists 48, rest. split; [done|]. split; [done|]. destruct Hs as [->|[r ->]]; reflexivity.
  - destruct (H0 Hne) as [Hh Hn]. destruct (byte_digits b) as [|c ds] eqn:E; [done|]. exists c, (ds ++ rest). split; [done|].
    pose proof Hd as Hd'. apply Forall_cons in Hd' as [Hc _]. split; [done|].
    assert (aton_base ((c :: ds) ++ rest) = (10, (c :: ds) ++ rest)) as ->.
    { cbn [app]. unfold aton_base. repeat (case_match; try done). }
    rewrite aton_number_digits by done. f_equal. exact Hv.
Qed.

Lemma aton_parts_byte room parts b rest : byte b -> stops rest ->
  aton_parts room parts (byte_digits b ++ rest) =
    match rest with 46 :: cp => match room with O => None | S room' => aton_parts room' (parts ++ [b]) cp end | _ => Some (parts, b, rest) end.
Proof.
  intros Hb Hs. destruct (aton_byte b rest Hb Hs) as (c & l & E & Hc & Hn). unfold aton_parts at 1. fold aton_parts.
  destruct room; cbn [aton_parts]; rewrite E, Hc; cbn [negb]; rewrite E in Hn; destruct (aton_base (c :: l)) as [base cp]; rewrite Hn; done.
Qed.

(** The four numbers of an address. *)
Lemma inet_ntoa_bytes b0 b1 b2 b3 : byte b0 -> byte b1 -> byte b2 -> byte b3 ->
  inet_ntoa (word b0 b1 b2 b3) = byte_digits b0 ++ 46 :: byte_digits b1 ++ 46 :: byte_digits b2 ++ 46 :: byte_digits b3.
Proof.
  intros B0 B1 B2 B3. destruct (word_byte b0 b1 b2 b3) as (E0 & E1 & E2 & E3); try done. unfold inet_ntoa.
  change (seqZ 0 4) with [0; 1; 2; 3]. cbn [map concat]. unfold u8. rewrite !Z.shiftr_div_pow2 by done.
  change (2 ^ (8 * 0)) with 1. rewrite Z.div_1_r. change (2 ^ (8 * 1)) with (2 ^ 8). change (2 ^ (8 * 2)) with (2 ^ 16). change (2 ^ (8 * 3)) with (2 ^ 24).
  change (?x mod 2 ^ 8) with (x mod 256). rewrite E0, E1, E2, E3, app_nil_r. fold (byte_digits b0) (byte_digits b1) (byte_digits b2) (byte_digits b3).
  rewrite <- !app_assoc. cbn [app]. rewrite !app_comm_cons, !app_assoc. by rewrite removelast_last.
Qed.

Lemma inet_aton_bytes b0 b1 b2 b3 : byte b0 -> byte b1 -> byte b2 -> byte b3 ->
  inet_aton (byte_digits b0 ++ 46 :: byte_digits b1 ++ 46 :: byte_digits b2 ++ 46 :: byte_digits b3) = Some (word b0 b1 b2 b3).
Proof.
  intros B0 B1 B2 B3. unfold inet_aton. rewrite aton_parts_byte by (try done; right; by eexists).
  rewrite aton_parts_byte by (try done; right; by eexists). rewrite aton_parts_byte by (try done; right; by eexists).
  rewrite <- (app_nil_r (byte_digits b3)), aton_parts_byte by (try done; by left). cbn [app].
  destruct (Z.ltb_spec 255 b3); [unfold byte in *; lia|]. f_equal. rewrite !Z.shiftl_mul_pow2 by done.
  rewrite !u32_small by (unfold byte in *; lia). rewrite Z.lor_comm, <- !Z.lor_assoc.
  destruct (lor_word b3 b2 b1 b0) as [-> _]; try done. by apply htonl_word.
Qed.

(** C21: every address printed by [inet_ntoa] reads back through [inet_aton] and
    [inet_addr] as the same address, and the text fits into the static buffer of
    16 characters. *)
Theorem inet_aton_ntoa s_addr : 0 <= s_addr < 2 ^ 32 ->
  inet_aton (inet_ntoa s_addr) = Some s_addr /\ inet_addr (inet_ntoa s_addr) = s_addr /\ (length (inet_ntoa s_addr) < 16)%nat.
Proof.
  intros Hs. pose proof (Z.mod_pos_bound s_addr 256 ltac:(lia)). pose proof (Z.mod_pos_bound (s_addr / 2 ^ 8) 256 ltac:(lia)).
  pose proof (Z.mod_pos_bound (s_addr / 2 ^ 16) 256 ltac:(lia)). pose proof (Z.mod_pos_bound (s_addr / 2 ^ 24) 256 ltac:(lia)).
  rewrite (word_split s_addr Hs). revert H H0 H1 H2. generalize (s_addr mod 256) ((s_addr / 2 ^ 8) mod 256) ((s_addr / 2 ^ 16) mod 256) ((s_addr / 2 ^ 24) mod 256).
  intros b0 b1 b2 b3 B0 B1 B2 B3. unfold inet_addr. rewrite inet_ntoa_bytes, inet_aton_bytes by done. split_ands; try done.
  destruct (byte_digits_ok b0 B0) as (_ & _ & L0 & _). destruct (byte_digits_ok b1 B1) as (_ & _ & L1 & _).
  destruct (byte_digits_ok b2 B2) as (_ & _ & L2 & _). destruct (byte_digits_ok b3 B3) as (_ & _ & L3 & _).
  repeat (rewrite length_app; cbn [length]). lia.
Qed.

Lemma inet_aton_ntoa_witness : inet_ntoa 0x0f02000a = chars "10.0.2.15" /\ inet_aton (chars "10.0.2.15") = Some 0x0f02000a.
Proof.
  split; [reflexivity|]. destruct (inet_aton_ntoa 0x0f02000a) as (H & _); [split; [discriminate|reflexivity]|exact H].
Defined.

(** The first three numbers are not compared with 255. *)
Lemma inet_aton_parts_wrap : inet_aton (chars "266.0.2.15") = inet_aton (chars "10.0.2.15").
Proof. reflexivity. Qed.
