(* ===== verification/InetChksum.v ===== *)
(** Internet checksums: net/lwip/core/ipv4/inet_chksum.c, with all three versions of
    [lwip_standard_chksum] that the configuration may choose from, and their
    correctness against the one's complement sum of RFC 1071.

    The bytes at a pointer are a list; a chain of packet buffers is the list of
    their payloads, each as long as its [len]. The machine stores the low byte of
    a word first. *)

From S2P Require Import Prelude Inet.

Definition SWAP_BYTES_IN_WORD (w : Z) : Z := u32 (Z.lor (Z.shiftl (Z.land w 0xff) 8) (Z.shiftr (Z.land w 0xff00) 8)).
Definition FOLD_U32T (u : Z) : Z := u32 (Z.shiftr u 16 + Z.land u 0xffff).

(** ** The three versions *)

Fixpoint chksum_octets (acc : Z) (octetptr : list Z) : Z :=
  match octetptr with
  | a :: b :: l => chksum_octets (u32 (acc + u16 (Z.lor (u16 (Z.shiftl a 8)) b))) l
  | [a] => u32 (acc + u16 (Z.shiftl a 8))
  | [] => acc
  end.

Definition lwip_standard_chksum (data : list Z) : Z :=
  let acc := chksum_octets 0 data in
  let acc := FOLD_U32T acc in
  let acc := if nz (Z.land acc 0xffff0000) then FOLD_U32T acc else acc in
  htons (u16 acc).

(** Reading [u16_t] words until less than two bytes are left. *)
Fixpoint sum_words (sum : Z) (ps : list Z) : Z * list Z :=
  match ps with
  | a :: b :: l => sum_words (u32 (sum + (a + 256 * b))) l
  | _ => (sum, ps)
  end.

(** The byte that aligns the pointer goes into the high byte of [t]. *)
Definition align_byte (odd : bool) (pb : list Z) : Z * list Z :=
  match odd, pb with
  | true, b :: l => (b * 256, l)
  | _, _ => (0, pb)
  end.

(** The low byte of [t]. *)
Definition tail_byte (l : list Z) : Z := match l with b :: _ => b | [] => 0 end.

Definition lwip_standard_chksum_2 (dataptr : Z) (data : list Z) : Z :=
  let odd := nz (Z.land (u32 dataptr) 1) in
  let '(t, ps) := align_byte odd data in
  let '(sum, rest) := sum_words 0 ps in
  let t := Z.lor t (tail_byte rest) in
  let sum := u32 (sum + t) in
  let sum := FOLD_U32T sum in
  let sum := FOLD_U32T sum in
  let sum := if odd then SWAP_BYTES_IN_WORD sum else sum in
  u16 sum.

(** One addition with the carry added back. *)
Definition add_carry (sum x : Z) : Z :=
  let tmp := u32 (sum + x) in
  if tmp <? sum then u32 (tmp + 1) else tmp.

(** Eight bytes at a time. *)
Fixpoint sum_longs (sum : Z) (pl : list Z) : Z * list Z :=
  match pl with
  | a :: b :: c :: d :: e :: f :: g :: h :: l => sum_longs (add_carry (add_carry sum (word a b c d)) (word e f g h)) l
  | _ => (sum, pl)
  end.

Definition lwip_standard_chksum_3 (dataptr : Z) (data : list Z) : Z :=
  let odd := nz (Z.land (u32 dataptr) 1) in
  let '(t, ps) := align_byte odd data in
  let ps_addr := dataptr + Z.of_nat (length data - length ps) in
  let '(sum, pl) :=
    match ps with
    | a :: b :: l => if nz (Z.land (u32 ps_addr) 3) then (u32 (0 + (a + 256 * b)), l) else (0, ps)
    | _ => (0, ps)
    end in
  let '(sum, ps) := sum_longs sum pl in
  let sum := FOLD_U32T sum in
  let '(sum, rest) := sum_words sum ps in
  let t := Z.lor t (tail_byte rest) in
  let sum := u32 (sum + t) in
  let sum := FOLD_U32T sum in
  let sum := FOLD_U32T sum in
  let sum := if odd then SWAP_BYTES_IN_WORD sum else sum in
  u16 sum.

(** ** Checksums of packets *)

Definition inet_chksum (data : list Z) : Z := u16 (Z.lnot (lwip_standard_chksum data)).

(** One buffer of a chain. *)
Definition chksum_pbuf (acc swapped : Z) (len : Z) (bytes : list Z) : Z * Z :=
  let acc := u32 (acc + lwip_standard_chksum bytes) in
  let acc := FOLD_U32T acc in
  if nz (len mod 2) then (SWAP_BYTES_IN_WORD acc, u8 (1 - swapped)) else (acc, swapped).

Fixpoint chksum_chain (acc swapped : Z) (q : list (list Z)) : Z * Z :=
  match q with
  | [] => (acc, swapped)
  | payload :: q' =>
      let '(acc, swapped) := chksum_pbuf acc swapped (Z.of_nat (length payload)) payload in
      chksum_chain acc swapped q'
  end.

Definition inet_chksum_pbuf (p : list (list Z)) : Z :=
  let '(acc, swapped) := chksum_chain 0 0 p in
  let acc := if nz swapped then SWAP_BYTES_IN_WORD acc else acc in
  u16 (Z.lnot (Z.land acc 0xffff)).

(** The pseudo header and the final folding. *)
Definition chksum_pseudo_end (acc swapped src dest proto proto_len : Z) : Z :=
  let acc := if nz swapped then SWAP_BYTES_IN_WORD acc else acc in
  let acc := u32 (acc + Z.land src 0xffff) in
  let acc := u32 (acc + Z.land (Z.shiftr src 16) 0xffff) in
  let acc := u32 (acc + Z.land dest 0xffff) in
  let acc := u32 (acc + Z.land (Z.shiftr dest 16) 0xffff) in
  let acc := u32 (acc + htons (u16 proto)) in
  let acc := u32 (acc + htons proto_len) in
  let acc := FOLD_U32T acc in
  let acc := FOLD_U32T acc in
  u16 (Z.lnot (Z.land acc 0xffff)).

Definition inet_chksum_pseudo (p : list (list Z)) (src dest proto proto_len : Z) : Z :=
  let '(acc, swapped) := chksum_chain 0 0 p in
  chksum_pseudo_end acc swapped src dest proto proto_len.

(** Only the first [chksum_len] bytes; [None] is the failed assertion. *)
Fixpoint chksum_chain_partial (acc swapped chksum_len : Z) (q : list (list Z)) : option (Z * Z) :=
  match q with
  | [] => Some (acc, swapped)
  | payload :: q' =>
      if 0 <? chksum_len then
        let len := Z.of_nat (length payload) in
        let chklen := if chksum_len <? len then chksum_len else len in
        let chksum_len := u16 (chksum_len - chklen) in
        if chksum_len <? 0x7fff then
          let '(acc, swapped) := chksum_pbuf acc swapped len (take (Z.to_nat chklen) payload) in
          chksum_chain_partial acc swapped chksum_len q'
        else None
      else Some (acc, swapped)
  end.

Definition inet_chksum_pseudo_partial (p : list (list Z)) (src dest proto proto_len chksum_len : Z) : option Z :=
  match chksum_chain_partial 0 0 chksum_len p with
  | Some (acc, swapped) => Some (chksum_pseudo_end acc swapped src dest proto proto_len)
  | None => None
  end.

(** ** The reference: one's complement sums *)

Definition ones_add (a b : Z) : Z := if 65535 <? a + b then a + b - 65535 else a + b.

(** The words in network order, a last byte padded with zero. *)
Fixpoint words (l : list Z) : list Z :=
  match l with
  | a :: b :: l' => (256 * a + b) :: words l'
  | [a] => [256 * a]
  | [] => []
  end.

Definition rfc1071 (l : list Z) : Z := 65535 - foldl ones_add 0 (words l).

(** ** Numbers up to end-around carry

    [oc n] is the 16-bit number that the carries fold [n] into: two sums are the
    same if they agree modulo 65535 and are both zero or both not. *)

Definition oc (n : Z) : Z := if n =? 0 then 0 else (n - 1) mod 65535 + 1.

Lemma oc_range n : 0 <= oc n <= 65535.
Proof. unfold oc. destruct (Z.eqb_spec n 0); [lia|]. pose proof (Z.mod_pos_bound (n - 1) 65535 ltac:(lia)). lia. Qed.

Definition same (n m : Z) : Prop := 0 <= n /\ 0 <= m /\ n mod 65535 = m mod 65535 /\ (n = 0 <-> m = 0).

Lemma oc_same n m : same n m -> oc n = oc m.
Proof.
  intros (Hn & Hm & Hmod & Hz). unfold oc. destruct (Z.eqb_spec n 0), (Z.eqb_spec m 0); [done|tauto|tauto|].
  f_equal. by rewrite (Zminus_mod n), (Zminus_mod m), Hmod.
Qed.

Lemma same_oc n : 0 <= n -> same (oc n) n.
Proof.
  intros Hn. unfold same, oc. destruct (Z.eqb_spec n 0) as [->|]; [done|]. pose proof (Z.mod_pos_bound (n - 1) 65535 ltac:(lia)).
  split_ands; try lia. rewrite Zplus_mod_idemp_l. f_equal. lia.
Qed.

Lemma oc_small n : 0 <= n <= 65535 -> oc n = n.
Proof. intros Hn. unfold oc. destruct (Z.eqb_spec n 0); [done|]. rewrite Z.mod_small; lia. Qed.

Lemma same_refl n : 0 <= n -> same n n.
Proof. unfold same. tauto. Qed.

Lemma same_sym n m : same n m -> same m n.
Proof. unfold same. intuition. Qed.

Lemma same16_trans a b c : same a b -> same b c -> same a c.
Proof. unfold same. intros (? & ? & E & ?) (? & ? & E' & ?). rewrite E. tauto. Qed.

Lemma same_add a b c d : same a b -> same c d -> same (a + c) (b + d).
Proof.
  intros (? & ? & E & ?) (? & ? & E' & ?). do 2 (split; [lia|]). split; [|lia]. by rewrite Z.add_mod, E, E', <- Z.add_mod by done.
Qed.

Lemma same_mul k a b : 0 < k -> same a b -> same (k * a) (k * b).
Proof. intros Hk (? & ? & E & ?). do 2 (split; [lia|]). split; [|lia]. by rewrite Z.mul_mod, E, <- Z.mul_mod by done. Qed.

(** Multiplying by 65536 changes nothing. *)
Lemma same_65536 n : 0 <= n -> same (65536 * n) n.
Proof.
  intros Hn. do 2 (split; [lia|]). split; [|lia]. replace (65536 * n) with (n + n * 65535) by lia. by rewrite Z_mod_plus_full.
Qed.

Lemma same_65536_add a b : 0 <= a -> 0 <= b -> same (65536 * a + b) (a + b).
Proof. intros. apply same_add; [by apply same_65536|by apply same_refl]. Qed.

#[local] Hint Resolve same_refl same_add : core.

Lemma fold_u32t n : 0 <= n < 2 ^ 32 -> FOLD_U32T n = n / 65536 + n mod 65536.
Proof.
  intros Hn. unfold FOLD_U32T. change 0xffff with (2 ^ 16 - 1). rewrite land_mask, Z.shiftr_div_pow2 by done. change (2 ^ 16) with 65536.
  apply u32_small. Z.to_euclidean_division_equations; lia.
Qed.

Lemma fold_same n : 0 <= n < 2 ^ 32 -> same (FOLD_U32T n) n.
Proof.
  intros Hn. rewrite fold_u32t by done. apply same_sym. rewrite (Z.div_mod n 65536) at 1 by done.
  apply same_65536_add; Z.to_euclidean_division_equations; lia.
Qed.

(** One folding is enough for the sum of two words. *)
Lemma fold_once n : 0 <= n <= 131070 -> FOLD_U32T n = oc n.
Proof.
  intros Hn. rewrite <- (oc_same (FOLD_U32T n) n) by (apply fold_same; lia). symmetry. apply oc_small. rewrite fold_u32t by lia.
  Z.to_euclidean_division_equations; lia.
Qed.

Lemma fold_twice n : 0 <= n < 2 ^ 32 -> FOLD_U32T (FOLD_U32T n) = oc n.
Proof.
  intros Hn. rewrite (fold_once (FOLD_U32T n)); [by apply oc_same, fold_same|]. rewrite fold_u32t by done. Z.to_euclidean_division_equations; lia.
Qed.

Lemma fold_add a b : 0 <= a -> 0 <= b -> FOLD_U32T (u32 (oc a + oc b)) = oc (a + b).
Proof.
  intros Ha Hb. pose proof (oc_range a). pose proof (oc_range b). rewrite u32_small by lia. rewrite fold_once by lia. apply oc_same.
  auto using same_oc.
Qed.

(** Exchanging the bytes is multiplying by 256. *)
Lemma htons_oc n : 0 <= n -> htons (oc n) = oc (256 * n).
Proof.
  intros Hn. pose proof (oc_range n). rewrite htons_spec by lia. set (w := oc n) in *.
  rewrite <- (oc_small (w mod 256 * 256 + w / 256)) by (Z.to_euclidean_division_equations; lia). apply oc_same.
  apply (same16_trans _ (256 * w)); [|by apply same_mul, same_oc]. apply same_sym. rewrite (Z.div_mod w 256) at 1 by done.
  replace (256 * (256 * (w / 256) + w mod 256)) with (65536 * (w / 256) + w mod 256 * 256) by lia. rewrite (Z.add_comm (w mod 256 * 256)).
  apply same_65536_add; Z.to_euclidean_division_equations; lia.
Qed.

Lemma swap_oc n : 0 <= n -> SWAP_BYTES_IN_WORD (oc n) = oc (256 * n).
Proof.
  intros Hn. rewrite <- htons_oc by done. pose proof (oc_range n). unfold SWAP_BYTES_IN_WORD, htons. set (x := Z.lor _ _).
  assert (0 <= x < 2 ^ 16) as Hx; [|rewrite u32_small, u16_small by lia; done]. apply lor_range; [done|..].
  - change 0xff with (2 ^ 8 - 1). rewrite land_mask, Z.shiftl_mul_pow2 by done. Z.to_euclidean_division_equations; lia.
  - change 0xff00 with (255 * 2 ^ 8). rewrite byte_field, Z.shiftr_div_pow2, Z.div_mul by done. Z.to_euclidean_division_equations; lia.
Qed.

(** ** The sum of the words of a buffer *)

Lemma list_ind2 {A : Type} (P : list A -> Prop) : P [] -> (forall a, P [a]) -> (forall a b l, P l -> P (a :: b :: l)) -> forall l, P l.
Proof.
  intros H0 H1 H2. assert (forall l, P l /\ forall a, P (a :: l)) as Hl; [|intros l; apply Hl]. induction l as [|b l [IH1 IH2]]; [by split|].
  split; [apply IH2|]. intros a. by apply H2.
Qed.

(** In network order, and in the order of the machine. *)
Fixpoint be (l : list Z) : Z := match l with a :: b :: l' => 256 * a + b + be l' | [a] => 256 * a | [] => 0 end.
Fixpoint le (l : list Z) : Z := match l with a :: b :: l' => a + 256 * b + le l' | [a] => a | [] => 0 end.

Definition bytes (l : list Z) : Prop := Forall byte l.

Lemma bytes_cons a l : bytes (a :: l) <-> byte a /\ bytes l.
Proof. apply Forall_cons. Qed.

Lemma be_range l : bytes l -> 0 <= 2 * be l <= 65535 * (Z.of_nat (length l) + 1).
Proof.
  induction l as [|a|a b l IH] using list_ind2; intros Hb; rewrite ?bytes_cons in Hb; unfold byte in Hb; cbn [be length]; [lia..|].
  destruct Hb as (Ha & Hb & Hl). specialize (IH Hl). lia.
Qed.

Lemma le_same l : bytes l -> same (256 * be l) (le l).
Proof.
  induction l as [|a|a b l IH] using list_ind2; intros Hb; [by apply same_refl| |]; rewrite !bytes_cons in Hb; unfold byte in Hb; cbn [be le].
  - replace (256 * (256 * a)) with (65536 * a) by lia. apply same_65536. lia.
  - replace (256 * (256 * a + b + be l)) with (65536 * a + 256 * b + 256 * be l) by lia. apply same_add; [|tauto]. apply same_65536_add; lia.
Qed.

Lemma le_nonneg l : bytes l -> 0 <= le l.
Proof. intros Hb. by destruct (le_same l Hb) as (_ & H & _). Qed.

(** A buffer that starts one byte earlier. *)
Lemma le_cons a l : byte a -> bytes l -> same (le (a :: l)) (a + 256 * le l).
Proof.
  revert a. induction l as [|b|b c l IH] using list_ind2; intros a Ha Hl; rewrite ?bytes_cons in Hl; unfold byte in *.
  - cbn [le]. rewrite Z.mul_0_r, Z.add_0_r. apply same_refl. lia.
  - cbn [le]. rewrite Z.add_0_r. apply same_refl. lia.
  - destruct Hl as (Hb & Hc & Hl). pose proof (le_nonneg l Hl). change (le (a :: b :: c :: l)) with (a + 256 * b + le (c :: l)). change (le (b :: c :: l)) with (b + 256 * c + le l).
    apply (same16_trans _ (a + 256 * b + (c + 256 * le l))); [apply same_add; [apply same_refl; lia|by apply IH]|].
    replace (a + 256 * (b + 256 * c + le l)) with (a + 256 * b + (65536 * c + 256 * le l)) by lia. apply same_add; [apply same_refl; lia|].
    apply same_sym, same_65536_add; lia.
Qed.

(** [256 ^ n] for the number of bytes before: only its parity matters. *)
Definition shift (n : nat) (x : Z) : Z := if Nat.even n then x else 256 * x.

Lemma shift_nonneg n x : 0 <= x -> 0 <= shift n x.
Proof. unfold shift. destruct (Nat.even n); lia. Qed.

Lemma shift_same n a b : same a b -> same (shift n a) (shift n b).
Proof. unfold shift. destruct (Nat.even n); [done|]. by apply same_mul. Qed.

Lemma shift_shift n m x : 0 <= x -> same (shift n (shift m x)) (shift (n + m) x).
Proof.
  intros Hx. unfold shift. rewrite Nat.even_add. destruct (Nat.even n), (Nat.even m); cbn [eqb]; try (apply same_refl; lia).
  replace (256 * (256 * x)) with (65536 * x) by lia. by apply same_65536.
Qed.

Lemma le_app a b : bytes a -> bytes b -> same (le (a ++ b)) (le a + shift (length a) (le b)).
Proof.
  intros Ha Hb. pose proof (le_nonneg b Hb) as Hn. induction a as [|x|x y a IH] using list_ind2; cbn [app].
  - cbn [le length]. apply same_refl. done.
  - apply bytes_cons in Ha as [Hx _]. apply (le_cons x b Hx Hb).
  - rewrite !bytes_cons in Ha. destruct Ha as (Hx & Hy & Ha). cbn [le]. change (shift (length (x :: y :: a)) (le b)) with (shift (length a) (le b)).
    rewrite <- (Z.add_assoc (x + 256 * y) (le a)). apply same_add; [|by apply IH].
    apply same_refl. unfold byte in *. lia.
Qed.

(** ** The versions compute the sum *)

Lemma octet_word a b : byte a -> byte b -> u16 (Z.lor (u16 (Z.shiftl a 8)) b) = 256 * a + b.
Proof.
  unfold byte. intros Ha Hb. rewrite Z.shiftl_mul_pow2 by done. rewrite (u16_small (a * 2 ^ 8)) by lia. rewrite lor_disjoint by lia. rewrite u16_small; lia.
Qed.

Lemma chksum_octets_sum l : forall acc, bytes l -> 0 <= acc -> acc + be l < 2 ^ 32 -> chksum_octets acc l = acc + be l.
Proof.
  induction l as [|a|a b l IH] using list_ind2; intros acc Hb Ha Hs; rewrite ?bytes_cons in Hb; cbn [chksum_octets be] in *.
  - lia.
  - destruct Hb as [Hb _]. unfold byte in Hb. rewrite Z.shiftl_mul_pow2 by done. rewrite u16_small, u32_small; lia.
  - destruct Hb as (Ha' & Hb & Hl). pose proof (be_range l Hl). rewrite octet_word by done. unfold byte in *. rewrite u32_small by lia. rewrite IH; try done; lia.
Qed.

Lemma be_bound l : bytes l -> Z.of_nat (length l) < 65536 -> 0 <= be l < 2 ^ 32.
Proof.
  intros Hb Hl. pose proof (be_range l Hb). lia.
Qed.

Lemma chksum_1 l : bytes l -> Z.of_nat (length l) < 65536 -> lwip_standard_chksum l = oc (le l).
Proof.
  intros Hb Hl. pose proof (be_bound l Hb Hl) as Hr. unfold lwip_standard_chksum. rewrite chksum_octets_sum by (try done; lia). rewrite Z.add_0_l.
  set (f := FOLD_U32T (be l)). assert (0 <= f <= 131070) as Hf by (subst f; rewrite fold_u32t by done; Z.to_euclidean_division_equations; lia).
  assert ((if nz (Z.land f 0xffff0000) then FOLD_U32T f else f) = oc (be l)) as ->.
  { rewrite <- fold_twice by done. fold f. destruct (nz (Z.land f 0xffff0000)) eqn:E; [done|]. rewrite fold_u32t by lia.
    apply nz_false in E. change 0xffff0000 with (65535 * 2 ^ 16) in E. rewrite land_field in E by done.
    change 65535 with (2 ^ 16 - 1) in E. rewrite land_mask in E by done. change (2 ^ 16) with 65536 in E.
    assert (f / 65536 = 0) as -> by (Z.to_euclidean_division_equations; lia). rewrite Z.add_0_l. rewrite Z.mod_small; [done|]. Z.to_euclidean_division_equations; lia. }
  pose proof (oc_range (be l)). rewrite u16_small by lia. rewrite htons_oc by lia. by apply oc_same, le_same.
Qed.

Lemma le_range l : bytes l -> 0 <= 2 * le l <= 65535 * (Z.of_nat (length l) + 1).
Proof.
  induction l as [|a|a b l IH] using list_ind2; intros Hb; rewrite ?bytes_cons in Hb; unfold byte in Hb; cbn [le length]; [lia..|].
  destruct Hb as (Ha & Hb & Hl). specialize (IH Hl). lia.
Qed.

Lemma sum_words_sum l : forall sum, bytes l -> 0 <= sum -> sum + le l < 2 ^ 32 ->
  let '(s, r) := sum_words sum l in 0 <= s /\ byte (tail_byte r) /\ s + tail_byte r = sum + le l.
Proof.
  induction l as [|a|a b l IH] using list_ind2; intros sum Hb Hs Ht; rewrite ?bytes_cons in Hb; cbn [sum_words le tail_byte] in *.
  - unfold byte. lia.
  - split; [lia|]. split; [tauto|lia].
  - destruct Hb as (Ha & Hb & Hl). pose proof (le_range l Hl). unfold byte in *. rewrite u32_small by lia.
    specialize (IH (sum + (a + 256 * b)) Hl). destruct (sum_words _ l) as [s r]. destruct IH as (H1 & H2 & H3); lia.
Qed.

(** The byte in front and the rest. *)
Lemma align_byte_spec odd l : bytes l -> let '(t, r) := align_byte odd l in
  exists b, byte b /\ t = b * 256 /\ bytes r /\ (length r <= length l)%nat /\
  same (if odd then 256 * (t + le r) else t + le r) (le l).
Proof.
  intros Hb. destruct odd, l as [|b l]; cbn [align_byte].
  1, 3, 4: exists 0; repeat split; try done; try (apply same_refl; by apply le_nonneg); try lia.
  apply bytes_cons in Hb as [Hb Hl]. exists b. split_ands; try done; [cbn; lia|].
  replace (256 * (b * 256 + le l)) with (65536 * b + 256 * le l) by lia. apply (same16_trans _ (b + 256 * le l)); [|by apply same_sym, le_cons].
  pose proof (le_nonneg l Hl). unfold byte in Hb. apply same_65536_add; lia.
Qed.

(** The end of both versions: the two single bytes, the folding and the swap. *)
Lemma chksum_end (odd : bool) t s r l n : byte t -> 0 <= s -> byte r -> s + 256 * t + r < 2 ^ 32 -> same (s + r) n ->
  same (if odd then 256 * (t * 256 + n) else t * 256 + n) (le l) ->
  u16 (if odd then SWAP_BYTES_IN_WORD (FOLD_U32T (FOLD_U32T (u32 (s + Z.lor (t * 256) r)))) else FOLD_U32T (FOLD_U32T (u32 (s + Z.lor (t * 256) r)))) = oc (le l).
Proof.
  intros Ht Hs Hr Hlt Hn Hl. assert (Z.lor (t * 256) r = t * 256 + r) as -> by (apply (lor_disjoint t r 8); [done|exact Hr]). unfold byte in *. rewrite u32_small by lia.
  rewrite fold_twice by lia. rewrite swap_oc by lia.
  assert (same (s + (t * 256 + r)) (t * 256 + n)) as Hx by (replace (s + (t * 256 + r)) with (t * 256 + (s + r)) by lia; apply same_add; [apply same_refl; lia|done]).
  rewrite <- (oc_same _ _ Hl). destruct odd.
  - rewrite <- (oc_same _ _ (same_mul 256 _ _ ltac:(lia) Hx)). pose proof (oc_range (256 * (s + (t * 256 + r)))). rewrite u16_small; [done|lia].
  - rewrite <- (oc_same _ _ Hx). pose proof (oc_range (s + (t * 256 + r))). rewrite u16_small; [done|lia].
Qed.

Lemma chksum_2 dataptr l : bytes l -> Z.of_nat (length l) < 65536 -> lwip_standard_chksum_2 dataptr l = oc (le l).
Proof.
  intros Hb Hl. unfold lwip_standard_chksum_2. pose proof (align_byte_spec (nz (Z.land (u32 dataptr) 1)) l Hb) as Ha.
  destruct (align_byte _ l) as [t r]. destruct Ha as (b & Hb1 & -> & Hr & Hlen & Hsame). pose proof (le_range r Hr). unfold byte in Hb1.
  pose proof (sum_words_sum r 0 Hr) as Hw. destruct (sum_words 0 r) as [s rest]. destruct Hw as (Hs & Hrest & Hsum); [lia..|].
  apply (chksum_end _ _ _ _ _ (le r)); try done; [lia|]. rewrite Hsum. apply same_refl. lia.
Qed.

Lemma add_carry_same sum x : 0 <= sum < 2 ^ 32 -> 0 <= x < 2 ^ 32 -> same (add_carry sum x) (sum + x) /\ 0 <= add_carry sum x < 2 ^ 32.
Proof.
  intros Hs Hx. unfold add_carry. destruct (Z.lt_ge_cases (sum + x) (2 ^ 32)).
  - rewrite u32_small by lia. destruct (Z.ltb_spec (sum + x) sum); [lia|]. split; [apply same_refl|]; lia.
  - assert (u32 (sum + x) = sum + x - 2 ^ 32) as -> by (unfold u32; rewrite <- (Z.mod_small (sum + x - 2 ^ 32) (2 ^ 32)) by lia; by rewrite Zminus_mod, Z_mod_same_full, Z.sub_0_r, Z.mod_mod).
    destruct (Z.ltb_spec (sum + x - 2 ^ 32) sum); [|lia]. rewrite u32_small by lia. split; [|lia]. do 2 (split; [lia|]). split; [|lia].
    rewrite <- (Z_mod_plus_full (sum + x - 2 ^ 32 + 1) 65537 65535). f_equal. lia.
Qed.

Lemma word_same a b c d : byte a -> byte b -> byte c -> byte d -> same (word a b c d) (a + 256 * b + (c + 256 * d)) /\ 0 <= word a b c d < 2 ^ 32.
Proof.
  unfold byte, word. intros. split; [|lia]. replace (d * 2 ^ 24 + (c * 2 ^ 16 + (b * 2 ^ 8 + a))) with (65536 * (c + 256 * d) + (a + 256 * b)) by lia.
  rewrite (Z.add_comm (a + 256 * b)). apply same_65536_add; lia.
Qed.

Lemma sum_longs_same n : forall l sum, (length l <= n)%nat -> bytes l -> 0 <= sum < 2 ^ 32 ->
  let '(s, r) := sum_longs sum l in same (s + le r) (sum + le l) /\ 0 <= s < 2 ^ 32 /\ bytes r /\ (length r <= 7)%nat.
Proof.
  induction n as [|n IH]; intros l sum Hn Hb Hs.
  - destruct l; [|cbn in Hn; lia]. cbn [sum_longs le length]. split_ands; try done; try lia. apply same_refl. lia.
  - do 8 (destruct l as [|? l]; [cbn [sum_longs]; split_ands; try done; try lia; try (cbn; lia); pose proof (le_nonneg _ Hb); apply same_refl; lia|]).
    rewrite !bytes_cons in Hb. destruct Hb as (B0 & B1 & B2 & B3 & B4 & B5 & B6 & B7 & Hl). cbn [sum_longs].
    destruct (word_same z z0 z1 z2) as [W1 W1r]; try done. destruct (word_same z3 z4 z5 z6) as [W2 W2r]; try done.
    destruct (add_carry_same sum (word z z0 z1 z2)) as [A1 A1r]; try done.
    destruct (add_carry_same (add_carry sum (word z z0 z1 z2)) (word z3 z4 z5 z6)) as [A2 A2r]; try done.
    specialize (IH l (add_carry (add_carry sum (word z z0 z1 z2)) (word z3 z4 z5 z6))). destruct (sum_longs _ l) as [s r].
    destruct IH as (H1 & H2 & H3 & H4); [cbn in Hn; lia|done..|]. split_ands; try done; try lia. apply (same16_trans _ _ _ H1). cbn [le].
    pose proof (le_nonneg l Hl). eapply same16_trans; [apply same_add; [exact A2|by apply same_refl]|].
    replace (sum + (z + 256 * z0 + (z1 + 256 * z2 + (z3 + 256 * z4 + (z5 + 256 * z6 + le l)))))
      with (sum + (z + 256 * z0 + (z1 + 256 * z2)) + (z3 + 256 * z4 + (z5 + 256 * z6)) + le l) by lia.
    apply same_add; [|by apply same_refl]. apply same_add; [|done]. apply (same16_trans _ _ _ A1). apply same_add; [apply same_refl; lia|done].
Qed.

Lemma chksum_3 dataptr l : bytes l -> Z.of_nat (length l) < 65536 -> lwip_standard_chksum_3 dataptr l = oc (le l).
Proof.
  intros Hb Hl. unfold lwip_standard_chksum_3. pose proof (align_byte_spec (nz (Z.land (u32 dataptr) 1)) l Hb) as Ha.
  destruct (align_byte _ l) as [t r]. destruct Ha as (b & Hb1 & -> & Hr & Hlen & Hsame).
  match goal with |- context [match r with [] => ?x | a :: l => _ end] => set (w := match r with [] => x | _ => _ end) end.
  assert (same (w.1 + le w.2) (le r) /\ 0 <= w.1 < 2 ^ 32 /\ bytes w.2 /\ (length w.2 <= length r)%nat) as (W1 & W2 & W3 & W4).
  { pose proof (le_nonneg r Hr). subst w. destruct r as [|x [|y r]]; [by split_ands; try apply same_refl..|].
    destruct (nz (Z.land (u32 (dataptr + _)) 3)); cbn [fst snd]; [|rewrite Z.add_0_l; split_ands; try done; by apply same_refl]. rewrite !bytes_cons in Hr. destruct Hr as (Hx & Hy & Hr). cbn [fst snd le length].
    pose proof (le_nonneg r Hr). unfold byte in *. rewrite u32_small by lia. split_ands; try done; try lia. }
  destruct w as [s0 pl]. cbn [fst snd] in *. pose proof (sum_longs_same (length pl) pl s0 (Nat.le_refl _) W3 W2) as Hlongs.
  destruct (sum_longs s0 pl) as [s1 ps]. destruct Hlongs as (L1 & L2 & L3 & L4). pose proof (le_range ps L3).
  assert (0 <= FOLD_U32T s1 <= 131070) as Hf by (rewrite fold_u32t by done; Z.to_euclidean_division_equations; lia).
  pose proof (sum_words_sum ps (FOLD_U32T s1) L3) as Hw. destruct (sum_words _ ps) as [s2 rest]. destruct Hw as (Hs & Hrest & Hsum); [lia..|].
  unfold byte in Hb1. apply (chksum_end _ _ _ _ _ (le r)); try done; [lia|]. rewrite Hsum. apply (same16_trans _ (s1 + le ps)).
  - apply same_add; [by apply fold_same|apply same_refl; lia].
  - by apply (same16_trans _ (s0 + le pl)).
Qed.

(** ** Against the reference *)

Lemma ones_sum l : bytes l -> forall a, 0 <= a -> foldl ones_add (oc a) (words l) = oc (a + be l).
Proof.
  assert (forall a b, 0 <= a -> 0 <= b <= 65535 -> ones_add (oc a) b = oc (a + b)) as Hadd.
  { intros a b Ha Hb. pose proof (oc_range a). rewrite <- (oc_same (oc a + b) (a + b)) by (apply same_add; [by apply same_oc|apply same_refl; lia]).
    unfold ones_add. destruct (Z.ltb_spec 65535 (oc a + b)); [|by rewrite (oc_small (oc a + b)) by lia].
    rewrite <- (oc_small (oc a + b - 65535)) by lia. apply oc_same. do 2 (split; [lia|]). split; [|lia].
    rewrite <- (Z_mod_plus_full (oc a + b - 65535) 1 65535). f_equal. lia. }
  induction l as [|x|x y l IH] using list_ind2; intros Hb a Ha; rewrite ?bytes_cons in Hb; cbn [words foldl be]; unfold byte in Hb.
  - by rewrite Z.add_0_r.
  - rewrite Hadd by lia. done.
  - rewrite Hadd by lia. rewrite IH by (tauto || lia). f_equal. lia.
Qed.

Lemma rfc1071_oc l : bytes l -> rfc1071 l = 65535 - oc (be l).
Proof. intros Hb. unfold rfc1071. pose proof (ones_sum l Hb 0 ltac:(lia)) as E. change (oc 0) with 0 in E. by rewrite E. Qed.

(** Inverting the bits of a word. *)
Lemma not_word w : 0 <= w <= 65535 -> u16 (Z.lnot w) = 65535 - w.
Proof.
  intros Hw. unfold u16. change (2 ^ 16) with 65536. rewrite <- (Z.mod_small (65535 - w) 65536) by lia.
  rewrite <- (Z_mod_plus_full (Z.lnot w) 1 65536). f_equal. unfold Z.lnot. lia.
Qed.

Lemma htons_not w : 0 <= w <= 65535 -> htons (65535 - w) = 65535 - htons w.
Proof.
  intros Hw. rewrite !htons_spec by lia. assert ((65535 - w) / 256 = 255 - w / 256) as E by (Z.to_euclidean_division_equations; lia).
  assert ((65535 - w) mod 256 = 255 - w mod 256) as E' by (Z.to_euclidean_division_equations; lia). lia.
Qed.

Lemma checksum_rfc l : bytes l -> u16 (Z.lnot (oc (le l))) = htons (rfc1071 l).
Proof.
  intros Hb. pose proof (be_range l Hb). pose proof (oc_range (be l)). pose proof (oc_range (le l)).
  rewrite rfc1071_oc, htons_not, htons_oc, not_word by (done || lia). by rewrite (oc_same _ _ (le_same l Hb)).
Qed.

(** ** Chains of buffers *)

Lemma even_mod n : nz (Z.of_nat n mod 2) = negb (Nat.even n).
Proof.
  destruct (Nat.Even_or_Odd n) as [[k ->]|[k ->]].
  - rewrite Nat.even_mul. replace (Z.of_nat (2 * k)) with (Z.of_nat k * 2) by lia. by rewrite Z_mod_mult.
  - rewrite Nat.even_add, Nat.even_mul. replace (Z.of_nat (2 * k + 1)) with (1 + Z.of_nat k * 2) by lia. by rewrite Z_mod_plus_full.
Qed.

(** The state after the bytes [l]: their sum, with its bytes exchanged if
    [swapped]. *)
Definition chain_state (sw : bool) (l : list Z) (st : Z * Z) : Prop :=
  st.2 = Z.b2z sw /\ st.1 = oc (if sw then 256 * le l else le l).

Lemma bytes_app a b : bytes (a ++ b) <-> bytes a /\ bytes b.
Proof. apply Forall_app. Qed.

(** Adding the bytes of a buffer to the sum of those before it. *)
Lemma chain_add l q : bytes l -> bytes q -> let sw := negb (Nat.even (length l)) in
  same ((if sw then 256 * le l else le l) + le q) (if sw then 256 * le (l ++ q) else le (l ++ q)).
Proof.
  intros Hl Hq. pose proof (le_app l q Hl Hq) as Ha. pose proof (le_nonneg l Hl). pose proof (le_nonneg q Hq). unfold shift in Ha.
  cbv zeta. destruct (Nat.even (length l)); cbn [negb]; [by apply same_sym|]. apply same_sym.
  apply (same16_trans _ (256 * (le l + 256 * le q))); [by apply same_mul|]. replace (256 * (le l + 256 * le q)) with (65536 * le q + 256 * le l) by lia.
  rewrite (Z.add_comm (256 * le l)). apply same_65536_add; lia.
Qed.

Lemma chksum_pbuf_state acc swapped n l q : bytes l -> bytes q -> Z.of_nat (length q) < 65536 ->
  let sw := negb (Nat.even (length l)) in
  chain_state sw l (acc, swapped) -> chain_state (xorb sw (negb (Nat.even n))) (l ++ q) (chksum_pbuf acc swapped (Z.of_nat n) q).
Proof.
  intros Hl Hq Hlen sw (Hs & Ha). cbn [fst snd] in Hs, Ha. pose proof (le_nonneg l Hl). pose proof (le_nonneg q Hq).
  assert (bytes (l ++ q)) as Hlq by (by apply bytes_app). pose proof (le_nonneg (l ++ q) Hlq). unfold chksum_pbuf.
  pose proof (oc_same _ _ (chain_add l q Hl Hq)) as E. cbv zeta in E. fold sw in E.
  rewrite chksum_1, even_mod, Ha, fold_add, E by (done || (destruct sw; lia)). clearbody sw. destruct (Nat.even n); cbn [negb].
  - rewrite xorb_false_r. by split.
  - rewrite xorb_true_r, swap_oc by (destruct sw; lia). split; cbn [fst snd]; [rewrite Hs; by destruct sw|]. apply oc_same. destruct sw; cbn [negb].
    + replace (256 * (256 * le (l ++ q))) with (65536 * le (l ++ q)) by lia. by apply same_65536.
    + apply same_refl. lia.
Qed.

(** Undoing the exchange at the end. *)
Lemma chain_end sw l acc swapped : bytes l -> chain_state sw l (acc, swapped) ->
  (if nz swapped then SWAP_BYTES_IN_WORD acc else acc) = oc (le l).
Proof.
  intros Hl (Hs & Ha). cbn [fst snd] in Hs, Ha. pose proof (le_nonneg l Hl). subst. destruct sw; cbn [Z.b2z]; [|done].
  change (nz 1) with true. cbv iota. rewrite swap_oc by lia. apply oc_same. replace (256 * (256 * le l)) with (65536 * le l) by lia. by apply same_65536.
Qed.

Lemma chksum_chain_state q : forall acc swapped l, bytes l -> Forall (fun p => bytes p /\ Z.of_nat (length p) < 65536) q ->
  chain_state (negb (Nat.even (length l))) l (acc, swapped) ->
  chain_state (negb (Nat.even (length (l ++ concat q)))) (l ++ concat q) (chksum_chain acc swapped q).
Proof.
  induction q as [|p q IH]; intros acc swapped l Hl Hq Hst; cbn [chksum_chain concat]; [by rewrite app_nil_r|].
  apply Forall_cons in Hq as [[Hp Hlen] Hq]. pose proof (chksum_pbuf_state acc swapped (length p) l p Hl Hp Hlen Hst) as H1.
  destruct (chksum_pbuf _ _ _ p) as [acc1 sw1]. rewrite app_assoc. apply IH; [by apply bytes_app|done|].
  rewrite length_app, Nat.even_add. by destruct (Nat.even (length l)), (Nat.even (length p)).
Qed.

Lemma bytes_concat q : Forall (fun p => bytes p /\ Z.of_nat (length p) < 65536) q -> bytes (concat q).
Proof. induction q as [|p q IH]; intros Hq; [constructor|]. apply Forall_cons in Hq as [[Hp _] Hq]. cbn. apply bytes_app. auto. Qed.

(** The pseudo header as bytes: addresses, a zero byte, the protocol, the length. *)
Definition pseudo_header (src dest proto proto_len : Z) : list Z :=
  [src mod 256; (src / 2 ^ 8) mod 256; (src / 2 ^ 16) mod 256; (src / 2 ^ 24) mod 256;
   dest mod 256; (dest / 2 ^ 8) mod 256; (dest / 2 ^ 16) mod 256; (dest / 2 ^ 24) mod 256;
   0; proto; proto_len / 256; proto_len mod 256].

Lemma half_words n : 0 <= n < 2 ^ 32 ->
  Z.land n 0xffff = n mod 256 + 256 * ((n / 2 ^ 8) mod 256) /\ Z.land (Z.shiftr n 16) 0xffff = (n / 2 ^ 16) mod 256 + 256 * ((n / 2 ^ 24) mod 256).
Proof.
  intros Hn. rewrite Z.shiftr_div_pow2 by done. change 0xffff with (2 ^ 16 - 1). rewrite !land_mask by done. split; Z.to_euclidean_division_equations; lia.
Qed.

Lemma chksum_pseudo_end_rfc sw l acc swapped src dest proto proto_len : bytes l -> chain_state sw l (acc, swapped) ->
  0 <= src < 2 ^ 32 -> 0 <= dest < 2 ^ 32 -> byte proto -> 0 <= proto_len < 65536 ->
  chksum_pseudo_end acc swapped src dest proto proto_len = htons (rfc1071 (pseudo_header src dest proto proto_len ++ l)).
Proof.
  intros Hl Hst Hsrc Hdst Hproto Hplen. unfold chksum_pseudo_end. rewrite (chain_end sw l) by done. pose proof (le_nonneg l Hl). pose proof (oc_range (le l)) as Ho.
  assert (bytes (pseudo_header src dest proto proto_len)) as Hph.
  { unfold pseudo_header, bytes. repeat (constructor; [unfold byte in *; Z.to_euclidean_division_equations; lia|]). constructor. }
  set (S := le (pseudo_header src dest proto proto_len)). pose proof (le_range _ Hph) as HS. fold S in HS. cbn [length pseudo_header] in HS.
  destruct (half_words src Hsrc) as [-> ->]. destruct (half_words dest Hdst) as [-> ->]. unfold byte in Hproto. rewrite (u16_small proto) by lia. rewrite !htons_spec by lia.
  set (acc6 := u32 (u32 _ + _)). assert (acc6 = oc (le l) + S) as ->.
  { subst acc6 S. unfold pseudo_header. cbn [le].
    pose proof (Z.mod_pos_bound src 256 ltac:(lia)). pose proof (Z.mod_pos_bound (src / 2 ^ 8) 256 ltac:(lia)). pose proof (Z.mod_pos_bound (src / 2 ^ 16) 256 ltac:(lia)). pose proof (Z.mod_pos_bound (src / 2 ^ 24) 256 ltac:(lia)).
    pose proof (Z.mod_pos_bound dest 256 ltac:(lia)). pose proof (Z.mod_pos_bound (dest / 2 ^ 8) 256 ltac:(lia)). pose proof (Z.mod_pos_bound (dest / 2 ^ 16) 256 ltac:(lia)). pose proof (Z.mod_pos_bound (dest / 2 ^ 24) 256 ltac:(lia)).
    assert (proto mod 256 = proto) as -> by (by apply Z.mod_small). assert (proto / 256 = 0) as -> by (by apply Z.div_small).
    assert (0 <= proto_len / 256 < 256) by (Z.to_euclidean_division_equations; lia). pose proof (Z.mod_pos_bound proto_len 256 ltac:(lia)).
    repeat match goal with |- context [u32 ?x] => lazymatch x with context [u32 _] => fail | _ => rewrite (u32_small x) by lia end end. lia. }
  rewrite fold_twice by lia.
  assert (same (oc (le l) + S) (le (pseudo_header src dest proto proto_len ++ l))) as Hsame.
  { apply same_sym. eapply same16_trans; [by apply le_app|]. rewrite Z.add_comm. apply same_add; [by apply same_sym, same_oc|]. apply same_refl. fold S. lia. }
  rewrite (oc_same _ _ Hsame). set (w := oc _). assert (Z.land w 0xffff = w) as ->.
  { change 0xffff with (2 ^ 16 - 1). rewrite land_mask by done. apply Z.mod_small. pose proof (oc_range (le (pseudo_header src dest proto proto_len ++ l))). subst w. lia. }
  subst w. apply checksum_rfc. by apply bytes_app.
Qed.

(** The partial sum is that of the first bytes of the chain. *)
Lemma chksum_chain_partial_state q : forall acc swapped l n, bytes l -> Forall (fun p => bytes p /\ Z.of_nat (length p) < 65536) q ->
  0 <= n < 0x7fff -> (exists sw, chain_state sw l (acc, swapped) /\ (0 < n -> sw = negb (Nat.even (length l)))) ->
  exists sw st, chksum_chain_partial acc swapped n q = Some st /\ chain_state sw (l ++ take (Z.to_nat n) (concat q)) st.
Proof.
  induction q as [|p q IH]; intros acc swapped l n Hl Hq Hn (sw & Hst & Hsw); cbn [chksum_chain_partial concat].
  - rewrite take_nil, app_nil_r. by exists sw, (acc, swapped).
  - destruct (Z.ltb_spec 0 n) as [Hpos|]; [|assert (n = 0) as -> by lia; rewrite take_0, app_nil_r; by exists sw, (acc, swapped)].
    rewrite Hsw in Hst by done. apply Forall_cons in Hq as [[Hp Hlen] Hq]. set (k := if n <? Z.of_nat (length p) then n else Z.of_nat (length p)).
    assert (k = Z.min n (Z.of_nat (length p))) as Hk by (subst k; destruct (Z.ltb_spec n (Z.of_nat (length p))); lia). clearbody k.
    rewrite u16_small by lia. destruct (Z.ltb_spec (n - k) 0x7fff); [|lia]. assert (bytes (take (Z.to_nat k) p)) as Ht by (by apply Forall_take).
    pose proof (chksum_pbuf_state acc swapped (length p) l (take (Z.to_nat k) p) Hl Ht) as H1. rewrite length_take in H1. specialize (H1 ltac:(lia) Hst).
    destruct (chksum_pbuf _ _ _ _) as [acc1 sw1]. rewrite take_app, app_assoc.
    assert (take (Z.to_nat n) p = take (Z.to_nat k) p) as -> by (destruct (Z.min_spec n (Z.of_nat (length p))) as [[_ E]|[_ E]]; [by rewrite Hk, E|rewrite !take_ge by lia; done]).
    replace (Z.to_nat n - length p)%nat with (Z.to_nat (n - k)) by lia. apply IH; [by apply bytes_app|done|lia|]. eexists. split; [exact H1|].
    intros Hpos'. assert (take (Z.to_nat k) p = p) as -> by (apply take_ge; lia). rewrite length_app, Nat.even_add.
    by destruct (Nat.even (length l)), (Nat.even (length p)).
Qed.

(** ** The theorems *)

(** C18: the three versions of [lwip_standard_chksum] agree on every buffer of up
    to 65535 bytes, wherever it starts: each returns the one's complement sum of
    the 16-bit words, in the byte order of the machine. *)
Theorem chksum_versions_agree dataptr data :
  bytes data -> Z.of_nat (length data) < 65536 ->
  lwip_standard_chksum data = htons (foldl ones_add 0 (words data)) /\
  lwip_standard_chksum_2 dataptr data = lwip_standard_chksum data /\
  lwip_standard_chksum_3 dataptr data = lwip_standard_chksum data.
Proof.
  intros Hb Hl. rewrite chksum_1, chksum_2, chksum_3 by done. split; [|done]. pose proof (ones_sum data Hb 0 ltac:(lia)) as E. change (oc 0) with 0 in E.
  pose proof (be_range data Hb). rewrite E, Z.add_0_l, htons_oc by lia. by rewrite (oc_same _ _ (le_same data Hb)).
Qed.

Lemma chksum_versions_agree_witness :
  let data := [69; 0; 0; 60; 28; 70; 64; 0; 64; 6; 177; 230; 172; 16; 10] in
  lwip_standard_chksum data = lwip_standard_chksum_2 4097 data /\ lwip_standard_chksum_3 4097 data = lwip_standard_chksum data.
Proof.
  intros data. assert (bytes data) as Hb by (repeat (constructor; [split; [discriminate|reflexivity]|]); constructor).
  destruct (chksum_versions_agree 4097 data Hb eq_refl) as (_ & H2 & H3). split; [symmetry; exact H2|exact H3].
Defined.

(** C19: the checksum over a chain of buffers, each of less than 65536 bytes, with a
    pseudo header is that of RFC 1071 over the header followed by the bytes of the
    chain, however they are divided into buffers, also of odd length; without the
    header it is that over the bytes of the chain. The partial one is that over
    the first [chksum_len] bytes when [chksum_len] is less than 0x7fff; the
    source asserts after each buffer that less than that is left. *)
Theorem inet_chksum_pseudo_rfc p src dest proto proto_len chksum_len :
  Forall (fun q => bytes q /\ Z.of_nat (length q) < 65536) p ->
  0 <= src < 2 ^ 32 -> 0 <= dest < 2 ^ 32 -> byte proto -> 0 <= proto_len < 65536 -> 0 <= chksum_len < 0x7fff ->
  inet_chksum_pseudo p src dest proto proto_len = htons (rfc1071 (pseudo_header src dest proto proto_len ++ concat p)) /\
  inet_chksum_pseudo_partial p src dest proto proto_len chksum_len
    = Some (htons (rfc1071 (pseudo_header src dest proto proto_len ++ take (Z.to_nat chksum_len) (concat p)))) /\
  inet_chksum_pbuf p = htons (rfc1071 (concat p)).
Proof.
  intros Hp Hsrc Hdst Hproto Hplen Hn. pose proof (bytes_concat p Hp) as Hb. assert (chain_state false [] (0, 0)) as H0 by done.
  pose proof (chksum_chain_state p 0 0 [] ltac:(constructor) Hp H0) as Hst. cbn [app] in Hst. split; [|split].
  - unfold inet_chksum_pseudo. destruct (chksum_chain 0 0 p) as [acc swapped]. by eapply chksum_pseudo_end_rfc.
  - destruct (chksum_chain_partial_state p 0 0 [] chksum_len ltac:(constructor) Hp Hn) as (sw & [acc swapped] & E & Hst'); [by exists false|].
    unfold inet_chksum_pseudo_partial. rewrite E. f_equal. eapply chksum_pseudo_end_rfc; try done. by apply Forall_take.
  - unfold inet_chksum_pbuf. destruct (chksum_chain 0 0 p) as [acc swapped]. rewrite (chain_end _ _ _ _ Hb Hst).
    pose proof (oc_range (le (concat p))). change 0xffff with (2 ^ 16 - 1). rewrite land_mask by done. rewrite Z.mod_small by lia. by apply checksum_rfc.
Qed.

Lemma inet_chksum_pseudo_rfc_witness :
  inet_chksum_pseudo [[0; 53; 200]; [17; 0]; [13; 0; 0; 7]] 0x0f02000a 0x0302000a 17 9
    = htons (rfc1071 (pseudo_header 0x0f02000a 0x0302000a 17 9 ++ [0; 53; 200; 17; 0; 13; 0; 0; 7])).
Proof.
  destruct (inet_chksum_pseudo_rfc [[0; 53; 200]; [17; 0]; [13; 0; 0; 7]] 0x0f02000a 0x0302000a 17 9 8) as (H & _);
    [|split; (discriminate || reflexivity)..|exact H].
  repeat (constructor; [split; [repeat (constructor; [split; [discriminate|reflexivity]|]); constructor|reflexivity]|]). constructor.
Defined.

(** C20: a packet whose checksum field, at an even offset, holds the checksum that
    was computed while the field was zero has checksum zero, which is what the
    receiver tests. *)
Theorem inet_chksum_verifies a b :
  bytes a -> bytes b -> Nat.even (length a) = true -> Z.of_nat (length (a ++ [0; 0] ++ b)) < 65536 ->
  let c := inet_chksum (a ++ [0; 0] ++ b) in
  inet_chksum (a ++ [c mod 256; c / 256] ++ b) = 0.
Proof.
  intros Ha Hb He Hlen c. assert (byte 0) as B0 by done. pose proof (le_nonneg a Ha). pose proof (le_nonneg b Hb).
  assert (forall x y, byte x -> byte y -> bytes (a ++ [x; y] ++ b) /\ same (le (a ++ [x; y] ++ b)) (le a + (x + 256 * y + le b))) as Hle.
  { intros x y Hx Hy. assert (bytes ([x; y] ++ b)) as Hxy by (cbn; by rewrite !bytes_cons). split; [by apply bytes_app|].
    pose proof (le_app a ([x; y] ++ b) Ha Hxy) as E. unfold shift in E. rewrite He in E. exact E. }
  destruct (Hle 0 0 B0 B0) as [Hb0 Hs0]. assert (c = 65535 - oc (le a + le b)) as Hc.
  { subst c. unfold inet_chksum. rewrite chksum_1 by done. rewrite (oc_same _ _ Hs0). apply not_word, oc_range. }
  clearbody c. pose proof (oc_range (le a + le b)). assert (byte (c mod 256) /\ byte (c / 256)) as [Bl Bh] by (unfold byte; split; Z.to_euclidean_division_equations; lia).
  destruct (Hle _ _ Bl Bh) as [Hb1 Hs1]. unfold inet_chksum. rewrite chksum_1, (oc_same _ _ Hs1) by (try done; rewrite !length_app in *; exact Hlen).
  replace (c mod 256 + 256 * (c / 256)) with c by (Z.to_euclidean_division_equations; lia).
  assert (same (le a + (c + le b)) 65535) as Hs; [|by rewrite (oc_same _ _ Hs)].
  apply (same16_trans _ (c + oc (le a + le b))); [|replace (c + oc (le a + le b)) with 65535 by lia; apply same_refl; lia].
  replace (le a + (c + le b)) with (c + (le a + le b)) by lia. apply same_add; [apply same_refl; lia|]. apply same_sym, same_oc. lia.
Qed.

Lemma inet_chksum_verifies_witness :
  let c := inet_chksum ([69; 0; 0; 60; 28; 70; 64; 0; 64; 6] ++ [0; 0] ++ [172; 16; 10; 99; 172; 16; 10; 12]) in
  c mod 256 = 177 /\ c / 256 = 230 /\ inet_chksum ([69; 0; 0; 60; 28; 70; 64; 0; 64; 6] ++ [c mod 256; c / 256] ++ [172; 16; 10; 99; 172; 16; 10; 12]) = 0.
Proof.
  intros c. split; [reflexivity|]. split; [reflexivity|].
  apply (inet_chksum_verifies [69; 0; 0; 60; 28; 70; 64; 0; 64; 6] [172; 16; 10; 99; 172; 16; 10; 12]); [..|reflexivity|reflexivity];
    repeat (constructor; [split; [discriminate|reflexivity]|]); constructor.
Defined.
