(* ===== verification/VmExits.v ===== *)
(** Exits of a guest to the host: vmm/vmexits.c and [vmexit] of vmm/vmx.c.

    The working VMCS is a map from fields to values.  The answers of the [cpuid]
    instruction are a parameter, and so are the bytes that are on the stack where
    [handle_vmcall] puts its [multiboot_info_t]. *)

From S2P Require Import Prelude Kernel PageAlloc PageTable PageTableInv Ept Mmu Vmx Env.

Notation VMCS_64BIT_GUEST_PHYSICAL_ADDR := 0x2400 (only parsing).
Notation VMCS_32BIT_CONTROL_VMENTRY_CONTROLS := 0x4012 (only parsing).
Notation VMCS_32BIT_VMEXIT_REASON := 0x4402 (only parsing).
Notation VMCS_32BIT_VMEXIT_INSTRUCTION_LENGTH := 0x440C (only parsing).
Notation VMCS_VMEXIT_QUALIFICATION := 0x6400 (only parsing).
Notation VMCS_GUEST_RSP := 0x681C (only parsing).
Notation VMCS_GUEST_RIP := 0x681E (only parsing).
Notation VMCS_VMENTRY_x64_GUEST := (Z.shiftl 1 9) (only parsing).
Notation EFER_LME := 8 (only parsing).
Notation EXIT_REASON_MASK := 0xFFFF (only parsing).
Notation EXIT_REASON_CPUID := 0xA (only parsing).
Notation EXIT_REASON_HLT := 0xC (only parsing).
Notation EXIT_REASON_VMCALL := 0x12 (only parsing).
Notation EXIT_REASON_IO_INSTRUCTION := 0x1E (only parsing).
Notation EXIT_REASON_RDMSR := 0x1F (only parsing).
Notation EXIT_REASON_WRMSR := 0x20 (only parsing).
Notation EXIT_REASON_EPT_VIOLATION := 0x30 (only parsing).
Notation VMX_VMCALL_MBMAP := 1 (only parsing).
Notation VMX_VMCALL_IPCSEND := 2 (only parsing).
Notation VMX_VMCALL_IPCRECV := 3 (only parsing).
Notation NVRAM_BASELO := (0xe + 7) (only parsing).
Notation NVRAM_BASEHI := (0xe + 8) (only parsing).
Notation NVRAM_EXTLO := (0xe + 9) (only parsing).
Notation NVRAM_EXTHI := (0xe + 10) (only parsing).
Notation MB_TYPE_USABLE := 1 (only parsing).
Notation MB_TYPE_RESERVED := 2 (only parsing).
Notation MB_FLAG_MMAP := 0x40 (only parsing).
Notation GUEST_CGA_BUF := 0xB8000 (only parsing).

(** The processor as the handlers see it. *)
Class ExitHw : Type := {
  cpuid : Z -> Z * Z * Z * Z;      (* EAX, EBX, ECX, EDX of a leaf *)
  stack_garbage : Z -> Z;          (* the words of an uninitialised multiboot_info_t *)
}.

(** The kernel, the working VMCS and the static variable of [handle_ioinstr]. *)
Record xstate : Type := mkXstate {
  xk : kstate;
  vmcs_fields : gmap Z Z;
  port_iortc : Z;
}.

Definition X (A : Type) : Type := M xstate A.

Definition liftK {A : Type} (m : K A) : X A := fun s =>
  match m (xk s) with
  | Ret a k => Ret a (mkXstate k (vmcs_fields s) (port_iortc s))
  | NoRet k => NoRet (mkXstate k (vmcs_fields s) (port_iortc s))
  | Panic msg k => Panic msg (mkXstate k (vmcs_fields s) (port_iortc s))
  end.

Definition vmcs_read64 (f : Z) : X Z := gets (fun s => default 0 (vmcs_fields s !! f)).
Definition vmcs_read32 (f : Z) : X Z := gets (fun s => u32 (default 0 (vmcs_fields s !! f))).
Definition vmcs_write32 (f v : Z) : X unit :=
  modify (fun s => mkXstate (xk s) (<[f := u32 v]> (vmcs_fields s)) (port_iortc s)).
Definition set_port_iortc (v : Z) (s : xstate) : xstate := mkXstate (xk s) (vmcs_fields s) v.

(** [tf] is the trap frame of environment [e]. *)
Definition get_tf (e : Z) : X Trapframe := gets (fun s => env_tf (env_at (xk s) e)).
Definition upd_tf (e : Z) (f : Trapframe -> Trapframe) : X unit := liftK (upd_env e (fun x => set_env_tf (f (env_tf x)) x)).
Definition upd_regs (e : Z) (f : PushRegs -> PushRegs) : X unit := upd_tf e (fun t => set_tf_regs (f (tf_regs t)) t).

(** [tf->tf_rip += vmcs_read32(VMCS_32BIT_VMEXIT_INSTRUCTION_LENGTH)] *)
Definition skip_instruction (e : Z) : X unit :=
  let! n := vmcs_read32 VMCS_32BIT_VMEXIT_INSTRUCTION_LENGTH in
  upd_tf e (fun t => set_tf_rip (u64 (tf_rip t + n)) t).

Section Exits.
Context `{!VmxHw, !ExitHw}.

(** The loop looks at the first entry every time. *)
Definition find_msr_in_region (msr_idx area area_sz : Z) : X (option Z) :=
  loop (Z.to_nat (area_sz + 1)) (fun i =>
    if i <? area_sz then
      let! w := liftK (load64 area) in
      if u32 w =? msr_idx then ret (inr (Some area)) else ret (inl (i + 1))
    else ret (inr None)) 0.

Definition handle_rdmsr (e : Z) : X bool :=
  let! tf := get_tf e in
  let msr := reg_rcx (tf_regs tf) in
  if msr =? EFER_MSR then
    let! g := gets (fun s => env_vmxinfo (env_at (xk s) e)) in
    let! r := find_msr_in_region (u32 msr) (msr_guest_area g) (msr_count g) in
    match r with
    | None => panic "assertion failed: r"
    | Some entry =>
        let! val := liftK (load64 (entry + 8)) in
        do! upd_regs e (set_reg_rdx (u64 (Z.shiftl val 32))) ;;
        do! upd_regs e (set_reg_rax (Z.land val 0xFFFFFFFF)) ;;
        do! skip_instruction e ;;
        ret true
    end
  else ret false.

Definition handle_wrmsr (e : Z) : X bool :=
  let! tf := get_tf e in
  let msr := reg_rcx (tf_regs tf) in
  if msr =? EFER_MSR then
    let! g := gets (fun s => env_vmxinfo (env_at (xk s) e)) in
    let! r := find_msr_in_region (u32 msr) (msr_guest_area g) (msr_count g) in
    match r with
    | None => panic "assertion failed: r"
    | Some entry =>
        let! cur_val := liftK (load64 (entry + 8)) in
        let new_val := Z.lor (u64 (Z.shiftl (reg_rdx (tf_regs tf)) 32)) (reg_rax (tf_regs tf)) in
        do! (if (BIT cur_val EFER_LME =? 0) && (BIT new_val EFER_LME =? 1) then
               let! entry_ctls := vmcs_read32 VMCS_32BIT_CONTROL_VMENTRY_CONTROLS in
               vmcs_write32 VMCS_32BIT_CONTROL_VMENTRY_CONTROLS (Z.lor entry_ctls VMCS_VMENTRY_x64_GUEST)
             else ret tt) ;;
        do! liftK (store64 (entry + 8) new_val) ;;
        do! skip_instruction e ;;
        ret true
    end
  else ret false.

Definition handle_eptviolation (eptrt phys_sz : Z) : X bool :=
  let! gpa := vmcs_read64 VMCS_64BIT_GUEST_PHYSICAL_ADDR in
  if (gpa <? 0xA0000) || ((0x100000 <=? gpa) && (gpa <? phys_sz)) then
    let! p := liftK (page_alloc 0) in
    match p with
    | None => ret false
    | Some p =>
        do! liftK (upd_page p (fun x => set_pp_ref (u16 (pp_ref x + 1)) x)) ;;
        let! k := liftK (page2kva p) in
        let! r := liftK (ept_map_hva2gpa eptrt k (ROUNDDOWN gpa PGSIZE) EPTE_FULL false) in
        do! (if r <? 0 then panic "assertion failed: r >= 0" else ret tt) ;;
        ret true
    end
  else if (GUEST_CGA_BUF <=? gpa) && (gpa <? GUEST_CGA_BUF + PGSIZE) then
    let! r := liftK (ept_map_hva2gpa eptrt (KERNBASE + GUEST_CGA_BUF) GUEST_CGA_BUF EPTE_FULL false) in
    do! (if r <? 0 then panic "assertion failed: r >= 0" else ret tt) ;;
    ret true
  else ret false.

Definition handle_ioinstr (e phys_sz : Z) : X bool :=
  let! qualification := vmcs_read64 VMCS_VMEXIT_QUALIFICATION in
  let port_number := Z.land (Z.shiftr qualification 16) 0xFFFF in
  let is_in := nz (BIT qualification 3) in
  let! handled :=
    (if port_number =? IO_RTC then
       if negb is_in then
         let! tf := get_tf e in
         do! modify (set_port_iortc (s32 (reg_rax (tf_regs tf)))) ;;
         ret true
       else ret false
     else if port_number =? IO_RTC + 1 then
       if is_in then
         let! port := gets port_iortc in
         let ext := u64 (phys_sz / 1024 - 1024) in
         if port =? NVRAM_BASELO then do! upd_regs e (set_reg_rax (Z.land 640 0xFF)) ;; ret true
         else if port =? NVRAM_BASEHI then do! upd_regs e (set_reg_rax (Z.land (Z.shiftr 640 8) 0xFF)) ;; ret true
         else if port =? NVRAM_EXTLO then do! upd_regs e (set_reg_rax (Z.land ext 0xFF)) ;; ret true
         else if port =? NVRAM_EXTHI then do! upd_regs e (set_reg_rax (Z.land (Z.shiftr ext 8) 0xFF)) ;; ret true
         else ret false
       else ret false
     else ret false) in
  if handled : bool then
    do! skip_instruction e ;;
    ret true
  else ret false.

Definition handle_cpuid (e : Z) : X bool :=
  let! tf := get_tf e in
  let eax_in := u32 (reg_rax (tf_regs tf)) in
  let '(eax, ebx, ecx, edx) := cpuid eax_in in
  let ecx := if eax_in =? 1 then Z.land ecx (u32 (Z.lnot 32)) else ecx in
  do! upd_regs e (fun r => set_reg_rdx edx (set_reg_rcx ecx (set_reg_rbx ebx (set_reg_rax eax r)))) ;;
  do! skip_instruction e ;;
  ret true.

(** The 13 words of the [multiboot_info_t] and the three [memory_map_t]. *)
Definition mbmap_words (phys_sz : Z) : list Z :=
  let mmap_addr := 0x6000 + 52 in
  let mbinfo := (fun i => if i =? 0 then MB_FLAG_MMAP else if i =? 11 then 72 else if i =? 12 then mmap_addr else stack_garbage i) <$> seqZ 0 13 in
  let high := u64 (phys_sz - EXTPHYSMEM) in
  mbinfo ++ [20; 0; 0; IOPHYSMEM; 0; MB_TYPE_USABLE] ++ [20; IOPHYSMEM; 0; 0x60000; 0; MB_TYPE_RESERVED] ++
  [20; EXTPHYSMEM; 0; Z.land high 0xffffffff; Z.land (Z.shiftr high 32) 0xffffffff; MB_TYPE_USABLE].

(** The bytes of words, the low one first. *)
Definition word_bytes (ws : list Z) : list Z := concat (map (fun w => map (fun i => u8 (Z.shiftr w (8 * i))) (seqZ 0 4)) ws).

Definition handle_vmcall (e eptrt phys_sz : Z) : X bool :=
  let! tf := get_tf e in
  let rax := reg_rax (tf_regs tf) in
  let! handled :=
    (if rax =? VMX_VMCALL_MBMAP then
       let! pp := liftK (page_alloc 0) in
       match pp with
       | None => ret false
       | Some pp =>
           do! liftK (upd_page pp (fun x => set_pp_ref (u16 (pp_ref x + 1)) x)) ;;
           let! host_va := liftK (page2kva pp) in
           do! liftK (forM (zip (seqZ 0 124) (word_bytes (mbmap_words phys_sz))) (fun '(o, b) => modify (set_phys_byte pp o b))) ;;
           do! liftK (ept_map_hva2gpa eptrt host_va 0x6000 EPTE_FULL true) ;;
           do! upd_regs e (set_reg_rbx 0x6000) ;;
           ret true
       end
     else ret false) in
  do! (if handled : bool then skip_instruction e else ret tt) ;;
  ret handled.

(** [curenv] is the guest. *)
Definition vmexit : X unit :=
  let! cur := gets (fun s => curenv (xk s)) in
  match cur with
  | None => panic "null pointer dereference"
  | Some e =>
      let! reason := vmcs_read32 VMCS_32BIT_VMEXIT_REASON in
      let! x := gets (fun s => env_at (xk s) e) in
      let why := Z.land reason EXIT_REASON_MASK in
      let! handled :=
        (if why =? EXIT_REASON_RDMSR then handle_rdmsr e
         else if why =? EXIT_REASON_WRMSR then handle_wrmsr e
         else if why =? EXIT_REASON_EPT_VIOLATION then handle_eptviolation (env_pml4e x) (phys_sz (env_vmxinfo x))
         else if why =? EXIT_REASON_IO_INSTRUCTION then handle_ioinstr e (phys_sz (env_vmxinfo x))
         else if why =? EXIT_REASON_CPUID then handle_cpuid e
         else if why =? EXIT_REASON_VMCALL then handle_vmcall e (env_pml4e x) (phys_sz (env_vmxinfo x))
         else if why =? EXIT_REASON_HLT then do! liftK (env_destroy e) ;; ret true
         else ret false) in
      do! (if handled : bool then ret tt else liftK (env_destroy e)) ;;
      liftK sched_yield
  end.

(** What [asm_vmrun] does when the guest has stopped; [tf_es] is set if it could
    not be entered. *)
Definition vmrun_stopped : X unit :=
  let! cur := gets (fun s => curenv (xk s)) in
  match cur with
  | None => panic "null pointer dereference"
  | Some e =>
      let! tf := get_tf e in
      if nz (tf_es tf) then ret tt
      else
        let! rsp := vmcs_read64 VMCS_GUEST_RSP in
        do! upd_tf e (set_tf_rsp rsp) ;;
        let! rip := vmcs_read64 VMCS_GUEST_RIP in
        do! upd_tf e (set_tf_rip rip) ;;
        vmexit
  end.
End Exits.
