(* ===== verification/VmExitsProps.v ===== *)
(** What the exit handlers of vmm/vmexits.c give a guest. *)

From S2P Require Import Prelude Kernel PageAlloc PageTable PageTableInv PageTableSpec PageTableProps Ept EptProps Vmx Env VmExits.

Lemma liftK_Ret {A : Type} (m : K A) k f p a k' : m k = Ret a k' -> liftK m (mkXstate k f p) = Ret a (mkXstate k' f p).
Proof. unfold liftK. cbn. by intros ->. Qed.

(** Run a lifted call whose result is known. *)
Ltac lrun H := rewrite (bind_Ret _ _ _ _ _ (liftK_Ret _ _ _ _ _ _ H)).

(** ** Memory *)

Definition fault_gpa (s : xstate) : Z := default 0 (vmcs_fields s !! VMCS_64BIT_GUEST_PHYSICAL_ADDR).

(** The memory the guest was promised, and the screen. *)
Definition guest_memory (phys_sz gpa : Z) : Prop := gpa < 0xA0000 \/ 0x100000 <= gpa < phys_sz.
Definition guest_screen (gpa : Z) : Prop := 0xB8000 <= gpa < 0xB9000.

Lemma violation_in_memory phys_sz s : guest_memory phys_sz (fault_gpa s) ->
  (fault_gpa s <? 0xA0000) || ((0x100000 <=? fault_gpa s) && (fault_gpa s <? phys_sz)) = true.
Proof.
  intros [H|H]; apply orb_true_iff; [left|right; apply andb_true_iff]; [by apply Z.ltb_lt|].
  split; [apply Z.leb_le|apply Z.ltb_lt]; lia.
Qed.

Lemma violation_run k own p l s r phys_sz :
  let gpa := fault_gpa s in
  pt_inv k own (p :: l) (xk s) -> own !! r = Some (r, []) -> (3 <= length l)%nat ->
  guest_memory phys_sz gpa -> 0 <= gpa < 2 ^ 30 -> pte_of (xk s) r (gpa / PGSIZE * PGSIZE) = 0 ->
  exists s' own' l', handle_eptviolation (kva r 0) phys_sz s = Ret true s' /\ pt_inv k own' l' (xk s') /\ own' !! r = Some (r, []) /\
    l' `suffix_of` l /\ mm_only (xk s) (xk s') /\ ref_of (xk s') p = 1 /\
    forall r' va, own !! r' = Some (r', []) -> priv k r' (PML4 va) ->
      pte_of (xk s') r' va = if decide (r = r' /\ va_idx (gpa / PGSIZE * PGSIZE) = va_idx va) then p * PGSIZE + EPTE_RAM else pte_of (xk s) r' va.
Proof.
  intros gpa I Hr Hlen Hmem Hg Hz. assert (0 <= gpa / PGSIZE * PGSIZE < 2 ^ 30) as Hg' by (unfold PGSIZE in *; Z.to_euclidean_division_equations; lia).
  destruct (fresh_page_run k own p l (xk s) r _ I Hr Hg' Hlen Hz) as (s0 & s1 & s2 & own' & l' & R0 & R1 & R2 & R3 & M1 & M2 & M3 & M4 & M5 & M6 & M7 & M8 & M9).
  exists (mkXstate s2 (vmcs_fields s) (port_iortc s)), own', l'. split; [|by split_ands; try done; eapply lookup_weaken].
  unfold handle_eptviolation, vmcs_read64. msteps. fold (fault_gpa s). rewrite violation_in_memory by done.
  fold gpa. rewrite ROUNDDOWN_eq by lia. clearbody gpa. destruct s as [ks f po]. cbn [xk vmcs_fields port_iortc] in *. lrun R0. cbv iota.
  lrun R1. lrun R2. lrun R3. reflexivity.
Qed.

(** C23: when a guest faults on an address of the memory it was promised that has
    no page, the address is below one gigabyte and at least four pages are free,
    [handle_eptviolation] gives it a page that was free, with one
    reference; the address then leads there and no other private address of any
    address space has changed. A fault outside that memory and outside the screen
    is refused and changes nothing. *)
Theorem handle_eptviolation_fresh k own p l s r phys_sz :
  let gpa := fault_gpa s in
  pt_inv k own (p :: l) (xk s) -> own !! r = Some (r, []) -> (3 <= length l)%nat -> 0 <= gpa < 2 ^ 30 ->
  (guest_memory phys_sz gpa -> pte_of (xk s) r (gpa / PGSIZE * PGSIZE) = 0 ->
   exists s' own' l', handle_eptviolation (kva r 0) phys_sz s = Ret true s' /\ pt_inv k own' l' (xk s') /\ p ∉ l' /\ ref_of (xk s') p = 1 /\
     (exists t, ept_gpa2hva (kva r 0) (gpa / PGSIZE * PGSIZE) (xk s') = Ret (kva p 0) t) /\
     (forall r' va, own !! r' = Some (r', []) -> priv k r' (PML4 va) -> ~ (r' = r /\ va_idx va = va_idx (gpa / PGSIZE * PGSIZE)) ->
        pte_of (xk s') r' va = pte_of (xk s) r' va)) /\
  (~ guest_memory phys_sz gpa -> ~ guest_screen gpa -> handle_eptviolation (kva r 0) phys_sz s = Ret false s).
Proof.
  intros gpa I Hr Hlen Hg. split.
  - intros Hmem Hz. destruct (violation_run k own p l s r phys_sz I Hr Hlen Hmem Hg Hz) as (s' & own' & l' & R & I' & Hr' & Hsuf & Hmm & Href & Hpte).
    fold gpa in Hpte. exists s', own', l'. assert (0 <= gpa / PGSIZE * PGSIZE < 2 ^ 30) as Hg' by (unfold PGSIZE in *; Z.to_euclidean_division_equations; lia).
    pose proof (fl_nodup _ _ (pi_fl _ _ _ _ I)) as Hnd. apply NoDup_cons in Hnd as [Hpl _]. pose proof (inv_free_range _ _ _ _ I p ltac:(lset)) as Hp.
    split_ands; try done.
    + intros Hin. apply Hpl. destruct Hsuf as [l0 ->]. apply elem_of_app. by right.
    + destruct (ept_gpa2hva_run k own' l' (xk s') r (gpa / PGSIZE * PGSIZE) p EPTE_RAM) as (t & H & _); try done; [| |by exists t].
      * rewrite Hpte; [by rewrite decide_True|done|]. left. apply (low_idx _ Hg').
      * by rewrite (mm_only_npages _ _ Hmm).
    + intros r' va H1 H2 Hne. rewrite Hpte by done. rewrite decide_False; [done|]. intros [-> E]. by apply Hne.
  - intros Hmem Hscr. unfold handle_eptviolation, vmcs_read64. msteps. fold (fault_gpa s). fold gpa. unfold guest_memory, guest_screen in *.
    destruct (Z.ltb_spec gpa 0xA0000); [lia|]. cbn [orb]. destruct (Z.leb_spec 0x100000 gpa), (Z.ltb_spec gpa phys_sz); cbn [andb]; try lia.
    all: unfold PGSIZE; destruct (Z.leb_spec 0xB8000 gpa); [|done]; destruct (Z.ltb_spec gpa (0xB8000 + 4096)); [lia|done].
Qed.

(** A guest with an empty table, whose first access is to its address 0x5123. *)
Definition exit_machine : xstate := mkXstate (roomy 8) {[VMCS_64BIT_GUEST_PHYSICAL_ADDR := 0x5123]} 0.

Lemma handle_eptviolation_fresh_witness :
  exists s' own' l', handle_eptviolation (kva 10 0) 0x1000000 exit_machine = Ret true s' /\ pt_inv 10 own' l' (xk s') /\ 23 ∉ l' /\ ref_of (xk s') 23 = 1 /\
     (exists t, ept_gpa2hva (kva 10 0) 0x5000 (xk s') = Ret (kva 23 0) t).
Proof.
  destruct (handle_eptviolation_fresh 10 demo_own 23 (tail (roomy_free 8)) exit_machine 10 0x1000000) as [H _].
  - exact (proj1 (roomy_inv 8 ltac:(done))).
  - reflexivity.
  - apply Nat.leb_le. vm_compute. reflexivity.
  - split; [discriminate|reflexivity].
  - destruct H as (s' & own' & l' & R & I & N & F & G & _); [left; reflexivity|apply (roomy_empty 8 5); discriminate|].
    exists s', own', l'. split; [exact R|]. split; [exact I|]. split; [exact N|]. split; [exact F|exact G].
Defined.

(** ** Registers *)

Section Registers.
Context {HW : ExitHw}.

Lemma upd_tf_run e f k v p : upd_tf e f (mkXstate k v p)
  = Ret tt (mkXstate (set_envs (<[e := set_env_tf (f (env_tf (env_at k e))) (env_at k e)]> (envs k)) k) v p).
Proof. reflexivity. Qed.

Lemma env_tf_set k e t : env_tf (env_at (set_envs (<[e := set_env_tf t (env_at k e)]> (envs k)) k) e) = t.
Proof. unfold env_at. cbn. by rewrite lookup_insert_eq. Qed.

(** The guest never sees the bit that announces VMX, and goes on after the
    instruction. *)
Lemma handle_cpuid_hides_vmx e s : let tf := env_tf (env_at (xk s) e) in
  exists s', handle_cpuid e s = Ret true s' /\
    let tf' := env_tf (env_at (xk s') e) in
    (u32 (reg_rax (tf_regs tf)) = 1 -> BIT (reg_rcx (tf_regs tf')) 5 = 0) /\
    tf_rip tf' = u64 (tf_rip tf + u32 (default 0 (vmcs_fields s !! VMCS_32BIT_VMEXIT_INSTRUCTION_LENGTH))).
Proof.
  destruct s as [k v p]. intros tf. cbn [xk vmcs_fields] in tf |- *. unfold handle_cpuid, get_tf, upd_regs, skip_instruction, vmcs_read32. msteps. cbn [xk].
  fold tf. destruct (cpuid (u32 (reg_rax (tf_regs tf)))) as [[[a b] c] d]. msteps. rewrite (bind_Ret _ _ _ _ _ (upd_tf_run _ _ _ _ _)). msteps.
  rewrite (bind_Ret _ _ _ _ _ (upd_tf_run _ _ _ _ _)). eexists. split; [reflexivity|]. cbn [xk vmcs_fields]. rewrite !env_tf_set. fold tf.
  split; [|done]. intros E. rewrite E. cbn. unfold BIT. apply Z.bits_inj'. intros i Hi. rewrite Z.bits_0, Z.land_spec, Z.shiftr_spec, Z.land_spec by done.
  destruct (Z.eq_dec i 0) as [->|Hne]; [by rewrite andb_false_r|].
  assert (Z.testbit 1 i = false) as -> by (apply Z.bits_above_log2; cbn; lia). apply andb_false_r.
Qed.
End Registers.
