(* ===== verification/Fd.v ===== *)
(** File descriptors and pipes in user space: lib/fd.c, lib/pageref.c and the
    creation and closing of pipes in lib/pipe.c, for a running environment.

    A [struct Fd *] is the address of its page.  The functions of a device are a
    record; the table of devices is a parameter of the functions of lib/fd.c. *)

From S2P Require Import Prelude Kernel PageAlloc PageTable PageTableInv Mmu Ept Vmx Env Syscall User Fork.

Definition MAXFD : Z := 32.
Definition FDTABLE : Z := 0xD0000000.
Definition FILEDATA : Z := FDTABLE + MAXFD * PGSIZE.
Notation O_RDONLY := 0 (only parsing).
Notation O_WRONLY := 1 (only parsing).
Notation O_ACCMODE := 3 (only parsing).

Definition INDEX2FD (i : Z) : Z := u64 (FDTABLE + u64 i * PGSIZE).
Definition INDEX2DATA (i : Z) : Z := u64 (FILEDATA + i * PGSIZE).

(** An [int] in user memory. *)
Definition uload32 (va : Z) : K Z :=
  let! b0 := uload8 (u64 va) in
  let! b1 := uload8 (u64 (va + 1)) in
  let! b2 := uload8 (u64 (va + 2)) in
  let! b3 := uload8 (u64 (va + 3)) in
  ret (s32 (b0 + 2 ^ 8 * b1 + 2 ^ 16 * b2 + 2 ^ 24 * b3)).

Definition ustore32 (va v : Z) : K unit :=
  do! ustore8 (u64 va) (u8 v) ;;
  do! ustore8 (u64 (va + 1)) (u8 (Z.shiftr v 8)) ;;
  do! ustore8 (u64 (va + 2)) (u8 (Z.shiftr v 16)) ;;
  ustore8 (u64 (va + 3)) (u8 (Z.shiftr v 24)).

(** The fields of [struct Fd]. *)
Definition fd_dev_id (fd : Z) : Z := fd.
Definition fd_offset (fd : Z) : Z := fd + 4.
Definition fd_omode (fd : Z) : Z := fd + 8.

(** [struct Dev]: a function that a device does not have is a null pointer. *)
Record Dev : Type := mkDev {
  dev_id : Z;
  dev_read : option (Z -> Z -> Z -> K Z);
  dev_write : option (Z -> Z -> Z -> K Z);
  dev_close : option (Z -> K Z);
  dev_stat : option (Z -> Z -> K Z);
  dev_trunc : option (Z -> Z -> K Z);
}.

Definition fd2num (fd : Z) : Z := u64 (fd - FDTABLE) / PGSIZE.
Definition fd2data (fd : Z) : Z := INDEX2DATA (fd2num fd).

(** [(uvpd[VPD(va)] & PTE_P) && (uvpt[PGNUM(va)] & PTE_P)], read in this order. *)
Definition page_mapped (va : Z) : K bool :=
  let! d := uvpd (VPD va) in
  if nz (Z.land d PTE_P) then
    let! t := uvpt (VPN va) in
    ret (nz (Z.land t PTE_P))
  else ret false.

(** The result and what [*fd_store] is set to. *)
Definition fd_alloc : K (Z * Z) :=
  loop (Z.to_nat (MAXFD + 1)) (fun i =>
    if i <? MAXFD then
      let fd := INDEX2FD i in
      let! m := page_mapped fd in
      if m then ret (inl (i + 1)) else ret (inr (0, fd))
    else ret (inr (- E_MAX_OPEN, 0))) 0.

Definition fd_lookup (fdnum : Z) : K (Z * option Z) :=
  if (fdnum <? 0) || (MAXFD <=? fdnum) then ret (- E_INVAL, None)
  else
    let fd := INDEX2FD fdnum in
    let! m := page_mapped fd in
    if m then ret (0, Some fd) else ret (- E_INVAL, None).

(** lib/pageref.c; [pages] is the kernel's array, mapped read only. *)
Definition upageref (v : Z) : K Z :=
  let! d := uvpd (VPD v) in
  if negb (nz (Z.land d PTE_P)) then ret 0
  else
    let! pte := uvpt (VPN v) in
    if negb (nz (Z.land pte PTE_P)) then ret 0
    else gets (fun s => pp_ref (page_at s (PPN pte))).

Section Fd.
Context {hw : VmxHw}.
Context (devtab : list Dev).

(** The address of a [struct Dev]. *)
Context (dev_addr : Dev -> Z).

Definition dev_lookup (id : Z) : Z * option Dev :=
  match list_find (fun d => dev_id d = id) devtab with
  | Some (_, d) => (0, Some d)
  | None => (- E_INVAL, None)
  end.

Definition fd_close (fd : Z) (must_exist : bool) : K Z :=
  let! lk := fd_lookup (s32 (fd2num fd)) in
  match lk with
  | (r, fd2) =>
      if (r <? 0) || negb (bool_decide (fd2 = Some fd)) then ret (if must_exist then r else 0)
      else
        let! id := uload32 (fd_dev_id fd) in
        let! r := (match dev_lookup id with
                   | (_, Some dev) => match dev_close dev with Some f => f fd | None => ret 0 end
                   | (r, None) => ret r
                   end) in
        do! usys_page_unmap 0 fd ;;
        ret r
  end.

Definition close (fdnum : Z) : K Z :=
  let! lk := fd_lookup fdnum in
  match lk with
  | (_, Some fd) => fd_close fd true
  | (r, None) => ret r
  end.

Definition close_all : K unit := forM (seqZ 0 MAXFD) (fun i => do! close i ;; ret tt).

Definition dup (oldfdnum newfdnum : Z) : K Z :=
  let! lk := fd_lookup oldfdnum in
  match lk with
  | (r, None) => ret r
  | (_, Some oldfd) =>
      do! close newfdnum ;;
      let newfd := INDEX2FD newfdnum in
      let ova := fd2data oldfd in
      let nva := fd2data newfd in
      let! m := page_mapped ova in
      let! r := (if m : bool then
                   let! e := uvpt (VPN ova) in
                   usys_page_map 0 ova 0 nva (Z.land e PTE_SYSCALL)
                 else ret 0) in
      let! r := (if r <? 0 then ret r
                 else
                   let! e := uvpt (VPN oldfd) in
                   usys_page_map 0 oldfd 0 newfd (Z.land e PTE_SYSCALL)) in
      if r <? 0 then
        do! usys_page_unmap 0 newfd ;;
        do! usys_page_unmap 0 nva ;;
        ret r
      else ret newfdnum
  end.

(** The descriptor and the device that an operation works on. *)
Definition fd_device (fdnum : Z) : K (Z * option (Z * Dev)) :=
  let! lk := fd_lookup fdnum in
  match lk with
  | (r, None) => ret (r, None)
  | (_, Some fd) =>
      let! id := uload32 (fd_dev_id fd) in
      match dev_lookup id with
      | (r, None) => ret (r, None)
      | (_, Some dev) => ret (0, Some (fd, dev))
      end
  end.

Definition read (fdnum buf n : Z) : K Z :=
  let! d := fd_device fdnum in
  match d with
  | (r, None) => ret r
  | (_, Some (fd, dev)) =>
      let! omode := uload32 (fd_omode fd) in
      if Z.land omode O_ACCMODE =? O_WRONLY then ret (- E_INVAL)
      else match dev_read dev with Some f => f fd buf n | None => ret (- E_NOT_SUPP) end
  end.

(** At most one round for each byte, and one more. *)
Definition readn (fdnum buf n : Z) : K Z :=
  loop (Z.to_nat (n + 1)) (fun tot =>
    if u64 tot <? n then
      let! m := read fdnum (u64 (buf + tot)) (u64 (n - tot)) in
      let m := s32 m in
      if m <? 0 then ret (inr m)
      else if m =? 0 then ret (inr tot)
      else ret (inl (s32 (tot + m)))
    else ret (inr tot)) 0.

Definition write (fdnum buf n : Z) : K Z :=
  let! d := fd_device fdnum in
  match d with
  | (r, None) => ret r
  | (_, Some (fd, dev)) =>
      let! omode := uload32 (fd_omode fd) in
      if Z.land omode O_ACCMODE =? O_RDONLY then ret (- E_INVAL)
      else match dev_write dev with Some f => f fd buf n | None => ret (- E_NOT_SUPP) end
  end.

Definition seek (fdnum offset : Z) : K Z :=
  let! lk := fd_lookup fdnum in
  match lk with
  | (r, None) => ret r
  | (_, Some fd) =>
      do! ustore32 (fd_offset fd) offset ;;
      ret 0
  end.

Definition ftruncate (fdnum newsize : Z) : K Z :=
  let! d := fd_device fdnum in
  match d with
  | (r, None) => ret r
  | (_, Some (fd, dev)) =>
      let! omode := uload32 (fd_omode fd) in
      if Z.land omode O_ACCMODE =? O_RDONLY then ret (- E_INVAL)
      else match dev_trunc dev with Some f => f fd newsize | None => ret (- E_NOT_SUPP) end
  end.

(** The fields of [struct Stat]: a name of 128 characters, the size, whether it
    is a directory, the device. *)
Definition fstat (fdnum stat : Z) : K Z :=
  let! d := fd_device fdnum in
  match d with
  | (r, None) => ret r
  | (_, Some (fd, dev)) =>
      match dev_stat dev with
      | None => ret (- E_NOT_SUPP)
      | Some f =>
          do! ustore8 (u64 stat) 0 ;;
          do! ustore32 (stat + 128) 0 ;;
          do! ustore32 (stat + 132) 0 ;;
          do! ustore32 (stat + 136) (dev_addr dev) ;;
          do! ustore32 (stat + 140) (Z.shiftr (dev_addr dev) 32) ;;
          f fd stat
      end
  end.
End Fd.

(** ** Pipes *)
Section Pipes.
Context {hw : VmxHw}.

Definition PTE_PIPE : Z := Z.lor (Z.lor (Z.lor PTE_P PTE_W) PTE_U) PTE_SHARE.

(** The result and [pfd]. *)
Definition pipe : K (Z * option (Z * Z)) :=
  let! a0 := fd_alloc in
  let '(r, fd0) := a0 in
  let! r := (if r <? 0 then ret r else usys_page_alloc 0 fd0 PTE_PIPE) in
  if r <? 0 then ret (r, None)
  else
    let! a1 := fd_alloc in
    let '(r, fd1) := a1 in
    let! r := (if r <? 0 then ret r else usys_page_alloc 0 fd1 PTE_PIPE) in
    if r <? 0 then
      do! usys_page_unmap 0 fd0 ;;
      ret (r, None)
    else
      let va := fd2data fd0 in
      let! r := usys_page_alloc 0 va PTE_PIPE in
      if r <? 0 then
        do! usys_page_unmap 0 fd1 ;;
        do! usys_page_unmap 0 fd0 ;;
        ret (r, None)
      else
        let! r := usys_page_map 0 va 0 (fd2data fd1) PTE_PIPE in
        if r <? 0 then
          do! usys_page_unmap 0 va ;;
          do! usys_page_unmap 0 fd1 ;;
          do! usys_page_unmap 0 fd0 ;;
          ret (r, None)
        else
          do! ustore32 (fd_dev_id fd0) 112 ;;
          do! ustore32 (fd_omode fd0) O_RDONLY ;;
          do! ustore32 (fd_dev_id fd1) 112 ;;
          do! ustore32 (fd_omode fd1) O_WRONLY ;;
          ret (0, Some (s32 (fd2num fd0), s32 (fd2num fd1))).

(** [thisenv->env_runs]. *)
Definition uenv_runs : K Z :=
  gets (fun s => match curenv s with Some c => s32 (env_runs (env_at s c)) | None => 0 end).

(** The number of runs is read twice, to notice that another environment ran in
    between; in one step of this environment none does, and one round is enough. *)
Definition _pipeisclosed (fd p : Z) : K Z :=
  loop 1 (fun _ =>
    let! n := uenv_runs in
    let! a := upageref fd in
    let! b := upageref p in
    let r := if a =? b then 1 else 0 in
    let! nn := uenv_runs in
    if n =? nn then ret (inr r) else ret (inl tt)) tt.

Definition pipeisclosed (fdnum : Z) : K Z :=
  let! lk := fd_lookup fdnum in
  match lk with
  | (r, None) => ret r
  | (_, Some fd) => _pipeisclosed fd (fd2data fd)
  end.

Definition devpipe_close (fd : Z) : K Z :=
  do! usys_page_unmap 0 fd ;;
  usys_page_unmap 0 (fd2data fd).

(** Reading, writing and the status are parameters here; Pipe has the first two
    as steps on the shared page. *)
Definition devpipe (rd wr : Z -> Z -> Z -> K Z) (st : Z -> Z -> K Z) : Dev :=
  mkDev 112 (Some rd) (Some wr) (Some devpipe_close) (Some st) None.
End Pipes.
