(* ===== verification/FdProps.v ===== *)
(** Descriptors and pipes, lib/fd.c and lib/pipe.c, on the whole system: a new pipe
    is one zero page with two descriptors, and closing one end is seen at the
    other. *)

From S2P Require Import Prelude Kernel PageAlloc PageTable PageTableInv PageTableSpec PageTableProps.
From S2P Require Import Mmu Ept EptProps Vmx Env EnvProps SchedProps Syscall SyscallProps Trap TrapProps User Fork CowProps Fd.

(** ** The pages of the descriptor table

    Page [i] for [i] below 32 is descriptor [i], page [32 + i] its data. *)
Definition slot (i : Z) : Z := FDTABLE + i * PGSIZE.

Record slot_facts (i : Z) : Prop := {
  sl_range : 0 <= slot i < 2 ^ 39;
  sl_al : slot i mod PGSIZE = 0;
  sl_vpn : VPN (slot i) = 0xD0000 + i;
  sl_pn : (0xD0000 + i) * PGSIZE = slot i;
  sl_vpd : VPD (slot i) = 1664;
  sl_path : va_path (slot i) = [0; 3; 128];
  sl_ptx : PTX (slot i) = i;
  sl_pml4 : PML4 (slot i) = 0;
}.

Lemma slot_ok i : 0 <= i < 64 -> slot_facts i.
Proof.
  intros Hi. split; unfold slot, FDTABLE.
  - unfold PGSIZE. lia.
  - unfold PGSIZE. Z.to_euclidean_division_equations; lia.
  - rewrite VPN_eq. unfold PGSIZE. Z.to_euclidean_division_equations; lia.
  - unfold PGSIZE. lia.
  - unfold VPD, PGSIZE. rewrite Z.shiftr_div_pow2 by done. Z.to_euclidean_division_equations; lia.
  - unfold va_path. rewrite PML4_eq, PDPE_eq, PDX_eq. unfold PGSIZE. repeat f_equal; Z.to_euclidean_division_equations; lia.
  - rewrite PTX_eq. unfold PGSIZE. Z.to_euclidean_division_equations; lia.
  - rewrite PML4_eq. unfold PGSIZE. Z.to_euclidean_division_equations; lia.
Qed.

Lemma slot_idx_inj i j : 0 <= i < 64 -> 0 <= j < 64 -> va_idx (slot i) = va_idx (slot j) -> i = j.
Proof.
  intros Hi Hj He. rewrite !va_idx_path, (sl_path _ (slot_ok i Hi)), (sl_path _ (slot_ok j Hj)) in He.
  rewrite (sl_ptx _ (slot_ok i Hi)), (sl_ptx _ (slot_ok j Hj)) in He. by injection He.
Qed.

Lemma INDEX2FD_slot i : 0 <= i < 32 -> INDEX2FD i = slot i.
Proof. intros Hi. unfold INDEX2FD, slot, FDTABLE, PGSIZE. rewrite (u64_small i) by lia. apply u64_small. lia. Qed.

Lemma fd2num_slot i : 0 <= i < 32 -> fd2num (slot i) = i /\ fd2data (slot i) = slot (32 + i).
Proof.
  intros Hi. assert (fd2num (slot i) = i) as E.
  { unfold fd2num, slot, FDTABLE, PGSIZE. rewrite u64_small by lia. Z.to_euclidean_division_equations; lia. }
  split; [done|]. unfold fd2data. rewrite E. unfold INDEX2DATA, slot, FILEDATA, MAXFD, FDTABLE, PGSIZE. rewrite u64_small by lia. lia.
Qed.

(** ** Reading the tables *)

(** The environment [c] runs in address space [r], and the third gigabyte of it
    has a page directory (the stack is there). *)
Record user_view (k c r : Z) (own : owners) (l : list Z) (s : kstate) : Prop := {
  uv_inv : pt_inv k own l s;
  uv_run : running own s c r;
  uv_zero : 0 ∉ l;
  uv_gap : exists t, descend s r [0; 3] = Some t;
}.

Definition fd_mapped (s : kstate) (r i : Z) : bool := nz (Z.land (pte_of s r (slot i)) PTE_P).

Lemma page_directory k c r own l s t : user_view k c r own l s -> descend s r [0; 3] = Some t -> own !! t = Some (r, [0; 3]).
Proof.
  intros V Hd. apply (descend_owned k own l s r r [] [0; 3] t (uv_inv _ _ _ _ _ _ V) (ru_own _ _ _ _ (uv_run _ _ _ _ _ _ V))); try done.
  - apply Forall_cons. split; [done|]. apply Forall_singleton. done.
  - cbn. lia.
  - intros j js' Hj. injection Hj as <- _. by left.
Qed.

(** What the first test sees, and the second. *)
Lemma slot_tables k c r own l s i : user_view k c r own l s -> 0 <= i < 64 ->
  exists t, uvpd (VPD (slot i)) s = Ret (entry s t 128) s /\
    (nz (Z.land (entry s t 128) PTE_P) = true -> uvpt (VPN (slot i)) s = Ret (pte_of s r (slot i)) s) /\
    (nz (Z.land (entry s t 128) PTE_P) = false -> pte_of s r (slot i) = 0).
Proof.
  intros V Hi. pose proof V as [I R _ [t Ht]]. pose proof (page_directory _ _ _ _ _ _ _ V Ht) as Hot. pose proof (slot_ok i Hi) as [F1 F2 F3 F4 F5 F6 F7 F8].
  exists t. rewrite F5. split; [apply (uvpd_run k own l s c r I R 1664 t); [done|exact Ht]|].
  assert (descend s r [0; 3; 128] = if entry s t 128 =? 0 then None else Some (PPN (entry s t 128))) as Hd.
  { change [0; 3; 128] with ([0; 3] ++ [128]). by rewrite descend_snoc, Ht. }
  split.
  - intros Hp. rewrite F3, <- F4. apply (uvpt_run k own l s c r I R _ (PPN (entry s t 128))); [lia|]. rewrite F4, F6, Hd.
    destruct (Z.eqb_spec (entry s t 128) 0) as [E|]; [by rewrite E in Hp|done].
  - intros Hp. rewrite pte_of_descend, F6, Hd. destruct (Z.eqb_spec (entry s t 128) 0) as [|Hne]; [done|]. exfalso.
    pose proof (pi_flags _ _ _ _ I t r [0; 3] 128 Hot ltac:(cbn; lia) ltac:(done) ltac:(done) Hne) as Hf. apply nz_false in Hp.
    assert (Z.land (Z.land (entry s t 128) PTE_PWU) PTE_P = 0) as Hz by (rewrite <- Z.land_assoc; exact Hp). by rewrite Hf in Hz.
Qed.

Lemma page_mapped_run k c r own l s i : user_view k c r own l s -> 0 <= i < 64 -> page_mapped (slot i) s = Ret (fd_mapped s r i) s.
Proof.
  intros V Hi. destruct (slot_tables k c r own l s i V Hi) as (t & H1 & H2 & H3). unfold page_mapped, fd_mapped. mrun H1.
  destruct (nz (Z.land (entry s t 128) PTE_P)).
  - specialize (H2 eq_refl). by mrun H2.
  - by rewrite (H3 eq_refl).
Qed.

Lemma upageref_run k c r own l s i : user_view k c r own l s -> 0 <= i < 64 ->
  upageref (slot i) s = Ret (if fd_mapped s r i then ref_of s (PPN (pte_of s r (slot i))) else 0) s.
Proof.
  intros V Hi. destruct (slot_tables k c r own l s i V Hi) as (t & H1 & H2 & H3). unfold upageref, fd_mapped. mrun H1.
  destruct (nz (Z.land (entry s t 128) PTE_P)); cbn [negb].
  - specialize (H2 eq_refl). mrun H2. by destruct (nz _).
  - by rewrite (H3 eq_refl).
Qed.

(** ** [fd_alloc] and [fd_lookup] *)

Lemma fd_alloc_run k c r own l s : user_view k c r own l s ->
  (exists i, 0 <= i < 32 /\ fd_mapped s r i = false /\ (forall j, 0 <= j < i -> fd_mapped s r j = true) /\ fd_alloc s = Ret (0, slot i) s) \/
  ((forall j, 0 <= j < 32 -> fd_mapped s r j = true) /\ fd_alloc s = Ret (- E_MAX_OPEN, 0) s).
Proof.
  intros V. unfold fd_alloc, MAXFD.
  assert (forall n i, i = 32 - Z.of_nat n -> 0 <= i -> (forall j, 0 <= j < i -> fd_mapped s r j = true) ->
    let o := loop (S n) (fun i => if i <? 32 then let fd := INDEX2FD i in let! m := page_mapped fd in if m then ret (inl (i + 1)) else ret (inr (0, fd))
      else ret (inr (- E_MAX_OPEN, 0))) i s in
    (exists i, 0 <= i < 32 /\ fd_mapped s r i = false /\ (forall j, 0 <= j < i -> fd_mapped s r j = true) /\ o = Ret (0, slot i) s) \/
    ((forall j, 0 <= j < 32 -> fd_mapped s r j = true) /\ o = Ret (- E_MAX_OPEN, 0) s)) as Hgen.
  { induction n as [|n IH]; intros i Hi H0 Hj o; subst o.
    - assert (i = 32) as -> by lia. cbn [loop]. change (32 <? 32) with false. msteps. right. split; [exact Hj|done].
    - remember (S n) as m eqn:Em. cbn [loop]. subst m. destruct (Z.ltb_spec i 32); [|lia]. cbv zeta. rewrite INDEX2FD_slot by lia. rewrite bind_assoc.
      rewrite (bind_Ret _ _ _ _ _ (page_mapped_run k c r own l s i V ltac:(lia))). destruct (fd_mapped s r i) eqn:Hm; msteps.
      + apply (IH (i + 1)); [lia|lia|]. intros j Hj'. destruct (Z.eq_dec j i) as [->|]; [done|]. apply Hj. lia.
      + left. exists i. split_ands; try done; lia. }
  apply (Hgen 32%nat 0); [done|lia|]. intros j Hj. lia.
Qed.

Lemma fd_lookup_run k c r own l s n : user_view k c r own l s ->
  fd_lookup n s = Ret (if (0 <=? n) && (n <? 32) && fd_mapped s r n then (0, Some (slot n)) else (- E_INVAL, None)) s.
Proof.
  intros V. unfold fd_lookup, MAXFD. destruct (Z.ltb_spec n 0), (Z.leb_spec 0 n); try lia; [done|]. destruct (Z.leb_spec 32 n), (Z.ltb_spec n 32); try lia; [done|].
  cbn [orb andb]. rewrite INDEX2FD_slot by lia. rewrite (bind_Ret _ _ _ _ _ (page_mapped_run k c r own l s n V ltac:(lia))). by destruct (fd_mapped s r n).
Qed.

(** ** Steps of the environment *)

(** A call that adds pages of the free list to address spaces, or writes to
    pages that were free. *)
Record grown (k c r : Z) (own own' : owners) (l l' : list Z) (s s' : kstate) : Prop := {
  gr_view : user_view k c r own' l' s';
  gr_own : own ⊆ own';
  gr_out : forall q, q ∉ l -> own' !! q = own !! q;
  gr_free : forall q, q ∈ l' -> q ∈ l;
  gr_mem : forall q j, q ∉ l -> own !! q = None -> entry s' q j = entry s q j;
  gr_zero : forall x, user_slot own' s' 0 x -> user_slot own s 0 x;
}.

Lemma uv_own k c r own l s : user_view k c r own l s -> own !! r = Some (r, []).
Proof. intros V. exact (ru_own _ _ _ _ (uv_run _ _ _ _ _ _ V)). Qed.

(** An insertion below [r] keeps the view, when the displaced entry is empty. *)
Lemma inserted_grown k c r own own' l l' s s' va v : user_view k c r own l s -> inserted k own own' l l' s s' r va v ->
  pte_of s r va = 0 -> PPN v <> 0 -> grown k c r own own' l l' s s'.
Proof.
  intros V Hin Hz Hv. pose proof V as [I R H0 [t Ht]]. pose proof (running_inserted _ _ _ _ _ _ _ _ _ _ _ _ I R Hin) as R1.
  destruct Hin as [J1 J2 J3 J4 J5 J6 J7 J8 J9 J10].
  assert (forall q, q ∈ l' -> q ∈ l) as Hf. { intros q Hq. destruct (J5 q Hq) as [?|[Hn _]]; [done|]. by rewrite Hz in Hn. }
  split; [|done..|intros q j Hq Ho; apply J8; [done|intros path; congruence]|intros x Hx; by destruct (J10 0 x Hx)].
  split; [done|done|by intros Hq; apply H0, Hf|]. exists t.
  apply (owned_descend k own' l' s' r t [0; 3] J2 (ru_own _ _ _ _ R1)). eapply lookup_weaken; [|exact J3]. by eapply page_directory.
Qed.

Section Steps.
Context {hw : VmxHw} (k c r : Z) (own : owners) (l : list Z) (s : kstate).
Context (V : user_view k c r own l s).

Lemma self_acts : may_act s 0 c /\ env_pml4e (env_at s c) = kva r 0.
Proof using V. split; [apply may_act_self|]; apply (uv_run _ _ _ _ _ _ V). Qed.

Lemma ualloc_run i : 0 <= i < 64 -> pte_of s r (slot i) = 0 -> (4 <= length l)%nat ->
  exists p own' l' s', usys_page_alloc 0 (slot i) PTE_PIPE s = Ret 0 s' /\ grown k c r own own' l l' s s' /\ (length l <= length l' + 4)%nat /\
    p ∈ l /\ p ∉ l' /\ own' !! p = None /\ (forall j, entry s' p j = 0) /\ ref_of s' p = 1 /\ (forall q, q ∉ l -> ref_of s' q = ref_of s q) /\
    (forall r' va', own !! r' = Some (r', []) -> priv k r' (PML4 va') ->
       pte_of s' r' va' = if decide (r = r' /\ va_idx (slot i) = va_idx va') then p * PGSIZE + PTE_PIPE else pte_of s r' va').
Proof using V.
  intros Hi Hz Hl. pose proof V as [I R H0 _]. destruct self_acts as [Ha Hp]. destruct (slot_ok i Hi) as [F1 F2 _ _ _ _ _ _].
  destruct (sys_page_alloc_run k own l s 0 c r (slot i) PTE_PIPE I Ha Hp (ru_own _ _ _ _ R) H0 F1 F2 eq_refl)
    as [(p & l0 & s1 & own1 & l1 & El & Hrun & Hin & Hll & Hpl & Hpo & Hpz & Hpr)|(s1 & _ & _ & Hlt & _)]; [|lia].
  assert (p ∈ l) as Hpin by (rewrite El; lset). exists p, own1, l1, s1. split.
  { apply usys_page_alloc_Ret; [done|done|lia|lia|done]. }
  split; [apply (inserted_grown k c r own own1 l l1 s s1 (slot i) (p * PGSIZE + PTE_PIPE)); [done..|by rewrite PPN_add; [intros ->|]]|]. split_ands; try done; [|apply (in_pte _ _ _ _ _ _ _ _ _ _ Hin)].
  intros q Hq. rewrite (in_ref _ _ _ _ _ _ _ _ _ _ Hin q Hq), Hz, cnt_0. pose proof (inv_free_range _ _ _ _ I p Hpin).
  rewrite cnt_nz by (change PTE_PIPE with 1031; unfold PGSIZE; lia). rewrite PPN_add by done. rewrite decide_False by (intros <-; done). lia.
Qed.

(** A second mapping of a page, next to the first. *)
Lemma umap_run i j p : 0 <= i < 64 -> 0 <= j < 64 -> pte_of s r (slot i) = p * PGSIZE + PTE_PIPE -> p <> 0 -> pte_of s r (slot j) = 0 -> ref_of s p < 2 ^ 16 - 1 ->
  exists l' s', usys_page_map 0 (slot i) 0 (slot j) PTE_PIPE s = Ret 0 s' /\ grown k c r own own l l' s s' /\
    (forall q, q ∉ l -> ref_of s' q = ref_of s q + if decide (p = q) then 1 else 0) /\
    (forall r' va', own !! r' = Some (r', []) -> priv k r' (PML4 va') ->
       pte_of s' r' va' = if decide (r = r' /\ va_idx (slot j) = va_idx va') then p * PGSIZE + PTE_PIPE else pte_of s r' va').
Proof using V.
  intros Hi Hj Hp Hp0 Hz Href. pose proof V as [I R H0 _]. destruct self_acts as [Ha Hm]. pose proof (ru_own _ _ _ _ R) as Hr.
  destruct (slot_ok i Hi) as [F1 F2 _ _ _ F6 _ F8]. destruct (slot_ok j Hj) as [G1 G2 _ _ _ G6 _ _].
  assert (pte_of s r (slot i) <> 0) as Hne. { intros E. apply Hp0. apply (f_equal PPN) in E. by rewrite Hp, PPN_add in E. }
  assert (PPN (pte_of s r (slot i)) = p) as EP by (by rewrite Hp, PPN_add).
  destruct (user_pte_range _ _ _ _ _ _ I Hr F8 Hne) as (_ & _ & _ & u & Hu & _). rewrite F6, <- G6 in Hu.
  destruct (sys_page_map_present k own l s 0 c r (slot i) 0 c r (slot j) PTE_PIPE I Ha Hm Hr Ha Hm Hr F1 F2 G1 G2 eq_refl Hne
    ltac:(by rewrite EP) ltac:(by rewrite EP) u Hu) as (s1 & l1 & Hrun & Hin & _ & _).
  { rewrite Hp, land_page by done. done. }
  rewrite EP in Hin. exists l1, s1. split; [apply usys_page_map_Ret; (done || lia)|].
  split; [apply (inserted_grown k c r own own l l1 s s1 (slot j) (p * PGSIZE + PTE_PIPE)); [done..|by rewrite PPN_add]|]. split; [|apply (in_pte _ _ _ _ _ _ _ _ _ _ Hin)].
  intros q Hq. rewrite (in_ref _ _ _ _ _ _ _ _ _ _ Hin q Hq), Hz, cnt_0. rewrite cnt_nz by congruence. rewrite PPN_add by done. lia.
Qed.
End Steps.

(** ** The fields of a descriptor *)

(** A store to a page that is no table. *)
Definition data_step (p : Z) (s s' : kstate) : Prop := s' = set_mem (mem s') s /\ forall t j, t <> p -> entry s' t j = entry s t j.

Lemma data_step_trans p s s1 s2 : data_step p s s1 -> data_step p s1 s2 -> data_step p s s2.
Proof.
  intros [H1 H2] [H3 H4]. split; [rewrite H3; rewrite H1; by destruct s|]. intros t j Ht. by rewrite H4, H2.
Qed.

Lemma data_step_view k c r own l s s' p : user_view k c r own l s -> own !! p = None -> data_step p s s' ->
  user_view k c r own l s' /\ (forall q, ref_of s' q = ref_of s q) /\
  (forall r' va', own !! r' = Some (r', []) -> priv k r' (PML4 va') -> pte_of s' r' va' = pte_of s r' va').
Proof.
  intros V Hp [Hs He]. pose proof V as [I R H0 [t Ht]].
  assert (same_tables own s s') as Hst by (intros x i [y Hx]; apply He; congruence).
  assert (pt_inv k own l s') as I2 by (apply (pt_inv_data k own l s s'); [by rewrite Hs..|done|done]).
  split; [|split].
  - split; [done| |done|].
    + apply (running_mm own own s s' c r R); [rewrite Hs; unfold mm_only; by destruct s|done|]. apply Hst. rewrite (ru_own _ _ _ _ R). eauto.
    + exists t. apply (owned_descend k own l s' r t [0; 3] I2 (ru_own _ _ _ _ R)). by eapply page_directory.
  - intros q. rewrite Hs. done.
  - intros r' va' Hr' Hp'. by apply (same_tables_pte k own l s).
Qed.

(** A byte of a page of the table. *)
Lemma slot_off i o : 0 <= i < 64 -> 0 <= o < PGSIZE ->
  u64 (slot i + o) = slot i + o /\ (slot i + o) mod PGSIZE = o /\ PML4 (slot i + o) = 0 /\ va_idx (slot i + o) = va_idx (slot i).
Proof.
  intros Hi Ho. destruct (slot_ok i Hi) as [F1 F2 _ _ _ _ _ F8]. assert (PGSIZE = 4096) as HP by done.
  assert (slot i + o < 2 ^ 39) as Hb by (unfold slot, FDTABLE; lia). split_ands.
  - apply u64_small. lia.
  - rewrite HP in *. Z.to_euclidean_division_equations; lia.
  - rewrite PML4_eq, Z.div_small by lia. done.
  - apply va_idx_page; [lia..|]. rewrite HP in *. Z.to_euclidean_division_equations; lia.
Qed.

Section Fields.
Context (k c r : Z) (own : owners) (l : list Z).

Definition holds (s : kstate) (i p : Z) : Prop := user_view k c r own l s /\ 0 <= i < 64 /\ own !! p = None /\ pte_of s r (slot i) = p * PGSIZE + PTE_PIPE.

Lemma holds_translate s i p o f : holds s i p -> 0 <= o < PGSIZE -> 0 < f < PGSIZE -> Z.land PTE_PWU f = f -> translate s (slot i + o) f = Some p.
Proof.
  intros (V & Hi & Hp & He) Ho Hf Hs. destruct (slot_off i o Hi Ho) as (O1 & O2 & O3 & O4). pose proof V as [I R _ _].
  rewrite (translate_user k own l s c r I R (slot i + o) f O3 ltac:(lia) Hs). unfold pte_of. rewrite O4. fold (pte_of s r (slot i)). rewrite He.
  rewrite land_page, PPN_add by (done || lia). replace (Z.land PTE_PIPE f) with f; [by rewrite Z.eqb_refl|].
  by rewrite <- Hs, Z.land_assoc.
Qed.

Lemma uload8_run s i p o : holds s i p -> 0 <= o < PGSIZE -> uload8 (u64 (slot i + o)) s = Ret (phys_byte s p o) s.
Proof.
  intros H Ho. destruct (slot_off i o ltac:(apply H) Ho) as (O1 & O2 & _). rewrite O1. unfold uload8. msteps.
  rewrite (holds_translate s i p o PTE_UR H Ho) by done. by rewrite O2.
Qed.

Lemma ustore8_run s i p o b : holds s i p -> 0 <= o < PGSIZE ->
  exists s', ustore8 (u64 (slot i + o)) b s = Ret tt s' /\ data_step p s s' /\ holds s' i p /\
    forall x, 0 <= x -> phys_byte s' p x = if decide (o = x) then u8 b else phys_byte s p x.
Proof.
  intros H Ho. destruct (slot_off i o ltac:(apply H) Ho) as (O1 & O2 & _). rewrite O1. unfold ustore8. msteps.
  rewrite (holds_translate s i p o PTE_PWU H Ho) by done. rewrite O2. eexists. split; [reflexivity|].
  assert (data_step p s (set_phys_byte p o b s)) as Hd.
  { split; [by destruct s|]. intros t j Ht. by apply set_phys_byte_entry. }
  split; [done|]. destruct H as (V & Hi & Hp & He). destruct (data_step_view k c r own l s _ p V Hp Hd) as (V' & _ & Hpte).
  destruct (slot_ok i Hi) as [_ _ _ _ _ _ _ F8]. split.
  - split; [done|]. split; [done|]. split; [done|]. rewrite Hpte; [done|by eapply uv_own|by left].
  - intros x Hx. rewrite phys_byte_set by lia. repeat case_decide; naive_solver.
Qed.

(** The four bytes at offset [o] of a page, as an [int]. *)
Definition word_at (s : kstate) (p o : Z) : Z :=
  s32 (phys_byte s p o + 2 ^ 8 * phys_byte s p (o + 1) + 2 ^ 16 * phys_byte s p (o + 2) + 2 ^ 24 * phys_byte s p (o + 3)).

Lemma uload32_run s i p o : holds s i p -> 0 <= o -> o + 3 < PGSIZE -> uload32 (slot i + o) s = Ret (word_at s p o) s.
Proof.
  intros H H0 Ho. unfold uload32. rewrite <- !Z.add_assoc.
  rewrite (bind_Ret _ _ _ _ _ (uload8_run s i p o H ltac:(lia))), (bind_Ret _ _ _ _ _ (uload8_run s i p (o + 1) H ltac:(lia))).
  rewrite (bind_Ret _ _ _ _ _ (uload8_run s i p (o + 2) H ltac:(lia))), (bind_Ret _ _ _ _ _ (uload8_run s i p (o + 3) H ltac:(lia))). done.
Qed.

Lemma bytes_word v : - 2 ^ 31 <= v < 2 ^ 31 ->
  s32 (u8 (u8 v) + 2 ^ 8 * u8 (u8 (Z.shiftr v 8)) + 2 ^ 16 * u8 (u8 (Z.shiftr v 16)) + 2 ^ 24 * u8 (u8 (Z.shiftr v 24))) = v.
Proof.
  intros Hv. unfold u8. rewrite !Z.mod_mod, !Z.shiftr_div_pow2 by done. unfold s32. Z.to_euclidean_division_equations; lia.
Qed.

Lemma ustore32_run s i p o v : holds s i p -> 0 <= o -> o + 3 < PGSIZE -> - 2 ^ 31 <= v < 2 ^ 31 ->
  exists s', ustore32 (slot i + o) v s = Ret tt s' /\ data_step p s s' /\ holds s' i p /\ word_at s' p o = v /\
    forall x, 0 <= x -> x < o \/ o + 4 <= x -> phys_byte s' p x = phys_byte s p x.
Proof.
  intros H H0 Ho Hv. unfold ustore32. rewrite <- !Z.add_assoc.
  destruct (ustore8_run s i p o (u8 v) H ltac:(lia)) as (s1 & E1 & D1 & H1 & B1). mrun E1.
  destruct (ustore8_run s1 i p (o + 1) (u8 (Z.shiftr v 8)) H1 ltac:(lia)) as (s2 & E2 & D2 & H2 & B2). mrun E2.
  destruct (ustore8_run s2 i p (o + 2) (u8 (Z.shiftr v 16)) H2 ltac:(lia)) as (s3 & E3 & D3 & H3 & B3). mrun E3.
  destruct (ustore8_run s3 i p (o + 3) (u8 (Z.shiftr v 24)) H3 ltac:(lia)) as (s4 & E4 & D4 & H4 & B4).
  exists s4. split; [done|]. split; [eauto using data_step_trans|]. split; [done|].
  split; [|intros x Hx Hr; rewrite B4, B3, B2, B1 by lia; by rewrite !decide_False by lia].
  unfold word_at. rewrite !B4, !B3, !B2, !B1 by lia.
  rewrite (decide_False (P := o + 3 = o)), (decide_False (P := o + 2 = o)), (decide_False (P := o + 1 = o)), (decide_True (P := o = o)) by lia.
  rewrite (decide_False (P := o + 3 = o + 1)), (decide_False (P := o + 2 = o + 1)), (decide_True (P := o + 1 = o + 1)) by lia.
  rewrite (decide_False (P := o + 3 = o + 2)), (decide_True (P := o + 2 = o + 2)), (decide_True (P := o + 3 = o + 3)) by lia.
  by apply bytes_word.
Qed.
End Fields.

(** ** A new pipe *)

Lemma fd_alloc_lowest k c r own l s i : user_view k c r own l s -> 0 <= i < 32 -> fd_mapped s r i = false ->
  (forall j, 0 <= j < i -> fd_mapped s r j = true) -> fd_alloc s = Ret (0, slot i) s.
Proof.
  intros V Hi Hf Hlow. destruct (fd_alloc_run k c r own l s V) as [(j & Hj & Hjf & Hjl & ->)|[Hall _]].
  - destruct (Z.lt_trichotomy i j) as [H|[->|H]]; [|done|]; [specialize (Hjl i ltac:(lia))|specialize (Hlow j ltac:(lia))]; congruence.
  - specialize (Hall i Hi). congruence.
Qed.

Lemma grown_trans k c r own own1 own2 l l1 l2 s s1 s2 :
  grown k c r own own1 l l1 s s1 -> grown k c r own1 own2 l1 l2 s1 s2 -> grown k c r own own2 l l2 s s2.
Proof.
  intros [G1 G2 G3 G4 G5 G6] [H1 H2 H3 H4 H5 H6]. assert (forall q, q ∉ l -> q ∉ l1) as Hn by (intros q Hq Hin; by apply Hq, G4).
  split; [done|by etransitivity| |by auto| |by auto].
  - intros q Hq. rewrite H3 by auto. by apply G3.
  - intros q j Hq Ho. rewrite H5; [by apply G5|by auto|by rewrite G3].
Qed.

(** What an update of one slot does to the other slots. *)
Lemma slot_update k c r own l s s' i v : user_view k c r own l s -> 0 <= i < 64 ->
  (forall r' va', own !! r' = Some (r', []) -> priv k r' (PML4 va') ->
     pte_of s' r' va' = if decide (r = r' /\ va_idx (slot i) = va_idx va') then v else pte_of s r' va') ->
  pte_of s' r (slot i) = v /\ forall j, 0 <= j < 64 -> j <> i -> pte_of s' r (slot j) = pte_of s r (slot j).
Proof.
  intros V Hi H. pose proof (uv_own _ _ _ _ _ _ V) as Hr.
  assert (forall j, 0 <= j < 64 -> priv k r (PML4 (slot j))) as Hp by (intros j Hj; left; apply (sl_pml4 _ (slot_ok j Hj))).
  split; [rewrite H by auto; by rewrite decide_True|]. intros j Hj Hne. rewrite H by auto. rewrite decide_False; [done|].
  intros [_ E]. apply Hne. by apply slot_idx_inj.
Qed.

Definition touches (js : list Z) (va : Z) : Prop := exists j, j ∈ js /\ va_idx (slot j) = va_idx va.

(** Every slot of an address space but those of the pages [js] of [r]. *)
Definition slots_kept (k r : Z) (own : owners) (js : list Z) (s s' : kstate) : Prop :=
  forall r' va', own !! r' = Some (r', []) -> priv k r' (PML4 va') -> ~ (r = r' /\ touches js va') -> pte_of s' r' va' = pte_of s r' va'.

Lemma slots_kept_step k r own own' js s s1 s2 i v : own ⊆ own' -> i ∈ js -> slots_kept k r own js s s1 ->
  (forall r' va', own' !! r' = Some (r', []) -> priv k r' (PML4 va') ->
     pte_of s2 r' va' = if decide (r = r' /\ va_idx (slot i) = va_idx va') then v else pte_of s1 r' va') ->
  slots_kept k r own js s s2.
Proof.
  intros Hsub Hi Hk H r' va' Hr Hp Hn. rewrite H; [|by eapply lookup_weaken|done]. rewrite decide_False; [by apply Hk|].
  intros [-> E]. apply Hn. split; [done|]. by exists i.
Qed.

(** A pipe: two descriptors with one data page. *)
Record pipe_pages (s : kstate) (r : Z) (own : owners) (i0 i1 p0 p1 pd : Z) : Prop := {
  pp_fd0 : pte_of s r (slot i0) = p0 * PGSIZE + PTE_PIPE;
  pp_fd1 : pte_of s r (slot i1) = p1 * PGSIZE + PTE_PIPE;
  pp_data0 : pte_of s r (slot (32 + i0)) = pd * PGSIZE + PTE_PIPE;
  pp_data1 : pte_of s r (slot (32 + i1)) = pd * PGSIZE + PTE_PIPE;
  pp_own : own !! p0 = None /\ own !! p1 = None /\ own !! pd = None;
  pp_ne : NoDup [0; p0; p1; pd];
  pp_refs : ref_of s p0 = 1 /\ ref_of s p1 = 1 /\ ref_of s pd = 2;
}.

Section Pipe.
Context {hw : VmxHw} (k c r : Z) (own : owners) (l : list Z) (s : kstate).
Context (V : user_view k c r own l s).
Context (i0 i1 : Z) (Hi : 0 <= i0 < i1) (Hi1 : i1 < 32).
Context (Hf0 : fd_mapped s r i0 = false) (Hf1 : fd_mapped s r i1 = false).
Context (Hlow : forall j, 0 <= j < i1 -> j <> i0 -> fd_mapped s r j = true).
Context (Hz : forall j, j ∈ [i0; i1; 32 + i0; 32 + i1] -> pte_of s r (slot j) = 0).
Context (Hlen : (12 <= length l)%nat).

Lemma pipe_alloc : exists p0 p1 pd own' l' s1 s2 s3 s', 
  fd_alloc s = Ret (0, slot i0) s /\ usys_page_alloc 0 (slot i0) PTE_PIPE s = Ret 0 s1 /\
  fd_alloc s1 = Ret (0, slot i1) s1 /\ usys_page_alloc 0 (slot i1) PTE_PIPE s1 = Ret 0 s2 /\
  usys_page_alloc 0 (slot (32 + i0)) PTE_PIPE s2 = Ret 0 s3 /\ usys_page_map 0 (slot (32 + i0)) 0 (slot (32 + i1)) PTE_PIPE s3 = Ret 0 s' /\
  grown k c r own own' l l' s s' /\ pipe_pages s' r own' i0 i1 p0 p1 pd /\ (forall j, entry s' pd j = 0) /\
  (forall q, q ∈ [p0; p1; pd] -> q ∈ l /\ q ∉ l') /\ (forall q, q ∉ l -> ref_of s' q = ref_of s q) /\
  slots_kept k r own [i0; i1; 32 + i0; 32 + i1] s s'.
Proof using All.
  assert (E0 : fd_alloc s = Ret (0, slot i0) s) by (apply (fd_alloc_lowest k c r own l s i0 V); [lia|done|intros j Hj; apply Hlow; lia]).
  destruct (ualloc_run k c r own l s V i0) as (p0 & own1 & l1 & s1 & A1 & G1 & L1 & P1 & N1 & O1 & Z1 & R1 & Q1 & T1); [lia|apply Hz; lset|lia|].
  destruct (slot_update k c r own l s s1 i0 _ V ltac:(lia) T1) as [U1 K1]. pose proof (gr_view _ _ _ _ _ _ _ _ _ G1) as V1.
  assert (E1 : fd_alloc s1 = Ret (0, slot i1) s1).
  { apply (fd_alloc_lowest k c r own1 l1 s1 i1 V1); [lia|unfold fd_mapped; rewrite K1 by lia; done|]. intros j Hj. unfold fd_mapped.
    destruct (Z.eq_dec j i0) as [->|Hne]; [rewrite U1, land_page by done; done|]. rewrite K1 by lia. by apply Hlow. }
  destruct (ualloc_run k c r own1 l1 s1 V1 i1) as (p1 & own2 & l2 & s2 & A2 & G2 & L2 & P2 & N2 & O2 & Z2 & R2 & Q2 & T2);
    [lia|rewrite K1 by lia; apply Hz; lset|lia|].
  destruct (slot_update k c r own1 l1 s1 s2 i1 _ V1 ltac:(lia) T2) as [U2 K2]. pose proof (gr_view _ _ _ _ _ _ _ _ _ G2) as V2.
  destruct (ualloc_run k c r own2 l2 s2 V2 (32 + i0)) as (pd & own3 & l3 & s3 & A3 & G3 & L3 & P3 & N3 & O3 & Z3 & R3 & Q3 & T3);
    [lia|rewrite K2, K1 by lia; apply Hz; lset|lia|].
  destruct (slot_update k c r own2 l2 s2 s3 (32 + i0) _ V2 ltac:(lia) T3) as [U3 K3]. pose proof (gr_view _ _ _ _ _ _ _ _ _ G3) as V3.
  pose proof (gr_free _ _ _ _ _ _ _ _ _ G1) as F1. pose proof (gr_free _ _ _ _ _ _ _ _ _ G2) as F2. pose proof (gr_free _ _ _ _ _ _ _ _ _ G3) as F3.
  assert (forall q, q ∈ l -> q <> 0) as Hn0 by (intros q Hq ->; exact (uv_zero _ _ _ _ _ _ V Hq)).
  destruct (umap_run k c r own3 l3 s3 V3 (32 + i0) (32 + i1) pd) as (l4 & s4 & A4 & G4 & Q4 & T4);
    [lia|lia|done|auto|rewrite K3, K2, K1 by lia; apply Hz; lset|rewrite R3; lia|].
  destruct (slot_update k c r own3 l3 s3 s4 (32 + i1) _ V3 ltac:(lia) T4) as [U4 K4]. pose proof (gr_free _ _ _ _ _ _ _ _ _ G4) as F4.
  assert (p0 <> p1) as D01 by (intros ->; auto). assert (p0 <> pd) as D0d by (intros ->; auto). assert (p1 <> pd) as D1d by (intros ->; auto).
  assert (G : grown k c r own own3 l l4 s s4) by (eauto using grown_trans).
  exists p0, p1, pd, own3, l4, s1, s2, s3, s4. split_ands; try done.
  - split; [rewrite K4, K3, K2 by lia; done|rewrite K4, K3 by lia; done|rewrite K4 by lia; done|done| | |].
    + rewrite (gr_out _ _ _ _ _ _ _ _ _ G3 p0), (gr_out _ _ _ _ _ _ _ _ _ G2 p0), (gr_out _ _ _ _ _ _ _ _ _ G3 p1); auto 10.
    + repeat (apply NoDup_cons; split; [|]); try apply NoDup_nil_2; rewrite ?elem_of_cons, elem_of_nil; pose proof (Hn0 p0); pose proof (Hn0 p1); pose proof (Hn0 pd); intuition auto.
    + rewrite !Q4 by auto 10. rewrite Q3, Q2, Q3 by auto 10. rewrite R1, R2, R3. repeat case_decide; lia || congruence.
  - intros j. rewrite (gr_mem _ _ _ _ _ _ _ _ _ G4) by auto 10. done.
  - intros q Hq. rewrite !elem_of_cons, elem_of_nil in Hq. destruct Hq as [->|[->|[->|[]]]]; auto 10.
  - intros q Hq. rewrite Q4, Q3, Q2, Q1 by auto 10. rewrite decide_False; [lia|]. intros ->. auto 10.
  - eapply (slots_kept_step k r own own3 _ s s3 s4 (32 + i1)); [|lset| |exact T4]; [apply (gr_own _ _ _ _ _ _ _ _ _ G)|].
    eapply (slots_kept_step k r own own2 _ s s2 s3 (32 + i0)); [|lset| |exact T3].
    { etransitivity; [apply (gr_own _ _ _ _ _ _ _ _ _ G1)|apply (gr_own _ _ _ _ _ _ _ _ _ G2)]. }
    eapply (slots_kept_step k r own own1 _ s s1 s2 i1); [|lset| |exact T2]; [apply (gr_own _ _ _ _ _ _ _ _ _ G1)|].
    eapply (slots_kept_step k r own own _ s s s1 i0); [done|lset|done|exact T1].
Qed.
End Pipe.

(** What the tests of lib/pipe.c see: whether the descriptor's page has as many
    references as the data page. *)
Lemma pipeisclosed_run k c r own l s i p q : user_view k c r own l s -> 0 <= i < 32 ->
  pte_of s r (slot i) = p * PGSIZE + PTE_PIPE -> pte_of s r (slot (32 + i)) = q * PGSIZE + PTE_PIPE ->
  pipeisclosed i s = Ret (if ref_of s p =? ref_of s q then 1 else 0) s.
Proof.
  intros V Hi Hp Hq. unfold pipeisclosed. rewrite (bind_Ret _ _ _ _ _ (fd_lookup_run k c r own l s i V)).
  assert (fd_mapped s r i = true) as M1 by (unfold fd_mapped; rewrite Hp, land_page by done; done).
  assert (fd_mapped s r (32 + i) = true) as M2 by (unfold fd_mapped; rewrite Hq, land_page by done; done).
  rewrite M1. destruct (Z.leb_spec 0 i), (Z.ltb_spec i 32); try lia. cbn [andb]. rewrite (proj2 (fd2num_slot i Hi)).
  unfold _pipeisclosed, uenv_runs. cbn [loop]. rewrite bind_assoc, bind_gets, bind_assoc.
  rewrite (bind_Ret _ _ _ _ _ (upageref_run k c r own l s i V ltac:(lia))), bind_assoc.
  rewrite (bind_Ret _ _ _ _ _ (upageref_run k c r own l s (32 + i) V ltac:(lia))), bind_assoc, bind_gets.
  rewrite Z.eqb_refl, M1, M2, Hp, Hq, !PPN_add by done. done.
Qed.

(** A descriptor of the pipe device. *)
Definition pipe_fd (s : kstate) (p omode : Z) : Prop := word_at s p 0 = 112 /\ word_at s p 8 = omode.

Lemma word_at_ext s s' p o : (forall x, o <= x < o + 4 -> phys_byte s' p x = phys_byte s p x) -> word_at s' p o = word_at s p o.
Proof. intros H. unfold word_at. by rewrite !H by lia. Qed.

Lemma pipe_fd_run k c r own l s i p omode : holds k c r own l s i p -> - 2 ^ 31 <= omode < 2 ^ 31 ->
  exists s1 s', ustore32 (fd_dev_id (slot i)) 112 s = Ret tt s1 /\ ustore32 (fd_omode (slot i)) omode s1 = Ret tt s' /\
    data_step p s s' /\ pipe_fd s' p omode.
Proof.
  intros H Hm. unfold fd_dev_id, fd_omode. assert (PGSIZE = 4096) as HP by done.
  destruct (ustore32_run k c r own l s i p 0 112 H) as (s1 & E1 & D1 & H1 & W1 & _); [lia..|]. rewrite Z.add_0_r in E1.
  destruct (ustore32_run k c r own l s1 i p 8 omode H1) as (s2 & E2 & D2 & H2 & W2 & B2); [lia..|done|].
  exists s1, s2. split; [done|]. split; [done|]. split; [by eapply data_step_trans|]. split; [|done].
  rewrite (word_at_ext s1); [done|]. intros x Hx. apply B2; lia.
Qed.

Lemma pipe_fd_step p s s' q omode : data_step p s s' -> q <> p -> pipe_fd s q omode -> pipe_fd s' q omode.
Proof.
  intros [_ H] Hq [W1 W2]. split; (rewrite (word_at_ext s); [done|]); intros x _; apply phys_byte_entry; intros j; by apply H.
Qed.

Lemma data_step_grown k c r own own' l l' s s1 s2 p : grown k c r own own' l l' s s1 -> p ∈ l -> own' !! p = None -> data_step p s1 s2 ->
  grown k c r own own' l l' s s2.
Proof.
  intros [G1 G2 G3 G4 G5 G6] Hp Ho Hd. destruct (data_step_view k c r own' l' s1 s2 p G1 Ho Hd) as (V2 & _). split; try done.
  - intros q j Hq Hn. rewrite (proj2 Hd) by (intros ->; done). by apply G5.
  - intros x (H1 & (r' & a & b & H2) & H3). rewrite (proj2 Hd) in H3 by congruence. apply G6. split; [done|]. split; [by exists r', a, b|done].
Qed.

Lemma data_step_pages k c r own l s s' p i0 i1 p0 p1 pd : user_view k c r own l s -> own !! p = None -> data_step p s s' -> 0 <= i0 < 32 -> 0 <= i1 < 32 ->
  pipe_pages s r own i0 i1 p0 p1 pd -> pipe_pages s' r own i0 i1 p0 p1 pd.
Proof.
  intros V Ho Hd H0 H1 [P1 P2 P3 P4 P5 P6 P7]. destruct (data_step_view k c r own l s s' p V Ho Hd) as (_ & Hr & Hpte).
  assert (forall j, 0 <= j < 64 -> pte_of s' r (slot j) = pte_of s r (slot j)) as Hs.
  { intros j Hj. apply Hpte; [by eapply uv_own|]. left. apply (sl_pml4 _ (slot_ok j Hj)). }
  split; rewrite ?Hs by lia; rewrite ?Hr; done.
Qed.

(** The whole call. *)
Lemma pipe_run {hw : VmxHw} k c r own l s i0 i1 :
  user_view k c r own l s -> 0 <= i0 < i1 -> i1 < 32 -> fd_mapped s r i0 = false -> fd_mapped s r i1 = false ->
  (forall j, 0 <= j < i1 -> j <> i0 -> fd_mapped s r j = true) ->
  (forall j, j ∈ [i0; i1; 32 + i0; 32 + i1] -> pte_of s r (slot j) = 0) -> (12 <= length l)%nat ->
  exists p0 p1 pd own' l' s', pipe s = Ret (0, Some (i0, i1)) s' /\ grown k c r own own' l l' s s' /\
    pipe_pages s' r own' i0 i1 p0 p1 pd /\ pipe_fd s' p0 O_RDONLY /\ pipe_fd s' p1 O_WRONLY /\ (forall j, entry s' pd j = 0) /\
    (forall q, q ∈ [p0; p1; pd] -> q ∈ l /\ q ∉ l') /\ (forall q, q ∉ l -> ref_of s' q = ref_of s q) /\
    slots_kept k r own [i0; i1; 32 + i0; 32 + i1] s s' /\ pipeisclosed i0 s' = Ret 0 s' /\ pipeisclosed i1 s' = Ret 0 s'.
Proof.
  intros V Hi Hi1 Hf0 Hf1 Hlow Hz Hlen.
  destruct (pipe_alloc k c r own l s V i0 i1 Hi Hi1 Hf0 Hf1 Hlow Hz Hlen)
    as (p0 & p1 & pd & own' & l' & s1 & s2 & s3 & s4 & E0 & A0 & E1 & A1 & A2 & A3 & G & P & Zd & Hpp & Hq & Hk).
  pose proof (gr_view _ _ _ _ _ _ _ _ _ G) as V4. pose proof P as [P1 P2 P3 P4 (O0 & O1 & Od) Hnd (R0 & R1 & Rd)].
  assert (p0 <> p1 /\ p0 <> pd /\ p1 <> pd) as (D01 & D0d & D1d). { rewrite !NoDup_cons, !not_elem_of_cons in Hnd. tauto. }
  destruct (Hpp p0 ltac:(lset)) as [B0 _]. destruct (Hpp p1 ltac:(lset)) as [B1 _].
  destruct (pipe_fd_run k c r own' l' s4 i0 p0 O_RDONLY) as (s5 & s6 & W5 & W6 & S6 & F0); [split; [done|split; [lia|done]]|done|].
  pose proof (data_step_grown _ _ _ _ _ _ _ _ _ _ _ G B0 O0 S6) as G6. pose proof (gr_view _ _ _ _ _ _ _ _ _ G6) as V6.
  pose proof (data_step_pages k c r own' l' s4 s6 p0 i0 i1 p0 p1 pd V4 O0 S6 ltac:(lia) ltac:(lia) P) as P6.
  destruct (pipe_fd_run k c r own' l' s6 i1 p1 O_WRONLY) as (s7 & s8 & W7 & W8 & S8 & F1); [split; [done|split; [lia|split; [done|apply P6]]]|done|].
  pose proof (data_step_grown _ _ _ _ _ _ _ _ _ _ _ G6 B1 O1 S8) as G8. pose proof (gr_view _ _ _ _ _ _ _ _ _ G8) as V8.
  pose proof (data_step_pages k c r own' l' s6 s8 p1 i0 i1 p0 p1 pd V6 O1 S8 ltac:(lia) ltac:(lia) P6) as P8.
  destruct (data_step_view k c r own' l' s4 s6 p0 V4 O0 S6) as (_ & Q6 & T6). destruct (data_step_view k c r own' l' s6 s8 p1 V6 O1 S8) as (_ & Q8 & T8).
  exists p0, p1, pd, own', l', s8. split.
  { destruct (fd2num_slot i0 ltac:(lia)) as [N0 M0]. destruct (fd2num_slot i1 ltac:(lia)) as [N1 M1]. unfold pipe. mrun E0. change (0 <? 0) with false. cbv iota.
    rewrite (bind_Ret _ _ _ _ _ A0). change (0 <? 0) with false. cbv iota. rewrite (bind_Ret _ _ _ _ _ E1). cbv iota beta. change (0 <? 0) with false. cbv iota.
    rewrite (bind_Ret _ _ _ _ _ A1). change (0 <? 0) with false. cbv iota zeta. rewrite M0, M1, N0, N1. mrun A2. change (0 <? 0) with false. cbv iota.
    mrun A3. change (0 <? 0) with false. cbv iota. mrun W5. mrun W6. mrun W7. mrun W8. rewrite !s32_small by lia. done. }
  split_ands; try done.
  - by apply (pipe_fd_step p1 s6).
  - intros j. rewrite (proj2 S8), (proj2 S6) by done. done.
  - intros q Hn. rewrite Q8, Q6. by apply Hq.
  - intros r' va' Hr' Hp' Hn. pose proof (lookup_weaken _ _ _ _ Hr' (gr_own _ _ _ _ _ _ _ _ _ G)) as Hr1. rewrite T8, T6 by done. by apply Hk.
  - rewrite (pipeisclosed_run k c r own' l' s8 i0 p0 pd V8); [|lia|apply P8|apply P8]. by rewrite Q8, Q6, R0, Q8, Q6, Rd.
  - rewrite (pipeisclosed_run k c r own' l' s8 i1 p1 pd V8); [|lia|apply P8|apply P8]. by rewrite Q8, Q6, R1, Q8, Q6, Rd.
Qed.

(** ** Closing one end *)

Lemma uunmap_run {hw : VmxHw} k c r own l s i p : user_view k c r own l s -> 0 <= i < 64 -> pte_of s r (slot i) = p * PGSIZE + PTE_PIPE -> p <> 0 ->
  exists s', usys_page_unmap 0 (slot i) s = Ret 0 s' /\ user_view k c r own (if ref_of s p =? 1 then p :: l else l) s' /\
    (forall q j, own !! q = None -> entry s' q j = entry s q j) /\
    (forall q, ref_of s' q = ref_of s q - if decide (p = q) then 1 else 0) /\
    (forall r' va', own !! r' = Some (r', []) -> priv k r' (PML4 va') ->
       pte_of s' r' va' = if decide (r = r' /\ va_idx (slot i) = va_idx va') then 0 else pte_of s r' va') /\
    (forall q x, user_slot own s' q x -> user_slot own s q x).
Proof.
  intros V Hi Hp Hp0. pose proof V as [I R H0 [t Ht]]. destruct (self_acts k c r own l s V) as [Ha Hm]. pose proof (ru_own _ _ _ _ R) as Hr.
  destruct (slot_ok i Hi) as [F1 F2 _ _ _ F6 _ F8].
  assert (PPN (pte_of s r (slot i)) = p) as EP by (by rewrite Hp, PPN_add).
  assert (pte_of s r (slot i) <> 0) as Hne by (intros E; by rewrite E in EP).
  destruct (sys_page_unmap_run k own l s 0 c r (slot i) I Ha Hm Hr F1 F2 Hne) as (s' & l' & u & Hrun & Hmm & I' & Hu & Hl & He & Hq & Hpte & Hus).
  rewrite EP in Hl. subst l'. exists s'. split; [apply usys_page_unmap_Ret; (done || lia)|]. split; [|split; [|split; [|by split]]].
  - split; [done| | |exists t; apply (owned_descend k own _ s' r t [0; 3] I' Hr); by eapply page_directory].
    + apply (running_mm own own s s' c r R Hmm); [done|]. apply He. intros ->. by rewrite Hr in Hu.
    + destruct (_ =? 1); [|done]. rewrite elem_of_cons. intuition.
  - intros q j Ho. apply He. congruence.
  - intros q. by rewrite Hq, cnt_nz, EP.
Qed.

(** Physical page 0, which is never free, is no table and no page of a user. *)
Definition page0_unmapped (own : owners) (s : kstate) : Prop := own !! 0 = None /\ forall x, ~ user_slot own s 0 x.

(** Its count may be anything. *)
Lemma pt_inv_count0 k own l s s' : pt_inv k own l s -> page0_unmapped own s -> npages s' = npages s -> page_free_list s' = page_free_list s ->
  (forall q, q <> 0 -> page_at s' q = page_at s q) -> link_of s' 0 = link_of s 0 -> 0 <= ref_of s' 0 < 2 ^ 16 ->
  (forall t j, entry s' t j = entry s t j) -> 0 ∉ l -> pt_inv k own l s'.
Proof.
  intros [I1 I2 I3 I4 I5 I6 I7 I8 I9 I10 I11 I12] [Ho Hu] H1 H2 Hpg Hlk Hrf He Hp.
  assert (forall q, q <> 0 -> ref_of s' q = ref_of s q) as Hr by (intros q Hq; unfold ref_of; by rewrite Hpg).
  assert (forall q x, user_slot own s' q x -> user_slot own s q x) as Hus.
  { intros q [t i] (Hi & Ht & Hn0 & HP). cbn in *. rewrite He in Hn0, HP. by split. }
  split; [unfold npages_ok; by rewrite H1| | | | |done|done| | | | |].
  - apply (free_list_ok_ext s); [done|done| |done]. intros q Hq. apply Hpg. congruence.
  - intros q Hq. destruct (Z.eq_dec q 0) as [->|Hne]; [rewrite Hlk; by apply I3|]. unfold link_of. rewrite Hpg by done. by apply I3.
  - intros q. destruct (Z.eq_dec q 0) as [->|Hne]; [done|]. rewrite Hr by done. apply I4.
  - intros t r path Ht. destruct (I5 t r path Ht) as (? & ? & ?). rewrite H1, Hr by congruence. done.
  - intros t r path i. rewrite He. apply I8.
  - intros t r path i Ht. destruct (I9 t r path i Ht) as (? & t' & ?). split; [done|]. exists t'. by rewrite He.
  - intros t r a b i. rewrite He, H1. apply I10.
  - intros q L Hn HL. destruct (Z.eq_dec q 0) as [->|Hne].
    + destruct L as [|x L]; [cbn; lia|]. apply Forall_cons in HL as [Hx _]. by destruct (Hu x); apply Hus.
    + rewrite Hr by done. apply (I11 q L Hn). eapply Forall_impl; [exact HL|]. apply Hus.
  - intros t r path i. rewrite He. apply I12.
Qed.

(** Unmapping a page that is not mapped takes a reference of page 0 away. *)
Lemma uunmap_empty {hw : VmxHw} k c r (own : owners) l s i (u : Z) : user_view k c r own l s -> 0 <= i < 64 -> pte_of s r (slot i) = 0 ->
  own !! u = Some (r, va_path (slot i)) -> page0_unmapped own s -> ref_of s 0 <> 1 ->
  exists s', usys_page_unmap 0 (slot i) s = Ret 0 s' /\ user_view k c r own l s' /\ (forall q j, entry s' q j = entry s q j) /\
    (forall q, ref_of s' q = if decide (q = 0) then u16 (ref_of s 0 - 1) else ref_of s q).
Proof.
  intros V Hi Hz Hu H00 Href. pose proof V as [I R H0 [t Ht]]. destruct (self_acts k c r own l s V) as [Ha Hm]. pose proof (ru_own _ _ _ _ R) as Hr.
  destruct (slot_ok i Hi) as [F1 F2 _ _ _ F6 _ F8]. destruct (user_va (slot i) F1 F2) as [_ Hchk].
  pose proof (owned_descend k own l s r u _ I Hr Hu) as Hd. pose proof (pi_tab _ _ _ _ I _ _ _ Hr) as (Hrr & _ & _).
  assert (entry s u (PTX (slot i)) = 0) as Hez by (by rewrite pte_of_descend, Hd in Hz).
  assert (page_lookup (kva r 0) (slot i) s = Ret (Some (0, kva u (PTX (slot i)))) s) as HL.
  { rewrite (page_lookup_run _ _ _ _ _ _ I Hr (or_introl F8)) by (lia || by rewrite Hz). rewrite Hd. cbn. by rewrite Hez. }
  assert (kva r 0 <> 0) as Hkr by (apply kva_nz; lia).
  set (s1 := set_pages (<[0 := set_pp_ref (u16 (ref_of s 0 - 1)) (page_at s 0)]> (pages s)) s).
  set (s2 := set_entry u (PTX (slot i)) 0 s1).
  exists (flush (kva r 0) (slot i) s2). split.
  { apply usys_page_unmap_Ret; [done|lia|done|]. unfold sys_page_unmap. rewrite (bind_Ret _ _ _ _ _ (envid2env_granted s 0 c Ha)). cbv iota beta.
    change (0 <? 0) with false. rewrite Hchk. cbv iota. rewrite (bind_Ret _ _ s c s) by done. msteps. rewrite Hm.
    unfold page_remove. rewrite bind_assoc. mrun HL. unfold page_decref. msteps. fold (ref_of s 0). rewrite page_at_upd, decide_True by done.
    change (pp_ref (set_pp_ref (u16 (ref_of s 0 - 1)) (page_at s 0))) with (u16 (ref_of s 0 - 1)).
    destruct (Z.eqb_spec (u16 (ref_of s 0 - 1)) 0) as [E|_]; [|msteps].
    { pose proof (pi_ref _ _ _ _ I 0). apply Z.mod_divide in E as [m E]; [|done]. change (2 ^ 16) with 65536 in *. lia. }
    rewrite (bind_Ret _ _ _ _ _ (store64_kva u (PTX (slot i)) 0 _ (PTX_range (slot i)))).
    rewrite (bind_Ret _ _ _ _ _ (tlb_invalidate_run (kva r 0) (slot i) _ Hkr)). done. }
  assert (forall q j, entry (flush (kva r 0) (slot i) s2) q j = entry s q j) as He.
  { intros q j. rewrite flush_entry. unfold s2. rewrite entry_set_entry. case_decide as Hd'; [|done]. destruct Hd' as [<- <-]. by rewrite Hez. }
  assert (forall q, page_at (flush (kva r 0) (slot i) s2) q = if decide (q = 0) then set_pp_ref (u16 (ref_of s 0 - 1)) (page_at s 0) else page_at s q) as Hpg.
  { intros q. rewrite flush_page_at. change (page_at s2 q) with (page_at s1 q). unfold s1. rewrite page_at_upd. repeat case_decide; first [done|congruence]. }
  assert (pt_inv k own l (flush (kva r 0) (slot i) s2)) as I2.
  { apply (pt_inv_count0 k own l s _ I H00); [unfold flush; by destruct (flushes _ _)..| | | |exact He|done].
    - intros q Hq. by rewrite Hpg, decide_False.
    - unfold link_of. by rewrite Hpg, decide_True.
    - assert (ref_of (flush (kva r 0) (slot i) s2) 0 = u16 (ref_of s 0 - 1)) as -> by (unfold ref_of; by rewrite Hpg, decide_True).
      by apply Z.mod_pos_bound. }
  split; [|split; [exact He|]].
  - split; [exact I2| |done|exists t; apply (owned_descend k own l _ r t [0; 3] I2 Hr); by eapply page_directory].
    apply (running_mm own own s _ c r R); [|done|apply He]. eapply mm_only_trans; [|apply flush_mm]. unfold mm_only. by destruct s.
  - intros q. unfold ref_of at 1. rewrite Hpg. by case_decide.
Qed.

Section Close.
Context {hw : VmxHw} (devtab : list Dev) (rd wr : Z -> Z -> Z -> K Z) (st : Z -> Z -> K Z).
Context (Hdev : dev_lookup devtab 112 = (0, Some (devpipe rd wr st))).
Context (k c r : Z) (own : owners) (l : list Z).

Lemma devpipe_close_run s e pe pd : user_view k c r own l s -> 0 <= e < 32 ->
  pte_of s r (slot e) = pe * PGSIZE + PTE_PIPE -> pte_of s r (slot (32 + e)) = pd * PGSIZE + PTE_PIPE ->
  pe <> 0 -> pd <> 0 -> pe <> pd -> ref_of s pe = 1 -> ref_of s pd = 2 ->
  exists s', devpipe_close (slot e) s = Ret 0 s' /\ user_view k c r own (pe :: l) s' /\
    pte_of s' r (slot e) = 0 /\ pte_of s' r (slot (32 + e)) = 0 /\ slots_kept k r own [e; 32 + e] s s' /\
    (forall q j, own !! q = None -> entry s' q j = entry s q j) /\
    (forall q, ref_of s' q = ref_of s q - if decide (q = pe \/ q = pd) then 1 else 0) /\
    (forall q x, user_slot own s' q x -> user_slot own s q x).
Proof.
  intros V He Hpe Hpd N1 N2 N3 R1 R2. unfold devpipe_close. rewrite (proj2 (fd2num_slot e He)).
  destruct (uunmap_run k c r own l s e pe V ltac:(lia) Hpe N1) as (s1 & E1 & V1 & M1 & Q1 & T1 & S1). rewrite R1 in V1. mrun E1.
  destruct (slot_update k c r own l s s1 e 0 V ltac:(lia) T1) as [U1 K1].
  destruct (uunmap_run k c r own (pe :: l) s1 (32 + e) pd V1 ltac:(lia)) as (s2 & E2 & V2 & M2 & Q2 & T2 & S2); [by rewrite K1 by lia|done|].
  destruct (slot_update k c r own _ s1 s2 (32 + e) 0 V1 ltac:(lia) T2) as [U2 K2].
  rewrite Q1, R2, decide_False in V2 by done. exists s2. split; [done|]. split; [done|]. split; [by rewrite K2 by lia|]. split; [done|]. split_ands.
  - apply (slots_kept_step k r own own _ s s1 s2 (32 + e) 0); [done|lset| |done].
    by apply (slots_kept_step k r own own _ s s s1 e 0); [done|lset|done|].
  - intros q j Ho. by rewrite M2, M1.
  - intros q. rewrite Q2, Q1. repeat case_decide; naive_solver lia.
  - auto.
Qed.

Lemma close_run s e pe pd : user_view k c r own l s -> 0 <= e < 32 ->
  pte_of s r (slot e) = pe * PGSIZE + PTE_PIPE -> pte_of s r (slot (32 + e)) = pd * PGSIZE + PTE_PIPE ->
  pe <> 0 -> pd <> 0 -> pe <> pd -> own !! pe = None -> ref_of s pe = 1 -> ref_of s pd = 2 -> page0_unmapped own s -> ref_of s 0 <> 1 -> word_at s pe 0 = 112 ->
  exists s', close devtab e s = Ret 0 s' /\ user_view k c r own (pe :: l) s' /\
    pte_of s' r (slot e) = 0 /\ pte_of s' r (slot (32 + e)) = 0 /\ slots_kept k r own [e; 32 + e] s s' /\
    (forall q j, own !! q = None -> entry s' q j = entry s q j) /\
    (forall q, q <> 0 -> ref_of s' q = ref_of s q - if decide (q = pe \/ q = pd) then 1 else 0) /\
    ref_of s' 0 = u16 (ref_of s 0 - 1) /\ page0_unmapped own s'.
Proof using Hdev.
  intros V He Hpe Hpd N1 N2 N3 O1 R1 R2 H00 R0 W. destruct (fd2num_slot e He) as [F1 F2]. pose proof (slot_ok e ltac:(lia)) as SO.
  assert (fd_lookup e s = Ret (0, Some (slot e)) s) as HL.
  { rewrite (fd_lookup_run k c r own l s e V). assert (fd_mapped s r e = true) as -> by (unfold fd_mapped; rewrite Hpe, land_page by done; done).
    destruct (Z.leb_spec 0 e), (Z.ltb_spec e 32); try lia. done. }
  assert (uload32 (fd_dev_id (slot e)) s = Ret 112 s) as HW.
  { unfold fd_dev_id. rewrite <- (Z.add_0_r (slot e)), (uload32_run k c r own l s e pe 0); [by rewrite W| |lia|done]. split; [done|]. split; [lia|done]. }
  destruct (user_pte_range _ _ _ _ _ _ (uv_inv _ _ _ _ _ _ V) (uv_own _ _ _ _ _ _ V) (sl_pml4 _ SO)) as (_ & _ & _ & u & Hu & _).
  { intros E. apply N1. rewrite E in Hpe. apply (f_equal PPN) in Hpe. by rewrite PPN_add in Hpe. }
  destruct (devpipe_close_run s e pe pd V He Hpe Hpd N1 N2 N3 R1 R2) as (s1 & E1 & V1 & P1 & P2 & K1 & M1 & Q1 & S1).
  assert (ref_of s1 0 = ref_of s 0) as Q0 by (rewrite Q1, decide_False by naive_solver; lia).
  assert (page0_unmapped own s1) as H01 by (split; [apply H00|intros x Hx; by apply (proj2 H00 x), S1]).
  destruct (uunmap_empty k c r own (pe :: l) s1 e u V1 ltac:(lia) P1 Hu H01 ltac:(by rewrite Q0)) as (s2 & E2 & V2 & M2 & Q2).
  assert (forall r' va', own !! r' = Some (r', []) -> priv k r' (PML4 va') -> pte_of s2 r' va' = pte_of s1 r' va') as Hp.
  { intros r' va' Hr' Hp'. apply (same_tables_pte k own (pe :: l)); [apply V1|intros t j _; apply M2|done|done]. }
  assert (forall j, 0 <= j < 64 -> pte_of s2 r (slot j) = pte_of s1 r (slot j)) as Hps.
  { intros j Hj. apply Hp; [apply (uv_own _ _ _ _ _ _ V)|left; apply (sl_pml4 _ (slot_ok j Hj))]. }
  exists s2. split.
  { unfold close. rewrite (bind_Ret _ _ _ _ _ HL). unfold fd_close. rewrite F1, s32_small by lia. mrun HL. change (0 <? 0) with false.
    rewrite bool_decide_true by done. cbn [orb negb]. cbv iota. mrun HW. rewrite Hdev. cbn [devpipe dev_close]. mrun E1. by mrun E2. }
  split; [done|]. split; [by rewrite Hps by lia|]. split; [by rewrite Hps by lia|]. split_ands.
  - intros r' va' Hr' Hp' Hn. rewrite Hp by done. by apply K1.
  - intros q j Ho. by rewrite M2, M1.
  - intros q Hq. by rewrite Q2, decide_False, Q1.
  - by rewrite Q2, decide_True, Q0.
  - split; [apply H00|]. intros x (H1 & H2 & H3). rewrite M2 in H3. by apply (proj2 H01 x).
Qed.
End Close.

Lemma slots_kept_other k c r own l s s' js j : user_view k c r own l s -> slots_kept k r own js s s' -> (forall i, i ∈ js -> 0 <= i < 64) ->
  0 <= j < 64 -> j ∉ js -> pte_of s' r (slot j) = pte_of s r (slot j).
Proof.
  intros V Hk Hjs Hj Hn. apply Hk; [by eapply uv_own|left; apply (sl_pml4 _ (slot_ok j Hj))|]. intros [_ (i & Hi & E)].
  apply slot_idx_inj in E; [|by apply Hjs|done]. by subst.
Qed.

(** C10: [pipe] takes the two lowest free descriptors, the lower one for reading
    and the upper one for writing, when the data slots of both are empty and
    twelve pages are free: each descriptor gets a fresh page that names the pipe
    device, and both map one fresh data page, zero, with two references.  No
    other private slot of any address space changes, no page in use changes its
    contents or its count, and neither end sees the pipe closed.  Closing
    either end then frees its descriptor and its mapping of the data, changes
    no contents, and makes the other end see the pipe closed.  The second
    unmapping of the descriptor takes a reference of physical page 0 away, which
    no user maps, before and after; its count, which may have wrapped around, must
    not be 1, since the page would then be freed. *)
Theorem pipe_close_seen {hw : VmxHw} devtab rd wr st k c r own l s i0 i1 :
  dev_lookup devtab 112 = (0, Some (devpipe rd wr st)) ->
  user_view k c r own l s -> 0 <= i0 < i1 -> i1 < 32 -> fd_mapped s r i0 = false -> fd_mapped s r i1 = false ->
  (forall j, 0 <= j < i1 -> j <> i0 -> fd_mapped s r j = true) ->
  (forall j, j ∈ [i0; i1; 32 + i0; 32 + i1] -> pte_of s r (slot j) = 0) -> (12 <= length l)%nat ->
  page0_unmapped own s -> ref_of s 0 <> 1 ->
  exists p0 p1 pd own' l' s', pipe s = Ret (0, Some (i0, i1)) s' /\ grown k c r own own' l l' s s' /\
    pipe_pages s' r own' i0 i1 p0 p1 pd /\ pipe_fd s' p0 O_RDONLY /\ pipe_fd s' p1 O_WRONLY /\ (forall j, entry s' pd j = 0) /\
    (forall q, q ∈ [p0; p1; pd] -> q ∈ l /\ q ∉ l') /\ (forall q, q ∉ l -> ref_of s' q = ref_of s q) /\
    slots_kept k r own [i0; i1; 32 + i0; 32 + i1] s s' /\ pipeisclosed i0 s' = Ret 0 s' /\ pipeisclosed i1 s' = Ret 0 s' /\
    forall e pe d, (e, pe, d) = (i0, p0, i1) \/ (e, pe, d) = (i1, p1, i0) ->
    exists s'', close devtab e s' = Ret 0 s'' /\ user_view k c r own' (pe :: l') s'' /\
      fd_mapped s'' r e = false /\ fd_mapped s'' r (32 + e) = false /\ slots_kept k r own' [e; 32 + e] s' s'' /\
      (forall q j, own' !! q = None -> entry s'' q j = entry s' q j) /\ pipeisclosed d s'' = Ret 1 s'' /\
      ref_of s'' 0 = u16 (ref_of s 0 - 1) /\ page0_unmapped own' s''.
Proof.
  intros Hdev V Hi Hi1 Hf0 Hf1 Hlow Hz Hlen H00 Hr0.
  destruct (pipe_run k c r own l s i0 i1 V Hi Hi1 Hf0 Hf1 Hlow Hz Hlen)
    as (p0 & p1 & pd & own' & l' & s' & E & G & P & W0 & W1 & Zd & Hpp & Hq & Hk & C0 & C1).
  exists p0, p1, pd, own', l', s'. split_ands; try done. intros e pe d Hcase. pose proof (gr_view _ _ _ _ _ _ _ _ _ G) as V'.
  pose proof P as [P0 P1 D0 D1 (O0 & O1 & Od) Hnd (R0 & R1 & Rd)]. rewrite !NoDup_cons, !not_elem_of_cons in Hnd.
  assert (exists pe', 0 <= e < 32 /\ 0 <= d < 32 /\ e <> d /\ pe' <> pd /\ pe' <> 0 /\ pe' <> pe /\ ref_of s' pe' = 1 /\ ref_of s' pe = 1 /\
    pe <> 0 /\ pd <> 0 /\ pe <> pd /\ own' !! pe = None /\ word_at s' pe 0 = 112 /\
    pte_of s' r (slot e) = pe * PGSIZE + PTE_PIPE /\ pte_of s' r (slot (32 + e)) = pd * PGSIZE + PTE_PIPE /\
    pte_of s' r (slot d) = pe' * PGSIZE + PTE_PIPE /\ pte_of s' r (slot (32 + d)) = pd * PGSIZE + PTE_PIPE)
    as (pe' & He & Hd & Hed & N1 & N2 & N3 & Q1 & Q2 & N4 & N5 & N6 & Oe & We & T1 & T2 & T3 & T4).
  { destruct Hcase as [[= -> -> ->]|[= -> -> ->]]; [exists p1|exists p0]; split_ands; try done; try lia; try (apply W0 || apply W1); intuition congruence. }
  destruct (close_run devtab rd wr st Hdev k c r own' l' s' e pe pd V' He T1 T2 N4 N5 N6 Oe Q2 Rd)
    as (s'' & E' & V2 & U1 & U2 & K2 & M2 & Q & Z0 & Z1); [|rewrite Hq by apply V; done|done|].
  { split; [rewrite (gr_out _ _ _ _ _ _ _ _ _ G) by apply V; apply H00|intros x Hx; apply (proj2 H00 x), (gr_zero _ _ _ _ _ _ _ _ _ G), Hx]. }
  rewrite Hq in Z0 by apply V.
  assert (forall i, i ∈ [e; 32 + e] -> 0 <= i < 64) as Hjs by (intros i Hin; rewrite !elem_of_cons, elem_of_nil in Hin; destruct Hin as [->|[->|[]]]; lia).
  exists s''. split_ands; try done; [unfold fd_mapped; by rewrite U1|unfold fd_mapped; by rewrite U2|].
  rewrite (pipeisclosed_run k c r own' (pe :: l') s'' d pe' pd V2 Hd).
  - rewrite !Q, Q1, Rd by done. by rewrite decide_False, decide_True by naive_solver.
  - rewrite (slots_kept_other k c r own' l' s' s'' [e; 32 + e] d V' K2 Hjs); [done|lia|]. rewrite !not_elem_of_cons. split_ands; [lia|lia|apply not_elem_of_nil].
  - rewrite (slots_kept_other k c r own' l' s' s'' [e; 32 + e] (32 + d) V' K2 Hjs); [done|lia|].
    rewrite !not_elem_of_cons. split_ands; [lia|lia|apply not_elem_of_nil].
Qed.

(** ** A machine *)

(** An environment whose stack is mapped. *)
Definition stack_page : Z := 0xEEBFD000.

Lemma stack_view {hw : VmxHw} k c r own l s : pt_inv k own l s -> running own s c r -> 0 ∉ l -> (16 <= length l)%nat ->
  (forall j, 0 <= j < 64 -> pte_of s r (slot j) = 0) -> pte_of s r stack_page = 0 -> page0_unmapped own s -> ref_of s 0 = 0 ->
  exists own' l' s', usys_page_alloc 0 stack_page 7 s = Ret 0 s' /\ user_view k c r own' l' s' /\
    (12 <= length l')%nat /\ (forall j, 0 <= j < 64 -> pte_of s' r (slot j) = 0) /\ page0_unmapped own' s' /\ ref_of s' 0 = 0.
Proof.
  intros I R H0 Hlen Hs Hz H00 Hr0. assert (0 <= stack_page < 2 ^ 39) as Hb by done. assert (PML4 stack_page = 0) as H4 by done.
  destruct (sys_page_alloc_run k own l s 0 c r stack_page 7 I (may_act_self s c (ru_cur _ _ _ _ R)) (ru_pml4 _ _ _ _ R) (ru_own _ _ _ _ R) H0 Hb) as
    [(p & l0 & s1 & own1 & l1 & El & Hrun & Hin & Hll & Hpl & Hpo & Hpz & Hpr)|(s1 & _ & _ & Hlt & _)]; [done|done| |lia].
  exists own1, l1, s1. pose proof (running_inserted _ _ _ _ _ _ _ _ _ _ _ _ I R Hin) as R1. destruct Hin as [J1 J2 J3 J4 J5 J6 J7 J8 J9 J10].
  assert (p <> 0) as Hp0 by (intros ->; apply H0; rewrite El; lset). assert (0 <= p) as Hp by (apply (inv_free_range _ _ _ _ I p); rewrite El; lset).
  pose proof (J6 r stack_page (ru_own _ _ _ _ R) (or_introl H4)) as Ep. rewrite decide_True in Ep by (split; reflexivity).
  split; [apply usys_page_alloc_Ret; (done || lia)|]. split; [split; [done|done| |]|split; [lia|split; [|split]]].
  - intros Hin. by destruct (J5 0 Hin) as [?|[? _]].
  - destruct (user_pte_range _ _ _ _ _ stack_page J2 (ru_own _ _ _ _ R1) H4) as (_ & _ & _ & u & Hu & _).
    { rewrite Ep. unfold PGSIZE. lia. }
    change (va_path stack_page) with ([0; 3] ++ [373]) in Hu. destruct (pi_parent _ _ _ _ J2 _ _ _ _ Hu) as (_ & t & Ht & _).
    exists t. by apply (owned_descend _ _ _ _ _ _ _ J2 (ru_own _ _ _ _ R1)).
  - intros j Hj. pose proof (slot_ok j Hj) as SO. rewrite J6; [|apply (ru_own _ _ _ _ R)|left; apply SO]. rewrite decide_False; [by apply Hs|].
    intros [_ E]. rewrite !va_idx_path, (sl_path _ SO) in E. discriminate E.
  - split; [rewrite J4 by done; apply H00|]. intros x Hx. destruct (J10 0 x Hx) as [?|E]; [by apply (proj2 H00 x)|by rewrite PPN_add in E].
  - rewrite J7 by done. rewrite Hz, Hr0, cnt_0, cnt_nz, PPN_add, decide_False by (done || (unfold PGSIZE; lia)). done.
Qed.

(** [user_machine] with sixteen more pages. *)
Definition stack_pool : list Z := seqZ 16 16.
Definition stack_machine : kstate := foldr pushed (set_npages 64 (user_machine 7)) stack_pool.

Lemma stack_machine_inv : pt_inv 10 mapped_own (stack_pool ++ user_pool ++ [7]) stack_machine.
Proof.
  apply pushed_list_inv.
  - apply pt_inv_npages; [by apply user_machine_inv|done].
  - apply (bool_decide_unpack _). by vm_compute.
  - apply Forall_forall. apply (bool_decide_unpack _). by vm_compute.
Qed.

(** Its only mapping is of page 11. *)
Lemma stack_machine_page0 : page0_unmapped mapped_own stack_machine.
Proof.
  split; [reflexivity|]. intros [t i] (_ & (r & a & b & Ho) & Hne & HP). cbn [fst snd] in *.
  apply mapped_owned in Ho as [[-> Hx]|[[-> Hx]|[[-> Hx]|[-> Hx]]]]; try by inversion Hx.
  assert (mem stack_machine = user_mem 7) as Hm by reflexivity. unfold entry in Hne, HP. rewrite Hm in Hne, HP.
  change (default ∅ (user_mem 7 !! 6)) with ({[ 0 := 11 * PGSIZE + 7 ]} : gmap Z Z) in Hne, HP.
  destruct (decide (0 = i)) as [<-|H0]; [by vm_compute in HP|by rewrite lookup_singleton_ne in Hne].
Qed.

Lemma stack_machine_view : exists own l s, @usys_page_alloc no_vmx 0 stack_page 7 stack_machine = Ret 0 s /\ user_view 10 0 10 own l s /\
  (12 <= length l)%nat /\ (forall j, 0 <= j < 64 -> pte_of s 10 (slot j) = 0) /\ page0_unmapped own s /\ ref_of s 0 = 0.
Proof.
  apply (@stack_view no_vmx 10 0 10 mapped_own (stack_pool ++ user_pool ++ [7]) stack_machine stack_machine_inv).
  - by split.
  - apply (bool_decide_unpack _). by vm_compute.
  - apply (bool_decide_unpack _). by vm_compute.
  - intros j Hj. rewrite pte_of_descend, (sl_path _ (slot_ok j Hj)). assert (descend stack_machine 10 [0; 3; 128] = None) as -> by (by vm_compute). done.
  - by vm_compute.
  - apply stack_machine_page0.
  - by vm_compute.
Qed.

Lemma pipe_close_seen_witness : exists s s' s'', @usys_page_alloc no_vmx 0 stack_page 7 stack_machine = Ret 0 s /\
  @pipe no_vmx s = Ret (0, Some (0, 1)) s' /\ pipeisclosed 0 s' = Ret 0 s' /\
  @close no_vmx [@devpipe no_vmx (fun _ _ _ => ret 0) (fun _ _ _ => ret 0) (fun _ _ => ret 0)] 1 s' = Ret 0 s'' /\ pipeisclosed 0 s'' = Ret 1 s''.
Proof.
  destruct stack_machine_view as (own & l & s & Hs & V & Hlen & Hz & H00 & H0). set (f := fun _ _ _ : Z => ret (S := kstate) 0). set (g := fun _ _ : Z => ret (S := kstate) 0).
  destruct (@pipe_close_seen no_vmx [@devpipe no_vmx f f g] f f g 10 0 10 own l s 0 1) as (p0 & p1 & pd & own' & l' & s' & E & _ & _ & _ & _ & _ & _ & _ & _ & C & _ & H);
    [done|done|lia|lia|unfold fd_mapped; by rewrite Hz by lia|unfold fd_mapped; by rewrite Hz by lia|intros j; lia| |done|done|by rewrite H0|].
  { intros j Hj. apply Hz. rewrite !elem_of_cons, elem_of_nil in Hj. lia. }
  destruct (H 1 p1 0 ltac:(by right)) as (s'' & E' & _ & _ & _ & _ & _ & C' & _). exists s, s', s''. by split_ands.
Defined.
