(* ===== verification/Dwarf.v ===== *)
(** The reader of debugging information of the kernel: kern/libdwarf_rw.c, with
    [_dwarf_find_section] of kern/elf_rw.c.

    A pointer is an address; the sections are in a memory of bytes that is only
    read.  A variable that is passed by its address is an argument and a part of
    the result.  The loops of the source have no bound of their own: they get
    [fuel] rounds. *)

From S2P Require Import Prelude.

Notation NATTRDEF := 32 (only parsing).
Notation NATTRVAL := 120 (only parsing).

(** kern/dwarf_error.h *)
Notation DW_DLV_NO_ENTRY := (-1) (only parsing).
Notation DW_DLV_OK := 0 (only parsing).
Notation DW_DLV_ERROR := 1 (only parsing).
Notation DW_DLE_NONE := 0 (only parsing).
Notation DW_DLE_NO_ENTRY := 4 (only parsing).
Notation DW_DLE_ATTR_FORM_BAD := 14 (only parsing).

Record Dwarf_AttrDef : Type := mkAttrDef {
  ad_attrib : Z;
  ad_form : Z;
  ad_offset : Z;
}.

(** [ab_attrdef] has the first [ab_atnum] entries of the array. *)
Record Dwarf_Abbrev : Type := mkAbbrev {
  ab_entry : Z;
  ab_tag : Z;
  ab_children : Z;
  ab_offset : Z;
  ab_length : Z;
  ab_attrdef : list Dwarf_AttrDef;
}.
Definition ab_atnum (ab : Dwarf_Abbrev) : Z := Z.of_nat (length (ab_attrdef ab)).

Record Dwarf_CU : Type := mkCU {
  cu_length : Z;
  version : Z;
  addr_size : Z;
  debug_abbrev_offset : Z;
  cu_length_size : Z;
  cu_dwarf_size : Z;
  cu_next_offset : Z;
  cu_die_offset : Z;
  cu_offset : Z;
}.

(** The fields that the reader leaves 0 are left out. *)
Record Dwarf_Attribute : Type := mkAttribute {
  at_attrib : Z;
  at_form : Z;
  at_indirect : Z;
  at_u0 : Z;
  at_u1 : Z;
  bl_len : Z;
  bl_data : Z;
}.

(** [die_attr] has the first [die_attr_count] entries of the array. *)
Record Dwarf_Die : Type := mkDie {
  die_offset : Z;
  die_next_off : Z;
  die_abnum : Z;
  die_tag : Z;
  die_ab : Dwarf_Abbrev;
  die_name : Z;
  die_attr : list Dwarf_Attribute;
}.

Record Dwarf_Section : Type := mkSection {
  ds_name : string;
  ds_data : Z;
  ds_addr : Z;
  ds_size : Z;
}.

Inductive Dwarf_Endianness : Type := DW_OBJECT_MSB | DW_OBJECT_LSB.

(** The functions [read] and [decode] are those of the byte order. *)
Record Dwarf_Debug : Type := mkDebug {
  curr_off_dbginfo : Z;
  dbg_info_offset_elf : Z;
  dbg_info_size : Z;
  dbg_order : Dwarf_Endianness;
  dbg_pointer_size : Z;
  dbg_frame_rule_table_size : Z;
  dbg_frame_rule_initial_value : Z;
  dbg_frame_cfa_value : Z;
  dbg_frame_same_value : Z;
  dbg_frame_undefined_value : Z;
}.

Record dstate : Type := mkDstate {
  dmem : Z -> Z;
  section_info : list Dwarf_Section;
  dbg : Dwarf_Debug;
}.

Definition D (A : Type) : Type := M dstate A.
Definition set_dbg (d : Dwarf_Debug) (s : dstate) : dstate := mkDstate (dmem s) (section_info s) d.
Definition byte_at (a : Z) : D Z := gets (fun s => dmem s (u64 a)).

Definition _dwarf_find_section (name : string) : D (option Dwarf_Section) :=
  gets (fun s => snd <$> list_find (fun d => ds_name d = name) (section_info s)).

(** ** Numbers *)

(** The cases fall through from 8 to 1. *)
Definition lsb_value (b : Z -> Z) (n : Z) : option Z :=
  let r8 := Z.lor (Z.lor (Z.shiftl (b 4) 32) (Z.shiftl (b 5) 40)) (Z.lor (Z.shiftl (b 6) 48) (Z.shiftl (b 7) 56)) in
  let r4 r := Z.lor r (Z.lor (Z.shiftl (b 2) 16) (Z.shiftl (b 3) 24)) in
  let r2 r := Z.lor r (Z.shiftl (b 1) 8) in
  let r1 r := Z.lor r (b 0) in
  match n with
  | 8 => Some (r1 (r2 (r4 r8)))
  | 4 => Some (r1 (r2 (r4 0)))
  | 2 => Some (r1 (r2 0))
  | 1 => Some (r1 0)
  | _ => None
  end.

Definition msb_value (b : Z -> Z) (n : Z) : option Z :=
  match n with
  | 1 => Some (b 0)
  | 2 => Some (Z.lor (b 1) (Z.shiftl (b 0) 8))
  | 4 => Some (Z.lor (Z.lor (b 3) (Z.shiftl (b 2) 8)) (Z.lor (Z.shiftl (b 1) 16) (Z.shiftl (b 0) 24)))
  | 8 => Some (Z.lor (Z.lor (Z.lor (Z.lor (b 7) (Z.shiftl (b 6) 8)) (Z.lor (Z.shiftl (b 5) 16) (Z.shiftl (b 4) 24)))
                            (Z.lor (Z.shiftl (b 3) 32) (Z.shiftl (b 2) 40)))
                     (Z.lor (Z.shiftl (b 1) 48) (Z.shiftl (b 0) 56)))
  | _ => None
  end.

(** The value and the new offset; another size gives 0 and does not advance. *)
Definition read_value (value : (Z -> Z) -> Z -> option Z) (data off n : Z) : D (Z * Z) :=
  let! m := gets dmem in
  match value (fun i => m (u64 (data + off + i))) n with
  | Some v => ret (v, u64 (off + n))
  | None => ret (0, off)
  end.

Definition _dwarf_read_lsb (data off n : Z) : D (Z * Z) := read_value lsb_value data off n.
Definition _dwarf_read_msb (data off n : Z) : D (Z * Z) := read_value msb_value data off n.
Definition _dwarf_decode_lsb (data n : Z) : D (Z * Z) :=
  let! m := gets dmem in
  match lsb_value (fun i => m (u64 (data + i))) n with Some v => ret (v, u64 (data + n)) | None => ret (0, data) end.
Definition _dwarf_decode_msb (data n : Z) : D (Z * Z) :=
  let! m := gets dmem in
  match msb_value (fun i => m (u64 (data + i))) n with Some v => ret (v, u64 (data + n)) | None => ret (0, data) end.

(** [dbg->read]. *)
Definition dbg_read (data off n : Z) : D (Z * Z) :=
  let! d := gets dbg in
  match dbg_order d with
  | DW_OBJECT_MSB => _dwarf_read_msb data off n
  | DW_OBJECT_LSB => _dwarf_read_lsb data off n
  end.

(** A shift of an [int]; the processor takes the amount modulo 32. *)
Definition shl32 (x n : Z) : Z := s32 (Z.shiftl x (n mod 32)).

Section Reader.
Context (fuel : nat).

(** The [do] loop: the bits, the last [shift], the last byte, the bytes read. *)
Definition leb_loop (src : Z) : D (Z * Z * Z * Z) :=
  loop fuel (fun '(r, shift, n) =>
    let! b := byte_at (src + n) in
    let r := Z.lor r (shl32 (Z.land b 0x7f) shift) in
    let shift := shift + 7 in
    let n := n + 1 in
    if nz (Z.land b 0x80) then ret (inl (r, shift, n)) else ret (inr (r, shift, b, n))) (0, 0, 0).

(** [int64_t]. *)
Definition sleb_result (r shift b : Z) : Z :=
  if (shift <? 32) && nz (Z.land b 0x40) then Z.lor r (shl32 (-1) shift) else r.

Definition _dwarf_read_sleb128 (data off : Z) : D (Z * Z) :=
  let! x := leb_loop (data + off) in
  let '(r, shift, b, n) := x in
  ret (sleb_result r shift b, u64 (off + n)).

Definition _dwarf_read_uleb128 (data off : Z) : D (Z * Z) :=
  let! x := leb_loop (data + off) in
  let '(r, _, _, n) := x in
  ret (u64 r, u64 (off + n)).

Definition _dwarf_decode_sleb128 (dp : Z) : D (Z * Z) :=
  let! x := leb_loop dp in
  let '(r, shift, b, n) := x in
  ret (sleb_result r shift b, u64 (dp + n)).

Definition _dwarf_decode_uleb128 (dp : Z) : D (Z * Z) :=
  let! x := leb_loop dp in
  let '(r, _, _, n) := x in
  ret (u64 r, u64 (dp + n)).

(** The address of the string and the offset after it. *)
Definition _dwarf_read_string (data size off : Z) : D (Z * Z) :=
  let! off' := loop fuel (fun o =>
    let! c := byte_at (data + o) in
    if nz c && (o <? size) then ret (inl (u64 (o + 1))) else ret (inr o)) off in
  let! c := byte_at (data + off') in
  ret (u64 (data + off), if (c =? 0) && (off' <? size) then u64 (off' + 1) else off').

Definition _dwarf_read_block (data off length : Z) : Z * Z := (u64 (data + off), u64 (off + length)).

(** ** Headers *)

Definition _dwarf_elf_get_byte_order (obj : Z) : D Dwarf_Endianness :=
  if obj =? 0 then panic "assertion failed: e != NULL"
  else
    let! b := byte_at (obj + 5) in
    ret (if b =? 2 then DW_OBJECT_MSB else DW_OBJECT_LSB).

Definition _dwarf_elf_get_pointer_size (obj : Z) : D Z :=
  if obj =? 0 then panic "assertion failed: e != NULL"
  else
    let! b := byte_at (obj + 4) in
    ret (if b =? 1 then 4 else 8).

Definition _dwarf_init (obj : Z) : D Z :=
  let! sz := _dwarf_elf_get_pointer_size obj in
  let! o := _dwarf_elf_get_byte_order obj in
  do! modify (set_dbg (mkDebug 0 0 0 o sz 66 1035 1436 1035 1034)) ;;
  ret 0.

Definition set_curr_off (v : Z) (d : Dwarf_Debug) : Dwarf_Debug :=
  mkDebug v (dbg_info_offset_elf d) (dbg_info_size d) (dbg_order d) (dbg_pointer_size d) (dbg_frame_rule_table_size d)
    (dbg_frame_rule_initial_value d) (dbg_frame_cfa_value d) (dbg_frame_same_value d) (dbg_frame_undefined_value d).

(** The result and the unit; [None] if the code returns before it sets a field. *)
Definition _get_next_cu : D (Z * option Dwarf_CU) :=
  let! d := gets dbg in
  if dbg_info_size d <? curr_off_dbginfo d then ret (-1, None)
  else
    let data := dbg_info_offset_elf d in
    let off0 := curr_off_dbginfo d in
    let! x := dbg_read data off0 4 in
    let '(len, off) := x in
    let! y := (if u32 len =? 0xffffffff then
                 let! x := dbg_read data off 8 in
                 ret (u32 (fst x), snd x, 8)
               else ret (u32 len, off, 4)) in
    let '(len, off, dwarf_size) := y in
    let next := u64 (off + len) in
    do! modify (fun s => set_dbg (set_curr_off next (dbg s)) s) ;;
    let! v := dbg_read data off 2 in
    let! ab := dbg_read data (snd v) dwarf_size in
    let! sz := dbg_read data (snd ab) 1 in
    let cu := mkCU len (u16 (fst v)) (u8 (fst sz)) (fst ab) (if dwarf_size =? 4 then 4 else 12) dwarf_size next (snd sz) off0 in
    if (version cu <? 2) || (4 <? version cu) then ret (-1, Some cu) else ret (0, Some cu).

(** ** Abbreviations *)

(** The result, the offset and [*abp]. *)
Definition _dwarf_abbrev_parse (off : Z) (abp : Dwarf_Abbrev) (ds : Dwarf_Section) : D (Z * Z * Dwarf_Abbrev) :=
  if ds_size ds <=? off then ret (DW_DLE_NO_ENTRY, off, abp)
  else
    let aboff := off in
    let data := ds_data ds in
    let! x := _dwarf_read_uleb128 data off in
    let '(entry, off) := x in
    if entry =? 0 then ret (DW_DLE_NONE, off, mkAbbrev 0 (ab_tag abp) (ab_children abp) (ab_offset abp) (ab_length abp) (ab_attrdef abp))
    else
      let! x := _dwarf_read_uleb128 data off in
      let '(tag, off) := x in
      let! x := dbg_read data off 1 in
      let '(children, off) := x in
      let! x := loop fuel (fun '(off, defs) =>
        let adoff := off in
        let! x := _dwarf_read_uleb128 data off in
        let '(attr, off) := x in
        let! x := _dwarf_read_uleb128 data off in
        let '(form, off) := x in
        if nz attr then
          if NATTRDEF <=? Z.of_nat (length defs) then panic "write past the end of ab_attrdef"
          else ret (inl (off, defs ++ [mkAttrDef attr form adoff]))
        else ret (inr (off, defs))) (off, []) in
      let '(off, defs) := x in
      ret (DW_DLV_OK, off, mkAbbrev entry tag (u8 children) aboff (u64 (off - aboff)) defs).

Definition _dwarf_abbrev_find (cu : Dwarf_CU) (entry : Z) (abp : Dwarf_Abbrev) : D (Z * Dwarf_Abbrev) :=
  if entry =? 0 then ret (DW_DLE_NO_ENTRY, abp)
  else
    let! ds := _dwarf_find_section ".debug_abbrev" in
    match ds with
    | None => panic "assertion failed: ds != NULL"
    | Some ds =>
        loop fuel (fun '(off, abp) =>
          if off <? ds_size ds then
            let! x := _dwarf_abbrev_parse off abp ds in
            let '(r, off, abp) := x in
            if negb (r =? DW_DLE_NONE) then ret (inr (r, abp))
            else if ab_entry abp =? entry then ret (inr (DW_DLE_NONE, abp))
            else if ab_entry abp =? 0 then ret (inr (DW_DLE_NO_ENTRY, abp))
            else ret (inl (off, abp))
          else ret (inr (DW_DLE_NO_ENTRY, abp))) (debug_abbrev_offset cu, abp)
    end.

(** ** Attributes *)

Definition add_attr (at_ : Dwarf_Attribute) (die : Dwarf_Die) : Dwarf_Die :=
  mkDie (die_offset die) (die_next_off die) (die_abnum die) (die_tag die) (die_ab die) (die_name die) (die_attr die ++ [at_]).
Definition set_die_name (p : Z) (die : Dwarf_Die) : Dwarf_Die :=
  mkDie (die_offset die) (die_next_off die) (die_abnum die) (die_tag die) (die_ab die) p (die_attr die).

(** What a form says: [u[0]], [u[1]] and the new offset; [None] is a bad form.
    [DW_FORM_indirect] is left to [_dwarf_attr_init]. *)
Definition attr_value (cu : Dwarf_CU) (ds : Dwarf_Section) (form off : Z) : D (option (Z * Z * Z)) :=
  let data := ds_data ds in
  let num n := let! x := dbg_read data off n in ret (Some (fst x, 0, snd x)) in
  let block x := let '(p, off') := _dwarf_read_block data (snd x) (fst x) in ret (Some (fst x, p, off')) in
  match form with
  | 0x01 (* addr *) => num (addr_size cu)
  | 0x09 (* block *) | 0x18 (* exprloc *) => let! x := _dwarf_read_uleb128 data off in block x
  | 0x0a (* block1 *) => let! x := dbg_read data off 1 in block x
  | 0x03 (* block2 *) => let! x := dbg_read data off 2 in block x
  | 0x04 (* block4 *) => let! x := dbg_read data off 4 in block x
  | 0x0b (* data1 *) | 0x0c (* flag *) | 0x11 (* ref1 *) => num 1
  | 0x05 (* data2 *) | 0x12 (* ref2 *) => num 2
  | 0x06 (* data4 *) | 0x13 (* ref4 *) => num 4
  | 0x07 (* data8 *) | 0x14 (* ref8 *) => num 8
  | 0x10 (* ref_addr *) =>
      if version cu =? 2 then num (addr_size cu)
      else if version cu =? 3 then num (cu_dwarf_size cu)
      else ret (Some (0, 0, off))
  | 0x15 (* ref_udata *) | 0x0f (* udata *) => let! x := _dwarf_read_uleb128 data off in ret (Some (fst x, 0, snd x))
  | 0x0d (* sdata *) => let! x := _dwarf_read_sleb128 data off in ret (Some (u64 (fst x), 0, snd x))
  | 0x17 (* sec_offset *) => num (cu_dwarf_size cu)
  | 0x08 (* string *) => let! x := _dwarf_read_string data (ds_size ds) off in ret (Some (fst x, 0, snd x))
  | 0x0e (* strp *) =>
      let! x := dbg_read data off (cu_dwarf_size cu) in
      let! str := _dwarf_find_section ".debug_str" in
      match str with
      | None => panic "assertion failed: str != NULL"
      | Some str => ret (Some (fst x, u64 (ds_data str + fst x), snd x))
      end
  | 0x20 (* ref_sig8 *) => block (8, off)
  | 0x19 (* flag_present *) => ret (Some (1, 0, off))
  | _ => ret None
  end.

(** The result, the offset and [*ret_die]. *)
Fixpoint _dwarf_attr_init (depth : nat) (off : Z) (cu : Dwarf_CU) (die : Dwarf_Die) (ad : Dwarf_AttrDef) (form indirect : Z) : D (Z * Z * Dwarf_Die) :=
  let! ds := _dwarf_find_section ".debug_info" in
  match ds with
  | None => panic "null pointer dereference"
  | Some ds =>
      if form =? 0x16 (* indirect *) then
        match depth with
        | O => noret
        | S depth =>
            let! x := _dwarf_read_uleb128 (ds_data ds) off in
            _dwarf_attr_init depth (snd x) cu die ad (fst x) 1
        end
      else
        let! x := attr_value cu ds form off in
        match x with
        | None => ret (DW_DLE_ATTR_FORM_BAD, off, die)
        | Some (u0, u1, off) =>
            let blk := bool_decide (form ∈ [0x09; 0x0a; 0x03; 0x04]) in
            let at_ := mkAttribute (ad_attrib ad) (ad_form ad) indirect u0 u1 (if blk then u0 else 0) (if blk then u1 else 0) in
            let die := if ad_attrib ad =? 0x03 (* DW_AT_name *) then
                         if ad_form ad =? 0x0e then set_die_name u1 die
                         else if ad_form ad =? 0x08 then set_die_name u0 die else die
                       else die in
            if NATTRVAL <=? Z.of_nat (length (die_attr die)) then panic "write past the end of die_attr"
            else ret (DW_DLE_NONE, off, add_attr at_ die)
        end
  end.

(** The attributes of one entry, in order, up to the first error. *)
Fixpoint read_attrs (off : Z) (cu : Dwarf_CU) (die : Dwarf_Die) (defs : list Dwarf_AttrDef) : D (Z * Z * Dwarf_Die) :=
  match defs with
  | [] => ret (DW_DLE_NONE, off, die)
  | ad :: defs =>
      let! x := _dwarf_attr_init fuel off cu die ad (ad_form ad) 0 in
      let '(r, off, die) := x in
      if negb (r =? DW_DLE_NONE) then ret (r, off, die) else read_attrs off cu die defs
  end.

(** ** Entries *)

(** One round of the loop; [ab] is the local variable of this name. *)
Definition search_round (cu : Dwarf_CU) (search_sibling : bool) (x : Z * Z * Dwarf_Abbrev * Dwarf_Die) :
    D (Z * Z * Dwarf_Abbrev * Dwarf_Die + Z * Dwarf_Die) :=
  let '(off, level, ab, die) := x in
  let! d := gets dbg in
  if (off <? cu_next_offset cu) && (off <? dbg_info_size d) then
    let die_off := off in
    let! x := _dwarf_read_uleb128 (dbg_info_offset_elf d) off in
    let '(abnum, off) := x in
    if abnum =? 0 then
      if (level =? 0) || negb search_sibling then ret (inr (DW_DLE_NO_ENTRY, die))
      else ret (inl (off, level - 1, ab, die))
    else
      let! x := _dwarf_abbrev_find cu abnum ab in
      let '(r, ab) := x in
      if negb (r =? DW_DLE_NONE) then ret (inr (r, die))
      else
        let! x := read_attrs off cu (mkDie die_off (die_next_off die) abnum (ab_tag ab) ab (die_name die) []) (ab_attrdef ab) in
        let '(r, off, die) := x in
        if negb (r =? DW_DLE_NONE) then ret (inr (r, die))
        else
          let die := mkDie (die_offset die) off (die_abnum die) (die_tag die) (die_ab die) (die_name die) (die_attr die) in
          if search_sibling && (0 <? level) then
            ret (inl (off, if ab_children ab =? 1 then level + 1 else level, ab, die))
          else ret (inr (DW_DLE_NONE, die))
  else ret (inr (DW_DLE_NO_ENTRY, die)).

(** [ab0] is what [ab] holds at first. *)
Definition dwarf_search_die_within_cu (ab0 : Dwarf_Abbrev) (cu : Dwarf_CU) (off : Z) (die : Dwarf_Die) (search_sibling : bool) : D (Z * Dwarf_Die) :=
  loop fuel (search_round cu search_sibling) (off, 1, ab0, die).

Definition dwarf_offdie (ab0 : Dwarf_Abbrev) (off : Z) (die : Dwarf_Die) (cu : Dwarf_CU) : D (Z * Dwarf_Die) :=
  if off <? cu_next_offset cu then dwarf_search_die_within_cu ab0 cu off die false else ret (DW_DLV_OK, die).

Definition _dwarf_attr_find (die : Dwarf_Die) (attr : Z) : option Dwarf_Attribute :=
  snd <$> list_find (fun a => at_attrib a = attr) (die_attr die).

(** [DW_DLE_NO_ENTRY] and the other errors as the callers see them. *)
Definition dlv_result (x : Z * Dwarf_Die) : Z * Dwarf_Die :=
  let '(r, die) := x in
  if r =? DW_DLE_NO_ENTRY then (DW_DLV_NO_ENTRY, die)
  else if negb (r =? DW_DLE_NONE) then (DW_DLV_ERROR, die)
  else (DW_DLV_OK, die).

(** Without [die], the first entry of the unit. *)
Definition dwarf_siblingof (ab0 : Dwarf_Abbrev) (die : option Dwarf_Die) (ret_die : Dwarf_Die) (cu : Dwarf_CU) : D (Z * Dwarf_Die) :=
  match die with
  | None => dwarf_offdie ab0 (cu_die_offset cu) ret_die cu
  | Some die =>
      let '(off, search_sibling) :=
        if ab_children (die_ab die) =? 0 then (die_next_off die, false)
        else match _dwarf_attr_find die 0x01 (* DW_AT_sibling *) with
             | Some a => (if negb (at_form a =? 0x10) then u64 (at_u0 a + cu_offset cu) else at_u0 a, false)
             | None => (die_next_off die, true)
             end in
      let! x := dwarf_search_die_within_cu ab0 cu off ret_die search_sibling in
      ret (dlv_result x)
  end.

Definition dwarf_child (ab0 : Dwarf_Abbrev) (cu : Dwarf_CU) (die ret_die : Dwarf_Die) : D (Z * Dwarf_Die) :=
  if ab_children (die_ab die) =? 0 then ret (DW_DLE_NO_ENTRY, ret_die)
  else
    let! x := dwarf_search_die_within_cu ab0 cu (die_next_off die) ret_die false in
    ret (dlv_result x).

(** [*ds]. *)
Definition _dwarf_find_section_enhanced (ds : Dwarf_Section) : D Dwarf_Section :=
  let! x := _dwarf_find_section (ds_name ds) in
  match x with
  | None => panic "null pointer dereference"
  | Some h => ret (mkSection (ds_name ds) (ds_data h) (ds_addr h) (ds_size h))
  end.
End Reader.
