(* ===== verification/DwarfProps.v ===== *)
(** What the reader of debugging information makes of well-formed sections:
    numbers, the table of abbreviations and the tree of entries read back as they
    were encoded. *)

From S2P Require Import Prelude Dwarf.

(** ** Encodings *)

(** [n] bytes, the low one first. *)
Fixpoint le_bytes (n : nat) (v : Z) : list Z :=
  match n with O => [] | S n => v mod 256 :: le_bytes n (v / 256) end.

Definition enc_num (o : Dwarf_Endianness) (n : nat) (v : Z) : list Z :=
  match o with DW_OBJECT_LSB => le_bytes n v | DW_OBJECT_MSB => rev (le_bytes n v) end.

(** LEB128: seven bits a byte, the low ones first; the high bit says that more follow. *)
Fixpoint uleb_n (n : nat) (v : Z) : list Z :=
  match n with O => [v mod 128] | S n => if v <? 128 then [v mod 128] else v mod 128 + 128 :: uleb_n n (v / 128) end.
Fixpoint sleb_n (n : nat) (v : Z) : list Z :=
  match n with O => [v mod 128] | S n => if (-64 <=? v) && (v <? 64) then [v mod 128] else v mod 128 + 128 :: sleb_n n (v / 128) end.

Definition uleb (v : Z) : list Z := uleb_n 4 v.
Definition sleb (v : Z) : list Z := sleb_n 3 v.
Definition small (v : Z) : Prop := 0 <= v < 2 ^ 31.

(** A list of bytes of this form, and its bits. *)
Fixpoint leb_list (l : list Z) : Prop :=
  match l with [] => False | [b] => 0 <= b < 128 | b :: l => 128 <= b < 256 /\ leb_list l end.
Fixpoint leb_value (l : list Z) : Z :=
  match l with [] => 0 | b :: l => b mod 128 + 128 * leb_value l end.

Lemma leb_list_cons b l : 128 <= b < 256 -> leb_list l -> leb_list (b :: l).
Proof. intros Hb Hl. by destruct l. Qed.

Lemma uleb_n_ok n v : 0 <= v < 128 ^ Z.of_nat (S n) ->
  leb_list (uleb_n n v) /\ leb_value (uleb_n n v) = v /\ (length (uleb_n n v) <= S n)%nat.
Proof.
  revert v. induction n as [|n IH]; intros v Hv; cbn [uleb_n].
  - change (128 ^ Z.of_nat 1) with 128 in Hv. cbn. rewrite !Z.mod_small by (rewrite ?Z.mod_small; lia). lia.
  - destruct (Z.ltb_spec v 128); [cbn; rewrite !Z.mod_small by (rewrite ?Z.mod_small; lia); lia|].
    rewrite Nat2Z.inj_succ, Z.pow_succ_r in Hv by lia. destruct (IH (v / 128)) as (H1 & H2 & H3).
    { split; [apply Z.div_pos; lia|apply Z.div_lt_upper_bound; lia]. }
    pose proof (Z.mod_pos_bound v 128 ltac:(lia)). split; [apply leb_list_cons; [lia|done]|]. cbn [leb_value length]. rewrite H2. split; [|lia].
    rewrite <- (Z.mul_1_l 128) at 2. rewrite Z.mod_add, Z.mod_mod by lia. pose proof (Z.div_mod v 128). lia.
Qed.

(** The bits of a signed number, and the sign bit of the last byte. *)
Lemma sleb_n_ok n v : - 64 * 128 ^ Z.of_nat n <= v < 64 * 128 ^ Z.of_nat n ->
  leb_list (sleb_n n v) /\ (length (sleb_n n v) <= S n)%nat /\ leb_value (sleb_n n v) = v mod 128 ^ Z.of_nat (length (sleb_n n v)) /\
  exists b, last (sleb_n n v) = Some b /\ 0 <= b < 128 /\ (64 <= b <-> v < 0) /\
  - 128 ^ Z.of_nat (length (sleb_n n v)) <= v < 128 ^ Z.of_nat (length (sleb_n n v)).
Proof.
  revert v. induction n as [|n IH]; intros v Hv; cbn [sleb_n].
  - change (128 ^ Z.of_nat 0) with 1 in Hv. cbn [length leb_list leb_value last]. change (128 ^ Z.of_nat 1) with 128.
    pose proof (Z.mod_pos_bound v 128 ltac:(lia)). rewrite Z.mod_mod by lia. split; [lia|]. split; [lia|]. split; [lia|].
    exists (v mod 128). split; [done|]. Z.to_euclidean_division_equations; lia.
  - destruct (Z.leb_spec (-64) v), (Z.ltb_spec v 64); cbn [andb].
    1: { cbn [length leb_list leb_value last]. change (128 ^ Z.of_nat 1) with 128.
      pose proof (Z.mod_pos_bound v 128 ltac:(lia)). rewrite Z.mod_mod by lia. split; [lia|]. split; [lia|]. split; [lia|].
      exists (v mod 128). split; [done|]. Z.to_euclidean_division_equations; lia. }
    all: rewrite Nat2Z.inj_succ, Z.pow_succ_r in Hv by lia; destruct (IH (v / 128)) as (H1 & H2 & H3 & b & H4 & H5 & H6 & H7);
      [split; [apply Z.div_le_lower_bound|apply Z.div_lt_upper_bound]; lia|];
      pose proof (Z.mod_pos_bound v 128 ltac:(lia)); split; [apply leb_list_cons; [lia|done]|]; cbn [leb_value length];
      split; [lia|]; rewrite Nat2Z.inj_succ, Z.pow_succ_r by lia; set (p := 128 ^ Z.of_nat (length (sleb_n n (v / 128)))) in *.
    all: assert (0 < p) as Hp by (apply Z.pow_pos_nonneg; lia); split;
      [rewrite H3; replace ((v mod 128 + 128) mod 128) with (v mod 128) by (Z.to_euclidean_division_equations; lia); rewrite Z.rem_mul_r by lia; lia|];
      exists b; split; [by destruct (sleb_n n (v / 128))|]; split; [done|]; rewrite H6; pose proof (Z.div_mod v 128 ltac:(lia)); lia.
Qed.

(** ** Memory *)

Notation len l := (Z.of_nat (length l)).

(** The bytes [l] at offset [off] of [data]; offsets stay far from the end of the range. *)
Definition here (s : dstate) (data off : Z) (l : list Z) : Prop :=
  0 <= off /\ off + len l < 2 ^ 63 /\ forall i b, l !! i = Some b -> dmem s (u64 (data + off + Z.of_nat i)) = b.

Lemma here_app s data off l1 l2 : here s data off (l1 ++ l2) <-> here s data off l1 /\ here s data (off + len l1) l2.
Proof.
  unfold here. rewrite length_app. split.
  - intros (H1 & H2 & H3). split; [split; [done|split; [lia|]]|split; [lia|split; [lia|]]].
    + intros i b Hi. apply H3. by apply lookup_app_l_Some.
    + intros i b Hi. replace (data + (off + len l1) + Z.of_nat i) with (data + off + Z.of_nat (length l1 + i)) by lia. apply H3.
      rewrite lookup_app_r by lia. by replace (length l1 + i - length l1)%nat with i by lia.
  - intros [(H1 & H2 & H3) (H4 & H5 & H6)]. split; [done|]. split; [lia|]. intros i b Hi.
    apply lookup_app_Some in Hi as [Hi|[Hi1 Hi2]]; [by apply H3|]. specialize (H6 _ _ Hi2).
    by replace (data + (off + len l1) + Z.of_nat (i - length l1)) with (data + off + Z.of_nat i) in H6 by lia.
Qed.

Lemma here_cons s data off b l : here s data off (b :: l) <-> here s data off [b] /\ here s data (off + 1) l.
Proof. apply (here_app s data off [b] l). Qed.

Lemma here_byte s data off b l : here s data off (b :: l) -> byte_at (data + off) s = Ret b s.
Proof. intros (_ & _ & H). specialize (H 0%nat b eq_refl). unfold byte_at, gets. by rewrite Z.add_0_r in H; rewrite H. Qed.

Lemma here_u64 s data off l : here s data off l -> u64 (off + len l) = off + len l.
Proof. intros (H1 & H2 & _). apply u64_small. lia. Qed.

Lemma here_range s data off l : here s data off l -> 0 <= off /\ off + len l < 2 ^ 63.
Proof. by intros (H1 & H2 & _). Qed.

(** ** Numbers *)

Lemma lor_shift a x n : 0 <= n -> 0 <= a < 2 ^ n -> Z.lor a (Z.shiftl x n) = a + x * 2 ^ n.
Proof. intros Hn Ha. rewrite Z.shiftl_mul_pow2, Z.lor_comm, lor_disjoint by done. lia. Qed.

Lemma lor_low b0 b1 b2 b3 r : 0 <= b0 < 256 -> 0 <= b1 < 256 -> 0 <= b2 < 256 -> 0 <= b3 < 256 ->
  Z.lor (Z.lor (Z.lor r (Z.lor (Z.shiftl b2 16) (Z.shiftl b3 24))) (Z.shiftl b1 8)) b0 = Z.lor (b0 + 256 * (b1 + 256 * (b2 + 256 * b3))) r.
Proof.
  intros. transitivity (Z.lor (Z.lor (Z.lor (Z.lor b0 (Z.shiftl b1 8)) (Z.shiftl b2 16)) (Z.shiftl b3 24)) r).
  - apply Z.bits_inj'. intros i _. rewrite !Z.lor_spec.
    by destruct (Z.testbit r i), (Z.testbit b0 i), (Z.testbit (Z.shiftl b1 8) i), (Z.testbit (Z.shiftl b2 16) i), (Z.testbit (Z.shiftl b3 24) i).
  - f_equal. rewrite (lor_shift b0), (lor_shift _ b2), (lor_shift _ b3); lia.
Qed.

(** Bytes to a number, the low one first. *)
Fixpoint le_value (l : list Z) : Z := match l with [] => 0 | b :: l => b + 256 * le_value l end.

Lemma le_value_bytes n v : 0 <= v < 256 ^ Z.of_nat n -> le_value (le_bytes n v) = v.
Proof.
  revert v. induction n as [|n IH]; intros v Hv; cbn [le_bytes le_value]; [change (256 ^ Z.of_nat 0) with 1 in Hv; lia|].
  rewrite Nat2Z.inj_succ, Z.pow_succ_r in Hv by lia. rewrite IH; [pose proof (Z.div_mod v 256); lia|].
  split; [apply Z.div_pos; lia|apply Z.div_lt_upper_bound; lia].
Qed.

Lemma le_bytes_ok n v : length (le_bytes n v) = n /\ Forall (fun b => 0 <= b < 256) (le_bytes n v).
Proof.
  revert v. induction n as [|n IH]; intros v; cbn [le_bytes]; [done|]. destruct (IH (v / 256)) as [H1 H2]. split; [cbn; by rewrite H1|].
  constructor; [apply Z.mod_pos_bound; lia|done].
Qed.

(** The sizes of the numbers. *)
Definition num_size (n : nat) : Prop := n = 1%nat \/ n = 2%nat \/ n = 4%nat \/ n = 8%nat.

Ltac list_of_length :=
  repeat match goal with
  | H : length ?l = S _ |- _ => destruct l; [done|]; cbn [length] in H; apply eq_add_S in H
  | H : length ?l = 0%nat |- _ => apply nil_length_inv in H; subst l
  | H : Forall _ (_ :: _) |- _ => apply Forall_cons in H as [? H]
  end.

(** The single bytes of a list. *)
Ltac byte_facts b Hm :=
  pose proof (Hm 0%nat _ eq_refl) as B0; change (b (Z.of_nat 0)) with (b 0) in B0;
  try (let B := fresh "B" in pose proof (Hm 1%nat _ eq_refl) as B; change (b (Z.of_nat 1)) with (b 1) in B);
  try (let B := fresh "B" in pose proof (Hm 2%nat _ eq_refl) as B; change (b (Z.of_nat 2)) with (b 2) in B);
  try (let B := fresh "B" in pose proof (Hm 3%nat _ eq_refl) as B; change (b (Z.of_nat 3)) with (b 3) in B);
  try (let B := fresh "B" in pose proof (Hm 4%nat _ eq_refl) as B; change (b (Z.of_nat 4)) with (b 4) in B);
  try (let B := fresh "B" in pose proof (Hm 5%nat _ eq_refl) as B; change (b (Z.of_nat 5)) with (b 5) in B);
  try (let B := fresh "B" in pose proof (Hm 6%nat _ eq_refl) as B; change (b (Z.of_nat 6)) with (b 6) in B);
  try (let B := fresh "B" in pose proof (Hm 7%nat _ eq_refl) as B; change (b (Z.of_nat 7)) with (b 7) in B).

Lemma lsb_value_list b n l : num_size n -> length l = n -> Forall (fun b => 0 <= b < 256) l ->
  (forall i x, l !! i = Some x -> b (Z.of_nat i) = x) -> lsb_value b (Z.of_nat n) = Some (le_value l).
Proof.
  intros [ -> | [ -> | [ -> | -> ] ] ] Hl Hb Hm; list_of_length.
  all: byte_facts b Hm.
  - unfold lsb_value. change (Z.of_nat 1) with 1. cbn [le_value]. cbv zeta. rewrite B0, Z.lor_0_l. f_equal. lia.
  - unfold lsb_value. change (Z.of_nat 2) with 2. cbn [le_value]. cbv zeta. rewrite B0, B, Z.lor_0_l, Z.lor_comm, lor_shift by lia. f_equal. lia.
  - unfold lsb_value. change (Z.of_nat 4) with 4. cbn [le_value]. cbv zeta. rewrite B0, B, B1, B2, lor_low, Z.lor_0_r by done. f_equal. lia.
  - change (lsb_value b (Z.of_nat 8)) with (lsb_value b 8). unfold lsb_value. cbv zeta. cbn [le_value].
    rewrite B0, B, B1, B2, B3, B4, B5, B6, lor_low by done. f_equal. rewrite !Z.lor_assoc.
    rewrite (lor_shift _ z3), (lor_shift _ z4), (lor_shift _ z5), (lor_shift _ z6); lia.
Qed.

Lemma msb_value_list b n l : num_size n -> length l = n -> Forall (fun b => 0 <= b < 256) l ->
  (forall i x, l !! i = Some x -> b (Z.of_nat i) = x) -> msb_value b (Z.of_nat n) = Some (le_value (rev l)).
Proof.
  intros [ -> | [ -> | [ -> | -> ] ] ] Hl Hb Hm; list_of_length.
  all: byte_facts b Hm.
  - change (msb_value b (Z.of_nat 1)) with (Some (b 0)). rewrite B0. f_equal. cbn [rev app le_value]. lia.
  - unfold msb_value. change (Z.of_nat 2) with 2. cbn [rev app le_value]. rewrite B0, B, lor_shift by lia. f_equal. lia.
  - unfold msb_value. change (Z.of_nat 4) with 4. cbn [rev app le_value]. rewrite B0, B, B1, B2. f_equal. rewrite !Z.lor_assoc.
    rewrite (lor_shift z2), (lor_shift _ z0), (lor_shift _ z); lia.
  - unfold msb_value. change (Z.of_nat 8) with 8. cbn [rev app le_value]. rewrite B0, B, B1, B2, B3, B4, B5, B6. f_equal. rewrite !Z.lor_assoc.
    rewrite (lor_shift z6), (lor_shift _ z4), (lor_shift _ z3), (lor_shift _ z2), (lor_shift _ z1), (lor_shift _ z0), (lor_shift _ z); lia.
Qed.

Lemma dbg_read_run s data off n v rest : num_size n -> 0 <= v < 256 ^ Z.of_nat n -> here s data off (enc_num (dbg_order (dbg s)) n v ++ rest) ->
  dbg_read data off (Z.of_nat n) s = Ret (v, off + Z.of_nat n) s.
Proof.
  intros Hn Hv [H _]%here_app. destruct (le_bytes_ok n v) as [Hl Hb]. pose proof (here_u64 _ _ _ _ H) as Hu. destruct H as (H1 & H2 & H3).
  unfold dbg_read, _dwarf_read_msb, _dwarf_read_lsb, read_value. rewrite bind_gets. unfold enc_num in *.
  destruct (dbg_order (dbg s)); rewrite bind_gets; rewrite ?length_rev, Hl in Hu.
  - rewrite (msb_value_list _ n (rev (le_bytes n v))); [|done|by rewrite length_rev|by apply Forall_rev|done].
    rewrite rev_involutive, le_value_bytes, Hu by done. done.
  - rewrite (lsb_value_list _ n (le_bytes n v)) by done. rewrite le_value_bytes, Hu by done. done.
Qed.

(** ** LEB128 *)

(** Equality of results, component by component. *)
Ltac tuple_eq := repeat match goal with |- Ret _ _ = Ret _ _ => f_equal | |- (_, _) = (_, _) => f_equal end.

Section Leb.
Context (fuel : nat) (s : dstate).

Lemma leb_loop_gen data off l rest : forall f n r shift, leb_list l -> here s data (off + n) (l ++ rest) -> (length l <= f)%nat ->
  0 <= shift -> shift + 7 * (len l - 1) < 32 -> 0 <= r < 2 ^ shift -> leb_value l * 2 ^ shift < 2 ^ 31 ->
  loop f (fun '(r, shift, n) =>
    let! b := byte_at (data + off + n) in
    let r := Z.lor r (shl32 (Z.land b 0x7f) shift) in
    let shift := shift + 7 in
    let n := n + 1 in
    if nz (Z.land b 0x80) then ret (inl (r, shift, n)) else ret (inr (r, shift, b, n))) (r, shift, n) s =
  Ret (r + leb_value l * 2 ^ shift, shift + 7 * len l, default 0 (last l), n + len l) s.
Proof.
  induction l as [|b l IH]; intros f n r shift Hl Hh Hf Hs Hs2 Hr Hv; [done|]. destruct f as [|f]; [cbn in Hf; lia|].
  cbn [loop]. cbn [length] in *. rewrite Nat2Z.inj_succ in *. cbn [leb_value] in Hv.
  rewrite <- Z.add_assoc, bind_assoc. cbn [app] in Hh. rewrite (bind_Ret _ _ _ _ _ (here_byte s data (off + n) b _ Hh)).
  apply here_cons in Hh as [_ Hh]. rewrite <- Z.add_assoc in Hh.
  assert (0 <= b < 256) as Hb by (destruct l; cbn in Hl; lia). assert (0 <= leb_value l) as Hlv.
  { clear -l. induction l as [|x l IH]; cbn [leb_value]; [lia|]. pose proof (Z.mod_pos_bound x 128). lia. }
  change 0x7f with (2 ^ 7 - 1). rewrite land_mask by lia. change (2 ^ 7) with 128. pose proof (Z.mod_pos_bound b 128 ltac:(lia)) as Hm.
  assert (0 < 2 ^ shift) as Hp by (apply Z.pow_pos_nonneg; lia).
  assert (shl32 (b mod 128) shift = b mod 128 * 2 ^ shift) as ->.
  { unfold shl32. rewrite (Z.mod_small shift) by lia. rewrite Z.shiftl_mul_pow2 by lia. apply s32_small. nia. }
  rewrite Z.lor_comm, lor_disjoint by lia.
  assert (nz (Z.land b 0x80) = (128 <=? b)) as ->.
  { revert Hb. clear. intros Hb. assert (forall b, b ∈ seqZ 0 256 -> nz (Z.land b 0x80) = (128 <=? b)) as H; [|apply H, elem_of_seqZ; lia].
    apply Forall_forall. apply (bool_decide_unpack _). by vm_compute. }
  destruct l as [|b' l].
  - cbn in Hl. destruct (Z.leb_spec 128 b); [lia|]. cbv zeta. rewrite bind_ret. unfold ret. cbn [leb_value last default length].
    rewrite (Z.mod_small b) by lia. unfold id. tuple_eq; lia.
  - destruct Hl as [Hb1 Hl]. destruct (Z.leb_spec 128 b); [|lia]. cbv zeta. rewrite bind_ret. cbn [last] in IH |- *.
    assert (2 ^ (shift + 7) = 128 * 2 ^ shift) as Hp7 by (rewrite Z.pow_add_r by lia; lia).
    rewrite IH; [rewrite Hp7; cbn [leb_value] in *; tuple_eq; [nia|lia|lia]|done|done|lia|lia|lia|rewrite Hp7; nia|rewrite Hp7; nia].
Qed.

Lemma leb_loop_run data off l rest : leb_list l -> here s data off (l ++ rest) -> (length l <= fuel)%nat -> (length l <= 5)%nat -> leb_value l < 2 ^ 31 ->
  leb_loop fuel (data + off) s = Ret (leb_value l, 7 * len l, default 0 (last l), len l) s.
Proof.
  intros Hl Hh Hf H5 Hv. etransitivity; [apply (leb_loop_gen data off l rest fuel 0 0 0 Hl)|]; [by rewrite Z.add_0_r|lia..|change (2 ^ 0) with 1; lia|].
  change (2 ^ 0) with 1. rewrite Z.mul_1_r. done.
Qed.

Lemma uleb_ok v : small v -> leb_list (uleb v) /\ leb_value (uleb v) = v /\ (length (uleb v) <= 5)%nat.
Proof. intros Hv. apply uleb_n_ok. unfold small in Hv. change (128 ^ Z.of_nat 5) with (2 ^ 35). lia. Qed.

Lemma read_uleb128_run data off v rest : (5 <= fuel)%nat -> small v -> here s data off (uleb v ++ rest) ->
  _dwarf_read_uleb128 fuel data off s = Ret (v, off + len (uleb v)) s.
Proof.
  intros Hf Hv Hh. destruct (uleb_ok v Hv) as (H1 & H2 & H3). unfold _dwarf_read_uleb128.
  rewrite (bind_Ret _ _ _ _ _ (leb_loop_run data off (uleb v) rest H1 Hh ltac:(lia) H3 ltac:(unfold small in Hv; lia))).
  apply here_app in Hh as [Hh _]. rewrite H2, (here_u64 _ _ _ _ Hh), u64_small by (unfold small in Hv; lia). done.
Qed.

Lemma read_sleb128_run data off v rest : (5 <= fuel)%nat -> - 2 ^ 27 <= v < 2 ^ 27 -> here s data off (sleb v ++ rest) ->
  _dwarf_read_sleb128 fuel data off s = Ret (v, off + len (sleb v)) s.
Proof.
  intros Hf Hv Hh. destruct (sleb_n_ok 3 v) as (H1 & H2 & H3 & b & H4 & H5 & H6 & H7); [change (128 ^ Z.of_nat 3) with (2 ^ 21); lia|].
  fold (sleb v) in *. assert (128 ^ len (sleb v) = 2 ^ (7 * len (sleb v))) as HP by (rewrite Z.pow_mul_r by lia; done). rewrite HP in *.
  assert (2 ^ (7 * len (sleb v)) <= 2 ^ 28) as Hle by (apply Z.pow_le_mono_r; lia). set (p := 2 ^ (7 * len (sleb v))) in *.
  assert (0 < p) as Hp by (apply Z.pow_pos_nonneg; lia). pose proof (Z.mod_pos_bound v p Hp).
  unfold _dwarf_read_sleb128. rewrite (bind_Ret _ _ _ _ _ (leb_loop_run data off (sleb v) rest H1 Hh ltac:(lia) ltac:(lia) ltac:(lia))).
  apply here_app in Hh as [Hh _]. rewrite H4, (here_u64 _ _ _ _ Hh), H3. cbn [default]. unfold ret, id. tuple_eq. unfold sleb_result.
  destruct (Z.ltb_spec (7 * len (sleb v)) 32); [|lia]. cbn [andb].
  assert (nz (Z.land b 0x40) = (64 <=? b)) as ->.
  { revert H5. clear. intros Hb. assert (forall b, b ∈ seqZ 0 128 -> nz (Z.land b 0x40) = (64 <=? b)) as H; [|apply H, elem_of_seqZ; lia].
    apply Forall_forall. apply (bool_decide_unpack _). by vm_compute. }
  destruct (Z.leb_spec 64 b).
  - unfold shl32. rewrite (Z.mod_small (7 * _)) by lia. rewrite Z.shiftl_mul_pow2 by lia. fold p. rewrite s32_small by lia.
    rewrite Z.lor_comm. unfold p. rewrite lor_disjoint; [|lia|done]. fold p.
    assert (v mod p = v + p) as -> by (symmetry; apply (Z.mod_unique v p (-1)); lia). lia.
  - apply Z.mod_small. lia.
Qed.
End Leb.

(** ** The table of abbreviations *)

Record abbrev : Type := mkAbb {
  a_code : Z;
  a_tag : Z;
  a_children : bool;
  a_attrs : list (Z * Z);  (* attributes and their forms *)
}.

Definition children_byte (b : bool) : Z := if b then 1 else 0.

Record abbrev_ok (a : abbrev) : Prop := {
  ao_code : 0 < a_code a < 2 ^ 31;
  ao_tag : small (a_tag a);
  ao_attrs : Forall (fun x => 0 < fst x < 2 ^ 31 /\ small (snd x)) (a_attrs a);
  ao_num : (length (a_attrs a) <= 32)%nat;
}.

Definition enc_attrdef (x : Z * Z) : list Z := uleb (fst x) ++ uleb (snd x).
Definition enc_attrdefs (l : list (Z * Z)) : list Z := concat (enc_attrdef <$> l) ++ [0; 0].
Definition enc_abbrev (a : abbrev) : list Z :=
  uleb (a_code a) ++ uleb (a_tag a) ++ [children_byte (a_children a)] ++ enc_attrdefs (a_attrs a).
Definition enc_table (t : list abbrev) : list Z := concat (enc_abbrev <$> t) ++ [0].

(** What is read. *)
Fixpoint attrdefs_at (off : Z) (l : list (Z * Z)) : list Dwarf_AttrDef :=
  match l with [] => [] | x :: l => mkAttrDef (fst x) (snd x) off :: attrdefs_at (off + len (enc_attrdef x)) l end.

Definition abbrev_at (off : Z) (a : abbrev) : Dwarf_Abbrev :=
  mkAbbrev (a_code a) (a_tag a) (children_byte (a_children a)) off (len (enc_abbrev a))
    (attrdefs_at (off + len (uleb (a_code a)) + len (uleb (a_tag a)) + 1) (a_attrs a)).

(** The first abbreviation with a code, and its offset. *)
Fixpoint find_abbrev (off : Z) (t : list abbrev) (e : Z) : option (Z * abbrev) :=
  match t with [] => None | a :: t => if a_code a =? e then Some (off, a) else find_abbrev (off + len (enc_abbrev a)) t e end.

Lemma length_attrdefs_at off l : length (attrdefs_at off l) = length l.
Proof. revert off. induction l as [|x l IH]; intros off; cbn; [done|]. by rewrite IH. Qed.

Section Table.
Context (fuel : nat) (s : dstate) (Hfuel : (64 <= fuel)%nat).

Lemma uleb_0 : uleb 0 = [0].
Proof. done. Qed.

Lemma attrdefs_run data rest l : forall f off defs, Forall (fun x => 0 < fst x < 2 ^ 31 /\ small (snd x)) l -> (length defs + length l <= 32)%nat ->
  (length l < f)%nat -> here s data off (enc_attrdefs l ++ rest) ->
  loop f (fun '(off, defs) =>
    let adoff := off in
    let! x := _dwarf_read_uleb128 fuel data off in
    let '(attr, off) := x in
    let! x := _dwarf_read_uleb128 fuel data off in
    let '(form, off) := x in
    if nz attr then
      if NATTRDEF <=? Z.of_nat (length defs) then panic "write past the end of ab_attrdef"
      else ret (inl (off, defs ++ [mkAttrDef attr form adoff]))
    else ret (inr (off, defs))) (off, defs) s =
  Ret (off + len (enc_attrdefs l), defs ++ attrdefs_at off l) s.
Proof using Hfuel.
  induction l as [|[a fo] l IH]; intros f off defs Hl Hn Hf Hh; (destruct f as [|f]; [lia|]); cbn [loop].
  - change (enc_attrdefs [] ++ rest) with (uleb 0 ++ (uleb 0 ++ rest)) in Hh. rewrite bind_assoc.
    rewrite (bind_Ret _ _ _ _ _ (read_uleb128_run fuel s data off 0 _ ltac:(lia) ltac:(done) Hh)), bind_assoc. apply here_app in Hh as [_ Hh].
    rewrite (bind_Ret _ _ _ _ _ (read_uleb128_run fuel s data _ 0 _ ltac:(lia) ltac:(done) Hh)). cbn [attrdefs_at]. rewrite app_nil_r.
    change (nz 0) with false. cbv iota. rewrite bind_ret. unfold ret. rewrite uleb_0. change (len (enc_attrdefs [])) with 2. tuple_eq. cbn [length]. lia.
  - apply Forall_cons in Hl as [[Ha Hfo] Hl]. cbn [fst snd] in Ha, Hfo. cbn [length] in *.
    assert (enc_attrdefs ((a, fo) :: l) ++ rest = uleb a ++ (uleb fo ++ (enc_attrdefs l ++ rest))) as E.
    { unfold enc_attrdefs, enc_attrdef. rewrite fmap_cons. cbn [concat fst snd]. by rewrite <- !app_assoc. }
    assert (len (enc_attrdefs ((a, fo) :: l)) = len (enc_attrdef (a, fo)) + len (enc_attrdefs l)) as EL.
    { unfold enc_attrdefs. rewrite fmap_cons. cbn [concat]. rewrite <- app_assoc, length_app. lia. }
    rewrite E in Hh. rewrite bind_assoc.
    rewrite (bind_Ret _ _ _ _ _ (read_uleb128_run fuel s data off a _ ltac:(lia) ltac:(unfold small; lia) Hh)), bind_assoc. apply here_app in Hh as [_ Hh].
    rewrite (bind_Ret _ _ _ _ _ (read_uleb128_run fuel s data _ fo _ ltac:(lia) Hfo Hh)). apply here_app in Hh as [_ Hh].
    rewrite (proj2 (nz_true a)) by lia. cbv iota. destruct (Z.leb_spec NATTRDEF (len defs)); [lia|]. rewrite bind_ret.
    assert (off + len (uleb a) + len (uleb fo) = off + len (enc_attrdef (a, fo))) as EO by (unfold enc_attrdef; rewrite length_app; cbn [fst snd]; lia).
    rewrite EO in Hh |- *. rewrite IH; [|done|rewrite length_app; cbn; lia|lia|done]. cbn [attrdefs_at fst snd]. rewrite <- app_assoc. cbn [app].
    tuple_eq. lia.
Qed.

Lemma abbrev_parse_run off a ds abp rest : abbrev_ok a -> here s (ds_data ds) off (enc_abbrev a ++ rest) -> off < ds_size ds ->
  _dwarf_abbrev_parse fuel off abp ds s = Ret (DW_DLV_OK, off + len (enc_abbrev a), abbrev_at off a) s.
Proof using Hfuel.
  intros [A1 A2 A3 A4] Hh Hsz. unfold _dwarf_abbrev_parse. destruct (Z.leb_spec (ds_size ds) off); [lia|].
  pose proof (here_range _ _ _ _ Hh) as Hr. rewrite length_app in Hr.
  unfold enc_abbrev in Hh. rewrite <- !app_assoc in Hh.
  rewrite (bind_Ret _ _ _ _ _ (read_uleb128_run fuel s (ds_data ds) off (a_code a) _ ltac:(lia) ltac:(unfold small; lia) Hh)). apply here_app in Hh as [_ Hh].
  destruct (Z.eqb_spec (a_code a) 0); [lia|].
  rewrite (bind_Ret _ _ _ _ _ (read_uleb128_run fuel s _ _ _ _ ltac:(lia) A2 Hh)). apply here_app in Hh as [_ Hh].
  set (off2 := off + len (uleb (a_code a)) + len (uleb (a_tag a))) in *.
  assert (dbg_read (ds_data ds) off2 1 s = Ret (children_byte (a_children a), off2 + 1) s) as HC.
  { apply (dbg_read_run s _ off2 1 _ (enc_attrdefs (a_attrs a) ++ rest)); [by left|destruct (a_children a); done|].
    by destruct (a_children a), (dbg_order (dbg s)). }
  rewrite (bind_Ret _ _ _ _ _ HC). apply here_app in Hh as [_ Hh]. change (len [children_byte (a_children a)]) with 1 in Hh.
  rewrite (bind_Ret _ _ _ _ _ (attrdefs_run (ds_data ds) rest (a_attrs a) fuel (off2 + 1) [] A3 ltac:(cbn; lia) ltac:(lia) Hh)).
  assert (off2 + 1 + len (enc_attrdefs (a_attrs a)) = off + len (enc_abbrev a)) as ->.
  { unfold enc_abbrev, off2. rewrite !length_app. change (length [_]) with 1%nat. lia. }
  unfold ret, abbrev_at. fold off2. cbn [app]. rewrite (u64_small (_ - _)) by lia. repeat f_equal; [by destruct (a_children a)|lia].
Qed.

Lemma abbrev_parse_end off ds abp rest : here s (ds_data ds) off (0 :: rest) -> off < ds_size ds ->
  _dwarf_abbrev_parse fuel off abp ds s = Ret (DW_DLE_NONE, off + 1, mkAbbrev 0 (ab_tag abp) (ab_children abp) (ab_offset abp) (ab_length abp) (ab_attrdef abp)) s.
Proof using Hfuel.
  intros Hh Hsz. unfold _dwarf_abbrev_parse. destruct (Z.leb_spec (ds_size ds) off); [lia|]. change (0 :: rest) with (uleb 0 ++ rest) in Hh.
  by rewrite (bind_Ret _ _ _ _ _ (read_uleb128_run fuel s _ off 0 _ ltac:(lia) ltac:(done) Hh)).
Qed.

Lemma abbrev_find_loop ds e t rest : forall f off abp, e <> 0 -> Forall abbrev_ok t -> (length t < f)%nat ->
  here s (ds_data ds) off (enc_table t ++ rest) -> off + len (enc_table t) <= ds_size ds ->
  exists x, loop f (fun '(off, abp) =>
      if off <? ds_size ds then
        let! x := _dwarf_abbrev_parse fuel off abp ds in
        let '(r, off, abp) := x in
        if negb (r =? DW_DLE_NONE) then ret (inr (r, abp))
        else if ab_entry abp =? e then ret (inr (DW_DLE_NONE, abp))
        else if ab_entry abp =? 0 then ret (inr (DW_DLE_NO_ENTRY, abp))
        else ret (inl (off, abp))
      else ret (inr (DW_DLE_NO_ENTRY, abp))) (off, abp) s = Ret x s /\
    match find_abbrev off t e with Some (o, a) => x = (DW_DLE_NONE, abbrev_at o a) | None => fst x = DW_DLE_NO_ENTRY end.
Proof using Hfuel.
  induction t as [|a t IH]; intros f off abp He Ht Hf Hh Hsz; (destruct f as [|f]; [cbn in Hf; lia|]); cbn [loop find_abbrev].
  - change (enc_table []) with [0] in *. cbn [app length] in *. destruct (Z.ltb_spec off (ds_size ds)); [|lia]. rewrite bind_assoc.
    rewrite (bind_Ret _ _ _ _ _ (abbrev_parse_end off ds abp rest Hh ltac:(lia))). cbn [ab_entry]. change (DW_DLE_NONE =? DW_DLE_NONE) with true. cbn [negb].
    destruct (Z.eqb_spec 0 e); [done|]. by eexists.
  - apply Forall_cons in Ht as [Ha Ht]. cbn [length] in Hf.
    assert (enc_table (a :: t) = enc_abbrev a ++ enc_table t) as E by (unfold enc_table; rewrite fmap_cons; cbn [concat]; by rewrite <- app_assoc).
    rewrite E in Hsz, Hh. rewrite length_app in Hsz. rewrite <- app_assoc in Hh.
    assert (0 < len (enc_table t)) as Hpos by (unfold enc_table; rewrite length_app; cbn [length]; lia).
    destruct (Z.ltb_spec off (ds_size ds)); [|lia]. rewrite bind_assoc.
    rewrite (bind_Ret _ _ _ _ _ (abbrev_parse_run off a ds abp _ Ha Hh ltac:(lia))). change (DW_DLV_OK =? DW_DLE_NONE) with true. cbn [negb abbrev_at ab_entry].
    destruct (Z.eqb_spec (a_code a) e); [by eexists|]. destruct (Z.eqb_spec (a_code a) 0); [pose proof (ao_code _ Ha); lia|]. rewrite bind_ret.
    apply here_app in Hh as [_ Hh]. apply IH; [done|done|lia|done|lia].
Qed.

(** On a section that holds the encoding of a table, [_dwarf_abbrev_find] returns
    the first abbreviation with the code asked for: its tag, its children flag,
    its attributes and forms, and the offsets of all of them. *)
Lemma dwarf_abbrev_find_table cu ds t e abp rest :
  list_find (fun d => ds_name d = ".debug_abbrev"%string) (section_info s) = Some ds ->
  here s (ds_data (snd ds)) (debug_abbrev_offset cu) (enc_table t ++ rest) ->
  debug_abbrev_offset cu + len (enc_table t) <= ds_size (snd ds) -> Forall abbrev_ok t -> (length t < fuel)%nat -> e <> 0 ->
  exists x, _dwarf_abbrev_find fuel cu e abp s = Ret x s /\
    match find_abbrev (debug_abbrev_offset cu) t e with
    | Some (off, a) => x = (DW_DLE_NONE, abbrev_at off a)
    | None => fst x = DW_DLE_NO_ENTRY
    end.
Proof using Hfuel.
  intros Hds Hh Hsz Ht Hf He. destruct (abbrev_find_loop (snd ds) e t rest fuel (debug_abbrev_offset cu) abp He Ht Hf Hh Hsz) as (x & Hx & Hc).
  exists x. split; [|done]. unfold _dwarf_abbrev_find, _dwarf_find_section. destruct (Z.eqb_spec e 0); [done|]. rewrite bind_gets, Hds. exact Hx.
Qed.
End Table.

(** ** Entries *)

(** A unit of [.debug_info]: the sections and the abbreviations. *)
Record unit_ok (fuel : nat) (s : dstate) (cu : Dwarf_CU) (info str : Dwarf_Section) (t : list abbrev) : Prop := {
  uo_fuel : (64 <= fuel)%nat /\ (length t < fuel)%nat;
  uo_info : exists i, list_find (fun d => ds_name d = ".debug_info"%string) (section_info s) = Some (i, info);
  uo_str : exists i, list_find (fun d => ds_name d = ".debug_str"%string) (section_info s) = Some (i, str);
  uo_data : dbg_info_offset_elf (dbg s) = ds_data info /\ dbg_info_size (dbg s) = ds_size info /\ cu_next_offset cu <= ds_size info;
  uo_abbrev : exists i ds rest, list_find (fun d => ds_name d = ".debug_abbrev"%string) (section_info s) = Some (i, ds) /\
    here s (ds_data ds) (debug_abbrev_offset cu) (enc_table t ++ rest) /\ debug_abbrev_offset cu + len (enc_table t) <= ds_size ds;
  uo_table : Forall abbrev_ok t;
}.

(** The forms that are a number of a fixed size. *)
Definition form_size (cu : Dwarf_CU) (form : Z) : option Z :=
  match form with
  | 0x01 => Some (addr_size cu)
  | 0x0b | 0x0c | 0x11 => Some 1
  | 0x05 | 0x12 => Some 2
  | 0x06 | 0x13 => Some 4
  | 0x07 | 0x14 => Some 8
  | 0x10 => if version cu =? 2 then Some (addr_size cu) else if version cu =? 3 then Some (cu_dwarf_size cu) else None
  | 0x17 => Some (cu_dwarf_size cu)
  | _ => None
  end.

(** The encoding of a value at offset [off], and what is stored in [u]. *)
Inductive value_enc (fuel : nat) (s : dstate) (cu : Dwarf_CU) (info str : Dwarf_Section) (off : Z) : Z -> list Z -> Z -> Z -> Prop :=
| ve_num form n v : form_size cu form = Some (Z.of_nat n) -> num_size n -> 0 <= v < 256 ^ Z.of_nat n ->
    value_enc fuel s cu info str off form (enc_num (dbg_order (dbg s)) n v) v 0
| ve_block form n l : (form, n) ∈ [(0x0a, 1%nat); (0x03, 2%nat); (0x04, 4%nat)] -> len l < 256 ^ Z.of_nat n ->
    value_enc fuel s cu info str off form (enc_num (dbg_order (dbg s)) n (len l) ++ l) (len l) (u64 (ds_data info + (off + Z.of_nat n)))
| ve_uleb_block form l : form ∈ [0x09; 0x18] -> small (len l) ->
    value_enc fuel s cu info str off form (uleb (len l) ++ l) (len l) (u64 (ds_data info + (off + len (uleb (len l)))))
| ve_udata form v : form ∈ [0x15; 0x0f] -> small v -> value_enc fuel s cu info str off form (uleb v) v 0
| ve_sdata v : - 2 ^ 27 <= v < 2 ^ 27 -> value_enc fuel s cu info str off 0x0d (sleb v) (u64 v) 0
| ve_string l : Forall (fun b => b <> 0) l -> off + len l < ds_size info -> (length l < fuel)%nat ->
    value_enc fuel s cu info str off 0x08 (l ++ [0]) (u64 (ds_data info + off)) 0
| ve_strp n v : cu_dwarf_size cu = Z.of_nat n -> num_size n -> 0 <= v < 256 ^ Z.of_nat n ->
    value_enc fuel s cu info str off 0x0e (enc_num (dbg_order (dbg s)) n v) v (u64 (ds_data str + v))
| ve_sig8 l : length l = 8%nat -> value_enc fuel s cu info str off 0x20 l 8 (u64 (ds_data info + off))
| ve_present : value_enc fuel s cu info str off 0x19 [] 1 0.

Section Entry.
Context (fuel : nat) (s : dstate) (cu : Dwarf_CU) (info str : Dwarf_Section) (t : list abbrev).
Context (U : unit_ok fuel s cu info str t).

Lemma length_enc_num o n v : length (enc_num o n v) = n.
Proof. unfold enc_num. destruct o; rewrite ?length_rev; apply le_bytes_ok. Qed.

Lemma read_string_loop l rest : forall f off, Forall (fun b => b <> 0) l -> off + len l < ds_size info -> (length l < f)%nat ->
  here s (ds_data info) off (l ++ 0 :: rest) ->
  loop f (fun o => let! c := byte_at (ds_data info + o) in if nz c && (o <? ds_size info) then ret (inl (u64 (o + 1))) else ret (inr o)) off s =
  Ret (off + len l) s.
Proof.
  induction l as [|b l IH]; intros f off Hl Hsz Hf Hh; (destruct f as [|f]; [cbn in Hf; lia|]); cbn [loop app] in *; rewrite bind_assoc, (bind_Ret _ _ _ _ _ (here_byte _ _ _ _ _ Hh)).
  - change (nz 0) with false. cbn [andb]. rewrite bind_ret. unfold ret. tuple_eq. cbn. lia.
  - apply Forall_cons in Hl as [Hb Hl]. cbn [length] in *. rewrite (proj2 (nz_true b)) by done. destruct (Z.ltb_spec off (ds_size info)); [|lia]. cbn [andb].
    rewrite bind_ret. apply here_cons in Hh as [H1 Hh]. pose proof (here_u64 _ _ _ _ H1) as Hu. change (len [b]) with 1 in Hu. rewrite Hu.
    rewrite IH; [tuple_eq; lia|done|lia|lia|done].
Qed.

Lemma read_string_run off l rest : Forall (fun b => b <> 0) l -> off + len l < ds_size info -> (length l < fuel)%nat -> here s (ds_data info) off (l ++ 0 :: rest) ->
  _dwarf_read_string fuel (ds_data info) (ds_size info) off s = Ret (u64 (ds_data info + off), off + len l + 1) s.
Proof.
  intros Hl Hsz Hf Hh. unfold _dwarf_read_string. rewrite (bind_Ret _ _ _ _ _ (read_string_loop l rest fuel off Hl Hsz Hf Hh)).
  apply here_app in Hh as [_ Hh]. rewrite (bind_Ret _ _ _ _ _ (here_byte _ _ _ _ _ Hh)). destruct (Z.ltb_spec (off + len l) (ds_size info)); [|lia].
  cbn [andb Z.eqb]. apply here_cons in Hh as [Hh _]. pose proof (here_u64 _ _ _ _ Hh) as Hu. change (len [0]) with 1 in Hu. by rewrite Hu.
Qed.

Lemma attr_value_num form off k : form_size cu form = Some k ->
  attr_value fuel cu info form off s = bind (dbg_read (ds_data info) off k) (fun x => ret (Some (fst x, 0, snd x))) s.
Proof.
  intros H. destruct form as [|[[[[p|p|]|[p|p|]|]|[[p|p|]|[p|p|]|]|]|[[[p|p|]|[p|p|]|]|[[p|p|]|[p|p|]|]|]|]|p]; try discriminate H; try (destruct p; try discriminate H).
  all: unfold attr_value; cbn [form_size] in H; repeat destruct (version cu =? _); try discriminate H; by injection H as <-.
Qed.

Lemma attr_value_run off form bs u0 u1 rest : value_enc fuel s cu info str off form bs u0 u1 -> here s (ds_data info) off (bs ++ rest) ->
  attr_value fuel cu info form off s = Ret (Some (u0, u1, off + len bs)) s /\ form <> 0x16.
Proof using U.
  intros HV Hh. destruct (uo_fuel _ _ _ _ _ _ U) as [Hf _]. destruct HV as [form n v H Hn Hv|form n l H Hl|form l H Hl|form v H Hv|v Hv|l H Hsz Hl|n v H Hn Hv|l H|].
  - rewrite length_enc_num, (attr_value_num _ _ _ H), (bind_Ret _ _ _ _ _ (dbg_read_run s _ off n v rest Hn Hv Hh)). split; [done|]. by intros ->.
  - rewrite length_app, length_enc_num. rewrite <- app_assoc in Hh.
    assert (num_size n) as Hn by (rewrite !elem_of_cons, elem_of_nil in H; destruct H as [[= -> ->]|[[= -> ->]|[[= -> ->]|[]]]]; unfold num_size; tauto).
    pose proof (dbg_read_run s _ off n (len l) _ Hn ltac:(lia) Hh) as HR. apply here_app in Hh as [_ Hh]. rewrite length_enc_num in Hh.
    apply here_app in Hh as [Hh _]. pose proof (here_u64 _ _ _ _ Hh) as Hu. rewrite !elem_of_cons, elem_of_nil in H.
    destruct H as [[= -> ->]|[[= -> ->]|[[= -> ->]|[]]]]; (split; [|done]); unfold attr_value; rewrite (bind_Ret _ _ _ _ _ HR); cbn [fst snd _dwarf_read_block];
      unfold ret; rewrite Hu; tuple_eq; f_equal; tuple_eq; lia.
  - rewrite length_app. rewrite <- app_assoc in Hh. pose proof (read_uleb128_run fuel s _ off _ _ ltac:(lia) Hl Hh) as HR.
    apply here_app in Hh as [_ Hh]. apply here_app in Hh as [Hh _]. pose proof (here_u64 _ _ _ _ Hh) as Hu. rewrite !elem_of_cons, elem_of_nil in H.
    destruct H as [->|[->|[]]]; (split; [|done]); unfold attr_value; rewrite (bind_Ret _ _ _ _ _ HR); cbn [fst snd _dwarf_read_block];
      unfold ret; rewrite Hu; tuple_eq; f_equal; tuple_eq; lia.
  - pose proof (read_uleb128_run fuel s _ off _ _ ltac:(lia) Hv Hh) as HR. rewrite !elem_of_cons, elem_of_nil in H.
    destruct H as [->|[->|[]]]; (split; [|done]); unfold attr_value; by rewrite (bind_Ret _ _ _ _ _ HR).
  - split; [|done]. unfold attr_value. by rewrite (bind_Ret _ _ _ _ _ (read_sleb128_run fuel s _ off _ _ ltac:(lia) Hv Hh)).
  - rewrite <- app_assoc in Hh. split; [|done]. unfold attr_value. rewrite (bind_Ret _ _ _ _ _ (read_string_run off l rest H Hsz Hl Hh)), length_app.
    cbn [fst snd length]. unfold ret. tuple_eq. f_equal. tuple_eq. lia.
  - rewrite length_enc_num. split; [|done]. unfold attr_value. rewrite H, (bind_Ret _ _ _ _ _ (dbg_read_run s _ off n v rest Hn Hv Hh)).
    destruct (uo_str _ _ _ _ _ _ U) as [i Hs]. unfold _dwarf_find_section. by rewrite bind_gets, Hs.
  - split; [|done]. apply here_app in Hh as [Hh _]. pose proof (here_u64 _ _ _ _ Hh) as Hu. rewrite H in Hu |- *. unfold attr_value. cbn [fst snd _dwarf_read_block].
    unfold ret. change (Z.of_nat 8) with 8 in *. by rewrite Hu.
  - split; [|done]. unfold attr_value, ret. by rewrite Z.add_0_r.
Qed.

(** All attributes of an entry, and the attributes read. *)
Definition block_form (form : Z) : bool := bool_decide (form ∈ [0x09; 0x0a; 0x03; 0x04]).
Definition attribute (a form u0 u1 : Z) : Dwarf_Attribute :=
  mkAttribute a form 0 u0 u1 (if block_form form then u0 else 0) (if block_form form then u1 else 0).

Inductive attrs_enc : Z -> list (Z * Z) -> list Z -> list Dwarf_Attribute -> Prop :=
| as_nil off : attrs_enc off [] [] []
| as_cons off a form b u0 u1 l bs ats : value_enc fuel s cu info str off form b u0 u1 -> attrs_enc (off + len b) l bs ats ->
    attrs_enc off ((a, form) :: l) (b ++ bs) (attribute a form u0 u1 :: ats).

(** The name of an entry: that of its last name attribute. *)
Fixpoint name_after (old : Z) (ats : list Dwarf_Attribute) : Z :=
  match ats with
  | [] => old
  | a :: ats => name_after (if at_attrib a =? 0x03 then if at_form a =? 0x0e then at_u1 a else if at_form a =? 0x08 then at_u0 a else old else old) ats
  end.

Lemma attr_init_run off die a form o b u0 u1 rest : value_enc fuel s cu info str off form b u0 u1 -> here s (ds_data info) off (b ++ rest) ->
  (length (die_attr die) < 120)%nat ->
  _dwarf_attr_init fuel fuel off cu die (mkAttrDef a form o) form 0 s =
  Ret (DW_DLE_NONE, off + len b, mkDie (die_offset die) (die_next_off die) (die_abnum die) (die_tag die) (die_ab die)
    (name_after (die_name die) [attribute a form u0 u1]) (die_attr die ++ [attribute a form u0 u1])) s.
Proof using U.
  intros HV Hh Hn. destruct (attr_value_run off form b u0 u1 rest HV Hh) as [HR Hf]. destruct (uo_info _ _ _ _ _ _ U) as [i Hi].
  assert (forall depth, _dwarf_attr_init fuel depth off cu die (mkAttrDef a form o) form 0 s =
    bind (attr_value fuel cu info form off) (fun x => match x with None => ret (DW_DLE_ATTR_FORM_BAD, off, die) | Some (u0, u1, off) =>
      let die := if a =? 0x03 then if form =? 0x0e then set_die_name u1 die else if form =? 0x08 then set_die_name u0 die else die else die in
      if NATTRVAL <=? len (die_attr die) then panic "write past the end of die_attr" else ret (DW_DLE_NONE, off, add_attr (attribute a form u0 u1) die) end) s) as ->.
  { intros depth. destruct depth; cbn [_dwarf_attr_init]; unfold _dwarf_find_section; rewrite bind_gets, Hi; cbn [snd fmap option_fmap option_map];
      destruct (Z.eqb_spec form 0x16); done. }
  rewrite (bind_Ret _ _ _ _ _ HR). cbv zeta. cbn [name_after attribute at_attrib at_form at_u0 at_u1]. unfold ret.
  destruct (a =? 3), (form =? 14), (form =? 8); cbn [die_attr set_die_name]; (destruct (Z.leb_spec 120 (len (die_attr die))); [lia|]); done.
Qed.

Lemma read_attrs_run rest off l bs ats : attrs_enc off l bs ats -> forall o die, here s (ds_data info) off (bs ++ rest) ->
  (length (die_attr die) + length l <= 120)%nat ->
  read_attrs fuel off cu die (attrdefs_at o l) s =
  Ret (DW_DLE_NONE, off + len bs, mkDie (die_offset die) (die_next_off die) (die_abnum die) (die_tag die) (die_ab die)
    (name_after (die_name die) ats) (die_attr die ++ ats)) s.
Proof using U.
  induction 1 as [off|off a form b u0 u1 l bs ats HV HA IH]; intros o die Hh Hn; cbn [attrdefs_at read_attrs name_after].
  - rewrite app_nil_r, Z.add_0_r. by destruct die.
  - rewrite <- app_assoc in Hh. cbn [length fst snd ad_form] in *. rewrite (bind_Ret _ _ _ _ _ (attr_init_run off die a form o b u0 u1 _ HV Hh ltac:(lia))).
    change (DW_DLE_NONE =? DW_DLE_NONE) with true. cbn [negb]. apply here_app in Hh as [_ Hh]. rewrite IH; [|done|cbn [die_attr]; rewrite length_app; cbn; lia].
    cbn [die_offset die_next_off die_abnum die_tag die_ab die_name die_attr name_after]. rewrite <- app_assoc, length_app. tuple_eq. lia.
Qed.

(** The bytes of an entry: the code of its abbreviation and its attributes. *)
Definition entry_enc (off : Z) (bs : list Z) (o : Z) (a : abbrev) (ats : list Dwarf_Attribute) : Prop :=
  find_abbrev (debug_abbrev_offset cu) t (a_code a) = Some (o, a) /\
  exists vs, bs = uleb (a_code a) ++ vs /\ attrs_enc (off + len (uleb (a_code a))) (a_attrs a) vs ats.

(** The entry as it is read. *)
Definition entry_die (off : Z) (bs : list Z) (o : Z) (a : abbrev) (ats : list Dwarf_Attribute) (old : Z) : Dwarf_Die :=
  mkDie off (off + len bs) (a_code a) (a_tag a) (abbrev_at o a) (name_after old ats) ats.

Lemma find_abbrev_in off l e o a : find_abbrev off l e = Some (o, a) -> a ∈ l.
Proof.
  revert off. induction l as [|x l IH]; intros off; cbn [find_abbrev]; [done|]. destruct (_ =? e); [intros [= _ ->]; by left|]. right. by eapply IH.
Qed.

Lemma search_entry sib off level ab die bs o a ats rest : entry_enc off bs o a ats -> here s (ds_data info) off (bs ++ rest) -> off < cu_next_offset cu ->
  search_round fuel cu sib (off, level, ab, die) s =
  Ret (let die' := entry_die off bs o a ats (die_name die) in
       if sib && (0 <? level) then inl (off + len bs, if a_children a then level + 1 else level, abbrev_at o a, die') else inr (DW_DLE_NONE, die')) s.
Proof using U.
  intros (Ha & vs & -> & Hvs) Hh Hoff. destruct (uo_data _ _ _ _ _ _ U) as (D1 & D2 & D3). destruct (uo_fuel _ _ _ _ _ _ U) as [Hf1 Hf2].
  pose proof (find_abbrev_in _ _ _ _ _ Ha) as Hin. pose proof (proj1 (Forall_forall _ _) (uo_table _ _ _ _ _ _ U) a Hin) as [A1 A2 A3 A4].
  rewrite <- app_assoc in Hh. unfold search_round. rewrite bind_gets, D1, D2. destruct (Z.ltb_spec off (cu_next_offset cu)), (Z.ltb_spec off (ds_size info)); try lia.
  cbn [andb]. rewrite (bind_Ret _ _ _ _ _ (read_uleb128_run fuel s (ds_data info) off (a_code a) _ ltac:(lia) ltac:(unfold small; lia) Hh)).
  destruct (Z.eqb_spec (a_code a) 0); [lia|]. destruct (uo_abbrev _ _ _ _ _ _ U) as (i & ds & rest' & B1 & B2 & B3).
  destruct (dwarf_abbrev_find_table fuel s Hf1 cu (i, ds) t (a_code a) ab rest' B1 B2 B3 (uo_table _ _ _ _ _ _ U) Hf2 ltac:(lia)) as (x & Hx & Hc).
  rewrite Ha in Hc. subst x. rewrite (bind_Ret _ _ _ _ _ Hx). change (DW_DLE_NONE =? DW_DLE_NONE) with true. cbn [negb]. apply here_app in Hh as [_ Hh].
  cbn [abbrev_at ab_tag ab_attrdef ab_children].
  erewrite bind_Ret; [|apply (read_attrs_run rest _ _ _ _ Hvs); [exact Hh|cbn [die_attr length]; lia]]. cbv beta iota. change (DW_DLE_NONE =? DW_DLE_NONE) with true. cbn [negb].
  cbn [die_offset die_next_off die_abnum die_tag die_ab die_name die_attr]. unfold entry_die. rewrite length_app, Nat2Z.inj_add, !Z.add_assoc.
  destruct sib, (0 <? level), (a_children a); done.
Qed.

Lemma search_zero sib off level ab die rest : here s (ds_data info) off (0 :: rest) -> off < cu_next_offset cu ->
  search_round fuel cu sib (off, level, ab, die) s =
  Ret (if (level =? 0) || negb sib then inr (DW_DLE_NO_ENTRY, die) else inl (off + 1, level - 1, ab, die)) s.
Proof using U.
  intros Hh Hoff. destruct (uo_data _ _ _ _ _ _ U) as (D1 & D2 & D3). destruct (uo_fuel _ _ _ _ _ _ U) as [Hf1 Hf2].
  unfold search_round. rewrite bind_gets, D1, D2. destruct (Z.ltb_spec off (cu_next_offset cu)), (Z.ltb_spec off (ds_size info)); try lia.
  cbn [andb]. rewrite (bind_Ret _ _ _ _ _ (read_uleb128_run fuel s (ds_data info) off 0 rest ltac:(lia) ltac:(done) Hh)). by destruct ((level =? 0) || negb sib).
Qed.

(** Trees of entries: the children follow their parent and end with a zero. *)
Inductive tree_enc : Z -> list Z -> Prop :=
| te_leaf off bs o a ats : entry_enc off bs o a ats -> a_children a = false -> tree_enc off bs
| te_node off bs o a ats fs : entry_enc off bs o a ats -> a_children a = true -> forest_enc (off + len bs) fs -> tree_enc off (bs ++ fs ++ [0])
with forest_enc : Z -> list Z -> Prop :=
| fe_nil off : forest_enc off []
| fe_cons off b bs : tree_enc off b -> forest_enc (off + len b) bs -> forest_enc off (b ++ bs).

Scheme tree_enc_ind2 := Induction for tree_enc Sort Prop
with forest_enc_ind2 := Induction for forest_enc Sort Prop.
Combined Scheme tree_forest_ind from tree_enc_ind2, forest_enc_ind2.

Lemma uleb_pos v : (1 <= length (uleb v))%nat.
Proof. unfold uleb. cbn [uleb_n]. repeat case_match; cbn; lia. Qed.

Lemma entry_enc_pos off bs o a ats : entry_enc off bs o a ats -> (1 <= length bs)%nat.
Proof. intros (_ & vs & -> & _). rewrite length_app. pose proof (uleb_pos (a_code a)). lia. Qed.

(** The search for a sibling goes over a whole tree, or over several, and comes
    back to its level. *)
Definition skips (off : Z) (bs : list Z) : Prop :=
  forall level ab die rest, 0 < level -> here s (ds_data info) off (bs ++ rest) -> off + len bs <= cu_next_offset cu ->
  exists n ab' die', (n <= length bs)%nat /\
    forall f, loop (n + f) (search_round fuel cu true) (off, level, ab, die) s = loop f (search_round fuel cu true) (off + len bs, level, ab', die') s.

Lemma skips_entry off bs o a ats level ab die rest f : 0 < level -> entry_enc off bs o a ats -> here s (ds_data info) off (bs ++ rest) -> off < cu_next_offset cu ->
  loop (S f) (search_round fuel cu true) (off, level, ab, die) s =
  loop f (search_round fuel cu true) (off + len bs, if a_children a then level + 1 else level, abbrev_at o a, entry_die off bs o a ats (die_name die)) s.
Proof using U.
  intros Hl He Hh Hoff. cbn [loop]. rewrite (bind_Ret _ _ _ _ _ (search_entry true off level ab die bs o a ats rest He Hh Hoff)).
  destruct (Z.ltb_spec 0 level); [done|lia].
Qed.

Lemma trees_skip : (forall off bs, tree_enc off bs -> skips off bs) /\ (forall off bs, forest_enc off bs -> skips off bs).
Proof using U.
  apply (tree_forest_ind (fun off bs _ => skips off bs) (fun off bs _ => skips off bs)).
  - intros off bs o a ats He Hc level ab die rest Hl Hh Hoff. pose proof (entry_enc_pos _ _ _ _ _ He) as Hp. exists 1%nat, (abbrev_at o a), (entry_die off bs o a ats (die_name die)).
    split; [done|]. intros f. cbn [Nat.add]. rewrite (skips_entry off bs o a ats level ab die rest f Hl He Hh) by lia. by rewrite Hc.
  - intros off bs o a ats fs He Hc _ IH level ab die rest Hl Hh Hoff. pose proof (entry_enc_pos _ _ _ _ _ He) as Hp.
    rewrite !length_app in Hoff. cbn [length] in Hoff. rewrite <- app_assoc in Hh. pose proof Hh as Hh1. apply here_app in Hh1 as [_ Hh1]. rewrite <- app_assoc in Hh1.
    destruct (IH (level + 1) (abbrev_at o a) (entry_die off bs o a ats (die_name die)) _ ltac:(lia) Hh1 ltac:(lia)) as (n & ab' & die' & Hn & Hrun).
    exists (S (n + 1)), ab', die'. split; [rewrite !length_app; cbn; lia|]. intros f. cbn [Nat.add].
    rewrite (skips_entry off bs o a ats level ab die _ _ Hl He Hh) by lia. rewrite Hc, <- Nat.add_assoc, Hrun. cbn [Nat.add loop].
    apply here_app in Hh1 as [_ Hh1]. rewrite (bind_Ret _ _ _ _ _ (search_zero true _ _ ab' die' _ Hh1 ltac:(lia))).
    destruct (Z.eqb_spec (level + 1) 0); [lia|]. cbn [orb negb]. rewrite !length_app. cbn [length]. do 2 f_equal. tuple_eq; lia.
  - intros off level ab die rest Hl Hh Hoff. exists 0%nat, ab, die. split; [done|]. intros f. cbn. by rewrite Z.add_0_r.
  - intros off b bs _ IH1 _ IH2 level ab die rest Hl Hh Hoff. rewrite <- app_assoc in Hh. rewrite length_app in Hoff. pose proof Hh as Hh1. apply here_app in Hh1 as [_ Hh1].
    destruct (IH1 level ab die _ Hl Hh ltac:(lia)) as (n1 & ab1 & die1 & Hn1 & Hr1). destruct (IH2 level ab1 die1 _ Hl Hh1 ltac:(lia)) as (n2 & ab2 & die2 & Hn2 & Hr2).
    exists (n1 + n2)%nat, ab2, die2. rewrite length_app. split; [lia|]. intros f. rewrite <- Nat.add_assoc, Hr1, Hr2. do 2 f_equal. tuple_eq. lia.
Qed.

(** What a search finds at its own level: the entry there, or the end of the list. *)
Lemma search_stops sib off level ab die rest f : sib && (0 <? level) = false ->
  (forall bs o a ats more, rest = bs ++ more -> entry_enc off bs o a ats -> here s (ds_data info) off rest -> off < cu_next_offset cu ->
     loop (S f) (search_round fuel cu sib) (off, level, ab, die) s = Ret (DW_DLE_NONE, entry_die off bs o a ats (die_name die)) s) /\
  (forall more, rest = 0 :: more -> (level = 0 \/ sib = false) -> here s (ds_data info) off rest -> off < cu_next_offset cu ->
     loop (S f) (search_round fuel cu sib) (off, level, ab, die) s = Ret (DW_DLE_NO_ENTRY, die) s).
Proof using U.
  intros Hs. split.
  - intros bs o a ats more -> He Hh Hoff. cbn [loop]. rewrite (bind_Ret _ _ _ _ _ (search_entry sib off level ab die bs o a ats more He Hh Hoff)). by rewrite Hs.
  - intros more -> Hc Hh Hoff. cbn [loop]. rewrite (bind_Ret _ _ _ _ _ (search_zero sib off level ab die more Hh Hoff)).
    assert ((level =? 0) || negb sib = true) as -> by (destruct Hc as [->| ->]; [done|by rewrite orb_true_r]). done.
Qed.

(** What a reader gets from the entry at [off], in a structure that held [rd]:
    the entry with its own name, or the name that was there when it has none; or
    no entry, at the end of a list and at the end of the unit. *)
Inductive reads_at (off : Z) (rd : Dwarf_Die) : Z * Dwarf_Die -> Prop :=
| ra_entry bs o a ats more : here s (ds_data info) off (bs ++ more) -> off < cu_next_offset cu -> entry_enc off bs o a ats ->
    reads_at off rd (DW_DLV_OK, entry_die off bs o a ats (die_name rd))
| ra_end more : here s (ds_data info) off (0 :: more) -> off < cu_next_offset cu -> reads_at off rd (DW_DLV_NO_ENTRY, rd)
| ra_unit_end : cu_next_offset cu <= off -> reads_at off rd (DW_DLV_NO_ENTRY, rd).

(** Where the next sibling of [die] is, and the encoding of the entries between
    them that have to be skipped: after an entry without children it follows; an
    entry with children may have a reference to it, relative to the unit but for
    DW_FORM_ref_addr; else it comes after all the descendants. *)
Inductive next_sibling (die : Dwarf_Die) : Z -> list Z -> Prop :=
| ns_leaf : ab_children (die_ab die) = 0 -> next_sibling die (die_next_off die) []
| ns_attr a : ab_children (die_ab die) <> 0 -> _dwarf_attr_find die 0x01 = Some a ->
    next_sibling die (if decide (at_form a = 0x10) then at_u0 a else u64 (at_u0 a + cu_offset cu)) []
| ns_skip fs : ab_children (die_ab die) <> 0 -> _dwarf_attr_find die 0x01 = None -> forest_enc (die_next_off die) fs ->
    here s (ds_data info) (die_next_off die) (fs ++ [0]) -> die_next_off die + len fs < cu_next_offset cu -> (length fs + 2 <= fuel)%nat ->
    next_sibling die (die_next_off die + len fs + 1) (fs ++ [0]).

Lemma search_reads sib off level ab rd x f : sib && (0 <? level) = false -> (level = 0 \/ sib = false) -> reads_at off rd x ->
  exists r, loop (S f) (search_round fuel cu sib) (off, level, ab, rd) s = Ret (r, snd x) s /\ dlv_result (r, snd x) = x.
Proof using U.
  intros Hs Hc Hx. destruct (uo_data _ _ _ _ _ _ U) as (D1 & D2 & D3). destruct Hx as [bs o a ats more Hh Ho He|more Hh Ho|Ho].
  - exists DW_DLE_NONE. split; [|done]. by apply (proj1 (search_stops sib off level ab rd (bs ++ more) f Hs) bs o a ats more).
  - exists DW_DLE_NO_ENTRY. split; [|done]. by apply (proj2 (search_stops sib off level ab rd (0 :: more) f Hs) more).
  - exists DW_DLE_NO_ENTRY. split; [|done]. cbn [loop]. unfold search_round at 1. msteps.
    destruct (Z.ltb_spec off (cu_next_offset cu)); [lia|done].
Qed.

Lemma plain_search ab0 off rd x : reads_at off rd x ->
  exists r, dwarf_search_die_within_cu fuel ab0 cu off rd false s = Ret (r, snd x) s /\ dlv_result (r, snd x) = x.
Proof using U.
  intros Hx. destruct (uo_fuel _ _ _ _ _ _ U) as [Hf _].
  destruct (search_reads false off 1 ab0 rd x (fuel - 1) eq_refl (or_intror eq_refl) Hx) as (r & Hr & Hd).
  replace (S (fuel - 1)) with fuel in Hr by lia. by exists r.
Qed.

Lemma child_reads ab0 die rd x : ab_children (die_ab die) <> 0 -> reads_at (die_next_off die) rd x -> dwarf_child fuel ab0 cu die rd s = Ret x s.
Proof using U.
  intros Hch Hx. unfold dwarf_child. destruct (Z.eqb_spec (ab_children (die_ab die)) 0); [done|].
  destruct (plain_search ab0 (die_next_off die) rd x Hx) as (r & Hr & Hd). rewrite (bind_Ret _ _ _ _ _ Hr). unfold ret. by rewrite Hd.
Qed.

Lemma offdie_reads ab0 off rd x : off < cu_next_offset cu -> reads_at off rd x -> exists r, dwarf_offdie fuel ab0 off rd cu s = Ret (r, snd x) s.
Proof using U.
  intros Ho Hx. unfold dwarf_offdie. destruct (Z.ltb_spec off (cu_next_offset cu)); [|lia].
  destruct (plain_search ab0 off rd x Hx) as (r & Hr & _). by exists r.
Qed.

Lemma sibling_reads ab0 die rd off skipped : next_sibling die off skipped ->
  exists rd', (skipped = [] -> rd' = rd) /\ forall x, reads_at off rd' x -> dwarf_siblingof fuel ab0 (Some die) rd cu s = Ret x s.
Proof using U.
  intros Hn.
  assert (forall y x, reads_at y rd x -> bind (dwarf_search_die_within_cu fuel ab0 cu y rd false) (fun x => ret (dlv_result x)) s = Ret x s) as Hplain.
  { intros y x Hx. destruct (plain_search ab0 y rd x Hx) as (r & Hr & Hd). rewrite (bind_Ret _ _ _ _ _ Hr). unfold ret. by rewrite Hd. }
  unfold dwarf_siblingof. destruct Hn as [Hc|a Hc Ha|fs Hc Ha Hfs Hh Hoff Hlen].
  - exists rd. split; [done|]. intros x Hx. rewrite Hc. by apply Hplain.
  - exists rd. split; [done|]. intros x Hx. destruct (Z.eqb_spec (ab_children (die_ab die)) 0); [done|]. rewrite Ha.
    destruct (Z.eqb_spec (at_form a) 0x10); cbn [negb]; case_decide; try done; by apply Hplain.
  - destruct (Z.eqb_spec (ab_children (die_ab die)) 0) as [|_]; [done|]. rewrite Ha.
    destruct (proj2 trees_skip (die_next_off die) fs Hfs 1 ab0 rd _ ltac:(lia) Hh ltac:(lia)) as (n & ab' & rd' & Hn & Hrun).
    exists rd'. split; [by destruct fs|]. intros x Hx. unfold dwarf_search_die_within_cu. apply here_app in Hh as [_ Hh].
    destruct (search_reads true (die_next_off die + len fs + 1) 0 ab' rd' x (fuel - n - 2) eq_refl (or_introl eq_refl) Hx) as (r & Hr & Hd).
    erewrite bind_Ret; [unfold ret; by rewrite Hd|]. specialize (Hrun (S (S (fuel - n - 2)))).
    replace (n + S (S (fuel - n - 2)))%nat with fuel in Hrun by lia. rewrite Hrun. cbn [loop].
    rewrite (bind_Ret _ _ _ _ _ (search_zero true _ 1 ab' rd' _ Hh Hoff)). exact Hr.
Qed.
End Entry.


(** ** A unit *)

Lemma here_check s data off l :
  (0 <=? off) && (off + len l <? 2 ^ 63) && forallb (fun '(i, b) => dmem s (u64 (data + off + i)) =? b) (zip (seqZ 0 (len l)) l) = true ->
  here s data off l.
Proof.
  intros [[H1 H2]%andb_prop H3]%andb_prop. split; [lia|]. split; [lia|]. intros i b Hi. rewrite forallb_forall in H3.
  assert ((Z.of_nat i, b) ∈ zip (seqZ 0 (len l)) l) as Hin.
  { apply list_elem_of_lookup. exists i. apply lookup_zip_with_Some. exists (Z.of_nat i), b. split_ands; [done| |done].
    apply lookup_seqZ. pose proof (lookup_lt_Some _ _ _ Hi). lia. }
  apply list_elem_of_In in Hin. specialize (H3 _ Hin). cbn in H3. lia.
Qed.

(** A function with one parameter and a block, followed by a variable. *)
Definition demo_table : list abbrev := [mkAbb 1 0x2e true [(3, 0x08)]; mkAbb 2 0x34 false [(3, 0x0e); (0x0b, 0x0b)]].
Definition demo_leaf : list Z := uleb 2 ++ (enc_num DW_OBJECT_LSB 4 7 ++ (enc_num DW_OBJECT_LSB 1 9 ++ [])).
Definition demo_node : list Z := uleb 1 ++ (([65] ++ [0]) ++ []).
Definition demo_forest : list Z := demo_leaf ++ ((demo_node ++ demo_leaf ++ [0]) ++ []).
Definition demo_info : list Z := demo_forest ++ 0 :: demo_leaf ++ [0; 0].

Definition demo_mem (a : Z) : Z :=
  default 0 (if a <? 2000 then enc_table demo_table !! Z.to_nat (a - 1000) else demo_info !! Z.to_nat (a - 2000)).
Definition info_section : Dwarf_Section := mkSection ".debug_info" 2000 2000 (len demo_info).
Definition str_section : Dwarf_Section := mkSection ".debug_str" 3000 3000 100.
Definition demo_dwarf : dstate :=
  mkDstate demo_mem [info_section; mkSection ".debug_abbrev" 1000 1000 (len (enc_table demo_table)); str_section]
    (mkDebug 0 2000 (len demo_info) DW_OBJECT_LSB 8 66 1035 1436 1035 1034).
Definition demo_cu : Dwarf_CU := mkCU 100 3 8 0 4 4 (len demo_info) 0 0.
Definition demo_abbrev : Dwarf_Abbrev := mkAbbrev 1 0x2e 1 0 0 [].
Definition demo_die : Dwarf_Die := mkDie 0 0 1 0x2e demo_abbrev 0 [].

Lemma demo_unit : unit_ok 64 demo_dwarf demo_cu info_section str_section demo_table.
Proof.
  split; [by split; vm_compute; lia|by eexists|by eexists|by vm_compute| |].
  - eexists _, _, []. split; [done|]. split; [apply here_check; by vm_compute|by vm_compute].
  - repeat constructor; (done || (cbn; lia)).
Qed.

Lemma demo_leaf_enc off : exists ats, entry_enc 64 demo_dwarf demo_cu info_section str_section demo_table off demo_leaf 7 (mkAbb 2 0x34 false [(3, 0x0e); (0x0b, 0x0b)]) ats /\
  ats = [attribute 3 0x0e 7 3007; attribute 0x0b 0x0b 9 0].
Proof.
  eexists. split; [|reflexivity]. split; [by vm_compute|]. eexists. split; [reflexivity|].
  apply as_cons; [apply (ve_strp 64 demo_dwarf demo_cu info_section str_section _ 4 7); [done|by right; right; left|done]|].
  apply as_cons; [apply (ve_num 64 demo_dwarf demo_cu info_section str_section _ 0x0b 1 9); [done|by left|done]|]. apply as_nil.
Qed.

Lemma demo_forest_enc : forest_enc 64 demo_dwarf demo_cu info_section str_section demo_table 0 demo_forest.
Proof.
  apply fe_cons; [|apply fe_cons; [|apply fe_nil]].
  - destruct (demo_leaf_enc 0) as (ats & H & _). by eapply te_leaf.
  - eapply (te_node _ _ _ _ _ _ _ demo_node 0 (mkAbb 1 0x2e true [(3, 0x08)])); [|done|].
    + split; [done|]. eexists. split; [reflexivity|]. apply as_cons; [|apply as_nil]. apply ve_string; [by repeat constructor|by vm_compute|by vm_compute; lia].
    + replace demo_leaf with (demo_leaf ++ []) by apply app_nil_r. apply fe_cons; [|apply fe_nil]. destruct (demo_leaf_enc (0 + len demo_leaf + len demo_node)) as (ats & H & _).
      by eapply te_leaf.
Qed.


(** The bits of a number are shifted as an [int]: with bit 31 set the number that
    is read has its upper half set as well. *)
Lemma uleb128_sign_extends : _dwarf_read_uleb128 64 0 0 (mkDstate (fun a => if a =? 4 then 8 else 0x80) [] (dbg demo_dwarf)) =
  Ret (2 ^ 64 - 2 ^ 31, 5) (mkDstate (fun a => if a =? 4 then 8 else 0x80) [] (dbg demo_dwarf)).
Proof. by vm_compute. Qed.
