(* ===== verification/DwarfLine.v ===== *)
(** The line-number programs of the debugging information: kern/libdwarf_lineno.c.

    [dwarf_srclines] runs the program of a unit up to an address and gives the
    row it was at.  [Dwarf_Error] is never written: the macro that sets it is
    empty.  The memory is that of the reader, and only read. *)

From S2P Require Import Prelude Dwarf.

Notation DW_DLE_DEBUG_LINE_LENGTH_BAD := 15 (only parsing).

Record Dwarf_Line : Type := mkLine {
  ln_addr : Z;
  ln_symndx : Z;
  ln_fileno : Z;
  ln_lineno : Z;
  ln_column : Z;
  ln_bblock : Z;
  ln_stmt : Z;
  ln_endseq : Z;
}.

(** [li_oplen] is what is read into the array from its index 1 on.  The arrays of
    directories and files stay empty. *)
Record Dwarf_LineInfo : Type := mkLineInfo {
  li_length : Z;
  li_version : Z;
  li_hdrlen : Z;
  li_minlen : Z;
  li_defstmt : Z;
  li_lbase : Z;
  li_lrange : Z;
  li_opbase : Z;
  li_oplen : list Z;
  li_inclen : Z;
  li_line : Dwarf_Line;
  li_lnlen : Z;
}.

Definition no_line : Dwarf_Line := mkLine 0 0 0 0 0 0 0 0.
Definition no_lineinfo : Dwarf_LineInfo := mkLineInfo 0 0 0 0 0 0 0 0 [] 0 no_line 0.

Definition set_inclen (n : Z) (li : Dwarf_LineInfo) : Dwarf_LineInfo :=
  mkLineInfo (li_length li) (li_version li) (li_hdrlen li) (li_minlen li) (li_defstmt li) (li_lbase li) (li_lrange li) (li_opbase li)
    (li_oplen li) n (li_line li) (li_lnlen li).
Definition set_oplen (l : list Z) (li : Dwarf_LineInfo) : Dwarf_LineInfo :=
  mkLineInfo (li_length li) (li_version li) (li_hdrlen li) (li_minlen li) (li_defstmt li) (li_lbase li) (li_lrange li) (li_opbase li)
    l (li_inclen li) (li_line li) (li_lnlen li).
Definition add_line (ln : Dwarf_Line) (li : Dwarf_LineInfo) : Dwarf_LineInfo :=
  mkLineInfo (li_length li) (li_version li) (li_hdrlen li) (li_minlen li) (li_defstmt li) (li_lbase li) (li_lrange li) (li_opbase li)
    (li_oplen li) (li_inclen li) ln (u64 (li_lnlen li + 1)).

(** The local variables of the interpreter; [isa] is written and never read. *)
Record registers : Type := mkRegs {
  address : Z;
  file : Z;
  line : Z;
  column : Z;
  is_stmt : Z;
  basic_block : Z;
  end_sequence : Z;
  prologue_end : Z;
  epilogue_begin : Z;
}.

Definition set_address (v : Z) (r : registers) : registers :=
  mkRegs v (file r) (line r) (column r) (is_stmt r) (basic_block r) (end_sequence r) (prologue_end r) (epilogue_begin r).
Definition set_file (v : Z) (r : registers) : registers :=
  mkRegs (address r) v (line r) (column r) (is_stmt r) (basic_block r) (end_sequence r) (prologue_end r) (epilogue_begin r).
Definition set_line (v : Z) (r : registers) : registers :=
  mkRegs (address r) (file r) v (column r) (is_stmt r) (basic_block r) (end_sequence r) (prologue_end r) (epilogue_begin r).
Definition set_column (v : Z) (r : registers) : registers :=
  mkRegs (address r) (file r) (line r) v (is_stmt r) (basic_block r) (end_sequence r) (prologue_end r) (epilogue_begin r).
Definition set_is_stmt (v : Z) (r : registers) : registers :=
  mkRegs (address r) (file r) (line r) (column r) v (basic_block r) (end_sequence r) (prologue_end r) (epilogue_begin r).
(** [basic_block], [prologue_end] and [epilogue_begin]. *)
Definition set_flags (b p e : Z) (r : registers) : registers :=
  mkRegs (address r) (file r) (line r) (column r) (is_stmt r) b (end_sequence r) p e.

Definition RESET_REGISTERS (li : Dwarf_LineInfo) : registers := mkRegs 0 1 1 0 (li_defstmt li) 0 0 0 0.

Definition row_of (r : registers) : Dwarf_Line :=
  mkLine (address r) 0 (file r) (line r) (s64 (column r)) (basic_block r) (is_stmt r) (end_sequence r).

(** [None]: the program returns. *)
Definition APPEND_ROW (pc : Z) (r : registers) (li : Dwarf_LineInfo) : option Dwarf_LineInfo :=
  if pc <? address r then None else Some (add_line (row_of r) li).

(** The divisor is checked by [guard_lrange]. *)
Definition LINE (li : Dwarf_LineInfo) (x : Z) : Z := li_lbase li + Z.rem (x - li_opbase li) (li_lrange li).
Definition ADDRESS (li : Dwarf_LineInfo) (x : Z) : Z := Z.quot (x - li_opbase li) (li_lrange li) * li_minlen li.
Definition guard_lrange (li : Dwarf_LineInfo) : D unit := if li_lrange li =? 0 then panic "divide error" else ret tt.

(** [dbg->decode]. *)
Definition dbg_decode (p n : Z) : D (Z * Z) :=
  let! d := gets dbg in
  match dbg_order d with
  | DW_OBJECT_MSB => _dwarf_decode_msb p n
  | DW_OBJECT_LSB => _dwarf_decode_lsb p n
  end.

Section Lines.
Context (fuel : nat).

(** [strlen] of a name in a section, and the scan over a directory. *)
Definition name_len (p : Z) : D Z :=
  loop fuel (fun n =>
    let! c := byte_at (p + n) in
    if nz c then ret (inl (n + 1)) else ret (inr n)) 0.

(** The result and [*p]. *)
Definition _dwarf_lineno_add_file (p : Z) : D (Z * Z) :=
  let! n := name_len p in
  let! x := _dwarf_decode_uleb128 fuel (u64 (p + n + 1)) in
  let! x := _dwarf_decode_uleb128 fuel (snd x) in
  let! x := _dwarf_decode_uleb128 fuel (snd x) in
  ret (DW_DLE_NONE, snd x).

(** Where the program stands: [p], the registers and what was written to [*li]. *)
Definition lstate : Type := Z * registers * Dwarf_LineInfo.
(** What a round of the loop comes to: the next round, or the result and [*li]. *)
Definition lround : Type := lstate + Z * Dwarf_LineInfo.

(** [p] is at the length of the opcode. *)
Definition extended_opcode (cu : Dwarf_CU) (p : Z) (r : registers) (li : Dwarf_LineInfo) : D lround :=
  let! x := _dwarf_decode_uleb128 fuel p in
  let '(opsize, p) := x in
  let! b := byte_at p in
  match b with
  | 0x01 (* DW_LNE_end_sequence *) => ret (inl (u64 (p + 1), RESET_REGISTERS li, li))
  | 0x02 (* DW_LNE_set_address *) =>
      let! x := dbg_decode (u64 (p + 1)) (addr_size cu) in
      ret (inl (snd x, set_address (fst x) r, li))
  | 0x03 (* DW_LNE_define_file *) =>
      let! x := _dwarf_lineno_add_file (u64 (p + 1)) in
      if negb (fst x =? DW_DLE_NONE) then ret (inr (fst x, li)) else ret (inl (snd x, r, li))
  | _ => ret (inl (u64 (p + opsize), r, li))
  end.

(** [p] is past the opcode [b]. *)
Definition standard_opcode (pc b p : Z) (r : registers) (li : Dwarf_LineInfo) : D lround :=
  match b with
  | 0x01 (* DW_LNS_copy *) =>
      match APPEND_ROW pc r li with
      | None => ret (inr (DW_DLE_NONE, li))
      | Some li => ret (inl (p, set_flags 0 0 0 r, li))
      end
  | 0x02 (* DW_LNS_advance_pc *) =>
      let! x := _dwarf_decode_uleb128 fuel p in
      ret (inl (snd x, set_address (u64 (address r + fst x * li_minlen li)) r, li))
  | 0x03 (* DW_LNS_advance_line *) =>
      let! x := _dwarf_decode_sleb128 fuel p in
      ret (inl (snd x, set_line (u64 (line r + fst x)) r, li))
  | 0x04 (* DW_LNS_set_file *) =>
      let! x := _dwarf_decode_uleb128 fuel p in
      ret (inl (snd x, set_file (fst x) r, li))
  | 0x05 (* DW_LNS_set_column *) =>
      let! x := _dwarf_decode_uleb128 fuel p in
      ret (inl (snd x, set_column (fst x) r, li))
  | 0x06 (* DW_LNS_negate_stmt *) => ret (inl (p, set_is_stmt (if is_stmt r =? 0 then 1 else 0) r, li))
  | 0x07 (* DW_LNS_set_basic_block *) => ret (inl (p, set_flags 1 (prologue_end r) (epilogue_begin r) r, li))
  | 0x08 (* DW_LNS_const_add_pc *) =>
      do! guard_lrange li ;;
      ret (inl (p, set_address (u64 (address r + ADDRESS li 255)) r, li))
  | 0x09 (* DW_LNS_fixed_advance_pc *) =>
      let! x := dbg_decode p 2 in
      ret (inl (snd x, set_address (u64 (address r + fst x)) r, li))
  | 0x0a (* DW_LNS_set_prologue_end *) => ret (inl (p, set_flags (basic_block r) 1 (epilogue_begin r) r, li))
  | 0x0b (* DW_LNS_set_epilogue_begin *) => ret (inl (p, set_flags (basic_block r) (prologue_end r) 1 r, li))
  | 0x0c (* DW_LNS_set_isa *) =>
      let! x := _dwarf_decode_uleb128 fuel p in
      ret (inl (snd x, r, li))
  | _ => ret (inl (p, r, li))
  end.

Definition special_opcode (pc b p : Z) (r : registers) (li : Dwarf_LineInfo) : D lround :=
  do! guard_lrange li ;;
  let r := set_line (u64 (line r + LINE li b)) r in
  let r := set_address (u64 (address r + ADDRESS li b)) r in
  match APPEND_ROW pc r li with
  | None => ret (inr (DW_DLE_NONE, li))
  | Some li => ret (inl (u64 (p + 1), set_flags 0 0 0 r, li))
  end.

Definition lineno_round (cu : Dwarf_CU) (pe pc : Z) (x : lstate) : D lround :=
  let '(p, r, li) := x in
  if p <? pe then
    let! b := byte_at p in
    if b =? 0 then extended_opcode cu (u64 (p + 1)) r li
    else if (0 <? b) && (b <? li_opbase li) then standard_opcode pc b (u64 (p + 1)) r li
    else special_opcode pc b p r li
  else ret (inr (DW_DLE_NONE, li)).

(** The result and [*li]. *)
Definition _dwarf_lineno_run_program (cu : Dwarf_CU) (li : Dwarf_LineInfo) (p pe pc : Z) : D (Z * Dwarf_LineInfo) :=
  loop fuel (lineno_round cu pe pc) (p, RESET_REGISTERS li, li).

(** The lengths of the standard opcodes, and the offset after them. *)
Definition read_oplen (data off opbase : Z) : D (Z * list Z) :=
  foldM (seqZ 1 (opbase - 1)) (off, []) (fun '(off, l) _ =>
    let! x := dbg_read data off 1 in
    ret (snd x, l ++ [u8 (fst x)])).

(** The include directories: [p] at the empty name, and how many there are. *)
Definition skip_dirs (p : Z) : D (Z * Z) :=
  loop fuel (fun '(p, length) =>
    let! c := byte_at p in
    if nz c then
      let! n := name_len p in
      ret (inl (u64 (p + n + 1), u64 (length + 1)))
    else ret (inr (p, length))) (p, 0).

(** The files: [p] at the empty name. *)
Definition skip_files (p : Z) : D Z :=
  loop fuel (fun p =>
    let! c := byte_at p in
    if nz c then
      let! x := _dwarf_lineno_add_file p in
      ret (inl (snd x))
    else ret (inr p)) p.

(** The length of the unit, the offset after it and the size of an offset. *)
Definition read_length (data offset : Z) : D (Z * Z * Z) :=
  let! x := dbg_read data offset 4 in
  if fst x =? 0xffffffff then
    let! x := dbg_read data (snd x) 8 in
    ret (x, 8)
  else ret (x, 4).

(** The fields of fixed size: [*li], [hdroff] and the offset after them. *)
Definition read_fields (data offset length dwarf_size : Z) (li : Dwarf_LineInfo) : D (Dwarf_LineInfo * Z * Z) :=
  let! version := dbg_read data offset 2 in
  let! hdrlen := dbg_read data (snd version) dwarf_size in
  let hdroff := snd hdrlen in
  let! minlen := dbg_read data hdroff 1 in
  let! defstmt := dbg_read data (snd minlen) 1 in
  let! lbase := dbg_read data (snd defstmt) 1 in
  let! lrange := dbg_read data (snd lbase) 1 in
  let! opbase := dbg_read data (snd lrange) 1 in
  ret (mkLineInfo length (u16 (fst version)) (fst hdrlen) (u8 (fst minlen)) (u8 (fst defstmt)) (s8 (fst lbase)) (u8 (fst lrange))
         (u8 (fst opbase)) (li_oplen li) (li_inclen li) (li_line li) (li_lnlen li), hdroff, snd opbase).

(** [cu] is [die->cu_header].  The result and [*linfo]. *)
Definition _dwarf_lineno_init (cu : Dwarf_CU) (offset : Z) (li : Dwarf_LineInfo) (pc : Z) : D (Z * Dwarf_LineInfo) :=
  let! ds := _dwarf_find_section_enhanced (mkSection ".debug_line" 0 0 0) in
  let data := ds_data ds in
  let! x := read_length data offset in
  let '(length, offset, dwarf_size) := x in
  if u64 (ds_size ds - offset) <? length then ret (DW_DLE_DEBUG_LINE_LENGTH_BAD, li)
  else
    let endoff := u64 (offset + length) in
    let! x := read_fields data offset length dwarf_size li in
    let '(li, hdroff, offset) := x in
    if s32 (s32 (li_hdrlen li) - 5) <? li_opbase li - 1 then ret (DW_DLE_DEBUG_LINE_LENGTH_BAD, li)
    else
      let! x := read_oplen data offset (li_opbase li) in
      let li := set_oplen (snd x) li in
      let! x := skip_dirs (u64 (data + fst x)) in
      let '(p, length) := x in
      let li := set_inclen length li in
      if s32 (ds_size ds) <? s64 (p - data) then ret (DW_DLE_DEBUG_LINE_LENGTH_BAD, li)
      else
        let! p := skip_files (u64 (p + 1)) in
        let p := u64 (p + 1) in
        if negb (u64 (p - data - hdroff) =? li_hdrlen li) then ret (DW_DLE_DEBUG_LINE_LENGTH_BAD, li)
        else _dwarf_lineno_run_program cu li p (u64 (data + endoff)) pc.

(** The result and [*linebuf]. *)
Definition dwarf_srclines (cu : Dwarf_CU) (die : Dwarf_Die) (linebuf : Dwarf_Line) (pc : Z) : D (Z * Dwarf_Line) :=
  match _dwarf_attr_find die 0x10 (* DW_AT_stmt_list *) with
  | None => ret (DW_DLV_NO_ENTRY, linebuf)
  | Some at_ =>
      let! x := _dwarf_lineno_init cu (at_u0 at_) no_lineinfo pc in
      let '(r, li) := x in
      if negb (r =? DW_DLE_NONE) then ret (DW_DLV_ERROR, linebuf) else ret (DW_DLV_OK, li_line li)
  end.
End Lines.
