(* ===== verification/DwarfLineProps.v ===== *)
(** What the line-number interpreter makes of a well-formed program: the row of
    the table that covers an address. *)

From Stdlib Require Import Sorted.
From S2P Require Import Prelude Dwarf DwarfProps DwarfLine.

(** ** Line-number programs *)

(** The operations of a program.  [OSpecial a d] advances by [a] instructions
    and [d] lines and ends a row. *)
Inductive line_op : Type :=
  | OCopy
  | OAdvancePc (n : Z)
  | OAdvanceLine (d : Z)
  | OSetFile (n : Z)
  | OSetColumn (n : Z)
  | ONegateStmt
  | OBasicBlock
  | OConstAddPc
  | OFixedAdvance (n : Z)
  | OPrologueEnd
  | OEpilogueBegin
  | OSetIsa (n : Z)
  | OSpecial (a d : Z)
  | OEndSequence
  | OSetAddress (a : Z)
  | ODefineFile (name : list Z) (dir time size : Z)
  | OVendor (code : Z) (operands : list Z).

Record line_header : Type := mkHeader {
  h_version : Z;
  h_minlen : Z;
  h_defstmt : Z;
  h_lbase : Z;
  h_lrange : Z;
  h_opbase : Z;
  h_oplens : list Z;
  h_dirs : list (list Z);
  h_files : list (list Z * (Z * Z * Z));
}.

Definition byte (b : Z) : Prop := 0 <= b < 256.
Definition name_ok (l : list Z) : Prop := Forall (fun c => 0 < c < 256) l.
Definition file_ok (f : list Z * (Z * Z * Z)) : Prop :=
  let '(name, (d, t, n)) := f in name_ok name /\ small d /\ small t /\ small n.

(** *** Meaning *)

Definition initial (h : line_header) : registers := mkRegs 0 1 1 0 (h_defstmt h) 0 0 0 0.

Definition op_effect (h : line_header) (op : line_op) (r : registers) : registers :=
  let advance n r := set_address (u64 (address r + n)) r in
  match op with
  | OAdvancePc n => advance (n * h_minlen h) r
  | OAdvanceLine d => set_line (u64 (line r + d)) r
  | OSetFile n => set_file n r
  | OSetColumn n => set_column n r
  | ONegateStmt => set_is_stmt (if is_stmt r =? 0 then 1 else 0) r
  | OBasicBlock => set_flags 1 (prologue_end r) (epilogue_begin r) r
  | OConstAddPc => advance ((255 - h_opbase h) / h_lrange h * h_minlen h) r
  | OFixedAdvance n => advance n r
  | OPrologueEnd => set_flags (basic_block r) 1 (epilogue_begin r) r
  | OEpilogueBegin => set_flags (basic_block r) (prologue_end r) 1 r
  | OSpecial a d => advance (a * h_minlen h) (set_line (u64 (line r + d)) r)
  | OEndSequence => initial h
  | OSetAddress a => set_address a r
  | OCopy | OSetIsa _ | ODefineFile _ _ _ _ | OVendor _ _ => r
  end.

Definition ends_row (op : line_op) : bool := match op with OCopy | OSpecial _ _ => true | _ => false end.

(** The table that a program describes. *)
Fixpoint rows (h : line_header) (ops : list line_op) (r : registers) : list Dwarf_Line :=
  match ops with
  | [] => []
  | op :: ops =>
      let r := op_effect h op r in
      if ends_row op then row_of r :: rows h ops (set_flags 0 0 0 r) else rows h ops r
  end.

(** The rows before the first one past [pc]. *)
Fixpoint upto (pc : Z) (l : list Dwarf_Line) : list Dwarf_Line :=
  match l with [] => [] | ln :: l => if pc <? ln_addr ln then [] else ln :: upto pc l end.

Definition add_lines (li : Dwarf_LineInfo) (l : list Dwarf_Line) : Dwarf_LineInfo := foldl (fun li ln => add_line ln li) li l.

Definition ascending (l : list Dwarf_Line) : Prop := StronglySorted (fun a b => ln_addr a <= ln_addr b) l.

Lemma upto_ascending pc l : ascending l -> upto pc l = filter (fun ln => ln_addr ln <= pc) l.
Proof.
  induction 1 as [|ln l Hl IH Hle]; [done|]. cbn [upto]. destruct (Z.ltb_spec pc (ln_addr ln)).
  - rewrite filter_cons_False by lia. clear IH Hl. induction Hle as [|x l Hx Hl IH]; [done|]. rewrite filter_cons_False by lia. done.
  - rewrite filter_cons_True by lia. by rewrite IH.
Qed.

Lemma add_lines_line li l : li_line (add_lines li l) = default (li_line li) (last l).
Proof.
  revert li. induction l as [|x l IH]; intros li; [done|]. cbn [add_lines foldl]. fold (add_lines (add_line x li) l). rewrite IH.
  destruct l as [|y l]; [done|]. change (last (x :: y :: l)) with (last (y :: l)). destruct (last (y :: l)) eqn:E; [done|]. by apply last_None in E.
Qed.

(** *** Encoding *)

Section Encoding.
Context (o : Dwarf_Endianness) (asz : nat) (h : line_header).

Definition enc_file (f : list Z * (Z * Z * Z)) : list Z :=
  let '(name, (d, t, n)) := f in name ++ [0] ++ uleb d ++ uleb t ++ uleb n.

(** An extended opcode and its operands, with their length. *)
Definition enc_extended (l : list Z) : list Z := [0] ++ uleb (len l) ++ l.

Definition enc_op (op : line_op) : list Z :=
  match op with
  | OCopy => [1]
  | OAdvancePc n => [2] ++ uleb n
  | OAdvanceLine d => [3] ++ sleb d
  | OSetFile n => [4] ++ uleb n
  | OSetColumn n => [5] ++ uleb n
  | ONegateStmt => [6]
  | OBasicBlock => [7]
  | OConstAddPc => [8]
  | OFixedAdvance n => [9] ++ enc_num o 2 n
  | OPrologueEnd => [10]
  | OEpilogueBegin => [11]
  | OSetIsa n => [12] ++ uleb n
  | OSpecial a d => [(d - h_lbase h) + h_lrange h * a + h_opbase h]
  | OEndSequence => enc_extended [1]
  | OSetAddress a => enc_extended ([2] ++ enc_num o asz a)
  | ODefineFile name d t n => enc_extended ([3] ++ enc_file (name, (d, t, n)))
  | OVendor code l => enc_extended (code :: l)
  end.

(** A standard opcode is one the header knows. *)
Definition op_ok (op : line_op) : Prop :=
  match op with
  | OCopy => 1 < h_opbase h
  | OAdvancePc n => 2 < h_opbase h /\ small n
  | OAdvanceLine d => 3 < h_opbase h /\ - 2 ^ 27 <= d < 2 ^ 27
  | OSetFile n => 4 < h_opbase h /\ small n
  | OSetColumn n => 5 < h_opbase h /\ small n
  | ONegateStmt => 6 < h_opbase h
  | OBasicBlock => 7 < h_opbase h
  | OConstAddPc => 8 < h_opbase h
  | OFixedAdvance n => 9 < h_opbase h /\ 0 <= n < 2 ^ 16
  | OPrologueEnd => 10 < h_opbase h
  | OEpilogueBegin => 11 < h_opbase h
  | OSetIsa n => 12 < h_opbase h /\ small n
  | OSpecial a d => 0 <= a /\ h_lbase h <= d < h_lbase h + h_lrange h /\ (d - h_lbase h) + h_lrange h * a + h_opbase h < 256
  | OEndSequence => True
  | OSetAddress a => num_size asz /\ 0 <= a < 256 ^ Z.of_nat asz
  | ODefineFile name d t n => file_ok (name, (d, t, n)) /\ small (len name + 17)
  | OVendor code l => byte code /\ code <> 1 /\ code <> 2 /\ code <> 3 /\ Forall byte l /\ small (len l + 1)
  end.

Definition enc_program (ops : list line_op) : list Z := concat (enc_op <$> ops).
Definition enc_names (l : list (list Z)) : list Z := concat ((fun n => n ++ [0]) <$> l) ++ [0].
Definition enc_files (l : list (list Z * (Z * Z * Z))) : list Z := concat (enc_file <$> l) ++ [0].

(** The header from the field after its length on. *)
Definition enc_header : list Z :=
  [h_minlen h; h_defstmt h; h_lbase h mod 256; h_lrange h; h_opbase h] ++ h_oplens h ++ enc_names (h_dirs h) ++ enc_files (h_files h).

(** A unit in the 32-bit or in the 64-bit format. *)
Definition enc_tail (wide : bool) (ops : list line_op) : list Z :=
  enc_num o 2 (h_version h) ++ enc_num o (if wide then 8 else 4) (len enc_header) ++ enc_header ++ enc_program ops.
Definition enc_unit (wide : bool) (ops : list line_op) : list Z :=
  (if wide then enc_num o 4 0xffffffff ++ enc_num o 8 (len (enc_tail wide ops)) else enc_num o 4 (len (enc_tail wide ops))) ++ enc_tail wide ops.
End Encoding.

Record header_ok (h : line_header) : Prop := {
  ho_version : 0 <= h_version h < 2 ^ 16;
  ho_minlen : byte (h_minlen h);
  ho_defstmt : byte (h_defstmt h);
  ho_lbase : -128 <= h_lbase h < 128;
  ho_lrange : 0 < h_lrange h < 256;
  ho_opbase : 0 < h_opbase h < 256;
  ho_oplens : len (h_oplens h) = h_opbase h - 1;
  ho_bytes : Forall byte (h_oplens h);
  ho_dirs : Forall (fun n => n <> [] /\ name_ok n) (h_dirs h);
  ho_files : Forall (fun f => f.1 <> [] /\ file_ok f) (h_files h);
}.

(** What the interpreter has of the header. *)
Definition has_header (h : line_header) (li : Dwarf_LineInfo) : Prop :=
  li_minlen li = h_minlen h /\ li_defstmt li = h_defstmt h /\ li_lbase li = h_lbase h /\ li_lrange li = h_lrange h /\ li_opbase li = h_opbase h.

(** ** Lengths *)

(** The size of the fields, and the length of a unit. *)
Definition wide_size (wide : bool) : nat := if wide then 8 else 4.
Definition prefix_size (wide : bool) : Z := if wide then 12 else 4.

Section Lengths.
Context (o : Dwarf_Endianness) (asz : nat) (h : line_header).

Lemma enc_op_pos op : 0 < len (enc_op o asz h op).
Proof. destruct op; cbn [enc_op app length]; unfold enc_extended; cbn [app length]; lia. Qed.

Lemma enc_unit_length wide ops : len (enc_unit o asz h wide ops) = prefix_size wide + len (enc_tail o asz h wide ops).
Proof. unfold enc_unit, prefix_size. rewrite length_app. destruct wide; rewrite ?length_app, !length_enc_num; lia. Qed.

Lemma enc_tail_length wide ops :
  len (enc_tail o asz h wide ops) = 2 + Z.of_nat (wide_size wide) + len (enc_header h) + len (enc_program o asz h ops).
Proof. unfold enc_tail. rewrite !length_app, !length_enc_num. unfold wide_size. lia. Qed.

Lemma enc_header_length : len (enc_header h) = 5 + len (h_oplens h) + len (enc_names (h_dirs h)) + len (enc_files (h_files h)).
Proof. unfold enc_header. rewrite !length_app. cbn [length]. lia. Qed.

Lemma names_length l : (length l < length (enc_names l))%nat.
Proof. unfold enc_names. rewrite length_app. induction l as [|x l IH]; cbn [fmap list_fmap concat length] in *; [lia|]. rewrite !length_app. cbn [length] in *. lia. Qed.

Lemma files_length l : (length l < length (enc_files l))%nat.
Proof.
  unfold enc_files. rewrite length_app. induction l as [|[x [ [d t] n] ] l IH]; cbn [fmap list_fmap concat length enc_file] in *; [lia|].
  rewrite !length_app. cbn [length] in *. lia.
Qed.

Lemma program_length ops : (length ops <= length (enc_program o asz h ops))%nat.
Proof.
  induction ops as [|op ops IH]; [done|]. cbn [enc_program fmap list_fmap concat length] in *. rewrite length_app. pose proof (enc_op_pos op).
  fold (enc_program o asz h ops). lia.
Qed.
End Lengths.

(** ** Reading *)

Section Run.
Context (fuel : nat) (s : dstate) (Hfuel : (5 <= fuel)%nat).
Notation o := (dbg_order (dbg s)).

(** Bytes at a pointer. *)
Notation at_ p l := (here s 0 p l).

Lemma here_pointer data off l : 0 <= data -> data + off + len l < 2 ^ 63 -> here s data off l -> at_ (data + off) l.
Proof. intros Hd Hb (H1 & H2 & H3). split; [lia|]. split; [lia|]. intros i b Hi. by apply H3. Qed.

Lemma at_byte p b l : at_ p (b :: l) -> byte_at p s = Ret b s.
Proof. apply here_byte. Qed.

Lemma at_next p l rest : at_ p (l ++ rest) -> u64 (p + len l) = p + len l /\ at_ (p + len l) rest.
Proof. intros [H1 H2]%here_app. split; [by apply (here_u64 _ _ _ _ H1)|done]. Qed.

Lemma at_succ p b rest : at_ p (b :: rest) -> u64 (p + 1) = p + 1 /\ at_ (p + 1) rest.
Proof. apply (at_next p [b]). Qed.

Lemma decode_uleb128_run p v rest : small v -> at_ p (uleb v ++ rest) ->
  _dwarf_decode_uleb128 fuel p s = Ret (v, p + len (uleb v)) s.
Proof. intros Hv H. exact (read_uleb128_run fuel s 0 p v rest Hfuel Hv H). Qed.

Lemma decode_sleb128_run p v rest : - 2 ^ 27 <= v < 2 ^ 27 -> at_ p (sleb v ++ rest) ->
  _dwarf_decode_sleb128 fuel p s = Ret (v, p + len (sleb v)) s.
Proof. intros Hv H. exact (read_sleb128_run fuel s 0 p v rest Hfuel Hv H). Qed.

Lemma dbg_decode_run p n v rest : num_size n -> 0 <= v < 256 ^ Z.of_nat n -> at_ p (enc_num o n v ++ rest) ->
  dbg_decode p (Z.of_nat n) s = Ret (v, p + Z.of_nat n) s.
Proof. intros Hn Hv H. exact (dbg_read_run s 0 p n v rest Hn Hv H). Qed.

Lemma name_len_run p name rest : name_ok name -> (length name < fuel)%nat -> at_ p (name ++ 0 :: rest) ->
  name_len fuel p s = Ret (len name) s.
Proof.
  intros Hn Hf H. unfold name_len. clear Hfuel.
  cut (forall f l n, name_ok l -> (length l < f)%nat -> at_ (p + n) (l ++ 0 :: rest) ->
    loop f (fun n => let! c := byte_at (p + n) in if nz c then ret (inl (n + 1)) else ret (inr n)) n s = Ret (n + len l) s).
  { intros G. rewrite (G fuel name 0); [done|done|done|by rewrite Z.add_0_r]. }
  clear. intros f l. revert f. induction l as [|c l IH]; intros [|f] n Hl Hf H; try (cbn in Hf; lia); cbn [loop]; rewrite bind_assoc.
  - rewrite (bind_Ret _ _ _ _ _ (at_byte _ _ _ H)). cbn. by rewrite Z.add_0_r.
  - rewrite (bind_Ret _ _ _ _ _ (at_byte _ _ _ H)). apply Forall_cons in Hl as [Hc Hl].
    replace (nz c) with true by (unfold nz; destruct (Z.eqb_spec c 0); [lia|done]). rewrite bind_ret.
    apply at_succ in H as [_ H]. rewrite <- Z.add_assoc in H. rewrite IH by (done || (cbn in Hf; lia)). cbn [length]. f_equal. lia.
Qed.

Lemma add_file_run p f rest : file_ok f -> (length f.1 < fuel)%nat -> at_ p (enc_file f ++ rest) ->
  _dwarf_lineno_add_file fuel p s = Ret (DW_DLE_NONE, p + len (enc_file f)) s.
Proof.
  destruct f as [name [[d t] n]]. intros (Hn & Hd & Ht & Hz) Hf H. unfold enc_file in *. rewrite <- !app_assoc in H.
  unfold _dwarf_lineno_add_file. cbn [app fst] in *. rewrite (bind_Ret _ _ _ _ _ (name_len_run p name _ Hn Hf H)).
  apply at_next in H as [_ H]. apply at_succ in H as [-> H]. rewrite (bind_Ret _ _ _ _ _ (decode_uleb128_run _ _ _ Hd H)).
  apply at_next in H as [_ H]. cbn [snd]. rewrite (bind_Ret _ _ _ _ _ (decode_uleb128_run _ _ _ Ht H)).
  apply at_next in H as [_ H]. cbn [snd]. rewrite (bind_Ret _ _ _ _ _ (decode_uleb128_run _ _ _ Hz H)).
  unfold ret. cbn [snd]. tuple_eq. rewrite !length_app. cbn [length]. rewrite !length_app. lia.
Qed.

(** ** One operation *)

Context (cu : Dwarf_CU) (asz : nat) (Hasz : addr_size cu = Z.of_nat asz) (h : line_header) (Hh : header_ok h).

(** What the round of an operation comes to. *)
Definition op_round (pc : Z) (op : line_op) (p : Z) (r : registers) (li : Dwarf_LineInfo) : lround :=
  let r := op_effect h op r in
  if ends_row op then
    if pc <? address r then inr (DW_DLE_NONE, li) else inl (p, set_flags 0 0 0 r, add_line (row_of r) li)
  else inl (p, r, li).

Lemma special_arith a d : op_ok asz h (OSpecial a d) ->
  let x := (d - h_lbase h) + h_lrange h * a + h_opbase h in
  Z.rem (x - h_opbase h) (h_lrange h) = d - h_lbase h /\ Z.quot (x - h_opbase h) (h_lrange h) = a.
Proof.
 intros (Ha & Hd & Hx). destruct Hh. cbv zeta. rewrite Z.rem_mod_nonneg, Z.quot_div_nonneg by nia.
  replace (d - h_lbase h + h_lrange h * a + h_opbase h - h_opbase h) with (h_lrange h * a + (d - h_lbase h)) by lia.
  split; symmetry; [apply (Z.mod_unique _ _ a)|apply (Z.div_unique _ _ _ (d - h_lbase h))]; lia.
Qed.

(** The opcode of a standard operation. *)
Lemma standard_start pe pc p b l r li : has_header h li -> 0 < b < h_opbase h -> p < pe -> at_ p (b :: l) ->
  lineno_round fuel cu pe pc (p, r, li) s = standard_opcode fuel pc b (p + 1) r li s.
Proof.
  intros (_ & _ & _ & _ & Hb) Hlt Hp H. unfold lineno_round. destruct (Z.ltb_spec p pe); [|lia].
  rewrite (bind_Ret _ _ _ _ _ (at_byte _ _ _ H)). apply at_succ in H as [-> _]. rewrite Hb.
  destruct (Z.eqb_spec b 0), (Z.ltb_spec 0 b), (Z.ltb_spec b (h_opbase h)); (done || lia).
Qed.

(** That of an extended one, at [q] after its length. *)
Lemma extended_start pe pc p b l rest r li : p < pe -> small (len (b :: l)) -> at_ p (enc_extended (b :: l) ++ rest) ->
  exists q, at_ (q + 1) (l ++ rest) /\ q + len (b :: l) = p + len (enc_extended (b :: l)) /\
  lineno_round fuel cu pe pc (p, r, li) s =
  match b with
  | 1 => Ret (inl (q + 1, RESET_REGISTERS li, li)) s
  | 2 => bind (dbg_decode (q + 1) (addr_size cu)) (fun x => ret (inl (snd x, set_address (fst x) r, li))) s
  | 3 => bind (_dwarf_lineno_add_file fuel (q + 1)) (fun x => if negb (fst x =? DW_DLE_NONE) then ret (inr (fst x, li)) else ret (inl (snd x, r, li))) s
  | _ => Ret (inl (q + len (b :: l), r, li)) s
  end.
Proof.
  intros Hp Hs H. unfold enc_extended in *. rewrite <- !app_assoc in H. exists (p + 1 + len (uleb (len (b :: l)))).
  cbn [app] in H. unfold lineno_round. destruct (Z.ltb_spec p pe); [|lia].
  rewrite (bind_Ret _ _ _ _ _ (at_byte _ _ _ H)). apply at_succ in H as [-> H]. cbn beta iota. unfold extended_opcode. change (0 =? 0) with true. cbn beta iota.
  rewrite (bind_Ret _ _ _ _ _ (decode_uleb128_run _ _ _ Hs H)). apply at_next in H as [_ H]. cbn beta iota. 
  rewrite (bind_Ret _ _ _ _ _ (at_byte _ _ _ H)). pose proof (at_succ _ _ _ H) as [-> Hl].
  split; [done|]. split; [rewrite !length_app; cbn [length]; lia|].
  rewrite (app_comm_cons l rest b) in H. apply at_next in H as [-> _].
  by repeat match goal with |- context [match ?x with _ => _ end] => is_var x; destruct x end.
Qed.

(** A row is written, or the program ends. *)
Lemma append_run pc q r li : match APPEND_ROW pc r li with
    | None => ret (inr (DW_DLE_NONE, li))
    | Some li => ret (inl (q, set_flags 0 0 0 r, li))
    end s = Ret (if pc <? address r then inr (DW_DLE_NONE, li) else inl (q, set_flags 0 0 0 r, add_line (row_of r) li) : lround) s.
Proof. unfold APPEND_ROW. by destruct (pc <? address r). Qed.

Lemma guard_lrange_run li : has_header h li -> guard_lrange li s = Ret tt s.
Proof.
  intros (_ & _ & _ & Hr & _). unfold guard_lrange. rewrite Hr. pose proof (ho_lrange h Hh).
  destruct (Z.eqb_spec (h_lrange h) 0); [|done]. lia.
Qed.

Lemma special_run pe pc a d rest p r li : op_ok asz h (OSpecial a d) -> has_header h li -> p < pe -> at_ p (enc_op o asz h (OSpecial a d) ++ rest) ->
  lineno_round fuel cu pe pc (p, r, li) s = Ret (op_round pc (OSpecial a d) (p + 1) r li) s.
Proof.
  intros Hok Hli Hp H. pose proof (special_arith a d Hok) as [Hrem Hquot]. pose proof (guard_lrange_run li Hli) as Hg.
  destruct Hok as (Ha & Hd & _). destruct Hli as (Hmin & _ & Hlb & Hlr & Hob). pose proof (ho_lrange h Hh). pose proof (ho_opbase h Hh).
  cbn [enc_op app] in H. set (b := d - h_lbase h + h_lrange h * a + h_opbase h) in *.
  assert (h_opbase h <= b) by (unfold b; nia).
  unfold lineno_round. destruct (Z.ltb_spec p pe); [|lia]. rewrite (bind_Ret _ _ _ _ _ (at_byte _ _ _ H)). apply at_succ in H as [Hu _].
  rewrite Hob. destruct (Z.eqb_spec b 0), (Z.ltb_spec b (h_opbase h)); try lia. rewrite andb_false_r. unfold special_opcode.
  rewrite (bind_Ret _ _ _ _ _ Hg), append_run, Hu. unfold LINE, ADDRESS. rewrite Hob, Hlr, Hrem, Hquot, Hmin, Hlb.
  by replace (h_lbase h + (d - h_lbase h)) with d by lia.
Qed.

Lemma op_run pe pc op rest p r li : op_ok asz h op -> has_header h li -> (length (enc_op o asz h op) <= fuel)%nat -> p < pe ->
  at_ p (enc_op o asz h op ++ rest) ->
  lineno_round fuel cu pe pc (p, r, li) s = Ret (op_round pc op (p + len (enc_op o asz h op)) r li) s.
Proof.
  intros Hok Hli Hf Hp H. pose proof Hli as (Hmin & Hdef & _ & Hlr & Hob). unfold op_round.
  destruct op; try (by apply (special_run _ _ _ _ rest)); cbn [enc_op app op_ok ends_row op_effect] in *.
  all: try match type of H with at_ _ (?b :: _) =>
      rewrite (standard_start pe pc p b _ r li Hli ltac:(lia) Hp H); cbv beta iota delta [standard_opcode]; apply at_succ in H as [_ H]
    end.
  all: try match type of H with
    | at_ _ (uleb _ ++ _) => rewrite (bind_Ret _ _ _ _ _ (decode_uleb128_run _ _ _ (proj2 Hok) H))
    | at_ _ (sleb _ ++ _) => rewrite (bind_Ret _ _ _ _ _ (decode_sleb128_run _ _ _ (proj2 Hok) H))
    end.
  all: try (cbn [fst snd length]; rewrite ?Nat2Z.inj_succ, ?Hmin; unfold ret; tuple_eq; f_equal; tuple_eq; lia || done).
  - apply append_run.
  - rewrite (bind_Ret _ _ _ _ _ (guard_lrange_run li Hli)). unfold ADDRESS. rewrite Hob, Hlr, Hmin.
    pose proof (ho_lrange h Hh). pose proof (ho_opbase h Hh). by rewrite Z.quot_div_nonneg by lia.
  - rewrite (bind_Ret _ _ _ _ _ (dbg_decode_run (p + 1) 2 n rest ltac:(unfold num_size; tauto) (proj2 Hok) H)).
    cbn [fst snd length]. rewrite (length_enc_num _ 2). unfold ret. tuple_eq. f_equal. tuple_eq. lia.
  - destruct (extended_start pe pc p 1 [] rest r li Hp ltac:(done) H) as (q & _ & <- & ->). unfold RESET_REGISTERS. by rewrite Hdef.
  - destruct Hok as [Hn Ha]. destruct (extended_start pe pc p 2 (enc_num o asz a) rest r li Hp) as (q & Hq & <- & ->); [|done|].
    { unfold small. cbn [length]. rewrite length_enc_num. destruct Hn as [-> | [-> | [-> | ->] ] ]; lia. }
    rewrite Hasz, (bind_Ret _ _ _ _ _ (dbg_decode_run (q + 1) asz a rest Hn Ha Hq)). cbn [fst snd length]. rewrite length_enc_num.
    unfold ret. tuple_eq. f_equal. tuple_eq. lia.
  - destruct Hok as [Hok Hs]. unfold enc_extended in Hf. rewrite !length_app in Hf. cbn [length] in Hf.
    destruct (extended_start pe pc p 3 (enc_file (name, (dir, time, size))) rest r li Hp) as (q & Hq & <- & ->); [|done|].
    { destruct Hok as (_ & H1 & H2 & H3). apply uleb_ok in H1 as (_ & _ & H1), H2 as (_ & _ & H2), H3 as (_ & _ & H3).
      unfold small in *. cbn [length enc_file]. rewrite !length_app. cbn [length]. lia. }
    assert (length name < fuel)%nat as Hn by (cbn [enc_file] in Hf; rewrite !length_app in Hf; cbn [length] in Hf; lia).
    rewrite (bind_Ret _ _ _ _ _ (add_file_run (q + 1) (name, (dir, time, size)) rest Hok Hn Hq)).
    cbn [fst snd length]. unfold ret. tuple_eq. cbn [negb Z.eqb]. tuple_eq. f_equal. tuple_eq. lia.
  - destruct Hok as (Hb & H1 & H2 & H3 & Hl & Hs).
    destruct (extended_start pe pc p code operands rest r li Hp) as (q & _ & <- & ->); [unfold small in *; cbn [length]; lia|done|].
    repeat match goal with |- context [match ?x with _ => _ end] => is_var x; destruct x end; done.
Qed.

(** ** The program *)

Lemma program_run pc ops : forall f p r li, Forall (op_ok asz h) ops -> has_header h li -> (length (enc_program o asz h ops) <= fuel)%nat ->
  (length ops < f)%nat -> at_ p (enc_program o asz h ops) ->
  loop f (lineno_round fuel cu (p + len (enc_program o asz h ops)) pc) (p, r, li) s =
  Ret (DW_DLE_NONE, add_lines li (upto pc (rows h ops r))) s.
Proof.
  induction ops as [|op ops IH]; intros [|f] p r li Hok Hli Hfu Hf H; try lia; cbn [loop].
  { unfold lineno_round. by rewrite Z.add_0_r, Z.ltb_irrefl. }
  apply Forall_cons in Hok as [Hop Hok]. cbn [enc_program concat fmap list_fmap] in *. fold (enc_program o asz h ops) in *. rewrite length_app in *.
  pose proof (enc_op_pos o asz h op). assert (p < p + Z.of_nat (length (enc_op o asz h op) + length (enc_program o asz h ops))) as Hp by lia.
  rewrite (bind_Ret _ _ _ _ _ (op_run _ pc op _ p r li Hop Hli ltac:(lia) Hp H)).
  apply at_next in H as [_ H]. rewrite Nat2Z.inj_add, Z.add_assoc. cbn [length] in Hf.
  unfold op_round. cbn [rows]. destruct (ends_row op); [|apply IH; done || lia]. cbn [upto row_of ln_addr].
  destruct (pc <? address (op_effect h op r)); [done|]. apply IH; done || lia.
Qed.
(** ** The header *)

Lemma read_oplen_run data off opbase l rest : len l = opbase - 1 -> Forall byte l -> here s data off (l ++ rest) ->
  read_oplen data off opbase s = Ret (off + len l, l) s.
Proof.
  intros Hlen Hl H. unfold read_oplen. rewrite <- Hlen. clear Hlen opbase.
  cut (forall i off acc, here s data off (l ++ rest) ->
    foldM (seqZ i (len l)) (off, acc) (fun '(off, l) _ => let! x := dbg_read data off 1 in ret (snd x, l ++ [u8 (fst x)])) s = Ret (off + len l, acc ++ l) s).
  { intros G. by apply G. }
  clear H off. induction Hl as [|b l Hb Hl IH]; intros i off acc H; [cbn; by rewrite app_nil_r, Z.add_0_r|].
  cbn [length]. rewrite Nat2Z.inj_succ, seqZ_cons by lia. cbn [foldM]. rewrite bind_assoc.
  assert (here s data off (enc_num o 1 b ++ (l ++ rest))) as H' by (replace (enc_num o 1 b) with [b]; [done|destruct o; cbn; by rewrite Z.mod_small]).
  rewrite (bind_Ret _ _ _ _ _ (dbg_read_run s data off 1 b _ ltac:(unfold num_size; tauto) Hb H')). rewrite bind_ret.
  cbn [fst snd]. rewrite Z.pred_succ, (Z.mod_small b (2 ^ 8) Hb : u8 b = b). change (Z.of_nat 1) with 1. apply (here_app _ _ _ [b]) in H as [_ H].
  rewrite IH by done. rewrite <- app_assoc. unfold ret. tuple_eq. change (len [b]) with 1. lia.
Qed.

Lemma skip_dirs_run l rest : forall f p n, Forall (fun n => n <> [] /\ name_ok n) l -> (length (enc_names l) <= fuel)%nat -> (length l < f)%nat ->
  0 <= n -> n + len l < 2 ^ 64 -> at_ p (enc_names l ++ rest) ->
  loop f (fun '(p, length) =>
    let! c := byte_at p in
    if nz c then
      let! n := name_len fuel p in
      ret (inl (u64 (p + n + 1), u64 (length + 1)))
    else ret (inr (p, length))) (p, n) s = Ret (p + len (enc_names l) - 1, n + len l) s.
Proof.
  induction l as [|x l IH]; intros [|f] p n Hl Hfu Hf Hn Hn2 H; try lia; cbn [loop]; rewrite bind_assoc.
  { rewrite (bind_Ret _ _ _ _ _ (at_byte _ _ _ H)). unfold enc_names. cbn [fmap list_fmap concat app length nz Z.eqb negb]. rewrite bind_ret. unfold ret. tuple_eq; lia. }
  apply Forall_cons in Hl as [ [Hx Hname] Hl]. unfold enc_names in *. cbn [fmap list_fmap concat] in *. rewrite <- !app_assoc in *. cbn [app] in *.
  assert (exists c y, x = c :: y /\ 0 < c) as (c & y & Hxc & Hc) by (destruct x as [|c y]; [done|]; apply Forall_cons in Hname as [? _]; exists c, y; split; [done|lia]).
  pose proof H as H0. rewrite Hxc in H0. rewrite (bind_Ret _ _ _ _ _ (at_byte _ _ _ H0)). clear H0.
  replace (nz c) with true by (unfold nz; destruct (Z.eqb_spec c 0); [lia|done]). rewrite bind_assoc.
  rewrite !length_app in *. cbn [length] in *.
  rewrite (bind_Ret _ _ _ _ _ (name_len_run p x _ Hname ltac:(lia) H)), bind_ret. apply at_next in H as [_ H]. apply at_succ in H as [-> H].
  rewrite length_app in *. cbn [length] in *. rewrite u64_small by lia. rewrite IH by (done || lia). tuple_eq; lia.
Qed.

Lemma skip_files_run l rest : forall f p, Forall (fun f => f.1 <> [] /\ file_ok f) l -> (length (enc_files l) <= fuel)%nat -> (length l < f)%nat ->
  at_ p (enc_files l ++ rest) ->
  loop f (fun p =>
    let! c := byte_at p in
    if nz c then
      let! x := _dwarf_lineno_add_file fuel p in
      ret (inl (snd x))
    else ret (inr p)) p s = Ret (p + len (enc_files l) - 1) s.
Proof.
  induction l as [|x l IH]; intros [|f] p Hl Hfu Hf H; try lia; cbn [loop]; rewrite bind_assoc.
  { rewrite (bind_Ret _ _ _ _ _ (at_byte _ _ _ H)). unfold enc_files. cbn [fmap list_fmap concat app length nz Z.eqb negb]. rewrite bind_ret. unfold ret. tuple_eq; lia. }
  apply Forall_cons in Hl as [ [Hx Hfile] Hl]. unfold enc_files in *. cbn [fmap list_fmap concat] in *. rewrite <- !app_assoc in *.
  assert (exists c y, enc_file x = c :: y /\ 0 < c /\ (length x.1 < length (enc_file x))%nat) as (c & y & Hxc & Hc & Hlen).
  { destruct x as [ [|c y] [ [d t] n] ]; [done|]. destruct Hfile as [ [? _]%Forall_cons _]. cbn [enc_file app fst]. eexists c, _. split; [done|].
    split; [lia|]. cbn [length]. rewrite !length_app. cbn [length]. lia. }
  pose proof H as H0. rewrite Hxc in H0. cbn [app] in H0. rewrite (bind_Ret _ _ _ _ _ (at_byte _ _ _ H0)). clear H0.
  replace (nz c) with true by (unfold nz; destruct (Z.eqb_spec c 0); [lia|done]). rewrite bind_assoc.
  rewrite !length_app in *. cbn [length] in *.
  rewrite (bind_Ret _ _ _ _ _ (add_file_run p x _ Hfile ltac:(lia) H)), bind_ret. apply at_next in H as [_ H]. cbn [snd].
  rewrite IH by (done || lia). tuple_eq; lia.
Qed.
Lemma read_byte_run data off b rest : byte b -> here s data off (b :: rest) ->
  dbg_read data off 1 s = Ret (b, off + 1) s /\ here s data (off + 1) rest.
Proof.
  intros Hb H. split; [|by apply here_cons in H as [_ H]]. apply (dbg_read_run s data off 1 b rest); [unfold num_size; tauto|done|].
  replace (enc_num o 1 b) with [b]; [done|]. destruct o; cbn; by rewrite Z.mod_small.
Qed.

Lemma read_num_run data off n v rest : num_size n -> 0 <= v < 256 ^ Z.of_nat n -> here s data off (enc_num o n v ++ rest) ->
  dbg_read data off (Z.of_nat n) s = Ret (v, off + Z.of_nat n) s /\ here s data (off + Z.of_nat n) rest.
Proof.
  intros Hn Hv H. split; [by apply (dbg_read_run s data off n v rest)|]. apply here_app in H as [_ H]. by rewrite length_enc_num in H.
Qed.

Lemma read_length_run data off wide ops : len (enc_tail o asz h wide ops) < 2 ^ 31 -> here s data off (enc_unit o asz h wide ops) ->
  read_length data off s = Ret (len (enc_tail o asz h wide ops), off + prefix_size wide, Z.of_nat (wide_size wide)) s /\
  here s data (off + prefix_size wide) (enc_tail o asz h wide ops).
Proof.
  unfold enc_unit, read_length. generalize (enc_tail o asz h wide ops). intros l Hl H. destruct wide.
  - rewrite <- app_assoc in H. apply (read_num_run data off 4 0xffffffff) in H as [H1 H]; [|unfold num_size; tauto|done].
    rewrite (bind_Ret _ _ _ _ _ H1). apply (read_num_run data _ 8) in H as [H2 H]; [|unfold num_size; tauto|lia].
    cbn [fst snd]. change (4294967295 =? 0xffffffff) with true. cbn beta iota. rewrite (bind_Ret _ _ _ _ _ H2). unfold prefix_size, wide_size.
    replace (off + 12) with (off + Z.of_nat 4 + Z.of_nat 8) by lia. done.
  - apply (read_num_run data off 4) in H as [H1 H]; [|unfold num_size; tauto|lia]. rewrite (bind_Ret _ _ _ _ _ H1). cbn [fst snd].
    destruct (Z.eqb_spec (len l) 0xffffffff); [lia|done].
Qed.

Lemma read_fields_run data off wide length rest li : len (enc_header h) < 2 ^ 31 ->
  here s data off (enc_num o 2 (h_version h) ++ enc_num o (wide_size wide) (len (enc_header h)) ++ enc_header h ++ rest) ->
  let hdroff := off + 2 + Z.of_nat (wide_size wide) in
  read_fields data off length (Z.of_nat (wide_size wide)) li s =
    Ret (mkLineInfo length (h_version h) (len (enc_header h)) (h_minlen h) (h_defstmt h) (h_lbase h) (h_lrange h) (h_opbase h)
           (li_oplen li) (li_inclen li) (li_line li) (li_lnlen li), hdroff, hdroff + 5) s /\
  here s data (hdroff + 5) (h_oplens h ++ enc_names (h_dirs h) ++ enc_files (h_files h) ++ rest) /\
  here s data hdroff (enc_header h ++ rest).
Proof.
  intros Hl H. destruct Hh as [H1 H2 H3 H4 H5 H6 _ _ _ _]. cbv zeta. unfold read_fields. assert (len (enc_header h) < 256 ^ Z.of_nat (wide_size wide)) by (destruct wide; cbn [wide_size]; lia).
  apply (read_num_run data off 2) in H as [E H]; [|unfold num_size; tauto|done]. rewrite (bind_Ret _ _ _ _ _ E). clear E. cbn [fst snd].
  apply (read_num_run data _ (wide_size wide)) in H as [E H]; [|unfold num_size; destruct wide; cbn; tauto|lia].
  rewrite (bind_Ret _ _ _ _ _ E). clear E. cbn [fst snd]. change (Z.of_nat 2) with 2 in *. set (hdroff := off + 2 + _) in *.
  pose proof H as Hhdr. unfold enc_header in H. rewrite <- !app_assoc in H. cbn [app] in H. set (l := h_oplens h ++ _) in *.
  apply read_byte_run in H as [E H]; [|done]. rewrite (bind_Ret _ _ _ _ _ E). clear E. cbn [fst snd].
  apply read_byte_run in H as [E H]; [|done]. rewrite (bind_Ret _ _ _ _ _ E). clear E. cbn [fst snd].
  apply read_byte_run in H as [E H]; [|apply Z.mod_pos_bound; lia]. rewrite (bind_Ret _ _ _ _ _ E). clear E. cbn [fst snd].
  apply read_byte_run in H as [E H]; [|unfold byte; lia]. rewrite (bind_Ret _ _ _ _ _ E). clear E. cbn [fst snd].
  apply read_byte_run in H as [E H]; [|unfold byte; lia]. rewrite (bind_Ret _ _ _ _ _ E). clear E. cbn [fst snd].
  replace (hdroff + 1 + 1 + 1 + 1 + 1) with (hdroff + 5) in * by lia. split; [|done].
  unfold u8, u16, s8, byte in *.
  assert ((h_lbase h mod 256 + 2 ^ 7) mod 2 ^ 8 - 2 ^ 7 = h_lbase h) as -> by (Z.to_euclidean_division_equations; lia).
  by rewrite (Z.mod_small (h_version h)), (Z.mod_small (h_minlen h)), (Z.mod_small (h_defstmt h)), (Z.mod_small (h_lrange h)), (Z.mod_small (h_opbase h)) by lia.
Qed.

(** A section that holds the unit at [off]. *)
Record lines_at (ds : Dwarf_Section) (off : Z) (wide : bool) (ops : list line_op) : Prop := {
  la_section : _dwarf_find_section ".debug_line" s = Ret (Some ds) s;
  la_data : 0 <= ds_data ds /\ ds_data ds + ds_size ds < 2 ^ 63;
  la_size : ds_size ds < 2 ^ 31;
  la_bytes : here s (ds_data ds) off (enc_unit o asz h wide ops);
  la_fits : off + len (enc_unit o asz h wide ops) <= ds_size ds;
  la_fuel : (length (enc_unit o asz h wide ops) <= fuel)%nat;
}.

Lemma init_run ds off wide ops pc : lines_at ds off wide ops -> Forall (op_ok asz h) ops ->
  exists li, li_line li = no_line /\
  _dwarf_lineno_init fuel cu off no_lineinfo pc s = Ret (DW_DLE_NONE, add_lines li (upto pc (rows h ops (initial h)))) s.
Proof.
  intros [Hsec Hdata Hsize Hbytes Hfit Hfu] Hops. pose proof (here_range _ _ _ _ Hbytes) as [Hoff _].
  pose proof (enc_unit_length o asz h wide ops) as Hlen. pose proof (enc_tail_length o asz h wide ops) as Htail. pose proof (enc_header_length h) as Hhl.
  assert (0 < prefix_size wide) as Hpre by (by destruct wide). pose proof (ho_oplens h Hh) as Hopl.
  unfold _dwarf_lineno_init, _dwarf_find_section_enhanced. cbn [ds_name]. rewrite bind_assoc, (bind_Ret _ _ _ _ _ Hsec), bind_ret. cbn [ds_data ds_size].
  destruct (read_length_run (ds_data ds) off wide ops) as [E H]; [lia|done|]. rewrite (bind_Ret _ _ _ _ _ E). clear E. cbn beta iota.
  set (start := off + prefix_size wide) in *. set (tail := enc_tail o asz h wide ops) in *. rewrite u64_small by lia.
  destruct (Z.ltb_spec (ds_size ds - start) (len tail)); [lia|]. cbv zeta. rewrite (u64_small (start + len tail)) by lia.
  destruct (read_fields_run (ds_data ds) start wide (len tail) (enc_program o asz h ops) no_lineinfo) as (E & Ho & Hhdr); [lia|done|].
  rewrite (bind_Ret _ _ _ _ _ E). clear E H. cbn beta iota. cbn [li_hdrlen li_opbase]. set (hdroff := start + 2 + Z.of_nat (wide_size wide)) in *.
  rewrite s32_small, s32_small by (rewrite ?s32_small; lia). destruct (Z.ltb_spec (len (enc_header h) - 5) (h_opbase h - 1)); [lia|].
  rewrite (bind_Ret _ _ _ _ _ (read_oplen_run _ _ _ _ _ Hopl (ho_bytes h Hh) Ho)). cbn [fst snd].
  apply here_app in Ho as [_ Ho]. apply here_pointer in Ho; [|lia|rewrite !length_app; lia]. rewrite u64_small by lia.
  set (p := ds_data ds + (hdroff + 5 + len (h_oplens h))) in *. pose proof (names_length (h_dirs h)). pose proof (files_length (h_files h)).
  unfold skip_dirs. rewrite (bind_Ret _ _ _ _ _ (skip_dirs_run _ _ fuel p 0 (ho_dirs h Hh) ltac:(lia) ltac:(lia) ltac:(lia) ltac:(lia) Ho)).
  apply at_next in Ho as [_ Ho]. cbn beta iota. rewrite s64_small, s32_small by lia.
  destruct (Z.ltb_spec (ds_size ds) (p + len (enc_names (h_dirs h)) - 1 - ds_data ds)); [lia|].
  rewrite Z.sub_add, u64_small by lia. unfold skip_files. rewrite (bind_Ret _ _ _ _ _ (skip_files_run _ _ fuel _ (ho_files h Hh) ltac:(lia) ltac:(lia) Ho)).
  apply at_next in Ho as [_ Ho]. rewrite Z.sub_add, (u64_small (_ + _)) by lia. set (q := p + _ + _) in *.
  rewrite u64_small by lia. cbn [li_hdrlen set_inclen set_oplen]. destruct (Z.eqb_spec (q - ds_data ds - hdroff) (len (enc_header h))); [|lia]. cbn [negb].
  eexists. split; [|unfold _dwarf_lineno_run_program].
  2: { replace (ds_data ds + (start + len tail)) with (q + len (enc_program o asz h ops)) by lia. rewrite u64_small by lia.
    pose proof (program_length o asz h ops). apply program_run; try done; lia. }
  done.
Qed.
End Run.

(** ** The row of an address *)

(** The last row at or before [pc]. *)
Definition covering (pc : Z) (l : list Dwarf_Line) : Dwarf_Line := default no_line (last (filter (fun ln => ln_addr ln <= pc) l)).

(** Of a table with ascending addresses [dwarf_srclines] gives the last row at or before an address. *)
Lemma srclines_run fuel s cu asz h ds die at_ wide ops linebuf pc :
  addr_size cu = Z.of_nat asz -> header_ok h -> Forall (op_ok asz h) ops -> ascending (rows h ops (initial h)) ->
  _dwarf_attr_find die 0x10 = Some at_ -> lines_at fuel s asz h ds (at_u0 at_) wide ops ->
  dwarf_srclines fuel cu die linebuf pc s = Ret (DW_DLV_OK, covering pc (rows h ops (initial h))) s.
Proof.
  intros Hasz Hh Hops Hasc Hat Hl. unfold dwarf_srclines. rewrite Hat.
  assert (5 <= fuel)%nat as Hfuel.
  { pose proof (la_fuel _ _ _ _ _ _ _ _ Hl). pose proof (enc_unit_length (dbg_order (dbg s)) asz h wide ops). pose proof (enc_tail_length (dbg_order (dbg s)) asz h wide ops).
    pose proof (enc_header_length h). destruct wide; cbn [prefix_size wide_size] in *; lia. }
  destruct (init_run fuel s Hfuel cu asz Hasz h Hh ds _ wide ops pc Hl Hops) as (li & Hli & E). rewrite (bind_Ret _ _ _ _ _ E). cbn beta iota. cbn [negb Z.eqb].
  unfold ret. by rewrite add_lines_line, Hli, upto_ascending by done.
Qed.

(** ** Examples *)

(** The header of a C compiler, and a function of three lines. *)
Definition demo_header : line_header :=
  mkHeader 2 1 1 (-5) 14 13 [0; 1; 1; 1; 1; 0; 0; 0; 1; 0; 0; 1] [chars "kern"] [(chars "init.c", (1, 0, 0))].
Definition demo_ops : list line_op :=
  [OSetAddress 0x800420; OAdvanceLine 29; OCopy; OSpecial 4 1; OAdvancePc 20; OSpecial 0 3; OConstAddPc; OSpecial 2 (-2); OFixedAdvance 8; OEndSequence].

Definition lines_state (off : Z) (l : list Z) : dstate :=
  mkDstate (fun a => default 0 (l !! Z.to_nat (a - (4096 + off)))) [mkSection ".debug_line" 4096 4096 (off + len l)]
    (mkDebug 0 0 0 DW_OBJECT_LSB 8 66 1035 1436 1035 1034).
Definition line_cu : Dwarf_CU := mkCU 100 2 8 0 4 4 100 0 0.
Definition line_die (off : Z) : Dwarf_Die := mkDie 0 0 1 0x11 (mkAbbrev 1 0x11 0 0 0 []) 0 [mkAttribute 0x10 0x06 0 off 0 0 0].

(** What is found of a program for an address. *)
Definition lookup_line (h : line_header) (bytes : list Z) (pc : Z) : option (Z * Z) :=
  let hdr := enc_num DW_OBJECT_LSB 2 (h_version h) ++ enc_num DW_OBJECT_LSB 4 (len (enc_header h)) ++ enc_header h ++ bytes in
  match dwarf_srclines 200 line_cu (line_die 0) no_line pc (lines_state 0 (enc_num DW_OBJECT_LSB 4 (len hdr) ++ hdr)) with
  | Ret (_, ln) _ => Some (ln_addr ln, ln_lineno ln)
  | _ => None
  end.

Example lookup_line_demo :
  lookup_line demo_header (enc_program DW_OBJECT_LSB 8 demo_header demo_ops) 0x800430 = Some (0x800424, 31).
Proof. by vm_compute. Qed.

(** The end of a sequence makes no row: an address past it has the line of the
    last row.  A sequence at a lower address is not reached. *)
Example sequence_end_ignored :
  lookup_line demo_header (enc_program DW_OBJECT_LSB 8 demo_header demo_ops) 0x900000 = Some (0x80044b, 32) /\
  lookup_line demo_header (enc_program DW_OBJECT_LSB 8 demo_header (demo_ops ++ [OSetAddress 0x1000; OCopy; OEndSequence])) 0x1000 = Some (0, 0).
Proof. by vm_compute. Qed.

(** The operands of a standard opcode that is not known run as opcodes: here the
    opcode 13 with the operand 1, which is [DW_LNS_copy]. *)
Example operands_executed :
  let h := mkHeader 2 1 1 (-5) 14 14 [0; 1; 1; 1; 1; 0; 0; 0; 1; 0; 0; 1; 1] [] [] in
  lookup_line h [13; 1] 0 = Some (0, 1) /\ rows h [] (initial h) = [].
Proof. by vm_compute. Qed.

(** A header with a line range of 0 divides by it. *)
Example lrange_zero : lookup_line (mkHeader 2 1 1 (-5) 0 13 [0; 1; 1; 1; 1; 0; 0; 0; 1; 0; 0; 1] [] []) [20] 0 = None.
Proof. by vm_compute. Qed.
