(* ===== verification/Kdebug.v ===== *)
(** Names and lines for addresses of the kernel: kern/kdebug.c, with
    [find_debug_sections] of kern/elf_rw.c.

    The pointers of an entry to its unit and to the entry of its unit are
    arguments.  [ab0] and [die0] are what variables hold that the source does not
    initialise. *)

From S2P Require Import Prelude Kernel Dwarf DwarfLine.

(** ** Sections of a program *)

(** A number of [n] bytes in the order of the processor. *)
Definition load_num (a n : Z) : D Z := gets (fun s => default 0 (lsb_value (fun i => dmem s (u64 (a + i))) n)).

(** [!strcmp(p, name)]. *)
Definition name_is (p : Z) (name : string) : D bool :=
  gets (fun s => bool_decide (Forall (fun '(i, c) => dmem s (u64 (p + i)) = c)
                                (zip (seqZ 0 (Z.of_nat (length (chars name)) + 1)) (chars name ++ [0])))).

(** The entry of [section_info] with this name. *)
Definition set_section (name : string) (data size : Z) : D unit :=
  modify (fun s => mkDstate (dmem s)
    ((fun d => if decide (ds_name d = name) then mkSection name data data size else d) <$> section_info s) (dbg s)).

(** What a section header [sh] with the name at [name] says; the new [debug_address]. *)
Definition note_section (sh name debug_address : Z) : D Z :=
  let! addr := load_num (sh + 16) 8 in
  let! size := load_num (sh + 32) 8 in
  let next := u64 (debug_address + size) in
  let! b := name_is name ".debug_info" in
  if b : bool then do! set_section ".debug_info" debug_address size ;; ret next
  else
    let! b := name_is name ".debug_abbrev" in
    if b : bool then do! set_section ".debug_abbrev" debug_address size ;; ret next
    else
      let! b := name_is name ".debug_line" in
      if b : bool then do! set_section ".debug_line" debug_address size ;; ret next
      else
        let! b := name_is name ".eh_frame" in
        if b : bool then do! set_section ".eh_frame" addr size ;; ret next
        else
          let! b := name_is name ".debug_str" in
          if b : bool then do! set_section ".debug_str" debug_address size ;; ret next
          else ret debug_address.

Definition find_debug_sections (elf : Z) : D unit :=
  let! shoff := load_num (elf + 40) 8 in
  let! shnum := load_num (elf + 60) 2 in
  let! shstrndx := load_num (elf + 62) 2 in
  let sh := elf + shoff in
  let! _ := foldM (seqZ 0 shnum) PTSIZE (* USTABDATA *) (fun debug_address i =>
    let! stroff := load_num (sh + 64 * shstrndx + 24) 8 in
    let! name := load_num (sh + 64 * i) 4 in
    note_section (sh + 64 * i) (elf + stroff + name) debug_address) in
  ret tt.

(** ** Functions *)

(** [None] is the string "<unknown>".  [size_fn_arg] has the sizes written so far. *)
Record Ripdebuginfo : Type := mkRip {
  rip_file : option Z;
  rip_line : Z;
  rip_fn_name : option Z;
  rip_fn_namelen : Z;
  rip_fn_addr : Z;
  size_fn_arg : list Z;
}.
Definition rip_fn_narg (info : Ripdebuginfo) : Z := Z.of_nat (length (size_fn_arg info)).

Definition add_arg (size : Z) (info : Ripdebuginfo) : D Ripdebuginfo :=
  if 10 <=? rip_fn_narg info then panic "write past the end of size_fn_arg"
  else ret (mkRip (rip_file info) (rip_line info) (rip_fn_name info) (rip_fn_namelen info) (rip_fn_addr info) (size_fn_arg info ++ [s32 size])).

Section Lookup.
Context (fuel : nat) (ab0 : Dwarf_Abbrev) (die0 : Dwarf_Die).

(** The label [try_again]: the types of a parameter up to one with a size; [ret_val]. *)
Definition first_size (cu : Dwarf_CU) (attr : option Dwarf_Attribute) (sib : Dwarf_Die) (ret_val : Z) : D Z :=
  loop fuel (fun '(attr, sib) =>
    match attr with
    | None => ret (inr ret_val)
    | Some attr =>
        let! x := dwarf_offdie fuel ab0 (u64 (cu_offset cu + at_u0 attr)) sib cu in
        let sib := snd x in
        match _dwarf_attr_find sib 0x0b (* DW_AT_byte_size *) with
        | Some attr => ret (inr (at_u0 attr))
        | None => ret (inl (_dwarf_attr_find sib 0x49 (* DW_AT_type *), sib))
        end
    end) (attr, sib).

(** The size of another parameter; [sib] is not read after this. *)
Definition next_size (cu : Dwarf_CU) (attr : option Dwarf_Attribute) (sib : Dwarf_Die) (ret_val : Z) : D Z :=
  match attr with
  | None => ret ret_val
  | Some attr =>
      let! x := dwarf_offdie fuel ab0 (u64 (cu_offset cu + at_u0 attr)) sib cu in
      ret (match _dwarf_attr_find (snd x) 0x0b with Some attr => at_u0 attr | None => ret_val end)
  end.

(** The parameters after the first one, which is [sib]. *)
Definition other_args (cu : Dwarf_CU) (sib : Dwarf_Die) (ret_val : Z) (info : Ripdebuginfo) : D Ripdebuginfo :=
  loop fuel (fun '(sib, ret_, ret_val, info) =>
    let! x := dwarf_siblingof fuel ab0 (Some sib) ret_ cu in
    let '(r, ret_) := x in
    if negb (r =? DW_DLV_OK) then ret (inr info)
    else if negb (die_tag ret_ =? 0x05 (* DW_TAG_formal_parameter *)) then ret (inr info)
    else
      let! v := next_size cu (_dwarf_attr_find ret_ 0x49) sib ret_val in
      let! info := add_arg v info in
      ret (inl (ret_, ret_, v, info))) (sib, sib, ret_val, info).

(** The result and [*info]; [cudie] is [die->cu_die]. *)
Definition list_func_die (info : Ripdebuginfo) (cu : Dwarf_CU) (cudie die : Dwarf_Die) (addr : Z) : D (Z * Ripdebuginfo) :=
  if negb (die_tag die =? 0x2e (* DW_TAG_subprogram *)) then ret (0, info)
  else
    match _dwarf_attr_find die 0x11 (* DW_AT_low_pc *), _dwarf_attr_find die 0x12 (* DW_AT_high_pc *) with
    | Some low, Some high =>
        if (at_u0 low <? addr) && (addr <? at_u0 high) then
          let! n := name_len fuel (die_name die) in
          let! x := dwarf_srclines fuel cu cudie no_line addr in
          let info := mkRip (Some (die_name cudie)) (s32 (ln_lineno (snd x))) (Some (die_name die)) n (at_u0 low) [] in
          let! x := dwarf_child fuel ab0 cu die die0 in
          let '(r, ret_) := x in
          if r =? DW_DLE_NO_ENTRY then ret (1, info)
          else if negb (die_tag ret_ =? 0x05) then ret (1, info)
          else
            let! v := first_size cu (_dwarf_attr_find ret_ 0x49) die 8 in
            let! info := add_arg v info in
            let! info := other_args cu ret_ v info in
            ret (1, info)
        else ret (0, info)
    | _, _ => ret (0, info)
    end.

(** The entries of a unit from [die] on: whether one was found, [*info] and [die2]. *)
Definition search_unit (cu : Dwarf_CU) (cudie die die2 : Dwarf_Die) (addr : Z) (info : Ripdebuginfo) : D (bool * Ripdebuginfo * Dwarf_Die * Dwarf_Die) :=
  loop fuel (fun '(die, die2, info) =>
    let! x := list_func_die info cu cudie die addr in
    let '(r, info) := x in
    if nz r then ret (inr (true, info, die, die2))
    else
      let! x := dwarf_siblingof fuel ab0 (Some die) die2 cu in
      let '(r, die2) := x in
      if r <? 0 then ret (inr (false, info, die, die2)) else ret (inl (die2, die2, info))) (die, die2, info).

Definition set_dbg_info (data size : Z) (d : Dwarf_Debug) : Dwarf_Debug :=
  mkDebug (curr_off_dbginfo d) data size (dbg_order d) (dbg_pointer_size d) (dbg_frame_rule_table_size d)
    (dbg_frame_rule_initial_value d) (dbg_frame_cfa_value d) (dbg_frame_same_value d) (dbg_frame_undefined_value d).

(** The units: the result and [*info]. *)
Definition search_units (addr : Z) (info : Ripdebuginfo) : D (Z * Ripdebuginfo) :=
  loop fuel (fun '(cudie, die, die2, info) =>
    let! x := _get_next_cu in
    match x with
    | (0, Some cu) =>
        let! x := dwarf_siblingof fuel ab0 None cudie cu in
        let '(r, cudie) := x in
        if r =? DW_DLE_NO_ENTRY then ret (inl (cudie, die, die2, info))
        else
          let! x := dwarf_child fuel ab0 cu cudie die in
          let '(r, die) := x in
          if r =? DW_DLE_NO_ENTRY then ret (inl (cudie, die, die2, info))
          else
            let! x := search_unit cu cudie die die2 addr info in
            let '(found, info, die, die2) := x in
            if found : bool then ret (inr (0, info)) else ret (inl (cudie, die, die2, info))
    | _ => ret (inr (-1, info))
    end) (die0, die0, die0, info).

(** [env] and [elf] are [curenv] and [curenv->elf]; the static variable [lastenv]
    is an argument and a part of the result, with the result and [*info]. *)
Definition debuginfo_rip (env elf lastenv addr : Z) : D (Z * Z * Ripdebuginfo) :=
  let info := mkRip None 0 None 9 addr [] in
  let! x := (if ULIM <=? addr then ret (u64 (0x10000 + KERNBASE), lastenv)
             else if env =? 0 then panic "null pointer dereference"
             else
               do! (if negb (env =? lastenv) then find_debug_sections elf else ret tt) ;;
               ret (elf, env)) in
  let '(elf, lastenv) := x in
  do! _dwarf_init elf ;;
  let! sect := _dwarf_find_section ".debug_info" in
  match sect with
  | None => panic "null pointer dereference"
  | Some sect =>
      do! modify (fun s => set_dbg (set_dbg_info (ds_data sect) (ds_size sect) (dbg s)) s) ;;
      if ds_size sect =? 0 then panic "assertion failed: dbg->dbg_info_size"
      else
        let! x := search_units addr info in
        ret (fst x, lastenv, snd x)
  end.
End Lookup.
