(* ===== verification/KdebugProps.v ===== *)
(** What the kernel says of an address: the function around it, its file and the
    line of the row that covers it. *)

From S2P Require Import Prelude Kernel Dwarf DwarfProps DwarfLine DwarfLineProps Kdebug.

Section Function.
Context (fuel : nat) (ab0 : Dwarf_Abbrev) (die0 : Dwarf_Die) (s : dstate) (cu : Dwarf_CU) (info str : Dwarf_Section) (t : list abbrev).
Context (U : unit_ok fuel s cu info str t).
Notation entry_enc := (entry_enc fuel s cu info str t).
Notation reads_at := (reads_at fuel s cu info str t).

(** ** Parameters *)

(** The number in the first attribute of kind [k]. *)
Definition attr_num (ats : list Dwarf_Attribute) (k : Z) : option Z := at_u0 ∘ snd <$> list_find (fun a => at_attrib a = k) ats.

(** The entry at [off] has the attributes [ats]. *)
Definition type_at (off : Z) (ats : list Dwarf_Attribute) : Prop :=
  off < cu_next_offset cu /\ exists bs o a more, here s (ds_data info) off (bs ++ more) /\ entry_enc off bs o a ats.

(** The offset of the type a DW_AT_type attribute refers to. *)
Definition type_off (ty : Z) : Z := u64 (cu_offset cu + ty).

(** The size of a variable with the attributes [ats]: that of the first type with a
    DW_AT_byte_size on the way through its types, [n] steps away, and 8 when the way
    ends before. *)
Inductive type_size : nat -> list Dwarf_Attribute -> Z -> Prop :=
| ts_none ats : attr_num ats 0x49 = None -> type_size 0 ats 8
| ts_size ats ty ats' z : attr_num ats 0x49 = Some ty -> type_at (type_off ty) ats' -> attr_num ats' 0x0b = Some z -> type_size 0 ats z
| ts_type n ats ty ats' z : attr_num ats 0x49 = Some ty -> type_at (type_off ty) ats' -> attr_num ats' 0x0b = None ->
    type_size n ats' z -> type_size (S n) ats z.

(** What the kernel takes for the size of a parameter after one of size [z]: the size
    of its type, but the previous size when its type has none itself. *)
Inductive later_size (z : Z) (ats : list Dwarf_Attribute) : Z -> Prop :=
| ls_none : attr_num ats 0x49 = None -> later_size z ats z
| ls_type ty ats' : attr_num ats 0x49 = Some ty -> type_at (type_off ty) ats' -> later_size z ats (default z (attr_num ats' 0x0b)).

Inductive later_sizes : Z -> list (list Dwarf_Attribute) -> list Z -> Prop :=
| lss_nil z : later_sizes z [] []
| lss_cons z ats l z' zs : later_size z ats z' -> later_sizes z' l zs -> later_sizes z (ats :: l) (z' :: zs).

(** The sizes the kernel reports for the parameters with the attributes [l]. *)
Inductive param_sizes : list (list Dwarf_Attribute) -> list Z -> Prop :=
| ps_nil : param_sizes [] []
| ps_cons n ats l z zs : (n < fuel)%nat -> type_size n ats z -> later_sizes z l zs -> param_sizes (ats :: l) (z :: zs).

(** The parameters among the entries from [off] on: entries without children up to
    the first that is no parameter, or up to the end of the list. *)
Inductive params : Z -> list (list Dwarf_Attribute) -> Prop :=
| pa_end off : (forall rd, exists x, reads_at off rd x /\ (fst x <> DW_DLV_OK \/ die_tag (snd x) <> 0x05)) -> params off []
| pa_param off bs o a ats more l : here s (ds_data info) off (bs ++ more) -> off < cu_next_offset cu -> entry_enc off bs o a ats ->
    a_tag a = 0x05 -> a_children a = false -> params (off + len bs) l -> params off (ats :: l).

Lemma attr_num_find die ats k : die_attr die = ats -> at_u0 <$> _dwarf_attr_find die k = attr_num ats k.
Proof. intros <-. unfold _dwarf_attr_find, attr_num. by rewrite <- option_fmap_compose. Qed.

Lemma attr_num_Some die ats k v : die_attr die = ats -> attr_num ats k = Some v -> exists a, _dwarf_attr_find die k = Some a /\ at_u0 a = v.
Proof. intros Hd H. rewrite <- (attr_num_find die ats k Hd) in H. apply fmap_Some in H as (a & Ha & ->). by exists a. Qed.

Lemma attr_num_None die ats k : die_attr die = ats -> attr_num ats k = None -> _dwarf_attr_find die k = None.
Proof. intros Hd H. rewrite <- (attr_num_find die ats k Hd) in H. by apply fmap_None in H. Qed.

Lemma offdie_type ty rd ats : type_at (type_off ty) ats ->
  exists r x, dwarf_offdie fuel ab0 (type_off ty) rd cu s = Ret (r, x) s /\ die_attr x = ats.
Proof using U.
  intros (Ho & bs & o & a & more & Hh & He).
  destruct (offdie_reads fuel s cu info str t U ab0 (type_off ty) rd _ Ho (ra_entry _ _ _ _ _ _ _ rd bs o a ats more Hh Ho He)) as (r & Hr).
  by eexists r, _.
Qed.

Lemma first_size_run n ats z : type_size n ats z -> forall sib d f, (n < f)%nat -> die_attr d = ats ->
  loop f (fun '(attr, sib) =>
    match attr with
    | None => ret (inr 8)
    | Some attr =>
        let! x := dwarf_offdie fuel ab0 (u64 (cu_offset cu + at_u0 attr)) sib cu in
        let sib := snd x in
        match _dwarf_attr_find sib 0x0b with
        | Some attr => ret (inr (at_u0 attr))
        | None => ret (inl (_dwarf_attr_find sib 0x49, sib))
        end
    end) (_dwarf_attr_find d 0x49, sib) s = Ret z s.
Proof using U.
  induction 1 as [ats Hn|ats ty ats' z Hty Hat Hz|n ats ty ats' z Hty Hat Hz Hts IH]; intros sib d f Hf Hd; (destruct f as [|f]; [lia|]); cbn [loop].
  - by rewrite (attr_num_None d ats _ Hd Hn).
  - destruct (attr_num_Some d ats _ _ Hd Hty) as (a & -> & <-). destruct (offdie_type (at_u0 a) sib ats' Hat) as (r & x & Hx & Hd').
    rewrite bind_assoc, (bind_Ret _ _ _ _ _ Hx). cbn [snd]. by destruct (attr_num_Some x ats' _ _ Hd' Hz) as (b & -> & <-).
  - destruct (attr_num_Some d ats _ _ Hd Hty) as (a & -> & <-). destruct (offdie_type (at_u0 a) sib ats' Hat) as (r & x & Hx & Hd').
    rewrite bind_assoc, (bind_Ret _ _ _ _ _ Hx). cbn [snd]. rewrite (attr_num_None x ats' _ Hd' Hz). by apply IH; [lia|].
Qed.

Lemma next_size_run z ats z' d sib : later_size z ats z' -> die_attr d = ats -> next_size fuel ab0 cu (_dwarf_attr_find d 0x49) sib z s = Ret z' s.
Proof using U.
  intros [Hn|ty ats' Hty Hat] Hd; unfold next_size.
  - by rewrite (attr_num_None d ats _ Hd Hn).
  - destruct (attr_num_Some d ats _ _ Hd Hty) as (a & -> & <-). destruct (offdie_type (at_u0 a) sib ats' Hat) as (r & x & Hx & Hd').
    rewrite (bind_Ret _ _ _ _ _ Hx). cbn [snd]. rewrite <- (attr_num_find x ats' _ Hd'). by destruct (_dwarf_attr_find x 0x0b).
Qed.

(** [info] with the sizes [zs] of further parameters. *)
Definition with_args (i : Ripdebuginfo) (zs : list Z) : Ripdebuginfo :=
  mkRip (rip_file i) (rip_line i) (rip_fn_name i) (rip_fn_namelen i) (rip_fn_addr i) (size_fn_arg i ++ (s32 <$> zs)).

Lemma add_arg_run z i : rip_fn_narg i < 10 -> add_arg z i s = Ret (with_args i [z]) s.
Proof. intros H. unfold add_arg. by destruct (Z.leb_spec 10 (rip_fn_narg i)); [lia|]. Qed.

Lemma with_args_app i zs zs' : with_args (with_args i zs) zs' = with_args i (zs ++ zs').
Proof. unfold with_args. cbn. by rewrite fmap_app, app_assoc. Qed.

(** The loop over the parameters after [sib]. *)
Lemma other_args_run l : forall off z zs sib i f, params off l -> later_sizes z l zs -> die_next_off sib = off -> ab_children (die_ab sib) = 0 ->
  rip_fn_narg i + len l <= 10 -> (length l < f)%nat ->
  loop f (fun '(sib, ret_, ret_val, info) =>
    let! x := dwarf_siblingof fuel ab0 (Some sib) ret_ cu in
    let '(r, ret_) := x in
    if negb (r =? DW_DLV_OK) then ret (inr info)
    else if negb (die_tag ret_ =? 0x05) then ret (inr info)
    else
      let! v := next_size fuel ab0 cu (_dwarf_attr_find ret_ 0x49) sib ret_val in
      let! info := add_arg v info in
      ret (inl (ret_, ret_, v, info))) (sib, sib, z, i) s = Ret (with_args i zs) s.
Proof using U.
  assert (forall i, with_args i [] = i) as Hnil by (intros []; unfold with_args; cbn; by rewrite app_nil_r).
  induction l as [|ats l IH]; intros off z zs sib i f Hp Hz Hoff Hch Hn Hf; (destruct f as [|f]; [cbn in Hf; lia|]); cbn [loop];
    destruct (sibling_reads fuel s cu info str t U ab0 sib sib off []) as (rd' & Hrd & Hs); try (rewrite <- Hoff; by apply ns_leaf);
    rewrite (Hrd eq_refl) in Hs.
  - inversion Hp as [? Hend|]; subst. inversion Hz; subst. destruct (Hend sib) as ([r x] & Hx & Hc). rewrite bind_assoc, (bind_Ret _ _ _ _ _ (Hs _ Hx)). cbn in Hc.
    rewrite Hnil. destruct (Z.eqb_spec r DW_DLV_OK) as [->|]; [|done]. destruct Hc as [|Hc]; [done|]. cbn [negb]. by destruct (Z.eqb_spec (die_tag x) 5).
  - inversion Hp as [|? bs o a ? more ? Hh Ho He Ht Hc Hp']; subst. inversion Hz as [|? ? ? z' zs' Hl Hzs]; subst. cbn [length] in *.
    rewrite bind_assoc, (bind_Ret _ _ _ _ _ (Hs _ (ra_entry _ _ _ _ _ _ _ sib bs o a ats more Hh Ho He))). set (d := entry_die _ _ _ _ _ _).
    change (negb (DW_DLV_OK =? DW_DLV_OK)) with false. change (die_tag d) with (a_tag a). rewrite Ht. cbn [negb Z.eqb Pos.eqb].
    rewrite bind_assoc, (bind_Ret _ _ _ _ _ (next_size_run z ats z' d sib Hl eq_refl)).
    rewrite bind_assoc, (bind_Ret _ _ _ _ _ (add_arg_run z' i ltac:(lia))), bind_ret.
    rewrite (IH (die_next_off sib + len bs) z' zs' d (with_args i [z']) f Hp' Hzs eq_refl); [by rewrite with_args_app| | |lia].
    + change (die_ab d) with (abbrev_at o a). unfold abbrev_at. cbn. by rewrite Hc.
    + unfold rip_fn_narg, with_args in *. cbn. rewrite length_app. cbn. lia.
Qed.

(** A function [die] that starts at [low] and ends before [high], called [name], with
    parameters of the sizes [zs]. *)
Record function_at (die : Dwarf_Die) (name : list Z) (low high : Z) (zs : list Z) : Prop := {
  fa_tag : die_tag die = 0x2e;
  fa_low : at_u0 <$> _dwarf_attr_find die 0x11 = Some low;
  fa_high : at_u0 <$> _dwarf_attr_find die 0x12 = Some high;
  fa_name : name_ok name /\ (length name < fuel)%nat /\ here s 0 (die_name die) (name ++ [0]);
  fa_params : if decide (ab_children (die_ab die) = 0) then zs = []
              else exists l, params (die_next_off die) l /\ param_sizes l zs /\ len l <= 10 /\ (length l <= fuel)%nat;
  fa_stale : die_tag die0 <> 0x05;
}.

(** The line-number program of the unit [cudie], with addresses that ascend. *)
Record lines_of (cudie : Dwarf_Die) (h : line_header) (ops : list line_op) : Prop := {
  lo_size : exists asz ds at_ wide, addr_size cu = Z.of_nat asz /\ Forall (op_ok asz h) ops /\
    _dwarf_attr_find cudie 0x10 = Some at_ /\ lines_at fuel s asz h ds (at_u0 at_) wide ops;
  lo_header : header_ok h;
  lo_ascending : ascending (rows h ops (initial h));
}.

Lemma function_params die name low high zs i : function_at die name low high zs -> size_fn_arg i = [] ->
  (let! x := dwarf_child fuel ab0 cu die die0 in
   let '(r, ret_) := x in
   if r =? DW_DLE_NO_ENTRY then ret (1, i)
   else if negb (die_tag ret_ =? 0x05) then ret (1, i)
   else
     let! v := first_size fuel ab0 cu (_dwarf_attr_find ret_ 0x49) die 8 in
     let! i := add_arg v i in
     let! i := other_args fuel ab0 cu ret_ v i in
     ret (1, i)) s = Ret (1, with_args i zs) s.
Proof using U.
  intros [_ _ _ _ Hp Hst] Hi. assert (with_args i [] = i) as Hnil by (destruct i; unfold with_args; cbn in *; by rewrite Hi).
  case_decide as Hc.
  { subst zs. unfold dwarf_child. rewrite Hc. cbn [Z.eqb]. msteps. by rewrite Hnil. }
  destruct Hp as (l & Hp & Hz & H10 & Hf). inversion Hp as [? Hend|? bs o a ats more l' Hh Ho He Ht Hch Hp']; subst l.
  - inversion Hz; subst. destruct (Hend die0) as ([r x] & Hx & Hr).
    rewrite (bind_Ret _ _ _ _ _ (child_reads fuel s cu info str t U ab0 die die0 _ Hc Hx)), Hnil.
    destruct (r =? DW_DLE_NO_ENTRY); [done|]. assert (die_tag x <> 0x05) as Hx5. { cbn in Hr. inversion Hx; subst; naive_solver. }
    by destruct (Z.eqb_spec (die_tag x) 5).
  - inversion Hz as [|n ? ? z zs' Hn Hts Hl]; subst. cbn [length] in *.
    rewrite (bind_Ret _ _ _ _ _ (child_reads fuel s cu info str t U ab0 die die0 _ Hc (ra_entry _ _ _ _ _ _ _ die0 bs o a ats more Hh Ho He))).
    set (d := entry_die _ _ _ _ _ _). change (DW_DLV_OK =? DW_DLE_NO_ENTRY) with false. change (die_tag d) with (a_tag a). rewrite Ht. cbn [negb Z.eqb Pos.eqb].
    rewrite (bind_Ret _ _ _ _ _ (first_size_run n ats z Hts die d fuel Hn eq_refl)).
    rewrite (bind_Ret _ _ _ _ _ (add_arg_run z i ltac:(unfold rip_fn_narg; rewrite Hi; cbn; lia))).
    unfold other_args. erewrite bind_Ret; [|eapply (other_args_run l' _ z zs' d); [exact Hp'|exact Hl|done| | |lia]].
    + by rewrite with_args_app.
    + change (die_ab d) with (abbrev_at o a). unfold abbrev_at. cbn. by rewrite Hch.
    + unfold rip_fn_narg, with_args. cbn. rewrite Hi. cbn. lia.
Qed.

(** C25: the function around an address and the line of the address.
    [list_func_die] recognises the entry of a function exactly for the addresses
    strictly between its bounds.  Then it reports the name of the function and
    its length, the file of the unit, the first address, and as the line that of
    the last row at or before the address in the table that the line-number
    program of the unit describes, for any program of the known operations whose
    rows ascend, in either byte order and in the 32-bit and the 64-bit format. It
    reports the parameters, at most ten, each without children: the size of the
    first is that of the first type with a size behind it, 8 when there is none;
    another one has the size of its type, but that of the parameter before it when
    its type has no size itself, as a typedef. The structure for the first child,
    which the source does not initialise, must not look like a parameter. For
    another address it reports nothing. *)
Theorem function_line cudie die name low high zs h ops i addr : function_at die name low high zs -> lines_of cudie h ops ->
  list_func_die fuel ab0 die0 i cu cudie die addr s =
  Ret (if decide (low < addr < high) then
         (1, mkRip (Some (die_name cudie)) (s32 (ln_lineno (covering addr (rows h ops (initial h))))) (Some (die_name die)) (len name) low (s32 <$> zs))
       else (0, i)) s.
Proof using U.
  intros F [ (asz & ds & at_ & wide & Hasz & Hops & Hat & Hlines) Hh Hasc]. pose proof F as [Htag Hlow Hhigh (Hname & Hlen & Hn) _ _].
  unfold list_func_die. rewrite Htag. cbn [negb Z.eqb Pos.eqb].
  apply fmap_Some in Hlow as (al & -> & ->), Hhigh as (ah & -> & ->).
  destruct (Z.ltb_spec (at_u0 al) addr), (Z.ltb_spec addr (at_u0 ah)); cbn [andb]; case_decide; try lia; try done.
  rewrite (bind_Ret _ _ _ _ _ (name_len_run fuel s (die_name die) name [] Hname Hlen Hn)).
  rewrite (bind_Ret _ _ _ _ _ (srclines_run fuel s cu asz h ds cudie at_ wide ops no_line addr Hasz Hh Hops Hasc Hat Hlines)). cbn [snd]. cbv zeta.
  by rewrite (function_params die name (at_u0 al) (at_u0 ah) zs _ F) by done.
Qed.
End Function.

(** ** A kernel with three functions *)

Notation K := (KERNBASE + 0x200000).
Notation le n v := (enc_num DW_OBJECT_LSB n v).
Notation str x := (chars x ++ [0]).

Definition kernel_abbrevs : list abbrev :=
  [mkAbb 1 0x11 true [(0x03, 0x08); (0x10, 0x06)]; mkAbb 2 0x2e true [(0x03, 0x08); (0x11, 0x01); (0x12, 0x01)];
   mkAbb 3 0x05 false [(0x03, 0x08); (0x49, 0x13)]; mkAbb 4 0x24 false [(0x03, 0x08); (0x0b, 0x0b)];
   mkAbb 5 0x2e false [(0x03, 0x08); (0x11, 0x01); (0x12, 0x01)]; mkAbb 6 0x0f false [(0x03, 0x08); (0x49, 0x13)]].

Definition unit_entry : list Z := [1] ++ str "kern/init.c" ++ le 4 0.
Definition int_offset : Z := 11 + len unit_entry.
Definition int_entry : list Z := [4] ++ str "int" ++ [4].
Definition alias_offset : Z := int_offset + len int_entry.
Definition alias_entry : list Z := [6] ++ str "envid_t" ++ le 4 int_offset.
Definition char_offset : Z := alias_offset + len alias_entry.
Definition char_entry : list Z := [4] ++ str "char" ++ [1].
Definition first_fn : list Z := [5] ++ str "mp_main" ++ le 8 (K + 0x100) ++ le 8 (K + 0x200).
Definition second_fn : list Z :=
  [2] ++ str "test" ++ le 8 (K + 0x400) ++ le 8 (K + 0x440) ++ ([3] ++ str "x" ++ le 4 alias_offset) ++ ([3] ++ str "y" ++ le 4 char_offset) ++
  ([3] ++ str "z" ++ le 4 alias_offset) ++ [0].
Definition kernel_entries : list Z := unit_entry ++ int_entry ++ alias_entry ++ char_entry ++ first_fn ++ second_fn ++ [0].
Definition kernel_info : list Z := le 4 (len kernel_entries + 7) ++ le 2 2 ++ le 4 0 ++ [8] ++ kernel_entries.
Definition kernel_ops : list line_op :=
  [OSetAddress (K + 0x100); OAdvanceLine 9; OCopy; OAdvancePc 0x300; OSpecial 0 4; OSpecial 4 1; OAdvancePc 20; OSpecial 0 3; OConstAddPc;
   OSpecial 2 (-2); OFixedAdvance 8; OEndSequence].
Definition kernel_lines : list Z := enc_unit DW_OBJECT_LSB 8 demo_header false kernel_ops.

(** A program with one section to debug it. *)
Definition user_elf : list Z :=
  replicate 40 0 ++ le 8 64 ++ replicate 12 0 ++ le 2 2 ++ le 2 1 ++ (le 4 0 ++ replicate 28 0 ++ le 8 100 ++ replicate 24 0) ++
  (le 4 11 ++ replicate 20 0 ++ le 8 192 ++ le 8 12 ++ replicate 24 0) ++ str ".debug_info".

Definition kernel_mem (a : Z) : Z :=
  default 0 (if a =? KERNBASE + 0x10004 then Some 2
             else if a <? 2000 then enc_table kernel_abbrevs !! Z.to_nat (a - 1000)
             else if a <? 4000 then kernel_info !! Z.to_nat (a - 2000)
             else if a <? 9000 then kernel_lines !! Z.to_nat (a - 4000)
             else if a <? 10000 then user_elf !! Z.to_nat (a - 9000)
             else None).
Definition kernel_lines_section : Dwarf_Section := mkSection ".debug_line" 4000 4000 (len kernel_lines).
Definition kernel_dwarf : dstate :=
  mkDstate kernel_mem
    [mkSection ".debug_info" 2000 2000 (len kernel_info); mkSection ".debug_abbrev" 1000 1000 (len (enc_table kernel_abbrevs));
     mkSection ".eh_frame" 0 0 0; kernel_lines_section; mkSection ".debug_str" 3000 3000 0]
    (mkDebug 0 0 0 DW_OBJECT_LSB 8 0 0 0 0 0).
Definition any_abbrev : Dwarf_Abbrev := mkAbbrev 0 0 0 0 0 [].
Definition any_die : Dwarf_Die := mkDie 0 0 0 0 any_abbrev 0 [].

(** The answer for an address. *)
Definition kernel_says (addr : Z) : option (Z * Ripdebuginfo) :=
  match debuginfo_rip 200 any_abbrev any_die 0 0 0 addr kernel_dwarf with Ret (r, _, info) _ => Some (r, info) | _ => None end.

Definition unit_name : Z := 2000 + 11 + 1.
Definition second_offset : Z := char_offset + len char_entry + len first_fn.
Definition second_name : Z := 2000 + second_offset + 1.

(** The sections are read through: an address in the second function, whose first
    and third parameter have a type with another name and whose second one is a
    character, and two in no function. The third parameter, an [int] too, gets the
    size of the second one. *)
Example debuginfo_rip_kernel :
  kernel_says (K + 0x410) = Some (0, mkRip (Some unit_name) 15 (Some second_name) 4 (K + 0x400) [4; 1; 1]) /\
  kernel_says (K + 0x300) = Some (-1, mkRip None 0 None 9 (K + 0x300) []) /\
  kernel_says (K + 0x400) = Some (-1, mkRip None 0 None 9 (K + 0x400) []).
Proof. by vm_compute. Qed.

(** An address of a program makes the table of sections that of the program; the
    address of the kernel that was found before is not found any more. *)
Example kernel_sections_lost :
  match debuginfo_rip 200 any_abbrev any_die 1 9000 0 0x800020 kernel_dwarf with
  | Ret (_, lastenv, _) s =>
      match debuginfo_rip 200 any_abbrev any_die 1 9000 lastenv (K + 0x410) s with Ret (r, _, _) _ => Some r | _ => None end
  | _ => None
  end = Some (-1).
Proof. by vm_compute. Qed.

(** The unit, and the state while its entries are read. *)
Definition kernel_info_section : Dwarf_Section := mkSection ".debug_info" 2000 2000 (len kernel_info).
Definition kernel_str_section : Dwarf_Section := mkSection ".debug_str" 3000 3000 0.
Definition kernel_cu : Dwarf_CU := mkCU (len kernel_info - 4) 2 8 0 4 4 (len kernel_info) 11 0.
Definition kernel_reading : dstate := set_dbg (set_dbg_info 2000 (len kernel_info) (dbg kernel_dwarf)) kernel_dwarf.
Notation kernel_entry := (entry_enc 200 kernel_reading kernel_cu kernel_info_section kernel_str_section kernel_abbrevs).

Lemma kernel_unit : unit_ok 200 kernel_reading kernel_cu kernel_info_section kernel_str_section kernel_abbrevs.
Proof.
  split; [by split; vm_compute; lia|by eexists|by eexists|by vm_compute| |].
  - eexists _, _, []. split; [done|]. split; [apply here_check; by vm_compute|by vm_compute].
  - repeat constructor; (done || (cbn; lia)).
Qed.

(** An entry with a name and a number. *)
Lemma named_entry off o a name k form n v : find_abbrev 0 kernel_abbrevs (a_code a) = Some (o, a) -> a_attrs a = [(0x03, 0x08); (k, form)] ->
  Forall (fun b => b <> 0) name -> off + len (uleb (a_code a)) + len name < len kernel_info -> (length name < 200)%nat ->
  form_size kernel_cu form = Some (Z.of_nat n) -> num_size n -> 0 <= v < 256 ^ Z.of_nat n ->
  kernel_entry off (uleb (a_code a) ++ (name ++ [0]) ++ le n v) o a
    [attribute 0x03 0x08 (u64 (2000 + (off + len (uleb (a_code a))))) 0; attribute k form v 0].
Proof.
  intros Ha Hats Hnm Hoff Hlen Hfs Hn Hv. split; [done|]. eexists. split; [done|]. rewrite Hats.
  apply as_cons; [by apply ve_string|]. rewrite <- (app_nil_r (le n v)). apply as_cons; [by apply ve_num|]. apply as_nil.
Qed.

(** The entries of the unit and of its second function, as they are read. *)
Definition unit_die : Dwarf_Die := mkDie 11 int_offset 1 0x11 (mkAbbrev 1 0x11 1 0 0 []) unit_name [mkAttribute 0x10 0x06 0 0 0 0 0].
Definition params_offset : Z := second_offset + 22.
Definition second_die : Dwarf_Die :=
  mkDie second_offset params_offset 2 0x2e (mkAbbrev 2 0x2e 1 0 0 []) second_name
    [mkAttribute 0x11 0x01 0 (K + 0x400) 0 0 0; mkAttribute 0x12 0x01 0 (K + 0x440) 0 0 0].
Definition named_ats (off k form v : Z) : list Dwarf_Attribute := [attribute 0x03 0x08 (2000 + off + 1) 0; attribute k form v 0].
Definition param_abbrev : abbrev := mkAbb 3 0x05 false [(0x03, 0x08); (0x49, 0x13)].
Definition base_abbrev : abbrev := mkAbb 4 0x24 false [(0x03, 0x08); (0x0b, 0x0b)].
Definition alias_abbrev : abbrev := mkAbb 6 0x0f false [(0x03, 0x08); (0x49, 0x13)].

Ltac entry_side :=
  first [reflexivity | apply Nat.ltb_lt; reflexivity | split; vm_compute; [discriminate|reflexivity] | repeat constructor; discriminate | by left | by right; right; left].

Notation kernel_type := (type_at 200 kernel_reading kernel_cu kernel_info_section kernel_str_section kernel_abbrevs).

Lemma int_type : kernel_type int_offset (named_ats int_offset 0x0b 0x0b 4).
Proof.
  split; [by vm_compute|]. eexists int_entry, _, base_abbrev, []. split; [apply here_check; by vm_compute|].
  apply (named_entry int_offset _ base_abbrev (chars "int") 0x0b 0x0b 1 4); entry_side.
Qed.

Lemma char_type : kernel_type char_offset (named_ats char_offset 0x0b 0x0b 1).
Proof.
  split; [by vm_compute|]. eexists char_entry, _, base_abbrev, []. split; [apply here_check; by vm_compute|].
  apply (named_entry char_offset _ base_abbrev (chars "char") 0x0b 0x0b 1 1); entry_side.
Qed.

Lemma alias_type : kernel_type alias_offset (named_ats alias_offset 0x49 0x13 int_offset).
Proof.
  split; [by vm_compute|]. eexists alias_entry, _, alias_abbrev, []. split; [apply here_check; by vm_compute|].
  apply (named_entry alias_offset _ alias_abbrev (chars "envid_t") 0x49 0x13 4 int_offset); entry_side.
Qed.

(** The three parameters. *)
Definition second_params : list (list Dwarf_Attribute) :=
  [named_ats params_offset 0x49 0x13 alias_offset; named_ats (params_offset + 7) 0x49 0x13 char_offset; named_ats (params_offset + 14) 0x49 0x13 alias_offset].

Lemma second_params_enc : params 200 kernel_reading kernel_cu kernel_info_section kernel_str_section kernel_abbrevs params_offset second_params.
Proof.
  eapply (pa_param _ _ _ _ _ _ params_offset ([3] ++ str "x" ++ le 4 alias_offset) _ param_abbrev _ []);
    [apply here_check; by vm_compute|by vm_compute|apply (named_entry params_offset _ param_abbrev (chars "x") 0x49 0x13 4 alias_offset); entry_side|done|done|].
  eapply (pa_param _ _ _ _ _ _ (params_offset + 7) ([3] ++ str "y" ++ le 4 char_offset) _ param_abbrev _ []);
    [apply here_check; by vm_compute|by vm_compute|apply (named_entry (params_offset + 7) _ param_abbrev (chars "y") 0x49 0x13 4 char_offset); entry_side|done|done|].
  eapply (pa_param _ _ _ _ _ _ (params_offset + 14) ([3] ++ str "z" ++ le 4 alias_offset) _ param_abbrev _ []);
    [apply here_check; by vm_compute|by vm_compute|apply (named_entry (params_offset + 14) _ param_abbrev (chars "z") 0x49 0x13 4 alias_offset); entry_side|done|done|].
  apply pa_end. intros rd. exists (-1, rd). split; [|by left]. apply (ra_end _ _ _ _ _ _ _ rd []); [apply here_check; by vm_compute|by vm_compute].
Qed.

Lemma second_function : function_at 200 any_die kernel_reading kernel_cu kernel_info_section kernel_str_section kernel_abbrevs second_die (chars "test")
  (K + 0x400) (K + 0x440) [4; 1; 1].
Proof.
  split; [done|done|done| | |done].
  - split; [by repeat constructor|]. split; [by apply Nat.ltb_lt|]. apply here_check. by vm_compute.
  - rewrite decide_False by done. exists second_params. split; [exact second_params_enc|]. split; [|split; [by vm_compute|apply Nat.leb_le; reflexivity]].
    apply (ps_cons _ _ _ _ _ _ 1); [apply Nat.ltb_lt; reflexivity| |].
    + eapply ts_type; [reflexivity|exact alias_type|reflexivity|]. eapply ts_size; [reflexivity|exact int_type|reflexivity].
    + eapply lss_cons; [eapply (ls_type _ _ _ _ _ _ 4 _ _ (named_ats char_offset 0x0b 0x0b 1)); [reflexivity|exact char_type]|].
      eapply lss_cons; [eapply (ls_type _ _ _ _ _ _ 1 _ _ (named_ats alias_offset 0x49 0x13 int_offset)); [reflexivity|exact alias_type]|apply lss_nil].
Qed.

Lemma kernel_program : lines_of 200 kernel_reading kernel_cu unit_die demo_header kernel_ops.
Proof.
  split.
  - eexists 8%nat, kernel_lines_section, _, false. split; [done|]. split; [|split; [done|]].
    + unfold kernel_ops. repeat (apply Forall_cons; split); [..|apply Forall_nil; done]; cbn [op_ok]; unfold small, num_size, demo_header; cbn [h_opbase h_lbase h_lrange];
        change (256 ^ Z.of_nat 8) with (2 ^ 64); unfold KERNBASE; lia.
    + split; [done|by vm_compute|by vm_compute|apply here_check; by vm_compute|by vm_compute|]. apply Nat.leb_le. by vm_compute.
  - split; cbn [demo_header h_version h_minlen h_defstmt h_lbase h_lrange h_opbase h_oplens h_dirs h_files]; unfold byte; try (done || lia).
    + repeat (apply Forall_cons; split); try lia. by apply Forall_nil.
    + by repeat constructor.
    + apply Forall_singleton. by repeat constructor.
  - unfold ascending. vm_compute rows. repeat constructor; cbn; lia.
Qed.

Lemma function_line_witness :
  function_at 200 any_die kernel_reading kernel_cu kernel_info_section kernel_str_section kernel_abbrevs second_die (chars "test")
    (K + 0x400) (K + 0x440) [4; 1; 1] /\
  lines_of 200 kernel_reading kernel_cu unit_die demo_header kernel_ops /\
  list_func_die 200 any_abbrev any_die (mkRip None 0 None 9 0 []) kernel_cu unit_die second_die (K + 0x410) kernel_reading =
  Ret (1, mkRip (Some unit_name) 15 (Some second_name) 4 (K + 0x400) [4; 1; 1]) kernel_reading.
Proof.
  split; [apply second_function|]. split; [apply kernel_program|].
  rewrite (function_line 200 any_abbrev any_die kernel_reading kernel_cu kernel_info_section kernel_str_section kernel_abbrevs kernel_unit
             unit_die second_die (chars "test") (K + 0x400) (K + 0x440) [4; 1; 1] demo_header kernel_ops
             (mkRip None 0 None 9 0 []) (K + 0x410) second_function kernel_program).
  apply (f_equal (fun x => Ret x kernel_reading)). by vm_compute.
Defined.
