(* ===== verification/Sh.v ===== *)
(** The shell: [gettoken] and [runcmd] of user/sh.c.

    The command line is in a memory of bytes, where the words are terminated in
    place.  What the shell asks of the rest of the system is a list of calls; the
    answers are a parameter.  After [fork] the model goes on in the process that
    the answer names.  The loops over the line get [fuel] rounds; messages to the
    console are left out.  The seventeenth entry of [argv] does not exist: writing
    it is a panic of the model. *)

From S2P Require Import Prelude CString.

Definition WHITESPACE : list Z := [32; 9; 13; 10].
Definition SYMBOLS : list Z := [60; 124; 62; 38; 59; 40; 41].
Definition MAXARGS : nat := 16.
Notation BUFSIZ := 1024 (only parsing).
Definition PATH : list (list Z) := [[47; 98; 105; 110; 47]; [47]].

(** [strchr] in a literal; the null is in none. *)
Definition in_set (set : list Z) (c : Z) : bool := bool_decide (c ∈ set).

(** What a command line can ask for; a string is the list of its characters. *)
Inductive sh_call : Type :=
| COpen (path : list Z) (omode : Z)
| CDup (oldfd newfd : Z)
| CClose (fd : Z)
| CPipe
| CFork
| CStat (path : list Z)
| CSpawn (prog : list Z) (args : list (list Z))
| CCloseAll
| CWait (env : Z)
| CExit.

Section Shell.
Context {W : Type}.

(** The result of a call, and the two descriptors of [pipe]. *)
Context (os : sh_call -> W -> Z * Z * Z * W).

(** The memory, the static variables of [gettoken] and the rest of the system. *)
Record shstate : Type := mkSh {
  sm : cmem;
  st_c : Z;
  st_nc : Z;
  st_np1 : Z;
  st_np2 : Z;
  sw : W;
}.

Definition set_sm (m : cmem) (s : shstate) : shstate := mkSh m (st_c s) (st_nc s) (st_np1 s) (st_np2 s) (sw s).
Definition set_tok (c nc np1 np2 : Z) (s : shstate) : shstate := mkSh (sm s) c nc np1 np2 (sw s).

Definition call (c : sh_call) : M shstate (Z * Z * Z) := fun s =>
  let '(r, a, b, w) := os c (sw s) in Ret (r, a, b) (mkSh (sm s) (st_c s) (st_nc s) (st_np1 s) (st_np2 s) w).

Definition exit {A : Type} : M shstate A := do! call CExit ;; noret.

Context (fuel : nat).

(** [while (strchr(WHITESPACE, *s)) *s++ = 0] *)
Definition skip_space (s : Z) : M shstate Z :=
  loop fuel (fun s =>
    let! m := gets sm in
    if in_set WHITESPACE (m s) then do! modify (set_sm (upd m s 0)) ;; ret (inl (s + 1)) else ret (inr s)) s.

(** [while ( *s && !strchr(WHITESPACE SYMBOLS, *s)) s++] *)
Definition skip_word (s : Z) : M shstate Z :=
  loop fuel (fun s =>
    let! m := gets sm in
    if nz (m s) && negb (in_set (WHITESPACE ++ SYMBOLS) (m s)) then ret (inl (s + 1)) else ret (inr s)) s.

(** The result, [*p1] and [*p2]. *)
Definition _gettoken (s p1 p2 : Z) : M shstate (Z * Z * Z) :=
  if s =? 0 then ret (0, p1, p2)
  else
    let! s := skip_space s in
    let! m := gets sm in
    let t := m s in
    if t =? 0 then ret (0, 0, 0)
    else if in_set SYMBOLS t then
      do! modify (set_sm (upd m s 0)) ;;
      ret (t, s, s + 1)
    else
      let! e := skip_word s in
      ret (119, s, e).

(** [gettoken(s, 0)] *)
Definition gettoken_start (s : Z) : M shstate unit :=
  let! g := gets (fun x => x) in
  let! x := _gettoken s (st_np1 g) (st_np2 g) in
  let '(nc, np1, np2) := x in
  modify (set_tok (st_c g) nc np1 np2).

(** [gettoken(0, &t)]: the result and [t]. *)
Definition gettoken : M shstate (Z * Z) :=
  let! g := gets (fun x => x) in
  let c := st_nc g in
  let t := st_np1 g in
  let! x := _gettoken (st_np2 g) (st_np1 g) (st_np2 g) in
  let '(nc, np1, np2) := x in
  do! modify (set_tok c nc np1 np2) ;;
  ret (c, t).

(** The string at an address. *)
Fixpoint string_at (f : nat) (m : cmem) (p : Z) : list Z :=
  match f with O => [] | S f => if m p =? 0 then [] else m p :: string_at f m (p + 1) end.
Definition get_string (p : Z) : M shstate (list Z) := gets (fun s => string_at fuel (sm s) p).

(** [dup(fd, n); close(fd)], unless [fd] is [n] already. *)
Definition move_fd (fd n : Z) : M shstate unit :=
  if negb (fd =? n) then do! call (CDup fd n) ;; do! call (CClose fd) ;; ret tt else ret tt.

Definition redirect (omode n : Z) : M shstate unit :=
  let! x := gettoken in
  let '(c, t) := x in
  if negb (c =? 119) then exit
  else
    let! path := get_string t in
    let! r := call (COpen path omode) in
    let '(fd, _, _) := r in
    if fd <? 0 then exit else move_fd fd n.

(** One round of the loop from [again]: the arguments so far and [pipe_child]. *)
Definition runcmd_round (x : list Z * Z) : M shstate (list Z * Z + list Z * Z) :=
  let '(argv, pipe_child) := x in
  let! x := gettoken in
  let '(c, t) := x in
  match c with
  | 119 (* w *) =>
      if (MAXARGS =? length argv)%nat then exit else ret (inl (argv ++ [t], pipe_child))
  | 60 (* < *) => do! redirect 0 0 ;; ret (inl (argv, pipe_child))
  | 62 (* > *) => do! redirect 0x301 1 ;; ret (inl (argv, pipe_child))
  | 124 (* | *) =>
      let! r := call CPipe in
      let '(r, p0, p1) := r in
      if r <? 0 then exit
      else
        let! r := call CFork in
        let '(r, _, _) := r in
        if r <? 0 then exit
        else if r =? 0 then
          do! move_fd p0 0 ;;
          do! call (CClose p1) ;;
          ret (inl ([], pipe_child))
        else
          do! move_fd p1 1 ;;
          do! call (CClose p0) ;;
          ret (inr (argv, r))
  | 0 => ret (inr (argv, pipe_child))
  | _ => panic "bad return from gettoken"
  end.

(** Looks for the program in the directories of [PATH]; [buf] is [argv0buf].  The
    new [argv[0]]. *)
Fixpoint find_program (paths : list (list Z)) (buf arg0 : Z) : M shstate Z :=
  match paths with
  | [] => ret arg0
  | p :: paths =>
      let! m := gets sm in
      match strcat fuel (store_n m buf (p ++ [0])) buf arg0 with
      | None => noret
      | Some m =>
          do! modify (set_sm m) ;;
          let! s := get_string buf in
          let! r := call (CStat s) in
          let '(r, _, _) := r in
          if r =? 0 then ret buf else find_program paths buf arg0
      end
  end.

(** [if (argv[0][0] != '/')] ... *)
Definition add_slash (buf arg0 : Z) : M shstate Z :=
  let! m := gets sm in
  if negb (m arg0 =? 47) then
    match strcpy fuel (upd m buf 47) (buf + 1) arg0 with
    | None => noret
    | Some m => do! modify (set_sm m) ;; ret buf
    end
  else ret arg0.

Fixpoint get_strings (l : list Z) : M shstate (list (list Z)) :=
  match l with
  | [] => ret []
  | p :: l => let! s := get_string p in let! r := get_strings l in ret (s :: r)
  end.

(** From [runit]. *)
Definition runit (buf : Z) (argv : list Z) (pipe_child : Z) : M shstate unit :=
  match argv with
  | [] => ret tt
  | arg0 :: args =>
      let! arg0 := find_program PATH buf arg0 in
      let! arg0 := add_slash buf arg0 in
      if (MAXARGS <=? length argv)%nat then panic "write past the end of argv"
      else
        let! prog := get_string arg0 in
        let! strs := get_strings args in
        let! r := call (CSpawn prog (prog :: strs)) in
        let '(r, _, _) := r in
        do! call CCloseAll ;;
        do! (if 0 <=? r then do! call (CWait r) ;; ret tt else ret tt) ;;
        do! (if nz pipe_child then do! call (CWait pipe_child) ;; ret tt else ret tt) ;;
        exit
  end.

(** [buf] is the address of [argv0buf]. *)
Definition runcmd (buf s : Z) : M shstate unit :=
  do! gettoken_start s ;;
  let! x := loop fuel runcmd_round ([], 0) in
  let '(argv, pipe_child) := x in
  runit buf argv pipe_child.
End Shell.
