(* ===== verification/ShProps.v ===== *)
(** The shell runs a command line as the list of its tokens: [runcmd], with its
    words cut in place and its one token of lookahead, refines a program on
    lists. *)

From S2P Require Import Prelude CString Sh.

Notation len l := (Z.of_nat (length l)).

(** ** Tokens *)

Inductive token : Type := TWord (w : list Z) | TSym (c : Z).

Definition flush (w : list Z) : list token := match w with [] => [] | _ => [TWord w] end.

(** [w] is the word that has begun. *)
Fixpoint lex (w : list Z) (l : list Z) : list token :=
  match l with
  | [] => flush w
  | x :: l =>
      if in_set WHITESPACE x then flush w ++ lex [] l
      else if in_set SYMBOLS x then flush w ++ TSym x :: lex [] l
      else lex (w ++ [x]) l
  end.

Definition special (x : Z) : bool := in_set (WHITESPACE ++ SYMBOLS) x.
Definition stop (l : list Z) : Prop := match l with [] => True | x :: _ => special x = true end.

Lemma special_or x : special x = in_set WHITESPACE x || in_set SYMBOLS x.
Proof. unfold special, in_set. rewrite <- bool_decide_or. apply bool_decide_ext. apply elem_of_app. Qed.

Lemma lex_word w l : w <> [] -> exists pre post, l = pre ++ post /\ Forall (fun x => special x = false) pre /\ stop post /\ lex w l = TWord (w ++ pre) :: lex [] post.
Proof.
  revert w. induction l as [|x l IH]; intros w Hw; cbn [lex].
  - exists [], []. split_ands; [done|done|done|]. rewrite app_nil_r. by destruct w.
  - pose proof (special_or x) as Hx. destruct (in_set WHITESPACE x) eqn:E1; [|destruct (in_set SYMBOLS x) eqn:E2].
    + exists [], (x :: l). split_ands; [done|done|done|]. rewrite app_nil_r. cbn [lex]. rewrite E1. by destruct w.
    + exists [], (x :: l). split_ands; [done|done|done|]. rewrite app_nil_r. cbn [lex]. rewrite E1, E2. by destruct w.
    + destruct (IH (w ++ [x])) as (pre & post & -> & H1 & H2 & H3); [by destruct w|]. exists (x :: pre), post. split_ands; [done|by constructor|done|].
      rewrite H3, <- app_assoc. done.
Qed.

(** Leading white space. *)
Lemma lex_space l : exists sp r, l = sp ++ r /\ Forall (fun x => in_set WHITESPACE x = true) sp /\ lex [] l = lex [] r /\
  match r with [] => True | x :: _ => in_set WHITESPACE x = false end.
Proof.
  induction l as [|x l (sp & r & -> & H1 & H2 & H3)]; [by exists [], []|]. cbn [lex]. destruct (in_set WHITESPACE x) eqn:E.
  - exists (x :: sp), r. split_ands; [done|by constructor|done|done].
  - exists [], (x :: sp ++ r). split_ands; [done|done| |done]. cbn [lex app]. by rewrite E.
Qed.

(** ** Strings in memory *)

Lemma cstr_app m p l1 l2 : cstr m p (l1 ++ l2) -> Forall (fun b => b <> 0) l1 /\ (forall i b, l1 !! i = Some b -> m (p + Z.of_nat i) = b) /\ cstr m (p + len l1) l2.
Proof.
  revert p. induction l1 as [|x l1 IH]; intros p H; cbn [app length] in *; [rewrite Z.add_0_r; by split_ands|]. apply cstr_cons in H as (H1 & H2 & H3).
  destruct (IH _ H3) as (J1 & J2 & J3). split_ands; [by constructor| |by replace (p + Z.of_nat (S (length l1))) with (p + 1 + len l1) by lia].
  intros [|i] b Hb; [rewrite Z.add_0_r; cbn in Hb; congruence|]. rewrite <- (J2 i b Hb). f_equal. lia.
Qed.

Lemma cstr_join m p l1 l2 : Forall (fun b => b <> 0) l1 -> (forall i b, l1 !! i = Some b -> m (p + Z.of_nat i) = b) -> cstr m (p + len l1) l2 -> cstr m p (l1 ++ l2).
Proof.
  intros H1 H2 (J1 & J2 & J3). unfold cstr. rewrite Forall_app, length_app. split_ands; [done|done| |by replace (p + Z.of_nat (length l1 + length l2)) with (p + len l1 + len l2) by lia].
  intros i b [Hi|[Hi1 Hi2]]%lookup_app_Some; [by apply H2|]. rewrite <- (J2 _ _ Hi2). f_equal. lia.
Qed.

Lemma strcpy_run w : forall f m dst src, cstr m src w -> dst + len w < src \/ src + len w < dst -> (length w < f)%nat ->
  exists m', strcpy f m dst src = Some m' /\ cstr m' dst w /\ forall a, a < dst \/ dst + len w < a -> m' a = m a.
Proof.
  induction w as [|x w IH]; intros f m dst src Hc Hd Hf; (destruct f as [|f]; [cbn in Hf; lia|]); cbn [strcpy length] in *.
  - apply cstr_nil in Hc. rewrite Hc. exists (upd m dst 0). split; [done|]. split; [apply cstr_nil; unfold upd; by rewrite decide_True|].
    intros a Ha. unfold upd. rewrite decide_False by lia. done.
  - apply cstr_cons in Hc as (H1 & H2 & H3). rewrite H2. destruct (Z.eqb_spec x 0); [done|].
    destruct (IH f (upd m dst x) (dst + 1) (src + 1)) as (m' & Hm & Hc' & Hfr); [|lia|lia|].
    { eapply cstr_frame; [exact H3|]. intros a Ha. unfold upd. rewrite decide_False by lia. done. }
    exists m'. split; [done|]. assert (m' dst = x) as Hx by (rewrite Hfr by lia; unfold upd; by rewrite decide_True). split; [by apply cstr_cons|].
    intros a Ha. rewrite Hfr by lia. unfold upd. rewrite decide_False by lia. done.
Qed.

Lemma store_cstr m a l : Forall (fun b => b <> 0) l ->
  cstr (store_n m a (l ++ [0])) a l /\ forall x, x < a \/ a + len l < x -> store_n m a (l ++ [0]) x = m x.
Proof.
  intros Hl. unfold store_n. rewrite length_app. cbn [length]. split.
  - unfold cstr. split_ands; [done| |].
    + intros i b Hi. pose proof (lookup_lt_Some _ _ _ Hi). destruct (Z.leb_spec a (a + Z.of_nat i)), (Z.ltb_spec (a + Z.of_nat i) (a + Z.of_nat (length l + 1))); try lia. cbn [andb].
      replace (Z.to_nat (a + Z.of_nat i - a)) with i by lia. apply nth_lookup_Some with (d := 0). by apply lookup_app_l_Some.
    + destruct (Z.leb_spec a (a + len l)), (Z.ltb_spec (a + len l) (a + Z.of_nat (length l + 1))); try lia. cbn [andb].
      replace (Z.to_nat (a + len l - a)) with (length l) by lia. apply nth_lookup_Some with (d := 0). by rewrite lookup_app_r, Nat.sub_diag.
  - intros x Hx. destruct (Z.leb_spec a x), (Z.ltb_spec x (a + Z.of_nat (length l + 1))); try lia; done.
Qed.

Section Refine.
Context {W : Type} (os : sh_call -> W -> Z * Z * Z * W) (fuel : nat).

(** ** The program on lists *)

Definition scall (c : sh_call) : M W (Z * Z * Z) := fun w => let '(r, a, b, w) := os c w in Ret (r, a, b) w.
Definition sexit {A : Type} : M W A := do! scall CExit ;; noret.
Definition smove (fd n : Z) : M W unit :=
  if negb (fd =? n) then do! scall (CDup fd n) ;; do! scall (CClose fd) ;; ret tt else ret tt.
Definition sopen (path : list Z) (omode n : Z) : M W unit :=
  let! r := scall (COpen path omode) in
  let '(fd, _, _) := r in
  if fd <? 0 then sexit else smove fd n.

Definition redirection (c : Z) : option (Z * Z) := if c =? 60 then Some (0, 0) else if c =? 62 then Some (0x301, 1) else None.

(** The words of the command and whom to wait for. *)
Fixpoint run_tokens (ts : list token) (args : list (list Z)) (pipe_child : Z) : M W (list (list Z) * Z) :=
  match ts with
  | [] => ret (args, pipe_child)
  | TWord w :: ts => if (MAXARGS =? length args)%nat then sexit else run_tokens ts (args ++ [w]) pipe_child
  | TSym c :: ts =>
      match redirection c with
      | Some (omode, n) =>
          match ts with
          | TWord w :: ts => do! sopen w omode n ;; run_tokens ts args pipe_child
          | _ => sexit
          end
      | None =>
          if c =? 124 then
            let! r := scall CPipe in
            let '(r, p0, p1) := r in
            if r <? 0 then sexit
            else
              let! r := scall CFork in
              let '(r, _, _) := r in
              if r <? 0 then sexit
              else if r =? 0 then do! smove p0 0 ;; do! scall (CClose p1) ;; run_tokens ts [] pipe_child
              else do! smove p1 1 ;; do! scall (CClose p0) ;; ret (args, r)
          else panic "bad return from gettoken"
      end
  end.

Fixpoint sfind (paths : list (list Z)) (w : list Z) : M W (list Z) :=
  match paths with
  | [] => ret w
  | p :: paths =>
      let! r := scall (CStat (p ++ w)) in
      let '(r, _, _) := r in
      if r =? 0 then ret (p ++ w) else sfind paths w
  end.

Definition with_slash (w : list Z) : list Z := if bool_decide (head w = Some 47) then w else 47 :: w.

Definition run_words (args : list (list Z)) (pipe_child : Z) : M W unit :=
  match args with
  | [] => ret tt
  | w :: ws =>
      let! w := sfind PATH w in
      if (MAXARGS <=? length args)%nat then panic "write past the end of argv"
      else
        let! r := scall (CSpawn (with_slash w) (with_slash w :: ws)) in
        let '(r, _, _) := r in
        do! scall CCloseAll ;;
        do! (if 0 <=? r then do! scall (CWait r) ;; ret tt else ret tt) ;;
        do! (if nz pipe_child then do! scall (CWait pipe_child) ;; ret tt else ret tt) ;;
        sexit
  end.

Definition run_line (ts : list token) : M W unit := let! x := run_tokens ts [] 0 in run_words (fst x) (snd x).

(** ** Simulation *)

Definition sim {A B : Type} (R : A -> shstate -> B -> Prop) (o : outcome shstate A) (o' : outcome W B) : Prop :=
  match o, o' with
  | Ret a s, Ret b w => sw s = w /\ R a s b
  | NoRet s, NoRet w => sw s = w
  | Panic e s, Panic e' w => e = e' /\ sw s = w
  | _, _ => False
  end.

Lemma sim_bind {A B A' B' : Type} (R : A -> shstate -> B -> Prop) (R' : A' -> shstate -> B' -> Prop) m m' k k' s w :
  sim R (m s) (m' w) -> (forall a s b, R a s b -> sim R' (k a s) (k' b (sw s))) -> sim R' (bind m k s) (bind m' k' w).
Proof. intros H Hk. unfold bind. destruct (m s), (m' w); cbn in H; try done. destruct H as [<- H]. by apply Hk. Qed.

(** A call changes nothing but the rest of the system. *)
Definition same_shell (s0 s : shstate (W := W)) : Prop := sm s = sm s0 /\ st_nc s = st_nc s0 /\ st_np1 s = st_np1 s0 /\ st_np2 s = st_np2 s0.

Lemma same_shell_refl s : same_shell s s.
Proof. by split_ands. Qed.

Lemma sim_call c s0 s : same_shell s0 s -> sim (fun a s b => a = b /\ same_shell s0 s) (call os c s) (scall c (sw s)).
Proof. intros H. unfold call, scall. destruct (os c (sw s)) as [[[r a] b] w]. by cbn. Qed.

Lemma sexit_noret w : exists w', forall A, sexit (A := A) w = NoRet w'.
Proof. exists (snd (os CExit w)). intros A. unfold sexit, bind, scall. by destruct (os CExit w) as [[[r a] b] w']. Qed.

Lemma sim_exit {A B : Type} (R : A -> shstate -> B -> Prop) s : sim R (exit os s) (sexit (sw s)).
Proof. unfold exit, sexit. eapply sim_bind; [apply (sim_call CExit s), same_shell_refl|]. by intros. Qed.

Lemma sim_exit_bind {A A' B : Type} (R : A' -> shstate -> B -> Prop) (k : A -> M shstate A') s : sim R (bind (exit os) k s) (sexit (sw s)).
Proof. unfold exit, sexit, bind, call, scall, noret. by destruct (os CExit (sw s)) as [[[r a] b] w]. Qed.

Lemma sim_move fd n s0 s : same_shell s0 s -> sim (fun _ s _ => same_shell s0 s) (move_fd os fd n s) (smove fd n (sw s)).
Proof.
  intros H. unfold move_fd, smove. destruct (negb (fd =? n)); [|by split]. eapply sim_bind; [by apply sim_call|]. intros _ s1 _ [_ H1].
  eapply sim_bind; [by apply sim_call|]. intros _ s2 _ [_ H2]. by split.
Qed.

(** ** Reading tokens *)

Lemma skip_space_run sp r : forall f st s, Forall (fun x => in_set WHITESPACE x = true) sp -> match r with [] => True | x :: _ => in_set WHITESPACE x = false end ->
  cstr (sm st) s (sp ++ r) -> (length sp < f)%nat ->
  exists m', loop f (fun s => let! m := gets sm in if in_set WHITESPACE (m s) then do! modify (set_sm (upd m s 0)) ;; ret (inl (s + 1)) else ret (inr s)) s st =
    Ret (s + len sp) (set_sm (W := W) m' st) /\ (forall a, m' a = if decide (s <= a < s + len sp) then 0 else sm st a) /\ cstr m' (s + len sp) r.
Proof.
  induction sp as [|x sp IH]; intros f st s Hsp Hr Hc Hf; (destruct f as [|f]; [cbn in Hf; lia|]); cbn [loop app length] in *; rewrite bind_assoc, bind_gets.
  - assert (in_set WHITESPACE (sm st s) = false) as ->.
    { destruct r as [|x r]; [apply cstr_nil in Hc; by rewrite Hc|]. apply cstr_cons in Hc as (_ & -> & _). done. }
    rewrite bind_ret. exists (sm st). change (Z.of_nat 0) with 0. rewrite Z.add_0_r. split; [by destruct st|]. split; [intros a; by rewrite decide_False by lia|done].
  - apply Forall_cons in Hsp as [Hx Hsp]. apply cstr_cons in Hc as (H1 & H2 & H3). rewrite H2, Hx, bind_assoc, bind_modify, bind_ret.
    destruct (IH f (set_sm (upd (sm st) s 0) st) (s + 1) Hsp Hr) as (m' & Hm & Ha & Hc).
    { eapply cstr_frame; [exact H3|]. intros a Ha. cbn. unfold upd. rewrite decide_False by lia. done. }
    { lia. }
    exists m'. replace (s + Z.of_nat (S (length sp))) with (s + 1 + len sp) by lia. split; [rewrite Hm; by destruct st|]. split; [|done].
    intros a. rewrite Ha. cbn [sm set_sm]. unfold upd. repeat case_decide; (done || lia).
Qed.

Lemma skip_word_run pre post : forall f st s, Forall (fun x => special x = false) pre -> stop post -> cstr (sm st) s (pre ++ post) -> (length pre < f)%nat ->
  loop f (fun s => let! m := gets sm in if nz (m s) && negb (in_set (WHITESPACE ++ SYMBOLS) (m s)) then ret (inl (s + 1)) else ret (inr s)) s st =
    Ret (s + len pre) (st : shstate (W := W)).
Proof.
  induction pre as [|x pre IH]; intros f st s Hpre Hpost Hc Hf; (destruct f as [|f]; [cbn in Hf; lia|]); cbn [loop app length] in *; rewrite bind_assoc, bind_gets.
  - assert (nz (sm st s) && negb (in_set (WHITESPACE ++ SYMBOLS) (sm st s)) = false) as ->.
    { destruct post as [|x post]; [apply cstr_nil in Hc; by rewrite Hc|]. apply cstr_cons in Hc as (_ & -> & _). cbn in Hpost. unfold special in Hpost. rewrite Hpost. by rewrite andb_false_r. }
    rewrite bind_ret. change (Z.of_nat 0) with 0. by rewrite Z.add_0_r.
  - apply Forall_cons in Hpre as [Hx Hpre]. apply cstr_cons in Hc as (H1 & H2 & H3). rewrite H2. unfold special in Hx. rewrite Hx, (proj2 (nz_true x) H1). cbn [andb negb].
    rewrite bind_ret. rewrite (IH f st (s + 1) Hpre Hpost H3 ltac:(lia)). f_equal. lia.
Qed.

(** The token that [gettoken] has found and not yet returned, with the rest of the
    line behind it; [hi] is the end of the line. *)
Definition pending (m : cmem) (nc np1 np2 hi : Z) (ts : list token) : Prop :=
  match ts with
  | [] => nc = 0 /\ np2 = 0
  | TSym c :: ts => nc = c /\ 0 < np2 /\ in_set SYMBOLS c = true /\ exists r, cstr m np2 r /\ lex [] r = ts /\ np2 + len r <= hi
  | TWord w :: ts => nc = 119 /\ 0 < np1 /\ np2 = np1 + len w /\ w <> [] /\ Forall (fun b => b <> 0) w /\
      (forall i b, w !! i = Some b -> m (np1 + Z.of_nat i) = b) /\ exists r, cstr m np2 r /\ stop r /\ lex [] r = ts /\ np2 + len r <= hi
  end.

Lemma _gettoken_run st s p1 p2 l hi : 0 < s -> cstr (sm st) s l -> s + len l <= hi -> (length l < fuel)%nat ->
  exists nc np1 np2 m', _gettoken fuel s p1 p2 st = Ret (nc, np1, np2) (set_sm (W := W) m' st) /\ pending m' nc np1 np2 hi (lex [] l) /\
    (forall a, a < s \/ hi < a -> m' a = sm st a) /\ (stop l -> m' s = 0) /\ (lex [] l <> [] -> s < np2 /\ s <= np1).
Proof.
  intros Hs Hc Hhi Hf. unfold _gettoken, skip_space. destruct (Z.eqb_spec s 0); [lia|].
  destruct (lex_space l) as (sp & r & -> & Hsp & Hlex & Hr). rewrite length_app in Hf, Hhi.
  destruct (skip_space_run sp r fuel st s Hsp Hr Hc ltac:(lia)) as (m' & Hm & Ha & Hc'). mrun Hm. rewrite bind_gets. cbn [sm set_sm]. rewrite Hlex.
  assert (sp <> [] -> m' s = 0) as Hsp0 by (intros Hne; rewrite Ha, decide_True; [done|destruct sp; [done|cbn [length]; lia]]).
  destruct r as [|x r].
  { apply cstr_nil in Hc' as Hz. rewrite Hz. exists 0, 0, 0, m'. split; [done|]. split; [done|]. split; [intros a Hd; rewrite Ha, decide_False by lia; done|].
    split; [|done]. intros _. destruct sp; [|by apply Hsp0]. cbn [length] in Hz. by rewrite Z.add_0_r in Hz. }
  pose proof Hc' as Hc2. apply cstr_cons in Hc2 as (Hx0 & Hx & Hc2). rewrite Hx. destruct (Z.eqb_spec x 0); [done|]. cbn [lex length] in *. rewrite Hr.
  destruct (in_set SYMBOLS x) eqn:Es; cbn [flush app].
  - rewrite bind_modify. set (q := s + len sp) in *. exists x, q, (q + 1), (upd m' q 0). split; [by destruct st|]. split_ands.
    + split; [done|]. split; [lia|]. split; [done|]. exists r. split; [|split; [done|lia]]. eapply cstr_frame; [exact Hc2|]. intros a Hd. unfold upd. by rewrite decide_False by lia.
    + intros a Hd. unfold upd. rewrite decide_False by lia. rewrite Ha, decide_False by lia. done.
    + intros _. unfold upd. case_decide; [done|]. apply Hsp0. intros ->. cbn in q. lia.
    + intros _. lia.
  - destruct (lex_word [x] r ltac:(done)) as (pre & post & -> & Hpre & Hpost & Hlw). rewrite Hlw. rewrite length_app in Hhi.
    assert (special x = false) as Hxs by (by rewrite special_or, Hr, Es). set (q := s + len sp) in *.
    change (x :: pre ++ post) with ((x :: pre) ++ post) in Hc'.
    assert (skip_word fuel q (set_sm m' st) = Ret (q + len (x :: pre)) (set_sm m' st)) as HW.
    { apply (skip_word_run (x :: pre) post fuel (set_sm m' st) q); [by constructor|done|done|]. rewrite length_app in Hf. cbn [length]. lia. }
    mrun HW. destruct (cstr_app _ _ _ _ Hc') as (J1 & J2 & J3). exists 119, q, (q + len (x :: pre)), m'. split; [done|]. split_ands.
    + split; [done|]. split; [lia|]. split; [done|]. split; [done|]. split; [done|]. split; [done|]. exists post. split; [done|]. split; [done|]. split; [done|]. cbn [length]. lia.
    + intros a Hd. rewrite Ha, decide_False by (rewrite ?length_app in *; lia). done.
    + intros Hst. apply Hsp0. intros ->. cbn in Hst. by rewrite Hxs in Hst.
    + intros _. cbn [length]. lia.
Qed.

(** ** The loop *)

Context (line hi : Z) (Hline : 0 < line) (Hfuel : (Z.to_nat (hi - line) + 10 < fuel)%nat).

(** The state between two tokens: what is still to be read is at or after
    [line], and what has been written stays before [st_np2]. *)
Definition reading (st : shstate (W := W)) (ts : list token) : Prop :=
  pending (sm st) (st_nc st) (st_np1 st) (st_np2 st) hi ts /\ (ts <> [] -> line <= st_np1 st /\ line < st_np2 st).

(** A word that has been returned. *)
Definition word_at (st : shstate (W := W)) (ts : list token) (p : Z) (w : list Z) : Prop :=
  line <= p /\ p + len w <= hi /\ w <> [] /\ cstr (sm st) p w /\ (ts <> [] -> p + len w < st_np2 st).

Lemma gettoken_step st t ts : reading st (t :: ts) ->
  exists st', gettoken fuel st = Ret (st_nc st, st_np1 st) st' /\ sw st' = sw st /\ reading st' ts /\
    match t with TWord w => st_nc st = 119 /\ word_at st' ts (st_np1 st) w | TSym c => st_nc st = c /\ in_set SYMBOLS c = true end /\
    (forall p w, word_at st (t :: ts) p w -> word_at st' ts p w).
Proof using Hline Hfuel.
  intros [Hp Hlo]. destruct (Hlo ltac:(done)) as [Hl1 Hl2]. unfold gettoken. rewrite bind_gets.
  assert (exists r, cstr (sm st) (st_np2 st) r /\ lex [] r = ts /\ st_np2 st + len r <= hi /\ match t with TWord _ => stop r | _ => True end) as (r & Hc & Hlex & Hhi & Hst).
  { destruct t as [w|c]; cbn in Hp; [destruct Hp as (_ & _ & _ & _ & _ & _ & r & H1 & H2 & H3 & H4)|destruct Hp as (_ & _ & _ & r & H1 & H3 & H4)]; by exists r. }
  destruct (_gettoken_run st (st_np2 st) (st_np1 st) (st_np2 st) r hi ltac:(lia) Hc Hhi ltac:(lia)) as (nc & np1 & np2 & m' & Hrun & Hpend & Hfr & Hstop & Hnp).
  mrun Hrun. rewrite bind_modify. rewrite Hlex in *. eexists. split; [reflexivity|]. split; [done|].
  assert (forall p w, line <= p -> p + len w < st_np2 st -> cstr (sm st) p w -> cstr m' p w) as Hframe.
  { intros p w H1 H2 H3. eapply cstr_frame; [exact H3|]. intros a Ha. apply Hfr. left. lia. }
  split; [split; [exact Hpend|cbn; intros Hne; destruct (Hnp Hne); lia]|]. split.
  - destruct t as [w|c]; cbn in Hp; [|by destruct Hp as (? & _ & ? & _)]. destruct Hp as (H1 & H2 & H3 & H4 & H5 & H6 & _). split; [done|]. unfold word_at. cbn [sm set_tok set_sm st_np2]. split_ands; [lia|..|done| |].
    + lia.
    + unfold cstr. split_ands; [done| |].
      * intros i b Hb. rewrite Hfr; [by apply H6|]. left. apply lookup_lt_Some in Hb. lia.
      * rewrite <- H3. by apply Hstop.
    + intros Hne. destruct (Hnp Hne). lia.
  - intros p w (H1 & H2 & H3 & H4 & H5). specialize (H5 ltac:(done)). unfold word_at. cbn [sm set_tok set_sm st_np2]. split_ands; [done|done|done|by apply Hframe|]. intros Hne. destruct (Hnp Hne). lia.
Qed.

Lemma gettoken_end st : reading st [] -> exists st', gettoken fuel st = Ret (0, st_np1 st) st' /\ sw st' = sw st /\ reading st' [] /\ sm st' = sm st.
Proof.
  intros [[Hnc Hnp] _]. unfold gettoken, _gettoken. rewrite bind_gets, Hnc, Hnp. change (0 =? 0) with true. cbv iota. rewrite bind_ret, bind_modify.
  eexists. split; [reflexivity|]. by split_ands.
Qed.

(** The string of a word. *)
Lemma string_at_cstr f m p w : cstr m p w -> (length w < f)%nat -> string_at f m p = w.
Proof.
  revert f p. induction w as [|x w IH]; intros f p H Hf; (destruct f as [|f]; [cbn in Hf; lia|]); cbn [string_at].
  - apply cstr_nil in H. by rewrite H.
  - apply cstr_cons in H as (H1 & H2 & H3). rewrite H2. destruct (Z.eqb_spec x 0); [done|]. rewrite (IH f (p + 1) H3); [done|]. cbn in Hf. lia.
Qed.

Definition words_at (st : shstate (W := W)) (ts : list token) (ps : list Z) (ws : list (list Z)) : Prop := Forall2 (word_at st ts) ps ws.

Lemma same_reading s0 s ts : same_shell s0 s -> reading s0 ts -> reading s ts.
Proof. intros (H1 & H2 & H3 & H4) [R1 R2]. unfold reading. by rewrite H1, H2, H3, H4. Qed.

Lemma same_words s0 s ts ps ws : same_shell s0 s -> words_at s0 ts ps ws -> words_at s ts ps ws.
Proof. intros (H1 & H2 & H3 & H4) Hw. eapply Forall2_impl; [exact Hw|]. intros p w. unfold word_at. by rewrite H1, H4. Qed.

Definition parsed (x : list Z * Z) (st : shstate (W := W)) (y : list (list Z) * Z) : Prop :=
  snd x = snd y /\ Forall2 (fun p w => line <= p /\ p + len w <= hi /\ w <> [] /\ cstr (sm st) p w) (fst x) (fst y).

Lemma words_parsed st ts ps ws pc : words_at st ts ps ws -> parsed (ps, pc) st (ws, pc).
Proof. intros H. split; [done|]. eapply Forall2_impl; [exact H|]. intros p w (H1 & H2 & H3 & H4 & _). by split_ands. Qed.

Lemma redirect_sim st ts omode n : reading st ts ->
  sim (fun _ st' _ => exists w ts', ts = TWord w :: ts' /\ reading st' ts' /\ forall p v, word_at st ts p v -> word_at st' ts' p v)
    (redirect os fuel omode n st) (match ts with TWord w :: _ => sopen w omode n | _ => sexit end (sw st)).
Proof using Hline Hfuel.
  intros HR. unfold redirect. destruct ts as [|t ts].
  { destruct (gettoken_end st HR) as (st' & Hg & Hw & _). mrun Hg. rewrite <- Hw. apply sim_exit. }
  destruct (gettoken_step st t ts HR) as (st' & Hg & Hw & HR' & Ht & Hws). mrun Hg. rewrite <- Hw. destruct t as [w|c].
  - destruct Ht as [-> (H1 & H2 & H3 & H4 & H5)]. change (negb (119 =? 119)) with false. cbv iota. unfold get_string. rewrite bind_gets.
    rewrite (string_at_cstr fuel (sm st') _ w H4) by lia. unfold sopen. eapply sim_bind; [apply (sim_call _ st'), same_shell_refl|].
    intros [[fd a] b] s1 _ [<- Hs]. destruct (fd <? 0); [apply sim_exit|].
    pose proof (sim_move fd n st' s1 Hs) as HM. unfold sim in *. destruct (move_fd os fd n s1), (smove fd n (sw s1)); try done. destruct HM as [<- HM]. split; [done|].
    exists w, ts. split; [done|]. split; [by apply (same_reading st')|]. intros p v Hv. apply Hws in Hv. unfold word_at in *. destruct HM as (-> & _ & _ & ->). done.
  - destruct Ht as [-> Hc]. assert (negb (c =? 119) = true) as ->.
    { destruct (Z.eqb_spec c 119) as [->|]; done. }
    apply sim_exit.
Qed.

Lemma runcmd_loop_sim : forall f ts st ps ws pc, (length ts < f)%nat -> reading st ts -> words_at st ts ps ws ->
  sim parsed (loop f (runcmd_round os fuel) (ps, pc) st) (run_tokens ts ws pc (sw st)).
Proof using Hline Hfuel.
  induction f as [|f IH]; intros ts st ps ws pc Hf HR HW; [lia|]. cbn [loop]. unfold runcmd_round at 1. rewrite bind_assoc. destruct ts as [|t ts].
  { destruct (gettoken_end st HR) as (st' & Hg & Hw & _ & Hm). mrun Hg. rewrite bind_ret. cbn [run_tokens]. split; [done|].
    apply (words_parsed st' []). eapply Forall2_impl; [exact HW|]. intros p w (H1 & H2 & H3 & H4 & _). unfold word_at. rewrite Hm. by split_ands. }
  destruct (gettoken_step st t ts HR) as (st' & Hg & Hw & HR' & Ht & Hws). mrun Hg. rewrite <- Hw. cbn [length] in Hf.
  assert (words_at st' ts ps ws) as HW' by (eapply Forall2_impl; [exact HW|]; done).
  destruct t as [w|c].
  - destruct Ht as [-> Ht]. cbn [run_tokens]. rewrite (Forall2_length _ _ _ HW). destruct (MAXARGS =? length ws)%nat.
    { apply sim_exit_bind. }
    rewrite bind_ret. apply IH; [lia|done|]. apply Forall2_app; [done|]. by constructor.
  - destruct Ht as [-> Hc]. assert (c ∈ SYMBOLS) as Hin by (by apply bool_decide_eq_true in Hc). unfold SYMBOLS in Hin.
    assert (forall omode n, sim parsed (bind (bind (redirect os fuel omode n) (fun _ => ret (inl (ps, pc)))) (fun r => match r with inl x' => loop f (runcmd_round os fuel) x' | inr b => ret b end) st')
      (match ts with TWord w :: ts => bind (sopen w omode n) (fun _ => run_tokens ts ws pc) | _ => sexit end (sw st'))) as Hredir.
    { intros omode n. rewrite bind_assoc. pose proof (redirect_sim st' ts omode n HR') as Hrd.
      assert (forall (k : unit -> M shstate (list Z * Z)), match ts with TWord _ :: _ => False | _ => True end -> sim parsed (bind (redirect os fuel omode n) k st') (sexit (sw st'))) as Hno.
      { intros k Hk. destruct (sexit_noret (sw st')) as (w' & Hw'). rewrite Hw'. unfold bind. destruct ts as [|[w|c'] ts]; [|done|]; rewrite Hw' in Hrd;
          by destruct (redirect os fuel omode n st'). }
      destruct ts as [|[w|c'] ts].
      - by apply Hno.
      - eapply sim_bind; [exact Hrd|]. intros _ s1 _ (w' & ts' & [= <- <-] & HR1 & Hw1). rewrite bind_ret. apply IH; [cbn in Hf; lia|done|]. eapply Forall2_impl; [exact HW'|]. done.
      - by apply Hno. }
    cbn [run_tokens]. rewrite !elem_of_cons, elem_of_nil in Hin.
    destruct Hin as [->|[->|[->|[->|[->|[->|[->|[]]]]]]]]; [exact (Hredir 0 0)| |exact (Hredir 0x301 1)|split; done|split; done|split; done|split; done].
    cbn [redirection Z.eqb Pos.eqb]. rewrite bind_assoc. eapply sim_bind; [apply (sim_call _ st'), same_shell_refl|]. intros [[r p0] p1] s1 _ [<- S1].
    destruct (r <? 0); [apply sim_exit_bind|]. rewrite bind_assoc. eapply sim_bind; [by apply (sim_call _ st')|]. intros [[r' x] y] s2 _ [<- S2].
    destruct (r' <? 0); [apply sim_exit_bind|]. destruct (r' =? 0); rewrite bind_assoc; (eapply sim_bind; [by apply (sim_move _ _ st')|]); intros ? s3 ? S3; cbv beta in S3;
      rewrite bind_assoc; (eapply sim_bind; [by apply (sim_call _ st')|]); intros _ s4 _ [_ S4]; rewrite bind_ret.
    + apply IH; [lia|by apply (same_reading st')|constructor].
    + split; [done|]. apply (words_parsed s4 ts). by apply (same_words st').
Qed.

(** ** Running the command *)

Context (buf : Z) (Hbuf : hi < buf \/ buf + BUFSIZ <= line) (Hlong : hi - line + 7 <= BUFSIZ).

(** The program to run: in [argv0buf], from the root, or a word of the line. *)
Definition program_at (m : cmem) (p : Z) (w : list Z) : Prop :=
  cstr m p w /\ w <> [] /\ len w <= hi - line + 6 /\ ((p = buf /\ head w = Some 47) \/ (line <= p /\ p + len w <= hi)).

Definition outside (m m' : cmem) : Prop := forall a, ~ (buf <= a < buf + BUFSIZ) -> m' a = m a.

Lemma strcat_run m p w arg0 : Forall (fun b => b <> 0) p -> (length p <= 5)%nat -> cstr m arg0 w -> line <= arg0 -> arg0 + len w <= hi ->
  exists m', strcat fuel (store_n m buf (p ++ [0])) buf arg0 = Some m' /\ cstr m' buf (p ++ w) /\ outside m m'.
Proof using Hfuel Hbuf Hlong Hline.
  intros Hp Hp5 Hc H1 H2. destruct (store_cstr m buf p Hp) as [S1 S2]. unfold strcat. assert (BUFSIZ = 1024) as HB by done.
  rewrite (strlen_cstr _ _ p fuel S1) by lia. set (m1 := store_n m buf (p ++ [0])) in *.
  destruct (strcpy_run w fuel m1 (buf + len p) arg0) as (m' & Hm & Hc' & Hfr); [|lia|lia|].
  { eapply cstr_frame; [exact Hc|]. intros a Ha. apply S2. lia. }
  exists m'. split; [done|]. split.
  - apply cstr_join; [done| |done]. intros i b Hi. rewrite Hfr by (apply lookup_lt_Some in Hi; lia). by apply (proj1 (proj2 S1)).
  - intros a Ha. rewrite Hfr by lia. apply S2. lia.
Qed.

Lemma find_program_sim paths : Forall (fun p => Forall (fun b => b <> 0) p /\ (length p <= 5)%nat /\ head p = Some 47) paths ->
  forall st arg0 w, cstr (sm st) arg0 w -> w <> [] -> line <= arg0 -> arg0 + len w <= hi ->
  sim (fun p st' w' => program_at (sm st') p w' /\ outside (sm st) (sm st')) (find_program os fuel paths buf arg0 st) (sfind paths w (sw st)).
Proof using Hfuel Hbuf Hlong Hline.
  assert (BUFSIZ = 1024) as HB by done. induction 1 as [|p paths (P1 & P2 & P3) _ IH]; intros st arg0 w Hc Hw H1 H2; cbn [find_program sfind].
  - split; [done|]. split; [|done]. split; [done|]. split; [done|]. split; [lia|by right].
  - destruct (strcat_run (sm st) p w arg0 P1 P2 Hc H1 H2) as (m' & Hm & Hc' & Ho). rewrite bind_gets, Hm, bind_modify. unfold get_string. rewrite bind_gets. cbn [sm set_sm].
    rewrite (string_at_cstr fuel m' buf (p ++ w) Hc') by (rewrite length_app; lia).
    eapply sim_bind; [apply (sim_call _ (set_sm m' st) (set_sm m' st)), same_shell_refl|]. intros [[r x] y] s1 _ [<- (E1 & _)]. cbn [sm set_sm] in E1.
    destruct (r =? 0).
    + split; [done|]. rewrite E1. split; [|done]. split; [done|]. rewrite length_app. split; [by destruct p|]. split; [lia|]. left. split; [done|]. by destruct p.
    + assert (cstr (sm s1) arg0 w) as Hc1 by (rewrite E1; eapply cstr_frame; [exact Hc|]; intros a Ha; apply Ho; lia).
      pose proof (IH s1 arg0 w Hc1 Hw H1 H2) as Hs. unfold sim in *. destruct (find_program os fuel paths buf arg0 s1), (sfind paths w (sw s1)); try done.
      destruct Hs as (<- & Hp & Ho2). split; [done|]. split; [done|]. intros b Hb. rewrite Ho2 by done. rewrite E1. by apply Ho.
Qed.

Lemma add_slash_run st p w : program_at (sm st) p w ->
  exists p' m', add_slash fuel buf p st = Ret p' (set_sm (W := W) m' st) /\ cstr m' p' (with_slash w) /\ outside (sm st) m' /\ (length (with_slash w) < fuel)%nat.
Proof using Hfuel Hbuf Hlong Hline.
  intros (Hc & Hw & Hl & Hp). assert (BUFSIZ = 1024) as HB by done. unfold add_slash. rewrite bind_gets. destruct w as [|x w]; [done|].
  pose proof Hc as Hc2. apply cstr_cons in Hc2 as (_ & Hx & _). rewrite Hx. unfold with_slash. cbn [head].
  destruct (Z.eqb_spec x 47) as [->|Hne]; cbn [negb].
  - rewrite bool_decide_true by done. exists p, (sm st). split; [by destruct st|]. split; [done|]. split; [done|lia].
  - rewrite bool_decide_false by congruence. destruct Hp as [[_ [= ?]]|[H1 H2]]; [done|].
    destruct (strcpy_run (x :: w) fuel (upd (sm st) buf 47) (buf + 1) p) as (m' & Hm & Hc' & Hfr); [|lia|lia|].
    { eapply cstr_frame; [exact Hc|]. intros a Ha. unfold upd. rewrite decide_False by lia. done. }
    rewrite Hm, bind_modify. exists buf, m'. split; [done|]. split; [|split; [|cbn [length] in *; lia]].
    + apply cstr_cons. split; [done|]. split; [|done]. rewrite Hfr by lia. unfold upd. by rewrite decide_True.
    + intros a Ha. rewrite Hfr by lia. unfold upd. rewrite decide_False by lia. done.
Qed.

Lemma get_strings_run st ps ws : Forall2 (fun p w => line <= p /\ p + len w <= hi /\ w <> [] /\ cstr (sm st) p w) ps ws -> get_strings fuel ps st = Ret ws (st : shstate (W := W)).
Proof using Hfuel.
  induction 1 as [|p w ps ws (H1 & H2 & _ & H3) _ IH]; cbn [get_strings]; [done|]. unfold get_string. rewrite bind_gets, (string_at_cstr fuel _ p w H3) by lia. by mrun IH.
Qed.

Lemma runit_sim st argv args pc : parsed (argv, pc) st (args, pc) -> sim (fun _ _ _ => True) (runit os fuel buf argv pc st) (run_words args pc (sw st)).
Proof using Hfuel Hbuf Hlong Hline.
  intros [_ HW]. cbn [fst] in HW. pose proof (Forall2_length _ _ _ HW) as Hlen. destruct HW as [|p w ps ws (H1 & H2 & H3 & H4) HW]; cbn [runit run_words]; [done|].
  eapply sim_bind; [apply (find_program_sim PATH); [by repeat constructor|exact H4|done|done|done]|]. intros p1 s1 w1 [HP1 Ho1].
  destruct (add_slash_run s1 p1 w1 HP1) as (p2 & m2 & Ha & Hc2 & Ho2 & Hf2). mrun Ha. rewrite Hlen. cbn [length].
  destruct (MAXARGS <=? S (length ws))%nat; [by split|]. unfold get_string. rewrite bind_gets. cbn [sm set_sm]. rewrite (string_at_cstr fuel m2 p2 _ Hc2 Hf2).
  assert (get_strings fuel ps (set_sm m2 s1) = Ret ws (set_sm m2 s1)) as Hs.
  { apply get_strings_run. eapply Forall2_impl; [exact HW|]. intros p' w' (J1 & J2 & J3 & J4). split_ands; [done|done|done|]. eapply cstr_frame; [exact J4|].
    intros a Hd. cbn [sm set_sm]. rewrite Ho2 by lia. apply Ho1. lia. }
  mrun Hs. change (sw s1) with (sw (set_sm m2 s1)). eapply sim_bind; [apply (sim_call _ (set_sm m2 s1)), same_shell_refl|]. intros [[r x] y] s2 _ [<- S2].
  eapply sim_bind; [by apply (sim_call _ (set_sm m2 s1))|]. intros _ s3 _ [_ S3].
  eapply (sim_bind (fun _ s _ => same_shell (set_sm m2 s1) s)).
  { destruct (0 <=? r); [|by split]. eapply sim_bind; [by apply (sim_call _ (set_sm m2 s1))|]. intros _ s4 _ [_ S4]. by split. }
  intros ? s4 ? S4. cbv beta in S4. eapply (sim_bind (fun _ s _ => same_shell (set_sm m2 s1) s)).
  { destruct (nz pc); [|by split]. eapply sim_bind; [by apply (sim_call _ (set_sm m2 s1))|]. intros _ s5 _ [_ S5]. by split. }
  intros ? s5 ? S5. apply sim_exit.
Qed.
End Refine.

Lemma lex_length w l : (length (lex w l) <= length (flush w) + length l)%nat.
Proof.
  revert w. induction l as [|x l IH]; intros w; cbn [lex length]; [lia|]. pose proof (IH []). cbn [flush length] in *.
  destruct (in_set WHITESPACE x); [|destruct (in_set SYMBOLS x)]; rewrite ?length_app; cbn [length]; [lia..|].
  pose proof (IH (w ++ [x])). assert (length (flush (w ++ [x])) = 1%nat) as E by (by destruct w). lia.
Qed.

(** C26: A command line that fits is run as the list of its tokens: whatever the
    rest of the system answers, [runcmd] with its words cut in place, its one
    token of lookahead and its buffer for the name makes the calls of the program on
    lists, in its order, and ends as it does. *)
Theorem runcmd_refines {W : Type} (os : sh_call -> W -> Z * Z * Z * W) (fuel : nat) (buf line : Z) (l : list Z) (st : shstate) :
  cstr (sm st) line l -> 0 < line -> line + len l < buf \/ buf + BUFSIZ <= line -> len l + 7 <= BUFSIZ -> (length l + 10 < fuel)%nat ->
  sim (fun _ _ _ => True) (runcmd os fuel buf line st) (run_line os (lex [] l) (sw st)).
Proof.
  intros Hc Hline Hbuf Hlen Hf. pose proof (lex_length [] l) as Hll. cbn [flush length] in Hll.
  destruct (_gettoken_run fuel st line (st_np1 st) (st_np2 st) l (line + len l) Hline Hc) as (nc & np1 & np2 & m' & Hrun & Hpend & _ & _ & Hnp); [lia..|].
  unfold runcmd, gettoken_start, run_line. rewrite bind_assoc, bind_gets, bind_assoc. mrun Hrun. rewrite bind_modify.
  set (st' := set_tok (st_c st) nc np1 np2 (set_sm m' st)). change (sw st) with (sw st'). eapply (sim_bind (parsed line (line + len l))).
  - apply (runcmd_loop_sim os fuel line (line + len l)); [done|lia|lia| |constructor]. split; [exact Hpend|]. cbn. intros Hne. destruct (Hnp Hne). lia.
  - intros [argv pc] s [args pc'] Hp. pose proof Hp as [Hpc _]. cbn in Hpc. subst pc'. cbn [fst snd].
    apply (runit_sim os fuel line (line + len l)); [done|lia|done|lia|done].
Qed.

(** [cat <a | b] in the parent: the program is in [/], the file opens as 3. *)
Definition trace_os (c : sh_call) (w : list sh_call) : Z * Z * Z * list sh_call :=
  let r :=
    match c with
    | COpen _ _ => 3
    | CFork => 7
    | CSpawn _ _ => 8
    | CStat p => if bool_decide (p = [47; 99; 97; 116]) then 0 else -1
    | _ => 0
    end in
  (r, 4, 5, w ++ [c]).

Definition cat_line : list Z := [99; 97; 116; 32; 60; 97; 32; 124; 32; 98].

Definition cat_shell : shstate (W := list sh_call) := mkSh (store_n (fun _ => 0) 4096 (cat_line ++ [0])) 0 0 0 0 [].

Lemma runcmd_refines_witness :
  sim (fun _ _ _ => True) (runcmd trace_os 50 8192 4096 cat_shell) (run_line trace_os (lex [] cat_line) []) /\
  run_line trace_os (lex [] cat_line) [] =
    NoRet [COpen [97] 0; CDup 3 0; CClose 3; CPipe; CFork; CDup 5 1; CClose 5; CClose 4; CStat [47; 98; 105; 110; 47; 99; 97; 116]; CStat [47; 99; 97; 116];
           CSpawn [47; 99; 97; 116] [[47; 99; 97; 116]]; CCloseAll; CWait 8; CWait 7; CExit].
Proof.
  split; [|by vm_compute]. apply (runcmd_refines trace_os 50 8192 4096 cat_line cat_shell); [|lia|left; by vm_compute|by vm_compute|vm_compute; lia].
  apply (store_cstr (fun _ => 0) 4096 cat_line). by repeat constructor.
Defined.
